(* ===== verification/_CoqProject ===== *)
-Q . S2P
Prelude.v
CLib.v
Errors.v
Random.v
Sha256.v
Hmac.v
Aes.v
AesSpec.v
Record.v
Btree.v
BtreeSpec.v
Cap.v
CapSpec.v
Database.v
DatabaseSpec.v
Transaction.v
Ipc.v
Pmm.v
Heap.v
Paging.v
Klist.v
Sched.v
Arch.v
Printf.v
Query.v
Client.v
QuerySpec.v
QueryWrites.v
Ring.v
Keyboard.v
Mouse.v
Event.v
History.v
Friendly.v
FriendlySpec.v
Stored.v
SqlSpec.v
Complete.v
Font.v
Pixels.v
TextBuf.v
LineEditor.v
LineEditorSpec.v
Script.v
ScriptSpec.v
Framebuffer.v
FramebufferSpec.v
Console.v
Tui.v
TuiSpec.v
Display.v
DisplaySpec.v
Messages.v
Shell.v
ShellSpec.v
Window.v
WindowSpec.v
Widgets.v
WidgetsSpec.v
Calculator.v
VaultPad.v
VaultPadSpec.v
Document.v
DocumentSpec.v
DataWindows.v
DataWindowsSpec.v
Paint.v
PaintSpec.v
Graphics.v
Compositor.v
CompositorSpec.v
Desktop.v
DesktopSpec.v
Boot.v
BootSpec.v
