(* ===== verification/Prelude.v ===== *)
(** * VaultOS: a verification development

    VaultOS is an x86-64 kernel in C in which everything is a row of an
    encrypted database and every access is governed by capabilities, with a
    shell and a graphical desktop on top.  This library models its parts as
    Rocq functions, one file per component, and proves what makes each of them
    correct.  Files named [XSpec] hold the theorems about file [X]; other files
    hold a component's definitions followed by its theorems.

    ** The program and its model

    - Foundations.  This file: machine words as [Z] with explicit wrap-around
      ([u8] ... [u64]), list and array lemmas, the [outcome] of code that may
      fault or need fuel, tactics and hint databases.  [CLib]: memory and string
      routines (src/kernel/lib/string.c), word loops and alignment included.
      [Errors]: the error codes.  [Printf]: the formatter and [snprintf]
      (lib/printf.c); [Console]: [kprintf] on the serial line (drivers/serial.c)
      and the text console.  [Klist]: the intrusive circular lists (lib/list.h), as
      updates of a memory of links.  [Ring]: the ring buffers of the drivers,
      as an interface that keyboard, mouse and event queue instantiate.
    - Cryptography (src/kernel/crypto).  [Random]: RDRAND with its retry and the
      fallback generator; the instruction is a type class ([Hw]).  [Sha256],
      [Hmac], [Aes]: the streaming hash, both HMAC computations, both ciphers
      (tables and AES-NI, whose instructions are the class [AesNi] with its
      laws), CBC and padding.
    - Storage (src/kernel/db).  [Record]: rows and their wire format (record.c,
      record_serde.c).  [Btree]: the B-tree over fixed-size nodes (btree.c).
      [Database]: tables, keys, encrypt-then-MAC, audit log (database.c).
      [Query]: tokenizer, parser and all statements (query.c), in a state monad
      over database, capability table and allocation answers.  [Client]: how
      the shell and the windows call it; [Stored]: texts kept as rows of the
      object table.  [Transaction]: transaction.c.
    - Authority (src/kernel/cap).  [Cap]: capabilities, seals, the validation
      cache, grants, delegation, revocation, the table.
    - Memory (src/kernel/mm).  [Pmm]: page bitmap.  [Heap]: kmalloc and kfree on
      the list of block headers.  [Paging]: page tables as words of physical
      memory, vmm_init, and [heap_expand], which maps the pages it adds.
    - Processes (src/kernel/proc).  [Sched]: process table, ready queue, round
      robin.  [Ipc]: the message ring.
    - Processor (src/kernel/arch/x86_64).  [Arch]: segment descriptors, gates,
      the two interrupt controllers by their data sheet, the stubs of isr.asm
      on the registers and the stack, the routing of interrupts, the timer
      tick, the SYSCALL registers.  [Console] has the system calls, with user
      memory as a function of addresses.
    - Start.  [Boot]: the boot loader (src/boot/bootloader.c) over the firmware
      as a type class, and the kernel's entry (src/kernel/main.c), which
      composes the initialisation of every component.
    - Devices (src/kernel/drivers).  [Keyboard], [Mouse]: interrupt handlers,
      state machines, buffers.  [Font]: the glyphs.  [Framebuffer]: the text
      console on the pixels of the screen.
    - Shell (src/shell).  [History], [Complete], [Friendly] (commands into
      queries), [LineEditor] (one turn of the loop per key).  [Script]:
      recording and running scripts (script.c).  [Tui], [Display]: the frame
      and the tables on the text screen (tui.c, display.c).  [Messages] and
      [Shell]: every command of shell_main.c, with what it prints.
    - Desktop (src/gui).  [Event], [Window], [Widgets], [Graphics],
      [Compositor].  The applications of desktop.c: [Calculator], [VaultPad] and
      [Document] (the editor, saving and loading), [DataWindows] (the windows
      on the database), [Paint] (what each window shows), and [Desktop] (menu,
      task bar, the controls of every window, the event loop).  [Pixels] (drawing as stores into pixel memory) and [TextBuf]
      (a text with a cursor in a fixed array) carry the arguments they share.

    They interact as in the code: [Query] calls [Database] and [Cap], which call
    [Record], [Btree], [Aes], [Hmac]; [LineEditor] reads keys of [Keyboard],
    lines of [History] and words of [Complete]; [Event] drains [Mouse] and
    [Keyboard] and [Window] dispatches its events; [Compositor] draws the
    windows of [Window] through [Graphics]; [Shell] and [Desktop] run over the
    database, the processes and the heap at once; [Boot] starts them all.

    ** What is proved

    - Storage.  The B-tree refines a finite map under search, insertion with
      splits, deletion and scan ([BtreeSpec]); deserializing inverts
      serializing, and is total on untrusted bytes ([Record]); a stored row
      reads back, tampering is refused, updates and deletions touch one row
      ([DatabaseSpec]); SELECT and INSERT mean what SQL says, on conditions and
      columns given apart from the parser and the matcher ([SqlSpec]), DELETE
      removes what it matches, the audit log included ([QueryWrites]); parsing
      terminates ([QuerySpec]).
    - Cryptography.  Equality with FIPS 180-4 and RFC 2104 written as
      specifications; key expansion, encryption and decryption are those of
      FIPS 197, computed in GF(2^8), on both code paths ([AesSpec]).
    - Authority.  Attenuation as an invariant of every reachable state, exact
      access checks, all paths of granting, termination and the exact reach of
      revocation by the kernel, which stops at what is already revoked
      ([CapSpec]).
    - Memory and processes.  Allocators return disjoint areas and fail only
      when they must; mapping a page changes the translation of that page only;
      in the reachable states where the running process is not at the head of
      the ready queue it serves everyone within a round, and in the others it
      serves nobody else ([Sched]); an interrupt line reaches its handler
      through its gate and stub and no other line is disturbed ([Arch]).
    - Devices and user interface.  The race between handler and reader loses a
      key only when the buffer is full, keys being what the layout of the
      keyboard says; a typed line is what the shell gets; the line editor, the
      text boxes and the document editor refine a text with a cursor
      ([LineEditorSpec], [WidgetsSpec], [VaultPadSpec]); the console refines a
      grid of characters ([FramebufferSpec]); the window stack and the focus
      ([WindowSpec]); every pixel of a frame ([CompositorSpec]); all drawing
      stays inside its buffer; commands mean the queries they become
      ([FriendlySpec]).
    - Whole paths.  A script or a document without apostrophes that was stored
      comes back line by line, and a script executes its commands in order
      ([ScriptSpec], [DocumentSpec]); a message without apostrophes reaches the
      mailbox it was sent to and [kill] ends one process and nothing else
      ([ShellSpec]); a press on any button of an application that has been
      opened reaches its handler ([DesktopSpec]), and a press acts on what is drawn there ([PaintSpec]).
    - Start.  What the loader hands over, and that [kernel_main] arrives at the
      shell with the invariants of all components ([BootSpec]); what the system
      calls do ([Console]).
    - Defects the model exposes are Examples and theorems of the component
      (for instance [btree_insert_overrun], [grant_needs_no_authority],
      [del_word_deletes_all], [click_one_row_off]).

    ** Bounds, fuel and assumptions

    Loops over data recurse on it.  The others take fuel and answer [NoFuel]
    when it runs out; the theorems show it does not: tree walks get the depth
    of the tree, parsing loops two more than the characters left, revocation
    the table size, the event pump one step per waiting input.  [Fault] marks a
    read outside an array or a null pointer.  Reading a C array through [.[i]]
    is total; the theorems keep the index in range.  Allocation is an oracle:
    an argument says which calls of kmalloc succeed.  The clock, uninitialised
    stack cells, and the paint callbacks of windows are arguments too.
    Insertion needs a tree no internal node of which is one key short of full
    ([tree_roomy], [room_for]): without it the code overruns a node, which
    [btree_insert_overrun] shows.  Screens are less than 2^15 pixels each way.

    ** Not modelled

    The other assembly stubs (kernel entry, system call entry, context
    switch), the TLB and the CR3 register; [gfx_init] and the initialisation
    calls of [gui_main], which allocate the back buffer and call functions
    modelled elsewhere; [kernel_panic] and failed assertions beyond the fact
    that the machine stops.  [kernel_main] leaves out what the components print
    while they start, and takes the database's use of the heap as an argument. *)

From Stdlib Require Export ZArith Lia Bool ZifyNat ZifyBool Btauto.
From stdpp Require Export base numbers option list.

(** [lia] sees division and remainder by constants. *)
Ltac Zify.zify_post_hook ::= Z.to_euclidean_division_equations.

(** ** Scopes *)

Declare Scope vault_scope.
Delimit Scope vault_scope with vault.
Global Open Scope vault_scope.
Global Open Scope Z_scope.

(** ** Machine words

    A [w]-bit unsigned integer is a [Z] in [0, 2^w); arithmetic that can
    leave the range is followed by the truncation written here. *)

Definition wrap (w x : Z) : Z := x mod 2 ^ w.

Abbreviation u8 := (wrap 8).
Abbreviation u16 := (wrap 16).
Abbreviation u32 := (wrap 32).
Abbreviation u64 := (wrap 64).

(** Two's complement reading of a 64-bit word, and the conversion back. *)
Definition i64 (x : Z) : Z := (x + 2 ^ 63) mod 2 ^ 64 - 2 ^ 63.

Definition is_word (w x : Z) : Prop := 0 <= x < 2 ^ w.

Abbreviation is_u8 := (is_word 8).
Abbreviation is_u16 := (is_word 16).
Abbreviation is_u32 := (is_word 32).
Abbreviation is_u64 := (is_word 64).

#[global] Instance is_word_dec w x : Decision (is_word w x).
Proof. unfold is_word. apply and_dec; apply _. Defined.

(** ** Arrays

    A C array is the list of its cells.  [l.[i]] reads cell [i] (0 beyond the
    end: every use states why the index is in range), [<[i:=x]> l] writes it,
    [blit] is what [memcpy] and [memset] do to the destination. *)

Notation "l .[ i ]" := (nth i l 0) (at level 1, left associativity,
  format "l .[ i ]") : vault_scope.

Definition blit {A} (dst : list A) (off : nat) (src : list A) : list A :=
  take off dst ++ src ++ drop (off + length src) dst.

Create HintDb vault.
Create HintDb vlen.

(** ** Words: bounds of the bit operations *)

Lemma wrap_range w x : 0 <= w -> is_word w (wrap w x).
Proof. intros. apply Z.mod_pos_bound. lia. Qed.

Lemma wrap_small w x : is_word w x -> wrap w x = x.
Proof. intros. by apply Z.mod_small. Qed.

Lemma wrap_wrap w x : 0 <= w -> wrap w (wrap w x) = wrap w x.
Proof. intros. by apply wrap_small, wrap_range. Qed.

Lemma wrap_wrap_le v w x : 0 <= v <= w -> wrap v (wrap w x) = wrap v x.
Proof.
  intros. unfold wrap. apply Z.mod_mod_divide.
  exists (2 ^ (w - v)). rewrite <- Z.pow_add_r by lia. f_equal. lia.
Qed.

Lemma wrap_add_l w x y : wrap w (wrap w x + y) = wrap w (x + y).
Proof. unfold wrap. by rewrite Zplus_mod_idemp_l. Qed.

Lemma wrap_add_r w x y : wrap w (x + wrap w y) = wrap w (x + y).
Proof. unfold wrap. by rewrite Zplus_mod_idemp_r. Qed.

Lemma wrap_land w x : 0 <= w -> wrap w x = Z.land x (Z.ones w).
Proof. intros. unfold wrap. by rewrite Z.land_ones. Qed.

Lemma is_word_bits w x :
  0 <= w -> 0 <= x -> (forall i, w <= i -> Z.testbit x i = false) -> is_word w x.
Proof.
  intros Hw Hx Hb. split; [done|].
  destruct (decide (x = 0)) as [->|Hne]; [lia|].
  destruct (Z.lt_ge_cases x (2 ^ w)) as [|Hge]; [done|].
  assert (w <= Z.log2 x) by (apply Z.log2_le_pow2; lia).
  pose proof (Hb (Z.log2 x)) as Hf. rewrite Z.bit_log2 in Hf by lia.
  specialize (Hf H). discriminate.
Qed.

Lemma testbit_word w x i : is_word w x -> w <= i -> Z.testbit x i = false.
Proof.
  intros [H0 Hw] Hi.
  destruct (decide (0 <= w)) as [?|?].
  - destruct (decide (x = 0)) as [->|]; [apply Z.bits_0|].
    apply Z.bits_above_log2; [done|].
    apply Z.log2_lt_pow2; [lia|].
    eapply Z.lt_le_trans; [done|]. apply Z.pow_le_mono_r; lia.
  - rewrite Z.pow_neg_r in Hw by lia. lia.
Qed.

Lemma lxor_word w x y : 0 <= w -> is_word w x -> is_word w y -> is_word w (Z.lxor x y).
Proof.
  intros Hw Hx Hy. apply is_word_bits; [done|apply Z.lxor_nonneg; unfold is_word in *; lia|].
  intros i Hi. rewrite Z.lxor_spec, (testbit_word w x), (testbit_word w y); done.
Qed.

Lemma lor_word w x y : 0 <= w -> is_word w x -> is_word w y -> is_word w (Z.lor x y).
Proof.
  intros Hw Hx Hy. apply is_word_bits; [done|apply Z.lor_nonneg; unfold is_word in *; lia|].
  intros i Hi. rewrite Z.lor_spec, (testbit_word w x), (testbit_word w y); done.
Qed.

Lemma land_word_l w x y : 0 <= w -> is_word w x -> is_word w (Z.land x y).
Proof.
  intros Hw Hx. apply is_word_bits; [done|apply Z.land_nonneg; unfold is_word in *; lia|].
  intros i Hi. rewrite Z.land_spec, (testbit_word w x); done.
Qed.

Lemma shiftr_word w x k : 0 <= w -> 0 <= k -> is_word w x -> is_word w (Z.shiftr x k).
Proof.
  intros Hw Hk Hx. apply is_word_bits; [done|apply Z.shiftr_nonneg; unfold is_word in *; lia|].
  intros i Hi. rewrite Z.shiftr_spec, (testbit_word w x); auto; lia.
Qed.

Lemma is_word_mono v w x : v <= w -> is_word v x -> is_word w x.
Proof.
  intros Hvw [H0 H1]. split; [done|]. eapply Z.lt_le_trans; [done|].
  apply Z.pow_le_mono_r; lia.
Qed.

#[export] Hint Resolve wrap_range lxor_word lor_word land_word_l shiftr_word : vault.
#[export] Hint Extern 1 (0 <= _) => lia : vault.

(** ** Byte strings *)

Abbreviation bytes := (Forall (is_word 8)).

(** Little-endian encoding of [n] bytes, and its reading. *)
Fixpoint le_bytes (n : nat) (x : Z) : list Z :=
  match n with
  | O => []
  | S n => x mod 256 :: le_bytes n (x / 256)
  end.

Fixpoint le_val (l : list Z) : Z :=
  match l with
  | [] => 0
  | b :: l => b + 256 * le_val l
  end.

Lemma length_le_bytes n x : length (le_bytes n x) = n.
Proof. revert x. induction n; intros; simpl; auto. Qed.

Lemma le_bytes_bytes n x : bytes (le_bytes n x).
Proof.
  revert x. induction n; intros; simpl; constructor; auto.
  apply Z.mod_pos_bound. lia.
Qed.

Lemma le_val_le_bytes n x : le_val (le_bytes n x) = x mod 256 ^ Z.of_nat n.
Proof.
  revert x. induction n as [|n IH]; intros x; simpl le_bytes; simpl le_val.
  - by rewrite Z.mod_1_r.
  - rewrite IH, Nat2Z.inj_succ, Z.pow_succ_r by lia.
    rewrite (Z.rem_mul_r x 256) by lia. reflexivity.
Qed.

Lemma le_val_range l : bytes l -> 0 <= le_val l < 256 ^ Z.of_nat (length l).
Proof.
  induction 1 as [|b l [Hb1 Hb2] Hl IH]; simpl le_val; [simpl; lia|].
  change (length (b :: l)) with (S (length l)).
  rewrite Nat2Z.inj_succ, Z.pow_succ_r by lia. lia.
Qed.

Lemma le_bytes_le_val l : bytes l -> le_bytes (length l) (le_val l) = l.
Proof.
  induction 1 as [|b l [Hb1 Hb2] Hl IH]; simpl; [done|]. change (2 ^ 8) with 256 in Hb2.
  rewrite (Z.mul_comm 256), Z.mod_add, Z.div_add, Z.mod_small, Z.div_small, Z.add_0_l by lia.
  by rewrite IH.
Qed.

Lemma le_bytes_inj n x y :
  0 <= x < 256 ^ Z.of_nat n -> 0 <= y < 256 ^ Z.of_nat n ->
  le_bytes n x = le_bytes n y -> x = y.
Proof.
  intros Hx Hy E. apply (f_equal le_val) in E. rewrite !le_val_le_bytes in E.
  by rewrite !Z.mod_small in E.
Qed.

#[export] Hint Resolve le_bytes_bytes : vault.

(** ** Lists *)

Lemma length_blit {A} (dst src : list A) off :
  (off + length src <= length dst)%nat -> length (blit dst off src) = length dst.
Proof. intros. unfold blit. rewrite !length_app, length_take, length_drop. lia. Qed.

Lemma take_blit {A} (dst src : list A) off :
  (off <= length dst)%nat -> take (off + length src) (blit dst off src) = take off dst ++ src.
Proof.
  intros. unfold blit. rewrite app_assoc. apply take_app_length'.
  rewrite length_app, length_take. lia.
Qed.

Lemma take_blit_le {A} (dst src : list A) off n :
  (n <= off)%nat -> (off <= length dst)%nat -> take n (blit dst off src) = take n dst.
Proof.
  intros. unfold blit. rewrite take_app_le by (rewrite length_take; lia).
  rewrite take_take. f_equal. lia.
Qed.

Lemma blit_app {A} (pre old new post : list A) :
  length old = length new -> blit (pre ++ old ++ post) (length pre) new = pre ++ new ++ post.
Proof.
  intros E. unfold blit. rewrite take_app_length, <- E.
  rewrite (app_assoc pre old), drop_app_length'; [done|rewrite length_app; lia].
Qed.

Lemma nth_lookup_total_0 (l : list Z) i : l.[i] = default 0 (l !! i).
Proof. revert i. induction l; destruct i; simpl; auto. Qed.

Lemma nth_Forall (P : Z -> Prop) l i : P 0 -> Forall P l -> P l.[i].
Proof. intros H0 Hl. revert i. induction Hl; destruct i; simpl; auto. Qed.

Lemma nth_insert_eq (l : list Z) i x : (i < length l)%nat -> (<[i:=x]> l).[i] = x.
Proof. intros. rewrite nth_lookup_total_0, list_lookup_insert_eq; done. Qed.

Lemma nth_insert_ne (l : list Z) i j x : i <> j -> (<[i:=x]> l).[j] = l.[j].
Proof. intros. by rewrite !nth_lookup_total_0, list_lookup_insert_ne. Qed.

Lemma bytes_app l k : bytes (l ++ k) <-> bytes l /\ bytes k.
Proof. apply Forall_app. Qed.

Lemma bytes_take n l : bytes l -> bytes (take n l).
Proof. apply Forall_take. Qed.

Lemma bytes_drop n l : bytes l -> bytes (drop n l).
Proof. apply Forall_drop. Qed.

Lemma bytes_blit dst off src : bytes dst -> bytes src -> bytes (blit dst off src).
Proof. intros. unfold blit. auto using Forall_app_2, Forall_take, Forall_drop. Qed.

#[export] Hint Resolve bytes_take bytes_drop bytes_blit Forall_app_2 : vault.
#[export] Hint Rewrite @length_app @length_take @length_drop @length_replicate
  @length_seq @length_map @length_insert length_le_bytes @length_cons @length_nil : vlen.

Ltac len := autorewrite with vlen; try lia.

Lemma blit_end {A} (dst src : list A) off :
  length dst = (off + length src)%nat -> blit dst off src = take off dst ++ src.
Proof. intros E. unfold blit. rewrite drop_ge, app_nil_r by lia. done. Qed.

Lemma take_S_insert {A} (l : list A) i x :
  (i < length l)%nat -> take (S i) (<[i:=x]> l) = take i l ++ [x].
Proof.
  intros Hi. erewrite take_S_r by (by apply list_lookup_insert_eq).
  by rewrite take_insert_ge.
Qed.

(** ** Bytes of a word, by shifting and masking *)

Lemma le_bytes_shift n v :
  le_bytes n v = map (fun i => Z.land (Z.shiftr v (Z.of_nat i * 8)) 0xFF) (seq 0 n).
Proof.
  revert v. induction n as [|n IH]; intros v; [done|]. cbn [le_bytes seq map].
  rewrite IH, <- seq_shift, map_map. f_equal.
  - rewrite Z.shiftr_0_r. change 255 with (Z.ones 8). by rewrite Z.land_ones by lia.
  - apply map_ext. intros i. change 256 with (2 ^ 8). rewrite <- Z.shiftr_div_pow2 by lia.
    rewrite Z.shiftr_shiftr by lia. f_equal. f_equal. lia.
Qed.

Lemma lor_shiftl_add a b k : 0 <= k -> 0 <= a < 2 ^ k -> Z.lor a (Z.shiftl b k) = a + b * 2 ^ k.
Proof.
  intros Hk Ha. rewrite Z.shiftl_mul_pow2 by done.
  assert (L : Z.land a (b * 2 ^ k) = 0).
  { apply Z.bits_inj'. intros n Hn. rewrite Z.land_spec, Z.bits_0.
    destruct (Z.lt_ge_cases n k).
    - rewrite Z.mul_pow2_bits_low by done. apply andb_false_r.
    - rewrite (testbit_word k a n); [done|done|lia]. }
  rewrite Z.add_nocarry_lxor by done. symmetry. by apply Z.lxor_lor.
Qed.

Lemma le_val_snoc l b : le_val (l ++ [b]) = le_val l + b * 256 ^ Z.of_nat (length l).
Proof.
  induction l as [|x l IH]; [simpl; lia|]. cbn [app le_val length].
  rewrite IH, Nat2Z.inj_succ, Z.pow_succ_r by lia. lia.
Qed.

(** Reading [length l] bytes with shifts and ors. *)
Lemma le_val_lor (g : nat -> Z) l :
  bytes l -> (forall i, (i < length l)%nat -> g i = l.[i]) ->
  foldl (fun v i => Z.lor v (Z.shiftl (g i) (Z.of_nat i * 8))) 0 (seq 0 (length l)) = le_val l.
Proof.
  induction l as [|b l IH] using rev_ind; intros Hl Hg; [done|].
  apply Forall_app in Hl as [Hl Hb].
  rewrite length_app, Nat.add_1_r, seq_S, foldl_app. cbn [foldl Nat.add].
  rewrite IH, Hg, le_val_snoc; try done.
  - rewrite lor_shiftl_add; [|lia|].
    + rewrite app_nth2, Nat.sub_diag by lia. cbn [nth].
      replace (2 ^ (Z.of_nat (length l) * 8)) with (256 ^ Z.of_nat (length l)); [done|].
      change 256 with (2 ^ 8). rewrite <- Z.pow_mul_r by lia. f_equal. lia.
    + pose proof (le_val_range l Hl). change 256 with (2 ^ 8) in *.
      rewrite <- Z.pow_mul_r in H by lia. rewrite Z.mul_comm. done.
  - rewrite length_app. simpl. lia.
  - intros i Hi. rewrite Hg by (rewrite length_app; simpl; lia). by rewrite app_nth1.
Qed.

(** ** [blit] *)

Lemma lookup_blit {A} (m w : list A) d i :
  (d + length w <= length m)%nat ->
  blit m d w !! i = if decide (d <= i < d + length w)%nat then w !! (i - d)%nat else m !! i.
Proof.
  intros Hd. unfold blit. assert (length (take d m) = d) as Ht by len.
  case_decide as Hi.
  - rewrite lookup_app_r, lookup_app_l by lia. by rewrite Ht.
  - destruct (decide (i < d)%nat).
    + rewrite lookup_app_l, lookup_take_lt by lia. done.
    + rewrite lookup_app_r, lookup_app_r, lookup_drop by lia. f_equal. lia.
Qed.

Lemma blit_blit_next {A} (m v w : list A) d :
  (d + length v + length w <= length m)%nat ->
  blit (blit m d v) (d + length v) w = blit m d (v ++ w).
Proof.
  intros H. apply list_eq. intros i.
  rewrite !lookup_blit by (rewrite ?length_blit, ?length_app; lia). rewrite length_app.
  repeat case_decide; try lia; try done.
  - rewrite lookup_app_r by lia. f_equal. lia.
  - rewrite lookup_app_l by lia. done.
Qed.

Lemma insert_blit {A} (m : list A) d x : (d < length m)%nat -> <[d := x]> m = blit m d [x].
Proof.
  intros H. apply list_eq. intros i. rewrite lookup_blit by (simpl; lia). simpl length.
  case_decide as Hi.
  - replace i with d by lia. rewrite list_lookup_insert_eq, Nat.sub_diag by done. done.
  - by rewrite list_lookup_insert_ne by lia.
Qed.

Lemma blit_nil {A} (m : list A) d : blit m d [] = m.
Proof. unfold blit. simpl. rewrite Nat.add_0_r. apply take_drop. Qed.

(** A loop of consecutive stores is one [blit]. *)
Lemma foldl_insert_blit {A} (g : nat -> A) buf off n :
  (off + n <= length buf)%nat ->
  foldl (fun b i => <[(off + i)%nat := g i]> b) buf (seq 0 n) = blit buf off (map g (seq 0 n)).
Proof.
  intros H. induction n as [|n IH]; [symmetry; apply blit_nil|].
  rewrite seq_S, foldl_app, map_app, IH by lia. cbn [foldl map Nat.add].
  assert (length (map g (seq 0 n)) = n) as Hl by (rewrite length_map, length_seq; done).
  rewrite insert_blit by (rewrite length_blit; lia).
  rewrite <- Hl at 2. apply blit_blit_next. rewrite Hl. simpl. lia.
Qed.

(** Decides a closed decidable proposition by evaluation. *)
Ltac by_compute := apply (bool_decide_unpack _); vm_compute; exact I.
