(* ===== verification/CLib.v ===== *)
(** * The C string library (src/kernel/lib/string.c)

    A [char] is the unsigned value of its byte.  A C string is the list of the
    cells of its buffer; reading past the list gives the terminator 0, so a
    string may be written with or without its final 0.  Functions that write
    through [dst] return the new contents of the destination buffer.  The
    memory routines, which may be called on overlapping regions, work on one
    memory [m] and two offsets into it. *)

From Stdlib Require Import String Ascii.
From S2P Require Import Prelude.

(** The bytes of a string literal. *)
Definition cs (s : string) : list Z :=
  map (fun a => Z.of_N (N_of_ascii a)) (list_ascii_of_string s).

(** A string literal copied into a zeroed array of [n] cells. *)
Definition cells (n : nat) (s : string) : list Z := cs s ++ replicate (n - length (cs s)) 0.

(** ** Character classes *)

Definition toupper (c : Z) : Z := if (97 <=? c) && (c <=? 122) then c - 32 else c.
Definition tolower (c : Z) : Z := if (65 <=? c) && (c <=? 90) then c + 32 else c.
Definition isdigit (c : Z) : bool := (48 <=? c) && (c <=? 57).
Definition isalpha (c : Z) : bool :=
  ((97 <=? c) && (c <=? 122)) || ((65 <=? c) && (c <=? 90)).
Definition isalnum (c : Z) : bool := isdigit c || isalpha c.
Definition isspace (c : Z) : bool := (c =? 32) || (c =? 9) || (c =? 10) || (c =? 13).

(** [*s] and [s + 1] *)
Definition chr (s : list Z) : Z := hd 0 s.
Definition next (s : list Z) : list Z := tl s.

(** ** Memory routines *)

(** [*d64 = *s64]: eight bytes are read before any is written. *)
Definition copy_word (m : list Z) (d s : nat) : list Z := blit m d (take 8 (drop s m)).
Definition copy_byte (m : list Z) (d s : nat) : list Z := <[d := m.[s]]> m.

Fixpoint copy_words_fwd (k : nat) (m : list Z) (d s : nat) : list Z :=
  match k with
  | O => m
  | S k => copy_words_fwd k (copy_word m d s) (d + 8) (s + 8)
  end.

Fixpoint copy_bytes_fwd (k : nat) (m : list Z) (d s : nat) : list Z :=
  match k with
  | O => m
  | S k => copy_bytes_fwd k (copy_byte m d s) (d + 1) (s + 1)
  end.

Definition memcpy (m : list Z) (dst src n : nat) : list Z :=
  let w := (n / 8)%nat in
  let m := copy_words_fwd w m dst src in
  copy_bytes_fwd (n mod 8) m (dst + 8 * w) (src + 8 * w).

(** [memset] stores the byte replicated by one multiplication. *)
Definition memset_word (c : Z) : list Z := le_bytes 8 (u64 (u8 c * 0x0101010101010101)).

Fixpoint memset_words (k : nat) (m : list Z) (d : nat) (c : Z) : list Z :=
  match k with
  | O => m
  | S k => memset_words k (blit m d (memset_word c)) (d + 8) c
  end.

Fixpoint memset_bytes (k : nat) (m : list Z) (d : nat) (c : Z) : list Z :=
  match k with
  | O => m
  | S k => memset_bytes k (<[d := u8 c]> m) (d + 1) c
  end.

Definition memset (m : list Z) (dst : nat) (c : Z) (n : nat) : list Z :=
  let w := (n / 8)%nat in
  memset_bytes (n mod 8) (memset_words w m dst c) (dst + 8 * w) c.

(** The backward copy of [memmove]; [d] and [s] are the end pointers. *)
Fixpoint copy_words_bwd (k : nat) (m : list Z) (d s : nat) : list Z :=
  match k with
  | O => m
  | S k => copy_words_bwd k (copy_word m (d - 8) (s - 8)) (d - 8) (s - 8)
  end.

Fixpoint copy_bytes_bwd (k : nat) (m : list Z) (d s : nat) : list Z :=
  match k with
  | O => m
  | S k => copy_bytes_bwd k (copy_byte m (d - 1) (s - 1)) (d - 1) (s - 1)
  end.

(** Number of byte steps before the end pointer is 8-aligned:
    [while (n && ((uintptr_t)d & 7))].  [base] is the address of [m.[0]]. *)
Definition align_steps (base d n : nat) : nat := Nat.min n ((base + d) mod 8).

Definition memmove (base : nat) (m : list Z) (dst src n : nat) : list Z :=
  if (dst <? src)%nat then memcpy m dst src n
  else
    let d := (dst + n)%nat in let s := (src + n)%nat in
    let a := align_steps base d n in
    let m := copy_bytes_bwd a m d s in
    let d := (d - a)%nat in let s := (s - a)%nat in let n := (n - a)%nat in
    let w := (n / 8)%nat in
    let m := copy_words_bwd w m d s in
    copy_bytes_bwd (n mod 8) m (d - 8 * w) (s - 8 * w).

Fixpoint memcmp (a b : list Z) (n : nat) : Z :=
  match n with
  | O => 0
  | S n => if negb (chr a =? chr b) then chr a - chr b else memcmp (next a) (next b) n
  end.

(** ** Strings *)

Fixpoint strlen (s : list Z) : nat :=
  match s with
  | [] => O
  | c :: s => if c =? 0 then O else S (strlen s)
  end.

Fixpoint strcmp (a b : list Z) : Z :=
  match a with
  | [] => 0 - chr b
  | x :: a => if negb (x =? 0) && (x =? chr b) then strcmp a (next b) else x - chr b
  end.

Fixpoint strncmp (a b : list Z) (n : nat) : Z :=
  match n with
  | O => 0
  | S n =>
      if negb (chr a =? 0) && (chr a =? chr b) then strncmp (next a) (next b) n
      else chr a - chr b
  end.

Fixpoint strcasecmp (a b : list Z) : Z :=
  match a with
  | [] => 0 - toupper (chr b)
  | x :: a =>
      if negb (x =? 0) && (toupper x =? toupper (chr b)) then strcasecmp a (next b)
      else toupper x - toupper (chr b)
  end.

Fixpoint strncasecmp (a b : list Z) (n : nat) : Z :=
  match n with
  | O => 0
  | S n =>
      if negb (chr a =? 0) && (toupper (chr a) =? toupper (chr b))
      then strncasecmp (next a) (next b) n
      else toupper (chr a) - toupper (chr b)
  end.

(** The bytes a string copy transfers, terminator included. *)
Definition cstr (s : list Z) : list Z := take (strlen s) s.

Definition strcpy (dst src : list Z) : list Z := blit dst 0 (cstr src ++ [0]).

(** First loop of [strncpy]: the bytes stored, and what is left of [n].  The
    terminator is stored without decrementing [n]. *)
Fixpoint strncpy_loop (src : list Z) (n : nat) : list Z * nat :=
  match n with
  | O => ([], O)
  | S n' =>
      if chr src =? 0 then ([0], n)
      else let '(w, k) := strncpy_loop (next src) n' in (chr src :: w, k)
  end.

Definition strncpy (dst src : list Z) (n : nat) : list Z :=
  let '(w, k) := strncpy_loop src n in
  blit dst 0 (w ++ replicate k 0).

Definition strcat (dst src : list Z) : list Z := blit dst (strlen dst) (cstr src ++ [0]).

Definition strncat (dst src : list Z) (n : nat) : list Z :=
  blit dst (strlen dst) (take n (cstr src) ++ [0]).

(** Pointers into [s] are offsets; [None] is the null pointer. *)
Fixpoint strchr (s : list Z) (c : Z) : option nat :=
  match s with
  | [] => if c =? 0 then Some O else None
  | x :: s =>
      if x =? 0 then (if c =? 0 then Some O else None)
      else if x =? c then Some O else S <$> strchr s c
  end.

Fixpoint strstr_loop (haystack needle : list Z) (nlen : nat) : option nat :=
  match haystack with
  | [] => None
  | x :: rest =>
      if x =? 0 then None
      else if strncmp haystack needle nlen =? 0 then Some O
      else S <$> strstr_loop rest needle nlen
  end.

Definition strstr (haystack needle : list Z) : option nat :=
  if chr needle =? 0 then Some O else strstr_loop haystack needle (strlen needle).

Fixpoint skip_spaces (s : list Z) : list Z :=
  match s with
  | [] => []
  | c :: s' => if isspace c then skip_spaces s' else s
  end.

(** The digit loop of [atoi], in [int]: overflow is undefined in C, so the
    value is the mathematical one (exact while it fits 31 bits). *)
Fixpoint atoi_digits (s : list Z) (result : Z) : Z :=
  match s with
  | [] => result
  | c :: s => if isdigit c then atoi_digits s (result * 10 + (c - 48)) else result
  end.

Definition atoi (s : list Z) : Z :=
  let s := skip_spaces s in
  if chr s =? 45 then -1 * atoi_digits (next s) 0
  else if chr s =? 43 then atoi_digits (next s) 0
  else atoi_digits s 0.

Definition digit_value (c : Z) : option Z :=
  if isdigit c then Some (c - 48)
  else if (97 <=? c) && (c <=? 102) then Some (c - 97 + 10)
  else if (65 <=? c) && (c <=? 70) then Some (c - 65 + 10)
  else None.

(** The digit loop of [strtou64]; the second result is the end pointer, as
    the unread suffix. *)
Fixpoint strtou64_digits (base : Z) (s : list Z) (result : Z) : Z * list Z :=
  match s with
  | [] => (result, [])
  | c :: s' =>
      match digit_value c with
      | Some digit =>
          if base <=? digit then (result, s)
          else strtou64_digits base s' (u64 (result * base + digit))
      | None => (result, s)
      end
  end.

Definition strtou64 (s : list Z) (base : Z) : Z * list Z :=
  let s := skip_spaces s in
  let hex := (chr s =? 48) && ((chr (next s) =? 120) || (chr (next s) =? 88)) in
  let '(base, s) :=
    if base =? 0 then
      if hex then (16, next (next s))
      else if chr s =? 48 then (8, next s) else (10, s)
    else if (base =? 16) && hex then (base, next (next s))
    else (base, s) in
  strtou64_digits base s 0.

(** ** The memory routines copy *)

(** [m'] is [m] with the [n] bytes at [s] moved to [d]. *)
Definition moved (m m' : list Z) (d s n : nat) : Prop :=
  length m' = length m /\
  forall i, m' !! i = if decide (d <= i < d + n)%nat then m !! (s + (i - d))%nat else m !! i.

Lemma moved_refl m d s : moved m m d s 0.
Proof. split; [done|]. intros i. case_decide; [lia|done]. Qed.

Lemma moved_word m d s :
  (d + 8 <= length m)%nat -> (s + 8 <= length m)%nat -> moved m (copy_word m d s) d s 8.
Proof.
  intros Hd Hs. assert (length (take 8 (drop s m)) = 8%nat) as Hl by len.
  split; [unfold copy_word; rewrite length_blit; lia|].
  intros i. unfold copy_word. rewrite lookup_blit, Hl by lia.
  case_decide; [|done]. rewrite lookup_take_lt, lookup_drop by lia. done.
Qed.

Lemma moved_byte m d s :
  (d < length m)%nat -> (s < length m)%nat -> moved m (copy_byte m d s) d s 1.
Proof.
  intros Hd Hs. unfold copy_byte. split; [len|]. intros i. case_decide as Hi.
  - replace i with d by lia. rewrite list_lookup_insert_eq by done.
    destruct (lookup_lt_is_Some_2 m s Hs) as [x Hx].
    rewrite nth_lookup_total_0, Hx. rewrite Nat.sub_diag, Nat.add_0_r. by rewrite Hx.
  - rewrite list_lookup_insert_ne by lia. done.
Qed.

Lemma moved_fwd m m1 m2 d s a b :
  moved m m1 d s a -> moved m1 m2 (d + a) (s + a) b ->
  (d <= s \/ s + (a + b) <= d)%nat -> moved m m2 d s (a + b).
Proof.
  intros [L1 H1] [L2 H2] Hov. split; [lia|]. intros i. rewrite H2.
  repeat case_decide; try lia; rewrite H1; repeat case_decide; try lia; f_equal; lia.
Qed.

Lemma moved_bwd m m1 m2 d s a b :
  moved m m1 (d + b) (s + b) a -> moved m1 m2 d s b -> (s <= d)%nat -> moved m m2 d s (a + b).
Proof.
  intros [L1 H1] [L2 H2] Hov. split; [lia|]. intros i. rewrite H2.
  repeat case_decide; try lia; rewrite H1; repeat case_decide; try lia; f_equal; lia.
Qed.

Lemma copy_words_fwd_moved k m d s :
  (d + 8 * k <= length m)%nat -> (s + 8 * k <= length m)%nat ->
  (d <= s \/ s + 8 * k <= d)%nat -> moved m (copy_words_fwd k m d s) d s (8 * k).
Proof.
  revert m d s. induction k as [|k IH]; intros m d s Hd Hs Hov; [apply moved_refl|].
  replace (8 * S k)%nat with (8 + 8 * k)%nat by lia. cbn [copy_words_fwd].
  pose proof (moved_word m d s ltac:(lia) ltac:(lia)) as Hw.
  eapply moved_fwd; [exact Hw| |lia]. destruct Hw as [Hl _]. apply IH; lia.
Qed.

Lemma copy_bytes_fwd_moved k m d s :
  (d + k <= length m)%nat -> (s + k <= length m)%nat ->
  (d <= s \/ s + k <= d)%nat -> moved m (copy_bytes_fwd k m d s) d s k.
Proof.
  revert m d s. induction k as [|k IH]; intros m d s Hd Hs Hov; [apply moved_refl|].
  pose proof (moved_byte m d s ltac:(lia) ltac:(lia)) as Hw.
  eapply (moved_fwd _ _ _ _ _ 1); [exact Hw| |lia]. destruct Hw as [Hl _]. apply IH; lia.
Qed.

Lemma copy_words_bwd_moved k m d s :
  (d + 8 * k <= length m)%nat -> (s <= d)%nat ->
  moved m (copy_words_bwd k m (d + 8 * k) (s + 8 * k)) d s (8 * k).
Proof.
  revert m. induction k as [|k IH]; intros m Hd Hs; [apply moved_refl|].
  replace (8 * S k)%nat with (8 + 8 * k)%nat by lia. cbn [copy_words_bwd].
  pose proof (moved_word m (d + 8 * k) (s + 8 * k) ltac:(lia) ltac:(lia)) as Hw.
  replace (d + (8 + 8 * k) - 8)%nat with (d + 8 * k)%nat by lia.
  replace (s + (8 + 8 * k) - 8)%nat with (s + 8 * k)%nat by lia.
  eapply moved_bwd; [exact Hw| |lia]. destruct Hw as [Hl _]. apply IH; lia.
Qed.

Lemma copy_bytes_bwd_moved k m d s :
  (d + k <= length m)%nat -> (s <= d)%nat ->
  moved m (copy_bytes_bwd k m (d + k) (s + k)) d s k.
Proof.
  revert m. induction k as [|k IH]; intros m Hd Hs; [apply moved_refl|]. cbn [copy_bytes_bwd].
  pose proof (moved_byte m (d + k) (s + k) ltac:(lia) ltac:(lia)) as Hw.
  replace (d + S k - 1)%nat with (d + k)%nat by lia.
  replace (s + S k - 1)%nat with (s + k)%nat by lia.
  eapply (moved_bwd _ _ _ _ _ 1); [exact Hw| |lia]. destruct Hw as [Hl _]. apply IH; lia.
Qed.

Lemma memcpy_moved m d s n :
  (d + n <= length m)%nat -> (s + n <= length m)%nat -> (d <= s \/ s + n <= d)%nat ->
  moved m (memcpy m d s n) d s n.
Proof.
  intros Hd Hs Hov. unfold memcpy.
  pose proof (copy_words_fwd_moved (n / 8) m d s ltac:(lia) ltac:(lia) ltac:(lia)) as Hw.
  replace n with (8 * (n / 8) + n mod 8)%nat at 5 by lia.
  eapply moved_fwd; [exact Hw| |lia]. destruct Hw as [Hl _]. apply copy_bytes_fwd_moved; lia.
Qed.

Lemma memmove_moved base m d s n :
  (d + n <= length m)%nat -> (s + n <= length m)%nat ->
  moved m (memmove base m d s n) d s n.
Proof.
  intros Hd Hs. unfold memmove. destruct (Nat.ltb_spec d s); [apply memcpy_moved; lia|].
  set (a := align_steps base (d + n) n).
  assert (Ha : (a <= n)%nat) by (unfold a, align_steps; lia). clearbody a.
  set (r := (n - a)%nat). set (w := (r / 8)%nat). set (t := (r mod 8)%nat).
  assert (Hn : n = (a + (8 * w + t))%nat) by (unfold t, w, r; lia). clearbody t w. clear r. subst n.
  pose proof (copy_bytes_bwd_moved a m (d + (8 * w + t)) (s + (8 * w + t))
    ltac:(lia) ltac:(lia)) as H1.
  replace (d + (8 * w + t) + a)%nat with (d + (a + (8 * w + t)))%nat in H1 by lia.
  replace (s + (8 * w + t) + a)%nat with (s + (a + (8 * w + t)))%nat in H1 by lia.
  eapply moved_bwd; [exact H1| |lia].
  destruct H1 as [L1 _]. set (m1 := copy_bytes_bwd a m _ _) in *. clearbody m1.
  pose proof (copy_words_bwd_moved w m1 (d + t) (s + t) ltac:(lia) ltac:(lia)) as H2.
  replace (d + (a + (8 * w + t)) - a)%nat with (d + t + 8 * w)%nat by lia.
  replace (s + (a + (8 * w + t)) - a)%nat with (s + t + 8 * w)%nat by lia.
  eapply moved_bwd; [exact H2| |lia].
  destruct H2 as [L2 _]. set (m2 := copy_words_bwd _ _ _ _) in *. clearbody m2.
  replace (d + t + 8 * w - 8 * w)%nat with (d + t)%nat by lia.
  replace (s + t + 8 * w - 8 * w)%nat with (s + t)%nat by lia.
  apply copy_bytes_bwd_moved; lia.
Qed.

(** ** [memset] *)

Lemma memset_word_replicate c : memset_word c = replicate 8 (u8 c).
Proof.
  unfold memset_word. pose proof (wrap_range 8 c ltac:(lia)) as Hb.
  revert Hb. generalize (u8 c) as b. intros b Hb.
  rewrite wrap_small by (unfold is_word in *; lia).
  rewrite <- (le_bytes_le_val (replicate 8 b)) at 1 by (by apply Forall_replicate).
  rewrite length_replicate. f_equal. simpl. lia.
Qed.

Lemma memset_words_blit k m d c :
  (d + 8 * k <= length m)%nat -> memset_words k m d c = blit m d (replicate (8 * k) (u8 c)).
Proof.
  revert m d. induction k as [|k IH]; intros m d H; [symmetry; apply blit_nil|].
  cbn [memset_words]. rewrite memset_word_replicate, IH by (rewrite length_blit; len).
  replace (8 * S k)%nat with (8 + 8 * k)%nat by lia. rewrite replicate_add.
  replace (d + 8)%nat with (d + length (replicate 8 (u8 c)))%nat by len.
  apply blit_blit_next. len.
Qed.

Lemma memset_bytes_blit k m d c :
  (d + k <= length m)%nat -> memset_bytes k m d c = blit m d (replicate k (u8 c)).
Proof.
  revert m d. induction k as [|k IH]; intros m d H; [symmetry; apply blit_nil|].
  cbn [memset_bytes]. rewrite IH by len. rewrite insert_blit by lia.
  rewrite (blit_blit_next m [u8 c]) by len. done.
Qed.

Lemma memset_blit m d c n :
  (d + n <= length m)%nat -> memset m d c n = blit m d (replicate n (u8 c)).
Proof.
  intros H. unfold memset.
  rewrite memset_words_blit, memset_bytes_blit by (rewrite ?length_blit; len).
  replace n with (8 * (n / 8) + n mod 8)%nat at 4 by lia. rewrite replicate_add.
  rewrite <- blit_blit_next by len. by rewrite length_replicate.
Qed.

(** ** Strings *)

Lemma strlen_le s : (strlen s <= length s)%nat.
Proof. induction s as [|c s IH]; simpl; [lia|]. destruct (c =? 0); lia. Qed.

Lemma strlen_app s t : Forall (fun c => c <> 0) s -> strlen (s ++ t) = (length s + strlen t)%nat.
Proof.
  induction 1 as [|c s Hc Hs IH]; simpl; [done|].
  rewrite (proj2 (Z.eqb_neq _ _)) by done. by rewrite IH.
Qed.

Lemma cstr_nonzero s : Forall (fun c => c <> 0) (cstr s).
Proof.
  unfold cstr. induction s as [|c s IH]; simpl; [constructor|].
  destruct (Z.eqb_spec c 0); constructor; auto.
Qed.

Lemma length_cstr s : length (cstr s) = strlen s.
Proof. unfold cstr. rewrite length_take. pose proof (strlen_le s). lia. Qed.

Lemma cstr_idemp s : Forall (fun c => c <> 0) s -> cstr s = s.
Proof.
  intros H. unfold cstr. rewrite <- (app_nil_r s) at 1. rewrite strlen_app by done.
  apply take_ge. simpl. lia.
Qed.

Lemma cstr_app_0 s t : Forall (fun c => c <> 0) s -> cstr (s ++ 0 :: t) = s.
Proof.
  intros H. unfold cstr. rewrite strlen_app by done. simpl. rewrite Nat.add_0_r.
  apply take_app_length.
Qed.

Lemma strncpy_loop_spec src n :
  strncpy_loop src n =
    if (strlen src <? n)%nat then (cstr src ++ [0], (n - strlen src)%nat) else (take n src, O).
Proof.
  revert src. induction n as [|n IH]; intros src; [done|]. cbn [strncpy_loop].
  destruct src as [|c src]; [done|]. cbn [chr next hd tl strlen]. unfold cstr. cbn [strlen].
  destruct (c =? 0); [done|]. rewrite IH. fold (cstr src).
  change (S (strlen src) <? S n)%nat with (strlen src <? n)%nat.
  destruct (strlen src <? n)%nat; done.
Qed.

(** The buffer after [strncpy]: [n] bytes when the source is at least [n]
    long, and [n + 1] bytes (the string, then zeros) otherwise. *)
Lemma strncpy_spec dst src n :
  strncpy dst src n =
    if (strlen src <? n)%nat
    then blit dst 0 (cstr src ++ replicate (n + 1 - strlen src) 0)
    else blit dst 0 (take n src).
Proof.
  unfold strncpy. rewrite strncpy_loop_spec. destruct (Nat.ltb_spec (strlen src) n).
  - rewrite <- app_assoc. do 2 f_equal.
    replace (n + 1 - strlen src)%nat with (S (n - strlen src)) by lia. done.
  - by rewrite app_nil_r.
Qed.

(** The idiom [strncpy(dst, src, n); dst[n] = 0] on a buffer of [n + 1] cells. *)
Definition strlcpy (dst src : list Z) (n : nat) : list Z := <[n := 0]> (strncpy dst src n).

Lemma strlcpy_spec dst src n :
  length dst = S n ->
  length (strlcpy dst src n) = S n /\ cstr (strlcpy dst src n) = take n (cstr src).
Proof.
  intros Hl. unfold strlcpy. pose proof (length_cstr src) as Hc. pose proof (cstr_nonzero src) as Hz.
  rewrite strncpy_spec. destruct (Nat.ltb_spec (strlen src) n) as [H|H].
  - rewrite length_insert, length_blit by len. split; [done|].
    unfold blit. cbn [take]. rewrite app_nil_l, drop_ge, app_nil_r by len.
    rewrite insert_app_r_alt, insert_replicate by lia.
    replace (n + 1 - strlen src)%nat with (S (n - strlen src)) by lia. cbn [replicate].
    rewrite cstr_app_0 by done. rewrite take_ge by lia. done.
  - pose proof (strlen_le src). rewrite length_insert, length_blit by len. split; [done|].
    assert (take n src = take n (cstr src)) as -> by (unfold cstr; rewrite take_take; f_equal; lia).
    unfold blit. cbn [take]. rewrite app_nil_l. assert (length (take n (cstr src)) = n) as Hn by len.
    rewrite insert_app_r_alt, Hn, Nat.sub_diag by lia. cbn [Nat.add].
    destruct (drop n dst) as [|x r] eqn:E.
    + apply (f_equal length) in E. rewrite length_drop in E. cbn in E. lia.
    + cbn [insert list_insert]. apply cstr_app_0. by apply Forall_take.
Qed.

(** Comparison ignoring case: 0 exactly when the upper-cased strings agree. *)
Lemma toupper_0 c : toupper c = 0 <-> c = 0.
Proof. unfold toupper. destruct (Z.leb_spec 97 c), (Z.leb_spec c 122); simpl; lia. Qed.

Lemma strcasecmp_0 a b :
  strcasecmp a b = 0 <-> map toupper (cstr a) = map toupper (cstr b).
Proof.
  revert b. induction a as [|x a IH]; intros b.
  - cbn [strcasecmp]. destruct b as [|y b]; [done|]. cbn [chr hd].
    unfold cstr. cbn [strlen take map]. destruct (Z.eqb_spec y 0) as [->|Hy]; [done|].
    cbn [take map]. split; [|done]. pose proof (toupper_0 y). lia.
  - cbn [strcasecmp]. destruct (Z.eqb_spec x 0) as [->|Hx]; cbn [negb andb].
    + unfold cstr at 1. cbn [strlen Z.eqb take map].
      destruct b as [|y b]; [done|]. cbn [chr hd]. unfold cstr. cbn [strlen].
      destruct (Z.eqb_spec y 0) as [->|Hy]; [done|]. cbn [take map].
      split; [|done]. pose proof (toupper_0 y). unfold toupper at 1. simpl. lia.
    + unfold cstr at 1. cbn [strlen]. rewrite (proj2 (Z.eqb_neq _ _) Hx). cbn [take map].
      fold (cstr a). destruct b as [|y b]; cbn [chr hd next tl].
      * change (toupper 0) with 0. pose proof (toupper_0 x).
        destruct (Z.eqb_spec (toupper x) 0); [naive_solver|]. split; [lia|done].
      * unfold cstr at 2. cbn [strlen].
        destruct (Z.eqb_spec y 0) as [->|Hy].
        -- change (toupper 0) with 0. pose proof (toupper_0 x).
           destruct (Z.eqb_spec (toupper x) 0); [naive_solver|]. cbn [take map]. split; [lia|done].
        -- cbn [take map]. fold (cstr b). destruct (Z.eqb_spec (toupper x) (toupper y)) as [E|E].
           ++ rewrite IH, E. split; [by intros ->|by intros [=]].
           ++ split; [lia|by intros [=]].
Qed.

Lemma strcmp_0 a b : strcmp a b = 0 <-> cstr a = cstr b.
Proof.
  revert b. induction a as [|x a IH]; intros b.
  - cbn [strcmp]. destruct b as [|y b]; [done|]. cbn [chr hd]. unfold cstr. cbn [strlen].
    destruct (Z.eqb_spec y 0) as [->|Hy]; [done|]. cbn [take]. split; [lia|done].
  - cbn [strcmp]. unfold cstr at 1. cbn [strlen].
    destruct b as [|y b]; cbn [chr hd next tl].
    + destruct (Z.eqb_spec x 0) as [->|Hx]; cbn [negb andb]; [done|]. split; [lia|done].
    + unfold cstr at 1. cbn [strlen].
      destruct (Z.eqb_spec x 0) as [->|Hx], (Z.eqb_spec y 0) as [->|Hy]; cbn [negb andb take].
      * done.
      * split; [lia|done].
      * rewrite (proj2 (Z.eqb_neq _ _) Hx). split; [lia|done].
      * fold (cstr a) (cstr b). destruct (Z.eqb_spec x y) as [->|E].
        -- rewrite IH. split; [by intros ->|by intros [=]].
        -- split; [lia|by intros [=]].
Qed.

(** ** Decimal numbers *)

Definition dec_value (ds : list Z) : Z := foldl (fun v d => v * 10 + d) 0 ds.
Definition dec_chars (ds : list Z) : list Z := map (fun d => 48 + d) ds.

Definition is_digit (d : Z) : Prop := 0 <= d < 10.

Lemma digit_value_dec d : is_digit d -> digit_value (48 + d) = Some d.
Proof.
  intros H. unfold digit_value, isdigit, is_digit in *.
  rewrite (proj2 (Z.leb_le _ _)), (proj2 (Z.leb_le _ _)) by lia. simpl. f_equal. lia.
Qed.

Lemma strtou64_digits_app ds rest acc :
  Forall is_digit ds ->
  strtou64_digits 10 (dec_chars ds ++ rest) acc =
  strtou64_digits 10 rest (foldl (fun v d => u64 (v * 10 + d)) acc ds).
Proof.
  intros H. revert acc. induction H as [|d ds Hd Hds IH]; intros acc; [done|].
  cbn [dec_chars map app strtou64_digits]. rewrite digit_value_dec by done.
  rewrite (proj2 (Z.leb_gt _ _)) by (unfold is_digit in Hd; lia). apply IH.
Qed.

Lemma foldl_dec_wrap ds acc :
  foldl (fun v d => u64 (v * 10 + d)) (u64 acc) ds =
  u64 (foldl (fun v d => v * 10 + d) acc ds).
Proof.
  revert acc. induction ds as [|d ds IH]; intros acc; [done|]. cbn [foldl].
  rewrite <- IH. f_equal. unfold wrap.
  rewrite <- Zplus_mod_idemp_l, Zmult_mod_idemp_l, Zplus_mod_idemp_l. done.
Qed.

Lemma strtou64_dec ds rest :
  Forall is_digit ds -> ds <> [] ->
  (match digit_value (chr rest) with Some d => 10 <= d | None => True end) ->
  strtou64 (dec_chars ds ++ rest) 10 = (u64 (dec_value ds), rest).
Proof.
  intros Hds Hne Hrest. unfold strtou64.
  replace (skip_spaces (dec_chars ds ++ rest)) with (dec_chars ds ++ rest).
  2:{ destruct Hds as [|d ds Hd Hds]; [done|]. cbn [dec_chars map app skip_spaces].
      unfold isspace, is_digit in *. by rewrite !(proj2 (Z.eqb_neq _ _)) by lia. }
  cbn [Z.eqb Pos.eqb andb]. rewrite strtou64_digits_app by done.
  change 0 with (u64 0). rewrite foldl_dec_wrap. fold (dec_value ds).
  destruct rest as [|c rest]; [done|]. cbn [strtou64_digits]. cbn [chr hd] in Hrest.
  destruct (digit_value c) as [d|]; [|done]. by rewrite (proj2 (Z.leb_le _ _) Hrest).
Qed.

(** ** Properties *)

(** [memmove] copies correctly whatever the overlap.  For any two ranges
    of [n] bytes inside one memory and any alignment of it, after the call the
    destination range holds the bytes the source range held before, and every
    other byte is unchanged. *)
Theorem memmove_correct (base : nat) (m : list Z) (dst src n : nat) :
  (dst + n <= length m)%nat -> (src + n <= length m)%nat ->
  let m' := memmove base m dst src n in
  length m' = length m /\
  forall i, m' !! i = if decide (dst <= i < dst + n)%nat then m !! (src + (i - dst))%nat else m !! i.
Proof. apply memmove_moved. Qed.

Lemma memmove_correct_witness :
  let m := map Z.of_nat (seq 0 40) in
  let m' := memmove 3 m 5 2 20 in
  length m' = length m /\
  forall i, m' !! i = if decide (5 <= i < 5 + 20)%nat then m !! (2 + (i - 5))%nat else m !! i.
Proof. apply (memmove_correct 3 (map Z.of_nat (seq 0 40)) 5 2 20); apply Nat.leb_le; reflexivity. Defined.

(** [strncpy] into a buffer of [n + 1] cells always zero-fills the rest
    when the source is shorter than [n], and then writes [n + 1] cells, one
    more than the C standard allows; a source of [n] characters or more leaves
    the last cell untouched (no terminator). *)
Theorem strncpy_bytes_written (dst src : list Z) (n : nat) :
  length dst = S n ->
  ((strlen src < n)%nat ->
     strncpy dst src n = cstr src ++ replicate (n + 1 - strlen src) 0) /\
  ((n <= strlen src)%nat ->
     strncpy dst src n = take n src ++ drop n dst).
Proof.
  intros Hl. pose proof (strlen_le src). rewrite strncpy_spec.
  destruct (Nat.ltb_spec (strlen src) n); split; intros; try lia.
  - rewrite blit_end by (rewrite length_app, length_cstr; len). done.
  - unfold blit. simpl. rewrite length_take, Nat.min_l by lia. done.
Qed.

Lemma strncpy_bytes_written_witness :
  ((1 < 3)%nat -> strncpy [9; 9; 9; 9] [65] 3 = [65] ++ replicate 3 0) /\
  ((3 <= 1)%nat -> strncpy [9; 9; 9; 9] [65] 3 = [65] ++ [9]).
Proof. apply (strncpy_bytes_written [9; 9; 9; 9] [65] 3 eq_refl). Defined.

(** Decimal parsing.  On a non-empty run of decimal digits followed by
    anything that is not one, [strtou64] in base 10 returns the number modulo
    2^64 and an end pointer just past the digits. *)
Theorem strtou64_decimal (ds rest : list Z) :
  Forall is_digit ds -> ds <> [] -> isdigit (chr rest) = false ->
  strtou64 (dec_chars ds ++ rest) 10 = (u64 (dec_value ds), rest).
Proof.
  intros Hds Hne Hr. apply strtou64_dec; try done.
  unfold digit_value. rewrite Hr.
  destruct ((97 <=? _) && _) eqn:?; [lia|]. destruct ((65 <=? _) && _) eqn:?; [lia|done].
Qed.

Lemma strtou64_decimal_witness :
  strtou64 (dec_chars [4; 2] ++ [41]) 10 = (u64 (dec_value [4; 2]), [41]).
Proof.
  apply (strtou64_decimal [4; 2] [41]); [|discriminate|reflexivity].
  repeat constructor; unfold is_digit; lia.
Defined.
