(* ===== verification/Errors.v ===== *)
(** * Error codes (src/include/vaultos/error_codes.h) *)

From Stdlib Require Import String.
From S2P Require Import Prelude.

Definition VOS_OK : Z := 0.
Definition VOS_ERR_GENERIC : Z := -1.
Definition VOS_ERR_NOMEM : Z := -2.
Definition VOS_ERR_INVAL : Z := -3.
Definition VOS_ERR_NOTFOUND : Z := -4.
Definition VOS_ERR_PERM : Z := -5.
Definition VOS_ERR_EXISTS : Z := -6.
Definition VOS_ERR_FULL : Z := -7.
Definition VOS_ERR_SYNTAX : Z := -8.
Definition VOS_ERR_CAP_INVALID : Z := -9.
Definition VOS_ERR_CAP_EXPIRED : Z := -10.
Definition VOS_ERR_CAP_REVOKED : Z := -11.
Definition VOS_ERR_TXN_ABORT : Z := -12.
Definition VOS_ERR_IO : Z := -13.
Definition VOS_ERR_OVERFLOW : Z := -14.
Definition VOS_ERR_BUSY : Z := -15.
Definition VOS_ERR_NOSYS : Z := -16.

Definition vos_strerror (err : Z) : string :=
  (match err with
   | 0 => "OK"
   | -1 => "Generic error"
   | -2 => "Out of memory"
   | -3 => "Invalid argument"
   | -4 => "Not found"
   | -5 => "Permission denied"
   | -6 => "Already exists"
   | -7 => "Table full"
   | -8 => "Syntax error"
   | -9 => "Invalid capability"
   | -10 => "Capability expired"
   | -11 => "Capability revoked"
   | -12 => "Transaction aborted"
   | -13 => "I/O error"
   | -14 => "Buffer overflow"
   | -15 => "Resource busy"
   | -16 => "Not implemented"
   | _ => "Unknown error"
   end)%string.
