(* ===== verification/Random.v ===== *)
(** * Random numbers (src/kernel/crypto/random.c, src/kernel/arch/x86_64/cpu.c)

    The processor is a parameter: the class [Hw] gives the CPUID feature bits,
    what the [n]-th RDRAND instruction returns ([None] when the carry flag is
    clear) and the [n]-th reading of the time stamp counter.  [rng] holds the
    generator's variables and how many times each instruction was executed. *)

From S2P Require Import Prelude.

Class Hw := {
  cpuid1_ecx : Z;
  rdrand : nat -> option Z;
  rdtsc : nat -> Z
}.

(** RDRAND with a 64-bit operand and RDTSC return 64-bit values. *)
Class HwLaws `{Hw} : Prop := {
  rdrand_u64 n v : rdrand n = Some v -> is_u64 v;
  rdtsc_u64 n : is_u64 (rdtsc n)
}.

Record rng := Rng {
  prng_s0 : Z;
  prng_s1 : Z;
  hw_rng : bool;
  rdrand_count : nat;
  rdtsc_count : nat
}.

Section random.
Context `{Hw}.

Definition cpu_has_rdrand : bool := Z.testbit cpuid1_ecx 30.

Definition read_tsc (g : rng) : rng * Z :=
  (Rng (prng_s0 g) (prng_s1 g) (hw_rng g) (rdrand_count g) (S (rdtsc_count g)), rdtsc (rdtsc_count g)).

(** [tries] attempts, then the time stamp counter. *)
Fixpoint rdrand_loop (tries : nat) (g : rng) : rng * Z :=
  match tries with
  | O => read_tsc g
  | S tries =>
      let g' := Rng (prng_s0 g) (prng_s1 g) (hw_rng g) (S (rdrand_count g)) (rdtsc_count g) in
      match rdrand (rdrand_count g) with
      | Some val => (g', val)
      | None => rdrand_loop tries g'
      end
  end.

Definition cpu_rdrand64 (g : rng) : rng * Z := rdrand_loop 10 g.

Definition xorshift128plus (g : rng) : rng * Z :=
  let s1 := prng_s0 g in
  let s0 := prng_s1 g in
  let s1 := Z.lxor s1 (u64 (Z.shiftl s1 23)) in
  let s1 := Z.lxor s1 (Z.shiftr s1 17) in
  let s1 := Z.lxor s1 s0 in
  let s1 := Z.lxor s1 (Z.shiftr s0 26) in
  (Rng s0 s1 (hw_rng g) (rdrand_count g) (rdtsc_count g), u64 (s0 + s1)).

Definition random_u64 (g : rng) : rng * Z :=
  if hw_rng g then cpu_rdrand64 g else xorshift128plus g.

Fixpoint warm_up (n : nat) (g : rng) : rng :=
  match n with
  | O => g
  | S n => warm_up n (fst (random_u64 g))
  end.

Definition seed (g : rng) (s0 s1 : Z) : rng :=
  Rng s0 s1 (hw_rng g) (rdrand_count g) (rdtsc_count g).

Definition random_init (g : rng) : rng :=
  let g := Rng (prng_s0 g) (prng_s1 g) cpu_has_rdrand (rdrand_count g) (rdtsc_count g) in
  let g :=
    if hw_rng g then
      let '(g, a) := cpu_rdrand64 g in
      let '(g, b) := cpu_rdrand64 g in
      seed g a b
    else
      let '(g, a) := read_tsc g in
      let '(g, b) := read_tsc g in
      seed g a (Z.lxor b 0x5DEECE66D) in
  warm_up 20 g.

Definition random_hw_available (g : rng) : bool := hw_rng g.

(** One 64-bit value feeds up to eight bytes. *)
Fixpoint random_fill (fuel : nat) (g : rng) (remaining : nat) : rng * list Z :=
  match fuel with
  | O => (g, [])
  | S fuel =>
      if (remaining =? 0)%nat then (g, [])
      else
        let '(g, val) := random_u64 g in
        let to_copy := Nat.min remaining 8 in
        let chunk := map (fun j => u8 (Z.shiftr val (Z.of_nat j * 8))) (seq 0 to_copy) in
        let '(g, rest) := random_fill fuel g (remaining - to_copy) in
        (g, chunk ++ rest)
  end.

Definition random_bytes (g : rng) (len : nat) : rng * list Z := random_fill len g len.

(** ** Lemmas *)

Lemma random_fill_spec fuel g n :
  (n <= fuel)%nat ->
  length (snd (random_fill fuel g n)) = n /\ bytes (snd (random_fill fuel g n)).
Proof.
  revert g n. induction fuel as [|fuel IH]; intros g n Hn; cbn [random_fill].
  { split; [simpl; lia|constructor]. }
  destruct (Nat.eqb_spec n 0) as [->|Hne]; [by split|].
  destruct (random_u64 g) as [g1 val]. specialize (IH g1 (n - Nat.min n 8)%nat ltac:(lia)).
  destruct (random_fill fuel g1 _) as [g2 rest]. destruct IH as [IH1 IH2]. simpl in IH1, IH2.
  cbn [snd]. split; [rewrite length_app, length_map, length_seq; lia|].
  apply Forall_app. split; [|done]. apply Forall_map, Forall_true. intros j.
  apply wrap_range. lia.
Qed.

Lemma random_bytes_spec g n :
  length (snd (random_bytes g n)) = n /\ bytes (snd (random_bytes g n)).
Proof. by apply random_fill_spec. Qed.

(** ** The xorshift step *)

Definition rng_ok (g : rng) : Prop := is_u64 (prng_s0 g) /\ is_u64 (prng_s1 g).

Lemma xorshift_ok g : rng_ok g -> rng_ok (fst (xorshift128plus g)) /\ is_u64 (snd (xorshift128plus g)).
Proof.
  intros [H0 H1]. unfold xorshift128plus, rng_ok. cbn [fst snd prng_s0 prng_s1].
  split; [split; [done|]|apply wrap_range; lia].
  repeat first [apply lxor_word|apply shiftr_word|apply wrap_range|lia|done].
Qed.

(** [x ^= x << 23] and [x ^= x >> 17] lose nothing. *)
Lemma xor_shiftl_zero x k :
  0 < k -> is_u64 x -> Z.lxor x (u64 (Z.shiftl x k)) = 0 -> x = 0.
Proof.
  intros Hk Hx E. assert (forall n, Z.of_nat n < 64 -> Z.testbit x (Z.of_nat n) = false) as Hb.
  { intros n. induction (lt_wf n) as [n _ IH]. intros Hn.
    assert (Z.testbit (Z.lxor x (u64 (Z.shiftl x k))) (Z.of_nat n) = false) as B
      by (rewrite E; apply Z.bits_0).
    rewrite Z.lxor_spec in B. unfold wrap in B. rewrite Z.mod_pow2_bits_low in B by lia.
    rewrite Z.shiftl_spec in B by lia. destruct (decide (Z.of_nat n < k)) as [Hl|Hl].
    - rewrite (Z.testbit_neg_r x (Z.of_nat n - k)) in B by lia. by rewrite xorb_false_r in B.
    - replace (Z.of_nat n - k) with (Z.of_nat (n - Z.to_nat k)) in B by lia.
      rewrite (IH (n - Z.to_nat k)%nat), xorb_false_r in B by lia. done. }
  apply Z.bits_inj'. intros i Hi. rewrite Z.bits_0. destruct (decide (i < 64)).
  - replace i with (Z.of_nat (Z.to_nat i)) by lia. apply Hb. lia.
  - by apply (testbit_word 64); [|lia].
Qed.

Lemma xor_shiftr_zero x k : 0 < k -> is_u64 x -> Z.lxor x (Z.shiftr x k) = 0 -> x = 0.
Proof.
  intros Hk Hx E. apply Z.lxor_eq in E. destruct Hx as [H0 _].
  rewrite Z.shiftr_div_pow2 in E by lia.
  assert (2 <= 2 ^ k) by (change 2 with (2 ^ 1) at 1; apply Z.pow_le_mono_r; lia).
  destruct (decide (x = 0)) as [|Hne]; [done|].
  pose proof (Z.div_lt x (2 ^ k) ltac:(lia) ltac:(lia)). lia.
Qed.

(** The fallback generator never gets stuck.  From any state that is not
    all zero, [xorshift128plus] leads to a state of two 64-bit words that is
    not all zero. *)
Theorem xorshift_never_zero (g : rng) :
  rng_ok g -> ~ (prng_s0 g = 0 /\ prng_s1 g = 0) ->
  let g' := fst (xorshift128plus g) in
  rng_ok g' /\ ~ (prng_s0 g' = 0 /\ prng_s1 g' = 0).
Proof.
  intros Hg Hne. pose proof (xorshift_ok g Hg) as [Hg' _]. split; [done|].
  intros [E0 E1]. apply Hne. unfold xorshift128plus in E0, E1. cbn [fst prng_s0 prng_s1] in E0, E1.
  destruct Hg as [H0 H1]. split; [|done]. rewrite E0 in E1.
  rewrite Z.shiftr_0_l, !Z.lxor_0_r in E1.
  apply (xor_shiftl_zero _ 23); [lia|done|]. apply (xor_shiftr_zero _ 17); [lia| |done].
  repeat first [apply lxor_word|apply wrap_range|lia|done].
Qed.
End random.

(** A processor without RDRAND whose counter advances by one. *)
#[export] Instance hw_model : Hw := {|
  cpuid1_ecx := 0;
  rdrand := fun _ => None;
  rdtsc := fun n => Z.of_nat n mod 2 ^ 64
|}.

#[export] Instance hw_model_laws : HwLaws.
Proof. split; [done|]. intros n. apply (wrap_range 64). lia. Qed.

Lemma xorshift_never_zero_witness :
  let g' := fst (xorshift128plus (Rng 1 0 false 0 0)) in
  rng_ok g' /\ ~ (prng_s0 g' = 0 /\ prng_s1 g' = 0).
Proof. apply (xorshift_never_zero (Rng 1 0 false 0 0)); [split; by_compute|by intros [? _]]. Defined.
