(* ===== verification/Sha256.v ===== *)
(** * SHA-256 (src/kernel/crypto/sha256.c)

    [sha256_ctx] is [sha256_ctx_t]; a context update is a function from
    context to context.  The reference is the one-shot definition of FIPS
    180-4 ([sha256_spec]): pad the whole message, cut it in 64-byte blocks,
    fold the compression function. *)

From S2P Require Import Prelude.

(** ** The code *)

Record sha256_ctx := Sha256Ctx {
  state : list Z;      (* uint32_t state[8] *)
  count : Z;           (* uint64_t count *)
  buffer : list Z      (* uint8_t buffer[64] *)
}.

Definition K : list Z := [
  0x428A2F98; 0x71374491; 0xB5C0FBCF; 0xE9B5DBA5;
  0x3956C25B; 0x59F111F1; 0x923F82A4; 0xAB1C5ED5;
  0xD807AA98; 0x12835B01; 0x243185BE; 0x550C7DC3;
  0x72BE5D74; 0x80DEB1FE; 0x9BDC06A7; 0xC19BF174;
  0xE49B69C1; 0xEFBE4786; 0x0FC19DC6; 0x240CA1CC;
  0x2DE92C6F; 0x4A7484AA; 0x5CB0A9DC; 0x76F988DA;
  0x983E5152; 0xA831C66D; 0xB00327C8; 0xBF597FC7;
  0xC6E00BF3; 0xD5A79147; 0x06CA6351; 0x14292967;
  0x27B70A85; 0x2E1B2138; 0x4D2C6DFC; 0x53380D13;
  0x650A7354; 0x766A0ABB; 0x81C2C92E; 0x92722C85;
  0xA2BFE8A1; 0xA81A664B; 0xC24B8B70; 0xC76C51A3;
  0xD192E819; 0xD6990624; 0xF40E3585; 0x106AA070;
  0x19A4C116; 0x1E376C08; 0x2748774C; 0x34B0BCB5;
  0x391C0CB3; 0x4ED8AA4A; 0x5B9CCA4F; 0x682E6FF3;
  0x748F82EE; 0x78A5636F; 0x84C87814; 0x8CC70208;
  0x90BEFFFA; 0xA4506CEB; 0xBEF9A3F7; 0xC67178F2 ].

Definition ROTR (x n : Z) : Z := Z.lor (Z.shiftr x n) (u32 (Z.shiftl x (32 - n))).
Definition CH (x y z : Z) : Z :=
  Z.lxor (Z.land x y) (Z.land (Z.lxor x 0xFFFFFFFF) z).
Definition MAJ (x y z : Z) : Z :=
  Z.lxor (Z.lxor (Z.land x y) (Z.land x z)) (Z.land y z).
Definition EP0 (x : Z) : Z := Z.lxor (Z.lxor (ROTR x 2) (ROTR x 13)) (ROTR x 22).
Definition EP1 (x : Z) : Z := Z.lxor (Z.lxor (ROTR x 6) (ROTR x 11)) (ROTR x 25).
Definition SIG0 (x : Z) : Z := Z.lxor (Z.lxor (ROTR x 7) (ROTR x 18)) (Z.shiftr x 3).
Definition SIG1 (x : Z) : Z := Z.lxor (Z.lxor (ROTR x 17) (ROTR x 19)) (Z.shiftr x 10).

(** The first loop of [sha256_transform]: one big-endian word. *)
Definition load_be32 (data : list Z) (i : nat) : Z :=
  Z.lor (Z.lor (Z.lor (Z.shiftl data.[i * 4] 24) (Z.shiftl data.[i * 4 + 1] 16))
    (Z.shiftl data.[i * 4 + 2] 8)) data.[i * 4 + 3].

(** The second loop: [W[i]] is appended once [W[0..i-1]] is known. *)
Definition schedule_step (W : list Z) (i : nat) : list Z :=
  W ++ [u32 (SIG1 W.[i - 2] + W.[i - 7] + SIG0 W.[i - 15] + W.[i - 16])].

Definition message_schedule (data : list Z) : list Z :=
  foldl schedule_step (map (load_be32 data) (seq 0 16)) (seq 16 48).

Definition round_step (W : list Z) (r : list Z) (i : nat) : list Z :=
  let a := r.[0] in let b := r.[1] in let c := r.[2] in let d := r.[3] in
  let e := r.[4] in let f := r.[5] in let g := r.[6] in let h := r.[7] in
  let t1 := u32 (h + EP1 e + CH e f g + K.[i] + W.[i]) in
  let t2 := u32 (EP0 a + MAJ a b c) in
  [u32 (t1 + t2); a; b; c; u32 (d + t1); e; f; g].

Definition add_state (s r : list Z) : list Z :=
  map (fun i => u32 (s.[i] + r.[i])) (seq 0 8).

(** What [sha256_transform] does to [ctx->state]. *)
Definition compress (s data : list Z) : list Z :=
  let W := message_schedule data in
  add_state s (foldl (round_step W) s (seq 0 64)).

Definition sha256_transform (ctx : sha256_ctx) (data : list Z) : sha256_ctx :=
  Sha256Ctx (compress (state ctx) data) (count ctx) (buffer ctx).

Definition sha256_iv : list Z :=
  [0x6a09e667; 0xbb67ae85; 0x3c6ef372; 0xa54ff53a;
   0x510e527f; 0x9b05688c; 0x1f83d9ab; 0x5be0cd19].

Definition sha256_init : sha256_ctx := Sha256Ctx sha256_iv 0 (replicate 64 0).

(** [while (len >= 64) { sha256_transform(ctx, data); ... }]: the context and
    what is left of the input.  [fuel] bounds the number of iterations. *)
Fixpoint full_blocks (fuel : nat) (ctx : sha256_ctx) (data : list Z)
    : sha256_ctx * list Z :=
  match fuel with
  | O => (ctx, data)
  | S fuel =>
      if (64 <=? length data)%nat
      then full_blocks fuel (sha256_transform ctx (take 64 data)) (drop 64 data)
      else (ctx, data)
  end.

Definition set_buffer (ctx : sha256_ctx) (b : list Z) : sha256_ctx :=
  Sha256Ctx (state ctx) (count ctx) b.

Definition sha256_update (ctx : sha256_ctx) (data : list Z) : sha256_ctx :=
  let buffered := Z.to_nat (count ctx mod 64) in
  let ctx := Sha256Ctx (state ctx) (u64 (count ctx + Z.of_nat (length data)))
               (buffer ctx) in
  let finish ctx data :=
    let '(ctx, rest) := full_blocks (length data) ctx data in
    if (length rest =? 0)%nat then ctx
    else set_buffer ctx (blit (buffer ctx) 0 rest) in
  if (buffered =? 0)%nat then finish ctx data
  else
    let need := (64 - buffered)%nat in
    if (length data <? need)%nat
    then set_buffer ctx (blit (buffer ctx) buffered data)
    else
      let ctx := set_buffer ctx (blit (buffer ctx) buffered (take need data)) in
      finish (sha256_transform ctx (buffer ctx)) (drop need data).

(** Big-endian bytes of the bit count and of the state words. *)
Definition be64_bytes (x : Z) : list Z :=
  map (fun i => u8 (Z.shiftr x (56 - Z.of_nat i * 8))) (seq 0 8).

Definition be32_bytes (x : Z) : list Z :=
  [Z.land (Z.shiftr x 24) 0xFF; Z.land (Z.shiftr x 16) 0xFF;
   Z.land (Z.shiftr x 8) 0xFF; Z.land x 0xFF].

Definition digest_of (s : list Z) : list Z :=
  flat_map (fun i => be32_bytes s.[i]) (seq 0 8).

Definition sha256_final (ctx : sha256_ctx) : list Z :=
  let bit_count := u64 (count ctx * 8) in
  let pad_start := Z.to_nat (count ctx mod 64) in
  let ctx := set_buffer ctx (<[pad_start := 0x80]> (buffer ctx)) in
  let pad_start := S pad_start in
  let '(ctx, pad_start) :=
    if (56 <? pad_start)%nat then
      let ctx := set_buffer ctx
        (blit (buffer ctx) pad_start (replicate (64 - pad_start) 0)) in
      (sha256_transform ctx (buffer ctx), O)
    else (ctx, pad_start) in
  let ctx := set_buffer ctx
    (blit (buffer ctx) pad_start (replicate (56 - pad_start) 0)) in
  let ctx := set_buffer ctx (blit (buffer ctx) 56 (be64_bytes bit_count)) in
  digest_of (state (sha256_transform ctx (buffer ctx))).

Definition sha256 (data : list Z) : list Z :=
  sha256_final (sha256_update sha256_init data).

(** ** The reference: FIPS 180-4, sections 5.1.1, 5.2.1 and 6.2 *)

Fixpoint fold_blocks (n : nat) (s : list Z) (m : list Z) : list Z :=
  match n with
  | O => s
  | S n => fold_blocks n (compress s (take 64 m)) (drop 64 m)
  end.

(** Zero bytes between the 0x80 and the length: the least number that makes
    the padded length a multiple of 64. *)
Definition pad_zeros (len : nat) : nat := Z.to_nat ((55 - Z.of_nat len) mod 64).

Definition pad_message (m : list Z) : list Z :=
  m ++ [0x80] ++ replicate (pad_zeros (length m)) 0
    ++ be64_bytes (8 * Z.of_nat (length m)).

Definition sha256_spec (m : list Z) : list Z :=
  let p := pad_message m in
  digest_of (fold_blocks (length p / 64) sha256_iv p).

Example sha256_abc :
  sha256 [97; 98; 99] =
    [0xba;0x78;0x16;0xbf;0x8f;0x01;0xcf;0xea;0x41;0x41;0x40;0xde;0x5d;0xae;0x22;0x23;
     0xb0;0x03;0x61;0xa3;0x96;0x17;0x7a;0x9c;0xb4;0x10;0xff;0x61;0xf2;0x00;0x15;0xad].
Proof. vm_compute. reflexivity. Qed.

(** ** Folding blocks *)

Lemma fold_blocks_add a b s m :
  fold_blocks (a + b) s m = fold_blocks b (fold_blocks a s m) (drop (64 * a) m).
Proof.
  revert s m. induction a as [|a IH]; intros s m.
  - by rewrite Nat.mul_0_r, drop_0.
  - cbn [Nat.add fold_blocks]. rewrite IH, drop_drop. f_equal. f_equal. lia.
Qed.

Lemma fold_blocks_app n s m d :
  (64 * n <= length m)%nat -> fold_blocks n s (m ++ d) = fold_blocks n s m.
Proof.
  revert s m. induction n as [|n IH]; intros s m Hn; cbn [fold_blocks]; [done|].
  rewrite take_app_le, drop_app_le by lia. apply IH. len.
Qed.

Lemma full_blocks_spec fuel ctx data :
  (length data / 64 <= fuel)%nat ->
  full_blocks fuel ctx data =
    (Sha256Ctx (fold_blocks (length data / 64) (state ctx) data) (count ctx) (buffer ctx),
     drop (64 * (length data / 64)) data).
Proof.
  revert ctx data. induction fuel as [|fuel IH]; intros ctx data Hf; cbn [full_blocks].
  - replace (length data / 64)%nat with O by lia. destruct ctx. by rewrite Nat.mul_0_r, drop_0.
  - destruct (Nat.leb_spec 64 (length data)) as [Hl|Hl].
    + assert (length (drop 64 data) / 64 = length data / 64 - 1)%nat as E by (len; lia).
      rewrite IH by lia. rewrite E.
      replace (length data / 64)%nat with (1 + (length data / 64 - 1))%nat at 3 4 by lia.
      rewrite fold_blocks_add, drop_drop. cbn [fold_blocks state count buffer sha256_transform].
      f_equal. f_equal. lia.
    + replace (length data / 64)%nat with O by lia. destruct ctx. by rewrite Nat.mul_0_r, drop_0.
Qed.

(** ** The streaming invariant

    [absorbed ctx m]: the context has consumed exactly the message [m].  The
    bytes of the buffer past [count % 64] are stale and unconstrained. *)

Record absorbed (ctx : sha256_ctx) (m : list Z) : Prop := {
  ab_state : state ctx = fold_blocks (length m / 64) sha256_iv m;
  ab_count : count ctx = u64 (Z.of_nat (length m));
  ab_len : length (buffer ctx) = 64%nat;
  ab_buf : take (length m mod 64) (buffer ctx) = drop (64 * (length m / 64)) m
}.

Lemma absorbed_init : absorbed sha256_init [].
Proof. by constructor. Qed.

Lemma absorbed_buffered ctx m :
  absorbed ctx m -> Z.to_nat (count ctx mod 64) = (length m mod 64)%nat.
Proof.
  intros [_ -> _ _]. unfold wrap.
  rewrite Z.mod_mod_divide by (by exists (2 ^ 58)). lia.
Qed.

(** A message whose blocks are all folded, extended by [rest]. *)
Lemma absorbed_finish n s ctx m rest (full := take (64 * n) m) :
  s = fold_blocks n sha256_iv m -> length m = (64 * n)%nat ->
  length (buffer ctx) = 64%nat ->
  count ctx = u64 (Z.of_nat (length (m ++ rest))) ->
  state ctx = s ->
  absorbed
    (let '(ctx, r) := full_blocks (length rest) ctx rest in
     if (length r =? 0)%nat then ctx else set_buffer ctx (blit (buffer ctx) 0 r))
    (m ++ rest).
Proof.
  intros -> Hm Hbuf Hcount Hs. clear full.
  rewrite full_blocks_spec by (apply Nat.Div0.div_le_upper_bound; lia).
  assert (length (m ++ rest) / 64 = n + length rest / 64)%nat as Hdiv
    by (len; rewrite Hm; lia).
  assert (fold_blocks (length (m ++ rest) / 64) sha256_iv (m ++ rest) =
          fold_blocks (length rest / 64) (state ctx) rest) as Hfold.
  { rewrite Hdiv, fold_blocks_add, fold_blocks_app, Hs, <- Hm, drop_app_length by lia. done. }
  assert (drop (64 * (length (m ++ rest) / 64)) (m ++ rest) =
          drop (64 * (length rest / 64)) rest) as Hdrop.
  { rewrite Hdiv, drop_app_ge by lia. f_equal. lia. }
  assert (length (m ++ rest) mod 64 = length rest mod 64)%nat as Hmod by (len; rewrite Hm; lia).
  set (r := drop (64 * (length rest / 64)) rest) in *.
  assert (length r = length rest mod 64)%nat as Hr by (unfold r; len; lia).
  destruct (Nat.eqb_spec (length r) 0) as [E|E].
  - constructor; cbn [state count buffer set_buffer]; rewrite ?Hfold, ?Hdrop; auto.
    rewrite Hmod, <- Hr, E. by apply nil_length_inv in E as ->.
  - constructor; cbn [state count buffer set_buffer]; rewrite ?Hfold, ?Hdrop; auto.
    + rewrite length_blit; lia.
    + rewrite Hmod, <- Hr. unfold blit. simpl. by rewrite take_app_length.
Qed.

Lemma absorbed_update ctx m d :
  absorbed ctx m -> absorbed (sha256_update ctx d) (m ++ d).
Proof.
  intros Hab. unfold sha256_update. rewrite (absorbed_buffered ctx m Hab).
  destruct Hab as [Hs Hc Hl Hb].
  assert (u64 (count ctx + Z.of_nat (length d)) = u64 (Z.of_nat (length (m ++ d)))) as Hcnt.
  { rewrite Hc, wrap_add_l, length_app. f_equal. lia. }
  destruct (Nat.eqb_spec (length m mod 64) 0) as [E|E].
  { eapply absorbed_finish; cbn; eauto. lia. }
  destruct (Nat.ltb_spec (length d) (64 - length m mod 64)) as [Hd|Hd].
  - assert (length (m ++ d) / 64 = length m / 64)%nat as Hdiv by (len; lia).
    assert (length (m ++ d) mod 64 = length m mod 64 + length d)%nat as Hmod by (len; lia).
    constructor; cbn [state count buffer set_buffer]; auto.
    + rewrite Hdiv, Hs, fold_blocks_app; [done|lia].
    + rewrite length_blit; lia.
    + rewrite Hmod, take_blit, Hb, Hdiv, drop_app_le by lia. done.
  - set (need := (64 - length m mod 64)%nat) in *.
    set (blk := blit (buffer ctx) (length m mod 64) (take need d)).
    assert (length (take need d) = need) as Hlt by (len).
    assert (blk = drop (64 * (length m / 64)) m ++ take need d) as Hblk.
    { unfold blk. rewrite <- Hb, <- take_blit by lia. symmetry. apply take_ge.
      rewrite length_blit; lia. }
    replace (m ++ d) with ((m ++ take need d) ++ drop need d) by (by rewrite <- app_assoc, take_drop).
    eapply (absorbed_finish (S (length m / 64))); cbn [state count buffer set_buffer sha256_transform].
    + reflexivity.
    + len.
    + rewrite length_blit; lia.
    + by rewrite <- app_assoc, take_drop.
    + replace (S (length m / 64)) with (length m / 64 + 1)%nat by lia.
      rewrite fold_blocks_add, fold_blocks_app, <- Hs by lia. cbn [fold_blocks].
      fold blk. rewrite Hblk, drop_app_le by lia. f_equal.
      symmetry. apply take_ge. len.
Qed.

(** ** Padding *)

Lemma length_be64 x : length (be64_bytes x) = 8%nat.
Proof. done. Qed.

Lemma be64_wrap x : be64_bytes (u64 x) = be64_bytes x.
Proof.
  unfold be64_bytes. apply map_ext_in. intros i Hi%in_seq.
  unfold wrap at 1 3. rewrite !Z.shiftr_div_pow2 by lia. unfold wrap.
  apply Z.bits_inj'. intros n Hn.
  destruct (Z.lt_ge_cases n 8).
  - rewrite !Z.mod_pow2_bits_low, !Z.div_pow2_bits, Z.mod_pow2_bits_low by lia. done.
  - rewrite !Z.mod_pow2_bits_high by lia. done.
Qed.

Lemma pad_zeros_short len : (len mod 64 <= 55)%nat -> pad_zeros len = (55 - len mod 64)%nat.
Proof. unfold pad_zeros. lia. Qed.

Lemma pad_zeros_long len :
  (56 <= len mod 64)%nat -> pad_zeros len = (63 - len mod 64 + 56)%nat.
Proof. unfold pad_zeros. lia. Qed.

Lemma length_pad_message m :
  length (pad_message m) = (length m + 9 + pad_zeros (length m))%nat.
Proof. unfold pad_message. rewrite !length_app, length_be64. len. Qed.

(** The two writes that complete the last block. *)
Lemma blit_padding b pos bits :
  length b = 64%nat -> (pos <= 56)%nat -> length bits = 8%nat ->
  blit (blit b pos (replicate (56 - pos) 0)) 56 bits =
    take pos b ++ replicate (56 - pos) 0 ++ bits.
Proof.
  intros Hb Hp Hbits.
  rewrite blit_end by (rewrite length_blit by len; lia).
  rewrite app_assoc. f_equal. rewrite <- take_blit by lia. f_equal. len.
Qed.

(** One more block, whose first bytes are the unfolded end of [m]. *)
Lemma fold_blocks_last s m x (q := (length m / 64)%nat) :
  length (drop (64 * q) m ++ x) = 64%nat ->
  forall y, fold_blocks (S q) s (m ++ x ++ y) =
    compress (fold_blocks q s m) (drop (64 * q) m ++ x).
Proof.
  intros Hx y. replace (S q) with (q + 1)%nat by lia.
  rewrite fold_blocks_add, fold_blocks_app, drop_app_le by (unfold q; lia).
  cbn [fold_blocks]. by rewrite app_assoc, take_app_length' by lia.
Qed.

Lemma sha256_final_spec ctx m : absorbed ctx m -> sha256_final ctx = sha256_spec m.
Proof.
  intros Hab. unfold sha256_final. rewrite (absorbed_buffered ctx m Hab).
  destruct Hab as [Hs Hc Hl Hb].
  assert (Hbe : be64_bytes (u64 (count ctx * 8)) = be64_bytes (8 * Z.of_nat (length m))).
  { rewrite Hc. unfold wrap at 2. unfold wrap. rewrite Zmult_mod_idemp_l.
    fold (u64 (Z.of_nat (length m) * 8)). rewrite be64_wrap. f_equal. lia. }
  rewrite Hbe. clear Hbe Hc. set (bits := be64_bytes _).
  set (r := (length m mod 64)%nat) in *. set (q := (length m / 64)%nat) in *.
  assert (Hr : (r < 64 /\ length m = 64 * q + r)%nat) by (unfold r, q; lia).
  set (b0 := <[r:=128]> (buffer ctx)).
  assert (length b0 = 64%nat) as Hb0 by (unfold b0; len).
  assert (take (S r) b0 = drop (64 * q) m ++ [128]) as Htk
    by (unfold b0; rewrite take_S_insert, Hb by lia; done).
  assert (Hlast : forall x y, length x = (64 - r)%nat ->
    fold_blocks (S q) sha256_iv (m ++ x ++ y) = compress (state ctx) (drop (64 * q) m ++ x)).
  { intros x y Hx. rewrite Hs. apply fold_blocks_last. fold q. len. }
  unfold sha256_spec. rewrite length_pad_message. f_equal. unfold pad_message.
  fold bits. assert (length bits = 8%nat) as Hbits by done. clearbody bits.
  destruct (Nat.ltb_spec 56 (S r)) as [Hlong|Hshort];
    cbn [state buffer count set_buffer sha256_transform].
  - rewrite pad_zeros_long by (fold r; lia). fold r.
    replace ((_ + 9 + _) / 64)%nat with (S q + 1)%nat by lia.
    rewrite blit_padding, take_0, app_nil_l by (rewrite ?length_blit; len).
    rewrite (blit_end b0), Htk, <- app_assoc by len.
    rewrite replicate_add, <- (app_assoc (replicate _ _)), (app_assoc [128]).
    rewrite fold_blocks_add, Hlast by (len). cbn [fold_blocks].
    rewrite (app_assoc m), drop_app_length', take_ge by len. done.
  - rewrite pad_zeros_short by (fold r; lia). fold r.
    replace ((_ + 9 + _) / 64)%nat with (S q) by lia.
    rewrite blit_padding, Htk, <- app_assoc by (auto; lia).
    specialize (Hlast ([128] ++ replicate (55 - r) 0 ++ bits) []).
    rewrite app_nil_r in Hlast. by rewrite Hlast by len.
Qed.

(** ** Properties *)

(** C19: the streaming implementation computes SHA-256.  Feeding a message in
    any sequence of pieces through [sha256_update] and closing with
    [sha256_final] gives the one-shot FIPS 180-4 digest of their
    concatenation. *)
Theorem sha256_streaming_correct (pieces : list (list Z)) :
  sha256_final (foldl sha256_update sha256_init pieces) = sha256_spec (concat pieces).
Proof.
  apply sha256_final_spec.
  assert (H : forall ctx m, absorbed ctx m ->
    absorbed (foldl sha256_update ctx pieces) (m ++ concat pieces)).
  { induction pieces as [|p ps IH]; intros ctx m Hab; simpl.
    - by rewrite app_nil_r.
    - rewrite app_assoc. by apply IH, absorbed_update. }
  apply (H _ [] absorbed_init).
Qed.

(** The one-shot entry point, and the shape of a digest. *)
Lemma sha256_correct m : sha256 m = sha256_spec m.
Proof. apply sha256_final_spec, (absorbed_update _ []), absorbed_init. Qed.

Lemma land_255_byte x : is_u8 (Z.land x 0xFF).
Proof. rewrite Z.land_comm. apply land_word_l; [lia|]. unfold is_word. lia. Qed.

Lemma digest_of_bytes s : bytes (digest_of s).
Proof. unfold digest_of, be32_bytes. cbn [flat_map seq app]. repeat constructor; apply land_255_byte. Qed.

Lemma length_digest_of s : length (digest_of s) = 32%nat.
Proof. done. Qed.

Lemma sha256_final_bytes ctx : bytes (sha256_final ctx).
Proof. unfold sha256_final. destruct (_ <? _)%nat; apply digest_of_bytes. Qed.

Lemma length_sha256_final ctx : length (sha256_final ctx) = 32%nat.
Proof. unfold sha256_final. by destruct (_ <? _)%nat. Qed.

#[export] Hint Resolve sha256_final_bytes land_255_byte : vault.
#[export] Hint Rewrite length_sha256_final length_digest_of : vlen.
