(* ===== verification/Hmac.v ===== *)
(** * HMAC-SHA256 (src/kernel/crypto/hmac.c)

    The code caches the SHA-256 contexts obtained after the inner and the
    outer pad; the reference is RFC 2104 over the one-shot hash. *)

From S2P Require Import Prelude Sha256.

(** ** The code *)

Record hmac_ctx := HmacCtx {
  inner_base : sha256_ctx;
  outer_base : sha256_ctx
}.

Definition xor_pad (key_block : list Z) (c : Z) : list Z :=
  map (fun i => Z.lxor key_block.[i] c) (seq 0 64).

(** The key normalised to the block size. *)
Definition key_block_of (key : list Z) : list Z :=
  if (64 <? length key)%nat
  then sha256 key ++ replicate (64 - 32) 0
  else key ++ replicate (64 - length key) 0.

Definition hmac_ctx_init (key : list Z) : hmac_ctx :=
  let key_block := key_block_of key in
  let inner := sha256_update sha256_init (xor_pad key_block 0x36) in
  let outer := sha256_update sha256_init (xor_pad key_block 0x5C) in
  HmacCtx inner outer.

Definition hmac_ctx_compute (ctx : hmac_ctx) (data : list Z) : list Z :=
  let inner_hash := sha256_final (sha256_update (inner_base ctx) data) in
  sha256_final (sha256_update (outer_base ctx) inner_hash).

Definition hmac_sha256 (key data : list Z) : list Z :=
  hmac_ctx_compute (hmac_ctx_init key) data.

(** The constant-time comparison: every byte is read whatever the outcome. *)
Definition hmac_verify (expected computed : list Z) (len : nat) : bool :=
  foldl (fun diff i => Z.lor diff (Z.lxor expected.[i] computed.[i])) 0 (seq 0 len) =? 0.

(** ** The reference: RFC 2104 *)

Definition hmac_spec (key msg : list Z) : list Z :=
  let k := (if (64 <? length key)%nat then sha256_spec key else key) in
  let k := k ++ replicate (64 - length k) 0 in
  sha256_spec (map (fun b => Z.lxor b 0x5C) k ++
    sha256_spec (map (fun b => Z.lxor b 0x36) k ++ msg)).

(** RFC 4231, test case 2: key "Jefe". *)
Example hmac_rfc4231_2 :
  hmac_sha256 [0x4a; 0x65; 0x66; 0x65]
    [0x77;0x68;0x61;0x74;0x20;0x64;0x6f;0x20;0x79;0x61;0x20;0x77;0x61;0x6e;0x74;0x20;
     0x66;0x6f;0x72;0x20;0x6e;0x6f;0x74;0x68;0x69;0x6e;0x67;0x3f] =
    [0x5b;0xdc;0xc1;0x46;0xbf;0x60;0x75;0x4e;0x6a;0x04;0x24;0x26;0x08;0x95;0x75;0xc7;
     0x5a;0x00;0x3f;0x08;0x9d;0x27;0x39;0x83;0x9d;0xec;0x58;0xb9;0x64;0xec;0x38;0x43].
Proof. vm_compute. reflexivity. Qed.

(** ** Lemmas *)

Lemma map_nth_seq {A} (f : Z -> A) (l : list Z) :
  map (fun i => f l.[i]) (seq 0 (length l)) = map f l.
Proof.
  induction l as [|x l IH]; [done|]. simpl. f_equal.
  rewrite <- IH, <- seq_shift, map_map. done.
Qed.

Lemma xor_pad_map k c : length k = 64%nat -> xor_pad k c = map (fun b => Z.lxor b c) k.
Proof. intros E. unfold xor_pad. rewrite <- E. apply (map_nth_seq (fun b => Z.lxor b c)). Qed.

Lemma length_sha256_spec m : length (sha256_spec m) = 32%nat.
Proof. unfold sha256_spec. len. Qed.

Lemma key_block_of_spec key :
  let k := (if (64 <? length key)%nat then sha256_spec key else key) in
  key_block_of key = k ++ replicate (64 - length k) 0 /\ length (key_block_of key) = 64%nat.
Proof.
  unfold key_block_of. simpl. destruct (Nat.ltb_spec 64 (length key)).
  - rewrite sha256_correct, length_app, length_sha256_spec. done.
  - split; [done|]. len.
Qed.

(** A context that has absorbed [m] yields the digest of [m ++ d] after [d]. *)
Lemma absorbed_digest ctx m d :
  absorbed ctx m -> sha256_final (sha256_update ctx d) = sha256_spec (m ++ d).
Proof. intros. by apply sha256_final_spec, absorbed_update. Qed.

Lemma hmac_ctx_compute_spec key msg :
  hmac_ctx_compute (hmac_ctx_init key) msg = hmac_spec key msg.
Proof.
  destruct (key_block_of_spec key) as [Hk Hl].
  unfold hmac_ctx_compute, hmac_ctx_init, hmac_spec. simpl inner_base. simpl outer_base.
  rewrite !xor_pad_map, Hk by done.
  erewrite !absorbed_digest by (apply (absorbed_update _ []), absorbed_init).
  done.
Qed.

Lemma hmac_diff_zero e c d l :
  0 <= d -> (forall i, In i l -> 0 <= Z.lxor e.[i] c.[i]) ->
  foldl (fun diff i => Z.lor diff (Z.lxor e.[i] c.[i])) d l = 0 <->
  d = 0 /\ forall i, In i l -> e.[i] = c.[i].
Proof.
  revert d. induction l as [|i l IH]; intros d Hd Hpos; simpl; [naive_solver|].
  rewrite IH; [|apply Z.lor_nonneg; split; [done|apply Hpos; by left]|intros; apply Hpos; by right].
  rewrite Z.lor_eq_0_iff, Z.lxor_eq_0_iff. naive_solver.
Qed.

Lemma length_hmac_ctx_compute ctx m : length (hmac_ctx_compute ctx m) = 32%nat.
Proof. unfold hmac_ctx_compute. len. Qed.

Lemma hmac_ctx_compute_bytes ctx m : bytes (hmac_ctx_compute ctx m).
Proof. unfold hmac_ctx_compute. auto with vault. Qed.

Lemma hmac_verify_spec e c :
  bytes e -> bytes c -> length c = length e ->
  hmac_verify e c (length e) = bool_decide (e = c).
Proof.
  intros He Hc Hl. unfold hmac_verify. apply eq_bool_prop_intro.
  rewrite bool_decide_spec, Is_true_true, Z.eqb_eq, hmac_diff_zero.
  - split; [intros [_ H]|by intros ->].
    apply (nth_ext _ _ 0 0); [done|]. intros n Hn. apply H, in_seq. lia.
  - lia.
  - intros i _. apply Z.lxor_nonneg.
    assert (P : is_u8 0) by (unfold is_word; lia).
    pose proof (nth_Forall _ e i P He) as [? _]. pose proof (nth_Forall _ c i P Hc) as [? _]. tauto.
Qed.

Lemma hmac_verify_tag e ctx m :
  bytes e -> length e = 32%nat ->
  hmac_verify e (hmac_ctx_compute ctx m) 32 = bool_decide (e = hmac_ctx_compute ctx m).
Proof.
  intros He Hl. rewrite <- Hl. apply hmac_verify_spec; [done|apply hmac_ctx_compute_bytes|].
  by rewrite Hl, length_hmac_ctx_compute.
Qed.

Lemma hmac_verify_same ctx m :
  hmac_verify (hmac_ctx_compute ctx m) (hmac_ctx_compute ctx m) 32 = true.
Proof.
  rewrite hmac_verify_tag; [by apply bool_decide_eq_true|apply hmac_ctx_compute_bytes|].
  apply length_hmac_ctx_compute.
Qed.

Lemma hmac_sha256_shape key data :
  length (hmac_sha256 key data) = 32%nat /\ bytes (hmac_sha256 key data).
Proof. split; [apply length_hmac_ctx_compute|apply hmac_ctx_compute_bytes]. Qed.

#[export] Hint Resolve hmac_ctx_compute_bytes : vault.
#[export] Hint Rewrite length_hmac_ctx_compute : vlen.

(** ** Properties *)

(** The precomputed-context HMAC is HMAC-SHA256.  Computing with the
    contexts cached by [hmac_ctx_init] gives, for every key and message, the
    RFC 2104 value H((K ^ opad) || H((K ^ ipad) || message)), keys longer
    than a block being hashed first. *)
Theorem hmac_ctx_correct (key msg : list Z) :
  hmac_ctx_compute (hmac_ctx_init key) msg = hmac_spec key msg.
Proof. apply hmac_ctx_compute_spec. Qed.

(** The constant-time comparison accepts exactly equal MACs: for two byte
    strings of the same length, [hmac_verify] over that length is true if and
    only if the strings are equal. *)
Theorem hmac_verify_correct (e c : list Z) :
  bytes e -> bytes c -> length c = length e ->
  hmac_verify e c (length e) = true <-> e = c.
Proof. intros. rewrite hmac_verify_spec by done. apply bool_decide_eq_true. Qed.

Lemma hmac_verify_correct_witness : hmac_verify [1; 2] [1; 2] 2 = true <-> [1; 2] = [1; 2].
Proof.
  apply (hmac_verify_correct [1; 2] [1; 2]); repeat constructor; unfold is_word; lia.
Defined.
