(* ===== verification/Aes.v ===== *)
(** * AES-128 (src/kernel/crypto/aes.c)

    The table-driven software cipher, the AES-NI code path, CBC mode and PKCS7
    padding.  A 16-byte block is the list of its bytes, in memory order.  The
    reference is FIPS 197 with the S-box and the MixColumns products computed
    in GF(2^8), so the equivalence theorems also validate every table entry.

    The five AES-NI instructions are not code of the repository: they are the
    class [AesNi], with the behaviour documented in the Intel SDM as its laws;
    [aesni_model] is an instance that satisfies them. *)

From S2P Require Import Prelude.


(** ** Tables *)

Definition sbox : list Z := [
  0x63;0x7c;0x77;0x7b;0xf2;0x6b;0x6f;0xc5;0x30;0x01;0x67;0x2b;0xfe;0xd7;0xab;0x76;
  0xca;0x82;0xc9;0x7d;0xfa;0x59;0x47;0xf0;0xad;0xd4;0xa2;0xaf;0x9c;0xa4;0x72;0xc0;
  0xb7;0xfd;0x93;0x26;0x36;0x3f;0xf7;0xcc;0x34;0xa5;0xe5;0xf1;0x71;0xd8;0x31;0x15;
  0x04;0xc7;0x23;0xc3;0x18;0x96;0x05;0x9a;0x07;0x12;0x80;0xe2;0xeb;0x27;0xb2;0x75;
  0x09;0x83;0x2c;0x1a;0x1b;0x6e;0x5a;0xa0;0x52;0x3b;0xd6;0xb3;0x29;0xe3;0x2f;0x84;
  0x53;0xd1;0x00;0xed;0x20;0xfc;0xb1;0x5b;0x6a;0xcb;0xbe;0x39;0x4a;0x4c;0x58;0xcf;
  0xd0;0xef;0xaa;0xfb;0x43;0x4d;0x33;0x85;0x45;0xf9;0x02;0x7f;0x50;0x3c;0x9f;0xa8;
  0x51;0xa3;0x40;0x8f;0x92;0x9d;0x38;0xf5;0xbc;0xb6;0xda;0x21;0x10;0xff;0xf3;0xd2;
  0xcd;0x0c;0x13;0xec;0x5f;0x97;0x44;0x17;0xc4;0xa7;0x7e;0x3d;0x64;0x5d;0x19;0x73;
  0x60;0x81;0x4f;0xdc;0x22;0x2a;0x90;0x88;0x46;0xee;0xb8;0x14;0xde;0x5e;0x0b;0xdb;
  0xe0;0x32;0x3a;0x0a;0x49;0x06;0x24;0x5c;0xc2;0xd3;0xac;0x62;0x91;0x95;0xe4;0x79;
  0xe7;0xc8;0x37;0x6d;0x8d;0xd5;0x4e;0xa9;0x6c;0x56;0xf4;0xea;0x65;0x7a;0xae;0x08;
  0xba;0x78;0x25;0x2e;0x1c;0xa6;0xb4;0xc6;0xe8;0xdd;0x74;0x1f;0x4b;0xbd;0x8b;0x8a;
  0x70;0x3e;0xb5;0x66;0x48;0x03;0xf6;0x0e;0x61;0x35;0x57;0xb9;0x86;0xc1;0x1d;0x9e;
  0xe1;0xf8;0x98;0x11;0x69;0xd9;0x8e;0x94;0x9b;0x1e;0x87;0xe9;0xce;0x55;0x28;0xdf;
  0x8c;0xa1;0x89;0x0d;0xbf;0xe6;0x42;0x68;0x41;0x99;0x2d;0x0f;0xb0;0x54;0xbb;0x16 ].

Definition inv_sbox : list Z := [
  0x52;0x09;0x6a;0xd5;0x30;0x36;0xa5;0x38;0xbf;0x40;0xa3;0x9e;0x81;0xf3;0xd7;0xfb;
  0x7c;0xe3;0x39;0x82;0x9b;0x2f;0xff;0x87;0x34;0x8e;0x43;0x44;0xc4;0xde;0xe9;0xcb;
  0x54;0x7b;0x94;0x32;0xa6;0xc2;0x23;0x3d;0xee;0x4c;0x95;0x0b;0x42;0xfa;0xc3;0x4e;
  0x08;0x2e;0xa1;0x66;0x28;0xd9;0x24;0xb2;0x76;0x5b;0xa2;0x49;0x6d;0x8b;0xd1;0x25;
  0x72;0xf8;0xf6;0x64;0x86;0x68;0x98;0x16;0xd4;0xa4;0x5c;0xcc;0x5d;0x65;0xb6;0x92;
  0x6c;0x70;0x48;0x50;0xfd;0xed;0xb9;0xda;0x5e;0x15;0x46;0x57;0xa7;0x8d;0x9d;0x84;
  0x90;0xd8;0xab;0x00;0x8c;0xbc;0xd3;0x0a;0xf7;0xe4;0x58;0x05;0xb8;0xb3;0x45;0x06;
  0xd0;0x2c;0x1e;0x8f;0xca;0x3f;0x0f;0x02;0xc1;0xaf;0xbd;0x03;0x01;0x13;0x8a;0x6b;
  0x3a;0x91;0x11;0x41;0x4f;0x67;0xdc;0xea;0x97;0xf2;0xcf;0xce;0xf0;0xb4;0xe6;0x73;
  0x96;0xac;0x74;0x22;0xe7;0xad;0x35;0x85;0xe2;0xf9;0x37;0xe8;0x1c;0x75;0xdf;0x6e;
  0x47;0xf1;0x1a;0x71;0x1d;0x29;0xc5;0x89;0x6f;0xb7;0x62;0x0e;0xaa;0x18;0xbe;0x1b;
  0xfc;0x56;0x3e;0x4b;0xc6;0xd2;0x79;0x20;0x9a;0xdb;0xc0;0xfe;0x78;0xcd;0x5a;0xf4;
  0x1f;0xdd;0xa8;0x33;0x88;0x07;0xc7;0x31;0xb1;0x12;0x10;0x59;0x27;0x80;0xec;0x5f;
  0x60;0x51;0x7f;0xa9;0x19;0xb5;0x4a;0x0d;0x2d;0xe5;0x7a;0x9f;0x93;0xc9;0x9c;0xef;
  0xa0;0xe0;0x3b;0x4d;0xae;0x2a;0xf5;0xb0;0xc8;0xeb;0xbb;0x3c;0x83;0x53;0x99;0x61;
  0x17;0x2b;0x04;0x7e;0xba;0x77;0xd6;0x26;0xe1;0x69;0x14;0x63;0x55;0x21;0x0c;0x7d ].

Definition rcon : list Z := [
  0x00;0x01;0x02;0x04;0x08;0x10;0x20;0x40;0x80;0x1b;0x36 ].

Definition mul2 : list Z := [
  0x00;0x02;0x04;0x06;0x08;0x0A;0x0C;0x0E;0x10;0x12;0x14;0x16;0x18;0x1A;0x1C;0x1E;
  0x20;0x22;0x24;0x26;0x28;0x2A;0x2C;0x2E;0x30;0x32;0x34;0x36;0x38;0x3A;0x3C;0x3E;
  0x40;0x42;0x44;0x46;0x48;0x4A;0x4C;0x4E;0x50;0x52;0x54;0x56;0x58;0x5A;0x5C;0x5E;
  0x60;0x62;0x64;0x66;0x68;0x6A;0x6C;0x6E;0x70;0x72;0x74;0x76;0x78;0x7A;0x7C;0x7E;
  0x80;0x82;0x84;0x86;0x88;0x8A;0x8C;0x8E;0x90;0x92;0x94;0x96;0x98;0x9A;0x9C;0x9E;
  0xA0;0xA2;0xA4;0xA6;0xA8;0xAA;0xAC;0xAE;0xB0;0xB2;0xB4;0xB6;0xB8;0xBA;0xBC;0xBE;
  0xC0;0xC2;0xC4;0xC6;0xC8;0xCA;0xCC;0xCE;0xD0;0xD2;0xD4;0xD6;0xD8;0xDA;0xDC;0xDE;
  0xE0;0xE2;0xE4;0xE6;0xE8;0xEA;0xEC;0xEE;0xF0;0xF2;0xF4;0xF6;0xF8;0xFA;0xFC;0xFE;
  0x1B;0x19;0x1F;0x1D;0x13;0x11;0x17;0x15;0x0B;0x09;0x0F;0x0D;0x03;0x01;0x07;0x05;
  0x3B;0x39;0x3F;0x3D;0x33;0x31;0x37;0x35;0x2B;0x29;0x2F;0x2D;0x23;0x21;0x27;0x25;
  0x5B;0x59;0x5F;0x5D;0x53;0x51;0x57;0x55;0x4B;0x49;0x4F;0x4D;0x43;0x41;0x47;0x45;
  0x7B;0x79;0x7F;0x7D;0x73;0x71;0x77;0x75;0x6B;0x69;0x6F;0x6D;0x63;0x61;0x67;0x65;
  0x9B;0x99;0x9F;0x9D;0x93;0x91;0x97;0x95;0x8B;0x89;0x8F;0x8D;0x83;0x81;0x87;0x85;
  0xBB;0xB9;0xBF;0xBD;0xB3;0xB1;0xB7;0xB5;0xAB;0xA9;0xAF;0xAD;0xA3;0xA1;0xA7;0xA5;
  0xDB;0xD9;0xDF;0xDD;0xD3;0xD1;0xD7;0xD5;0xCB;0xC9;0xCF;0xCD;0xC3;0xC1;0xC7;0xC5;
  0xFB;0xF9;0xFF;0xFD;0xF3;0xF1;0xF7;0xF5;0xEB;0xE9;0xEF;0xED;0xE3;0xE1;0xE7;0xE5 ].

Definition mul3 : list Z := [
  0x00;0x03;0x06;0x05;0x0C;0x0F;0x0A;0x09;0x18;0x1B;0x1E;0x1D;0x14;0x17;0x12;0x11;
  0x30;0x33;0x36;0x35;0x3C;0x3F;0x3A;0x39;0x28;0x2B;0x2E;0x2D;0x24;0x27;0x22;0x21;
  0x60;0x63;0x66;0x65;0x6C;0x6F;0x6A;0x69;0x78;0x7B;0x7E;0x7D;0x74;0x77;0x72;0x71;
  0x50;0x53;0x56;0x55;0x5C;0x5F;0x5A;0x59;0x48;0x4B;0x4E;0x4D;0x44;0x47;0x42;0x41;
  0xC0;0xC3;0xC6;0xC5;0xCC;0xCF;0xCA;0xC9;0xD8;0xDB;0xDE;0xDD;0xD4;0xD7;0xD2;0xD1;
  0xF0;0xF3;0xF6;0xF5;0xFC;0xFF;0xFA;0xF9;0xE8;0xEB;0xEE;0xED;0xE4;0xE7;0xE2;0xE1;
  0xA0;0xA3;0xA6;0xA5;0xAC;0xAF;0xAA;0xA9;0xB8;0xBB;0xBE;0xBD;0xB4;0xB7;0xB2;0xB1;
  0x90;0x93;0x96;0x95;0x9C;0x9F;0x9A;0x99;0x88;0x8B;0x8E;0x8D;0x84;0x87;0x82;0x81;
  0x9B;0x98;0x9D;0x9E;0x97;0x94;0x91;0x92;0x83;0x80;0x85;0x86;0x8F;0x8C;0x89;0x8A;
  0xAB;0xA8;0xAD;0xAE;0xA7;0xA4;0xA1;0xA2;0xB3;0xB0;0xB5;0xB6;0xBF;0xBC;0xB9;0xBA;
  0xFB;0xF8;0xFD;0xFE;0xF7;0xF4;0xF1;0xF2;0xE3;0xE0;0xE5;0xE6;0xEF;0xEC;0xE9;0xEA;
  0xCB;0xC8;0xCD;0xCE;0xC7;0xC4;0xC1;0xC2;0xD3;0xD0;0xD5;0xD6;0xDF;0xDC;0xD9;0xDA;
  0x5B;0x58;0x5D;0x5E;0x57;0x54;0x51;0x52;0x43;0x40;0x45;0x46;0x4F;0x4C;0x49;0x4A;
  0x6B;0x68;0x6D;0x6E;0x67;0x64;0x61;0x62;0x73;0x70;0x75;0x76;0x7F;0x7C;0x79;0x7A;
  0x3B;0x38;0x3D;0x3E;0x37;0x34;0x31;0x32;0x23;0x20;0x25;0x26;0x2F;0x2C;0x29;0x2A;
  0x0B;0x08;0x0D;0x0E;0x07;0x04;0x01;0x02;0x13;0x10;0x15;0x16;0x1F;0x1C;0x19;0x1A ].

Definition mul9 : list Z := [
  0x00;0x09;0x12;0x1B;0x24;0x2D;0x36;0x3F;0x48;0x41;0x5A;0x53;0x6C;0x65;0x7E;0x77;
  0x90;0x99;0x82;0x8B;0xB4;0xBD;0xA6;0xAF;0xD8;0xD1;0xCA;0xC3;0xFC;0xF5;0xEE;0xE7;
  0x3B;0x32;0x29;0x20;0x1F;0x16;0x0D;0x04;0x73;0x7A;0x61;0x68;0x57;0x5E;0x45;0x4C;
  0xAB;0xA2;0xB9;0xB0;0x8F;0x86;0x9D;0x94;0xE3;0xEA;0xF1;0xF8;0xC7;0xCE;0xD5;0xDC;
  0x76;0x7F;0x64;0x6D;0x52;0x5B;0x40;0x49;0x3E;0x37;0x2C;0x25;0x1A;0x13;0x08;0x01;
  0xE6;0xEF;0xF4;0xFD;0xC2;0xCB;0xD0;0xD9;0xAE;0xA7;0xBC;0xB5;0x8A;0x83;0x98;0x91;
  0x4D;0x44;0x5F;0x56;0x69;0x60;0x7B;0x72;0x05;0x0C;0x17;0x1E;0x21;0x28;0x33;0x3A;
  0xDD;0xD4;0xCF;0xC6;0xF9;0xF0;0xEB;0xE2;0x95;0x9C;0x87;0x8E;0xB1;0xB8;0xA3;0xAA;
  0xEC;0xE5;0xFE;0xF7;0xC8;0xC1;0xDA;0xD3;0xA4;0xAD;0xB6;0xBF;0x80;0x89;0x92;0x9B;
  0x7C;0x75;0x6E;0x67;0x58;0x51;0x4A;0x43;0x34;0x3D;0x26;0x2F;0x10;0x19;0x02;0x0B;
  0xD7;0xDE;0xC5;0xCC;0xF3;0xFA;0xE1;0xE8;0x9F;0x96;0x8D;0x84;0xBB;0xB2;0xA9;0xA0;
  0x47;0x4E;0x55;0x5C;0x63;0x6A;0x71;0x78;0x0F;0x06;0x1D;0x14;0x2B;0x22;0x39;0x30;
  0x9A;0x93;0x88;0x81;0xBE;0xB7;0xAC;0xA5;0xD2;0xDB;0xC0;0xC9;0xF6;0xFF;0xE4;0xED;
  0x0A;0x03;0x18;0x11;0x2E;0x27;0x3C;0x35;0x42;0x4B;0x50;0x59;0x66;0x6F;0x74;0x7D;
  0xA1;0xA8;0xB3;0xBA;0x85;0x8C;0x97;0x9E;0xE9;0xE0;0xFB;0xF2;0xCD;0xC4;0xDF;0xD6;
  0x31;0x38;0x23;0x2A;0x15;0x1C;0x07;0x0E;0x79;0x70;0x6B;0x62;0x5D;0x54;0x4F;0x46 ].

Definition mul11 : list Z := [
  0x00;0x0B;0x16;0x1D;0x2C;0x27;0x3A;0x31;0x58;0x53;0x4E;0x45;0x74;0x7F;0x62;0x69;
  0xB0;0xBB;0xA6;0xAD;0x9C;0x97;0x8A;0x81;0xE8;0xE3;0xFE;0xF5;0xC4;0xCF;0xD2;0xD9;
  0x7B;0x70;0x6D;0x66;0x57;0x5C;0x41;0x4A;0x23;0x28;0x35;0x3E;0x0F;0x04;0x19;0x12;
  0xCB;0xC0;0xDD;0xD6;0xE7;0xEC;0xF1;0xFA;0x93;0x98;0x85;0x8E;0xBF;0xB4;0xA9;0xA2;
  0xF6;0xFD;0xE0;0xEB;0xDA;0xD1;0xCC;0xC7;0xAE;0xA5;0xB8;0xB3;0x82;0x89;0x94;0x9F;
  0x46;0x4D;0x50;0x5B;0x6A;0x61;0x7C;0x77;0x1E;0x15;0x08;0x03;0x32;0x39;0x24;0x2F;
  0x8D;0x86;0x9B;0x90;0xA1;0xAA;0xB7;0xBC;0xD5;0xDE;0xC3;0xC8;0xF9;0xF2;0xEF;0xE4;
  0x3D;0x36;0x2B;0x20;0x11;0x1A;0x07;0x0C;0x65;0x6E;0x73;0x78;0x49;0x42;0x5F;0x54;
  0xF7;0xFC;0xE1;0xEA;0xDB;0xD0;0xCD;0xC6;0xAF;0xA4;0xB9;0xB2;0x83;0x88;0x95;0x9E;
  0x47;0x4C;0x51;0x5A;0x6B;0x60;0x7D;0x76;0x1F;0x14;0x09;0x02;0x33;0x38;0x25;0x2E;
  0x8C;0x87;0x9A;0x91;0xA0;0xAB;0xB6;0xBD;0xD4;0xDF;0xC2;0xC9;0xF8;0xF3;0xEE;0xE5;
  0x3C;0x37;0x2A;0x21;0x10;0x1B;0x06;0x0D;0x64;0x6F;0x72;0x79;0x48;0x43;0x5E;0x55;
  0x01;0x0A;0x17;0x1C;0x2D;0x26;0x3B;0x30;0x59;0x52;0x4F;0x44;0x75;0x7E;0x63;0x68;
  0xB1;0xBA;0xA7;0xAC;0x9D;0x96;0x8B;0x80;0xE9;0xE2;0xFF;0xF4;0xC5;0xCE;0xD3;0xD8;
  0x7A;0x71;0x6C;0x67;0x56;0x5D;0x40;0x4B;0x22;0x29;0x34;0x3F;0x0E;0x05;0x18;0x13;
  0xCA;0xC1;0xDC;0xD7;0xE6;0xED;0xF0;0xFB;0x92;0x99;0x84;0x8F;0xBE;0xB5;0xA8;0xA3 ].

Definition mul13 : list Z := [
  0x00;0x0D;0x1A;0x17;0x34;0x39;0x2E;0x23;0x68;0x65;0x72;0x7F;0x5C;0x51;0x46;0x4B;
  0xD0;0xDD;0xCA;0xC7;0xE4;0xE9;0xFE;0xF3;0xB8;0xB5;0xA2;0xAF;0x8C;0x81;0x96;0x9B;
  0xBB;0xB6;0xA1;0xAC;0x8F;0x82;0x95;0x98;0xD3;0xDE;0xC9;0xC4;0xE7;0xEA;0xFD;0xF0;
  0x6B;0x66;0x71;0x7C;0x5F;0x52;0x45;0x48;0x03;0x0E;0x19;0x14;0x37;0x3A;0x2D;0x20;
  0x6D;0x60;0x77;0x7A;0x59;0x54;0x43;0x4E;0x05;0x08;0x1F;0x12;0x31;0x3C;0x2B;0x26;
  0xBD;0xB0;0xA7;0xAA;0x89;0x84;0x93;0x9E;0xD5;0xD8;0xCF;0xC2;0xE1;0xEC;0xFB;0xF6;
  0xD6;0xDB;0xCC;0xC1;0xE2;0xEF;0xF8;0xF5;0xBE;0xB3;0xA4;0xA9;0x8A;0x87;0x90;0x9D;
  0x06;0x0B;0x1C;0x11;0x32;0x3F;0x28;0x25;0x6E;0x63;0x74;0x79;0x5A;0x57;0x40;0x4D;
  0xDA;0xD7;0xC0;0xCD;0xEE;0xE3;0xF4;0xF9;0xB2;0xBF;0xA8;0xA5;0x86;0x8B;0x9C;0x91;
  0x0A;0x07;0x10;0x1D;0x3E;0x33;0x24;0x29;0x62;0x6F;0x78;0x75;0x56;0x5B;0x4C;0x41;
  0x61;0x6C;0x7B;0x76;0x55;0x58;0x4F;0x42;0x09;0x04;0x13;0x1E;0x3D;0x30;0x27;0x2A;
  0xB1;0xBC;0xAB;0xA6;0x85;0x88;0x9F;0x92;0xD9;0xD4;0xC3;0xCE;0xED;0xE0;0xF7;0xFA;
  0xB7;0xBA;0xAD;0xA0;0x83;0x8E;0x99;0x94;0xDF;0xD2;0xC5;0xC8;0xEB;0xE6;0xF1;0xFC;
  0x67;0x6A;0x7D;0x70;0x53;0x5E;0x49;0x44;0x0F;0x02;0x15;0x18;0x3B;0x36;0x21;0x2C;
  0x0C;0x01;0x16;0x1B;0x38;0x35;0x22;0x2F;0x64;0x69;0x7E;0x73;0x50;0x5D;0x4A;0x47;
  0xDC;0xD1;0xC6;0xCB;0xE8;0xE5;0xF2;0xFF;0xB4;0xB9;0xAE;0xA3;0x80;0x8D;0x9A;0x97 ].

Definition mul14 : list Z := [
  0x00;0x0E;0x1C;0x12;0x38;0x36;0x24;0x2A;0x70;0x7E;0x6C;0x62;0x48;0x46;0x54;0x5A;
  0xE0;0xEE;0xFC;0xF2;0xD8;0xD6;0xC4;0xCA;0x90;0x9E;0x8C;0x82;0xA8;0xA6;0xB4;0xBA;
  0xDB;0xD5;0xC7;0xC9;0xE3;0xED;0xFF;0xF1;0xAB;0xA5;0xB7;0xB9;0x93;0x9D;0x8F;0x81;
  0x3B;0x35;0x27;0x29;0x03;0x0D;0x1F;0x11;0x4B;0x45;0x57;0x59;0x73;0x7D;0x6F;0x61;
  0xAD;0xA3;0xB1;0xBF;0x95;0x9B;0x89;0x87;0xDD;0xD3;0xC1;0xCF;0xE5;0xEB;0xF9;0xF7;
  0x4D;0x43;0x51;0x5F;0x75;0x7B;0x69;0x67;0x3D;0x33;0x21;0x2F;0x05;0x0B;0x19;0x17;
  0x76;0x78;0x6A;0x64;0x4E;0x40;0x52;0x5C;0x06;0x08;0x1A;0x14;0x3E;0x30;0x22;0x2C;
  0x96;0x98;0x8A;0x84;0xAE;0xA0;0xB2;0xBC;0xE6;0xE8;0xFA;0xF4;0xDE;0xD0;0xC2;0xCC;
  0x41;0x4F;0x5D;0x53;0x79;0x77;0x65;0x6B;0x31;0x3F;0x2D;0x23;0x09;0x07;0x15;0x1B;
  0xA1;0xAF;0xBD;0xB3;0x99;0x97;0x85;0x8B;0xD1;0xDF;0xCD;0xC3;0xE9;0xE7;0xF5;0xFB;
  0x9A;0x94;0x86;0x88;0xA2;0xAC;0xBE;0xB0;0xEA;0xE4;0xF6;0xF8;0xD2;0xDC;0xCE;0xC0;
  0x7A;0x74;0x66;0x68;0x42;0x4C;0x5E;0x50;0x0A;0x04;0x16;0x18;0x32;0x3C;0x2E;0x20;
  0xEC;0xE2;0xF0;0xFE;0xD4;0xDA;0xC8;0xC6;0x9C;0x92;0x80;0x8E;0xA4;0xAA;0xB8;0xB6;
  0x0C;0x02;0x10;0x1E;0x34;0x3A;0x28;0x26;0x7C;0x72;0x60;0x6E;0x44;0x4A;0x58;0x56;
  0x37;0x39;0x2B;0x25;0x0F;0x01;0x13;0x1D;0x47;0x49;0x5B;0x55;0x7F;0x71;0x63;0x6D;
  0xD7;0xD9;0xCB;0xC5;0xEF;0xE1;0xF3;0xFD;0xA7;0xA9;0xBB;0xB5;0x9F;0x91;0x83;0x8D ].

(** Reading a table with a byte as the index. *)
Definition tbl (t : list Z) (a : Z) : Z := nth (Z.to_nat a) t 0.

(** ** The code *)

(** The two static flags of the file. *)
Record aes_flags := AesFlags { aesni_available : bool; aesni_checked : bool }.

(** Key expansion: iteration [i] appends word [i] of [round_key]. *)
Definition expand_step (rk : list Z) (i : nat) : list Z :=
  let temp := take 4 (drop ((i - 1) * 4) rk) in
  let temp :=
    if (i mod 4 =? 0)%nat then
      let t := temp.[0] in
      let temp := [temp.[1]; temp.[2]; temp.[3]; t] in
      let temp := map (tbl sbox) temp in
      <[0%nat := Z.lxor temp.[0] rcon.[i / 4]]> temp
    else temp in
  rk ++ map (fun j => Z.lxor rk.[(i - 4) * 4 + j] temp.[j]) (seq 0 4).

(** [aes_init]: the flags are set from CPUID leaf 1 on the first call;
    the result is the flags and the 176 bytes of [ctx->round_key]. *)
Definition aes_init (fl : aes_flags) (cpuid1_ecx : Z) (key : list Z)
    : aes_flags * list Z :=
  let fl := if aesni_checked fl then fl
            else AesFlags (Z.testbit cpuid1_ecx 25) true in
  (fl, foldl expand_step (take 16 key) (seq 4 40)).

Definition sub_bytes (s : list Z) : list Z := map (tbl sbox) s.
Definition inv_sub_bytes (s : list Z) : list Z := map (tbl inv_sbox) s.

Definition shift_rows (s : list Z) : list Z :=
  let tmp := s.[1] in
  let s := <[1%nat := s.[5]]> s in let s := <[5%nat := s.[9]]> s in
  let s := <[9%nat := s.[13]]> s in let s := <[13%nat := tmp]> s in
  let tmp := s.[2] in
  let s := <[2%nat := s.[10]]> s in let s := <[10%nat := tmp]> s in
  let tmp := s.[6] in
  let s := <[6%nat := s.[14]]> s in let s := <[14%nat := tmp]> s in
  let tmp := s.[15] in
  let s := <[15%nat := s.[11]]> s in let s := <[11%nat := s.[7]]> s in
  let s := <[7%nat := s.[3]]> s in <[3%nat := tmp]> s.

Definition inv_shift_rows (s : list Z) : list Z :=
  let tmp := s.[13] in
  let s := <[13%nat := s.[9]]> s in let s := <[9%nat := s.[5]]> s in
  let s := <[5%nat := s.[1]]> s in let s := <[1%nat := tmp]> s in
  let tmp := s.[2] in
  let s := <[2%nat := s.[10]]> s in let s := <[10%nat := tmp]> s in
  let tmp := s.[6] in
  let s := <[6%nat := s.[14]]> s in let s := <[14%nat := tmp]> s in
  let tmp := s.[3] in
  let s := <[3%nat := s.[7]]> s in let s := <[7%nat := s.[11]]> s in
  let s := <[11%nat := s.[15]]> s in <[15%nat := tmp]> s.

Definition xor4 (a b c d : Z) : Z := Z.lxor (Z.lxor (Z.lxor a b) c) d.

(** Body of the MixColumns loops, for column [c]. *)
Definition mix_column (s : list Z) (c : nat) : list Z :=
  let i := (c * 4)%nat in
  let a0 := s.[i] in let a1 := s.[i + 1] in
  let a2 := s.[i + 2] in let a3 := s.[i + 3] in
  let s := <[i := xor4 (tbl mul2 a0) (tbl mul3 a1) a2 a3]> s in
  let s := <[(i + 1)%nat := xor4 a0 (tbl mul2 a1) (tbl mul3 a2) a3]> s in
  let s := <[(i + 2)%nat := xor4 a0 a1 (tbl mul2 a2) (tbl mul3 a3)]> s in
  <[(i + 3)%nat := xor4 (tbl mul3 a0) a1 a2 (tbl mul2 a3)]> s.

Definition mix_columns (s : list Z) : list Z := foldl mix_column s (seq 0 4).

Definition inv_mix_column (s : list Z) (c : nat) : list Z :=
  let i := (c * 4)%nat in
  let a0 := s.[i] in let a1 := s.[i + 1] in
  let a2 := s.[i + 2] in let a3 := s.[i + 3] in
  let s := <[i := xor4 (tbl mul14 a0) (tbl mul11 a1) (tbl mul13 a2) (tbl mul9 a3)]> s in
  let s := <[(i + 1)%nat :=
    xor4 (tbl mul9 a0) (tbl mul14 a1) (tbl mul11 a2) (tbl mul13 a3)]> s in
  let s := <[(i + 2)%nat :=
    xor4 (tbl mul13 a0) (tbl mul9 a1) (tbl mul14 a2) (tbl mul11 a3)]> s in
  <[(i + 3)%nat := xor4 (tbl mul11 a0) (tbl mul13 a1) (tbl mul9 a2) (tbl mul14 a3)]> s.

Definition inv_mix_columns (s : list Z) : list Z := foldl inv_mix_column s (seq 0 4).

Definition add_round_key (s rk : list Z) : list Z :=
  map (fun i => Z.lxor s.[i] rk.[i]) (seq 0 16).

(** [ctx->round_key + round * 16] *)
Definition rkey (rk : list Z) (round : nat) : list Z := drop (round * 16) rk.

Definition enc_round (rk s : list Z) (round : nat) : list Z :=
  add_round_key (mix_columns (shift_rows (sub_bytes s))) (rkey rk round).

Definition aes_encrypt_block_sw (rk block : list Z) : list Z :=
  let s := add_round_key block rk in
  let s := foldl (enc_round rk) s (seq 1 9) in
  add_round_key (shift_rows (sub_bytes s)) (rkey rk 10).

Definition dec_round (rk s : list Z) (round : nat) : list Z :=
  inv_mix_columns (add_round_key (inv_sub_bytes (inv_shift_rows s)) (rkey rk round)).

Definition aes_decrypt_block_sw (rk block : list Z) : list Z :=
  let s := add_round_key block (rkey rk 10) in
  let s := foldl (dec_round rk) s (rev (seq 1 9)) in
  add_round_key (inv_sub_bytes (inv_shift_rows s)) rk.

(** ** AES-NI *)

(** The instructions the inline assembly executes on 128-bit registers. *)
Class AesNi := {
  pxor : list Z -> list Z -> list Z;
  aesenc : list Z -> list Z -> list Z;
  aesenclast : list Z -> list Z -> list Z;
  aesdec : list Z -> list Z -> list Z;
  aesdeclast : list Z -> list Z -> list Z;
  aesimc : list Z -> list Z
}.

(** [movdqu k(%1), %%xmm1]: sixteen bytes of the key schedule. *)
Definition load_key (rk : list Z) (round : nat) : list Z := take 16 (rkey rk round).

Section aesni_code.
Context `{AesNi}.

Definition aes_encrypt_block_ni (rk block : list Z) : list Z :=
  let x := pxor block (load_key rk 0) in
  let x := foldl (fun x r => aesenc x (load_key rk r)) x (seq 1 9) in
  aesenclast x (load_key rk 10).

Definition aes_decrypt_block_ni (rk block : list Z) : list Z :=
  let x := pxor block (load_key rk 10) in
  let x := foldl (fun x r => aesdec x (aesimc (load_key rk r))) x (rev (seq 1 9)) in
  aesdeclast x (load_key rk 0).

Definition aes_encrypt_block (fl : aes_flags) (rk block : list Z) : list Z :=
  if aesni_available fl then aes_encrypt_block_ni rk block
  else aes_encrypt_block_sw rk block.

Definition aes_decrypt_block (fl : aes_flags) (rk block : list Z) : list Z :=
  if aesni_available fl then aes_decrypt_block_ni rk block
  else aes_decrypt_block_sw rk block.

(** ** CBC mode: [fuel] is the number of 16-byte blocks left *)

Fixpoint cbc_encrypt_loop (fuel : nat) (fl : aes_flags) (rk prev pt : list Z) : list Z :=
  match fuel with
  | O => []
  | S fuel =>
      let x := map (fun i => Z.lxor pt.[i] prev.[i]) (seq 0 16) in
      let ct := aes_encrypt_block fl rk x in
      ct ++ cbc_encrypt_loop fuel fl rk ct (drop 16 pt)
  end.

Definition aes_cbc_encrypt (fl : aes_flags) (rk iv plaintext : list Z) : list Z :=
  cbc_encrypt_loop (length plaintext / 16) fl rk iv plaintext.

Fixpoint cbc_decrypt_loop (fuel : nat) (fl : aes_flags) (rk prev ct : list Z) : list Z :=
  match fuel with
  | O => []
  | S fuel =>
      let block := aes_decrypt_block fl rk (take 16 ct) in
      map (fun i => Z.lxor block.[i] prev.[i]) (seq 0 16)
        ++ cbc_decrypt_loop fuel fl rk (take 16 ct) (drop 16 ct)
  end.

Definition aes_cbc_decrypt (fl : aes_flags) (rk iv ciphertext : list Z) : list Z :=
  cbc_decrypt_loop (length ciphertext / 16) fl rk iv ciphertext.
End aesni_code.

(** ** PKCS7 padding *)

Definition aes_padded_size (data_len : nat) : nat := ((data_len / 16) + 1) * 16.

(** Writes the cells [data_len .. buf_len - 1] of [buf]. *)
Definition aes_pkcs7_pad (buf : list Z) (data_len buf_len : nat) : list Z :=
  let pad_byte := u8 (Z.of_nat (buf_len - data_len)) in
  foldl (fun b i => <[i := pad_byte]> b) buf (seq data_len (buf_len - data_len)).

(** 0 is the error result. *)
Definition aes_pkcs7_unpad (buf : list Z) (buf_len : nat) : nat :=
  if (buf_len =? 0)%nat || negb (buf_len mod 16 =? 0)%nat then O
  else
    let pad := buf.[buf_len - 1] in
    if (pad =? 0) || (16 <? pad) then O
    else
      let n := Z.to_nat pad in
      if forallb (fun i => buf.[i] =? pad) (seq (buf_len - n) n)
      then (buf_len - n)%nat else O.

(** FIPS 197, appendix C.1. *)
Example aes_fips197_c1 :
  aes_encrypt_block_sw (snd (aes_init (AesFlags false true) 0 (map Z.of_nat (seq 0 16))))
    [0x00;0x11;0x22;0x33;0x44;0x55;0x66;0x77;0x88;0x99;0xaa;0xbb;0xcc;0xdd;0xee;0xff] =
    [0x69;0xc4;0xe0;0xd8;0x6a;0x7b;0x04;0x30;0xd8;0xcd;0xb7;0x80;0x70;0xb4;0xc5;0x5a].
Proof. vm_compute. reflexivity. Qed.

(** ** The reference: FIPS 197 over GF(2^8) *)

Definition xtime (a : Z) : Z :=
  Z.lxor (u8 (Z.shiftl a 1)) (if Z.testbit a 7 then 0x1b else 0).

(** Product of [a] and the [n] low bits of [b]. *)
Fixpoint gmul_bits (n : nat) (a b : Z) : Z :=
  match n with
  | O => 0
  | S n => Z.lxor (if Z.odd b then a else 0) (gmul_bits n (xtime a) (b / 2))
  end.

Definition gmul (a b : Z) : Z := gmul_bits 8 a b.

(** Multiplicative inverse, as a^254 (0 for 0). *)
Definition gf_inv (a : Z) : Z :=
  let a2 := gmul a a in let a4 := gmul a2 a2 in let a8 := gmul a4 a4 in
  let a16 := gmul a8 a8 in let a32 := gmul a16 a16 in
  let a64 := gmul a32 a32 in let a128 := gmul a64 a64 in
  gmul a128 (gmul a64 (gmul a32 (gmul a16 (gmul a8 (gmul a4 a2))))).

Definition rotl8 (a k : Z) : Z := Z.lor (u8 (Z.shiftl a k)) (Z.shiftr a (8 - k)).

Definition fips_sbox (a : Z) : Z :=
  let b := gf_inv a in
  Z.lxor (Z.lxor (xor4 b (rotl8 b 1) (rotl8 b 2) (rotl8 b 3)) (rotl8 b 4)) 0x63.

Definition fips_inv_sbox (a : Z) : Z :=
  gf_inv (xor4 (rotl8 a 1) (rotl8 a 3) (rotl8 a 6) 0x05).

Definition fips_shift_rows (s : list Z) : list Z :=
  map (fun i => s.[i mod 4 + 4 * ((i / 4 + i mod 4) mod 4)]) (seq 0 16).

Definition fips_inv_shift_rows (s : list Z) : list Z :=
  map (fun i => s.[i mod 4 + 4 * ((i / 4 + 4 - i mod 4) mod 4)]) (seq 0 16).

(** Circulant matrix product: row [r] of column [c] is the sum over [j] of
    [m.[(j - r) mod 4]] times byte [j] of the column. *)
Definition fips_mix (m : list Z) (s : list Z) : list Z :=
  map (fun i =>
    let c := (4 * (i / 4))%nat in
    let t j := gmul s.[c + j] m.[(j + 4 - i mod 4) mod 4] in
    xor4 (t 0%nat) (t 1%nat) (t 2%nat) (t 3%nat)) (seq 0 16).

Definition fips_mix_columns : list Z -> list Z := fips_mix [2; 3; 1; 1].
Definition fips_inv_mix_columns : list Z -> list Z := fips_mix [14; 11; 13; 9].

(** The cipher of FIPS 197, figure 5, for an expanded key. *)
Definition fips_cipher (rk block : list Z) : list Z :=
  let s := add_round_key block rk in
  let s := foldl (fun s r =>
    add_round_key (fips_mix_columns (fips_shift_rows (map fips_sbox s))) (rkey rk r)) s (seq 1 9) in
  add_round_key (fips_shift_rows (map fips_sbox s)) (rkey rk 10).

(** Documented behaviour of the AES-NI instructions (Intel SDM vol. 2). *)
Class AesNiLaws `{AesNi} : Prop := {
  pxor_law x k : pxor x k = add_round_key x k;
  aesenc_law x k :
    aesenc x k = add_round_key (fips_mix_columns (map fips_sbox (fips_shift_rows x))) k;
  aesenclast_law x k : aesenclast x k = add_round_key (map fips_sbox (fips_shift_rows x)) k;
  aesdec_law x k : aesdec x k =
    add_round_key (fips_inv_mix_columns (map fips_inv_sbox (fips_inv_shift_rows x))) k;
  aesdeclast_law x k :
    aesdeclast x k = add_round_key (map fips_inv_sbox (fips_inv_shift_rows x)) k;
  aesimc_law k : aesimc k = fips_inv_mix_columns k
}.

(** A concrete model of the hardware, which satisfies the laws. *)
#[export] Instance aesni_model : AesNi := {|
  pxor := add_round_key;
  aesenc x k := add_round_key (fips_mix_columns (map fips_sbox (fips_shift_rows x))) k;
  aesenclast x k := add_round_key (map fips_sbox (fips_shift_rows x)) k;
  aesdec x k :=
    add_round_key (fips_inv_mix_columns (map fips_inv_sbox (fips_inv_shift_rows x))) k;
  aesdeclast x k := add_round_key (map fips_inv_sbox (fips_inv_shift_rows x)) k;
  aesimc := fips_inv_mix_columns
|}.

#[export] Instance aesni_model_laws : AesNiLaws.
Proof. by split. Qed.

(** ** Exhaustive checks over the 256 byte values *)

Definition all_bytes : list Z := map Z.of_nat (seq 0 256).

Lemma byte_forall (P : Z -> bool) : forallb P all_bytes = true -> forall a, is_u8 a -> P a = true.
Proof.
  rewrite forallb_forall. intros H a Ha. apply H. unfold all_bytes.
  apply in_map_iff. exists (Z.to_nat a). unfold is_word in Ha. rewrite in_seq. lia.
Qed.

(** Proves [forall a, is_u8 a -> f a = g a] by evaluating both sides. *)
Ltac by_bytes :=
  let a := fresh "a" in let H := fresh "H" in
  intros a H; apply Z.eqb_eq; revert a H;
  apply byte_forall; vm_compute; reflexivity.

Lemma tbl_byte t a : bytes t -> is_u8 (tbl t a).
Proof. intros. unfold tbl. apply nth_Forall; [unfold is_word; lia|done]. Qed.

Lemma tables_bytes :
  bytes sbox /\ bytes inv_sbox /\ bytes mul2 /\ bytes mul3 /\ bytes mul9 /\
  bytes mul11 /\ bytes mul13 /\ bytes mul14 /\ bytes rcon.
Proof. repeat split; by_compute. Qed.

Lemma tbl_sbox_byte a : is_u8 (tbl sbox a).
Proof. apply tbl_byte, tables_bytes. Qed.
Lemma tbl_inv_sbox_byte a : is_u8 (tbl inv_sbox a).
Proof. apply tbl_byte, tables_bytes. Qed.
#[export] Hint Resolve tbl_sbox_byte tbl_inv_sbox_byte : vault.

Lemma sbox_fips : forall a, is_u8 a -> tbl sbox a = fips_sbox a.
Proof. by_bytes. Qed.
Lemma inv_sbox_fips : forall a, is_u8 a -> tbl inv_sbox a = fips_inv_sbox a.
Proof. by_bytes. Qed.
Lemma inv_sbox_sbox : forall a, is_u8 a -> tbl inv_sbox (tbl sbox a) = a.
Proof. by_bytes. Qed.
Lemma sbox_inv_sbox : forall a, is_u8 a -> tbl sbox (tbl inv_sbox a) = a.
Proof. by_bytes. Qed.

Lemma mul2_gmul : forall a, is_u8 a -> tbl mul2 a = gmul a 2.
Proof. by_bytes. Qed.
Lemma mul3_gmul : forall a, is_u8 a -> tbl mul3 a = gmul a 3.
Proof. by_bytes. Qed.
Lemma mul9_gmul : forall a, is_u8 a -> tbl mul9 a = gmul a 9.
Proof. by_bytes. Qed.
Lemma mul11_gmul : forall a, is_u8 a -> tbl mul11 a = gmul a 11.
Proof. by_bytes. Qed.
Lemma mul13_gmul : forall a, is_u8 a -> tbl mul13 a = gmul a 13.
Proof. by_bytes. Qed.
Lemma mul14_gmul : forall a, is_u8 a -> tbl mul14 a = gmul a 14.
Proof. by_bytes. Qed.
Lemma gmul_1 : forall a, is_u8 a -> gmul a 1 = a.
Proof. by_bytes. Qed.

(** ** Linearity *)

Definition linear (f : Z -> Z) : Prop :=
  forall a b, is_u8 a -> is_u8 b -> f (Z.lxor a b) = Z.lxor (f a) (f b).

(** Equalities between xor terms, bit by bit. *)
Ltac xor_bits :=
  apply Z.bits_inj'; intros ? ?; unfold xor4; rewrite ?Z.lxor_spec, ?Z.bits_0;
  repeat match goal with |- context [Z.testbit ?x ?i] =>
    generalize (Z.testbit x i); intro end;
  btauto.

Lemma xtime_byte a : is_u8 (xtime a).
Proof.
  unfold xtime. apply lxor_word; [lia|by apply wrap_range|].
  destruct (Z.testbit a 7); unfold is_word; lia.
Qed.
#[export] Hint Resolve xtime_byte : vault.

Lemma xtime_linear : linear xtime.
Proof.
  intros a b _ _. unfold xtime. rewrite Z.shiftl_lxor, !wrap_land, Z.lxor_spec by lia.
  replace (Z.land (Z.lxor _ _) _) with
    (Z.lxor (Z.land (Z.shiftl a 1) (Z.ones 8)) (Z.land (Z.shiftl b 1) (Z.ones 8)))
    by (apply Z.bits_inj'; intros; rewrite ?Z.lxor_spec, ?Z.land_spec, ?Z.lxor_spec; btauto).
  destruct (Z.testbit a 7), (Z.testbit b 7); simpl xorb; cbv iota; xor_bits.
Qed.

Lemma gmul_bits_linear n k : linear (fun a => gmul_bits n a k).
Proof.
  revert k. induction n as [|n IH]; intros k a b Ha Hb; simpl; [done|].
  rewrite xtime_linear, IH by auto with vault. destruct (Z.odd k); xor_bits.
Qed.

Lemma gmul_linear k : linear (fun a => gmul a k).
Proof. apply gmul_bits_linear. Qed.

Lemma gmul_bits_byte n a k : is_u8 a -> is_u8 (gmul_bits n a k).
Proof.
  revert a k. induction n as [|n IH]; intros a k Ha; simpl; [unfold is_word; lia|].
  apply lxor_word; [lia| |apply IH; auto with vault].
  destruct (Z.odd k); [done|unfold is_word; lia].
Qed.

Lemma gmul_byte a k : is_u8 a -> is_u8 (gmul a k).
Proof. apply gmul_bits_byte. Qed.

Lemma xor4_byte a b c d : is_u8 a -> is_u8 b -> is_u8 c -> is_u8 d -> is_u8 (xor4 a b c d).
Proof. unfold xor4. auto with vault. Qed.
#[export] Hint Resolve gmul_byte xor4_byte : vault.

Lemma linear_xor4 f a b c d :
  linear f -> is_u8 a -> is_u8 b -> is_u8 c -> is_u8 d ->
  f (xor4 a b c d) = xor4 (f a) (f b) (f c) (f d).
Proof. intros Hf Ha Hb Hc Hd. unfold xor4. rewrite !Hf by auto with vault. done. Qed.

Lemma gmul_xor4 k a b c d : is_u8 a -> is_u8 b -> is_u8 c -> is_u8 d ->
  gmul (xor4 a b c d) k = xor4 (gmul a k) (gmul b k) (gmul c k) (gmul d k).
Proof. apply (linear_xor4 (fun a => gmul a k)), gmul_linear. Qed.

(** Transposing a 4 by 4 sum. *)
Lemma xor4_transpose a0 a1 a2 a3 b0 b1 b2 b3 c0 c1 c2 c3 d0 d1 d2 d3 :
  xor4 (xor4 a0 a1 a2 a3) (xor4 b0 b1 b2 b3) (xor4 c0 c1 c2 c3) (xor4 d0 d1 d2 d3) =
  xor4 (xor4 a0 b0 c0 d0) (xor4 a1 b1 c1 d1) (xor4 a2 b2 c2 d2) (xor4 a3 b3 c3 d3).
Proof. xor_bits. Qed.

(** ** Blocks *)

Definition is_block (s : list Z) : Prop := length s = 16%nat /\ bytes s.

Ltac destruct_block s H :=
  do 16 (destruct s as [|? s]; [discriminate H|]); destruct s; [|discriminate H].

Ltac inv_bytes :=
  repeat match goal with
  | H : Forall _ (_ :: _) |- _ => apply Forall_cons in H; destruct H
  | H : Forall _ [] |- _ => clear H
  end.

Ltac bytes_list := repeat (apply Forall_cons; split); try apply Forall_nil; auto with vault.

Lemma sub_bytes_block s : is_block s -> is_block (sub_bytes s).
Proof.
  intros [Hl Hb]. split; [unfold sub_bytes; len|]. apply Forall_map, Forall_true.
  intros. simpl. auto with vault.
Qed.

Lemma inv_sub_bytes_block s : is_block s -> is_block (inv_sub_bytes s).
Proof.
  intros [Hl Hb]. split; [unfold inv_sub_bytes; len|]. apply Forall_map, Forall_true.
  intros. simpl. auto with vault.
Qed.

Lemma inv_sub_sub s : is_block s -> inv_sub_bytes (sub_bytes s) = s.
Proof.
  intros [_ Hb]. unfold inv_sub_bytes, sub_bytes. rewrite map_map.
  rewrite <- (map_id s) at 2. apply map_ext_Forall.
  eapply Forall_impl; [exact Hb|]. apply inv_sbox_sbox.
Qed.

Lemma sub_bytes_fips s : is_block s -> sub_bytes s = map fips_sbox s.
Proof. intros [_ Hb]. apply map_ext_Forall. eapply Forall_impl; [exact Hb|]. apply sbox_fips. Qed.

Lemma inv_sub_bytes_fips s : is_block s -> inv_sub_bytes s = map fips_inv_sbox s.
Proof. intros [_ Hb]. apply map_ext_Forall. eapply Forall_impl; [exact Hb|]. apply inv_sbox_fips. Qed.

Lemma shift_rows_fips s : length s = 16%nat -> shift_rows s = fips_shift_rows s.
Proof. intros H. destruct_block s H. reflexivity. Qed.

Lemma inv_shift_rows_fips s : length s = 16%nat -> inv_shift_rows s = fips_inv_shift_rows s.
Proof. intros H. destruct_block s H. reflexivity. Qed.

Lemma shift_rows_block s : is_block s -> is_block (shift_rows s).
Proof. intros [H Hb]. destruct_block s H. split; [done|]. inv_bytes. cbn. bytes_list. Qed.

Lemma inv_shift_rows_block s : is_block s -> is_block (inv_shift_rows s).
Proof. intros [H Hb]. destruct_block s H. split; [done|]. inv_bytes. cbn. bytes_list. Qed.

Lemma inv_shift_shift s : length s = 16%nat -> inv_shift_rows (shift_rows s) = s.
Proof. intros H. destruct_block s H. reflexivity. Qed.

(** SubBytes acts byte by byte, so it commutes with ShiftRows. *)
Lemma sub_shift f s :
  length s = 16%nat -> map f (fips_shift_rows s) = fips_shift_rows (map f s).
Proof. intros H. destruct_block s H. reflexivity. Qed.

Lemma inv_sub_shift f s :
  length s = 16%nat -> map f (fips_inv_shift_rows s) = fips_inv_shift_rows (map f s).
Proof. intros H. destruct_block s H. reflexivity. Qed.

(** ** MixColumns *)

Lemma mix_columns_fips s : is_block s -> mix_columns s = fips_mix_columns s.
Proof.
  intros [H Hb]. destruct_block s H. inv_bytes. cbn -[gmul tbl xor4].
  rewrite !mul2_gmul, !mul3_gmul, !gmul_1 by done. reflexivity.
Qed.

Lemma inv_mix_columns_fips s : is_block s -> inv_mix_columns s = fips_inv_mix_columns s.
Proof.
  intros [H Hb]. destruct_block s H. inv_bytes. cbn -[gmul tbl xor4].
  rewrite !mul9_gmul, !mul11_gmul, !mul13_gmul, !mul14_gmul by done. reflexivity.
Qed.

Lemma fips_mix_block m s : is_block s -> is_block (fips_mix m s).
Proof.
  intros [H Hb]. split; [done|]. unfold fips_mix. apply Forall_map, Forall_true.
  assert (is_u8 0) by (unfold is_word; lia).
  intros i. cbn -[Nat.div Nat.modulo xor4 gmul]. apply xor4_byte; apply gmul_byte, nth_Forall; done.
Qed.

Lemma mix_columns_block s : is_block s -> is_block (mix_columns s).
Proof. intros. rewrite mix_columns_fips by done. by apply fips_mix_block. Qed.

Lemma inv_mix_columns_block s : is_block s -> is_block (inv_mix_columns s).
Proof. intros. rewrite inv_mix_columns_fips by done. by apply fips_mix_block. Qed.

(** One column: the inverse matrix times the matrix is the identity. *)
Lemma mix_column_inverse a0 a1 a2 a3 :
  is_u8 a0 -> is_u8 a1 -> is_u8 a2 -> is_u8 a3 ->
  let b0 := xor4 (gmul a0 2) (gmul a1 3) (gmul a2 1) (gmul a3 1) in
  let b1 := xor4 (gmul a0 1) (gmul a1 2) (gmul a2 3) (gmul a3 1) in
  let b2 := xor4 (gmul a0 1) (gmul a1 1) (gmul a2 2) (gmul a3 3) in
  let b3 := xor4 (gmul a0 3) (gmul a1 1) (gmul a2 1) (gmul a3 2) in
  xor4 (gmul b0 14) (gmul b1 11) (gmul b2 13) (gmul b3 9) = a0 /\
  xor4 (gmul b0 9) (gmul b1 14) (gmul b2 11) (gmul b3 13) = a1 /\
  xor4 (gmul b0 13) (gmul b1 9) (gmul b2 14) (gmul b3 11) = a2 /\
  xor4 (gmul b0 11) (gmul b1 13) (gmul b2 9) (gmul b3 14) = a3.
Proof.
  intros H0 H1 H2 H3. cbv zeta.
  rewrite !gmul_xor4 by auto with vault.
  assert (E : forall x0 x1 x2 x3 y0 y1 y2 y3,
    x0 = y0 -> x1 = y1 -> x2 = y2 -> x3 = y3 -> xor4 x0 x1 x2 x3 = xor4 y0 y1 y2 y3)
    by (by intros; subst).
  repeat split.
  - rewrite xor4_transpose. transitivity (xor4 a0 0 0 0); [|xor_bits].
    apply E; [revert a0 H0|revert a1 H1|revert a2 H2|revert a3 H3]; by_bytes.
  - rewrite xor4_transpose. transitivity (xor4 0 a1 0 0); [|xor_bits].
    apply E; [revert a0 H0|revert a1 H1|revert a2 H2|revert a3 H3]; by_bytes.
  - rewrite xor4_transpose. transitivity (xor4 0 0 a2 0); [|xor_bits].
    apply E; [revert a0 H0|revert a1 H1|revert a2 H2|revert a3 H3]; by_bytes.
  - rewrite xor4_transpose. transitivity (xor4 0 0 0 a3); [|xor_bits].
    apply E; [revert a0 H0|revert a1 H1|revert a2 H2|revert a3 H3]; by_bytes.
Qed.

Lemma fips_inv_mix_mix s : is_block s -> fips_inv_mix_columns (fips_mix_columns s) = s.
Proof.
  intros [H Hb]. destruct_block s H. inv_bytes. cbn -[gmul xor4].
  repeat match goal with
  | |- context [xor4 (gmul ?a0 2) (gmul ?a1 3) (gmul ?a2 1) (gmul ?a3 1)] =>
      destruct (mix_column_inverse a0 a1 a2 a3) as (E0 & E1 & E2 & E3); [done..|];
      rewrite E0, E1, E2, E3; clear E0 E1 E2 E3
  end.
  reflexivity.
Qed.

Lemma inv_mix_mix s : is_block s -> inv_mix_columns (mix_columns s) = s.
Proof.
  intros Hs. rewrite inv_mix_columns_fips, mix_columns_fips by auto using mix_columns_block.
  by apply fips_inv_mix_mix.
Qed.

(** ** AddRoundKey *)

Definition is_key (k : list Z) : Prop := (16 <= length k)%nat /\ bytes k.

Lemma length_add_round_key s k : length (add_round_key s k) = 16%nat.
Proof. done. Qed.

Lemma add_round_key_block s k : is_block s -> is_key k -> is_block (add_round_key s k).
Proof.
  intros [Hl Hs] [_ Hk]. split; [done|]. apply Forall_map, Forall_true. intros i. simpl.
  assert (is_u8 0) by (unfold is_word; lia).
  apply lxor_word; [lia|..]; by apply nth_Forall.
Qed.

Lemma add_round_key_involutive s k : is_block s -> add_round_key (add_round_key s k) k = s.
Proof.
  intros [Hl Hs]. destruct_block s Hl. cbn -[Z.lxor].
  rewrite !Z.lxor_assoc, !Z.lxor_nilpotent, !Z.lxor_0_r. reflexivity.
Qed.

Lemma add_round_key_take s k : add_round_key s (take 16 k) = add_round_key s k.
Proof.
  unfold add_round_key. apply map_ext_in. intros i Hi%in_seq.
  by rewrite !nth_lookup_total_0, lookup_take_lt by lia.
Qed.

(** InvMixColumns distributes over the key addition: what AESDEC relies on. *)
Lemma inv_mix_add s k : is_block s -> is_block k ->
  fips_inv_mix_columns (add_round_key s k) =
  add_round_key (fips_inv_mix_columns s) (fips_inv_mix_columns k).
Proof.
  intros [H Hb] [H' Hb']. destruct_block s H. destruct_block k H'. inv_bytes.
  cbn -[gmul xor4 Z.lxor].
  assert (L : forall a b c, is_u8 a -> is_u8 b -> gmul (Z.lxor a b) c = Z.lxor (gmul a c) (gmul b c))
    by (intros; by apply gmul_linear).
  rewrite !L by done.
  assert (X : forall a b c d a' b' c' d',
    xor4 (Z.lxor a a') (Z.lxor b b') (Z.lxor c c') (Z.lxor d d') =
    Z.lxor (xor4 a b c d) (xor4 a' b' c' d')) by (intros; xor_bits).
  rewrite !X. reflexivity.
Qed.

Arguments sub_bytes : simpl never.
Arguments inv_sub_bytes : simpl never.
Arguments shift_rows : simpl never.
Arguments inv_shift_rows : simpl never.
Arguments mix_columns : simpl never.
Arguments inv_mix_columns : simpl never.
Arguments add_round_key : simpl never.
Arguments fips_shift_rows : simpl never.
Arguments fips_inv_shift_rows : simpl never.
Arguments fips_mix : simpl never.

(** ** The cipher *)

(** A key schedule: at least the eleven round keys, all bytes. *)
Definition is_schedule (rk : list Z) : Prop := (176 <= length rk)%nat /\ bytes rk.

Lemma rkey_key rk r : is_schedule rk -> (r <= 10)%nat -> is_key (rkey rk r).
Proof. intros [Hl Hb] Hr. split; [unfold rkey; len|by apply bytes_drop]. Qed.

Lemma load_key_block rk r : is_schedule rk -> (r <= 10)%nat -> is_block (load_key rk r).
Proof. intros Hs Hr. destruct (rkey_key rk r Hs Hr). split; [unfold load_key; len|by apply bytes_take]. Qed.

#[export] Hint Resolve sub_bytes_block inv_sub_bytes_block shift_rows_block inv_shift_rows_block
  mix_columns_block inv_mix_columns_block add_round_key_block rkey_key load_key_block : vault.

Lemma enc_round_block rk s r : is_schedule rk -> (r <= 10)%nat -> is_block s ->
  is_block (enc_round rk s r).
Proof. unfold enc_round. auto with vault. Qed.

Lemma dec_round_block rk s r : is_schedule rk -> (r <= 10)%nat -> is_block s ->
  is_block (dec_round rk s r).
Proof. unfold dec_round. auto with vault. Qed.

Lemma foldl_rounds_block (f : list Z -> nat -> list Z) l s :
  (forall s r, (r <= 10)%nat -> is_block s -> is_block (f s r)) ->
  Forall (fun r => (r <= 10)%nat) l -> is_block s -> is_block (foldl f s l).
Proof. intros Hf Hl. revert s. induction Hl; intros s Hs; simpl; auto. Qed.

(** Two round functions that agree on blocks give the same loop. *)
Lemma foldl_rounds_ext (f g : list Z -> nat -> list Z) l s :
  (forall s r, (r <= 10)%nat -> is_block s -> f s r = g s r /\ is_block (g s r)) ->
  Forall (fun r => (r <= 10)%nat) l -> is_block s -> foldl f s l = foldl g s l.
Proof.
  intros Hf Hl. revert s. induction Hl as [|r l Hr Hl IH]; intros s Hs; simpl; [done|].
  destruct (Hf s r Hr Hs) as [-> Hb]. by apply IH.
Qed.

Lemma rounds_le : Forall (fun r => (r <= 10)%nat) (seq 1 9).
Proof. by_compute. Qed.

Lemma rev_rounds_le : Forall (fun r => (r <= 10)%nat) (rev (seq 1 9)).
Proof. by_compute. Qed.
#[export] Hint Resolve rounds_le rev_rounds_le : vault.

Lemma aes_encrypt_block_sw_block rk b :
  is_schedule rk -> is_block b -> is_block (aes_encrypt_block_sw rk b).
Proof.
  intros Hrk Hb. unfold aes_encrypt_block_sw.
  assert (is_key rk) by (apply (rkey_key rk 0); [done|lia]).
  apply add_round_key_block, (rkey_key rk 10); auto with vault.
  apply shift_rows_block, sub_bytes_block, foldl_rounds_block; auto with vault.
  intros. by apply enc_round_block.
Qed.

(** One decryption round undoes one encryption round, seen between the
    SubBytes/ShiftRows steps. *)
Lemma dec_enc_round rk s r : is_schedule rk -> (r <= 10)%nat -> is_block s ->
  dec_round rk (shift_rows (sub_bytes (enc_round rk s r))) r = shift_rows (sub_bytes s).
Proof.
  intros Hrk Hr Hs. unfold dec_round.
  assert (is_block (enc_round rk s r)) by by apply enc_round_block.
  rewrite inv_shift_shift by (apply sub_bytes_block; done).
  rewrite inv_sub_sub by done. unfold enc_round.
  rewrite add_round_key_involutive, inv_mix_mix by auto with vault. done.
Qed.

Lemma dec_enc_rounds rk s l : is_schedule rk -> Forall (fun r => (r <= 10)%nat) l -> is_block s ->
  foldl (dec_round rk) (shift_rows (sub_bytes (foldl (enc_round rk) s l))) (rev l) =
  shift_rows (sub_bytes s).
Proof.
  intros Hrk Hl. revert s. induction Hl as [|r l Hr Hl IH]; intros s Hs; [done|].
  cbn [foldl rev]. rewrite foldl_app, IH by by apply enc_round_block.
  cbn [foldl]. by apply dec_enc_round.
Qed.

Lemma decrypt_encrypt_sw rk b : is_schedule rk -> is_block b ->
  aes_decrypt_block_sw rk (aes_encrypt_block_sw rk b) = b.
Proof.
  intros Hrk Hb. unfold aes_decrypt_block_sw, aes_encrypt_block_sw.
  assert (is_key rk) by (apply (rkey_key rk 0); [done|lia]).
  assert (is_block (foldl (enc_round rk) (add_round_key b rk) (seq 1 9))).
  { apply foldl_rounds_block; auto with vault. intros. by apply enc_round_block. }
  rewrite add_round_key_involutive, dec_enc_rounds by auto with vault.
  rewrite inv_shift_shift, inv_sub_sub, add_round_key_involutive by auto with vault. done.
Qed.

Lemma encrypt_sw_fips rk b : is_schedule rk -> is_block b ->
  aes_encrypt_block_sw rk b = fips_cipher rk b.
Proof.
  intros Hrk Hb. unfold aes_encrypt_block_sw, fips_cipher.
  assert (is_key rk) by (apply (rkey_key rk 0); [done|lia]).
  assert (Hsr : forall s, is_block s ->
    shift_rows (sub_bytes s) = fips_shift_rows (map fips_sbox s)).
  { intros s Hs. rewrite <- sub_bytes_fips, shift_rows_fips by (try apply sub_bytes_block; done). done. }
  assert (E : foldl (enc_round rk) (add_round_key b rk) (seq 1 9) =
    foldl (fun s r => add_round_key (fips_mix_columns (fips_shift_rows (map fips_sbox s)))
      (rkey rk r)) (add_round_key b rk) (seq 1 9)).
  { apply foldl_rounds_ext; auto with vault. intros s r Hr Hs.
    rewrite <- Hsr, <- mix_columns_fips by auto with vault.
    split; [done|]. by apply enc_round_block. }
  rewrite <- E. rewrite <- Hsr; [done|].
  apply foldl_rounds_block; auto with vault. intros. by apply enc_round_block.
Qed.

(** ** The AES-NI path *)

Section aesni_proofs.
Context `{AesNiLaws}.

Lemma encrypt_ni_sw rk b : is_schedule rk -> is_block b ->
  aes_encrypt_block_ni rk b = aes_encrypt_block_sw rk b.
Proof.
  intros Hrk Hb. rewrite encrypt_sw_fips by done.
  unfold aes_encrypt_block_ni, fips_cipher.
  assert (is_key rk) by (apply (rkey_key rk 0); [done|lia]).
  rewrite pxor_law, aesenclast_law. unfold load_key. rewrite !add_round_key_take.
  change (rkey rk 0) with rk.
  assert (E : foldl (fun x r => aesenc x (take 16 (rkey rk r))) (add_round_key b rk) (seq 1 9) =
    foldl (fun s r => add_round_key (fips_mix_columns (fips_shift_rows (map fips_sbox s)))
      (rkey rk r)) (add_round_key b rk) (seq 1 9)).
  { apply foldl_rounds_ext; auto with vault. intros s r Hr Hs.
    rewrite aesenc_law, add_round_key_take, sub_shift by (by destruct Hs).
    split; [done|]. rewrite <- sub_bytes_fips, <- shift_rows_fips, <- mix_columns_fips;
      auto with vault. by apply sub_bytes_block. }
  rewrite E, sub_shift; [done|].
  apply (foldl_rounds_block _ _ _); auto with vault.
  intros s r Hr Hs. rewrite <- sub_bytes_fips, <- shift_rows_fips, <- mix_columns_fips;
    auto with vault. by apply sub_bytes_block.
Qed.

Lemma decrypt_ni_sw rk b : is_schedule rk -> is_block b ->
  aes_decrypt_block_ni rk b = aes_decrypt_block_sw rk b.
Proof.
  intros Hrk Hb. unfold aes_decrypt_block_ni, aes_decrypt_block_sw.
  assert (Hsr : forall s, is_block s ->
    map fips_inv_sbox (fips_inv_shift_rows s) = inv_sub_bytes (inv_shift_rows s)).
  { intros s Hs. rewrite <- inv_sub_bytes_fips, inv_shift_rows_fips; try by destruct Hs.
    rewrite <- inv_shift_rows_fips by by destruct Hs. auto with vault. }
  assert (Hk : forall x r, add_round_key x (load_key rk r) = add_round_key x (rkey rk r))
    by (intros; apply add_round_key_take).
  rewrite pxor_law, aesdeclast_law, !Hk. change (rkey rk 0) with rk.
  assert (E : foldl (fun x r => aesdec x (aesimc (load_key rk r)))
      (add_round_key b (rkey rk 10)) (rev (seq 1 9)) =
    foldl (dec_round rk) (add_round_key b (rkey rk 10)) (rev (seq 1 9))).
  { apply foldl_rounds_ext; auto with vault. intros s r Hr Hs.
    split; [|by apply dec_round_block].
    rewrite aesdec_law, aesimc_law, <- inv_mix_add, Hsr by (try rewrite Hsr; auto with vault).
    unfold dec_round. rewrite Hk, <- inv_mix_columns_fips; auto with vault. }
  rewrite E, Hsr; [done|].
  apply foldl_rounds_block; auto with vault. intros. by apply dec_round_block.
Qed.

Lemma aes_encrypt_block_block fl rk b : is_schedule rk -> is_block b ->
  is_block (aes_encrypt_block fl rk b).
Proof.
  intros. unfold aes_encrypt_block. destruct (aesni_available fl);
    rewrite ?encrypt_ni_sw by done; by apply aes_encrypt_block_sw_block.
Qed.

Lemma decrypt_encrypt fl fl' rk b : is_schedule rk -> is_block b ->
  aes_decrypt_block fl' rk (aes_encrypt_block fl rk b) = b.
Proof.
  intros. unfold aes_encrypt_block, aes_decrypt_block.
  destruct (aesni_available fl), (aesni_available fl');
    rewrite ?encrypt_ni_sw, ?decrypt_ni_sw
      by (rewrite ?encrypt_ni_sw by done; auto using aes_encrypt_block_sw_block);
    by apply decrypt_encrypt_sw.
Qed.
End aesni_proofs.

(** ** Key schedule *)

Lemma expand_step_spec rk i : bytes rk -> (4 <= i)%nat ->
  bytes (expand_step rk i) /\ length (expand_step rk i) = (length rk + 4)%nat.
Proof.
  intros Hb Hi. unfold expand_step. split; [|len].
  apply Forall_app_2; [done|]. apply Forall_map, Forall_true. intros j. unfold compose. cbv beta zeta.
  assert (is_u8 0) by (unfold is_word; lia).
  assert (bytes rcon) by apply tables_bytes.
  apply lxor_word; [lia|by apply nth_Forall|]. apply nth_Forall; [done|].
  destruct (_ =? _)%nat; [|auto with vault].
  assert (forall l, bytes (map (tbl sbox) l))
    by (intros; apply Forall_map, Forall_true; intros; unfold compose; auto with vault).
  apply Forall_insert; [done|]. apply lxor_word; [lia|by apply nth_Forall..].
Qed.

Lemma aes_init_schedule fl ecx key : (16 <= length key)%nat -> bytes key ->
  is_schedule (snd (aes_init fl ecx key)).
Proof.
  intros Hl Hb.
  assert (H : forall l rk, Forall (fun i => (4 <= i)%nat) l -> bytes rk ->
    bytes (foldl expand_step rk l) /\
    length (foldl expand_step rk l) = (length rk + 4 * length l)%nat).
  { induction l as [|i l IH]; intros rk Hi Hrk; simpl; [split; [done|lia]|].
    apply Forall_cons in Hi as [Hi Hl']. destruct (expand_step_spec rk i Hrk Hi) as [Hb' Hlen].
    destruct (IH _ Hl' Hb') as [? ->]. split; [done|]. lia. }
  destruct (H (seq 4 40) (take 16 key)) as [Hb' Hlen].
  - by_compute.
  - auto with vault.
  - unfold is_schedule, aes_init. cbn [snd]. split; [|done]. rewrite Hlen. len.
Qed.

(** ** CBC *)

Section cbc_proofs.
Context `{AesNiLaws}.

Lemma cbc_encrypt_loop_spec n fl rk prev pt :
  is_schedule rk -> is_key prev -> length pt = (16 * n)%nat -> bytes pt ->
  bytes (cbc_encrypt_loop n fl rk prev pt) /\
  length (cbc_encrypt_loop n fl rk prev pt) = (16 * n)%nat.
Proof.
  intros Hrk. revert prev pt. induction n as [|n IH]; intros prev pt Hp Hl Hb; [by split|].
  cbn [cbc_encrypt_loop]. fold (add_round_key pt prev).
  assert (Hx : is_block (add_round_key pt prev)).
  { rewrite <- (take_drop 16 pt) at 1. split; [done|]. apply Forall_map, Forall_true.
    intros i. simpl. assert (is_u8 0) by (unfold is_word; lia).
    apply lxor_word; [lia|apply nth_Forall..]; [done|rewrite take_drop; done|done|apply Hp]. }
  pose proof (aes_encrypt_block_block fl rk _ Hrk Hx) as [Hcl Hcb].
  destruct (IH (aes_encrypt_block fl rk (add_round_key pt prev)) (drop 16 pt)) as [IH1 IH2];
    [split; [lia|done]|len|auto with vault|].
  split; [by apply Forall_app_2|]. rewrite length_app, IH2. lia.
Qed.

Lemma cbc_loop_roundtrip n fl fl' rk prev pt :
  is_schedule rk -> is_key prev -> length pt = (16 * n)%nat -> bytes pt ->
  cbc_decrypt_loop n fl' rk prev (cbc_encrypt_loop n fl rk prev pt) = pt.
Proof.
  intros Hrk. revert prev pt. induction n as [|n IH]; intros prev pt Hp Hl Hb.
  { by apply nil_length_inv in Hl as ->. }
  cbn [cbc_encrypt_loop cbc_decrypt_loop]. fold (add_round_key pt prev).
  assert (Ht : is_block (take 16 pt)) by (split; [len|auto with vault]).
  assert (E : add_round_key pt prev = add_round_key (take 16 pt) prev).
  { apply map_ext_in. intros i Hi%in_seq.
    by rewrite !(nth_lookup_total_0 (take 16 pt)), lookup_take_lt, <- nth_lookup_total_0 by lia. }
  assert (Hx : is_block (add_round_key pt prev)) by (rewrite E; auto with vault).
  set (ct := aes_encrypt_block fl rk (add_round_key pt prev)) in *.
  pose proof (aes_encrypt_block_block fl rk _ Hrk Hx) as [Hcl Hcb]. fold ct in Hcl, Hcb.
  rewrite take_app_length', drop_app_length' by lia.
  fold (add_round_key (aes_decrypt_block fl' rk ct) prev).
  unfold ct at 1. rewrite decrypt_encrypt, E, add_round_key_involutive by auto with vault.
  rewrite IH; [apply take_drop|split; [lia|done]|len|auto with vault].
Qed.
End cbc_proofs.

(** ** PKCS7 *)

Lemma aes_padded_size_spec n :
  (n < aes_padded_size n <= n + 16 /\ aes_padded_size n mod 16 = 0)%nat.
Proof. unfold aes_padded_size. lia. Qed.

Lemma foldl_fill {A} (x : A) pre mid post :
  foldl (fun b i => <[i := x]> b) (pre ++ mid ++ post) (seq (length pre) (length mid)) =
  pre ++ replicate (length mid) x ++ post.
Proof.
  revert pre. induction mid as [|m mid IH]; intros pre; [done|].
  cbn [length seq foldl].
  replace (<[length pre:=x]> (pre ++ (m :: mid) ++ post)) with ((pre ++ [x]) ++ mid ++ post).
  2:{ replace (length pre) with (length pre + 0)%nat by lia. rewrite insert_app_r.
      by rewrite <- app_assoc. }
  specialize (IH (pre ++ [x])). rewrite length_app in IH. simpl length in IH.
  rewrite Nat.add_1_r in IH. rewrite IH, <- app_assoc. done.
Qed.

(** The padded buffer: data, then [16 - len % 16] copies of that count. *)
Lemma aes_pkcs7_pad_spec buf data rest (n := aes_padded_size (length data)) :
  buf = data ++ rest -> (n <= length buf)%nat ->
  take n (aes_pkcs7_pad buf (length data) n) =
    data ++ replicate (n - length data) (Z.of_nat (n - length data)).
Proof.
  intros -> Hn. pose proof (aes_padded_size_spec (length data)) as [Hb _]. fold n in Hb.
  unfold aes_pkcs7_pad. rewrite wrap_small by (unfold is_word; lia).
  rewrite length_app in Hn.
  rewrite <- (take_drop (n - length data) rest) at 1.
  replace (n - length data)%nat with (length (take (n - length data) rest)) at 3 by len.
  rewrite foldl_fill, app_assoc, take_app_length' by len.
  rewrite length_take, Nat.min_l by lia. done.
Qed.

Lemma aes_pkcs7_unpad_spec data p rest :
  (0 < p <= 16)%nat -> ((length data + p) mod 16 = 0)%nat ->
  aes_pkcs7_unpad (data ++ replicate p (Z.of_nat p) ++ rest) (length data + p) = length data.
Proof.
  intros Hp Hm. unfold aes_pkcs7_unpad.
  assert (Hnth : forall i, (length data <= i < length data + p)%nat ->
    (data ++ replicate p (Z.of_nat p) ++ rest).[i] = Z.of_nat p).
  { intros i Hi. rewrite nth_lookup_total_0, lookup_app_r, lookup_app_l by len.
    by rewrite lookup_replicate_2 by lia. }
  rewrite (proj2 (Nat.eqb_neq _ _)) by lia. rewrite (proj2 (Nat.eqb_eq _ _) Hm).
  simpl negb. simpl orb. cbv iota. rewrite Hnth by lia.
  rewrite (proj2 (Z.eqb_neq _ _)), (proj2 (Z.ltb_ge _ _)) by lia. simpl orb. cbv iota.
  rewrite Nat2Z.id. replace (length data + p - p)%nat with (length data) by lia.
  replace (forallb _ _) with true; [done|]. symmetry. apply forallb_forall.
  intros i Hi%in_seq. rewrite Hnth by lia. apply Z.eqb_refl.
Qed.

(** ** Properties *)

(** The block cipher is invertible on both code paths.  For every key
    expanded by [aes_init], a block encrypted by the software or the AES-NI
    path decrypts to itself by either path. *)
Theorem aes_block_roundtrip `{AesNiLaws} (key block : list Z) (ecx : Z) (init fl fl' : aes_flags) :
  length key = 16%nat -> bytes key -> length block = 16%nat -> bytes block ->
  let rk := snd (aes_init init ecx key) in
  aes_decrypt_block fl' rk (aes_encrypt_block fl rk block) = block.
Proof.
  intros Hk Hkb Hl Hb rk. apply decrypt_encrypt; [|by split].
  apply aes_init_schedule; [lia|done].
Qed.

Lemma aes_block_roundtrip_witness :
  let z := replicate 16 7 in
  let rk := snd (aes_init (AesFlags false false) 0 z) in
  aes_decrypt_block (AesFlags true true) rk (aes_encrypt_block (AesFlags false true) rk z) = z.
Proof.
  apply (aes_block_roundtrip (replicate 16 7) (replicate 16 7) 0); try reflexivity;
    by_compute.
Defined.

(** For every key schedule and block, encryption on either path equals the
    reference whose S-box and MixColumns are computed in GF(2^8), and the
    AES-NI decryption (with AESIMC-transformed round keys) equals the software
    decryption. *)
Lemma aes_paths_fips `{AesNiLaws} (rk block : list Z) (fl : aes_flags) :
  is_schedule rk -> is_block block ->
  aes_encrypt_block fl rk block = fips_cipher rk block /\
  aes_decrypt_block fl rk block = aes_decrypt_block_sw rk block.
Proof.
  intros Hrk Hb. unfold aes_encrypt_block, aes_decrypt_block.
  destruct (aesni_available fl); rewrite ?encrypt_ni_sw, ?decrypt_ni_sw, encrypt_sw_fips by done; done.
Qed.

Lemma cbc_roundtrip `{AesNiLaws} (rk iv pt : list Z) (fl fl' : aes_flags) :
  is_schedule rk -> length iv = 16%nat -> bytes iv ->
  (length pt mod 16 = 0)%nat -> bytes pt ->
  aes_cbc_decrypt fl' rk iv (aes_cbc_encrypt fl rk iv pt) = pt.
Proof.
  intros Hrk Hiv Hivb Hl Hb. unfold aes_cbc_decrypt, aes_cbc_encrypt.
  assert (is_key iv) by (split; [lia|done]).
  rewrite (proj2 (cbc_encrypt_loop_spec (length pt / 16) fl rk iv pt Hrk ltac:(done) ltac:(lia) Hb)).
  replace (16 * (length pt / 16) / 16)%nat with (length pt / 16)%nat by lia.
  apply cbc_loop_roundtrip; try done. lia.
Qed.

Lemma cbc_encrypt_shape `{AesNiLaws} (fl : aes_flags) (rk iv pt : list Z) :
  is_schedule rk -> length iv = 16%nat -> bytes iv -> (length pt mod 16 = 0)%nat -> bytes pt ->
  bytes (aes_cbc_encrypt fl rk iv pt) /\ length (aes_cbc_encrypt fl rk iv pt) = length pt.
Proof.
  intros Hrk Hiv Hivb Hl Hb. unfold aes_cbc_encrypt.
  destruct (cbc_encrypt_loop_spec (length pt / 16) fl rk iv pt Hrk) as [H1 H2];
    [split; [lia|done]|lia|done|]. split; [done|]. rewrite H2. lia.
Qed.

(** CBC decryption inverts CBC encryption for every IV, key and plaintext
    of whole blocks, whichever block path each side uses. *)
Theorem aes_cbc_roundtrip `{AesNiLaws} (rk iv pt : list Z) (fl fl' : aes_flags) :
  is_schedule rk -> length iv = 16%nat -> bytes iv ->
  (length pt mod 16 = 0)%nat -> bytes pt ->
  aes_cbc_decrypt fl' rk iv (aes_cbc_encrypt fl rk iv pt) = pt.
Proof. apply cbc_roundtrip. Qed.

Lemma aes_cbc_roundtrip_witness :
  let rk := replicate 176 3 in let iv := replicate 16 9 in let pt := replicate 32 65 in
  aes_cbc_decrypt (AesFlags true true) rk iv (aes_cbc_encrypt (AesFlags false true) rk iv pt) = pt.
Proof.
  apply (aes_cbc_roundtrip (replicate 176 3) (replicate 16 9) (replicate 32 65));
    try reflexivity; try (split; [vm_compute; lia|]);
    by_compute.
Defined.

(** PKCS7 round trip.  Padding [data] in a buffer to [aes_padded_size]
    and unpadding that many bytes returns the length of the data, which is
    intact. *)
Theorem pkcs7_roundtrip (data rest : list Z) :
  let n := aes_padded_size (length data) in
  (n <= length (data ++ rest))%nat ->
  let buf := aes_pkcs7_pad (data ++ rest) (length data) n in
  aes_pkcs7_unpad (take n buf) n = length data /\ take (length data) buf = data.
Proof.
  intros n Hn buf. pose proof (aes_padded_size_spec (length data)) as [Hb Hm]. fold n in Hb, Hm.
  pose proof (aes_pkcs7_pad_spec _ data rest eq_refl Hn) as E. fold n buf in E. split.
  - rewrite E. assert (Hp : n = (length data + (n - length data))%nat) by lia.
    set (p := (n - length data)%nat) in *. rewrite Hp.
    rewrite <- (app_nil_r (replicate _ _)). apply aes_pkcs7_unpad_spec; [lia|by rewrite <- Hp].
  - replace (length data) with (Nat.min (length data) n) at 1 by lia.
    rewrite <- take_take, E. apply take_app_length.
Qed.

Lemma pkcs7_roundtrip_witness :
  let n := aes_padded_size 3 in
  let buf := aes_pkcs7_pad ([1; 2; 3] ++ replicate 40 0) 3 n in
  aes_pkcs7_unpad (take n buf) n = 3%nat /\ take 3 buf = [1; 2; 3].
Proof. apply (pkcs7_roundtrip [1; 2; 3] (replicate 40 0)). apply Nat.leb_le. reflexivity. Defined.
