(* ===== verification/AesSpec.v ===== *)
(** * AES-128 as FIPS 197 defines it

    The standard written out on words and bytes of GF(2^8): the key expansion
    (5.2), the cipher (5.1) and the inverse cipher (5.3).  The code, from
    [aes_init] to the block functions on either path, computes them. *)

From S2P Require Import Prelude CLib Random Aes.

(** ** The standard *)

(** Words of four bytes. *)
Definition xor_bytes (a b : list Z) : list Z := zip_with Z.lxor a b.
Definition RotWord (w : list Z) : list Z := match w with [] => [] | a :: w => w ++ [a] end.
Definition SubWord (w : list Z) : list Z := map fips_sbox w.

(** The word [x^(j-1), 0, 0, 0], powers being taken in GF(2^8). *)
Definition Rcon (j : nat) : list Z := [Nat.iter (j - 1) xtime 1; 0; 0; 0].

(** The next word, from those before it. *)
Definition next_word (ws : list (list Z)) : list Z :=
  let i := length ws in
  let temp := nth (i - 1) ws [] in
  let temp := if (i mod 4 =? 0)%nat then xor_bytes (SubWord (RotWord temp)) (Rcon (i / 4)) else temp in
  xor_bytes (nth (i - 4) ws []) temp.

Definition key_words (key : list Z) : list (list Z) := map (fun i => take 4 (drop (4 * i) key)) (seq 0 4).
Definition KeyExpansion (key : list Z) : list (list Z) := Nat.iter 40 (fun ws => ws ++ [next_word ws]) (key_words key).

(** The words of round [r] added to the state. *)
Definition AddRoundKey (ws : list (list Z)) (r : nat) (s : list Z) : list Z := xor_bytes s (concat (take 4 (drop (4 * r) ws))).

Definition Cipher (key block : list Z) : list Z :=
  let w := KeyExpansion key in
  let s := AddRoundKey w 0 block in
  let s := foldl (fun s r => AddRoundKey w r (fips_mix_columns (fips_shift_rows (map fips_sbox s)))) s (seq 1 9) in
  AddRoundKey w 10 (fips_shift_rows (map fips_sbox s)).

Definition InvCipher (key block : list Z) : list Z :=
  let w := KeyExpansion key in
  let s := AddRoundKey w 10 block in
  let s := foldl (fun s r => fips_inv_mix_columns (AddRoundKey w r (map fips_inv_sbox (fips_inv_shift_rows s)))) s (rev (seq 1 9)) in
  AddRoundKey w 0 (map fips_inv_sbox (fips_inv_shift_rows s)).

(** FIPS 197, appendix C.1. *)
Example Cipher_c1 : Cipher (map Z.of_nat (seq 0 16)) (map (fun i => 0x11 * Z.of_nat i) (seq 0 16)) =
  [0x69;0xc4;0xe0;0xd8;0x6a;0x7b;0x04;0x30;0xd8;0xcd;0xb7;0x80;0x70;0xb4;0xc5;0x5a].
Proof. vm_compute. reflexivity. Qed.

(** ** Key expansion *)

Definition is_word4 (w : list Z) : Prop := length w = 4%nat /\ bytes w.

Lemma word_at (ws : list (list Z)) : Forall is_word4 ws -> forall k, (k < length ws)%nat -> take 4 (drop (k * 4) (concat ws)) = nth k ws [].
Proof.
  induction 1 as [|w ws [Hw _] Hws IH]; intros k Hk; cbn [length] in *; [lia|]. cbn [concat]. destruct k as [|k].
  - change (0 * 4)%nat with 0%nat. rewrite drop_0, take_app_le, take_ge by lia. done.
  - cbn [nth]. rewrite drop_app_ge by (cbn [Nat.mul]; lia). rewrite Hw. replace (S k * 4 - 4)%nat with (k * 4)%nat by lia. apply IH. lia.
Qed.

Lemma word_byte ws k j : Forall is_word4 ws -> (k < length ws)%nat -> (j < 4)%nat -> (concat ws).[k * 4 + j] = (nth k ws []).[j].
Proof.
  intros Hws Hk Hj. rewrite <- (word_at ws Hws k Hk), !nth_lookup_total_0, lookup_take_lt, lookup_drop by done. done.
Qed.

Lemma word_nth ws k : Forall is_word4 ws -> (k < length ws)%nat -> is_word4 (nth k ws []).
Proof. intros Hws Hk. rewrite Forall_forall in Hws. apply Hws, list_elem_of_In, nth_In. done. Qed.

Lemma rcon_powers : Forall (fun j => rcon.[j] = Nat.iter (j - 1) xtime 1) (seq 1 10).
Proof. by_compute. Qed.

Lemma rcon_power j : (1 <= j <= 10)%nat -> rcon.[j] = Nat.iter (j - 1) xtime 1.
Proof. intros Hj. pose proof rcon_powers as H. rewrite Forall_forall in H. apply H, list_elem_of_In, in_seq. lia. Qed.

Ltac word4 H := let E := fresh "E" in let B := fresh "B" in
  destruct H as [E B]; match type of E with length ?w = _ => destruct w as [|? [|? [|? [|? [|? ?]]]]]; try discriminate E end;
  clear E; apply Forall_cons in B as [? B]; apply Forall_cons in B as [? B]; apply Forall_cons in B as [? B]; apply Forall_cons in B as [? _].

Ltac byte_xor := first [assumption | match goal with H : forall a, is_u8 a -> is_u8 (fips_sbox a) |- _ => apply H; assumption end | apply lxor_word; [lia|byte_xor|byte_xor]].

(** One turn of the loop of [aes_init] is the next word of the standard. *)
Lemma expand_step_word ws : Forall is_word4 ws -> (4 <= length ws < 44)%nat ->
  expand_step (concat ws) (length ws) = concat (ws ++ [next_word ws]) /\ is_word4 (next_word ws).
Proof.
  intros Hws Hl. unfold expand_step, next_word. rewrite (word_at ws Hws (length ws - 1)) by lia.
  rewrite concat_app. cbn [concat]. rewrite app_nil_r.
  assert (map (fun j => Z.lxor (concat ws).[(length ws - 4) * 4 + j]) (seq 0 4) = map (fun j => Z.lxor (nth (length ws - 4) ws []).[j]) (seq 0 4)) as E.
  { apply map_ext_in. intros j Hj%in_seq. by rewrite word_byte by (done || lia). }
  cbn [map seq] in E |- *. injection E as E0 E1 E2 E3. rewrite E0, E1, E2, E3. clear E0 E1 E2 E3.
  pose proof (word_nth ws (length ws - 1) Hws ltac:(lia)) as W1. pose proof (word_nth ws (length ws - 4) Hws ltac:(lia)) as W4.
  assert ((length ws mod 4 =? 0)%nat = true -> rcon.[length ws / 4] = Nat.iter (length ws / 4 - 1) xtime 1) as Hr.
  { intros Hm%Nat.eqb_eq. apply rcon_power. lia. }
  word4 W1. word4 W4. destruct (length ws mod 4 =? 0)%nat.
  - rewrite Hr by done. cbn [nth map RotWord SubWord app]. rewrite !sbox_fips by done. unfold Rcon, xor_bytes. cbn -[Z.lxor fips_sbox Nat.iter xtime].
    rewrite !Z.lxor_0_r. split; [done|]. split; [done|].
    assert (forall a, is_u8 a -> is_u8 (fips_sbox a)) as Hs by (intros a Ha; rewrite <- sbox_fips by done; apply tbl_sbox_byte).
    assert (is_u8 (Nat.iter (length ws / 4 - 1) xtime 1)) as Hx.
    { generalize (length ws / 4 - 1)%nat. intros n. induction n; [unfold is_word; cbn; lia|apply xtime_byte]. }
    rewrite !Forall_cons. split_and!; [byte_xor..|constructor].
  - cbn -[Z.lxor]. split; [done|]. split; [done|]. rewrite !Forall_cons. split_and!; [byte_xor..|constructor].
Qed.

Lemma key_words_spec key : length key = 16%nat -> bytes key -> Forall is_word4 (key_words key) /\ concat (key_words key) = key.
Proof.
  intros Hl Hb. do 16 (destruct key as [|? key]; [discriminate Hl|]). destruct key; [|discriminate Hl]. cbn. split; [|done].
  rewrite !Forall_cons in Hb. destruct_and?.
  do 4 (apply Forall_cons; split; [split; [done|rewrite !Forall_cons; by split_and!]|]). constructor.
Qed.

Lemma expansion_fips fl ecx key : length key = 16%nat -> bytes key ->
  snd (aes_init fl ecx key) = concat (KeyExpansion key) /\ Forall is_word4 (KeyExpansion key) /\ length (KeyExpansion key) = 44%nat.
Proof.
  intros Hl Hb. destruct (key_words_spec key Hl Hb) as [Hw Hc].
  assert (forall n, (n <= 40)%nat -> let ws := Nat.iter n (fun ws => ws ++ [next_word ws]) (key_words key) in
    foldl expand_step key (seq 4 n) = concat ws /\ Forall is_word4 ws /\ length ws = (4 + n)%nat) as H.
  { induction n as [|n IH]; intros Hn; cbv zeta; [done|]. destruct (IH ltac:(lia)) as (E & Hf & Hlen). cbn [Nat.iter] in *. rewrite Nat.iter_succ.
    set (ws := Nat.iter n _ _) in *. rewrite seq_S, foldl_app, E. cbn [foldl]. rewrite <- Hlen.
    destruct (expand_step_word ws Hf ltac:(lia)) as [-> Hnw]. split; [done|]. split; [apply Forall_app; split; [done|by apply Forall_singleton]|]. rewrite length_app, Hlen. cbn. lia. }
  unfold aes_init, KeyExpansion. cbn [snd]. rewrite take_ge by lia. apply (H 40%nat). lia.
Qed.

(** ** The two ciphers *)

Lemma length_words l : Forall is_word4 l -> length (concat l) = (4 * length l)%nat.
Proof. induction 1 as [|w l [Hw _] _ IH]; cbn [concat]; [done|]. rewrite length_app, IH, Hw. cbn. lia. Qed.

Lemma take_words n l : Forall is_word4 l -> take (4 * n) (concat l) = concat (take n l).
Proof.
  intros Hl. revert n. induction Hl as [|w l [Hw _] _ IH]; intros n; [cbn [concat]; by rewrite !take_nil|]. destruct n as [|n]; [done|].
  cbn [concat take]. rewrite take_app_ge by lia. rewrite Hw. replace (4 * S n - 4)%nat with (4 * n)%nat by lia. by rewrite IH.
Qed.

Lemma drop_words n l : Forall is_word4 l -> drop (4 * n) (concat l) = concat (drop n l).
Proof.
  intros Hl. revert n. induction Hl as [|w l [Hw _] _ IH]; intros n; [cbn [concat]; by rewrite !drop_nil|]. destruct n as [|n]; [done|].
  cbn [concat drop]. rewrite drop_app_ge by lia. rewrite Hw. replace (4 * S n - 4)%nat with (4 * n)%nat by lia. by rewrite IH.
Qed.

Lemma add_round_key_words ws r s : Forall is_word4 ws -> (4 * r + 4 <= length ws)%nat -> length s = 16%nat ->
  add_round_key s (rkey (concat ws) r) = AddRoundKey ws r s.
Proof.
  intros Hws Hr Hs. unfold AddRoundKey, rkey. rewrite <- add_round_key_take. replace (r * 16)%nat with (4 * (4 * r))%nat by lia.
  pose proof (Forall_drop _ (4 * r) _ Hws) as Hf. rewrite drop_words by done. rewrite (take_words 4) by done.
  set (k := concat _). assert (length k = 16%nat) as Hk.
  { unfold k. rewrite length_words by (by apply Forall_take). rewrite length_take, length_drop. lia. }
  clearbody k. do 16 (destruct s as [|? s]; [discriminate Hs|]). destruct s; [|discriminate Hs].
  do 16 (destruct k as [|? k]; [discriminate Hk|]). destruct k; [|discriminate Hk]. reflexivity.
Qed.

Lemma decrypt_sw_fips rk b : is_schedule rk -> is_block b ->
  aes_decrypt_block_sw rk b =
  let s := foldl (fun s r => fips_inv_mix_columns (add_round_key (map fips_inv_sbox (fips_inv_shift_rows s)) (rkey rk r)))
             (add_round_key b (rkey rk 10)) (rev (seq 1 9)) in
  add_round_key (map fips_inv_sbox (fips_inv_shift_rows s)) rk.
Proof.
  intros Hrk Hb. unfold aes_decrypt_block_sw.
  assert (forall s, is_block s -> inv_sub_bytes (inv_shift_rows s) = map fips_inv_sbox (fips_inv_shift_rows s)) as Hsr.
  { intros s Hs. rewrite inv_sub_bytes_fips, inv_shift_rows_fips; [done|apply Hs|by apply inv_shift_rows_block]. }
  assert (forall r s, (r <= 10)%nat -> is_block s -> is_block (add_round_key (inv_sub_bytes (inv_shift_rows s)) (rkey rk r))) as Hbl.
  { intros r s Hr Hs. apply add_round_key_block; [by apply inv_sub_bytes_block, inv_shift_rows_block|by apply rkey_key]. }
  assert (is_block (add_round_key b (rkey rk 10))) as H10 by (apply add_round_key_block; [done|apply rkey_key; [done|lia]]).
  rewrite (foldl_rounds_ext (dec_round rk) (fun s r => fips_inv_mix_columns (add_round_key (map fips_inv_sbox (fips_inv_shift_rows s)) (rkey rk r))));
    [|intros s r Hr Hs; unfold dec_round; rewrite <- Hsr, <- inv_mix_columns_fips by auto; split; [done|by apply inv_mix_columns_block, Hbl]|apply rev_rounds_le|done].
  cbv zeta. rewrite Hsr; [done|]. apply (foldl_rounds_block _ (rev (seq 1 9))); [|apply rev_rounds_le|done].
  intros s r Hr Hs. rewrite <- Hsr, <- inv_mix_columns_fips by auto. by apply inv_mix_columns_block, Hbl.
Qed.

(** Two loops whose rounds agree on states of sixteen bytes. *)
Lemma rounds_agree (f g : list Z -> nat -> list Z) l s :
  (forall s r, In r l -> length s = 16%nat -> f s r = g s r /\ length (g s r) = 16%nat) -> length s = 16%nat ->
  foldl f s l = foldl g s l /\ length (foldl g s l) = 16%nat.
Proof.
  revert s. induction l as [|r l IH]; intros s Hf Hs; [done|]. cbn [foldl].
  destruct (Hf s r (or_introl eq_refl) Hs) as [-> Hl]. apply IH; [|done]. intros s' r' Hr. apply Hf. by right.
Qed.

Lemma length_fips_shift s : length (fips_shift_rows s) = 16%nat.
Proof. done. Qed.
Lemma length_fips_inv_shift s : length (map fips_inv_sbox (fips_inv_shift_rows s)) = 16%nat.
Proof. done. Qed.
Lemma length_fips_mix m s : length (fips_mix m s) = 16%nat.
Proof. done. Qed.

Section rounds.
Context (ws : list (list Z)) (Hws : Forall is_word4 ws) (Hn : length ws = 44%nat).

Lemma add_key r s : (r <= 10)%nat -> length s = 16%nat -> AddRoundKey ws r s = add_round_key s (rkey (concat ws) r).
Proof using Hws Hn. intros Hr Hs. rewrite add_round_key_words; [done|done|lia|done]. Qed.

Lemma cipher_words block : length block = 16%nat ->
  fips_cipher (concat ws) block =
  AddRoundKey ws 10 (fips_shift_rows (map fips_sbox
    (foldl (fun s r => AddRoundKey ws r (fips_mix_columns (fips_shift_rows (map fips_sbox s)))) (AddRoundKey ws 0 block) (seq 1 9)))).
Proof using Hws Hn.
  intros Hl. unfold fips_cipher. cbv zeta. rewrite (add_key 10), (add_key 0) by (lia || done). change (rkey (concat ws) 0) with (concat ws). do 3 f_equal.
  symmetry. apply rounds_agree; [|apply length_add_round_key]. intros s r Hr%in_seq Hs. rewrite add_key by (lia || done).
  split; [done|apply length_add_round_key].
Qed.

Lemma inv_cipher_words block : length block = 16%nat ->
  (let s := foldl (fun s r => fips_inv_mix_columns (add_round_key (map fips_inv_sbox (fips_inv_shift_rows s)) (rkey (concat ws) r)))
             (add_round_key block (rkey (concat ws) 10)) (rev (seq 1 9)) in
   add_round_key (map fips_inv_sbox (fips_inv_shift_rows s)) (concat ws)) =
  AddRoundKey ws 0 (map fips_inv_sbox (fips_inv_shift_rows
    (foldl (fun s r => fips_inv_mix_columns (AddRoundKey ws r (map fips_inv_sbox (fips_inv_shift_rows s)))) (AddRoundKey ws 10 block) (rev (seq 1 9))))).
Proof using Hws Hn.
  intros Hl. cbv zeta. rewrite (add_key 0), (add_key 10) by (lia || apply length_fips_inv_shift || done). change (rkey (concat ws) 0) with (concat ws). do 3 f_equal.
  symmetry. apply rounds_agree; [|apply length_add_round_key]. intros s r Hr%in_rev%in_seq Hs. rewrite add_key by (lia || apply length_fips_inv_shift).
  split; [done|apply length_fips_mix].
Qed.

End rounds.

(** C18: the code computes AES-128 as FIPS 197 defines it.  For every key of 16
    bytes and every block, with the round keys that [aes_init] expands from the
    key, encryption is the cipher of the standard and decryption its inverse
    cipher, on the table-driven path and on the AES-NI path alike.  The
    standard is written out here: the key expansion on words, the S-boxes and
    the column products computed in GF(2^8). *)
Theorem aes_fips197 `{AesNiLaws} (key block : list Z) (ecx : Z) (fl0 fl : aes_flags) :
  length key = 16%nat -> bytes key -> length block = 16%nat -> bytes block ->
  let rk := snd (aes_init fl0 ecx key) in
  aes_encrypt_block fl rk block = Cipher key block /\ aes_decrypt_block fl rk block = InvCipher key block.
Proof.
  intros Hk Hkb Hl Hb. cbv zeta. assert (is_block block) as Hbl by done.
  pose proof (aes_init_schedule fl0 ecx key ltac:(lia) Hkb) as Hs. destruct (expansion_fips fl0 ecx key Hk Hkb) as (E & Hw & Hn). rewrite E in *.
  destruct (aes_paths_fips _ _ fl Hs Hbl) as [-> ->]. rewrite decrypt_sw_fips by done.
  split; [by apply cipher_words|by apply inv_cipher_words].
Qed.

Lemma aes_fips197_witness :
  let key := map Z.of_nat (seq 0 16) in let block := map (fun i => 0x11 * Z.of_nat i) (seq 0 16) in
  let rk := snd (aes_init (AesFlags false false) 0 key) in
  aes_encrypt_block (AesFlags true true) rk block = Cipher key block /\ aes_decrypt_block (AesFlags true true) rk block = InvCipher key block.
Proof.
  apply (aes_fips197 (map Z.of_nat (seq 0 16)) (map (fun i => 0x11 * Z.of_nat i) (seq 0 16)) 0 (AesFlags false false) (AesFlags true true));
    try reflexivity; by_compute.
Defined.
