(* ===== verification/Record.v ===== *)
(** * Records and their wire format

    src/include/vaultos/db_types.h, src/kernel/db/schema.h, record.h,
    record.c and record_serde.c.

    The tagged union [field_value_t] is the inductive [field_value]: one
    constructor per [column_type_t] with the union member that type selects.
    A field cleared by [memset] has type 0, that is [COL_U64] with value 0. *)

From S2P Require Import Prelude CLib.

(** ** Types and limits *)

Inductive column_type :=
  | COL_U64 | COL_I64 | COL_STR | COL_BLOB | COL_BOOL | COL_U32 | COL_U8.

#[export] Instance column_type_eq_dec : EqDecision column_type.
Proof. solve_decision. Defined.

(** The C values of the enumeration. *)
Definition type_code (t : column_type) : Z :=
  match t with
  | COL_U64 => 0 | COL_I64 => 1 | COL_STR => 2 | COL_BLOB => 3
  | COL_BOOL => 4 | COL_U32 => 5 | COL_U8 => 6
  end.

Definition code_type (z : Z) : option column_type :=
  match z with
  | 0 => Some COL_U64 | 1 => Some COL_I64 | 2 => Some COL_STR | 3 => Some COL_BLOB
  | 4 => Some COL_BOOL | 5 => Some COL_U32 | 6 => Some COL_U8
  | _ => None
  end.

Definition MAX_COLUMNS : nat := 16.
Definition MAX_STR_LEN : nat := 255.
Definition MAX_BLOB_LEN : nat := 2048.
Definition MAX_RECORD_SIZE : nat := Z.to_nat 4096.

Inductive field_value :=
  | FU64 (v : Z)
  | FI64 (v : Z)
  | FStr (data : list Z) (slen : Z)    (* char data[256]; uint16_t length *)
  | FBlob (data : list Z) (blen : Z)   (* uint8_t data[2048]; uint32_t length *)
  | FBool (v : bool)
  | FU32 (v : Z)
  | FU8 (v : Z).

Definition field_type (f : field_value) : column_type :=
  match f with
  | FU64 _ => COL_U64 | FI64 _ => COL_I64 | FStr _ _ => COL_STR | FBlob _ _ => COL_BLOB
  | FBool _ => COL_BOOL | FU32 _ => COL_U32 | FU8 _ => COL_U8
  end.

(** [memset(&f, 0, sizeof(f))] *)
Definition zero_field : field_value := FU64 0.

Record record := Rec {
  row_id : Z;
  table_id : Z;
  fields : list field_value;     (* field_value_t fields[MAX_COLUMNS] *)
  field_count : Z
}.

Definition zero_record : record := Rec 0 0 (replicate MAX_COLUMNS zero_field) 0.

Definition field (r : record) (i : nat) : field_value := nth i (fields r) zero_field.

Record column_def := ColDef {
  col_name : list Z;             (* char name[MAX_COLUMN_NAME] *)
  col_type : column_type;
  primary_key : bool;
  not_null : bool;
  indexed : bool
}.

Record table_schema := Schema {
  sch_name : list Z;             (* char name[MAX_TABLE_NAME] *)
  sch_table_id : Z;
  columns : list column_def;     (* the first column_count entries *)
  encrypted : bool;
  system_table : bool
}.

(** ** Setters (record.c) *)

Definition set_field (rec : record) (idx : nat) (f : field_value) : record :=
  Rec (row_id rec) (table_id rec) (<[idx := f]> (fields rec))
    (if field_count rec <=? Z.of_nat idx then Z.of_nat idx + 1 else field_count rec).

Definition record_set_u64 (rec : record) (idx : nat) (val : Z) : record :=
  if (MAX_COLUMNS <=? idx)%nat then rec else set_field rec idx (FU64 val).

Definition record_set_i64 (rec : record) (idx : nat) (val : Z) : record :=
  if (MAX_COLUMNS <=? idx)%nat then rec else set_field rec idx (FI64 val).

Definition record_set_u32 (rec : record) (idx : nat) (val : Z) : record :=
  if (MAX_COLUMNS <=? idx)%nat then rec else set_field rec idx (FU32 val).

Definition record_set_bool (rec : record) (idx : nat) (val : bool) : record :=
  if (MAX_COLUMNS <=? idx)%nat then rec else set_field rec idx (FBool val).

(** [strncpy] and the final terminator overwrite all 256 cells, so the
    previous contents of the array (here: zeros) do not matter
    ([str_cells_any]). *)
Definition str_cells (old val : list Z) : list Z :=
  <[MAX_STR_LEN := 0]> (strncpy old val MAX_STR_LEN).

Definition str_field (val : list Z) : field_value :=
  let data := str_cells (replicate (S MAX_STR_LEN) 0) val in
  FStr data (u16 (Z.of_nat (strlen data))).

Definition record_set_str (rec : record) (idx : nat) (val : list Z) : record :=
  if (MAX_COLUMNS <=? idx)%nat then rec else set_field rec idx (str_field val).

(** [old] is what the blob array held: only the first [len] bytes change. *)
Definition record_set_blob (rec : record) (idx : nat) (old data : list Z) (len : nat) : record :=
  if (MAX_COLUMNS <=? idx)%nat || (MAX_BLOB_LEN <? len)%nat then rec
  else set_field rec idx (FBlob (blit old 0 (take len data)) (Z.of_nat len)).

(** ** Little-endian writers and readers (record_serde.c)

    A writer takes the buffer and the offset and returns both. *)

Abbreviation cursor := (list Z * nat)%type.

Definition wr_u8 (w : cursor) (v : Z) : cursor :=
  let '(buf, off) := w in (<[off := v]> buf, (off + 1)%nat).

Definition wr_u16 (w : cursor) (v : Z) : cursor :=
  let '(buf, off) := w in
  let buf := <[(off + 0)%nat := Z.land (Z.shiftr v 0) 0xFF]> buf in
  let buf := <[(off + 1)%nat := Z.land (Z.shiftr v 8) 0xFF]> buf in
  (buf, (off + 2)%nat).

Definition wr_u32 (w : cursor) (v : Z) : cursor :=
  let '(buf, off) := w in
  let buf := <[(off + 0)%nat := Z.land (Z.shiftr v 0) 0xFF]> buf in
  let buf := <[(off + 1)%nat := Z.land (Z.shiftr v 8) 0xFF]> buf in
  let buf := <[(off + 2)%nat := Z.land (Z.shiftr v 16) 0xFF]> buf in
  let buf := <[(off + 3)%nat := Z.land (Z.shiftr v 24) 0xFF]> buf in
  (buf, (off + 4)%nat).

Definition wr_u64 (w : cursor) (v : Z) : cursor :=
  let '(buf, off) := w in
  (foldl (fun b i => <[(off + i)%nat := Z.land (Z.shiftr v (Z.of_nat i * 8)) 0xFF]> b)
     buf (seq 0 8), (off + 8)%nat).

Definition wr_bytes (w : cursor) (src : list Z) : cursor :=
  let '(buf, off) := w in (blit buf off src, (off + length src)%nat).

Definition rd_u8 (buf : list Z) (off : nat) : Z * nat := (buf.[off], (off + 1)%nat).

Definition rd_u16 (buf : list Z) (off : nat) : Z * nat :=
  (Z.lor buf.[off] (Z.shiftl buf.[off + 1] 8), (off + 2)%nat).

Definition rd_u32 (buf : list Z) (off : nat) : Z * nat :=
  (Z.lor (Z.lor (Z.lor buf.[off] (Z.shiftl buf.[off + 1] 8))
     (Z.shiftl buf.[off + 2] 16)) (Z.shiftl buf.[off + 3] 24), (off + 4)%nat).

Definition rd_u64 (buf : list Z) (off : nat) : Z * nat :=
  (foldl (fun v i => Z.lor v (Z.shiftl buf.[off + i] (Z.of_nat i * 8))) 0 (seq 0 8),
   (off + 8)%nat).

(** ** Serialization

    Each field either advances the cursor or makes [record_serialize] return
    0; the buffer keeps what was written before the failure. *)

Definition fits (off need buf_size : nat) : bool := (off + need <=? buf_size)%nat.

Definition serialize_field (w : cursor) (f : field_value) (buf_size : nat)
    : list Z * option nat :=
  if negb (fits (snd w) 4 buf_size) then (fst w, None)
  else
    let w := wr_u32 w (type_code (field_type f)) in
    let emit need (w' : cursor) :=
      if negb (fits (snd w) need buf_size) then (fst w, None)
      else (fst w', Some (snd w')) in
    match f with
    | FU64 v => emit 8%nat (wr_u64 w v)
    | FI64 v => emit 8%nat (wr_u64 w (u64 v))
    | FU32 v => emit 4%nat (wr_u32 w v)
    | FU8 v => emit 1%nat (wr_u8 w v)
    | FBool v => emit 1%nat (wr_u8 w (if v then 1 else 0))
    | FStr data l =>
        emit (2 + Z.to_nat l)%nat (wr_bytes (wr_u16 w l) (take (Z.to_nat l) data))
    | FBlob data l =>
        emit (4 + Z.to_nat l)%nat (wr_bytes (wr_u32 w l) (take (Z.to_nat l) data))
    end.

Fixpoint serialize_fields (w : cursor) (fs : list field_value) (buf_size : nat)
    : list Z * option nat :=
  match fs with
  | [] => (fst w, Some (snd w))
  | f :: fs =>
      match serialize_field w f buf_size with
      | (buf, Some off) => serialize_fields (buf, off) fs buf_size
      | (buf, None) => (buf, None)
      end
  end.

(** The new contents of [buf] and the returned size (0 on error). *)
Definition record_serialize (rec : record) (buf : list Z) (buf_size : nat) : list Z * nat :=
  if (buf_size <? 16)%nat then (buf, O)
  else
    let w := wr_u64 (buf, O) (row_id rec) in
    let w := wr_u32 w (table_id rec) in
    let w := wr_u32 w (field_count rec) in
    match serialize_fields w (take (Z.to_nat (field_count rec)) (fields rec)) buf_size with
    | (buf, Some off) => (buf, off)
    | (buf, None) => (buf, O)
    end.

(** ** Deserialization *)

Definition deserialize_payload (t : column_type) (buf : list Z) (off buf_size : nat)
    : option (field_value * nat) :=
  match t with
  | COL_U64 =>
      if negb (fits off 8 buf_size) then None
      else let '(v, off) := rd_u64 buf off in Some (FU64 v, off)
  | COL_I64 =>
      if negb (fits off 8 buf_size) then None
      else let '(v, off) := rd_u64 buf off in Some (FI64 (i64 v), off)
  | COL_U32 =>
      if negb (fits off 4 buf_size) then None
      else let '(v, off) := rd_u32 buf off in Some (FU32 v, off)
  | COL_U8 =>
      if negb (fits off 1 buf_size) then None
      else let '(v, off) := rd_u8 buf off in Some (FU8 v, off)
  | COL_BOOL =>
      if negb (fits off 1 buf_size) then None
      else let '(v, off) := rd_u8 buf off in Some (FBool (negb (v =? 0)), off)
  | COL_STR =>
      if negb (fits off 2 buf_size) then None
      else
        let '(len, off) := rd_u16 buf off in
        let n := Z.to_nat len in
        if (MAX_STR_LEN <? n)%nat || negb (fits off n buf_size) then None
        else
          let data := blit (replicate (S MAX_STR_LEN) 0) 0 (take n (drop off buf)) in
          Some (FStr (<[n := 0]> data) len, (off + n)%nat)
  | COL_BLOB =>
      if negb (fits off 4 buf_size) then None
      else
        let '(len, off) := rd_u32 buf off in
        let n := Z.to_nat len in
        if (Z.of_nat MAX_BLOB_LEN <? len) || negb (fits off n buf_size) then None
        else
          let data := blit (replicate MAX_BLOB_LEN 0) 0 (take n (drop off buf)) in
          Some (FBlob data len, (off + n)%nat)
  end.

Definition deserialize_field (buf : list Z) (off buf_size : nat) : option (field_value * nat) :=
  if negb (fits off 4 buf_size) then None
  else
    let '(code, off) := rd_u32 buf off in
    match code_type code with
    | Some t => deserialize_payload t buf off buf_size
    | None => None
    end.

Fixpoint deserialize_fields (n : nat) (buf : list Z) (off buf_size : nat)
    : option (list field_value * nat) :=
  match n with
  | O => Some ([], off)
  | S n =>
      match deserialize_field buf off buf_size with
      | Some (f, off) =>
          match deserialize_fields n buf off buf_size with
          | Some (fs, off) => Some (f :: fs, off)
          | None => None
          end
      | None => None
      end
  end.

(** [None] is the error return 0 (the record is then not used by any caller). *)
Definition record_deserialize (buf : list Z) (buf_size : nat) : option (record * nat) :=
  if (buf_size <? 16)%nat then None
  else
    let '(rid, off) := rd_u64 buf O in
    let '(tid, off) := rd_u32 buf off in
    let '(count, off) := rd_u32 buf off in
    if Z.of_nat MAX_COLUMNS <? count then None
    else
      match deserialize_fields (Z.to_nat count) buf off buf_size with
      | Some (fs, off) =>
          Some (Rec rid tid (fs ++ replicate (MAX_COLUMNS - Z.to_nat count) zero_field) count, off)
      | None => None
      end.

(** ** The wire format as record_serde.h documents it *)

Definition wire_payload (f : field_value) : list Z :=
  match f with
  | FU64 v => le_bytes 8 v
  | FI64 v => le_bytes 8 (u64 v)
  | FU32 v => le_bytes 4 v
  | FU8 v => [v]
  | FBool v => [if v then 1 else 0]
  | FStr data l => le_bytes 2 l ++ take (Z.to_nat l) data
  | FBlob data l => le_bytes 4 l ++ take (Z.to_nat l) data
  end.

Definition wire_field (f : field_value) : list Z :=
  le_bytes 4 (type_code (field_type f)) ++ wire_payload f.

Definition wire_header (rec : record) : list Z :=
  le_bytes 8 (row_id rec) ++ le_bytes 4 (table_id rec) ++ le_bytes 4 (field_count rec).

Definition live_fields (rec : record) : list field_value :=
  take (Z.to_nat (field_count rec)) (fields rec).

Definition wire (rec : record) : list Z :=
  wire_header rec ++ concat (map wire_field (live_fields rec)).

(** ** Well-formed records *)

Definition wf_field (f : field_value) : Prop :=
  match f with
  | FU64 v => is_u64 v
  | FI64 v => - 2 ^ 63 <= v < 2 ^ 63
  | FStr data l => exists s, l = Z.of_nat (length s) /\ (length s <= MAX_STR_LEN)%nat /\
      bytes s /\ data = s ++ replicate (S MAX_STR_LEN - length s) 0
  | FBlob data l => exists s, l = Z.of_nat (length s) /\ (length s <= MAX_BLOB_LEN)%nat /\
      bytes s /\ data = s ++ replicate (MAX_BLOB_LEN - length s) 0
  | FBool _ => True
  | FU32 v => is_u32 v
  | FU8 v => is_u8 v
  end.

Record wf_record (rec : record) : Prop := {
  wf_row : is_u64 (row_id rec);
  wf_table : is_u32 (table_id rec);
  wf_count : 0 <= field_count rec <= Z.of_nat MAX_COLUMNS;
  wf_length : length (fields rec) = MAX_COLUMNS;
  wf_live : Forall wf_field (live_fields rec);
  wf_fields : fields rec =
    live_fields rec ++ replicate (MAX_COLUMNS - Z.to_nat (field_count rec)) zero_field
}.

(** ** Writers and readers *)

Lemma wr_u32_blit buf off v :
  (off + 4 <= length buf)%nat -> wr_u32 (buf, off) v = (blit buf off (le_bytes 4 v), (off + 4)%nat).
Proof.
  intros H. unfold wr_u32. f_equal. rewrite le_bytes_shift.
  exact (foldl_insert_blit (fun i => Z.land (Z.shiftr v (Z.of_nat i * 8)) 0xFF) buf off 4 H).
Qed.

Lemma wr_u16_blit buf off v :
  (off + 2 <= length buf)%nat -> wr_u16 (buf, off) v = (blit buf off (le_bytes 2 v), (off + 2)%nat).
Proof.
  intros H. unfold wr_u16. f_equal. rewrite le_bytes_shift.
  exact (foldl_insert_blit (fun i => Z.land (Z.shiftr v (Z.of_nat i * 8)) 0xFF) buf off 2 H).
Qed.

Lemma wr_u64_blit buf off v :
  (off + 8 <= length buf)%nat -> wr_u64 (buf, off) v = (blit buf off (le_bytes 8 v), (off + 8)%nat).
Proof.
  intros H. unfold wr_u64. f_equal. rewrite le_bytes_shift.
  exact (foldl_insert_blit (fun i => Z.land (Z.shiftr v (Z.of_nat i * 8)) 0xFF) buf off 8 H).
Qed.

(** The [n] bytes at [off]. *)
Definition window (buf : list Z) (off n : nat) : list Z := take n (drop off buf).

Lemma window_nth buf off n i : (i < n)%nat -> buf.[off + i] = (window buf off n).[i].
Proof.
  intros Hi. unfold window. rewrite !nth_lookup_total_0, lookup_take_lt, lookup_drop by done. done.
Qed.

Lemma length_window buf off n : (off + n <= length buf)%nat -> length (window buf off n) = n.
Proof. intros. unfold window. len. Qed.

Lemma window_bytes buf off n : bytes buf -> bytes (window buf off n).
Proof. intros. unfold window. auto with vault. Qed.

Lemma rd_lor n buf off :
  bytes (window buf off n) -> (off + n <= length buf)%nat ->
  foldl (fun v i => Z.lor v (Z.shiftl buf.[off + i] (Z.of_nat i * 8))) 0 (seq 0 n) =
  le_val (window buf off n).
Proof.
  intros Hb Hn. rewrite <- (le_val_lor (fun i => buf.[off + i]%nat)) by
    (auto; intros i; rewrite length_window by done; apply window_nth).
  by rewrite length_window.
Qed.

Lemma rd_u64_window buf off :
  bytes (window buf off 8) -> (off + 8 <= length buf)%nat ->
  rd_u64 buf off = (le_val (window buf off 8), (off + 8)%nat).
Proof. intros. unfold rd_u64. by rewrite rd_lor. Qed.

Lemma rd_u32_window buf off :
  bytes (window buf off 4) -> (off + 4 <= length buf)%nat ->
  rd_u32 buf off = (le_val (window buf off 4), (off + 4)%nat).
Proof.
  intros. rewrite <- rd_lor by done. unfold rd_u32. cbn [seq foldl].
  by rewrite Z.lor_0_l, Z.shiftl_0_r, Nat.add_0_r.
Qed.

Lemma rd_u16_window buf off :
  bytes (window buf off 2) -> (off + 2 <= length buf)%nat ->
  rd_u16 buf off = (le_val (window buf off 2), (off + 2)%nat).
Proof.
  intros. rewrite <- rd_lor by done. unfold rd_u16. cbn [seq foldl].
  by rewrite Z.lor_0_l, Z.shiftl_0_r, Nat.add_0_r.
Qed.

Lemma window_app pre w post : window (pre ++ w ++ post) (length pre) (length w) = w.
Proof. unfold window. by rewrite drop_app_length, take_app_length. Qed.

Lemma window_le_bytes pre n v post :
  0 <= v < 256 ^ Z.of_nat n ->
  let buf := pre ++ le_bytes n v ++ post in
  bytes (window buf (length pre) n) /\ (length pre + n <= length buf)%nat /\
  le_val (window buf (length pre) n) = v.
Proof.
  intros Hv buf. unfold buf.
  rewrite <- (length_le_bytes n v) at 2 6. rewrite window_app.
  split; [auto with vault|]. split; [len|]. rewrite le_val_le_bytes. by apply Z.mod_small.
Qed.

Lemma rd_u64_at pre v post : is_u64 v ->
  rd_u64 (pre ++ le_bytes 8 v ++ post) (length pre) = (v, (length pre + 8)%nat).
Proof.
  intros Hv. destruct (window_le_bytes pre 8 v post) as (H1 & H2 & H3); [exact Hv|].
  rewrite rd_u64_window by done. by rewrite H3.
Qed.

Lemma rd_u32_at pre v post : is_u32 v ->
  rd_u32 (pre ++ le_bytes 4 v ++ post) (length pre) = (v, (length pre + 4)%nat).
Proof.
  intros Hv. destruct (window_le_bytes pre 4 v post) as (H1 & H2 & H3); [exact Hv|].
  rewrite rd_u32_window by done. by rewrite H3.
Qed.

Lemma rd_u16_at pre v post : is_u16 v ->
  rd_u16 (pre ++ le_bytes 2 v ++ post) (length pre) = (v, (length pre + 2)%nat).
Proof.
  intros Hv. destruct (window_le_bytes pre 2 v post) as (H1 & H2 & H3); [exact Hv|].
  rewrite rd_u16_window by done. by rewrite H3.
Qed.

(** ** Serialization writes the wire format *)

(** A field whose stored length agrees with its array, as every setter and
    the deserializer leave it. *)
Definition str_ok (f : field_value) : Prop :=
  match f with
  | FStr data l | FBlob data l => 0 <= l <= Z.of_nat (length data)
  | _ => True
  end.

Lemma wf_field_str_ok f : wf_field f -> str_ok f.
Proof.
  destruct f; simpl; try done.
  - intros (s & -> & Hs & _ & ->). unfold MAX_STR_LEN in *. rewrite length_app, length_replicate. lia.
  - intros (s & -> & Hs & _ & ->). unfold MAX_BLOB_LEN in *. rewrite length_app, length_replicate. lia.
Qed.

Lemma length_wire_payload f : str_ok f ->
  length (wire_payload f) = match f with
    | FU64 _ | FI64 _ => 8 | FU32 _ => 4 | FU8 _ | FBool _ => 1
    | FStr _ l => 2 + Z.to_nat l | FBlob _ l => 4 + Z.to_nat l end%nat.
Proof. destruct f; simpl; intros; rewrite ?length_app, ?length_le_bytes, ?length_take; simpl; lia. Qed.

Lemma serialize_field_spec buf off f size :
  str_ok f -> (size <= length buf)%nat ->
  if (off + length (wire_field f) <=? size)%nat
  then serialize_field (buf, off) f size =
         (blit buf off (wire_field f), Some (off + length (wire_field f))%nat)
  else snd (serialize_field (buf, off) f size) = None.
Proof.
  intros Hf Hs. unfold serialize_field, fits, wire_field. cbn [fst snd].
  rewrite length_app, length_le_bytes, length_wire_payload by done.
  destruct (Nat.leb_spec (off + 4) size) as [H4|H4]; cbn [negb].
  2:{ rewrite (proj2 (Nat.leb_gt _ _)); [done|]. destruct f; lia. }
  rewrite wr_u32_blit by lia. cbn [fst snd].
  set (hdr := le_bytes 4 _). assert (Hh : length hdr = 4%nat) by apply length_le_bytes.
  assert (Hnext : forall w, (off + 4 + length w <= length buf)%nat ->
    blit (blit buf off hdr) (off + 4) w = blit buf off (hdr ++ w)).
  { intros w Hw. rewrite <- Hh at 1. apply blit_blit_next. lia. }
  assert (Hlen : length (blit buf off hdr) = length buf) by (apply length_blit; lia).
  destruct f; cbn [wire_payload str_ok] in *; rewrite ?Nat.add_assoc.
  all: match goal with |- context [(?a <=? ?b)%nat] =>
    destruct (Nat.leb_spec a b) as [Hfit|Hfit]; cbn [negb]; [|done] end.
  - rewrite wr_u64_blit by lia. cbn [fst snd]. by rewrite Hnext by len.
  - rewrite wr_u64_blit by lia. cbn [fst snd]. by rewrite Hnext by len.
  - rewrite wr_u16_blit by lia. unfold wr_bytes. cbn [fst snd].
    rewrite Hnext by len. f_equal; [|f_equal; len].
    replace (off + 4 + 2)%nat with (off + length (hdr ++ le_bytes 2 slen))%nat by len.
    rewrite blit_blit_next by len. by rewrite <- app_assoc.
  - rewrite wr_u32_blit by lia. unfold wr_bytes. cbn [fst snd].
    rewrite Hnext by len. f_equal; [|f_equal; len].
    replace (off + 4 + 4)%nat with (off + length (hdr ++ le_bytes 4 blen))%nat by len.
    rewrite blit_blit_next by len. by rewrite <- app_assoc.
  - unfold wr_u8. cbn [fst snd]. rewrite insert_blit by lia. by rewrite Hnext by (simpl; lia).
  - rewrite wr_u32_blit by lia. cbn [fst snd]. by rewrite Hnext by len.
  - unfold wr_u8. cbn [fst snd]. rewrite insert_blit by lia. by rewrite Hnext by (simpl; lia).
Qed.

Abbreviation wire_fields fs := (concat (map wire_field fs)).

Lemma serialize_fields_spec fs buf off size :
  Forall str_ok fs -> (size <= length buf)%nat -> (off <= size)%nat ->
  if (off + length (wire_fields fs) <=? size)%nat
  then serialize_fields (buf, off) fs size =
         (blit buf off (wire_fields fs), Some (off + length (wire_fields fs))%nat)
  else snd (serialize_fields (buf, off) fs size) = None.
Proof.
  intros Hfs. revert buf off. induction Hfs as [|f fs Hf Hfs IH]; intros buf off Hs Ho.
  { simpl. rewrite Nat.add_0_r, blit_nil. by rewrite (proj2 (Nat.leb_le _ _)). }
  cbn [map concat serialize_fields]. rewrite length_app, Nat.add_assoc.
  pose proof (serialize_field_spec buf off f size Hf Hs) as E.
  destruct (Nat.leb_spec (off + length (wire_field f)) size) as [H1|H1].
  - rewrite E. specialize (IH (blit buf off (wire_field f)) (off + length (wire_field f))%nat).
    rewrite length_blit in IH by lia. specialize (IH Hs H1).
    destruct (_ <=? _)%nat eqn:E2; [|done]. rewrite IH. f_equal.
    apply Nat.leb_le in E2. apply blit_blit_next. lia.
  - rewrite (proj2 (Nat.leb_gt _ _)) by lia.
    destruct (serialize_field (buf, off) f size) as [b o]. cbn [snd] in E. by rewrite E.
Qed.

Lemma record_serialize_spec rec buf size :
  Forall str_ok (live_fields rec) -> (size <= length buf)%nat ->
  if (length (wire rec) <=? size)%nat
  then record_serialize rec buf size = (blit buf 0 (wire rec), length (wire rec))
  else snd (record_serialize rec buf size) = O.
Proof.
  intros Hok Hs. unfold record_serialize, wire. rewrite length_app.
  assert (Hh : length (wire_header rec) = 16%nat) by (unfold wire_header; len).
  rewrite Hh. fold (live_fields rec).
  destruct (Nat.ltb_spec size 16) as [H|H].
  { by rewrite (proj2 (Nat.leb_gt _ _)) by lia. }
  assert (Hb : forall w, (length w <= 16)%nat -> length (blit buf 0 w) = length buf)
    by (intros; apply length_blit; lia).
  rewrite wr_u64_blit by lia.
  rewrite wr_u32_blit by (rewrite Hb by len; lia).
  rewrite (blit_blit_next buf (le_bytes 8 (row_id rec))) by len.
  rewrite wr_u32_blit by (rewrite Hb by len; lia).
  replace (blit (blit buf 0 _) _ _) with (blit buf 0 (wire_header rec)).
  2:{ unfold wire_header.
      replace (0 + 8 + 4)%nat with (0 + length (le_bytes 8 (row_id rec) ++ le_bytes 4 (table_id rec)))%nat by len.
      rewrite blit_blit_next by len. by rewrite <- app_assoc. }
  pose proof (serialize_fields_spec (live_fields rec) (blit buf 0 (wire_header rec))
    (0 + 8 + 4 + 4) size Hok) as E.
  rewrite length_blit in E by lia. specialize (E Hs H).
  change (0 + 8 + 4 + 4)%nat with 16%nat in *.
  destruct (_ <=? _)%nat eqn:E2.
  - rewrite E. f_equal. apply Nat.leb_le in E2.
    rewrite <- (blit_blit_next buf (wire_header rec)) by (rewrite Hh; lia). by rewrite Hh.
  - destruct (serialize_fields _ _ _) as [b o]. cbn [snd] in E. by rewrite E.
Qed.

(** ** Deserialization reads it back *)

Lemma code_type_code t : code_type (type_code t) = Some t.
Proof. by destruct t. Qed.

Lemma type_code_u32 t : is_u32 (type_code t).
Proof. unfold is_word. destruct t; simpl; lia. Qed.

Lemma i64_u64 v : - 2 ^ 63 <= v < 2 ^ 63 -> i64 (u64 v) = v.
Proof. intros. unfold i64, wrap. lia. Qed.

Lemma fits_true off n size : (off + n <= size)%nat -> fits off n size = true.
Proof. intros. by apply Nat.leb_le. Qed.

Lemma str_data_eq (s : list Z) :
  (length s <= MAX_STR_LEN)%nat ->
  <[length s := 0]> (blit (replicate (S MAX_STR_LEN) 0) 0 s) =
  s ++ replicate (S MAX_STR_LEN - length s) 0.
Proof.
  intros H. unfold MAX_STR_LEN in *. unfold blit. rewrite take_0, app_nil_l, drop_replicate.
  replace (length s) with (length s + 0)%nat at 1 by lia. rewrite insert_app_r. f_equal.
  replace (256 - (0 + length s))%nat with (S (255 - length s)) by lia.
  replace (256 - length s)%nat with (S (255 - length s)) by lia. done.
Qed.

Lemma deserialize_payload_wire f pre post size :
  wf_field f -> (length pre + length (wire_payload f) <= size)%nat ->
  deserialize_payload (field_type f) (pre ++ wire_payload f ++ post) (length pre) size =
    Some (f, (length pre + length (wire_payload f))%nat).
Proof.
  intros Hf Hs. rewrite length_wire_payload in * by by apply wf_field_str_ok.
  destruct f; cbn [field_type deserialize_payload wire_payload wf_field] in *.
  - rewrite fits_true, rd_u64_at by done. done.
  - rewrite fits_true, rd_u64_at by (try apply wrap_range; lia). by rewrite i64_u64.
  - destruct Hf as (s & -> & Hl & Hb & ->). unfold MAX_STR_LEN in Hl.
    rewrite Nat2Z.id, take_app_length in *. rewrite <- app_assoc.
    rewrite fits_true, rd_u16_at by (unfold is_word; lia). cbn [negb]. rewrite Nat2Z.id.
    rewrite (proj2 (Nat.ltb_ge _ _)), fits_true by (unfold MAX_STR_LEN; lia). cbn [negb orb].
    rewrite app_assoc, drop_app_length' by len. rewrite take_app_length, str_data_eq by done.
    do 2 f_equal. lia.
  - destruct Hf as (s & -> & Hl & Hb & ->). unfold MAX_BLOB_LEN in Hl.
    rewrite Nat2Z.id, take_app_length in *. rewrite <- app_assoc.
    rewrite fits_true, rd_u32_at by (unfold is_word; lia). cbn [negb]. rewrite Nat2Z.id.
    rewrite (proj2 (Z.ltb_ge _ _)), fits_true by (unfold MAX_BLOB_LEN; lia). cbn [negb orb].
    rewrite app_assoc, drop_app_length' by len. rewrite take_app_length.
    do 2 f_equal; [|lia]. unfold blit. by rewrite take_0, app_nil_l, drop_replicate.
  - rewrite fits_true by lia. unfold rd_u8. rewrite app_nth2, Nat.sub_diag by lia. by destruct v.
  - rewrite fits_true, rd_u32_at by done. done.
  - rewrite fits_true by lia. unfold rd_u8. rewrite app_nth2, Nat.sub_diag by lia. done.
Qed.

Lemma deserialize_field_wire f pre post size :
  wf_field f -> (length pre + length (wire_field f) <= size)%nat ->
  deserialize_field (pre ++ wire_field f ++ post) (length pre) size =
    Some (f, (length pre + length (wire_field f))%nat).
Proof.
  intros Hf Hs. unfold deserialize_field, wire_field in *.
  rewrite length_app, length_le_bytes in *.
  rewrite <- app_assoc, fits_true, rd_u32_at by (try apply type_code_u32; lia). cbn [negb].
  rewrite code_type_code, app_assoc.
  pose proof (deserialize_payload_wire f (pre ++ le_bytes 4 (type_code (field_type f))) post size Hf) as E.
  rewrite length_app, length_le_bytes in E. rewrite E by lia. do 2 f_equal. lia.
Qed.

Lemma deserialize_fields_wire fs pre post size :
  Forall wf_field fs -> (length pre + length (wire_fields fs) <= size)%nat ->
  deserialize_fields (length fs) (pre ++ wire_fields fs ++ post) (length pre) size =
    Some (fs, (length pre + length (wire_fields fs))%nat).
Proof.
  intros Hfs. revert pre. induction Hfs as [|f fs Hf Hfs IH]; intros pre Hs.
  { simpl. by rewrite Nat.add_0_r. }
  cbn [length map concat deserialize_fields] in *. rewrite length_app in *.
  rewrite <- app_assoc, deserialize_field_wire by (try done; lia).
  rewrite app_assoc, <- length_app, IH by (rewrite length_app; lia).
  do 2 f_equal. rewrite length_app. lia.
Qed.

Lemma record_deserialize_wire rec post size :
  wf_record rec -> (length (wire rec) <= size)%nat ->
  record_deserialize (wire rec ++ post) size = Some (rec, length (wire rec)).
Proof.
  intros [Hr Ht Hc Hl Hlive Hf] Hs. unfold record_deserialize.
  assert (Hlen : length (wire rec) = (16 + length (wire_fields (live_fields rec)))%nat)
    by (unfold wire, wire_header; len).
  rewrite (proj2 (Nat.ltb_ge _ _)) by lia.
  rewrite Hlen. unfold wire, wire_header. rewrite <- !app_assoc.
  match goal with |- context [rd_u64 ?b O] =>
    change (rd_u64 b O) with (rd_u64 ([] ++ b) (length (@nil Z))) end.
  rewrite (rd_u64_at [] (row_id rec)) by done.
  change (length [] + 8)%nat with (length (le_bytes 8 (row_id rec))).
  rewrite (rd_u32_at (le_bytes 8 (row_id rec))) by done.
  rewrite (app_assoc (le_bytes 8 (row_id rec))).
  set (h2 := le_bytes 8 (row_id rec) ++ le_bytes 4 (table_id rec)).
  change (length (le_bytes 8 (row_id rec)) + 4)%nat with (length h2).
  rewrite rd_u32_at by (unfold is_word, MAX_COLUMNS in *; lia).
  rewrite (proj2 (Z.ltb_ge _ _)) by lia.
  rewrite (app_assoc h2). set (h3 := h2 ++ le_bytes 4 (field_count rec)).
  change (length h2 + 4)%nat with (length h3).
  assert (Hn : Z.to_nat (field_count rec) = length (live_fields rec))
    by (unfold live_fields, MAX_COLUMNS in *; rewrite length_take; lia).
  rewrite Hn at 1. rewrite deserialize_fields_wire by (auto; change (length h3) with 16%nat; lia).
  rewrite <- Hf. change (length h3) with 16%nat. by destruct rec.
Qed.

(** ** Deserialization of arbitrary input is safe *)

Lemma le_val_window_range buf off n :
  bytes buf -> (off + n <= length buf)%nat -> 0 <= le_val (window buf off n) < 256 ^ Z.of_nat n.
Proof.
  intros Hb Hn. pose proof (le_val_range _ (window_bytes buf off n Hb)) as H.
  by rewrite length_window in H.
Qed.

Lemma fits_negb off n size : negb (fits off n size) = false -> (off + n <= size)%nat.
Proof. intros H. apply negb_false_iff in H. by apply Nat.leb_le. Qed.

Ltac dep_fits H :=
  match type of H with
  | context [negb (fits ?o ?n ?s)] => let E := fresh "Hfit" in
      destruct (negb (fits o n s)) eqn:E; [discriminate H|]; apply fits_negb in E
  end.

Lemma deserialize_payload_safe t buf off size f off' :
  bytes buf -> (size <= length buf)%nat -> (off <= size)%nat ->
  deserialize_payload t buf off size = Some (f, off') ->
  wf_field f /\ (off <= off' <= size)%nat.
Proof.
  intros Hb Hs Ho E. destruct t; cbn [deserialize_payload] in E.
  - dep_fits E. rewrite rd_u64_window in E by (auto using window_bytes; lia). simplify_eq.
    split; [|lia]. apply (le_val_window_range buf off 8); [done|lia].
  - dep_fits E. rewrite rd_u64_window in E by (auto using window_bytes; lia). simplify_eq.
    split; [|lia]. simpl. unfold i64. lia.
  - dep_fits E. rewrite rd_u16_window in E by (auto using window_bytes; lia).
    pose proof (le_val_window_range buf off 2 Hb ltac:(lia)) as Hr.
    set (l := le_val _) in *. clearbody l.
    destruct (MAX_STR_LEN <? Z.to_nat l)%nat eqn:E1; [discriminate E|]. cbn [orb] in E.
    dep_fits E. apply Nat.ltb_ge in E1. simplify_eq. split; [|lia].
    exists (window buf (off + 2) (Z.to_nat l)). rewrite length_window by lia.
    unfold MAX_STR_LEN in *. repeat split; [lia|lia|by apply window_bytes|].
    pose proof (str_data_eq (window buf (off + 2) (Z.to_nat l))) as Hd.
    rewrite length_window in Hd by lia. apply Hd. unfold MAX_STR_LEN. lia.
  - dep_fits E. rewrite rd_u32_window in E by (auto using window_bytes; lia).
    pose proof (le_val_window_range buf off 4 Hb ltac:(lia)) as Hr.
    set (l := le_val _) in *. clearbody l.
    destruct (Z.of_nat MAX_BLOB_LEN <? l) eqn:E1; [discriminate E|]. cbn [orb] in E.
    dep_fits E. apply Z.ltb_ge in E1. simplify_eq. split; [|lia].
    exists (window buf (off + 4) (Z.to_nat l)). rewrite length_window by lia.
    unfold MAX_BLOB_LEN in *. repeat split; [lia|lia|by apply window_bytes|].
    unfold blit. rewrite take_0, app_nil_l, drop_replicate. unfold window. f_equal. f_equal. len.
  - dep_fits E. unfold rd_u8 in E. simplify_eq. split; [done|lia].
  - dep_fits E. rewrite rd_u32_window in E by (auto using window_bytes; lia). simplify_eq.
    split; [|lia]. apply (le_val_window_range buf off 4); [done|lia].
  - dep_fits E. unfold rd_u8 in E. simplify_eq. split; [|lia].
    change (is_u8 buf.[off]). apply nth_Forall; [unfold is_word; lia|done].
Qed.

Lemma deserialize_fields_safe n buf off size fs off' :
  bytes buf -> (size <= length buf)%nat -> (off <= size)%nat ->
  deserialize_fields n buf off size = Some (fs, off') ->
  length fs = n /\ Forall wf_field fs /\ (off <= off' <= size)%nat.
Proof.
  intros Hb Hs. revert off fs off'. induction n as [|n IH]; intros off fs off' Ho E.
  { simpl in E. simplify_eq. repeat split; auto; lia. }
  cbn [deserialize_fields] in E. unfold deserialize_field in E. dep_fits E.
  rewrite rd_u32_window in E by (auto using window_bytes; lia).
  destruct (code_type _) as [t|]; [|done].
  destruct (deserialize_payload t buf (off + 4) size) as [[f o1]|] eqn:E1; [|done].
  apply deserialize_payload_safe in E1 as [Hf Ho1]; [|done|done|lia].
  destruct (deserialize_fields n buf o1 size) as [[fs' o2]|] eqn:E2; [|done]. simplify_eq.
  apply IH in E2 as (Hl & Hfs & Ho2); [|lia]. simpl. repeat split; [lia|by constructor|lia|lia].
Qed.

Lemma record_deserialize_safe buf size rec n :
  bytes buf -> (size <= length buf)%nat ->
  record_deserialize buf size = Some (rec, n) -> wf_record rec /\ (16 <= n <= size)%nat.
Proof.
  intros Hb Hs E. unfold record_deserialize in E.
  destruct (Nat.ltb_spec size 16) as [|H16]; [done|].
  rewrite rd_u64_window, rd_u32_window, rd_u32_window in E by (auto using window_bytes; lia).
  pose proof (le_val_window_range buf 0 8 Hb ltac:(lia)) as H1.
  pose proof (le_val_window_range buf (0 + 8) 4 Hb ltac:(lia)) as H2.
  pose proof (le_val_window_range buf (0 + 8 + 4) 4 Hb ltac:(lia)) as H3.
  set (c := le_val (window buf (0 + 8 + 4) 4)) in *. clearbody c.
  destruct (Z.ltb_spec (Z.of_nat MAX_COLUMNS) c) as [|Hc]; [done|].
  destruct (deserialize_fields _ _ _ _) as [[fs o]|] eqn:Ef; [|done]. simplify_eq.
  apply deserialize_fields_safe in Ef as (Hl & Hfs & Ho); [|done|done|lia]. split; [|lia].
  assert (Hlive : take (Z.to_nat c)
    (fs ++ replicate (MAX_COLUMNS - Z.to_nat c) zero_field) = fs) by (by rewrite <- Hl, take_app_length).
  unfold MAX_COLUMNS in *.
  split; unfold live_fields; cbn [row_id table_id fields field_count];
    rewrite ?Hlive; unfold MAX_COLUMNS; [exact H1|exact H2|lia| |done|done].
  rewrite length_app, length_replicate. lia.
Qed.

(** ** Setters *)

Lemma str_cells_any old old' val :
  length old = S MAX_STR_LEN -> length old' = S MAX_STR_LEN -> str_cells old val = str_cells old' val.
Proof.
  unfold str_cells, MAX_STR_LEN. intros Ho Ho'. rewrite !strncpy_spec. pose proof (strlen_le val).
  destruct (Nat.ltb_spec (strlen val) 255).
  - rewrite !blit_end by (rewrite length_app, length_cstr, length_replicate; lia). done.
  - apply list_eq. intros i. destruct (decide (i = 255%nat)) as [->|].
    + rewrite !list_lookup_insert_eq; [done|rewrite length_blit; len..].
    + rewrite !list_lookup_insert_ne by done. rewrite !lookup_blit by (rewrite length_take; lia).
      case_decide as Hi; [done|]. rewrite length_take, Nat.min_l in Hi by lia.
      rewrite !lookup_ge_None_2 by lia. done.
Qed.

(** The text a string field stores: the first 255 characters. *)
Definition str_text (val : list Z) : list Z := take MAX_STR_LEN (cstr val).

Lemma str_cells_text val :
  str_cells (replicate (S MAX_STR_LEN) 0) val =
  str_text val ++ replicate (S MAX_STR_LEN - length (str_text val)) 0.
Proof.
  unfold str_cells, str_text, MAX_STR_LEN. rewrite strncpy_spec.
  pose proof (strlen_le val) as Hle. rewrite length_take, length_cstr.
  destruct (Nat.ltb_spec (strlen val) 255) as [H|H].
  - rewrite blit_end, take_0, app_nil_l by (rewrite length_app, length_cstr; len).
    rewrite (take_ge (cstr val)) by (rewrite length_cstr; lia).
    rewrite insert_app_r_alt by (rewrite length_cstr; lia). f_equal.
    rewrite Nat.min_r by lia. replace (255 + 1 - strlen val)%nat with (256 - strlen val)%nat by lia.
    apply list_insert_id. apply lookup_replicate. split; [done|]. rewrite length_cstr. lia.
  - rewrite Nat.min_l by lia. unfold blit. rewrite take_0, app_nil_l, length_take, Nat.min_l by lia.
    rewrite insert_app_r_alt by len. unfold cstr. rewrite take_take, Nat.min_l by lia.
    f_equal. rewrite length_take, Nat.min_l by lia. done.
Qed.

Lemma str_field_eq val :
  str_field val = FStr (str_text val ++ replicate (S MAX_STR_LEN - length (str_text val)) 0)
    (Z.of_nat (length (str_text val))).
Proof.
  unfold str_field. rewrite str_cells_text. f_equal.
  rewrite strlen_app by (apply Forall_take, cstr_nonzero).
  assert (length (str_text val) <= 255)%nat by (unfold str_text, MAX_STR_LEN; len).
  unfold MAX_STR_LEN. replace (256 - length (str_text val))%nat with (S (255 - length (str_text val))) by lia.
  simpl. rewrite Nat.add_0_r. apply wrap_small. unfold is_word. lia.
Qed.

Lemma str_field_wf val : bytes val -> wf_field (str_field val).
Proof.
  intros Hb. rewrite str_field_eq. exists (str_text val).
  repeat split; [unfold str_text, MAX_STR_LEN; len|].
  unfold str_text, cstr. auto with vault.
Qed.

(** ** Properties *)

(** C16: serialization round trip.  A well-formed record whose wire form fits
    the buffer is serialized to exactly the documented format, and
    deserializing those bytes (whatever follows them) gives the record back
    and consumes exactly the bytes written. *)
Theorem record_serde_roundtrip (rec : record) (buf rest : list Z) (buf_size : nat) :
  wf_record rec -> (length (wire rec) <= buf_size <= length buf)%nat ->
  let '(buf', n) := record_serialize rec buf buf_size in
  n = length (wire rec) /\ take n buf' = wire rec /\
  record_deserialize (take n buf' ++ rest) n = Some (rec, n).
Proof.
  intros Hwf [H1 H2].
  assert (Hok : Forall str_ok (live_fields rec))
    by (eapply Forall_impl; [apply Hwf|apply wf_field_str_ok]).
  pose proof (record_serialize_spec rec buf buf_size Hok H2) as E.
  rewrite (proj2 (Nat.leb_le _ _) H1) in E. rewrite E.
  assert (Et : take (length (wire rec)) (blit buf 0 (wire rec)) = wire rec)
    by (apply (take_blit buf (wire rec) 0); lia).
  rewrite Et. repeat split; [done..|]. by apply record_deserialize_wire.
Qed.

(** A record of the AuditTable shape, used as the concrete instance. *)
Definition sample_record : record :=
  record_set_bool (record_set_str (record_set_u64 (Rec 7 3 (replicate 16 zero_field) 0) 0 7) 1
    [79; 75]) 2 true.

Lemma sample_record_wf : wf_record sample_record.
Proof.
  split; [by_compute|by_compute|by_compute|reflexivity| |reflexivity].
  apply Forall_cons. split; [by_compute|]. apply Forall_cons. split; [|by repeat constructor].
  exists [79; 75]. split; [reflexivity|]. split; [by_compute|]. split; [by_compute|reflexivity].
Defined.

Lemma record_serde_roundtrip_witness :
  let '(buf', n) := record_serialize sample_record (replicate 64 0) 64 in
  n = length (wire sample_record) /\ take n buf' = wire sample_record /\
  record_deserialize (take n buf' ++ [5; 6]) n = Some (sample_record, n).
Proof.
  apply (record_serde_roundtrip sample_record (replicate 64 0) [5; 6] 64).
  - exact sample_record_wf.
  - split; apply Nat.leb_le; reflexivity.
Defined.

(** C17: deserialization is memory-safe and total on untrusted bytes.  Whatever
    the buffer holds, an accepted record is well formed (at most 16 fields,
    every string at most 255 bytes and terminated, every blob at most 2048)
    and no byte past [buf_size] is consumed. *)
Theorem record_deserialize_wf (buf : list Z) (buf_size : nat) (rec : record) (n : nat) :
  bytes buf -> (buf_size <= length buf)%nat ->
  record_deserialize buf buf_size = Some (rec, n) ->
  wf_record rec /\ (16 <= n <= buf_size)%nat.
Proof. apply record_deserialize_safe. Qed.

Lemma record_deserialize_wf_witness :
  wf_record (Rec 0 0 (replicate 16 zero_field) 0) /\ (16 <= 16 <= 16)%nat.
Proof.
  apply (record_deserialize_wf (replicate 16 0) 16); [by_compute|by_compute|reflexivity].
Defined.

(** Serialization fails exactly when the record does not fit: for a
    well-formed record and a buffer of [buf_size] cells or more, the returned
    size is 0 if and only if the wire form is longer than [buf_size]. *)
Theorem record_serialize_overflow (rec : record) (buf : list Z) (buf_size : nat) :
  wf_record rec -> (buf_size <= length buf)%nat ->
  snd (record_serialize rec buf buf_size) = O <-> (buf_size < length (wire rec))%nat.
Proof.
  intros Hwf Hs.
  assert (Hok : Forall str_ok (live_fields rec))
    by (eapply Forall_impl; [apply Hwf|apply wf_field_str_ok]).
  pose proof (record_serialize_spec rec buf buf_size Hok Hs) as E.
  destruct (Nat.leb_spec (length (wire rec)) buf_size) as [H|H].
  - rewrite E. cbn [snd]. split; [|lia]. unfold wire, wire_header. len.
  - split; [done|by intros _].
Qed.

Lemma record_serialize_overflow_witness :
  snd (record_serialize sample_record (replicate 20 0) 20) = O <->
  (20 < length (wire sample_record))%nat.
Proof.
  apply (record_serialize_overflow sample_record (replicate 20 0) 20);
    [exact sample_record_wf|apply Nat.leb_le; reflexivity].
Defined.
