(* ===== verification/Btree.v ===== *)
(** * The B-tree index (src/kernel/db/btree.c, btree.h)

    [btree_node] has the fields of [btree_node_t] with their arrays at full
    size: 63 keys, 63 values ([None] is the null pointer), 64 children.  The
    cells past [num_keys] are stale, as in C.  Operations that write through
    pointers return the new node; a node is owned by one parent, and the
    pointers a split leaves behind in the stale cells of [children] are never
    followed.

    An access outside an array or through a null child gives [Fault].  The
    recursive operations descend one level per unit of [fuel]; the entry
    points use one more than the depth of the tree. *)

From S2P Require Import Prelude.

Definition BTREE_ORDER : nat := 64.
Definition BTREE_MAX_KEYS : nat := BTREE_ORDER - 1.

(** Outcome of an operation on nodes. *)
Inductive outcome (A : Type) :=
  | Done (a : A)
  | Fault
  | NoFuel.
Arguments Done {A}.
Arguments Fault {A}.
Arguments NoFuel {A}.

Section btree.
Context {V : Type}.

Inductive btree_node := BNode {
  keys : list Z;
  values : list (option V);
  children : list (option btree_node);
  num_keys : nat;
  is_leaf : bool
}.

Record btree := BTree { root : btree_node; count : Z; bt_table_id : Z }.

(** [kzalloc] of a node (it panics rather than fail). *)
Definition btree_create_node (leaf : bool) : btree_node :=
  BNode (replicate BTREE_MAX_KEYS 0) (replicate BTREE_MAX_KEYS None)
    (replicate BTREE_ORDER None) 0 leaf.

Definition btree_init (table_id : Z) : btree := BTree (btree_create_node true) 0 table_id.

Definition child_at (n : btree_node) (i : nat) : option btree_node :=
  match children n !! i with Some (Some c) => Some c | _ => None end.

(** [while (i < num_keys && key > keys[i]) i++], over the live keys. *)
Fixpoint lower_bound (live : list Z) (key : Z) : nat :=
  match live with
  | [] => O
  | k :: live => if k <? key then S (lower_bound live key) else O
  end.

Definition slot (n : btree_node) (key : Z) : nat := lower_bound (take (num_keys n) (keys n)) key.

Definition hit (n : btree_node) (i : nat) (key : Z) : bool :=
  (i <? num_keys n)%nat && (key =? (keys n).[i]).

(** ** Search *)

Definition value_at (n : btree_node) (i : nat) : option V :=
  match values n !! i with Some v => v | None => None end.

Fixpoint btree_search_node (fuel : nat) (n : btree_node) (key : Z) : outcome (option V) :=
  match fuel with
  | O => NoFuel
  | S fuel =>
      let i := slot n key in
      if hit n i key then Done (value_at n i)
      else if is_leaf n then Done None
      else match child_at n i with
           | Some c => btree_search_node fuel c key
           | None => Done None      (* if (!node) return NULL *)
           end
  end.

(** Depth along the first children: the fuel of the entry points. *)
Fixpoint depth (n : btree_node) : nat :=
  match n with
  | BNode _ _ (Some c :: _) _ false => S (depth c)
  | _ => O
  end.

Definition btree_search (t : btree) (key : Z) : outcome (option V) :=
  btree_search_node (S (depth (root t))) (root t) key.

(** ** Split *)

(** [for (j = i + n; j > i; j--) l[j] = l[j-1]] *)
Fixpoint shift_up {A} (l : list A) (i n : nat) : list A :=
  match n with
  | O => l
  | S n' =>
      let l := match l !! (i + n')%nat with Some x => <[(i + n)%nat := x]> l | None => l end in
      shift_up l i n'
  end.

Definition MID : nat := BTREE_MAX_KEYS / 2.

(** The right half built from [child]. *)
Definition split_right (child : btree_node) : btree_node :=
  let new := btree_create_node (is_leaf child) in
  let nk := (num_keys child - MID - 1)%nat in
  BNode (blit (keys new) 0 (take nk (drop (MID + 1) (keys child))))
    (blit (values new) 0 (take nk (drop (MID + 1) (values child))))
    (if is_leaf child then children new
     else blit (children new) 0 (take (nk + 1) (drop (MID + 1) (children child))))
    nk (is_leaf child).

Definition split_left (child : btree_node) : btree_node :=
  BNode (keys child) (values child) (children child) MID (is_leaf child).

Definition btree_split_child (parent : btree_node) (index : nat) : outcome btree_node :=
  match child_at parent index with
  | None => Fault
  | Some child =>
      let n := (num_keys parent - index)%nat in
      let ks := shift_up (keys parent) index n in
      let vs := shift_up (values parent) index n in
      let cs := shift_up (children parent) (index + 1) n in
      let ks := <[index := (keys child).[MID]]> ks in
      let vs := <[index := value_at child MID]> vs in
      let cs := <[(index + 1)%nat := Some (split_right child)]> cs in
      let cs := <[index := Some (split_left child)]> cs in
      Done (BNode ks vs cs (num_keys parent + 1) (is_leaf parent))
  end.

(** ** Insertion *)

(** [while (i >= 0 && key < keys[i]) i--] from [i = m - 1]; returns [i + 1]. *)
Fixpoint upper_slot (m : nat) (ks : list Z) (key : Z) : nat :=
  match m with
  | O => O
  | S i => if key <? ks.[i] then upper_slot i ks key else m
  end.

(** The same loop in a leaf, which shifts keys and values as it goes. *)
Fixpoint leaf_shift (m : nat) (ks : list Z) (vs : list (option V)) (key : Z)
    : nat * list Z * list (option V) :=
  match m with
  | O => (O, ks, vs)
  | S i =>
      if key <? ks.[i] then
        leaf_shift i (<[m := ks.[i]]> ks)
          (match vs !! i with Some v => <[m := v]> vs | None => vs end) key
      else (m, ks, vs)
  end.

Definition set_value (n : btree_node) (i : nat) (v : V) : btree_node :=
  BNode (keys n) (<[i := Some v]> (values n)) (children n) (num_keys n) (is_leaf n).

Definition set_child (n : btree_node) (i : nat) (c : btree_node) : btree_node :=
  BNode (keys n) (values n) (<[i := Some c]> (children n)) (num_keys n) (is_leaf n).

Definition leaf_insert (n : btree_node) (key : Z) (v : V) : btree_node :=
  let '(m, ks, vs) := leaf_shift (num_keys n) (keys n) (values n) key in
  match m with
  | S i =>
      if ks.[i] =? key
      then BNode ks (<[i := Some v]> vs) (children n) (num_keys n) (is_leaf n)
      else BNode (<[m := key]> ks) (<[m := Some v]> vs) (children n) (num_keys n + 1) (is_leaf n)
  | O => BNode (<[m := key]> ks) (<[m := Some v]> vs) (children n) (num_keys n + 1) (is_leaf n)
  end.

(** Descend into child [i] with [f] and store the result back. *)
Definition update_child (f : btree_node -> outcome btree_node) (n : btree_node) (i : nat)
    : outcome btree_node :=
  match child_at n i with
  | None => Fault
  | Some c =>
      match f c with
      | Done c' => Done (set_child n i c')
      | Fault => Fault
      | NoFuel => NoFuel
      end
  end.

Fixpoint btree_insert_nonfull (fuel : nat) (n : btree_node) (key : Z) (v : V)
    : outcome btree_node :=
  match fuel with
  | O => NoFuel
  | S fuel =>
      if is_leaf n then Done (leaf_insert n key v)
      else
        let i := upper_slot (num_keys n) (keys n) key in
        if (0 <? i)%nat && ((keys n).[i - 1] =? key) then Done (set_value n (i - 1) v)
        else
          match child_at n i with
          | None => Fault
          | Some c =>
              if (num_keys c =? BTREE_MAX_KEYS)%nat then
                match btree_split_child n i with
                | Done n =>
                    match keys n !! i with
                    | None => Fault
                    | Some ki =>
                        let i := if ki <? key then S i else i in
                        match keys n !! i with
                        | None => Fault      (* reads keys[63] *)
                        | Some ki =>
                            if key =? ki then Done (set_value n i v)
                            else update_child (fun c => btree_insert_nonfull fuel c key v) n i
                        end
                    end
                | o => o
                end
              else update_child (fun c => btree_insert_nonfull fuel c key v) n i
          end
  end.

Definition btree_insert_root (r : btree_node) (key : Z) (v : V) : outcome btree_node :=
  if (num_keys r =? BTREE_MAX_KEYS)%nat then
    let new_root := btree_create_node false in
    let new_root := set_child new_root 0 r in
    match btree_split_child new_root 0 with
    | Done nr =>
        let k0 := (keys nr).[0] in
        let i := if k0 <? key then 1%nat else 0%nat in
        if key =? k0 then Done (set_value nr 0 v)
        else update_child (fun c => btree_insert_nonfull (S (depth r)) c key v) nr i
    | o => o
    end
  else btree_insert_nonfull (S (depth r)) r key v.

Definition btree_insert (t : btree) (key : Z) (v : V) : outcome btree :=
  match btree_insert_root (root t) key v with
  | Done r => Done (BTree r (u64 (count t + 1)) (bt_table_id t))
  | Fault => Fault
  | NoFuel => NoFuel
  end.

(** ** Deletion *)

(** [for (j = i; j < num_keys - 1; j++) l[j] = l[j+1]]: [n] iterations. *)
Fixpoint shift_down {A} (l : list A) (i n : nat) : list A :=
  match n with
  | O => l
  | S n =>
      let l := match l !! (i + 1)%nat with Some x => <[i := x]> l | None => l end in
      shift_down l (i + 1) n
  end.

Definition leaf_delete (n : btree_node) (i : nat) : btree_node :=
  let cnt := (num_keys n - 1 - i)%nat in
  BNode (shift_down (keys n) i cnt) (shift_down (values n) i cnt) (children n)
    (num_keys n - 1) (is_leaf n).

(** The node after the deletion, [None] when the key is not found. *)
Fixpoint btree_delete_node (fuel : nat) (n : btree_node) (key : Z)
    : outcome (option btree_node) :=
  match fuel with
  | O => NoFuel
  | S fuel =>
      let i := slot n key in
      if hit n i key then
        if is_leaf n then Done (Some (leaf_delete n i))
        else Done (Some (BNode (keys n) (<[i := None]> (values n)) (children n)
                           (num_keys n) (is_leaf n)))
      else if is_leaf n then Done None
      else match child_at n i with
           | None => Done None      (* while (node) ends *)
           | Some c =>
               match btree_delete_node fuel c key with
               | Done (Some c') => Done (Some (set_child n i c'))
               | o => o
               end
           end
  end.

(** The tree and the returned code. *)
Definition btree_delete (t : btree) (key : Z) : outcome (btree * Z) :=
  match btree_delete_node (S (depth (root t))) (root t) key with
  | Done (Some r) => Done (BTree r (u64 (count t - 1)) (bt_table_id t), 0)
  | Done None => Done (t, -1)
  | Fault => Fault
  | NoFuel => NoFuel
  end.

(** ** Scan

    The callback's state is threaded through; null values are skipped. *)

Section scan.
Context {A : Type} (callback : A -> Z -> V -> A).

Definition visit (acc : A) (n : btree_node) (i : nat) : A :=
  match value_at n i with
  | Some v => callback acc (keys n).[i] v
  | None => acc
  end.

(** [for (i...) { if (!is_leaf) scan(children[i]); visit(i); }], from [i]. *)
Fixpoint scan_loop (down : A -> nat -> outcome A) (n : btree_node) (cnt i : nat) (acc : A)
    : outcome A :=
  match cnt with
  | O => Done acc
  | S cnt =>
      match down acc i with
      | Done acc => scan_loop down n cnt (S i) (visit acc n i)
      | o => o
      end
  end.

Fixpoint btree_scan_node (fuel : nat) (n : btree_node) (acc : A) : outcome A :=
  match fuel with
  | O => NoFuel
  | S fuel =>
      let down acc i :=
        if is_leaf n then Done acc
        else match child_at n i with
             | Some c => btree_scan_node fuel c acc
             | None => Done acc     (* if (!node) return *)
             end in
      match scan_loop down n (num_keys n) O acc with
      | Done acc => down acc (num_keys n)
      | o => o
      end
  end.

Definition btree_scan (t : btree) (acc : A) : outcome A :=
  btree_scan_node (S (depth (root t))) (root t) acc.
End scan.

(** ** Destruction

    The nodes given to [kfree], in that order; the root pointer and the count
    are cleared. *)

(** [for (i = 0; i <= num_keys; i++) btree_destroy_node(children[i])] *)
Fixpoint destroy_loop (down : list btree_node -> nat -> outcome (list btree_node)) (cnt i : nat) (freed : list btree_node)
    : outcome (list btree_node) :=
  match cnt with
  | O => Done freed
  | S cnt =>
      match down freed i with
      | Done freed => destroy_loop down cnt (S i) freed
      | o => o
      end
  end.

Fixpoint btree_destroy_node (fuel : nat) (n : btree_node) (freed : list btree_node) : outcome (list btree_node) :=
  match fuel with
  | O => NoFuel
  | S fuel =>
      let down freed i :=
        match child_at n i with
        | Some c => btree_destroy_node fuel c freed
        | None => Done freed     (* if (!node) return *)
        end in
      match (if is_leaf n then Done freed else destroy_loop down (S (num_keys n)) O freed) with
      | Done freed => Done (freed ++ [n])
      | o => o
      end
  end.

Record destroyed := Destroyed { freed_nodes : list btree_node; d_root : option btree_node; d_count : Z }.

Definition btree_destroy (t : btree) : outcome destroyed :=
  match btree_destroy_node (S (depth (root t))) (root t) [] with
  | Done freed => Done (Destroyed freed None 0)
  | Fault => Fault
  | NoFuel => NoFuel
  end.
End btree.

Arguments btree_node : clear implicits.
Arguments btree : clear implicits.
Arguments destroyed : clear implicits.

(** Insertion of a list of keys, in order. *)
Fixpoint insert_all {V} (t : btree V) (l : list (Z * V)) : outcome (btree V) :=
  match l with
  | [] => Done t
  | (k, v) :: l =>
      match btree_insert t k v with
      | Done t => insert_all t l
      | o => o
      end
  end.

Example btree_small :
  exists t, insert_all (btree_init 0) [(5, 50); (3, 30); (9, 90)] = Done t /\
    btree_search t 3 = Done (Some 30) /\ btree_search t 4 = Done None.
Proof. eexists. split; [reflexivity|]. by vm_compute. Qed.
