(* ===== verification/BtreeSpec.v ===== *)
(** * Correctness of the B-tree index

    The abstract content of a node is its in-order list of entries
    ([entries]); a tree refines a finite map from keys to values ([abs]).
    The file first treats sorted entry lists, then the array loops, then
    the node operations, and ends with the refinement theorems. *)

From stdpp Require Import gmap sorting.
From S2P Require Import Prelude Btree.

(** ** Sorted lists of entries *)

Section entry_lists.
Context {V : Type}.
Abbreviation entry := (Z * option V)%type.

Definition keys_of (l : list entry) : list Z := map fst l.

(** Strictly increasing keys. *)
Definition ordered (l : list entry) : Prop := StronglySorted Z.lt (keys_of l).

Fixpoint get (k : Z) (l : list entry) : option V :=
  match l with
  | [] => None
  | (k', v) :: l => if k =? k' then v else get k l
  end.

(** Insert or replace in key order. *)
Fixpoint put (k : Z) (v : option V) (l : list entry) : list entry :=
  match l with
  | [] => [(k, v)]
  | (k', v') :: l' =>
      if k <? k' then (k, v) :: l
      else if k =? k' then (k, v) :: l'
      else (k', v') :: put k v l'
  end.

Definition all_lt (l : list entry) (k : Z) : Prop := Forall (fun e => fst e < k) l.
Definition all_gt (l : list entry) (k : Z) : Prop := Forall (fun e => k < fst e) l.

Lemma keys_of_app l l' : keys_of (l ++ l') = keys_of l ++ keys_of l'.
Proof. apply map_app. Qed.

Lemma sorted_app (l l' : list Z) :
  StronglySorted Z.lt (l ++ l') <->
  StronglySorted Z.lt l /\ StronglySorted Z.lt l' /\ (forall x y, x ∈ l -> y ∈ l' -> x < y).
Proof.
  induction l as [|a l IH]; simpl.
  - split; [|naive_solver]. intros H. repeat split; [constructor|done|]. intros x y Hx. by apply elem_of_nil in Hx.
  - split.
    + intros H. apply StronglySorted_inv in H as [H1 H2]. apply IH in H1 as (Ha & Hb & Hc).
      apply Forall_app in H2 as [H2 H3]. repeat split; [by constructor|done|].
      intros x y [->|Hx]%elem_of_cons Hy; [|by apply Hc].
      by eapply Forall_forall in H3.
    + intros (H1 & H2 & H3). apply StronglySorted_inv in H1 as [H1 H1'].
      constructor; [apply IH; repeat split; try done; intros; apply H3; [by right|done]|].
      apply Forall_app. split; [done|]. apply Forall_forall. intros y Hy. apply H3; [by left|done].
Qed.

Lemma ordered_app l l' :
  ordered (l ++ l') <->
  ordered l /\ ordered l' /\ (forall e e', e ∈ l -> e' ∈ l' -> fst e < fst e').
Proof.
  unfold ordered. rewrite keys_of_app, sorted_app.
  split; intros (H1 & H2 & H3); repeat split; try done.
  - intros e e' He He'. apply H3; apply list_elem_of_In, in_map, list_elem_of_In; done.
  - intros x y Hx Hy. apply list_elem_of_In, in_map_iff in Hx as (e & <- & He).
    apply list_elem_of_In, in_map_iff in Hy as (e' & <- & He').
    apply H3; by apply list_elem_of_In.
Qed.

Lemma ordered_cons e l : ordered (e :: l) <-> ordered l /\ all_gt l (fst e).
Proof.
  unfold ordered, all_gt, keys_of. simpl. split.
  - intros [H1 H2]%StronglySorted_inv. split; [done|].
    rewrite Forall_map in H2. exact H2.
  - intros [H1 H2]. constructor; [done|]. rewrite Forall_map. exact H2.
Qed.

(** In an ordered list, everything before (after) an entry is smaller
    (larger). *)
Lemma ordered_mid l e r :
  ordered (l ++ e :: r) -> all_lt l (fst e) /\ all_gt r (fst e).
Proof.
  rewrite ordered_app, ordered_cons. intros (_ & [_ Hr] & H). split; [|done].
  apply Forall_forall. intros x Hx. apply H; [done|by left].
Qed.

Lemma all_lt_trans l k k' : all_lt l k -> k <= k' -> all_lt l k'.
Proof. intros H ?. eapply Forall_impl; [exact H|]. simpl. lia. Qed.

Lemma all_gt_trans l k k' : all_gt l k -> k' <= k -> all_gt l k'.
Proof. intros H ?. eapply Forall_impl; [exact H|]. simpl. lia. Qed.

Lemma get_app_lt l r k : all_lt l k -> get k (l ++ r) = get k r.
Proof.
  induction 1 as [|[k' v] l Hk Hl IH]; simpl in *; [done|].
  rewrite (proj2 (Z.eqb_neq _ _)) by lia. done.
Qed.

Lemma get_gt l k : all_gt l k -> get k l = None.
Proof.
  induction 1 as [|[k' v] l Hk Hl IH]; simpl in *; [done|].
  rewrite (proj2 (Z.eqb_neq _ _)) by lia. done.
Qed.

Lemma get_app_gt l r k : all_gt r k -> get k (l ++ r) = get k l.
Proof.
  intros H. induction l as [|[k' v] l IH]; simpl; [by apply get_gt|]. by rewrite IH.
Qed.

Lemma put_app_lt l r k v : all_lt l k -> put k v (l ++ r) = l ++ put k v r.
Proof.
  induction 1 as [|[k' v'] l Hk Hl IH]; simpl in *; [done|].
  rewrite (proj2 (Z.ltb_ge _ _)), (proj2 (Z.eqb_neq _ _)), IH by lia. done.
Qed.

Lemma put_gt l k v : all_gt l k -> put k v l = (k, v) :: l.
Proof. destruct 1 as [|[k' v'] l Hk Hl]; simpl in *; [done|]. by rewrite (proj2 (Z.ltb_lt _ _)). Qed.

Lemma put_app_gt l r k v : all_gt r k -> put k v (l ++ r) = put k v l ++ r.
Proof.
  intros H. induction l as [|[k' v'] l IH]; simpl; [by rewrite put_gt|].
  destruct (k <? k'); [done|]. destruct (k =? k'); [done|]. by rewrite IH.
Qed.

Lemma put_mid l c r k v : all_lt l k -> all_gt r k -> put k v (l ++ c ++ r) = l ++ put k v c ++ r.
Proof. intros. by rewrite put_app_lt, put_app_gt. Qed.

Lemma put_replace l r k v v' : all_lt l k -> put k v (l ++ (k, v') :: r) = l ++ (k, v) :: r.
Proof. intros. rewrite put_app_lt by done. simpl. by rewrite Z.ltb_irrefl, Z.eqb_refl. Qed.

Lemma get_mid l c r k : all_lt l k -> all_gt r k -> get k (l ++ c ++ r) = get k c.
Proof. intros. by rewrite get_app_lt, get_app_gt. Qed.

Lemma get_put l k v k' :
  ordered l -> get k' (put k v l) = if k' =? k then v else get k' l.
Proof.
  induction l as [|[k0 v0] l IH]; simpl; intros H; [done|].
  apply ordered_cons in H as [Ho Hg]. simpl in Hg.
  destruct (Z.ltb_spec k k0); [done|].
  destruct (Z.eqb_spec k k0) as [->|]; simpl.
  - by destruct (k' =? k0).
  - rewrite IH by done. destruct (Z.eqb_spec k' k0) as [->|]; [|done].
    by rewrite (proj2 (Z.eqb_neq _ _)) by lia.
Qed.

Lemma put_keys l k v x : x ∈ keys_of (put k v l) <-> x = k \/ x ∈ keys_of l.
Proof.
  induction l as [|[k0 v0] l IH]; simpl; [set_solver|].
  destruct (Z.ltb_spec k k0); simpl; [set_solver|].
  destruct (Z.eqb_spec k k0) as [->|]; simpl; [set_solver|].
  rewrite !elem_of_cons, IH. set_solver.
Qed.

Lemma put_ordered l k v : ordered l -> ordered (put k v l).
Proof.
  induction l as [|[k0 v0] l IH]; simpl; intros H.
  { apply ordered_cons. split; [constructor|constructor]. }
  pose proof H as [Ho Hg]%ordered_cons. simpl in Hg.
  destruct (Z.ltb_spec k k0).
  { apply ordered_cons. split; [done|]. constructor; simpl; [done|]. eapply all_gt_trans; [done|lia]. }
  destruct (Z.eqb_spec k k0) as [->|]; [by apply ordered_cons|].
  apply ordered_cons. split; [by apply IH|]. simpl. apply Forall_forall. intros e He.
  assert (fst e ∈ keys_of (put k v l)) as [->|Hk]%put_keys
    by (apply list_elem_of_In, in_map, list_elem_of_In; done); [lia|].
  apply list_elem_of_In, in_map_iff in Hk as (e' & <- & He'%list_elem_of_In).
  unfold all_gt in Hg. rewrite Forall_forall in Hg. by apply Hg.
Qed.

Lemma get_None l k : k ∉ keys_of l -> get k l = None.
Proof.
  induction l as [|[k0 v0] l IH]; simpl; [done|]. intros H.
  rewrite elem_of_cons in H. rewrite (proj2 (Z.eqb_neq _ _)) by tauto. apply IH. tauto.
Qed.

Lemma ordered_NoDup l : ordered l -> NoDup (keys_of l).
Proof.
  induction l as [|e l IH]; [constructor|]. intros [Ho Hg]%ordered_cons. constructor; [|by apply IH].
  intros Hk. apply list_elem_of_In, in_map_iff in Hk as (e' & E & He'%list_elem_of_In).
  unfold all_gt in Hg. rewrite Forall_forall in Hg. specialize (Hg _ He'). lia.
Qed.
End entry_lists.

(** ** Array loops *)

(** Reading an array assembled like the result of [shift_up]. *)
Lemma lookup_shifted {A} (l : list A) i m j :
  (i + m < length l)%nat ->
  (take (S i) l ++ take m (drop i l) ++ drop (S (i + m)) l) !! j =
  if decide (j <= i)%nat then l !! j
  else if decide (j <= i + m)%nat then l !! (j - 1)%nat else l !! j.
Proof.
  intros H. destruct (decide (j <= i)%nat).
  - rewrite lookup_app_l by len. by rewrite lookup_take_lt by lia.
  - rewrite lookup_app_r by len. rewrite length_take.
    destruct (decide (j <= i + m)%nat).
    + rewrite lookup_app_l by len. rewrite lookup_take_lt, lookup_drop by lia. f_equal. lia.
    + rewrite lookup_app_r by len. rewrite lookup_drop, length_take, length_drop. f_equal. lia.
Qed.

Lemma shift_up_spec {A} (l : list A) i n :
  (i + n < length l)%nat ->
  shift_up l i n = take (S i) l ++ take n (drop i l) ++ drop (S (i + n)) l.
Proof.
  revert l. induction n as [|n IH]; intros l H.
  { cbn [shift_up]. rewrite take_0, app_nil_l, Nat.add_0_r. by rewrite take_drop. }
  cbn [shift_up]. destruct (lookup_lt_is_Some_2 l (i + n)) as [x Hx]; [lia|]. rewrite Hx.
  rewrite IH by len. apply list_eq. intros j. rewrite !lookup_shifted by len.
  repeat case_decide; try lia; try by rewrite list_lookup_insert_ne by lia.
  replace j with (i + S n)%nat by lia. rewrite list_lookup_insert_eq by lia.
  replace (i + S n - 1)%nat with (i + n)%nat by lia. done.
Qed.

Lemma nth_shift_up (l : list Z) i n j :
  (i + n < length l)%nat ->
  (shift_up l i n).[j] =
  if decide (j <= i)%nat then l.[j] else if decide (j <= i + n)%nat then l.[j - 1] else l.[j].
Proof.
  intros H. rewrite shift_up_spec, nth_lookup_total_0, lookup_shifted by done.
  repeat case_decide; by rewrite nth_lookup_total_0.
Qed.

Lemma length_shift_up {A} (l : list A) i n : length (shift_up l i n) = length l.
Proof.
  revert l. induction n as [|n IH]; intros l; simpl; [done|]. rewrite IH.
  destruct (l !! (i + n)%nat); len.
Qed.

(** Making room at [i] among [n] live cells and storing [x] there. *)
Lemma insert_shift_up {A} (l : list A) i n x :
  (i <= n)%nat -> (n < length l)%nat ->
  <[i := x]> (shift_up l i (n - i)) = take i l ++ x :: drop i (take n l) ++ drop (S n) l.
Proof.
  intros Hi Hn. rewrite shift_up_spec by lia.
  assert (length (take i l) = i) as Hl by len.
  destruct (lookup_lt_is_Some_2 l i) as [y Hy]; [lia|].
  rewrite (take_S_r l i y Hy), <- app_assoc.
  rewrite insert_app_r_alt by lia. rewrite Hl, Nat.sub_diag. cbn [app list_insert insert].
  f_equal. f_equal. rewrite take_drop_commute. repeat f_equal; lia.
Qed.

Lemma take_insert_shift {A} (l : list A) i n x :
  (i <= n)%nat -> (n < length l)%nat ->
  take (S n) (<[i := x]> (shift_up l i (n - i))) = take i (take n l) ++ x :: drop i (take n l).
Proof.
  intros Hi Hn. rewrite insert_shift_up by done.
  rewrite take_take, Nat.min_l by done.
  rewrite app_comm_cons, app_assoc. apply take_app_length'. len.
Qed.

Lemma shift_down_take {A} (l : list A) i n :
  (i + n < length l)%nat ->
  take (i + n) (shift_down l i n) = take i l ++ take n (drop (S i) l) /\
  length (shift_down l i n) = length l.
Proof.
  revert l i. induction n as [|n IH]; intros l i H.
  { simpl. by rewrite Nat.add_0_r, app_nil_r. }
  cbn [shift_down]. destruct (lookup_lt_is_Some_2 l (i + 1)) as [x Hx]; [lia|]. rewrite Hx.
  destruct (IH (<[i := x]> l) (i + 1)%nat) as [E El]; [len|].
  replace (i + S n)%nat with (i + 1 + n)%nat by lia.
  rewrite E, El. split; [|len].
  rewrite Nat.add_1_r, take_S_insert by lia. rewrite <- app_assoc. f_equal.
  rewrite drop_insert_lt by lia. rewrite Nat.add_1_r in Hx.
  rewrite (drop_S l x (S i)) by done. done.
Qed.

Lemma upper_slot_spec ks m key :
  (upper_slot m ks key <= m)%nat /\
  (forall j, (upper_slot m ks key <= j < m)%nat -> key < ks.[j]) /\
  ((0 < upper_slot m ks key)%nat -> ks.[upper_slot m ks key - 1] <= key).
Proof.
  induction m as [|m (IH1 & IH2 & IH3)]; simpl; [repeat split; lia|].
  destruct (Z.ltb_spec key ks.[m]).
  - repeat split; [lia| |done]. intros j Hj. destruct (decide (j = m)) as [->|]; [done|]. apply IH2. lia.
  - repeat split; [lia|lia|]. intros _. replace (S m - 1)%nat with m by lia. done.
Qed.

Lemma lower_bound_spec live key :
  (lower_bound live key <= length live)%nat /\
  (forall j, (j < lower_bound live key)%nat -> live.[j] < key) /\
  ((lower_bound live key < length live)%nat -> key <= live.[lower_bound live key]).
Proof.
  induction live as [|k live (IH1 & IH2 & IH3)]; simpl; [repeat split; lia|].
  destruct (Z.ltb_spec k key).
  - repeat split; [lia| |]; [intros [|j] Hj; simpl; [lia|apply IH2; lia]|intros; apply IH3; lia].
  - repeat split; [lia|lia|lia].
Qed.

Lemma upper_slot_insert ks m key j x :
  (m <= j)%nat -> upper_slot m (<[j := x]> ks) key = upper_slot m ks key.
Proof.
  induction m as [|m IH]; simpl; intros H; [done|].
  rewrite nth_insert_ne by lia. by rewrite IH by lia.
Qed.

Lemma leaf_shift_spec {V} m ks (vs : list (option V)) key :
  let i := upper_slot m ks key in
  (m < length vs)%nat -> length ks = length vs ->
  leaf_shift m ks vs key = (i, shift_up ks i (m - i), shift_up vs i (m - i)).
Proof.
  simpl. revert ks vs. induction m as [|m IH]; intros ks vs Hm Hl; [done|].
  cbn [leaf_shift upper_slot]. destruct (Z.ltb_spec key ks.[m]).
  - destruct (lookup_lt_is_Some_2 vs m) as [v Hv]; [lia|]. rewrite Hv.
    rewrite IH by len. rewrite upper_slot_insert by lia.
    destruct (upper_slot_spec ks m key) as (Hi & _).
    set (i := upper_slot m ks key) in *. replace (S m - i)%nat with (S (m - i)) by lia.
    cbn [shift_up]. replace (i + (m - i))%nat with m by lia. replace (i + S (m - i))%nat with (S m) by lia.
    rewrite Hv. destruct (lookup_lt_is_Some_2 ks m) as [k Hk]; [lia|].
    rewrite Hk. rewrite nth_lookup_total_0, Hk. done.
  - rewrite Nat.sub_diag. done.
Qed.

(** ** In-order content of a node *)

Section weave.
Context {E : Type}.

(** Child contents before, and after, a position, each with the entry next
    to it. *)
Definition befores (cs : list (list E)) (es : list E) : list E :=
  concat (zip_with (fun c e => c ++ [e]) cs es).
Definition afters (es : list E) (cs : list (list E)) : list E :=
  concat (zip_with (fun e c => e :: c) es cs).

(** [c0 ++ e0 :: c1 ++ e1 :: ... ++ cn] *)
Definition weave (cs : list (list E)) (es : list E) : list E :=
  match cs with
  | [] => es
  | c :: cs => c ++ afters es cs
  end.

Lemma weave_child cs1 c cs2 es1 es2 :
  length cs1 = length es1 ->
  weave (cs1 ++ c :: cs2) (es1 ++ es2) = befores cs1 es1 ++ c ++ afters es2 cs2.
Proof.
  revert es1. induction cs1 as [|c1 cs1 IH]; intros [|e1 es1] H; try done.
  injection H as H. specialize (IH _ H). unfold befores in *. simpl.
  rewrite <- !app_assoc. simpl. f_equal. unfold weave in IH. unfold afters in *.
  destruct cs1 as [|c1' cs1]; simpl in *.
  - destruct es1; [|done]. simpl in *. done.
  - f_equal. exact IH.
Qed.

Lemma weave_entry cs1 c cs2 es1 e es2 :
  length cs1 = length es1 -> cs2 <> [] ->
  weave (cs1 ++ c :: cs2) (es1 ++ e :: es2) = (befores cs1 es1 ++ c) ++ e :: weave cs2 es2.
Proof.
  intros H Hne. rewrite weave_child by done. destruct cs2; [done|].
  by rewrite <- app_assoc.
Qed.
End weave.

Section contents.
Context {V : Type}.
Abbreviation node := (btree_node V).
Abbreviation entry := (Z * option V)%type.

(** The live entries of a node's own arrays. *)
Definition live (n : node) : list entry :=
  zip (take (num_keys n) (keys n)) (take (num_keys n) (values n)).

(** The content of a node of height [h]. *)
Fixpoint entries (h : nat) (n : node) : list entry :=
  match h with
  | O => live n
  | S h =>
      weave (map (fun oc => match oc with Some c => entries h c | None => [] end)
               (take (S (num_keys n)) (children n)))
        (live n)
  end.

(** The content of one child cell, and of the child cells of a node. *)
Definition kid (h : nat) (oc : option node) : list entry :=
  match oc with Some c => entries h c | None => [] end.
Definition kids (h : nat) (n : node) : list (list entry) :=
  map (kid h) (take (S (num_keys n)) (children n)).

(** The keys stored in leaves. *)
Fixpoint leaf_keys (h : nat) (n : node) : list Z :=
  match h with
  | O => take (num_keys n) (keys n)
  | S h =>
      concat (map (fun oc => match oc with Some c => leaf_keys h c | None => [] end)
               (take (S (num_keys n)) (children n)))
  end.

(** ** Well-formed nodes

    [hi] bounds the keys of the subtree from above ([None]: unbounded).  The
    stale key cells of an internal node are zero or at least [hi]. *)

Definition below (k : Z) (hi : option Z) : Prop :=
  match hi with Some b => k < b | None => True end.

Definition stale_key (hi : option Z) (k : Z) : Prop :=
  k = 0 \/ match hi with Some b => b <= k | None => False end.

Definition child_hi (hi : option Z) (n : node) (i : nat) : option Z :=
  if decide (i < num_keys n)%nat then Some (keys n).[i] else hi.

Record arrays_ok (n : node) : Prop := {
  ao_keys : length (keys n) = BTREE_MAX_KEYS;
  ao_values : length (values n) = BTREE_MAX_KEYS;
  ao_children : length (children n) = BTREE_ORDER;
  ao_count : (num_keys n <= BTREE_MAX_KEYS)%nat
}.

Fixpoint wf_node (h : nat) (hi : option Z) (n : node) : Prop :=
  arrays_ok n /\
  match h with
  | O => is_leaf n = true
  | S h =>
      is_leaf n = false /\
      (forall j, (num_keys n <= j < BTREE_MAX_KEYS)%nat -> stale_key hi (keys n).[j]) /\
      (forall i, (i <= num_keys n)%nat ->
         exists c, child_at n i = Some c /\ wf_node h (child_hi hi n i) c)
  end.

(** No internal node is one key short of full: a split of its last child
    would make [btree_insert_nonfull] read past its key array. *)
Fixpoint roomy (h : nat) (n : node) : Prop :=
  match h with
  | O => True
  | S h =>
      num_keys n <> (BTREE_MAX_KEYS - 1)%nat /\
      (forall i c, (i <= num_keys n)%nat -> child_at n i = Some c -> roomy h c)
  end.

Lemma wf_arrays h hi n : wf_node h hi n -> arrays_ok n.
Proof. destruct h; by intros [? _]. Qed.

Lemma wf_leaf h hi n : wf_node h hi n -> is_leaf n = match h with O => true | _ => false end.
Proof. destruct h; intros [_ H]; [done|apply H]. Qed.

Lemma entries_S h n : entries (S h) n = weave (kids h n) (live n).
Proof. reflexivity. Qed.

Lemma length_live n : arrays_ok n -> length (live n) = num_keys n.
Proof. intros [H1 H2 H3 H4]. unfold live. rewrite length_zip. len. Qed.

Lemma length_kids h n : arrays_ok n -> length (kids h n) = S (num_keys n).
Proof. intros [H1 H2 H3 H4]. unfold kids. rewrite length_map, length_take. unfold BTREE_MAX_KEYS, BTREE_ORDER in *. lia. Qed.

Lemma child_at_lookup (n : node) i c : child_at n i = Some c <-> children n !! i = Some (Some c).
Proof. unfold child_at. destruct (children n !! i) as [[?|]|]; naive_solver. Qed.

Lemma depth_wf h hi n : wf_node h hi n -> depth n = h.
Proof.
  revert hi n. induction h as [|h IH]; intros hi [ks vs cs nk lf] H; simpl in H.
  - destruct H as [_ ->]. simpl. by destruct cs as [|[]].
  - destruct H as (_ & -> & _ & Hc). destruct (Hc 0%nat) as (c & E & Hw); [lia|].
    apply child_at_lookup in E. simpl in E. destruct cs as [|oc cs]; [done|].
    injection E as ->. simpl. f_equal. by eapply IH.
Qed.

(** ** Positions in a node *)

Lemma live_lookup n i :
  arrays_ok n -> (i < num_keys n)%nat -> live n !! i = Some ((keys n).[i], value_at n i).
Proof.
  intros [H1 H2 H3 H4] Hi. unfold live.
  destruct (lookup_lt_is_Some_2 (keys n) i) as [k Hk]; [lia|].
  destruct (lookup_lt_is_Some_2 (values n) i) as [v Hv]; [lia|].
  unfold value_at. rewrite Hv. rewrite nth_lookup_total_0, Hk. simpl.
  apply lookup_zip_with_Some. exists k, v. rewrite !lookup_take_lt by lia. done.
Qed.

Lemma kids_lookup h n i c :
  child_at n i = Some c -> (i <= num_keys n)%nat -> kids h n !! i = Some (entries h c).
Proof.
  intros E%child_at_lookup Hi. unfold kids. rewrite list_lookup_fmap.
  rewrite lookup_take_lt by lia. by rewrite E.
Qed.

(** What lies before child [i], and after it. *)
Definition pre (h : nat) (n : node) (i : nat) : list entry :=
  befores (take i (kids h n)) (take i (live n)).
Definition suf (h : nat) (n : node) (i : nat) : list entry :=
  afters (drop i (live n)) (drop (S i) (kids h n)).

Lemma entries_child h n i c :
  arrays_ok n -> (i <= num_keys n)%nat -> child_at n i = Some c ->
  entries (S h) n = pre h n i ++ entries h c ++ suf h n i.
Proof.
  intros Ha Hi Hc. rewrite entries_S. unfold pre, suf.
  rewrite <- weave_child by (rewrite !length_take, length_live, length_kids by done; lia).
  rewrite take_drop. f_equal.
  rewrite <- (take_drop i (kids h n)) at 1. f_equal.
  apply drop_S. by eapply kids_lookup.
Qed.

Lemma entries_entry h n i :
  arrays_ok n -> (i < num_keys n)%nat ->
  exists l r, forall v,
    entries (S h) (BNode (keys n) (<[i := v]> (values n)) (children n) (num_keys n) (is_leaf n))
    = l ++ ((keys n).[i], v) :: r.
Proof.
  intros Ha Hi. pose proof Ha as [H1 H2 H3 H4].
  destruct (lookup_lt_is_Some_2 (kids h n) i) as [c Hc]; [rewrite length_kids by done; lia|].
  exists (befores (take i (kids h n)) (take i (live n)) ++ c),
    (weave (drop (S i) (kids h n)) (drop (S i) (live n))).
  intros v. rewrite <- weave_entry; cycle 1.
  { rewrite !length_take, length_live, length_kids by done. lia. }
  { intros E. apply (f_equal length) in E. rewrite length_drop, length_kids in E by done. simpl in E. lia. }
  rewrite entries_S. f_equal.
  - unfold kids at 1. simpl. fold (kids h n).
    rewrite <- (take_drop i (kids h n)) at 1. f_equal. by apply drop_S.
  - set (n' := BNode _ _ _ _ _).
    assert (arrays_ok n') as Ha' by (constructor; simpl; try done; len).
    transitivity (<[i := ((keys n).[i], v)]> (live n)).
    + apply list_eq. intros j. destruct (decide (j = i)) as [->|Hj].
      * rewrite list_lookup_insert_eq by (rewrite length_live; done).
        rewrite live_lookup by done. unfold value_at. simpl.
        rewrite list_lookup_insert_eq by lia. done.
      * rewrite list_lookup_insert_ne by done. destruct (decide (j < num_keys n)%nat).
        { rewrite !live_lookup by done. unfold value_at. simpl.
          by rewrite list_lookup_insert_ne by done. }
        { rewrite !lookup_ge_None_2; [done| |]; rewrite length_live by done; simpl; lia. }
    + rewrite insert_take_drop by (rewrite length_live; done). done.
Qed.

Lemma befores_snoc (cs : list (list entry)) es c e :
  length cs = length es -> befores (cs ++ [c]) (es ++ [e]) = (befores cs es ++ c) ++ [e].
Proof.
  intros H. unfold befores. rewrite zip_with_app by done. rewrite concat_app. simpl.
  by rewrite app_nil_r, app_assoc.
Qed.

Lemma pre_S h n i :
  arrays_ok n -> (i < num_keys n)%nat ->
  exists l, pre h n (S i) = l ++ [((keys n).[i], value_at n i)].
Proof.
  intros Ha Hi. unfold pre.
  destruct (lookup_lt_is_Some_2 (kids h n) i) as [c Hc]; [rewrite length_kids by done; lia|].
  rewrite (take_S_r _ _ _ Hc), (take_S_r _ _ _ (live_lookup n i Ha Hi)).
  rewrite befores_snoc; [eauto|]. rewrite !length_take, length_live, length_kids by done. lia.
Qed.

Lemma suf_lt h n i :
  arrays_ok n -> (i < num_keys n)%nat ->
  exists l, suf h n i = ((keys n).[i], value_at n i) :: l.
Proof.
  intros Ha Hi. unfold suf. rewrite (drop_S _ _ _ (live_lookup n i Ha Hi)).
  destruct (lookup_lt_is_Some_2 (kids h n) (S i)) as [c Hc]; [rewrite length_kids by done; lia|].
  rewrite (drop_S _ _ _ Hc). simpl. eauto.
Qed.

Lemma suf_end h n : arrays_ok n -> suf h n (num_keys n) = [].
Proof. intros Ha. unfold suf. rewrite drop_ge by (by rewrite length_live). done. Qed.

(** [key] belongs to child [i]. *)
Definition routes (n : node) (i : nat) (key : Z) : Prop :=
  (i <= num_keys n)%nat /\ ((0 < i)%nat -> (keys n).[i - 1] < key) /\
  ((i < num_keys n)%nat -> key < (keys n).[i]).

Lemma routes_bounds h n i c key :
  arrays_ok n -> child_at n i = Some c -> ordered (entries (S h) n) -> routes n i key ->
  all_lt (pre h n i) key /\ all_gt (suf h n i) key /\ ordered (entries h c).
Proof.
  intros Ha Hc Ho (Hi & Hl & Hr). rewrite (entries_child h n i c Ha Hi Hc) in Ho.
  split_and!.
  - destruct i as [|i]; [constructor|]. destruct (pre_S h n i Ha) as [l E]; [lia|].
    rewrite E in *. rewrite <- app_assoc in Ho. apply ordered_mid in Ho as [Ho _]. simpl in Ho.
    replace (S i - 1)%nat with i in Hl by lia.
    apply Forall_app. split; [eapply all_lt_trans; [done|lia]|]. constructor; [simpl; lia|done].
  - destruct (decide (i < num_keys n)%nat) as [Hlt|].
    + destruct (suf_lt h n i Ha Hlt) as [l E]. rewrite E in *.
      rewrite app_assoc in Ho. apply ordered_mid in Ho as [_ Ho]. simpl in Ho.
      constructor; [simpl; lia|]. eapply all_gt_trans; [done|lia].
    + replace i with (num_keys n) by lia. rewrite suf_end by done. constructor.
  - apply ordered_app in Ho as (_ & Ho & _). apply ordered_app in Ho as (Ho & _). done.
Qed.

(** ** Storing a child back *)

Lemma arrays_set_child n i c : arrays_ok n -> arrays_ok (set_child n i c).
Proof. intros [? ? ? ?]. constructor; simpl; len. Qed.

Lemma child_at_set_child n i j c :
  arrays_ok n -> (i <= num_keys n)%nat ->
  child_at (set_child n i c) j = if decide (j = i) then Some c else child_at n j.
Proof.
  intros [? ? H ?] Hi. unfold child_at. simpl. case_decide as E.
  - subst j. rewrite list_lookup_insert_eq; [done|]. unfold BTREE_MAX_KEYS, BTREE_ORDER in *. lia.
  - by rewrite list_lookup_insert_ne by done.
Qed.

Lemma kids_set_child h n i c :
  kids h (set_child n i c) = <[i := entries h c]> (kids h n) \/ (num_keys n < i)%nat.
Proof.
  destruct (decide (i <= num_keys n)%nat); [left|right; lia].
  unfold kids. simpl. rewrite take_insert_lt by lia. by rewrite list_fmap_insert.
Qed.

Lemma entries_set_child h n i c :
  arrays_ok n -> (i <= num_keys n)%nat ->
  entries (S h) (set_child n i c) = pre h n i ++ entries h c ++ suf h n i.
Proof.
  intros Ha Hi. rewrite (entries_child h _ i c);
    [|by apply arrays_set_child|done|rewrite child_at_set_child by done; by rewrite decide_True].
  destruct (kids_set_child h n i c) as [E|]; [|lia].
  unfold pre, suf. change (live (set_child n i c)) with (live n). rewrite E.
  rewrite take_insert_ge, drop_insert_lt by lia. done.
Qed.

Lemma wf_set_child h hi n i c :
  wf_node (S h) hi n -> (i <= num_keys n)%nat -> wf_node h (child_hi hi n i) c ->
  wf_node (S h) hi (set_child n i c).
Proof.
  intros (Ha & Hl & Hs & Hc) Hi Hw. split; [by apply arrays_set_child|].
  split_and!; [done|done|]. intros j Hj. simpl in Hj. rewrite child_at_set_child by done.
  case_decide as E; [subst j; by exists c|by apply Hc].
Qed.

Lemma leaf_keys_child h n i c k :
  child_at n i = Some c -> (i <= num_keys n)%nat -> k ∈ leaf_keys h c -> k ∈ leaf_keys (S h) n.
Proof.
  intros E%child_at_lookup Hi Hk. simpl. apply list_elem_of_In, in_concat.
  exists (leaf_keys h c). split; [|by apply list_elem_of_In].
  apply in_map_iff. exists (Some c). split; [done|]. apply list_elem_of_In, list_elem_of_lookup.
  exists i. by rewrite lookup_take_lt by lia.
Qed.

(** ** Hits *)

Lemma value_insert_self (n : node) i :
  arrays_ok n -> (i < num_keys n)%nat ->
  n = BNode (keys n) (<[i := value_at n i]> (values n)) (children n) (num_keys n) (is_leaf n).
Proof.
  intros [H1 H2 H3 H4] Hi. destruct n as [ks vs cs nk lf]. simpl in *. unfold value_at. simpl.
  destruct (lookup_lt_is_Some_2 vs i) as [v Hv]; [lia|]. rewrite Hv. by rewrite list_insert_id.
Qed.

Lemma entries_hit h n i :
  arrays_ok n -> (i < num_keys n)%nat ->
  exists l r, entries (S h) n = l ++ ((keys n).[i], value_at n i) :: r /\
    forall v,
    entries (S h) (BNode (keys n) (<[i := v]> (values n)) (children n) (num_keys n) (is_leaf n))
    = l ++ ((keys n).[i], v) :: r.
Proof.
  intros Ha Hi. destruct (entries_entry h n i Ha Hi) as (l & r & E). exists l, r.
  split; [|done]. rewrite <- E. by rewrite <- value_insert_self.
Qed.

Lemma wf_set_values h hi n vs :
  wf_node h hi n -> length vs = BTREE_MAX_KEYS ->
  wf_node h hi (BNode (keys n) vs (children n) (num_keys n) (is_leaf n)).
Proof.
  intros H Hl. pose proof (wf_arrays _ _ _ H) as [? ? ? ?].
  destruct h; destruct H as [_ H]; (split; [by constructor|exact H]).
Qed.

(** ** Order of the keys of a node *)

Lemma sorted_sublist (l1 l2 : list Z) :
  sublist l1 l2 -> StronglySorted Z.lt l2 -> StronglySorted Z.lt l1.
Proof.
  induction 1 as [|k l1 l2 Hs IH|k l1 l2 Hs IH]; [done| |]; intros [H1 H2]%StronglySorted_inv.
  - constructor; [by apply IH|]. clear IH H1.
    induction Hs; [done|inversion_clear H2; constructor; auto|inversion_clear H2; auto].
  - by apply IH.
Qed.

Lemma ordered_sublist (l1 l2 : list entry) : sublist l1 l2 -> ordered l2 -> ordered l1.
Proof.
  intros Hs. apply sorted_sublist.
  induction Hs; [apply sublist_nil|by apply sublist_skip|by apply sublist_cons].
Qed.

Lemma weave_sublist (cs : list (list entry)) es :
  length cs = S (length es) -> sublist es (weave cs es).
Proof.
  destruct cs as [|c cs]; [done|]. intros H. injection H as H. simpl.
  apply sublist_inserts_l. revert cs H. induction es as [|e es IH]; intros [|c' cs] H; try done.
  unfold afters in *. simpl. apply sublist_skip, sublist_inserts_l, IH. simpl in H. lia.
Qed.

Lemma live_sublist h n : arrays_ok n -> sublist (live n) (entries h n).
Proof.
  intros Ha. destruct h as [|h]; [done|]. rewrite entries_S.
  apply weave_sublist. by rewrite length_kids, length_live.
Qed.

Lemma live_ordered h n : arrays_ok n -> ordered (entries h n) -> ordered (live n).
Proof. intros Ha. by apply ordered_sublist, live_sublist. Qed.

Lemma ordered_lookup (l : list entry) i j a b :
  ordered l -> l !! i = Some a -> l !! j = Some b -> (i < j)%nat -> fst a < fst b.
Proof.
  intros Ho Hi Hj Hij. rewrite <- (take_drop_middle l i a Hi) in Ho.
  apply ordered_mid in Ho as [_ Ho]. unfold all_gt in Ho. rewrite Forall_forall in Ho. apply Ho.
  apply list_elem_of_lookup. exists (j - S i)%nat. rewrite lookup_drop.
  rewrite <- Hj. f_equal. lia.
Qed.

Lemma keys_lt h n i j :
  arrays_ok n -> ordered (entries h n) -> (i < j < num_keys n)%nat -> (keys n).[i] < (keys n).[j].
Proof.
  intros Ha Ho Hij. apply live_ordered in Ho; [|done].
  by apply (ordered_lookup _ i j ((keys n).[i], value_at n i) ((keys n).[j], value_at n j) Ho);
    [apply live_lookup; [done|lia]|apply live_lookup; [done|lia]|lia].
Qed.

(** ** Splitting a full child *)

Lemma zip_take {A B} k (l : list A) (l' : list B) : zip (take k l) (take k l') = take k (zip l l').
Proof. symmetry. apply zip_with_take. Qed.

Lemma live_full (n : node) :
  arrays_ok n -> num_keys n = BTREE_MAX_KEYS -> live n = zip (keys n) (values n).
Proof. intros [H1 H2 _ _] E. unfold live. rewrite E, !take_ge by lia. done. Qed.

Lemma kids_full h (n : node) :
  arrays_ok n -> num_keys n = BTREE_MAX_KEYS -> kids h n = map (kid h) (children n).
Proof.
  intros [_ _ H3 _] E. unfold kids. rewrite E, take_ge; [done|]. rewrite H3. reflexivity.
Qed.

Lemma live_split_left n :
  arrays_ok n -> num_keys n = BTREE_MAX_KEYS -> live (split_left n) = take MID (live n).
Proof. intros Ha E. rewrite (live_full n) by done. unfold live. simpl. by rewrite zip_take. Qed.

Lemma kids_split_left h n :
  arrays_ok n -> num_keys n = BTREE_MAX_KEYS -> kids h (split_left n) = take (S MID) (kids h n).
Proof. intros Ha E. rewrite (kids_full h n) by done. unfold kids. cbn [split_left num_keys children]. by rewrite firstn_map. Qed.

Lemma take_blit_0 {A} k (dst src : list A) :
  length src = k -> take k (blit dst 0 src) = src.
Proof. intros <-. unfold blit. simpl. by rewrite take_app_length. Qed.

Lemma live_split_right n :
  arrays_ok n -> num_keys n = BTREE_MAX_KEYS -> live (split_right n) = drop (S MID) (live n).
Proof.
  intros Ha E. pose proof Ha as [H1 H2 H3 H4]. rewrite (live_full n) by done. unfold live.
  cbn [split_right num_keys keys values]. rewrite E, zip_with_drop.
  change (BTREE_MAX_KEYS - MID - 1)%nat with 31%nat. change (MID + 1)%nat with 32%nat.
  change (S MID) with 32%nat.
  rewrite !(take_ge (drop _ _)) by (rewrite length_drop, ?H1, ?H2; reflexivity).
  f_equal.
  - apply take_blit_0. by rewrite length_drop, H1.
  - apply take_blit_0. by rewrite length_drop, H2.
Qed.

Lemma kids_split_right h n :
  arrays_ok n -> num_keys n = BTREE_MAX_KEYS -> is_leaf n = false ->
  kids h (split_right n) = drop (S MID) (kids h n).
Proof.
  intros Ha E Hl. pose proof Ha as [H1 H2 H3 H4]. rewrite (kids_full h n) by done. unfold kids.
  cbn [split_right num_keys children]. rewrite Hl, E, skipn_map. f_equal.
  change (BTREE_MAX_KEYS - MID - 1)%nat with 31%nat. change (MID + 1)%nat with 32%nat.
  change (S MID) with 32%nat.
  rewrite !(take_ge (drop _ _)) by (rewrite length_drop, ?H3; reflexivity).
  apply take_blit_0. by rewrite length_drop, H3.
Qed.

Lemma entries_split h hi n :
  wf_node h hi n -> num_keys n = BTREE_MAX_KEYS ->
  entries h n =
    entries h (split_left n) ++ ((keys n).[MID], value_at n MID) :: entries h (split_right n).
Proof.
  intros Hw E. pose proof (wf_arrays _ _ _ Hw) as Ha. pose proof (wf_leaf _ _ _ Hw) as Hl.
  assert (live n !! MID = Some ((keys n).[MID], value_at n MID)) as Hm
    by (apply live_lookup; [done|rewrite E; vm_compute; lia]).
  destruct h as [|h].
  - cbn [entries]. rewrite live_split_left, live_split_right by done.
    by rewrite take_drop_middle.
  - rewrite !entries_S, live_split_left, live_split_right, kids_split_left, kids_split_right by done.
    destruct (lookup_lt_is_Some_2 (kids h n) MID) as [c Hc];
      [rewrite length_kids, E by done; vm_compute; lia|].
    rewrite (take_S_r _ _ _ Hc).
    rewrite <- (take_drop MID (kids h n)) at 1. rewrite (drop_S _ _ _ Hc).
    rewrite <- (take_drop_middle (live n) MID _ Hm) at 1.
    assert (length (take MID (kids h n)) = length (take MID (live n))) as HL.
    { rewrite !length_take, length_kids, length_live, E by done. by vm_compute. }
    rewrite weave_entry; [|done|].
    2: { intros C. apply (f_equal length) in C. rewrite length_drop, length_kids, E in C by done.
         by vm_compute in C. }
    f_equal. rewrite <- (app_nil_r (take MID (live n))) at 2.
    rewrite weave_child by done. unfold afters. simpl. by rewrite app_nil_r.
Qed.

Lemma MID_lt : (MID < BTREE_MAX_KEYS)%nat.
Proof. vm_compute. lia. Qed.

Lemma arrays_split_left n : arrays_ok n -> arrays_ok (split_left n).
Proof. intros [? ? ? ?]. constructor; simpl; try done. pose proof MID_lt. lia. Qed.

Lemma arrays_split_right n :
  arrays_ok n -> num_keys n = BTREE_MAX_KEYS -> arrays_ok (split_right n).
Proof.
  intros [H1 H2 H3 H4] E. constructor; cbn [split_right keys values children num_keys]; rewrite ?E.
  - rewrite length_blit; [reflexivity|]. rewrite length_take, length_drop, H1. vm_compute; lia.
  - rewrite length_blit; [reflexivity|]. rewrite length_take, length_drop, H2. vm_compute; lia.
  - destruct (is_leaf n); [reflexivity|].
    rewrite length_blit; [reflexivity|]. rewrite length_take, length_drop, H3. vm_compute; lia.
  - vm_compute. lia.
Qed.

Lemma split_left_wf h hi n :
  wf_node h hi n -> num_keys n = BTREE_MAX_KEYS -> ordered (entries h n) ->
  wf_node h (Some (keys n).[MID]) (split_left n).
Proof.
  intros Hw E Ho. pose proof (wf_arrays _ _ _ Hw) as Ha. pose proof MID_lt.
  destruct h as [|h]; (split; [by apply arrays_split_left|]); [apply Hw|].
  destruct Hw as (_ & Hl & _ & Hc). split_and!; [done| |].
  - intros j Hj. right. cbn [split_left num_keys keys] in *.
    destruct (decide (j = MID)) as [->|]; [lia|].
    apply Z.lt_le_incl. apply (keys_lt (S h)); [done|done|lia].
  - intros i Hi. simpl in Hi. destruct (Hc i) as (c & Hci & Hwc); [lia|].
    exists c. split; [done|]. revert Hwc. unfold child_hi. simpl.
    rewrite (decide_True (P := (i < num_keys n)%nat)) by lia. case_decide; [done|].
    by replace i with MID by lia.
Qed.

Lemma blit_0_lookup {A} (dst src : list A) i :
  (i < length src)%nat -> blit dst 0 src !! i = src !! i.
Proof. intros H. unfold blit. simpl. by rewrite lookup_app_l. Qed.

Lemma split_right_key n i :
  arrays_ok n -> num_keys n = BTREE_MAX_KEYS -> (i < num_keys (split_right n))%nat ->
  (keys (split_right n)).[i] = (keys n).[S MID + i].
Proof.
  intros [H1 H2 H3 H4] E Hi. cbn [split_right num_keys keys] in *. rewrite E in *.
  change (BTREE_MAX_KEYS - MID - 1)%nat with 31%nat in *. change (MID + 1)%nat with 32%nat.
  rewrite !nth_lookup_total_0. rewrite take_ge by (rewrite length_drop, H1; done).
  rewrite blit_0_lookup by (rewrite length_drop, H1; done). by rewrite lookup_drop.
Qed.

Lemma split_right_stale n j :
  arrays_ok n -> num_keys n = BTREE_MAX_KEYS -> (num_keys (split_right n) <= j)%nat ->
  (keys (split_right n)).[j] = 0.
Proof.
  intros [H1 H2 H3 H4] E Hj. cbn [split_right num_keys keys] in *. rewrite E in *.
  unfold blit. rewrite take_0, app_nil_l, Nat.add_0_l.
  set (l := take _ _). assert (length l = BTREE_MAX_KEYS - MID - 1)%nat as Hl
    by (unfold l; rewrite length_take, length_drop, H1; reflexivity).
  rewrite app_nth2 by lia. unfold btree_create_node. cbn [keys].
  rewrite nth_lookup_total_0, lookup_drop.
  destruct (replicate BTREE_MAX_KEYS 0 !! (length l + (j - length l))%nat) eqn:E'; [|done].
  apply lookup_replicate in E' as [-> _]. done.
Qed.

Lemma split_right_wf h hi n :
  wf_node h hi n -> num_keys n = BTREE_MAX_KEYS -> wf_node h hi (split_right n).
Proof.
  intros Hw E. pose proof (wf_arrays _ _ _ Hw) as Ha. pose proof Ha as [H1 H2 H3 H4].
  destruct h as [|h]; (split; [by apply arrays_split_right|]); [apply Hw|].
  destruct Hw as (_ & Hl & _ & Hc). split_and!; [done| |].
  - intros j [Hj _]. left. by apply split_right_stale.
  - intros i Hi. assert (i <= 31)%nat as Hi' by (cbn [split_right num_keys] in Hi; rewrite E in Hi; done).
    destruct (Hc (32 + i)%nat) as (c & Hci & Hwc); [rewrite E; unfold BTREE_MAX_KEYS, BTREE_ORDER; lia|].
    exists c. apply child_at_lookup in Hci. split.
    + apply child_at_lookup. cbn [split_right children]. rewrite Hl, E.
      change (BTREE_MAX_KEYS - MID - 1)%nat with 31%nat. change (MID + 1)%nat with 32%nat.
      rewrite take_ge by (rewrite length_drop, H3; done).
      rewrite blit_0_lookup by (rewrite length_drop, H3; unfold BTREE_ORDER; lia).
      by rewrite lookup_drop.
    + revert Hwc. unfold child_hi. case_decide as Hd1; case_decide as Hd2.
      * rewrite split_right_key by done. done.
      * exfalso. cbn [split_right num_keys] in Hd2. rewrite E in *.
        unfold BTREE_MAX_KEYS, BTREE_ORDER, MID in *. simpl in *. lia.
      * exfalso. cbn [split_right num_keys] in Hd2. rewrite E in *.
        unfold BTREE_MAX_KEYS, BTREE_ORDER, MID in *. simpl in *. lia.
      * done.
Qed.

Lemma lookup_cons_S {A} (x : A) l j : (x :: l) !! S j = l !! j.
Proof. reflexivity. Qed.

Lemma lookup_insert_shift {A} (l : list A) i n x j :
  (i <= n)%nat -> (n < length l)%nat ->
  <[i := x]> (shift_up l i (n - i)) !! j =
    if decide (j < i)%nat then l !! j
    else if decide (j = i) then Some x
    else if decide (j <= n)%nat then l !! (j - 1)%nat else l !! j.
Proof.
  intros Hi Hn. rewrite insert_shift_up by done. repeat case_decide.
  - rewrite lookup_app_l by len. by rewrite lookup_take_lt by lia.
  - subst. rewrite lookup_app_r by len. rewrite length_take.
    by replace (i - _)%nat with 0%nat by lia.
  - rewrite lookup_app_r by len. rewrite length_take.
    replace (j - _)%nat with (S (j - S i)) by lia. rewrite lookup_cons_S.
    rewrite lookup_app_l by len. rewrite lookup_drop, lookup_take_lt by lia. f_equal. lia.
  - rewrite lookup_app_r by len. rewrite length_take.
    replace (j - _)%nat with (S (j - S i)) by lia. rewrite lookup_cons_S.
    rewrite lookup_app_r by len. rewrite lookup_drop, length_drop, length_take. f_equal. lia.
Qed.

Lemma nth_insert_shift (l : list Z) i n x j :
  (i <= n)%nat -> (n < length l)%nat ->
  (<[i := x]> (shift_up l i (n - i))).[j] =
    if decide (j < i)%nat then l.[j]
    else if decide (j = i) then x
    else if decide (j <= n)%nat then l.[j - 1] else l.[j].
Proof.
  intros Hi Hn. rewrite nth_lookup_total_0, lookup_insert_shift by done.
  repeat case_decide; by rewrite ?nth_lookup_total_0.
Qed.

(** The parent after child [i], split in two, has been stored. *)
Definition split_parent (n : node) (i : nat) (c : node) : node :=
  BNode (<[i := (keys c).[MID]]> (shift_up (keys n) i (num_keys n - i)))
    (<[i := value_at c MID]> (shift_up (values n) i (num_keys n - i)))
    (<[i := Some (split_left c)]>
       (<[(i + 1)%nat := Some (split_right c)]>
          (shift_up (children n) (i + 1) (num_keys n - i))))
    (num_keys n + 1) (is_leaf n).

Lemma split_child_parent n i c :
  child_at n i = Some c -> btree_split_child n i = Done (split_parent n i c).
Proof. unfold btree_split_child. by intros ->. Qed.

Lemma arrays_split_parent n i c :
  arrays_ok n -> (num_keys n < BTREE_MAX_KEYS)%nat -> arrays_ok (split_parent n i c).
Proof.
  intros [? ? ? ?] H. constructor; cbn [split_parent keys values children num_keys];
    rewrite ?length_insert, ?length_shift_up; try done. lia.
Qed.

Lemma children_split_parent n i c j :
  arrays_ok n -> (num_keys n < BTREE_MAX_KEYS)%nat -> (i <= num_keys n)%nat ->
  children (split_parent n i c) !! j =
    if decide (j < i)%nat then children n !! j
    else if decide (j = i) then Some (Some (split_left c))
    else if decide (j = S i) then Some (Some (split_right c))
    else if decide (j <= S (num_keys n))%nat then children n !! (j - 1)%nat
    else children n !! j.
Proof.
  intros [? ? H ?] Hn Hi. cbn [split_parent children].
  assert (S (num_keys n) < length (children n))%nat
    by (rewrite H; unfold BTREE_MAX_KEYS in *; lia).
  destruct (decide (j = i)) as [->|Hj].
  - rewrite list_lookup_insert_eq by (rewrite length_insert, length_shift_up; lia).
    by rewrite decide_False by lia.
  - rewrite list_lookup_insert_ne by done.
    replace (num_keys n - i)%nat with (S (num_keys n) - (i + 1))%nat by lia.
    rewrite lookup_insert_shift by lia. repeat case_decide; try done; lia.
Qed.

Lemma keys_split_parent n i c j :
  arrays_ok n -> (num_keys n < BTREE_MAX_KEYS)%nat -> (i <= num_keys n)%nat ->
  (keys (split_parent n i c)).[j] =
    if decide (j < i)%nat then (keys n).[j]
    else if decide (j = i) then (keys c).[MID]
    else if decide (j <= num_keys n)%nat then (keys n).[j - 1] else (keys n).[j].
Proof. intros [H ? ? ?] Hn Hi. cbn [split_parent keys]. apply nth_insert_shift; lia. Qed.

Lemma live_split_parent n i c :
  arrays_ok n -> (num_keys n < BTREE_MAX_KEYS)%nat -> (i <= num_keys n)%nat ->
  live (split_parent n i c) =
    take i (live n) ++ ((keys c).[MID], value_at c MID) :: drop i (live n).
Proof.
  intros [H1 H2 ? ?] Hn Hi. unfold live. cbn [split_parent keys values num_keys].
  rewrite Nat.add_1_r, !take_insert_shift by lia.
  rewrite zip_with_app by (rewrite !length_take; lia). simpl.
  by rewrite !zip_with_take, !zip_with_drop.
Qed.

Lemma kids_split_parent h n i c :
  arrays_ok n -> (num_keys n < BTREE_MAX_KEYS)%nat -> (i <= num_keys n)%nat ->
  kids h (split_parent n i c) =
    take i (kids h n) ++ entries h (split_left c) :: entries h (split_right c) ::
    drop (S i) (kids h n).
Proof.
  intros Ha Hn Hi. pose proof Ha as [? ? H ?]. apply list_eq. intros j.
  unfold kids at 1. rewrite list_lookup_fmap, lookup_take.
  cbn [split_parent num_keys]. fold (split_parent n i c).
  assert (E : forall j, (j <= num_keys n)%nat -> kids h n !! j = kid h <$> children n !! j).
  { intros j' Hj'. unfold kids. rewrite list_lookup_fmap, lookup_take_lt by lia. done. }
  pose proof (length_kids h n Ha) as HL.
  change (children (BNode _ _ ?x _ _)) with x.
  destruct (decide (j < i)%nat) as [?|].
  { rewrite lookup_app_l by len. rewrite lookup_take_lt by lia.
    rewrite decide_True, children_split_parent, decide_True by (done || lia). rewrite E by lia. done. }
  rewrite lookup_app_r by len. rewrite length_take, HL.
  replace (j - _)%nat with (j - i)%nat by lia.
  destruct (decide (j = i)) as [->|].
  { rewrite decide_True, children_split_parent, decide_False, decide_True by (done || lia).
    by rewrite Nat.sub_diag. }
  destruct (decide (j = S i)) as [->|].
  { rewrite decide_True, children_split_parent, !decide_False, decide_True by (done || lia).
    by replace (S i - i)%nat with 1%nat by lia. }
  replace (j - i)%nat with (S (S (j - i - 2))) by lia. rewrite !lookup_cons_S.
  rewrite lookup_drop. replace (S i + (j - i - 2))%nat with (j - 1)%nat by lia.
  case_decide.
  - rewrite children_split_parent, !decide_False, decide_True by (done || lia).
    rewrite E by lia. done.
  - symmetry. simpl. apply lookup_ge_None_2. lia.
Qed.

Lemma entries_split_parent h hi n i c :
  wf_node (S h) hi n -> (num_keys n < BTREE_MAX_KEYS)%nat -> (i <= num_keys n)%nat ->
  child_at n i = Some c -> num_keys c = BTREE_MAX_KEYS ->
  entries (S h) (split_parent n i c) = entries (S h) n.
Proof.
  intros Hw Hn Hi Hc Hf. pose proof (wf_arrays _ _ _ Hw) as Ha.
  destruct Hw as (_ & _ & _ & Hcs). destruct (Hcs i Hi) as (c' & Hc' & Hwc).
  rewrite Hc in Hc'. injection Hc' as <-.
  rewrite (entries_child h n i c), (entries_split _ _ _ Hwc) by done.
  rewrite entries_S, live_split_parent, kids_split_parent by done.
  rewrite weave_child by (rewrite !length_take, length_live, length_kids by done; lia).
  unfold pre, suf. rewrite <- !app_assoc. done.
Qed.

Lemma wf_split_parent h hi n i c :
  wf_node (S h) hi n -> (num_keys n < BTREE_MAX_KEYS)%nat -> (i <= num_keys n)%nat ->
  child_at n i = Some c -> num_keys c = BTREE_MAX_KEYS -> ordered (entries (S h) n) ->
  wf_node (S h) hi (split_parent n i c).
Proof.
  intros Hw Hn Hi Hc Hf Ho. pose proof (wf_arrays _ _ _ Hw) as Ha.
  destruct Hw as (_ & Hl & Hs & Hcs). destruct (Hcs i Hi) as (c' & Hc' & Hwc).
  rewrite Hc in Hc'. injection Hc' as <-.
  assert (ordered (entries h c)) as Hoc.
  { rewrite (entries_child h n i c) in Ho by done.
    apply ordered_app in Ho as (_ & Ho & _). apply ordered_app in Ho as (Ho & _). done. }
  split; [by apply arrays_split_parent|]. split_and!; [done| |].
  - intros j Hj. change (num_keys (split_parent n i c)) with (num_keys n + 1)%nat in Hj.
    rewrite keys_split_parent by done.
    rewrite !decide_False by lia. apply Hs. lia.
  - intros j Hj. change (num_keys (split_parent n i c)) with (num_keys n + 1)%nat in Hj.
    assert (forall d, child_at (split_parent n i c) j = Some d <->
              children (split_parent n i c) !! j = Some (Some d)) as Hch by (intros; apply child_at_lookup).
    setoid_rewrite Hch. rewrite children_split_parent by done.
    unfold child_hi. change (num_keys (split_parent n i c)) with (num_keys n + 1)%nat.
    rewrite keys_split_parent by done. repeat case_decide; try lia.
    + destruct (Hcs j) as (d & Hd & Hwd); [lia|]. apply child_at_lookup in Hd.
      exists d. split; [done|]. unfold child_hi in Hwd. by rewrite decide_True in Hwd by lia.
    + eexists. split; [done|]. eapply split_left_wf; done.
    + subst j. eexists. split; [done|]. apply split_right_wf; [|done].
      unfold child_hi in Hwc. rewrite decide_True in Hwc by lia.
      by replace (S i - 1)%nat with i by lia.
    + eexists. split; [done|]. apply split_right_wf; [|done].
      unfold child_hi in Hwc. by rewrite decide_False in Hwc by lia.
    + destruct (Hcs (j - 1)%nat) as (d & Hd & Hwd); [lia|]. apply child_at_lookup in Hd.
      exists d. split; [done|]. unfold child_hi in Hwd. by rewrite decide_True in Hwd by lia.
    + destruct (Hcs (j - 1)%nat) as (d & Hd & Hwd); [lia|]. apply child_at_lookup in Hd.
      exists d. split; [done|]. unfold child_hi in Hwd. by rewrite decide_False in Hwd by lia.
Qed.

(** ** Inserting *)

Definition nonneg (l : list entry) : Prop := Forall (fun e => 0 <= fst e) l.

Lemma keys_nonneg h n i :
  arrays_ok n -> nonneg (entries h n) -> (i < num_keys n)%nat -> 0 <= (keys n).[i].
Proof.
  intros Ha Hn Hi. pose proof (live_sublist h n Ha) as Hs.
  pose proof (live_lookup n i Ha Hi) as Hlk. apply list_elem_of_lookup_2 in Hlk.
  unfold nonneg in Hn. rewrite Forall_forall in Hn.
  apply sublist_submseteq in Hs. apply (elem_of_submseteq _ _ _ Hlk) in Hs. by apply Hn in Hs.
Qed.

Lemma live_insert hi n key v :
  arrays_ok n -> (num_keys n < BTREE_MAX_KEYS)%nat ->
  key ∉ take (num_keys n) (keys n) -> ordered (live n) -> is_leaf n = true ->
  wf_node 0 hi (leaf_insert n key v) /\
  entries 0 (leaf_insert n key v) = put key (Some v) (live n).
Proof.
  intros Ha Hn Hk Ho Hl. pose proof Ha as [H1 H2 H3 H4].
  unfold leaf_insert. rewrite leaf_shift_spec by lia.
  destruct (upper_slot_spec (keys n) (num_keys n) key) as (Hi & Hgt & Hle).
  set (i := upper_slot (num_keys n) (keys n) key) in *. clearbody i.
  assert (forall j, (j < num_keys n)%nat -> (keys n).[j] <> key) as Hne.
  { intros j Hj E. apply Hk. apply list_elem_of_lookup. exists j.
    rewrite lookup_take_lt by done. rewrite nth_lookup_total_0 in E.
    destruct (lookup_lt_is_Some_2 (keys n) j) as [k' Hk']; [lia|]. rewrite Hk' in *. simpl in E. by subst. }
  set (n' := BNode (<[i := key]> (shift_up (keys n) i (num_keys n - i)))
               (<[i := Some v]> (shift_up (values n) i (num_keys n - i)))
               (children n) (num_keys n + 1) (is_leaf n)).
  assert (arrays_ok n') as Ha'.
  { constructor; cbn [n' keys values children num_keys]; rewrite ?length_insert, ?length_shift_up; lia. }
  enough (wf_node 0 hi n' /\ entries 0 n' = put key (Some v) (live n)) as Hg.
  { destruct i as [|i]; [exact Hg|].
    rewrite (proj2 (Z.eqb_neq _ _)); [exact Hg|].
    rewrite nth_lookup_total_0, shift_up_spec by lia.
    rewrite lookup_app_l by len. rewrite lookup_take_lt by lia. rewrite <- nth_lookup_total_0.
    apply Hne. lia. }
  split; [by split|]. cbn [entries]. unfold live at 1. cbn [n' keys values num_keys].
  rewrite Nat.add_1_r, !take_insert_shift by lia.
  rewrite zip_with_app by (rewrite !length_take; lia). cbn [zip_with].
  rewrite <- (zip_with_take pair i (take _ _)), <- (zip_with_drop pair i (take _ _)).
  fold (live n). rewrite <- (take_drop i (live n)) at 3.
  rewrite put_app_lt, put_gt; [done| |].
  - destruct (decide (i < num_keys n)%nat) as [Hlt|];
      [|rewrite drop_ge; [constructor|rewrite length_live by done; lia]].
    rewrite <- (take_drop i (live n)) in Ho. rewrite (drop_S _ _ _ (live_lookup n i Ha Hlt)) in *.
    apply ordered_mid in Ho as [_ Ho]. specialize (Hgt i ltac:(lia)).
    constructor; [done|]. eapply all_gt_trans; [done|simpl; lia].
  - destruct i as [|i]; [constructor|]. assert (i < num_keys n)%nat as Hlt by lia.
    rewrite <- (take_drop i (live n)) in Ho. rewrite (drop_S _ _ _ (live_lookup n i Ha Hlt)) in Ho.
    apply ordered_mid in Ho as [Ho _]. specialize (Hle ltac:(lia)). specialize (Hne i Hlt).
    replace (S i - 1)%nat with i in Hle by lia. simpl in Ho.
    rewrite (take_S_r _ _ _ (live_lookup n i Ha Hlt)). apply Forall_app.
    split; [eapply all_lt_trans; [done|lia]|]. constructor; [simpl; lia|done].
Qed.

(** Storing a key that a leaf already holds: the loop has shifted the entries
    after it by one place and [num_keys] is not increased, so that the last
    key is lost. *)
Lemma leaf_reinsert n i v :
  arrays_ok n -> ordered (live n) -> (S (S i) < num_keys n < BTREE_MAX_KEYS)%nat ->
  exists n', leaf_insert n (keys n).[i] v = n' /\ is_leaf n' = is_leaf n /\
    (num_keys n' <= length (keys n'))%nat /\
    (keys n).[num_keys n - 1] ∉ take (num_keys n') (keys n').
Proof.
  intros Ha Ho Hi. pose proof Ha as [H1 H2 H3 H4]. unfold leaf_insert.
  rewrite leaf_shift_spec by lia.
  assert (upper_slot (num_keys n) (keys n) (keys n).[i] = S i) as ->.
  { destruct (upper_slot_spec (keys n) (num_keys n) (keys n).[i]) as (Hj & Hgt & Hle).
    set (j := upper_slot _ _ _) in *. clearbody j.
    destruct (decide (j <= i)%nat); [specialize (Hgt i ltac:(lia)); lia|].
    destruct (decide (j = S i)) as [|]; [done|]. specialize (Hle ltac:(lia)).
    pose proof (keys_lt 0 n i (j - 1) Ha Ho ltac:(lia)). lia. }
  rewrite nth_shift_up, decide_True, Z.eqb_refl by lia.
  eexists. split_and!; [done|done|cbn [num_keys keys]; rewrite length_shift_up; lia|].
  cbn [num_keys keys]. intros (j & [Hj Hlt]%lookup_take_Some)%list_elem_of_lookup.
  apply (f_equal (default 0)) in Hj. rewrite <- nth_lookup_total_0, nth_shift_up in Hj by lia.
  simpl in Hj. repeat case_decide; try lia.
  - pose proof (keys_lt 0 n j (num_keys n - 1) Ha Ho ltac:(lia)). lia.
  - pose proof (keys_lt 0 n (j - 1) (num_keys n - 1) Ha Ho ltac:(lia)). lia.
Qed.

Lemma below_child_hi n i key hi :
  below key hi -> routes n i key -> below key (child_hi hi n i).
Proof. intros Hb (_ & _ & Hr). unfold child_hi. case_decide; [by apply Hr|done]. Qed.

(** What an insertion into a node of height [h] achieves. *)
Definition inserted (h : nat) (hi : option Z) (key : Z) (v : V) (n n' : node) : Prop :=
  wf_node h hi n' /\ entries h n' = put key (Some v) (entries h n).

Lemma inserted_hit h hi n i v :
  wf_node (S h) hi n -> ordered (entries (S h) n) -> (i < num_keys n)%nat ->
  inserted (S h) hi (keys n).[i] v n (set_value n i v).
Proof.
  intros Hw Ho Hi. pose proof (wf_arrays _ _ _ Hw) as Ha. pose proof Ha as [? ? ? ?].
  destruct (entries_hit h n i Ha Hi) as (l & r & E & Ev). split.
  - apply wf_set_values; [done|len].
  - unfold set_value. rewrite Ev, E in *. rewrite put_replace; [done|].
    by apply ordered_mid in Ho as [Ho _].
Qed.

Lemma inserted_child h hi n i c key v f :
  wf_node (S h) hi n -> ordered (entries (S h) n) -> routes n i key ->
  child_at n i = Some c ->
  (exists c', f c = Done c' /\ inserted h (child_hi hi n i) key v c c') ->
  exists n', update_child f n i = Done n' /\ inserted (S h) hi key v n n'.
Proof.
  intros Hw Ho Hr Hc (c' & Hf & Hwc & He). pose proof (wf_arrays _ _ _ Hw) as Ha.
  destruct (routes_bounds h n i c key Ha Hc Ho Hr) as (Hlt & Hgt & _). destruct Hr as (Hi & _).
  unfold update_child. rewrite Hc, Hf. eexists. split; [done|]. split.
  - by apply wf_set_child.
  - rewrite entries_set_child, (entries_child h n i c), He by done. by rewrite put_mid.
Qed.

(** The hypotheses under which an insertion succeeds. *)
Record insertable (h : nat) (hi : option Z) (key : Z) (n : node) : Prop := {
  ins_wf : wf_node h hi n;
  ins_ordered : ordered (entries h n);
  ins_nonneg : nonneg (entries h n);
  ins_below : below key hi;
  ins_fresh : key ∉ leaf_keys h n
}.

Lemma insertable_child h hi key n i c :
  insertable (S h) hi key n -> routes n i key -> child_at n i = Some c ->
  insertable h (child_hi hi n i) key c.
Proof.
  intros [Hw Ho Hn Hb Hf] Hr Hc. pose proof (wf_arrays _ _ _ Hw) as Ha.
  destruct (routes_bounds h n i c key Ha Hc Ho Hr) as (_ & _ & Hoc). pose proof Hr as (Hi & _).
  destruct Hw as (_ & _ & _ & Hcs). destruct (Hcs i Hi) as (d & Hd & Hwd).
  rewrite Hc in Hd. injection Hd as <-. constructor; [done|done| | |].
  - unfold nonneg in *. rewrite (entries_child h n i c) in Hn by done.
    apply Forall_app in Hn as [_ Hn]. apply Forall_app in Hn as [Hn _]. done.
  - by apply below_child_hi.
  - intros Hk. apply Hf. by eapply leaf_keys_child.
Qed.

Lemma leaf_keys_split_left h hi n k :
  wf_node h hi n -> num_keys n = BTREE_MAX_KEYS -> k ∈ leaf_keys h (split_left n) -> k ∈ leaf_keys h n.
Proof.
  intros Hw E. destruct h as [|h].
  - cbn [leaf_keys split_left num_keys keys]. rewrite E.
    intros (j & Hj)%list_elem_of_lookup. apply list_elem_of_lookup. exists j.
    apply lookup_take_Some in Hj as [Hj Hlt]. rewrite lookup_take_lt; [done|]. pose proof MID_lt. lia.
  - cbn [leaf_keys split_left num_keys children]. rewrite E.
    rewrite !list_elem_of_In, !in_concat. intros (l & (oc & <- & Hoc)%in_map_iff & Hk).
    exists (match oc with Some c => leaf_keys h c | None => [] end). split; [|done].
    apply in_map_iff. exists oc. split; [done|]. apply list_elem_of_In in Hoc. apply list_elem_of_In.
    apply list_elem_of_lookup in Hoc as [j Hj]. apply list_elem_of_lookup. exists j.
    apply lookup_take_Some in Hj as [Hj Hlt]. rewrite lookup_take_lt; [done|]. pose proof MID_lt. lia.
Qed.

Lemma leaf_keys_split_right h hi n k :
  wf_node h hi n -> num_keys n = BTREE_MAX_KEYS -> k ∈ leaf_keys h (split_right n) -> k ∈ leaf_keys h n.
Proof.
  intros Hw E. pose proof (wf_arrays _ _ _ Hw) as [H1 H2 H3 _]. pose proof (wf_leaf _ _ _ Hw) as Hl.
  destruct h as [|h].
  - cbn [leaf_keys split_right num_keys keys]. rewrite E, take_blit_0; cycle 1.
    { rewrite length_take, length_drop, H1. reflexivity. }
    rewrite (take_ge (keys n)) by lia. intros Hk.
    rewrite <- (take_drop (MID + 1) (keys n)). apply elem_of_app. right.
    rewrite <- (take_drop (BTREE_MAX_KEYS - MID - 1)). apply elem_of_app. by left.
  - cbn [leaf_keys split_right num_keys children]. rewrite Hl, E, take_blit_0; cycle 1.
    { rewrite length_take, length_drop, H3. reflexivity. }
    rewrite (take_ge (children n)) by (rewrite H3; done). intros Hk.
    rewrite <- (take_drop (MID + 1) (children n)), map_app, concat_app. apply elem_of_app. right.
    rewrite <- (take_drop (BTREE_MAX_KEYS - MID - 1 + 1) (drop (MID + 1) (children n))), map_app, concat_app.
    apply elem_of_app. by left.
Qed.

Lemma leaf_keys_S h n k :
  k ∈ leaf_keys (S h) n -> exists i c, (i <= num_keys n)%nat /\ child_at n i = Some c /\ k ∈ leaf_keys h c.
Proof.
  cbn [leaf_keys]. rewrite list_elem_of_In, in_concat. intros (l & (oc & <- & Hoc)%in_map_iff & Hk).
  apply list_elem_of_In, list_elem_of_lookup in Hoc as [j Hj].
  apply lookup_take_Some in Hj as [Hj Hlt]. destruct oc as [c|]; [|done].
  exists j, c. split_and!; [lia|by apply child_at_lookup|by apply list_elem_of_In].
Qed.

Lemma insertable_split h hi key n i c :
  insertable (S h) hi key n -> (num_keys n < BTREE_MAX_KEYS)%nat -> (i <= num_keys n)%nat ->
  child_at n i = Some c -> num_keys c = BTREE_MAX_KEYS ->
  insertable (S h) hi key (split_parent n i c).
Proof.
  intros [Hw Ho Hn Hb Hf] Hlt Hi Hc Hfull. pose proof (wf_arrays _ _ _ Hw) as Ha.
  constructor; [by apply wf_split_parent|by erewrite entries_split_parent..|done|].
  intros (j & d & Hj & Hd & Hk)%leaf_keys_S. apply Hf.
  change (num_keys (split_parent n i c)) with (num_keys n + 1)%nat in Hj.
  destruct Hw as (_ & _ & _ & Hcs). destruct (Hcs i Hi) as (c' & Hc' & Hwc).
  rewrite Hc in Hc'. injection Hc' as <-.
  apply child_at_lookup in Hd. rewrite children_split_parent in Hd by done.
  repeat case_decide; try lia; simplify_eq.
  - eapply leaf_keys_child; [by apply child_at_lookup|lia|done].
  - eapply leaf_keys_child; [done|lia|]. by eapply leaf_keys_split_left.
  - eapply leaf_keys_child; [done|lia|]. by eapply leaf_keys_split_right.
  - eapply leaf_keys_child; [by apply child_at_lookup|lia|done].
Qed.

Lemma routes_split n i c key :
  arrays_ok n -> (num_keys n < BTREE_MAX_KEYS)%nat -> routes n i key -> (keys c).[MID] <> key ->
  routes (split_parent n i c) (if (keys c).[MID] <? key then S i else i) key.
Proof.
  intros Ha Hn (Hi & Hl & Hr) Hne. unfold routes.
  change (num_keys (split_parent n i c)) with (num_keys n + 1)%nat.
  rewrite !keys_split_parent by done.
  destruct (Z.ltb_spec (keys c).[MID] key); split_and!; intros; repeat case_decide; try lia.
  replace (S i - 1)%nat with i by lia. apply Hr. lia.
Qed.

Lemma roomy_split_left h n : (h = O \/ num_keys n = BTREE_MAX_KEYS) -> roomy h n -> roomy h (split_left n).
Proof.
  destruct h as [|h]; [done|]. intros [?|E]; [done|]. intros [_ H]. split; [by vm_compute|].
  intros i c Hi Hc. apply (H i); [|done]. cbn [split_left num_keys] in Hi. pose proof MID_lt. lia.
Qed.

Lemma roomy_split_right h hi n :
  wf_node h hi n -> num_keys n = BTREE_MAX_KEYS -> roomy h n -> roomy h (split_right n).
Proof.
  intros Hw E. pose proof (wf_arrays _ _ _ Hw) as [H1 H2 H3 _]. pose proof (wf_leaf _ _ _ Hw) as Hl.
  destruct h as [|h]; [done|]. intros [_ H]. split.
  { cbn [split_right num_keys]. rewrite E. by vm_compute. }
  intros i c Hi Hc. cbn [split_right num_keys] in Hi. rewrite E in Hi.
  change (BTREE_MAX_KEYS - MID - 1)%nat with 31%nat in Hi.
  apply (H (32 + i)%nat); [rewrite E; unfold BTREE_MAX_KEYS, BTREE_ORDER; lia|].
  apply child_at_lookup in Hc. apply child_at_lookup. cbn [split_right children] in Hc.
  rewrite Hl, E in Hc. rewrite blit_0_lookup in Hc.
  - rewrite lookup_take_Some, lookup_drop in Hc. apply Hc.
  - rewrite length_take, length_drop, H3. unfold BTREE_ORDER, BTREE_MAX_KEYS, MID in *. simpl. lia.
Qed.

Lemma roomy_split h hi n i c :
  wf_node (S h) hi n -> (num_keys n < BTREE_MAX_KEYS)%nat -> (i <= num_keys n)%nat ->
  child_at n i = Some c -> num_keys c = BTREE_MAX_KEYS -> roomy (S h) n ->
  forall j d, (j = i \/ j = S i) -> child_at (split_parent n i c) j = Some d ->
  roomy h d /\ (num_keys d < BTREE_MAX_KEYS)%nat.
Proof.
  intros Hw Hn Hi Hc Hf [_ Hr] j d Hj Hd. pose proof (wf_arrays _ _ _ Hw) as Ha.
  destruct Hw as (_ & _ & _ & Hcs). destruct (Hcs i Hi) as (c' & Hc' & Hwc).
  rewrite Hc in Hc'. injection Hc' as <-. specialize (Hr i c Hi Hc).
  apply child_at_lookup in Hd. rewrite children_split_parent in Hd by done.
  destruct Hj as [-> | ->]; repeat case_decide; try lia; simplify_eq.
  - split; [apply roomy_split_left; [by right|done]|]. apply MID_lt.
  - split; [by eapply roomy_split_right|]. cbn [split_right num_keys]. rewrite Hf. vm_compute. lia.
Qed.

Lemma upper_slot_routes n key :
  (key =? (keys n).[upper_slot (num_keys n) (keys n) key - 1]) = false \/
    upper_slot (num_keys n) (keys n) key = O ->
  routes n (upper_slot (num_keys n) (keys n) key) key.
Proof.
  destruct (upper_slot_spec (keys n) (num_keys n) key) as (Hi & Hgt & Hle). intros H.
  split_and!; [done| |intros; apply Hgt; lia].
  intros Hp. specialize (Hle Hp). destruct H as [H%Z.eqb_neq|H]; lia.
Qed.

(** The key re-read after a split is not [key]: it is a larger live key or a
    stale cell of the array. *)
Lemma split_recheck h hi key n i :
  insertable (S h) hi key n -> (i < num_keys n)%nat -> (S i < BTREE_MAX_KEYS)%nat ->
  routes n (if (keys n).[i] <? key then S i else i) key ->
  exists k, keys n !! (if (keys n).[i] <? key then S i else i) = Some k /\ key <> k.
Proof.
  intros [Hw _ Hnn Hb _] Hi HS Hr. pose proof (wf_arrays _ _ _ Hw) as Ha.
  pose proof Ha as [Hk _ _ _]. pose proof (keys_nonneg (S h) n i Ha Hnn Hi) as H0.
  set (i' := if (keys n).[i] <? key then S i else i) in *.
  destruct (lookup_lt_is_Some_2 (keys n) i') as [k Ek].
  { rewrite Hk. unfold i'. destruct (_ <? _); lia. }
  exists k. split; [done|]. assert (k = (keys n).[i']) as -> by (by rewrite nth_lookup_total_0, Ek).
  destruct (decide (i' < num_keys n)%nat) as [Hl|Hl].
  - pose proof (proj2 (proj2 Hr) Hl). lia.
  - assert (i' = S i /\ (keys n).[i] < key) as [E' ?].
    { unfold i' in *. destruct (Z.ltb_spec (keys n).[i] key); [done|lia]. }
    destruct Hw as (_ & _ & Hst & _). destruct (Hst i') as [E0|E0]; [lia|lia|].
    unfold below in Hb. destruct hi as [b|]; [lia|done].
Qed.

Lemma insert_nonfull_spec h hi n key v :
  insertable h hi key n -> roomy h n -> (num_keys n < BTREE_MAX_KEYS)%nat ->
  exists n', btree_insert_nonfull (S h) n key v = Done n' /\ inserted h hi key v n n'.
Proof.
  revert hi n. induction h as [|h IH]; intros hi n Hins Hroom Hlt;
    pose proof Hins as [Hw Ho Hnn Hb Hf]; pose proof (wf_arrays _ _ _ Hw) as Ha.
  { cbn [btree_insert_nonfull]. rewrite (wf_leaf _ _ _ Hw). eexists. split; [done|].
    apply live_insert; try done. apply (wf_leaf _ _ _ Hw). }
  remember (S h) as h1. cbn [btree_insert_nonfull]. subst h1. rewrite (wf_leaf _ _ _ Hw).
  pose proof (upper_slot_routes n key) as Hroutes.
  destruct (upper_slot_spec (keys n) (num_keys n) key) as (Hi & _ & _).
  set (i := upper_slot (num_keys n) (keys n) key) in *. clearbody i.
  destruct ((0 <? i)%nat && ((keys n).[i - 1] =? key)) eqn:Ehit.
  { apply andb_prop in Ehit as [H0 <-%Z.eqb_eq]. eexists. split; [done|].
    apply inserted_hit; [done|done|lia]. }
  assert (routes n i key) as Hr.
  { apply Hroutes. destruct i; [by right|]. left. simpl in Ehit. by rewrite Z.eqb_sym. }
  destruct (proj2 (proj2 (proj2 Hw)) i Hi) as (c & Hc & Hwc). rewrite Hc.
  destruct (Nat.eqb_spec (num_keys c) BTREE_MAX_KEYS) as [Hfull|Hnf].
  2: { eapply inserted_child; [done..|]. apply IH; [by eapply insertable_child| |].
       - by eapply (proj2 Hroom).
       - pose proof (wf_arrays _ _ _ Hwc) as [_ _ _ ?]. lia. }
  rewrite (split_child_parent _ _ _ Hc).
  pose proof (insertable_split _ _ _ _ _ _ Hins Hlt Hi Hc Hfull) as Hins1.
  pose proof (roomy_split _ _ _ _ _ Hw Hlt Hi Hc Hfull Hroom) as Hroom1.
  destruct Hroom as [H62 _].
  pose proof (routes_split n i c key Ha Hlt Hr) as Hr1.
  pose proof (keys_split_parent n i c i Ha Hlt Hi) as Hki.
  rewrite decide_False, decide_True in Hki by lia.
  pose proof (entries_split_parent h hi n i c Hw Hlt Hi Hc Hfull) as Ee.
  assert (num_keys (split_parent n i c) = num_keys n + 1)%nat as Enk by done.
  set (n1 := split_parent n i c) in *. clearbody n1.
  pose proof Hins1 as [Hw1 Ho1 Hnn1 _ _]. pose proof (wf_arrays _ _ _ Hw1) as Ha1.
  pose proof Ha1 as [Hk1 _ _ _].
  destruct (lookup_lt_is_Some_2 (keys n1) i) as [ki Eki]; [lia|]. rewrite Eki.
  assert (ki = (keys n1).[i]) as Eki' by (by rewrite nth_lookup_total_0, Eki).
  rewrite Eki', Hki. unfold inserted. rewrite <- Ee. fold (inserted (S h) hi key v n1).
  destruct (Z.eqb_spec (keys c).[MID] key) as [Emid|Nmid].
  { rewrite Emid, Z.ltb_irrefl, Eki, Eki', Hki, Emid, Z.eqb_refl. eexists. split; [done|].
    rewrite <- Emid, <- Hki. apply inserted_hit; [done|done|lia]. }
  specialize (Hr1 Nmid). rewrite <- Hki in Hr1.
  destruct (split_recheck h hi key n1 i Hins1) as (ki' & Eki1 & Nki');
    [unfold BTREE_MAX_KEYS, BTREE_ORDER in *; lia..|done|].
  rewrite <- Hki. set (i' := if (keys n1).[i] <? key then S i else i) in *.
  assert (i' = i \/ i' = S i) as Hi' by (unfold i'; destruct (_ <? _); tauto).
  rewrite Eki1, (proj2 (Z.eqb_neq _ _)) by done.
  destruct (proj2 (proj2 (proj2 Hw1)) i' (proj1 Hr1)) as (d & Hd & Hwd).
  eapply inserted_child; [done..|]. apply IH; [by eapply insertable_child| |]; by apply (Hroom1 i').
Qed.

(** A full root is split under a new root. *)
Definition grown (r : node) : node := set_child (btree_create_node false) 0 r.

Lemma grown_child r : child_at (grown r) 0 = Some r.
Proof. reflexivity. Qed.

Lemma grown_arrays r : arrays_ok (grown r).
Proof. constructor; by vm_compute; lia. Qed.

Lemma grown_entries h r : entries (S h) (grown r) = entries h r.
Proof.
  rewrite (entries_child h _ 0 r (grown_arrays r)) by done.
  change O with (num_keys (grown r)) at 2. rewrite suf_end by apply grown_arrays.
  by rewrite app_nil_r.
Qed.

Lemma insertable_grown h key r :
  insertable h None key r -> insertable (S h) None key (grown r).
Proof.
  intros [Hw Ho Hn Hb Hf]. constructor; rewrite ?grown_entries; try done.
  - split; [apply grown_arrays|]. split_and!; [done| |].
    + intros j Hj. left. change (keys (grown r)) with (replicate BTREE_MAX_KEYS 0).
      rewrite nth_lookup_total_0, lookup_replicate_2 by lia. done.
    + intros i Hi. change (num_keys (grown r)) with O in Hi. replace i with O by lia. by exists r.
  - intros (i & c & Hi & Hc & Hk)%leaf_keys_S. change (num_keys (grown r)) with O in Hi.
    replace i with O in Hc by lia. rewrite grown_child in Hc. by injection Hc as <-.
Qed.

Lemma insert_root_spec h r key v :
  insertable h None key r -> roomy h r ->
  exists r', btree_insert_root r key v = Done r' /\
    exists h', wf_node h' None r' /\ entries h' r' = put key (Some v) (entries h r).
Proof.
  intros Hins Hroom. pose proof Hins as [Hw Ho _ _ _]. pose proof (wf_arrays _ _ _ Hw) as [_ _ _ Hle].
  unfold btree_insert_root. rewrite (depth_wf _ _ _ Hw).
  destruct (Nat.eqb_spec (num_keys r) BTREE_MAX_KEYS) as [Hfull|Hnf].
  2: { destruct (insert_nonfull_spec h None r key v Hins Hroom) as (r' & E & H'); [lia|].
       exists r'. split; [done|]. by exists h. }
  change (set_child (btree_create_node false) 0 r) with (grown r).
  rewrite (split_child_parent _ _ _ (grown_child r)).
  pose proof (insertable_grown _ _ _ Hins) as Hg. pose proof (grown_arrays r) as Hga.
  assert (0 < BTREE_MAX_KEYS)%nat as Hp by (vm_compute; lia).
  pose proof (ins_wf _ _ _ _ Hg) as Hgw.
  pose proof (insertable_split _ _ _ _ 0 r Hg Hp ltac:(done) (grown_child r) Hfull) as Hs.
  assert (roomy (S h) (grown r)) as Hgr.
  { split; [done|]. intros i c Hi Hc. change (num_keys (grown r)) with O in Hi.
    replace i with O in Hc by lia. rewrite grown_child in Hc. by injection Hc as <-. }
  pose proof (roomy_split _ _ _ _ _ Hgw Hp ltac:(done) (grown_child r) Hfull Hgr) as Hr1.
  assert ((keys (split_parent (grown r) 0 r)).[0] = (keys r).[MID]) as Hk0
    by (by rewrite keys_split_parent).
  pose proof (entries_split_parent h None (grown r) 0 r Hgw Hp ltac:(done) (grown_child r) Hfull) as Ee.
  rewrite grown_entries in Ee.
  pose proof (routes_split (grown r) 0 r key Hga Hp) as Hroute.
  rewrite Hk0, <- Ee. set (n1 := split_parent (grown r) 0 r) in *.
  enough (exists n', (if key =? (keys r).[MID] then Done (set_value n1 0 v)
    else update_child (fun c => btree_insert_nonfull (S h) c key v) n1
           (if (keys r).[MID] <? key then 1%nat else 0%nat)) = Done n' /\
    inserted (S h) None key v n1 n') as (n' & E & H1 & H2).
  { exists n'. split; [done|]. by exists (S h). }
  destruct Hs as [Hsw Hso Hsn Hsb Hsf].
  destruct (Z.eqb_spec key (keys r).[MID]) as [->|Hne].
  { eexists. split; [done|]. rewrite <- Hk0. apply inserted_hit; [done|done|vm_compute; lia]. }
  assert (routes n1 (if (keys r).[MID] <? key then 1%nat else 0%nat) key) as Hrt.
  { apply Hroute; [|congruence]. split_and!; [done|lia|]. change (num_keys (grown r)) with O. lia. }
  set (i := if (keys r).[MID] <? key then 1%nat else 0%nat) in *.
  assert (i = 0%nat \/ i = 1%nat) as Hi by (unfold i; destruct (_ <? _); tauto).
  destruct (proj2 (proj2 (proj2 Hsw)) i (proj1 Hrt)) as (d & Hd & Hwd).
  eapply inserted_child; [done..|].
  apply insert_nonfull_spec; [by eapply insertable_child; [constructor|..]| |]; by apply (Hr1 i).
Qed.

(** ** Searching *)

Lemma slot_routes h n key :
  arrays_ok n -> ordered (entries h n) -> hit n (slot n key) key = false -> routes n (slot n key) key.
Proof.
  intros [H1 _ _ H4] _ Hh. unfold slot in *.
  destruct (lower_bound_spec (take (num_keys n) (keys n)) key) as (Hl & Hlt & Hge).
  set (i := lower_bound _ key) in *. clearbody i. rewrite length_take, H1 in Hl, Hge.
  assert (forall j, (j < num_keys n)%nat -> (take (num_keys n) (keys n)).[j] = (keys n).[j]) as Et.
  { intros j Hj. by rewrite !nth_lookup_total_0, lookup_take_lt. }
  split_and!; [lia| |].
  - intros H0. rewrite <- Et by lia. apply Hlt. lia.
  - intros H0. specialize (Hge ltac:(lia)). rewrite Et in Hge by done.
    unfold hit in Hh. rewrite (proj2 (Nat.ltb_lt _ _)) in Hh by done. simpl in Hh.
    apply Z.eqb_neq in Hh. lia.
Qed.

Lemma get_hit (l r : list entry) k v : ordered (l ++ (k, v) :: r) -> get k (l ++ (k, v) :: r) = v.
Proof.
  intros [H _]%ordered_mid. rewrite get_app_lt by done. simpl. by rewrite Z.eqb_refl.
Qed.

(** A hit in any node, and what changing its value does. *)
Lemma hit_entries h hi n i key :
  wf_node h hi n -> hit n i key = true ->
  (i < num_keys n)%nat /\ key = (keys n).[i] /\
  exists l r, entries h n = l ++ (key, value_at n i) :: r.
Proof.
  intros Hw [Hi%Nat.ltb_lt ->%Z.eqb_eq]%andb_prop. pose proof (wf_arrays _ _ _ Hw) as Ha.
  split_and!; [done|done|]. destruct h as [|h].
  - exists (take i (live n)), (drop (S i) (live n)). cbn [entries].
    by rewrite take_drop_middle by (by apply live_lookup).
  - destruct (entries_hit h n i Ha Hi) as (l & r & E & _). eauto.
Qed.

(** A miss in a leaf: no entry has the key. *)
Lemma leaf_miss hi n key :
  wf_node 0 hi n -> ordered (live n) -> hit n (slot n key) key = false -> key ∉ keys_of (live n).
Proof.
  intros Hw Ho Hh. pose proof (wf_arrays _ _ _ Hw) as Ha.
  destruct (slot_routes 0 n key Ha Ho Hh) as (Hi & Hl & Hr). set (i := slot n key) in *. clearbody i.
  intros (j & Hj)%list_elem_of_lookup. unfold keys_of in Hj.
  rewrite list_lookup_fmap in Hj. destruct (live n !! j) as [e|] eqn:E; [|done].
  simpl in Hj. injection Hj as Hj.
  pose proof (lookup_lt_Some _ _ _ E) as Hjn. rewrite length_live in Hjn by done.
  rewrite live_lookup in E by done. injection E as <-. simpl in Hj. subst key.
  destruct (decide (j < i)%nat).
  - specialize (Hl ltac:(lia)). destruct (decide (j = i - 1)%nat) as [->|]; [lia|].
    pose proof (keys_lt 0 n j (i - 1) Ha Ho ltac:(lia)). lia.
  - specialize (Hr ltac:(lia)). destruct (decide (j = i)) as [->|]; [lia|].
    pose proof (keys_lt 0 n i j Ha Ho ltac:(lia)). lia.
Qed.

Lemma search_node_spec h hi n key :
  wf_node h hi n -> ordered (entries h n) ->
  btree_search_node (S h) n key = Done (get key (entries h n)).
Proof.
  revert hi n. induction h as [|h IH]; intros hi n Hw Ho; pose proof (wf_arrays _ _ _ Hw) as Ha;
    cbn [btree_search_node]; rewrite (wf_leaf _ _ _ Hw);
    destruct (hit n (slot n key) key) eqn:Hh.
  1,3: destruct (hit_entries _ _ _ _ _ Hw Hh) as (_ & _ & l & r & E); rewrite E in Ho |- *;
       by rewrite get_hit.
  - f_equal. symmetry. apply get_None. by eapply leaf_miss.
  - pose proof (slot_routes (S h) n key Ha Ho Hh) as Hr.
    destruct (proj2 (proj2 (proj2 Hw)) _ (proj1 Hr)) as (c & Hc & Hwc).
    destruct (routes_bounds h n _ c key Ha Hc Ho Hr) as (Hlt & Hgt & Hoc).
    rewrite Hc. fold (btree_search_node (V := V)). cbn [btree_search_node] in IH.
    rewrite (entries_child h n _ c Ha (proj1 Hr) Hc), get_mid by done. by eapply IH.
Qed.

(** ** Deleting *)

(** [l'] is [l] with the entry of [key] removed, or its value nulled. *)
Definition erased (key : Z) (l l' : list entry) : Prop :=
  exists a v b, l = a ++ (key, v) :: b /\ (l' = a ++ b \/ l' = a ++ (key, None) :: b).

Lemma erased_mid key a l l' b : erased key l l' -> erased key (a ++ l ++ b) (a ++ l' ++ b).
Proof.
  intros (x & v & y & -> & [-> | ->]); exists (a ++ x), v, (y ++ b);
    rewrite <- !app_assoc; simpl; (split; [done|]); [by left|by right].
Qed.

Lemma erased_sublist_keys key l l' : erased key l l' -> sublist (keys_of l') (keys_of l).
Proof.
  intros (x & v & y & -> & [-> | ->]); rewrite !keys_of_app; apply sublist_app; try done; simpl.
  by apply sublist_cons.
Qed.

Lemma erased_ordered key l l' : erased key l l' -> ordered l -> ordered l'.
Proof. intros H%erased_sublist_keys. by apply sorted_sublist. Qed.

Lemma get_skip (x y : list entry) k key v :
  k <> key -> get k (x ++ (key, v) :: y) = get k (x ++ y).
Proof.
  intros Hk. induction x as [|[k0 v0] x IH]; simpl; [by rewrite (proj2 (Z.eqb_neq _ _))|].
  by rewrite IH.
Qed.

Lemma erased_get key l l' k :
  erased key l l' -> ordered l -> get k l' = if k =? key then None else get k l.
Proof.
  intros (x & v & y & -> & H) Ho. pose proof (ordered_mid _ _ _ Ho) as [Hx Hy]. simpl in *.
  destruct (Z.eqb_spec k key) as [->|Hk].
  - destruct H as [-> | ->]; rewrite get_app_lt by done; [by apply get_gt|].
    simpl. by rewrite Z.eqb_refl.
  - destruct H as [-> | ->]; by rewrite !get_skip.
Qed.

Lemma leaf_delete_spec hi n i :
  wf_node 0 hi n -> (i < num_keys n)%nat ->
  wf_node 0 hi (leaf_delete n i) /\
  live (leaf_delete n i) = take i (live n) ++ drop (S i) (live n).
Proof.
  intros [Ha Hl] Hi. pose proof Ha as [H1 H2 H3 H4]. set (cnt := (num_keys n - 1 - i)%nat).
  destruct (shift_down_take (keys n) i cnt) as [Ek Lk]; [unfold cnt; lia|].
  destruct (shift_down_take (values n) i cnt) as [Ev Lv]; [unfold cnt; lia|].
  split.
  - split; [|done]. constructor; cbn [leaf_delete keys values children num_keys]; fold cnt; lia.
  - unfold live. cbn [leaf_delete keys values num_keys]. fold cnt.
    replace (num_keys n - 1)%nat with (i + cnt)%nat by (unfold cnt; lia).
    rewrite Ek, Ev, zip_with_app by (rewrite !length_take; lia).
    rewrite zip_with_take, zip_with_drop, !take_take, !skipn_firstn_comm.
    rewrite !(Nat.min_l i) by lia. by replace (num_keys n - S i)%nat with cnt by (unfold cnt; lia).
Qed.

Lemma not_in_keys_lt (l : list entry) k : all_lt l k \/ all_gt l k -> k ∉ keys_of l.
Proof.
  intros H (e & -> & He)%list_elem_of_fmap. unfold all_lt, all_gt in H. rewrite !Forall_forall in H.
  destruct H as [H|H]; specialize (H e He); lia.
Qed.

Lemma delete_node_spec h hi n key :
  wf_node h hi n -> ordered (entries h n) ->
  (key ∉ keys_of (entries h n) /\ btree_delete_node (S h) n key = Done None) \/
  (exists n', btree_delete_node (S h) n key = Done (Some n') /\
     wf_node h hi n' /\ erased key (entries h n) (entries h n')).
Proof.
  revert hi n. induction h as [|h IH]; intros hi n Hw Ho; pose proof (wf_arrays _ _ _ Hw) as Ha;
    cbn [btree_delete_node]; rewrite (wf_leaf _ _ _ Hw);
    destruct (hit n (slot n key) key) eqn:Hh.
  - right. destruct (hit_entries _ _ _ _ _ Hw Hh) as (Hi & Ekey & _).
    set (i := slot n key) in *. clearbody i. subst key.
    destruct (leaf_delete_spec hi n i Hw Hi) as [Hw' E]. exists (leaf_delete n i).
    split; [done|]. split; [done|].
    cbn [entries]. rewrite E. eexists _, _, _. split; [|by left].
    symmetry. apply take_drop_middle. by apply live_lookup.
  - left. split; [by eapply leaf_miss|done].
  - right. destruct (hit_entries _ _ _ _ _ Hw Hh) as (Hi & Ekey & _).
    set (i := slot n key) in *. clearbody i. subst key.
    destruct (entries_hit h n _ Ha Hi) as (l & r & E & Ev).
    pose proof (wf_set_values (S h) hi n (<[i := None]> (values n)) Hw) as Hwv.
    rewrite (wf_leaf _ _ _ Hw) in Ev, Hwv. eexists. split; [done|]. split.
    + apply Hwv. destruct Ha as [? ? ? ?]. len.
    + rewrite Ev. eexists _, _, _. split; [exact E|by right].
  - pose proof (slot_routes (S h) n key Ha Ho Hh) as Hr.
    destruct (proj2 (proj2 (proj2 Hw)) _ (proj1 Hr)) as (c & Hc & Hwc). rewrite Hc.
    destruct (routes_bounds h n _ c key Ha Hc Ho Hr) as (Hlt & Hgt & Hoc).
    fold (btree_delete_node (V := V)).
    destruct (IH _ _ Hwc Hoc) as [[Hn E]|(c' & E & Hw' & He)]; cbn [btree_delete_node] in E; rewrite E.
    + left. split; [|done]. rewrite (entries_child h n _ c Ha (proj1 Hr) Hc), !keys_of_app, !elem_of_app.
      pose proof (not_in_keys_lt (pre h n (slot n key)) key). 
      pose proof (not_in_keys_lt (suf h n (slot n key)) key). tauto.
    + right. eexists. split; [done|]. split.
      * apply wf_set_child; [done|apply Hr|done].
      * rewrite entries_set_child, (entries_child h n (slot n key) c) by (done || apply Hr). by apply erased_mid.
Qed.

(** ** Scanning *)

Section scan.
Context {A : Type} (callback : A -> Z -> V -> A).

Definition emit (acc : A) (e : entry) : A :=
  match snd e with Some v => callback acc (fst e) v | None => acc end.

Lemma visit_emit acc n i : visit callback acc n i = emit acc ((keys n).[i], value_at n i).
Proof. reflexivity. Qed.

Lemma suf_step h n i c :
  arrays_ok n -> (i < num_keys n)%nat -> child_at n (S i) = Some c ->
  suf h n i = ((keys n).[i], value_at n i) :: entries h c ++ suf h n (S i).
Proof.
  intros Ha Hi Hc. unfold suf. rewrite (drop_S _ _ _ (live_lookup n i Ha Hi)).
  rewrite (drop_S (kids h n) (entries h c) (S i)) by (apply kids_lookup; [done|lia]). done.
Qed.

Lemma scan_loop_leaf (down : A -> nat -> outcome A) n cnt i acc :
  arrays_ok n -> (forall a j, down a j = Done a) -> (i + cnt = num_keys n)%nat ->
  scan_loop callback down n cnt i acc = Done (foldl emit acc (drop i (live n))).
Proof.
  intros Ha Hd. revert i acc. induction cnt as [|cnt IH]; intros i acc H; cbn [scan_loop].
  - rewrite drop_ge by (rewrite length_live by done; lia). done.
  - rewrite Hd, IH by lia. rewrite (drop_S _ _ _ (live_lookup n i Ha ltac:(lia))). done.
Qed.

Lemma scan_loop_inner h hi (down : A -> nat -> outcome A) n cnt i acc :
  wf_node (S h) hi n -> (i + cnt = num_keys n)%nat ->
  (forall a j c, (j <= num_keys n)%nat -> child_at n j = Some c ->
     down a j = Done (foldl emit a (entries h c))) ->
  forall c, child_at n i = Some c ->
  match scan_loop callback down n cnt i acc with
  | Done acc => down acc (num_keys n)
  | o => o
  end = Done (foldl emit acc (entries h c ++ suf h n i)).
Proof.
  intros Hw Hn Hd. pose proof (wf_arrays _ _ _ Hw) as Ha. revert i acc Hn.
  induction cnt as [|cnt IH]; intros i acc Hn c Hc; cbn [scan_loop].
  - replace i with (num_keys n) in Hc |- * by lia.
    rewrite suf_end, app_nil_r by done. by apply Hd.
  - rewrite (Hd acc i c) by (done || lia).
    destruct (proj2 (proj2 (proj2 Hw)) (S i) ltac:(lia)) as (d & Hdc & _).
    rewrite (IH (S i) _ ltac:(lia) d Hdc), (suf_step h n i d) by (done || lia).
    by rewrite (foldl_app _ (entries h c)).
Qed.

Lemma scan_node_spec h hi n acc :
  wf_node h hi n ->
  btree_scan_node callback (S h) n acc = Done (foldl emit acc (entries h n)).
Proof.
  revert hi n acc. induction h as [|h IH]; intros hi n acc Hw; pose proof (wf_arrays _ _ _ Hw) as Ha.
  - cbn [btree_scan_node]. rewrite (wf_leaf _ _ _ Hw). by rewrite scan_loop_leaf.
  - remember (S h) as h1. cbn [btree_scan_node]. subst h1. rewrite (wf_leaf _ _ _ Hw).
    destruct (proj2 (proj2 (proj2 Hw)) 0%nat ltac:(lia)) as (c & Hc & _).
    pose (down a i := match child_at n i with
                      | Some c => btree_scan_node callback (S h) c a
                      | None => Done a
                      end).
    etransitivity; [apply (scan_loop_inner h hi down n (num_keys n) 0 acc Hw ltac:(lia))
                      with (c := c); [|done]|].
    2: by rewrite (entries_child h n 0 c) by (done || lia).
    intros a j d Hj Hd. unfold down. rewrite Hd.
    destruct (proj2 (proj2 (proj2 Hw)) j Hj) as (d' & Hd' & Hwd).
    rewrite Hd in Hd'. injection Hd' as <-. by eapply IH.
Qed.
End scan.
End contents.

(** ** Destruction *)

Section destruction.
Context {V : Type}.
#[local] Abbreviation node := (btree_node V).

(** The nodes of a tree of height [h], children before their parent. *)
Fixpoint nodes (h : nat) (n : node) : list node :=
  match h with
  | O => [n]
  | S h => concat (map (fun oc => match oc with Some c => nodes h c | None => [] end) (take (S (num_keys n)) (children n))) ++ [n]
  end.

Lemma destroy_loop_spec (n : node) down (f : option node -> list node) cnt i freed :
  (forall fr j, (j <= num_keys n)%nat -> exists oc, children n !! j = Some oc /\ down fr j = Done (fr ++ f oc)) -> (i + cnt = S (num_keys n))%nat ->
  destroy_loop down cnt i freed = Done (freed ++ concat (map f (drop i (take (S (num_keys n)) (children n))))).
Proof.
  intros Hd. revert i freed. induction cnt as [|cnt IH]; intros i freed Hi; cbn [destroy_loop].
  - rewrite drop_ge by (rewrite length_take; lia). cbn. by rewrite app_nil_r.
  - destruct (Hd freed i ltac:(lia)) as (oc & Hc & ->). rewrite IH by lia.
    rewrite (drop_S _ oc i) by (by rewrite lookup_take_lt by lia). cbn [map concat]. by rewrite app_assoc.
Qed.

Lemma destroy_node_spec h hi n freed : wf_node h hi n -> btree_destroy_node (S h) n freed = Done (freed ++ nodes h n).
Proof.
  revert hi n freed. induction h as [|h IH]; intros hi n freed Hw.
  - cbn [btree_destroy_node nodes]. by rewrite (wf_leaf _ _ _ Hw).
  - remember (S h) as h1. cbn [btree_destroy_node]. subst h1. rewrite (wf_leaf _ _ _ Hw).
    rewrite (destroy_loop_spec n _ (fun oc => match oc with Some c => nodes h c | None => [] end)); [|intros fr j Hj|lia].
    + rewrite drop_0. cbn [nodes]. by rewrite app_assoc.
    + destruct (proj2 (proj2 (proj2 Hw)) j Hj) as (c & Hc & Hwc). exists (Some c). split; [by apply child_at_lookup|].
      rewrite Hc. by eapply IH.
Qed.
End destruction.

(** Destroying a well-formed tree ends, and gives back each node once, children
    before their parent. *)
Theorem btree_destroy_frees {V} (t : btree V) h : wf_node h None (root t) ->
  btree_destroy t = Done (Destroyed (nodes h (root t)) None 0).
Proof. intros Hw. unfold btree_destroy. rewrite (depth_wf _ _ _ Hw), (destroy_node_spec _ _ _ _ Hw). done. Qed.

(** ** Where entries are, relative to a child *)

Lemma elem_of_befores {E} (cs : list (list E)) es j c e x :
  cs !! j = Some c -> es !! j = Some e -> x ∈ c \/ x = e -> x ∈ befores cs es.
Proof.
  intros Hc He Hx. unfold befores. apply list_elem_of_In, in_concat. exists (c ++ [e]). split.
  - apply list_elem_of_In, list_elem_of_lookup. exists j. apply lookup_zip_with_Some. eauto.
  - apply list_elem_of_In, elem_of_app. destruct Hx as [Hx| ->]; [by left|right; by left].
Qed.

Lemma elem_of_afters {E} (cs : list (list E)) es j c e x :
  cs !! j = Some c -> es !! j = Some e -> x ∈ c \/ x = e -> x ∈ afters es cs.
Proof.
  intros Hc He Hx. unfold afters. apply list_elem_of_In, in_concat. exists (e :: c). split.
  - apply list_elem_of_In, list_elem_of_lookup. exists j. apply lookup_zip_with_Some. eauto.
  - apply list_elem_of_In, elem_of_cons. destruct Hx as [Hx| ->]; [by right|by left].
Qed.

Section positions.
Context {V : Type}.
Abbreviation node := (btree_node V).

Lemma elem_of_pre h (n : node) i j c x :
  arrays_ok n -> (j < i <= num_keys n)%nat -> child_at n j = Some c ->
  x ∈ entries h c \/ x = ((keys n).[j], value_at n j) -> x ∈ pre h n i.
Proof.
  intros Ha Hj Hc Hx. unfold pre. eapply (elem_of_befores _ _ j); [| |exact Hx].
  - rewrite lookup_take_lt by lia. apply kids_lookup; [done|lia].
  - rewrite lookup_take_lt by lia. apply live_lookup; [done|lia].
Qed.

Lemma elem_of_suf h (n : node) i j c x :
  arrays_ok n -> (i <= j < num_keys n)%nat -> child_at n (S j) = Some c ->
  x ∈ entries h c \/ x = ((keys n).[j], value_at n j) -> x ∈ suf h n i.
Proof.
  intros Ha Hj Hc Hx. unfold suf. eapply (elem_of_afters _ _ (j - i)%nat); [| |exact Hx].
  - rewrite lookup_drop. replace (S i + (j - i))%nat with (S j) by lia. apply kids_lookup; [done|lia].
  - rewrite lookup_drop. replace (i + (j - i))%nat with j by lia. apply live_lookup; [done|lia].
Qed.

Lemma leaf_keys_entries h hi (n : node) k : wf_node h hi n -> k ∈ leaf_keys h n -> k ∈ keys_of (entries h n).
Proof.
  revert hi n. induction h as [|h IH]; intros hi n Hw Hk; pose proof (wf_arrays _ _ _ Hw) as Ha.
  - cbn [leaf_keys entries] in *. destruct Ha as [H1 H2 _ _]. unfold keys_of, live.
    rewrite fst_zip; [done|]. rewrite !length_take. lia.
  - apply leaf_keys_S in Hk as (i & c & Hi & Hc & Hk). destruct Hw as (_ & _ & _ & Hcs).
    destruct (Hcs i Hi) as (d & Hd & Hwd). rewrite Hc in Hd. injection Hd as <-.
    rewrite (entries_child h n i c Ha Hi Hc), !keys_of_app, !elem_of_app. right. left. by eapply IH.
Qed.

(** A key that routes to child [i] is in no other child. *)
Lemma routes_other h hi (n : node) i c key j d :
  wf_node (S h) hi n -> ordered (entries (S h) n) -> routes n i key -> child_at n i = Some c ->
  (j <= num_keys n)%nat -> j <> i -> child_at n j = Some d -> key ∉ keys_of (entries h d).
Proof.
  intros Hw Ho Hr Hc Hj Hne Hd Hk. pose proof (wf_arrays _ _ _ Hw) as Ha.
  destruct (routes_bounds h n i c key Ha Hc Ho Hr) as (Hlt & Hgt & _). pose proof Hr as (Hi & _).
  apply list_elem_of_fmap in Hk as (e & -> & He).
  destruct (decide (j < i)%nat).
  - unfold all_lt in Hlt. rewrite Forall_forall in Hlt.
    assert (e ∈ pre h n i) as Hin by (eapply elem_of_pre; eauto; lia). specialize (Hlt e Hin). lia.
  - unfold all_gt in Hgt. rewrite Forall_forall in Hgt.
    assert (e ∈ suf h n i) as Hin.
    { destruct j as [|j]; [lia|]. eapply elem_of_suf; eauto. lia. }
    specialize (Hgt e Hin). lia.
Qed.

(** A key held by an internal node is in none of its children. *)
Lemma live_key_other h hi (n : node) i j c :
  wf_node (S h) hi n -> ordered (entries (S h) n) -> (i < num_keys n)%nat ->
  (j <= num_keys n)%nat -> child_at n j = Some c -> (keys n).[i] ∉ keys_of (entries h c).
Proof.
  intros Hw Ho Hi Hj Hc Hk. pose proof (wf_arrays _ _ _ Hw) as Ha. destruct Hw as (_ & _ & _ & Hcs).
  rewrite (entries_child h n j c Ha Hj Hc) in Ho.
  apply list_elem_of_fmap in Hk as (e & Ee & He).
  apply ordered_app in Ho as (_ & Ho & Hpre). apply ordered_app in Ho as (_ & _ & Hsuf).
  destruct (decide (i < j)%nat).
  - destruct (Hcs i ltac:(lia)) as (d & Hd & _).
    assert (((keys n).[i], value_at n i) ∈ pre h n j) as Hin
      by (eapply (elem_of_pre h n j i d); [done|lia|done|by right]).
    specialize (Hpre _ e Hin ltac:(apply elem_of_app; by left)). simpl in Hpre. lia.
  - destruct (Hcs (S i) ltac:(lia)) as (d & Hd & _).
    assert (((keys n).[i], value_at n i) ∈ suf h n j) as Hin
      by (eapply (elem_of_suf h n j i d); [done|lia|done|by right]).
    specialize (Hsuf e _ He Hin). simpl in Hsuf. lia.
Qed.

Lemma roomy_set_child h (n : node) i c :
  arrays_ok n -> (i <= num_keys n)%nat -> roomy (S h) n -> roomy h c -> roomy (S h) (set_child n i c).
Proof.
  intros Ha Hi [Hn Hr] Hc. split; [done|]. intros j d Hj. rewrite child_at_set_child by done.
  case_decide; [by intros [= <-]|]. by apply Hr.
Qed.

(** After a deletion the key is in no leaf, and there is as much room. *)
Lemma delete_node_leaves h hi (n n' : node) key :
  wf_node h hi n -> ordered (entries h n) -> btree_delete_node (S h) n key = Done (Some n') ->
  key ∉ leaf_keys h n' /\ (roomy h n -> roomy h n').
Proof.
  revert hi n n'. induction h as [|h IH]; intros hi n n' Hw Ho; pose proof (wf_arrays _ _ _ Hw) as Ha;
    cbn [btree_delete_node]; rewrite (wf_leaf _ _ _ Hw); destruct (hit n (slot n key) key) eqn:Hh.
  - intros [= <-]. split; [|done]. destruct (hit_entries _ _ _ _ _ Hw Hh) as (Hi & Ekey & _).
    set (i := slot n key) in *. clearbody i. subst key.
    destruct (leaf_delete_spec hi n i Hw Hi) as [Hw' E]. intros Hk%(leaf_keys_entries 0 hi); [|done].
    cbn [entries] in Hk, Ho. rewrite E in Hk. apply ordered_NoDup in Ho.
    rewrite <- (take_drop_middle (live n) i _ (live_lookup n i Ha Hi)) in Ho.
    rewrite keys_of_app in Ho, Hk. apply NoDup_app in Ho as (_ & Ho1 & [Ho2 _]%NoDup_cons).
    apply elem_of_app in Hk as [Hk|Hk]; [|done]. apply (Ho1 _ Hk). by left.
  - done.
  - intros [= <-]. destruct (hit_entries _ _ _ _ _ Hw Hh) as (Hi & Ekey & _).
    set (i := slot n key) in *. clearbody i. subst key. split; [|done].
    intros (j & c & Hj & Hc & Hk)%leaf_keys_S. change (child_at n j = Some c) in Hc.
    destruct (proj2 (proj2 (proj2 Hw)) j Hj) as (d & Hd & Hwd). rewrite Hc in Hd. injection Hd as <-.
    eapply live_key_other; [done|done|done|exact Hj|done|]. by eapply leaf_keys_entries.
  - pose proof (slot_routes (S h) n key Ha Ho Hh) as Hr. pose proof Hr as (Hi & _).
    destruct (proj2 (proj2 (proj2 Hw)) _ Hi) as (c & Hc & Hwc). rewrite Hc.
    destruct (routes_bounds h n _ c key Ha Hc Ho Hr) as (_ & _ & Hoc).
    fold (btree_delete_node (V := V)).
    destruct (btree_delete_node (S h) c key) as [[c'|]| |] eqn:E; cbn [btree_delete_node] in E; rewrite E;
      try done. intros [= <-].
    destruct (IH _ _ _ Hwc Hoc E) as [Hk Hroom]. split.
    + intros (j & d & Hj & Hd & Hkd)%leaf_keys_S. rewrite child_at_set_child in Hd by done.
      case_decide as Ej; [by injection Hd as <-|].
      destruct (proj2 (proj2 (proj2 Hw)) j Hj) as (d' & Hd' & Hwd). rewrite Hd in Hd'. injection Hd' as <-.
      eapply (routes_other h hi n _ c key j d); eauto. by eapply leaf_keys_entries.
    + intros Hn. apply roomy_set_child; [done|done|done|]. apply Hroom. by apply (proj2 Hn _ _ Hi).
Qed.
End positions.

(** ** Trees as finite maps *)

Section refinement.
Context {V : Type}.
Abbreviation entry := (Z * option V)%type.

Definition tree_entries (t : btree V) : list entry := entries (depth (root t)) (root t).

Record wf_tree (t : btree V) : Prop := {
  wt_node : wf_node (depth (root t)) None (root t);
  wt_ordered : ordered (tree_entries t);
  wt_nonneg : nonneg (tree_entries t)
}.

Definition tree_leaf_keys (t : btree V) : list Z := leaf_keys (depth (root t)) (root t).
Definition tree_roomy (t : btree V) : Prop := roomy (depth (root t)) (root t).

(** The non-null bindings, in key order, and the map they form. *)
Definition bindings (l : list entry) : list (Z * V) :=
  omap (fun e => match snd e with Some v => Some (fst e, v) | None => None end) l.
Definition abs (t : btree V) : gmap Z V := list_to_map (bindings (tree_entries t)).

Lemma bindings_keys l : sublist (bindings l).*1 (keys_of l).
Proof.
  induction l as [|[k [v|]] l IH]; simpl; [done|by apply sublist_skip|by apply sublist_cons].
Qed.

Lemma bindings_lookup l k : ordered l -> (list_to_map (bindings l) : gmap Z V) !! k = get k l.
Proof.
  induction l as [|[k0 v0] l IH]; simpl; intros H; [apply lookup_empty|].
  apply ordered_cons in H as [Ho Hg]. specialize (IH Ho). destruct v0 as [v|]; simpl in *.
  - destruct (Z.eqb_spec k k0) as [->|]; [by rewrite lookup_insert_eq|].
    by rewrite lookup_insert_ne.
  - rewrite IH. destruct (Z.eqb_spec k k0) as [->|]; [by apply get_gt|done].
Qed.

Lemma abs_lookup t k : wf_tree t -> abs t !! k = get k (tree_entries t).
Proof. intros [_ Ho _]. by apply bindings_lookup. Qed.

(** An operation that keeps the node invariant and describes the new entries
    keeps the tree invariant. *)
Lemma wf_tree_intro (t : btree V) h :
  wf_node h None (root t) -> ordered (entries h (root t)) -> nonneg (entries h (root t)) ->
  wf_tree t /\ tree_entries t = entries h (root t).
Proof.
  intros Hw Ho Hn. pose proof (depth_wf _ _ _ Hw) as E. unfold tree_entries.
  split; [|by rewrite E]. constructor; unfold tree_entries; by rewrite E.
Qed.

Lemma put_nonneg (l : list entry) k v : nonneg l -> 0 <= k -> nonneg (put k v l).
Proof.
  intros H Hk. induction H as [|[k0 v0] l H0 Hl IH]; simpl; [by constructor|].
  destruct (k <? k0); [by repeat constructor|]. destruct (k =? k0); by constructor.
Qed.

Lemma erased_nonneg k (l l' : list entry) : erased k l l' -> nonneg l -> nonneg l'.
Proof.
  intros (a & v & b & -> & H) Hn. apply Forall_app in Hn as [Ha [Hk Hb]%Forall_cons].
  destruct H as [-> | ->]; apply Forall_app; (split; [done|]); [done|by constructor].
Qed.

Lemma wf_tree_init table_id : wf_tree (btree_init table_id) /\ abs (btree_init table_id) = ∅.
Proof.
  split; [|reflexivity]. constructor; [|constructor..].
  split; [|reflexivity]. constructor; by vm_compute; lia.
Qed.

Lemma foldl_emit {A} (callback : A -> Z -> V -> A) acc (l : list entry) :
  foldl (emit callback) acc l = foldl (fun a '(k, v) => callback a k v) acc (bindings l).
Proof.
  revert acc. induction l as [|[k [v|]] l IH]; intros acc; [done| |]; simpl; apply IH.
Qed.

Lemma tree_search (t : btree V) (key : Z) :
  wf_tree t -> btree_search t key = Done (abs t !! key).
Proof.
  intros Hwt. rewrite abs_lookup by done. destruct Hwt as [Hw Ho _].
  by eapply search_node_spec.
Qed.

Lemma tree_insert (t : btree V) (key : Z) (v : V) :
  wf_tree t -> tree_roomy t -> 0 <= key -> key ∉ tree_leaf_keys t ->
  exists t', btree_insert t key v = Done t' /\ wf_tree t' /\
    abs t' = <[key := v]> (abs t) /\ count t' = u64 (count t + 1) /\
    tree_entries t' = put key (Some v) (tree_entries t).
Proof.
  intros Hwt Hr Hk Hf. pose proof Hwt as [Hw Ho Hn].
  destruct (insert_root_spec (depth (root t)) (root t) key v) as (r' & E & h' & Hw' & He).
  { by constructor. } { done. }
  unfold btree_insert. rewrite E. eexists. split; [done|].
  edestruct (wf_tree_intro (BTree r' (u64 (count t + 1)) (bt_table_id t)) h') as [Hwt' Et].
  { done. } { simpl. rewrite He. by apply put_ordered. } { simpl. rewrite He. by apply put_nonneg. }
  split_and!; [done| |done|by rewrite Et]. apply map_eq. intros k.
  rewrite abs_lookup, Et by done. simpl. rewrite He, get_put by done.
  destruct (Z.eqb_spec k key) as [->|]; [by rewrite lookup_insert_eq|].
  rewrite lookup_insert_ne by done. by rewrite abs_lookup.
Qed.

Lemma tree_delete (t : btree V) (key : Z) :
  wf_tree t ->
  exists t' r, btree_delete t key = Done (t', r) /\ wf_tree t' /\ abs t' = delete key (abs t) /\
    (key ∈ keys_of (tree_entries t) /\ r = 0 /\ count t' = u64 (count t - 1) /\
       key ∉ tree_leaf_keys t' /\ (tree_roomy t -> tree_roomy t') /\
       erased key (tree_entries t) (tree_entries t') \/
     key ∉ keys_of (tree_entries t) /\ r = -1 /\ t' = t).
Proof.
  intros Hwt. pose proof Hwt as [Hw Ho Hn]. unfold btree_delete.
  destruct (delete_node_spec _ _ _ key Hw Ho) as [[Hk E]|(r' & E & Hw' & He)]; rewrite E.
  - exists t, (-1). split_and!; [done|done| |by right].
    symmetry. apply delete_id. rewrite abs_lookup by done. by apply get_None.
  - pose proof (erased_ordered _ _ _ He Ho) as Ho'. pose proof (erased_nonneg _ _ _ He Hn) as Hn'.
    edestruct (wf_tree_intro (BTree r' (u64 (count t - 1)) (bt_table_id t))) as [Hwt' Et]; [done..|].
    eexists _, 0. split; [done|]. split_and!; [done| |].
    + apply map_eq. intros k. rewrite abs_lookup, Et by done. simpl.
      rewrite (erased_get _ _ _ k He Ho).
      destruct (Z.eqb_spec k key) as [->|]; [by rewrite lookup_delete_eq|].
      rewrite lookup_delete_ne by done. by rewrite abs_lookup.
    + left. destruct (delete_node_leaves _ _ _ _ _ Hw Ho E) as [Hl Hr].
      pose proof (depth_wf _ _ _ Hw') as Ed.
      split_and!; [|done|done| | |by rewrite Et].
      * destruct He as (a & v & b & Ea & _). unfold tree_entries. rewrite Ea, keys_of_app.
        apply elem_of_app. right. by left.
      * unfold tree_leaf_keys. simpl. by rewrite Ed.
      * unfold tree_roomy. simpl. by rewrite Ed.
Qed.

(** C7: search refines map lookup.  In a well-formed tree [btree_search]
    terminates without a fault and returns exactly the value that the
    abstract map binds to the key, null when there is none. *)
Theorem btree_search_refines (t : btree V) (key : Z) :
  wf_tree t -> btree_search t key = Done (abs t !! key).
Proof. apply tree_search. Qed.

(** C1: insertion refines map insertion.  When no internal node is one key
    short of full and the key is in no leaf (it may sit, deleted or not, in an
    internal node), [btree_insert], with every split it makes on the way down,
    terminates without a fault, keeps the tree well formed, and adds exactly
    the new binding. *)
Theorem btree_insert_refines (t : btree V) (key : Z) (v : V) :
  wf_tree t -> tree_roomy t -> 0 <= key -> key ∉ tree_leaf_keys t ->
  exists t', btree_insert t key v = Done t' /\ wf_tree t' /\
    abs t' = <[key := v]> (abs t) /\ count t' = u64 (count t + 1).
Proof.
  intros Hwt Hr Hk Hf. destruct (tree_insert t key v Hwt Hr Hk Hf) as (t' & E & Hw & Ha & Hc & _).
  by exists t'.
Qed.

(** C8: deletion refines map deletion.  [btree_delete] on a well-formed tree
    keeps it well formed and removes exactly the binding of the key; it
    returns 0 and decrements [count] when the key is stored in a node, -1
    with the tree untouched otherwise. *)
Theorem btree_delete_refines (t : btree V) (key : Z) :
  wf_tree t ->
  exists t' r, btree_delete t key = Done (t', r) /\ wf_tree t' /\ abs t' = delete key (abs t) /\
    (key ∈ keys_of (tree_entries t) /\ r = 0 /\ count t' = u64 (count t - 1) \/
     key ∉ keys_of (tree_entries t) /\ r = -1 /\ t' = t).
Proof.
  intros Hwt. destruct (tree_delete t key Hwt) as (t' & r & E & Hw & Ha & H). exists t', r. tauto.
Qed.

Lemma tree_scan {A} (callback : A -> Z -> V -> A) (t : btree V) (acc : A) :
  wf_tree t ->
  exists l, btree_scan callback t acc = Done (foldl (fun a '(k, v) => callback a k v) acc l) /\
    StronglySorted Z.lt l.*1 /\ l ≡ₚ map_to_list (abs t).
Proof.
  intros [Hw Ho _]. exists (bindings (tree_entries t)). split_and!.
  - unfold btree_scan. by rewrite (scan_node_spec callback _ _ _ _ Hw), foldl_emit.
  - eapply sorted_sublist; [apply bindings_keys|exact Ho].
  - symmetry. apply map_to_list_to_map. eapply sublist_NoDup; [|apply bindings_keys].
    by apply ordered_NoDup.
Qed.

(** C9: a scan visits every binding once, in key order.  [btree_scan] folds
    the callback over a list that is sorted by key and is a permutation of
    the bindings of the abstract map (deleted entries are skipped). *)
Theorem btree_scan_refines {A} (callback : A -> Z -> V -> A) (t : btree V) (acc : A) :
  wf_tree t ->
  exists l, btree_scan callback t acc = Done (foldl (fun a '(k, v) => callback a k v) acc l) /\
    StronglySorted Z.lt l.*1 /\ l ≡ₚ map_to_list (abs t).
Proof. apply tree_scan. Qed.

Lemma depth_leaf (n : btree_node V) : is_leaf n = true -> depth n = O.
Proof. destruct n as [ks vs [|[c|] cs] nk lf]; by simpl; intros ->. Qed.

(** A leaf without the key answers null, ordered or not. *)
Lemma search_leaf_miss (n : btree_node V) fuel key :
  is_leaf n = true -> (num_keys n <= length (keys n))%nat -> key ∉ take (num_keys n) (keys n) ->
  btree_search_node (S fuel) n key = Done None.
Proof.
  intros Hl Hn Hk. cbn [btree_search_node]. rewrite Hl. destruct (hit n (slot n key) key) eqn:E; [|done].
  exfalso. apply andb_prop in E as [Hi%Nat.ltb_lt E%Z.eqb_eq]. apply Hk.
  apply list_elem_of_lookup. exists (slot n key). rewrite lookup_take_lt by done.
  destruct (lookup_lt_is_Some_2 (keys n) (slot n key)) as [x Hx]; [lia|].
  rewrite nth_lookup_total_0, Hx in E. simpl in E. by subst.
Qed.

(** Re-inserting a key corrupts a leaf.  In a tree whose root is a leaf
    with room left, inserting a key stored at a position with at least two
    keys after it makes the largest key, which was stored, unfindable: the
    entries are shifted before the duplicate is detected. *)
Theorem btree_reinsert_loses_key (t : btree V) (i : nat) (v : V) :
  wf_tree t -> is_leaf (root t) = true ->
  (S (S i) < num_keys (root t) < BTREE_MAX_KEYS)%nat ->
  (keys (root t)).[num_keys (root t) - 1] ∈ keys_of (tree_entries t) /\
  exists t', btree_insert t (keys (root t)).[i] v = Done t' /\
    btree_search t' (keys (root t)).[num_keys (root t) - 1] = Done None.
Proof.
  intros [Hw Ho _] Hl Hi. pose proof (wf_arrays _ _ _ Hw) as Ha. unfold tree_entries in *.
  rewrite (depth_leaf _ Hl) in *. set (n := root t) in *. split.
  { apply list_elem_of_fmap. eexists (_, _).
    split; [|eapply list_elem_of_lookup_2, live_lookup; [done|]]; [done|lia]. }
  destruct (leaf_reinsert n i v Ha Ho Hi) as (n' & E & Hl' & Hlen & Hn').
  unfold btree_insert, btree_insert_root. fold n.
  rewrite (proj2 (Nat.eqb_neq _ _)) by lia. cbn [btree_insert_nonfull]. rewrite Hl, E.
  eexists. split; [done|]. apply search_leaf_miss; simpl; [congruence|done|done].
Qed.
End refinement.

(** ** Witnesses *)

Ltac sample_wf :=
  constructor; [split; [constructor; vm_compute; lia|reflexivity]|by_compute|by_compute].

(** A root leaf with three keys, and one filled to capacity. *)
Definition small_tree : btree Z :=
  BTree (BNode ([10; 20; 30] ++ replicate 60 0) (map Some [1; 2; 3] ++ replicate 60 None)
           (replicate 64 None) 3 true) 3 0.
Definition full_tree : btree Z :=
  BTree (BNode (map Z.of_nat (seq 1 63)) (map (fun k => Some (Z.of_nat k)) (seq 1 63))
           (replicate 64 None) 63 true) 63 0.

Lemma small_tree_wf : wf_tree small_tree.
Proof. sample_wf. Qed.

Lemma full_tree_wf : wf_tree full_tree.
Proof. sample_wf. Qed.

Lemma btree_search_refines_witness : btree_search full_tree 40 = Done (abs full_tree !! 40).
Proof. apply btree_search_refines, full_tree_wf. Defined.

(** The insertion splits the root. *)
Lemma btree_insert_refines_witness :
  exists t', btree_insert full_tree 100 7 = Done t' /\ wf_tree t' /\
    abs t' = <[100 := 7]> (abs full_tree) /\ count t' = u64 (count full_tree + 1).
Proof. apply btree_insert_refines; [apply full_tree_wf|exact I|lia|by_compute]. Defined.

Lemma btree_delete_refines_witness :
  exists t' r, btree_delete full_tree 5 = Done (t', r) /\ wf_tree t' /\
    abs t' = delete 5 (abs full_tree) /\
    (5 ∈ keys_of (tree_entries full_tree) /\ r = 0 /\ count t' = u64 (count full_tree - 1) \/
     5 ∉ keys_of (tree_entries full_tree) /\ r = -1 /\ t' = full_tree).
Proof. apply btree_delete_refines, full_tree_wf. Defined.

Lemma btree_scan_refines_witness :
  exists l, btree_scan (fun acc k v => acc + k * v) small_tree 0 =
      Done (foldl (fun a '(k, v) => a + k * v) 0 l) /\
    StronglySorted Z.lt l.*1 /\ l ≡ₚ map_to_list (abs small_tree).
Proof. apply (btree_scan_refines (fun acc k v => acc + k * v)), small_tree_wf. Defined.

Lemma btree_reinsert_loses_key_witness :
  30 ∈ keys_of (tree_entries small_tree) /\
  exists t', btree_insert small_tree 10 9 = Done t' /\ btree_search t' 30 = Done None.
Proof.
  apply (btree_reinsert_loses_key small_tree 0 9 small_tree_wf eq_refl). vm_compute. lia.
Defined.

(** ** The capacity of one root *)

Definition ascending (n : nat) : list (Z * Z) :=
  map (fun k => (Z.of_nat k, Z.of_nat k)) (seq 1 n).

Definition overrun_after (n : nat) : bool :=
  match insert_all (btree_init 0) (ascending n) with
  | Done t =>
      (num_keys (root t) =? 62)%nat &&
      match btree_insert t (Z.of_nat n + 1) 0 with Fault => true | _ => false end
  | _ => false
  end.

Lemma overrun_after_spec n :
  overrun_after n = true ->
  exists t, insert_all (btree_init 0) (ascending n) = Done t /\ num_keys (root t) = 62%nat /\
    btree_insert t (Z.of_nat n + 1) 0 = Fault.
Proof.
  unfold overrun_after. destruct (insert_all _ _) as [t| |]; [|done..].
  intros [Hn%Nat.eqb_eq H]%andb_prop. exists t. split_and!; [done|done|].
  by destruct (btree_insert t (Z.of_nat n + 1) 0).
Qed.

Lemma overrun_2047 : overrun_after 2047 = true.
Proof. by vm_compute. Qed.

(** The 2048th row overruns a node.  2047 insertions with ascending keys,
    as row ids are, succeed; the next one finds the root with 62 keys, splits
    its last child and reads [keys[63]], one past the array. *)
Theorem btree_insert_overrun :
  exists t, insert_all (btree_init 0) (ascending 2047) = Done t /\
    num_keys (root t) = 62%nat /\ btree_insert t 2048 0 = Fault.
Proof. exact (overrun_after_spec 2047 overrun_2047). Qed.
