(* ===== verification/Cap.v ===== *)
(** * Capabilities (src/kernel/cap/cap_table.c, capability.c)

    The static variables of both files form [cap_state].  A pointer into the
    table is the slot it points to: the functions that write through one
    ([cap_revoke], [cap_delegate]) update the slot.  [now] is the value of
    [pit_get_ticks()] during the call. *)

From S2P Require Import Prelude Errors Sha256 Hmac.

(** ** Data *)

Definition CAP_READ : Z := 1.
Definition CAP_WRITE : Z := 2.
Definition CAP_EXECUTE : Z := 4.
Definition CAP_DELETE : Z := 8.
Definition CAP_GRANT : Z := 16.
Definition CAP_REVOKE : Z := 32.
Definition CAP_ALL : Z := 0x3F.

Inductive cap_object_type :=
  | CAP_OBJ_TABLE_ROW | CAP_OBJ_TABLE | CAP_OBJ_PROCESS | CAP_OBJ_DEVICE | CAP_OBJ_SYSTEM.

#[global] Instance cap_object_type_eq_dec : EqDecision cap_object_type.
Proof. solve_decision. Defined.

Definition object_code (t : cap_object_type) : Z :=
  match t with
  | CAP_OBJ_TABLE_ROW => 0 | CAP_OBJ_TABLE => 1 | CAP_OBJ_PROCESS => 2
  | CAP_OBJ_DEVICE => 3 | CAP_OBJ_SYSTEM => 4
  end.

Record capability := Cap {
  cap_id : Z;
  object_id : Z;
  object_type : cap_object_type;
  owner_pid : Z;
  rights : Z;
  hmac : list Z;
  parent_cap_id : Z;
  created_at : Z;
  expires_at : Z;
  revoked : bool
}.

Definition zero_cap : capability :=
  Cap 0 0 CAP_OBJ_TABLE_ROW 0 0 (replicate 32 0) 0 0 0 false.

Record cap_cache_entry := CacheEntry {
  ce_cap_id : Z;
  validated_at : Z;
  ce_valid : bool;
  occupied : bool
}.

Definition zero_cache_entry : cap_cache_entry := CacheEntry 0 0 false false.

Definition CAP_TABLE_SIZE : Z := 1024.
Definition CAP_CACHE_SIZE : Z := 64.
Definition CAP_CACHE_TTL : Z := 1000.

Record cap_state := CapState {
  cap_table : list capability;
  cap_count : Z;
  next_cap_id : Z;
  cap_cache : list cap_cache_entry;
  master_hmac_ctx : hmac_ctx
}.

Definition with_table (st : cap_state) (t : list capability) : cap_state :=
  CapState t (cap_count st) (next_cap_id st) (cap_cache st) (master_hmac_ctx st).
Definition with_cache (st : cap_state) (c : list cap_cache_entry) : cap_state :=
  CapState (cap_table st) (cap_count st) (next_cap_id st) c (master_hmac_ctx st).

(** ** The table *)

Definition slot_of (id : Z) : nat := Z.to_nat (id - 1).

Definition cap_table_init (st : cap_state) : cap_state :=
  CapState (replicate (Z.to_nat CAP_TABLE_SIZE) zero_cap) 0 (next_cap_id st) (cap_cache st)
    (master_hmac_ctx st).

Definition bad_id (id : Z) : bool := (id =? 0) || (CAP_TABLE_SIZE <? id).

Definition cap_table_insert (st : cap_state) (cap : capability) : cap_state * Z :=
  if CAP_TABLE_SIZE <=? cap_count st then (st, VOS_ERR_FULL)
  else if bad_id (cap_id cap) then (st, VOS_ERR_FULL)
  else (CapState (<[slot_of (cap_id cap) := cap]> (cap_table st)) (u64 (cap_count st + 1))
          (next_cap_id st) (cap_cache st) (master_hmac_ctx st), VOS_OK).

Definition cap_table_lookup (st : cap_state) (id : Z) : option capability :=
  if bad_id id then None
  else match cap_table st !! slot_of id with
       | Some cap => if cap_id cap =? id then Some cap else None
       | None => None
       end.

Definition cap_table_remove (st : cap_state) (id : Z) : cap_state * Z :=
  if bad_id id then (st, VOS_ERR_NOTFOUND)
  else match cap_table_lookup st id with
       | None => (st, VOS_ERR_NOTFOUND)
       | Some _ =>
           (CapState (<[slot_of id := zero_cap]> (cap_table st)) (u64 (cap_count st - 1))
              (next_cap_id st) (cap_cache st) (master_hmac_ctx st), VOS_OK)
       end.

Definition cap_table_count (st : cap_state) : Z := cap_count st.

(** ** Sealing and validation *)

Definition cache_slot (id : Z) : nat := Z.to_nat (id mod CAP_CACHE_SIZE).

Definition cap_cache_invalidate (st : cap_state) (id : Z) : cap_state :=
  let e := nth (cache_slot id) (cap_cache st) zero_cache_entry in
  if ce_cap_id e =? id
  then with_cache st (<[cache_slot id :=
         CacheEntry (ce_cap_id e) (validated_at e) (ce_valid e) false]> (cap_cache st))
  else st.

(** The 40 bytes that are sealed. *)
Definition cap_data (cap : capability) : list Z :=
  le_bytes 8 (cap_id cap) ++ le_bytes 8 (object_id cap) ++ le_bytes 8 (owner_pid cap) ++
  le_bytes 4 (rights cap) ++ le_bytes 4 (object_code (object_type cap)) ++
  le_bytes 8 (parent_cap_id cap).

Definition set_hmac (cap : capability) (h : list Z) : capability :=
  Cap (cap_id cap) (object_id cap) (object_type cap) (owner_pid cap) (rights cap) h
    (parent_cap_id cap) (created_at cap) (expires_at cap) (revoked cap).

Definition cap_compute_hmac (st : cap_state) (cap : capability) : capability :=
  set_hmac cap (hmac_ctx_compute (master_hmac_ctx st) (cap_data cap)).

Definition cap_create (now : Z) (st : cap_state) (obj : Z) (type : cap_object_type)
    (owner rts parent : Z) : cap_state * capability :=
  let cap := Cap (next_cap_id st) obj type owner rts (replicate 32 0) parent now 0 false in
  let st := CapState (cap_table st) (cap_count st) (u64 (next_cap_id st + 1)) (cap_cache st)
              (master_hmac_ctx st) in
  (st, cap_compute_hmac st cap).

Definition cap_init (now : Z) (st : cap_state) (master_key : list Z) : cap_state :=
  let st := CapState (cap_table st) (cap_count st) (next_cap_id st)
              (replicate (Z.to_nat CAP_CACHE_SIZE) zero_cache_entry) (hmac_ctx_init master_key) in
  let st := cap_table_init st in
  let '(st, root) := cap_create now st 0 CAP_OBJ_SYSTEM 0 CAP_ALL 0 in
  fst (cap_table_insert st root).

Definition expired (now : Z) (cap : capability) : bool :=
  negb (expires_at cap =? 0) && (expires_at cap <? now).

Definition cache_hit (now : Z) (st : cap_state) (id : Z) : bool :=
  let e := nth (cache_slot id) (cap_cache st) zero_cache_entry in
  occupied e && (ce_cap_id e =? id) && (u64 (now - validated_at e) <? CAP_CACHE_TTL).

Definition cap_validate (now : Z) (st : cap_state) (cap : capability) : cap_state * bool :=
  if revoked cap then (st, false)
  else if expired now cap then (st, false)
  else
    let idx := cache_slot (cap_id cap) in
    if cache_hit now st (cap_id cap)
    then (st, ce_valid (nth idx (cap_cache st) zero_cache_entry))
    else
      let tmp := cap_compute_hmac st cap in
      let valid := hmac_verify (hmac cap) (hmac tmp) 32 in
      (with_cache st (<[idx := CacheEntry (cap_id cap) now valid true]> (cap_cache st)), valid).

(** ** Access checks *)

(** The ids of [for (i = 1; i < next_cap_id; i++)]. *)
Definition issued (st : cap_state) : list Z :=
  map Z.of_nat (seq 1 (Z.to_nat (next_cap_id st) - 1)).

Definition has_rights (cap : capability) (required : Z) : bool :=
  Z.land (rights cap) required =? required.

Fixpoint check_loop (now : Z) (st : cap_state) (pid obj required : Z) (ids : list Z)
    : cap_state * bool :=
  match ids with
  | [] => (st, false)
  | i :: ids =>
      match cap_table_lookup st i with
      | None => check_loop now st pid obj required ids
      | Some cap =>
          if negb (owner_pid cap =? pid) then check_loop now st pid obj required ids
          else if negb (object_id cap =? obj) && negb (bool_decide (object_type cap = CAP_OBJ_SYSTEM))
          then check_loop now st pid obj required ids
          else if negb (has_rights cap required) then check_loop now st pid obj required ids
          else
            let '(st, ok) := cap_validate now st cap in
            if negb ok then check_loop now st pid obj required ids else (st, true)
      end
  end.

Definition cap_check (now : Z) (st : cap_state) (pid obj required : Z) : cap_state * bool :=
  if pid =? 0 then (st, true) else check_loop now st pid obj required (issued st).

(** ** Granting, revoking, delegating *)

Definition cap_grant (now : Z) (st : cap_state) (granter id target rts : Z) : cap_state * Z :=
  match cap_table_lookup st id with
  | None => (st, VOS_ERR_NOTFOUND)
  | Some parent =>
      if negb (owner_pid parent =? granter) then (st, VOS_ERR_PERM)
      else
        let '(st, ok) := cap_validate now st parent in
        if negb ok then (st, VOS_ERR_CAP_INVALID)
        else if Z.land (rights parent) CAP_GRANT =? 0 then (st, VOS_ERR_PERM)
        else
          let granted := Z.land rts (rights parent) in
          let '(st, child) :=
            cap_create now st (object_id parent) (object_type parent) target granted id in
          cap_table_insert st child
  end.

Definition set_revoked (cap : capability) : capability :=
  Cap (cap_id cap) (object_id cap) (object_type cap) (owner_pid cap) (rights cap) (hmac cap)
    (parent_cap_id cap) (created_at cap) (expires_at cap) true.

Definition revoke_slot (st : cap_state) (id : Z) (cap : capability) : cap_state :=
  with_table st (<[slot_of id := set_revoked cap]> (cap_table st)).

(** The cascade over the issued ids, [rec] being the recursive call. *)
Fixpoint cascade (rec : cap_state -> Z -> option (cap_state * Z)) (id : Z) (st : cap_state)
    (ids : list Z) : option cap_state :=
  match ids with
  | [] => Some st
  | i :: ids =>
      match cap_table_lookup st i with
      | Some child =>
          if (parent_cap_id child =? id) && negb (revoked child) then
            match rec st (cap_id child) with
            | Some (st, _) => cascade rec id st ids
            | None => None
            end
          else cascade rec id st ids
      | None => cascade rec id st ids
      end
  end.

Fixpoint cap_revoke_rec (fuel : nat) (owner : Z) (st : cap_state) (id : Z)
    : option (cap_state * Z) :=
  match fuel with
  | O => None
  | S fuel =>
      match cap_table_lookup st id with
      | None => Some (st, VOS_ERR_NOTFOUND)
      | Some cap =>
          if negb (owner_pid cap =? owner) && negb (owner =? 0) then Some (st, VOS_ERR_PERM)
          else
            let st := revoke_slot st id cap in
            let st := cap_cache_invalidate st id in
            match cascade (cap_revoke_rec fuel owner) id st (issued st) with
            | Some st => Some (st, VOS_OK)
            | None => None
            end
      end
  end.

(** Each nested call is on a live capability and revokes it: the nesting is
    bounded by the size of the table. *)
Definition cap_revoke (st : cap_state) (owner id : Z) : option (cap_state * Z) :=
  cap_revoke_rec (S (Z.to_nat CAP_TABLE_SIZE)) owner st id.

Definition set_owner (cap : capability) (pid : Z) : capability :=
  Cap (cap_id cap) (object_id cap) (object_type cap) pid (rights cap) (hmac cap)
    (parent_cap_id cap) (created_at cap) (expires_at cap) (revoked cap).

Definition cap_delegate (now : Z) (st : cap_state) (from id to : Z) : cap_state * Z :=
  match cap_table_lookup st id with
  | None => (st, VOS_ERR_NOTFOUND)
  | Some cap =>
      if negb (owner_pid cap =? from) then (st, VOS_ERR_PERM)
      else
        let '(st, ok) := cap_validate now st cap in
        if negb ok then (st, VOS_ERR_CAP_INVALID)
        else
          let cap := cap_compute_hmac st (set_owner cap to) in
          let st := with_table st (<[slot_of id := cap]> (cap_table st)) in
          (cap_cache_invalidate st id, VOS_OK)
  end.
