(* ===== verification/CapSpec.v ===== *)
(** * Correctness of the capability system

    [cap_inv] is the invariant of every reachable state: a used slot holds the
    capability whose id is its position, sealed under the master key, with no
    more rights than its parent; what the validation cache remembers is right.
    On such states access checks are exact; revocation by the kernel reaches
    every descendant, revocation by a process only what that process owns. *)

From stdpp Require Import relations.
From S2P Require Import Prelude Errors Sha256 Hmac Cap.

(** The seal is only compared, never evaluated, in proofs. *)
#[local] Opaque hmac_verify hmac_ctx_compute.

Definition sealed (st : cap_state) (c : capability) : Prop :=
  hmac c = hmac_ctx_compute (master_hmac_ctx st) (cap_data c).

(** [c] was derived from [p]. *)
Definition derives (c p : capability) : Prop :=
  parent_cap_id c = cap_id p /\ Z.land (rights c) (rights p) = rights c /\
  object_id c = object_id p /\ object_type c = object_type p.

Record cap_inv (st : cap_state) : Prop := {
  ci_table : length (cap_table st) = Z.to_nat CAP_TABLE_SIZE;
  ci_cache_len : length (cap_cache st) = Z.to_nat CAP_CACHE_SIZE;
  ci_next : 1 <= next_cap_id st < 2 ^ 64;
  ci_slot : forall i c, cap_table st !! i = Some c ->
    cap_id c = 0 \/ cap_id c = Z.of_nat i + 1 /\ cap_id c < next_cap_id st /\ sealed st c;
  ci_parent : forall i c, cap_table_lookup st i = Some c ->
    parent_cap_id c = 0 \/
    parent_cap_id c < i /\ exists p, cap_table_lookup st (parent_cap_id c) = Some p /\ derives c p;
  ci_cache : Forall (fun e => occupied e = true -> ce_valid e = true) (cap_cache st)
}.

Lemma bad_id_false id : bad_id id = false <-> id <> 0 /\ id <= CAP_TABLE_SIZE.
Proof. unfold bad_id. lia. Qed.

Lemma lookup_table st id c :
  cap_inv st ->
  cap_table_lookup st id = Some c <->
  cap_table st !! slot_of id = Some c /\ cap_id c = id /\ 1 <= id <= CAP_TABLE_SIZE.
Proof.
  intros Hi. unfold cap_table_lookup. destruct (bad_id id) eqn:E.
  - split; [done|]. unfold bad_id in E. lia.
  - apply bad_id_false in E. destruct (cap_table st !! slot_of id) as [c'|] eqn:L; [|naive_solver].
    destruct (ci_slot _ Hi _ _ L) as [H0|(H1 & H2 & _)];
      destruct (Z.eqb_spec (cap_id c') id) as [Eid|]; split; intros; simplify_eq;
      try (destruct_and!; simplify_eq); try done; split_and?; try done; lia.
Qed.

Lemma lookup_facts st id c :
  cap_inv st -> cap_table_lookup st id = Some c ->
  cap_id c = id /\ 1 <= id <= CAP_TABLE_SIZE /\ id < next_cap_id st /\ sealed st c.
Proof.
  intros Hi L. pose proof L as (L' & E & Hr)%lookup_table; [|done].
  destruct (ci_slot _ Hi _ _ L') as [H0|(H1 & H2 & H3)]; [lia|]. split_and!; [done|lia|lia|lia|done].
Qed.

Lemma lookup_issued st id c : cap_inv st -> cap_table_lookup st id = Some c -> id ∈ issued st.
Proof.
  intros Hi L. destruct (lookup_facts _ _ _ Hi L) as (_ & H1 & H2 & _).
  unfold issued. apply list_elem_of_fmap. exists (Z.to_nat id). split; [lia|].
  apply elem_of_seq. lia.
Qed.

(** ** Changing only the cache *)

Lemma lookup_with_cache st c id : cap_table_lookup (with_cache st c) id = cap_table_lookup st id.
Proof. reflexivity. Qed.

Lemma inv_with_cache st c :
  cap_inv st -> length c = length (cap_cache st) ->
  Forall (fun e => occupied e = true -> ce_valid e = true) c -> cap_inv (with_cache st c).
Proof. intros [? ? ? ? ? ?] ? ?. constructor; simpl; try done. congruence. Qed.

Lemma inv_invalidate st id : cap_inv st -> cap_inv (cap_cache_invalidate st id).
Proof.
  intros Hi. unfold cap_cache_invalidate. destruct (_ =? id); [|done].
  apply inv_with_cache; [done|len|]. apply Forall_insert; [apply Hi|done].
Qed.

Lemma sealed_verify st c :
  sealed st c -> hmac_verify (hmac c) (hmac (cap_compute_hmac st c)) 32 = true.
Proof.
  intros E. unfold cap_compute_hmac. cbn [hmac set_hmac]. rewrite E. apply hmac_verify_same.
Qed.

(** Validation of a capability of the table: right, whatever the cache holds. *)
Lemma validate_spec now st id c :
  cap_inv st -> cap_table_lookup st id = Some c ->
  exists cache, cap_validate now st c = (with_cache st cache, negb (revoked c) && negb (expired now c)) /\
    cap_inv (with_cache st cache).
Proof.
  intros Hi L. destruct (lookup_facts _ _ _ Hi L) as (_ & _ & _ & Hs).
  assert (with_cache st (cap_cache st) = st) as E0 by (by destruct st).
  unfold cap_validate. destruct (revoked c); [exists (cap_cache st); by rewrite E0|].
  destruct (expired now c); [exists (cap_cache st); by rewrite E0|]. cbn [negb andb].
  destruct (cache_hit now st (cap_id c)) eqn:Hh.
  - exists (cap_cache st). rewrite E0. split; [|done]. f_equal.
    unfold cache_hit in Hh. apply andb_prop in Hh as [Hh _]. apply andb_prop in Hh as [Ho _].
    pose proof (ci_cache _ Hi) as Hc.
    destruct (nth_in_or_default (cache_slot (cap_id c)) (cap_cache st) zero_cache_entry) as [Hin|E];
      [|by rewrite E in Ho].
    rewrite Forall_forall in Hc. apply Hc; [by apply list_elem_of_In|done].
  - rewrite sealed_verify by done. eexists. split; [done|].
    apply inv_with_cache; [done|len|]. apply Forall_insert; [apply Hi|done].
Qed.

(** ** Adding and changing one capability *)

Lemma inv_update st id c c' :
  cap_inv st -> cap_table_lookup st id = Some c ->
  cap_id c' = cap_id c -> rights c' = rights c -> object_id c' = object_id c ->
  object_type c' = object_type c -> parent_cap_id c' = parent_cap_id c -> sealed st c' ->
  cap_inv (with_table st (<[slot_of id := c']> (cap_table st))) /\
  forall j, cap_table_lookup (with_table st (<[slot_of id := c']> (cap_table st))) j =
    if j =? id then Some c' else cap_table_lookup st j.
Proof.
  intros Hi L E1 E2 E3 E4 E5 Hs. pose proof L as (Lt & Eid & Hr)%lookup_table; [|done].
  destruct (lookup_facts _ _ _ Hi L) as (_ & _ & Hn & _).
  pose proof (lookup_lt_Some _ _ _ Lt) as Hlt.
  set (st' := with_table st (<[slot_of id := c']> (cap_table st))).
  assert (forall j, cap_table_lookup st' j = if j =? id then Some c' else cap_table_lookup st j) as Hl.
  { intros j. unfold cap_table_lookup at 1. cbn [st' with_table cap_table].
    destruct (Z.eqb_spec j id) as [->|Hj].
    - rewrite (proj2 (bad_id_false id)) by lia. rewrite list_lookup_insert_eq by done.
      by rewrite (proj2 (Z.eqb_eq _ _)) by lia.
    - destruct (decide (slot_of j = slot_of id)) as [E|E].
      + assert (j <= 0) by (unfold slot_of in E; lia). unfold cap_table_lookup.
        destruct (bad_id j) eqn:Eb; [done|]. rewrite E, list_lookup_insert_eq, Lt by done.
        by rewrite !(proj2 (Z.eqb_neq _ _)) by lia.
      + by rewrite list_lookup_insert_ne by done. }
  split; [|done]. destruct Hi as [H1 H2 H3 H4 H5 H6]. constructor; simpl; try done; [len| |].
  - intros i d. destruct (decide (i = slot_of id)) as [->|Hne].
    + rewrite list_lookup_insert_eq by done. intros [= <-]. right.
      split_and!; [unfold slot_of; lia|lia|done].
    + rewrite list_lookup_insert_ne by done. apply H4.
  - intros i d. rewrite Hl. intros Hd.
    assert (exists d0, cap_table_lookup st i = Some d0 /\ parent_cap_id d = parent_cap_id d0 /\
      rights d = rights d0 /\ object_id d = object_id d0 /\ object_type d = object_type d0)
      as (d0 & L0 & P1 & P2 & P3 & P4).
    { destruct (Z.eqb_spec i id) as [->|]; [exists c|exists d]; simplify_eq; done. }
    destruct (H5 _ _ L0) as [H0|(Hlt' & p & Lp & Hp1 & Hp2 & Hp3 & Hp4)]; [left; congruence|right].
    split; [lia|]. rewrite P1, Hl. unfold derives. rewrite P1, P2, P3, P4.
    destruct (Z.eqb_spec (parent_cap_id d0) id) as [Ep|].
    + exists c'. rewrite E1, E2, E3, E4. rewrite Ep in Lp. rewrite L in Lp. injection Lp as <-. done.
    + by exists p.
Qed.

(** Creating a capability and inserting it: a fresh id, at the end. *)
Lemma inv_create now st obj type owner rts parent :
  cap_inv st -> next_cap_id st < 2 ^ 64 - 1 ->
  (parent = 0 \/ exists p, cap_table_lookup st parent = Some p /\
     Z.land rts (rights p) = rts /\ obj = object_id p /\ type = object_type p) ->
  let '(st1, c) := cap_create now st obj type owner rts parent in
  let '(st2, err) := cap_table_insert st1 c in
  cap_inv st2 /\
  (err = VOS_OK /\ (forall j, cap_table_lookup st2 j =
      if j =? next_cap_id st then Some c else cap_table_lookup st j) \/
   err = VOS_ERR_FULL /\ forall j, cap_table_lookup st2 j = cap_table_lookup st j).
Proof.
  intros Hi Hn Hp. unfold cap_create. set (c := cap_compute_hmac _ _).
  set (st1 := CapState _ _ _ _ _) in *.
  assert (sealed st1 c) as Hs by done.
  assert (u64 (next_cap_id st + 1) = next_cap_id st + 1) as En.
  { apply wrap_small. unfold is_word. pose proof (ci_next _ Hi). lia. }
  assert (cap_inv st1) as Hi1.
  { destruct Hi as [H1 H2 H3 H4 H5 H6]. constructor; cbn [st1 cap_table cap_cache next_cap_id]; try done.
    - rewrite En. lia.
    - intros i d Hd. destruct (H4 i d Hd) as [?|(? & ? & ?)]; [by left|right]. rewrite En.
      split_and!; [done|lia|done]. }
  assert (forall j, cap_table_lookup st1 j = cap_table_lookup st j) as Hl1 by done.
  unfold cap_table_insert. destruct (_ <=? _); [split; [done|by right]|].
  destruct (bad_id (cap_id c)) eqn:Eb; [split; [done|by right]|].
  apply bad_id_false in Eb. change (cap_id c) with (next_cap_id st) in *. cbn [st1 cap_table] in *.
  pose proof (ci_next _ Hi) as Hnx.
  set (st2 := CapState _ _ _ _ _).
  assert (slot_of (next_cap_id st) < length (cap_table st))%nat as Hlt
    by (rewrite (ci_table _ Hi); unfold slot_of; lia).
  assert (forall j, cap_table_lookup st2 j =
     if j =? next_cap_id st then Some c else cap_table_lookup st j) as Hl2.
  { intros j. unfold cap_table_lookup at 1. cbn [st2 cap_table].
    destruct (Z.eqb_spec j (next_cap_id st)) as [->|Hj].
    - rewrite (proj2 (bad_id_false _)) by done. rewrite list_lookup_insert_eq by done.
      by rewrite Z.eqb_refl.
    - destruct (decide (slot_of j = slot_of (next_cap_id st))) as [E|E].
      + destruct (cap_table_lookup st j) as [d|] eqn:Ld.
        { destruct (lookup_facts _ _ _ Hi Ld) as (_ & ? & ? & _). unfold slot_of in E. lia. }
        destruct (bad_id j); [done|]. rewrite E, list_lookup_insert_eq by done.
        by rewrite (proj2 (Z.eqb_neq _ _)) by done.
      + by rewrite list_lookup_insert_ne by done. }
  split; [|left; by split].
  destruct Hi1 as [H1 H2 H3 H4 H5 H6]. constructor; cbn [st2 cap_table cap_cache next_cap_id]; try done;
    [by rewrite length_insert| |].
  - intros i d. destruct (decide (i = slot_of (next_cap_id st))) as [->|Hne].
    + rewrite list_lookup_insert_eq by done. intros [= <-]. right.
      change (cap_id c) with (next_cap_id st). cbn [st1 next_cap_id]. rewrite En. split_and!; [unfold slot_of; lia|lia|done].
    + rewrite list_lookup_insert_ne by done. apply H4.
  - intros i d. rewrite Hl2. destruct (Z.eqb_spec i (next_cap_id st)) as [->|Hne].
    + intros [= <-]. destruct Hp as [->|(p & Lp & Hr & Ho & Ht)]; [by left|right].
      destruct (lookup_facts _ _ _ Hi Lp) as (Ep & ? & ? & _).
      change (parent_cap_id c) with parent. split; [done|]. exists p.
      rewrite Hl2, (proj2 (Z.eqb_neq _ _)) by lia. by split_and!.
    + intros Ld. destruct (H5 _ _ Ld) as [?|(? & p & Lp & Hd)]; [by left|right].
      split; [done|]. exists p. rewrite Hl2. rewrite Hl1 in Lp.
      destruct (lookup_facts _ _ _ Hi Lp) as (_ & _ & ? & _).
      by rewrite (proj2 (Z.eqb_neq _ _)) by lia.
Qed.

(** ** Revocation

    [st'] is [st] with some more capabilities revoked, all of them owned by
    [owner] unless [owner] is the kernel; the cache may have lost entries. *)

Definition may_revoke (owner : Z) (c : capability) : Prop := owner = 0 \/ owner_pid c = owner.

Record revoked_from (owner : Z) (st st' : cap_state) : Prop := {
  rf_inv : cap_inv st';
  rf_next : next_cap_id st' = next_cap_id st;
  rf_lookup : forall j,
    match cap_table_lookup st j with
    | None => cap_table_lookup st' j = None
    | Some c => cap_table_lookup st' j = Some c \/
                cap_table_lookup st' j = Some (set_revoked c) /\ may_revoke owner c
    end
}.

Lemma revoked_from_refl owner st : cap_inv st -> revoked_from owner st st.
Proof. intros. constructor; [done|done|]. intros j. destruct (cap_table_lookup st j); [by left|done]. Qed.

Lemma revoked_from_trans owner st1 st2 st3 :
  revoked_from owner st1 st2 -> revoked_from owner st2 st3 -> revoked_from owner st1 st3.
Proof.
  intros [I1 N1 L1] [I2 N2 L2]. constructor; [done|congruence|].
  intros j. specialize (L1 j). specialize (L2 j).
  destruct (cap_table_lookup st1 j) as [c|]; [|by rewrite L1 in L2].
  destruct L1 as [E|[E Hm]]; rewrite E in L2; [done|].
  destruct L2 as [E'|[E' _]]; rewrite E'; [by right|]. by right.
Qed.

Lemma revoked_stays owner st st' j c :
  revoked_from owner st st' -> cap_table_lookup st j = Some c -> revoked c = true ->
  exists c', cap_table_lookup st' j = Some c' /\ revoked c' = true.
Proof.
  intros [_ _ L] E R. specialize (L j). rewrite E in L. destruct L as [L|[L _]]; eauto.
Qed.

(** The parent links never change. *)
Lemma lookup_back owner st st' j c' :
  revoked_from owner st st' -> cap_table_lookup st' j = Some c' ->
  exists c, cap_table_lookup st j = Some c /\ parent_cap_id c' = parent_cap_id c /\
    (c' = c \/ c' = set_revoked c).
Proof.
  intros [_ _ L] E. specialize (L j). destruct (cap_table_lookup st j) as [c|]; [|congruence].
  destruct L as [L|[L _]]; rewrite L in E; injection E as <-; exists c; auto.
Qed.

Lemma revoke_slot_from owner st id c :
  cap_inv st -> cap_table_lookup st id = Some c -> may_revoke owner c ->
  revoked_from owner st (cap_cache_invalidate (revoke_slot st id c) id) /\
  cap_table_lookup (cap_cache_invalidate (revoke_slot st id c) id) id = Some (set_revoked c).
Proof.
  intros Hi L Hm. destruct (lookup_facts _ _ _ Hi L) as (E & _ & _ & Hs).
  destruct (inv_update st id c (set_revoked c) Hi L) as [Hi' Hl]; try done.
  assert (forall j, cap_table_lookup (cap_cache_invalidate (revoke_slot st id c) id) j =
    if j =? id then Some (set_revoked c) else cap_table_lookup st j) as Hl'.
  { intros j. rewrite <- Hl. unfold cap_cache_invalidate. by destruct (_ =? id). }
  split; [|by rewrite Hl', Z.eqb_refl]. constructor.
  - by apply inv_invalidate.
  - unfold cap_cache_invalidate. by destruct (_ =? id).
  - intros j. rewrite Hl'. destruct (Z.eqb_spec j id) as [->|]; [rewrite L; auto|].
    destruct (cap_table_lookup st j); auto.
Qed.

(** The number of capabilities that are not revoked. *)
Definition is_live (st : cap_state) (j : Z) : bool :=
  match cap_table_lookup st j with Some c => negb (revoked c) | None => false end.
Definition all_ids : list Z := map Z.of_nat (seq 1 (Z.to_nat CAP_TABLE_SIZE)).
Definition live_caps (st : cap_state) : nat := length (List.filter (is_live st) all_ids).

Lemma filter_length_mono {A} (p q : A -> bool) l :
  (forall x, q x = true -> p x = true) ->
  (length (List.filter q l) <= length (List.filter p l))%nat /\
  forall x, x ∈ l -> p x = true -> q x = false ->
    (length (List.filter q l) < length (List.filter p l))%nat.
Proof.
  intros H. induction l as [|a l [IH1 IH2]]; simpl.
  - split; [done|]. intros x Hx. by apply elem_of_nil in Hx.
  - split.
    + destruct (q a) eqn:E; [rewrite (H a E); simpl; lia|]. destruct (p a); simpl; lia.
    + intros x [->|Hx]%elem_of_cons Hp Hq.
      * rewrite Hp, Hq. simpl. lia.
      * specialize (IH2 x Hx Hp Hq). destruct (q a) eqn:E; [rewrite (H a E); simpl; lia|].
        destruct (p a); simpl; lia.
Qed.

Lemma live_mono owner st st' :
  revoked_from owner st st' ->
  (live_caps st' <= live_caps st)%nat /\
  forall j, is_live st j = true -> is_live st' j = false -> 1 <= j <= CAP_TABLE_SIZE ->
    (live_caps st' < live_caps st)%nat.
Proof.
  intros Hr. destruct (filter_length_mono (is_live st) (is_live st') all_ids) as [H1 H2].
  - intros j. unfold is_live. destruct (cap_table_lookup st' j) as [c'|] eqn:E; [|done].
    destruct (lookup_back _ _ _ _ _ Hr E) as (c & -> & _ & [->| ->]); done.
  - split; [done|]. intros j Hp Hq Hj. apply (H2 j); [|done|done].
    apply list_elem_of_fmap. exists (Z.to_nat j). split; [lia|]. apply elem_of_seq. lia.
Qed.

Lemma live_caps_bound st : (live_caps st <= Z.to_nat CAP_TABLE_SIZE)%nat.
Proof.
  unfold live_caps. etransitivity; [apply filter_length_le|]. unfold all_ids.
  by rewrite length_map, length_seq.
Qed.

(** ** Descendants *)

Definition is_revoked (st : cap_state) (j : Z) : Prop :=
  exists c, cap_table_lookup st j = Some c /\ revoked c = true.
Definition kids_revoked (st : cap_state) (j : Z) : Prop :=
  forall y c, cap_table_lookup st y = Some c -> parent_cap_id c = j -> revoked c = true.

(** What was revoked between [st] and [st'] has its children revoked. *)
Definition closed_new (st st' : cap_state) : Prop :=
  forall j, is_revoked st' j -> is_revoked st j \/ kids_revoked st' j.

Lemma is_revoked_mono owner st st' j : revoked_from owner st st' -> is_revoked st j -> is_revoked st' j.
Proof. intros H (c & L & R). by eapply revoked_stays. Qed.

Lemma kids_revoked_mono owner st st' j :
  revoked_from owner st st' -> kids_revoked st j -> kids_revoked st' j.
Proof.
  intros H K y c' L P. destruct (lookup_back _ _ _ _ _ H L) as (c & Lc & Ep & [->| ->]); [|done].
  apply (K y); congruence.
Qed.

Lemma closed_new_trans owner st1 st2 st3 :
  revoked_from owner st2 st3 -> closed_new st1 st2 -> closed_new st2 st3 -> closed_new st1 st3.
Proof.
  intros H23 C12 C23 j Hj. destruct (C23 j Hj) as [H2|K]; [|by right].
  destruct (C12 j H2) as [H1|K]; [by left|right]. by eapply kids_revoked_mono.
Qed.

(** [j] descends from [id] through capabilities that are not revoked, itself
    included. *)
Inductive live_below (st : cap_state) (id : Z) : Z -> Prop :=
  | below_child j d :
      cap_table_lookup st j = Some d -> parent_cap_id d = id -> revoked d = false -> live_below st id j
  | below_step k j d :
      live_below st id k -> cap_table_lookup st j = Some d -> parent_cap_id d = k -> revoked d = false ->
      live_below st id j.

Lemma live_below_trans st id k j : live_below st id k -> live_below st k j -> live_below st id j.
Proof. intros H1 H2. induction H2; by eapply below_step. Qed.

Lemma live_below_back owner st st' id j : revoked_from owner st st' -> live_below st' id j -> live_below st id j.
Proof.
  intros H. assert (forall j d, cap_table_lookup st' j = Some d -> revoked d = false -> cap_table_lookup st j = Some d) as Hb.
  { intros j' d L R. destruct (lookup_back _ _ _ _ _ H L) as (c & Lc & _ & [->| ->]); [done|discriminate R]. }
  induction 1; [eapply below_child|eapply below_step]; eauto.
Qed.

(** Nothing is revoked between [st] and [st'] but what satisfies [P]. *)
Definition only_new (P : Z -> Prop) (st st' : cap_state) : Prop := forall j, is_revoked st' j -> is_revoked st j \/ P j.

(** What a call of [cap_revoke] on a capability [c] does. *)
Definition revoke_post (owner : Z) (st : cap_state) (id : Z) (c : capability)
    (o : option (cap_state * Z)) : Prop :=
  exists st' err, o = Some (st', err) /\ revoked_from owner st st' /\
    (owner = 0 -> closed_new st st' /\ kids_revoked st' id) /\
    only_new (fun j => j = id \/ live_below st id j) st st' /\
    (may_revoke owner c -> err = VOS_OK /\ is_revoked st' id) /\
    (~ may_revoke owner c -> err = VOS_ERR_PERM /\ st' = st).

Lemma cascade_spec owner rec id ids st0 st :
  (forall st i c, revoked_from owner st0 st -> cap_table_lookup st i = Some c -> revoked c = false ->
     revoke_post owner st i c (rec st i)) ->
  revoked_from owner st0 st ->
  exists st', cascade rec id st ids = Some st' /\ revoked_from owner st st' /\
    only_new (live_below st id) st st' /\
    (owner = 0 -> closed_new st st' /\
       forall y c, y ∈ ids -> cap_table_lookup st' y = Some c -> parent_cap_id c = id -> revoked c = true).
Proof.
  intros Hrec. revert st. induction ids as [|i ids IH]; intros st H0; cbn [cascade].
  { exists st. split; [done|]. split; [apply revoked_from_refl, H0|]. split; [by left|]. intros _.
    split; [by left|]. intros y c Hy. by apply elem_of_nil in Hy. }
  assert (forall st1, revoked_from owner st st1 -> only_new (live_below st id) st st1 -> (owner = 0 -> closed_new st st1) ->
    (forall c, owner = 0 -> cap_table_lookup st1 i = Some c -> parent_cap_id c = id -> revoked c = true) ->
    exists st', cascade rec id st1 ids = Some st' /\ revoked_from owner st st' /\ only_new (live_below st id) st st' /\
    (owner = 0 -> closed_new st st' /\
       forall y c, y ∈ i :: ids -> cap_table_lookup st' y = Some c -> parent_cap_id c = id -> revoked c = true))
    as Hnext.
  { intros st1 R1 N1 C1 Hi. destruct (IH st1) as (st' & E & R & N & C); [by eapply revoked_from_trans|].
    exists st'. split; [done|]. split; [by eapply revoked_from_trans|].
    split. { intros j Hj. destruct (N j Hj) as [H|H]; [by apply N1|right; by eapply live_below_back]. }
    intros Ho. destruct (C Ho) as [C2 K]. split; [eapply closed_new_trans; eauto|].
    intros y c [->|Hy]%elem_of_cons L P; [|by eapply K].
    destruct (lookup_back _ _ _ _ _ R L) as (c1 & L1 & Ep & [->| ->]); [|done].
    apply (Hi _ Ho L1). congruence. }
  assert (only_new (live_below st id) st st) as Hrefl by (by left).
  destruct (cap_table_lookup st i) as [child|] eqn:Li.
  2: { apply Hnext; [apply revoked_from_refl, H0|done|by left|]. intros c _ L. congruence. }
  pose proof (lookup_facts _ _ _ (rf_inv _ _ _ H0) Li) as (Eid & _).
  destruct ((parent_cap_id child =? id) && negb (revoked child)) eqn:Et.
  - apply andb_prop in Et as [Ep%Z.eqb_eq Hr%negb_true_iff].
    rewrite Eid. destruct (Hrec st i child H0 Li Hr) as (st1 & err & -> & R1 & C1 & N1 & Hok & _).
    assert (live_below st id i) as Hb by (by eapply below_child).
    apply Hnext; [done| |intros Ho; apply (C1 Ho)|].
    { intros j Hj. destruct (N1 j Hj) as [H|[->|H]]; [by left|by right|right; by eapply live_below_trans]. }
    intros c Ho L P. destruct Hok as (_ & d & Ld & Rd); [by left|]. congruence.
  - apply Hnext; [apply revoked_from_refl, H0|done|by left|]. intros c _ L P.
    rewrite Li in L. injection L as <-. rewrite (proj2 (Z.eqb_eq _ _)) in Et by done.
    simpl in Et. by apply negb_false_iff in Et.
Qed.

Lemma is_live_lookup st j c : cap_table_lookup st j = Some c -> is_live st j = negb (revoked c).
Proof. unfold is_live. by intros ->. Qed.

Lemma revoke_rec_spec fuel owner st id c :
  cap_inv st -> cap_table_lookup st id = Some c ->
  (live_caps (cap_cache_invalidate (revoke_slot st id c) id) < fuel)%nat ->
  revoke_post owner st id c (cap_revoke_rec fuel owner st id).
Proof.
  revert st id c. induction fuel as [|fuel IH]; intros st id c Hi L Hf; [lia|].
  cbn [cap_revoke_rec]. rewrite L.
  destruct (negb (owner_pid c =? owner) && negb (owner =? 0)) eqn:Ep.
  { exists st, VOS_ERR_PERM. split; [done|]. split; [by apply revoked_from_refl|].
    split; [lia|]. split; [by left|]. split; [|done]. unfold may_revoke. intros. lia. }
  assert (may_revoke owner c) as Hm by (unfold may_revoke; lia).
  destruct (revoke_slot_from owner st id c Hi L Hm) as [R1 L1].
  set (st1 := cap_cache_invalidate (revoke_slot st id c) id) in *.
  destruct (cascade_spec owner (cap_revoke_rec fuel owner) id (issued st1) st1 st1) as (st2 & E & R2 & N2 & C2).
  { intros st' i d R Ld Hd. apply IH; [apply R|done|].
    destruct (lookup_facts _ _ _ (rf_inv _ _ _ R) Ld) as (_ & Hrange & _).
    destruct (live_mono _ _ _ R) as [Hle _].
    destruct (revoke_slot_from 0 st' i d (rf_inv _ _ _ R) Ld) as [Rd Lrd]; [by left|].
    destruct (live_mono _ _ _ Rd) as [_ Hlt]. specialize (Hlt i). 
    rewrite (is_live_lookup _ _ _ Ld), (is_live_lookup _ _ _ Lrd), Hd in Hlt.
    specialize (Hlt eq_refl eq_refl Hrange). lia. }
  { apply revoked_from_refl, R1. }
  rewrite E. exists st2, VOS_OK. split; [done|].
  split; [by eapply revoked_from_trans|].
  assert (forall j, is_revoked st1 j -> j = id \/ is_revoked st j) as Hold.
  { intros j (d & Ld & Rd). destruct (decide (j = id)) as [->|Hne]; [by left|right]. exists d. split; [|done].
    destruct (inv_update st id c (set_revoked c) Hi L) as [_ Hl]; try done.
    { by destruct (lookup_facts _ _ _ Hi L) as (_ & _ & _ & Hs). }
    specialize (Hl j). rewrite (proj2 (Z.eqb_neq _ _)) in Hl by done. rewrite <- Hl.
    unfold st1, cap_cache_invalidate in Ld. by destruct (_ =? id). }
  assert (owner = 0 -> kids_revoked st2 id) as Hkids.
  { intros Ho y d Ld Pd. destruct (C2 Ho) as [_ K]. apply (K y); [|done|done].
    destruct (lookup_back _ _ _ _ _ R2 Ld) as (d1 & Ld1 & _). eapply lookup_issued; [apply R1|done]. }
  split; [|split; [|split; [intros _; split; [done|]; eapply is_revoked_mono; [done|by exists (set_revoked c)]|done]]].
  - intros Ho. split; [|by apply Hkids]. destruct (C2 Ho) as [C K]. intros j Hj. destruct (C j Hj) as [H1|H1]; [|by right].
    destruct (Hold j H1) as [->|H]; [right; by apply Hkids|by left].
  - intros j Hj. destruct (N2 j Hj) as [H1|H1]; [destruct (Hold j H1); auto|].
    right. right. by eapply live_below_back.
Qed.

(** [cap_revoke] always returns, and what it does. *)
Lemma cap_revoke_spec st owner id c :
  cap_inv st -> cap_table_lookup st id = Some c -> revoke_post owner st id c (cap_revoke st owner id).
Proof.
  intros Hi L. apply revoke_rec_spec; [done|done|]. pose proof (live_caps_bound (cap_cache_invalidate (revoke_slot st id c) id)). lia.
Qed.

Lemma cap_revoke_missing st owner id :
  cap_table_lookup st id = None -> cap_revoke st owner id = Some (st, VOS_ERR_NOTFOUND).
Proof. intros L. unfold cap_revoke. cbn [cap_revoke_rec]. by rewrite L. Qed.

(** ** Reachable states *)

(** The variables at boot: zeroed, [next_cap_id] initialised to 1. *)
Definition boot_caps (ctx : hmac_ctx) : cap_state :=
  CapState (replicate (Z.to_nat CAP_TABLE_SIZE) zero_cap) 0 1
    (replicate (Z.to_nat CAP_CACHE_SIZE) zero_cache_entry) ctx.

(** The calls the kernel makes: [process_create] and the GRANT statement create
    a capability without parent; ids must not have wrapped around. *)
Inductive cap_step : cap_state -> cap_state -> Prop :=
  | step_create now st obj type owner rts :
      next_cap_id st < 2 ^ 64 - 1 ->
      cap_step st (let '(st, c) := cap_create now st obj type owner rts 0 in
                   fst (cap_table_insert st c))
  | step_check now st pid obj required : cap_step st (fst (cap_check now st pid obj required))
  | step_grant now st granter id target rts :
      next_cap_id st < 2 ^ 64 - 1 -> cap_step st (fst (cap_grant now st granter id target rts))
  | step_revoke st owner id st' err :
      cap_revoke st owner id = Some (st', err) -> cap_step st st'
  | step_delegate now st from id to : cap_step st (fst (cap_delegate now st from id to)).

Definition cap_reachable (st : cap_state) : Prop :=
  exists now ctx key, rtc cap_step (cap_init now (boot_caps ctx) key) st.

Lemma inv_init now ctx key : cap_inv (cap_init now (boot_caps ctx) key).
Proof.
  unfold cap_init. set (st := cap_table_init _).
  assert (cap_inv st) as Hi.
  { constructor; try done.
    - intros i c [-> _]%lookup_replicate. by left.
    - intros i c. unfold cap_table_lookup. destruct (bad_id i) eqn:Eb; [done|].
      destruct (cap_table st !! slot_of i) as [d|] eqn:E; [|done].
      apply lookup_replicate in E as [-> _]. apply bad_id_false in Eb.
      rewrite (proj2 (Z.eqb_neq _ _)); [done|]. simpl. lia.
    - by apply Forall_replicate. }
  pose proof (inv_create now st 0 CAP_OBJ_SYSTEM 0 CAP_ALL 0 Hi) as H.
  destruct (cap_create _ _ _ _ _ _ _) as [st1 c]. specialize (H ltac:(done) ltac:(by left)).
  destruct (cap_table_insert st1 c) as [st2 err]. apply H.
Qed.

(** [c] lets process [pid] do [required] on [obj] at time [now]. *)
Definition allows (now pid obj required : Z) (c : capability) : Prop :=
  owner_pid c = pid /\ (object_id c = obj \/ object_type c = CAP_OBJ_SYSTEM) /\
  has_rights c required = true /\ revoked c = false /\ expired now c = false.

Lemma check_loop_spec now st pid obj required ids :
  cap_inv st ->
  exists cache, fst (check_loop now st pid obj required ids) = with_cache st cache /\
    cap_inv (with_cache st cache) /\
    (snd (check_loop now st pid obj required ids) = true <->
     exists id c, id ∈ ids /\ cap_table_lookup st id = Some c /\ allows now pid obj required c).
Proof.
  revert st. induction ids as [|i ids IH]; intros st Hi; cbn [check_loop].
  { exists (cap_cache st). assert (with_cache st (cap_cache st) = st) as -> by (by destruct st).
    split_and!; [done|done|]. split; [done|]. intros (id & c & Hin & _). by apply elem_of_nil in Hin. }
  assert (forall st0, cap_inv st0 -> (forall id, cap_table_lookup st0 id = cap_table_lookup st id) ->
    (exists cc, st0 = with_cache st cc) ->
    (forall c, cap_table_lookup st i = Some c -> ~ allows now pid obj required c) ->
    exists cache, fst (check_loop now st0 pid obj required ids) = with_cache st cache /\
    cap_inv (with_cache st cache) /\
    (snd (check_loop now st0 pid obj required ids) = true <->
     exists id c, id ∈ i :: ids /\ cap_table_lookup st id = Some c /\ allows now pid obj required c)) as Hskip.
  { intros st0 Hi0 Hl (cc & ->) Hno. destruct (IH _ Hi0) as (cache & E & Hc & Hiff).
    exists cache. split_and!; [done|done|]. rewrite Hiff. split.
    - intros (id & c & Hin & H). exists id, c. split; [by right|done].
    - intros (id & c & [->|Hin]%elem_of_cons & L & H); [by destruct (Hno c L)|].
      exists id, c. by split_and!. }
  assert (exists cc, st = with_cache st cc) as Hself by (exists (cap_cache st); by destruct st).
  destruct (cap_table_lookup st i) as [c|] eqn:L; [|by apply Hskip].
  destruct (Z.eqb_spec (owner_pid c) pid) as [Ho|Ho]; cbn [negb];
    [|apply Hskip; try done; intros d [= <-] (H & _); congruence].
  destruct (negb (object_id c =? obj) && negb (bool_decide (object_type c = CAP_OBJ_SYSTEM))) eqn:Eo.
  { apply Hskip; try done. intros d [= <-] (_ & H & _). apply andb_prop in Eo as [E1 E2].
    apply negb_true_iff in E1, E2. apply bool_decide_eq_false in E2.
    destruct H as [H|H]; [lia|done]. }
  destruct (has_rights c required) eqn:Er; cbn [negb];
    [|apply Hskip; try done; intros d [= <-] (_ & _ & H & _); congruence].
  destruct (validate_spec now st i c Hi L) as (cache & Ev & Hic). rewrite Ev.
  destruct (negb (revoked c) && negb (expired now c)) eqn:Ed; cbn [negb].
  - exists cache. split_and!; [done|done|]. split; [|done]. intros _. exists i, c.
    apply andb_prop in Ed as [E1%negb_true_iff E2%negb_true_iff].
    split_and!; [by left|done|]. unfold allows. split_and!; [done| |done|done|done].
    destruct (Z.eqb_spec (object_id c) obj); [by left|right]. simpl in Eo.
    apply negb_false_iff, bool_decide_eq_true in Eo. done.
  - apply Hskip; try done; [by exists cache|]. intros d [= <-] (_ & _ & _ & E1 & E2).
    by rewrite E1, E2 in Ed.
Qed.

Lemma cap_check_spec now st pid obj required :
  cap_inv st ->
  exists cache, fst (cap_check now st pid obj required) = with_cache st cache /\
    cap_inv (with_cache st cache) /\
    (snd (cap_check now st pid obj required) = true <->
     pid = 0 \/ exists id c, cap_table_lookup st id = Some c /\ allows now pid obj required c).
Proof.
  intros Hi. unfold cap_check. destruct (Z.eqb_spec pid 0) as [->|Hp].
  - exists (cap_cache st). assert (with_cache st (cap_cache st) = st) as -> by (by destruct st). simpl. tauto.
  - destruct (check_loop_spec now st pid obj required (issued st) Hi) as (cache & E & Hc & Hiff).
    exists cache. split_and!; [done|done|]. rewrite Hiff. split.
    + intros (id & c & _ & H). right. by exists id, c.
    + intros [?|(id & c & L & H)]; [done|]. exists id, c. split; [by eapply lookup_issued|done].
Qed.

(** What [cap_grant] answers, and what it changes. *)
Definition grant_code (now : Z) (st : cap_state) (granter id : Z) : Z :=
  match cap_table_lookup st id with
  | None => VOS_ERR_NOTFOUND
  | Some p =>
      if negb (owner_pid p =? granter) then VOS_ERR_PERM
      else if revoked p || expired now p then VOS_ERR_CAP_INVALID
      else if Z.land (rights p) CAP_GRANT =? 0 then VOS_ERR_PERM
      else if (CAP_TABLE_SIZE <=? cap_count st) || bad_id (next_cap_id st) then VOS_ERR_FULL
      else VOS_OK
  end.

Lemma cap_grant_spec now st granter id target rts :
  cap_inv st -> next_cap_id st < 2 ^ 64 - 1 ->
  let '(st', err) := cap_grant now st granter id target rts in
  cap_inv st' /\ err = grant_code now st granter id /\
  (err <> VOS_OK -> forall j, cap_table_lookup st' j = cap_table_lookup st j) /\
  (err = VOS_OK -> exists p c, cap_table_lookup st id = Some p /\
     (forall j, cap_table_lookup st' j =
        if j =? next_cap_id st then Some c else cap_table_lookup st j) /\
     derives c p /\ owner_pid c = target /\ rights c = Z.land rts (rights p) /\
     sealed st' c /\ revoked c = false).
Proof.
  intros Hi Hn. unfold cap_grant, grant_code. destruct (cap_table_lookup st id) as [p|] eqn:L;
    [|split_and!; try done].
  destruct (owner_pid p =? granter); cbn [negb]; [|split_and!; try done].
  destruct (validate_spec now st id p Hi L) as (cache & Ev & Hc). rewrite Ev.
  rewrite <- negb_orb. destruct (revoked p || expired now p); cbn [negb]; [split_and!; try done|].
  destruct (Z.land (rights p) CAP_GRANT =? 0); [split_and!; try done|].
  destruct (lookup_facts _ _ _ Hi L) as (Eid & _).
  pose proof (inv_create now (with_cache st cache) (object_id p) (object_type p) target
    (Z.land rts (rights p)) id Hc Hn) as H.
  assert (Z.land (Z.land rts (rights p)) (rights p) = Z.land rts (rights p)) as Eland
    by (by rewrite <- Z.land_assoc, Z.land_diag).
  specialize (H ltac:(right; exists p; by split_and!)).
  unfold cap_create in *. set (c := cap_compute_hmac _ _) in *. set (st1 := CapState _ _ _ _ _) in *.
  assert (snd (cap_table_insert st1 c) =
    if (CAP_TABLE_SIZE <=? cap_count st) || bad_id (next_cap_id st) then VOS_ERR_FULL else VOS_OK) as Ecode.
  { unfold cap_table_insert. cbn [st1 cap_count with_cache]. change (cap_id c) with (next_cap_id st).
    destruct (CAP_TABLE_SIZE <=? cap_count st); [done|]. by destruct (bad_id _). }
  destruct (cap_table_insert st1 c) as [st2 err] eqn:Eins. destruct H as [Hi2 H]. simpl in Ecode.
  split; [done|]. split; [done|]. destruct H as [[-> Hl]|[-> Hl]]; (split; [done|]); [|done].
  intros _. exists p, c. split; [done|]. split; [exact Hl|]. split_and!; try done.
  apply (lookup_facts st2 (next_cap_id st)); [done|]. rewrite Hl. cbn [with_cache next_cap_id]. by rewrite Z.eqb_refl.
Qed.

Lemma inv_delegate now st from id to : cap_inv st -> cap_inv (fst (cap_delegate now st from id to)).
Proof.
  intros Hi. unfold cap_delegate. destruct (cap_table_lookup st id) as [c|] eqn:L; [|done].
  destruct (negb _); [done|]. destruct (validate_spec now st id c Hi L) as (cache & -> & Hc).
  destruct (negb _); [done|]. apply inv_invalidate.
  edestruct (inv_update (with_cache st cache) id c) as [Hu _];
    [done|done| | | | | | |exact Hu]; done.
Qed.

Lemma cap_reachable_inv st : cap_reachable st -> cap_inv st.
Proof.
  intros (now & ctx & key & H). assert (cap_inv (cap_init now (boot_caps ctx) key)) as Hi by apply inv_init.
  revert Hi. induction H as [|x y z Hs Hr IH]; [done|]. intros Hi. apply IH. clear IH Hr.
  destruct Hs as [now' st obj type owner rts Hn|now' st pid obj req|now' st g id tgt rts Hn|st o id st' err E|now' st f id t].
  - pose proof (inv_create now' st obj type owner rts 0 Hi Hn ltac:(by left)) as H.
    destruct (cap_create _ _ _ _ _ _ _) as [st1 c]. destruct (cap_table_insert st1 c). apply H.
  - by destruct (cap_check_spec now' st pid obj req Hi) as (cache & -> & Hc & _).
  - pose proof (cap_grant_spec now' st g id tgt rts Hi Hn) as H.
    destruct (cap_grant now' st g id tgt rts). apply H.
  - destruct (cap_table_lookup st id) as [c|] eqn:L.
    + destruct (cap_revoke_spec st o id c Hi L) as (st1 & e & E1 & R & _).
      rewrite E in E1. injection E1 as <- <-. apply R.
    + rewrite cap_revoke_missing in E by done. by injection E as <- <-.
  - by apply inv_delegate.
Qed.

(** ** Properties *)

(** [a] is above [c] in the derivation tree. *)
Inductive ancestor (st : cap_state) : capability -> capability -> Prop :=
  | ancestor_parent c p : cap_table_lookup st (parent_cap_id c) = Some p -> ancestor st c p
  | ancestor_step c p a :
      cap_table_lookup st (parent_cap_id c) = Some p -> ancestor st p a -> ancestor st c a.

Lemma parent_derives st id c p :
  cap_inv st -> cap_table_lookup st id = Some c ->
  cap_table_lookup st (parent_cap_id c) = Some p -> derives c p.
Proof.
  intros Hi L Lp. destruct (ci_parent _ Hi _ _ L) as [E|(_ & p' & Lp' & Hd)]; [|congruence].
  rewrite E in Lp. destruct (lookup_facts _ _ _ Hi Lp). lia.
Qed.

(** C4: rights only shrink along delegation.  In every state reachable from
    boot by creating, granting, delegating, checking and revoking, a capability
    designates the same object as any of its ancestors and has no right that
    the ancestor lacks. *)
Theorem cap_attenuation st id c a :
  cap_reachable st -> cap_table_lookup st id = Some c -> ancestor st c a ->
  Z.land (rights c) (rights a) = rights c /\ object_id c = object_id a /\
  object_type c = object_type a.
Proof.
  intros Hi%cap_reachable_inv L H. revert id L. induction H as [c p Lp|c p a Lp H IH]; intros id L;
    destruct (parent_derives _ _ _ _ Hi L Lp) as (_ & Er & Eo & Et); [done|].
  destruct (IH _ Lp) as (Er' & Eo' & Et'). split_and!; [|congruence..].
  rewrite <- Er, <- Z.land_assoc, Er'. done.
Qed.

(** C13: access checks are exact.  In every reachable state, whatever the
    validation cache holds, [cap_check] answers true exactly when the caller is
    the kernel or the table holds an unrevoked, unexpired capability of the
    caller with the required rights on the object (or on the system), and it
    leaves the table unchanged. *)
Theorem cap_check_exact now st pid obj required :
  cap_reachable st ->
  (snd (cap_check now st pid obj required) = true <->
   pid = 0 \/ exists id c, cap_table_lookup st id = Some c /\ allows now pid obj required c) /\
  cap_table (fst (cap_check now st pid obj required)) = cap_table st.
Proof.
  intros Hi%cap_reachable_inv. destruct (cap_check_spec now st pid obj required Hi) as (cache & E & _ & H).
  rewrite E. done.
Qed.

(** C35: what [cap_grant] does on every path.  The code it returns is determined
    by the checks in order (unknown, not the owner, revoked or expired, no grant
    right, table full); on an error no capability changes; on success exactly
    one capability is added: under the next id, owned by the target, derived
    from the parent, with the requested rights cut down to the parent's, and
    sealed. *)
Theorem cap_grant_correct now st granter id target rts :
  cap_reachable st -> next_cap_id st < 2 ^ 64 - 1 ->
  let '(st', err) := cap_grant now st granter id target rts in
  err = grant_code now st granter id /\
  (err <> VOS_OK -> forall j, cap_table_lookup st' j = cap_table_lookup st j) /\
  (err = VOS_OK -> exists p c, cap_table_lookup st id = Some p /\
     (forall j, cap_table_lookup st' j =
        if j =? next_cap_id st then Some c else cap_table_lookup st j) /\
     derives c p /\ owner_pid c = target /\ rights c = Z.land rts (rights p) /\
     sealed st' c /\ revoked c = false).
Proof.
  intros Hi%cap_reachable_inv Hn. pose proof (cap_grant_spec now st granter id target rts Hi Hn) as H.
  destruct (cap_grant now st granter id target rts). apply H.
Qed.

(** What the kernel revokes: the capability and what descends from it through
    capabilities that were not revoked. *)
Lemma cap_revoke_kernel_live st id c j :
  cap_reachable st -> cap_table_lookup st id = Some c ->
  forall st' err, cap_revoke st 0 id = Some (st', err) -> live_below st id j -> is_revoked st' j.
Proof.
  intros Hi%cap_reachable_inv L st' err E Hj.
  destruct (cap_revoke_spec st 0 id c Hi L) as (st1 & err1 & E1 & R & C & _). rewrite E in E1. injection E1 as <- <-.
  destruct (C eq_refl) as [Hc Hk].
  assert (forall j d, cap_table_lookup st j = Some d -> kids_revoked st' (parent_cap_id d) -> is_revoked st' j) as Hkid.
  { intros j' d Ld K. pose proof (rf_lookup _ _ _ R j') as H. rewrite Ld in H.
    destruct H as [H|[H _]]; [|by eexists]. exists d. split; [done|]. by apply (K j' d). }
  induction Hj as [j d Ld Pd Rd|k j d Hk1 IH Ld Pd Rd]; (eapply Hkid; [done|]); rewrite Pd; [done|].
  destruct (Hc k IH) as [(e & Le & Re)|H]; [|done].
  inversion Hk1; subst; congruence.
Qed.

(** C36: revocation by the kernel.  [cap_revoke] with pid 0 terminates with
    success and revokes exactly the capability named and the capabilities that
    descend from it through capabilities that were not yet revoked; every other
    capability is unchanged.  A descendant below an already revoked capability
    is therefore not reached ([revoked_link_stops_cascade]). *)
Theorem cap_revoke_kernel st id c :
  cap_reachable st -> cap_table_lookup st id = Some c ->
  exists st', cap_revoke st 0 id = Some (st', VOS_OK) /\
    (forall j d, cap_table_lookup st j = Some d -> j = id \/ live_below st id j ->
       cap_table_lookup st' j = Some (set_revoked d)) /\
    (forall j, j <> id -> ~ live_below st id j -> cap_table_lookup st' j = cap_table_lookup st j).
Proof.
  intros Hr L. pose proof (cap_reachable_inv _ Hr) as Hi.
  destruct (cap_revoke_spec st 0 id c Hi L) as (st' & err & E & R & _ & N & Hok & _).
  destruct Hok as [-> Hid]; [by left|]. exists st'. split; [done|].
  assert (forall j d, cap_table_lookup st j = Some d -> is_revoked st' j -> cap_table_lookup st' j = Some (set_revoked d)) as Hset.
  { intros j d Ld (e & Le & Re). pose proof (rf_lookup _ _ _ R j) as H. rewrite Ld in H. destruct H as [H|[H _]]; [|done].
    rewrite H in Le. injection Le as <-. rewrite H. f_equal. destruct d. cbn in Re. by subst. }
  split.
  - intros j d Ld [->|Hj]; apply Hset; [done|done|done|exact (cap_revoke_kernel_live _ _ _ _ Hr L _ _ E Hj)].
  - intros j Hne Hj. pose proof (rf_lookup _ _ _ R j) as H. destruct (cap_table_lookup st j) as [d|] eqn:Ld; [|done].
    destruct H as [H|[H _]]; [done|]. destruct (N j) as [(e & Le & Re)|[?|?]]; [by exists (set_revoked d)| |done|done].
    rewrite H. rewrite Ld in Le. injection Le as <-. f_equal. destruct d. cbn in Re. by subst.
Qed.

(** Revocation by a process stops at capabilities it does not own.
    [cap_revoke] called by a process terminates and changes no capability owned
    by anyone else: the capabilities it granted to other processes, although
    descendants of the revoked one, stay valid. *)
Theorem cap_revoke_owner_only st owner id :
  cap_reachable st -> owner <> 0 ->
  exists st' err, cap_revoke st owner id = Some (st', err) /\
    forall j d, cap_table_lookup st j = Some d -> owner_pid d <> owner ->
      cap_table_lookup st' j = Some d.
Proof.
  intros Hi%cap_reachable_inv Ho. destruct (cap_table_lookup st id) as [c|] eqn:L.
  - destruct (cap_revoke_spec st owner id c Hi L) as (st' & err & E & R & _).
    exists st', err. split; [done|]. intros j d Ld Hd. pose proof (rf_lookup _ _ _ R j) as H.
    rewrite Ld in H. destruct H as [H|[_ [?|?]]]; done.
  - exists st, VOS_ERR_NOTFOUND. rewrite cap_revoke_missing by done. done.
Qed.

Lemma validate_cached now st c t :
  nth (cache_slot (cap_id c)) (cap_cache st) zero_cache_entry = CacheEntry (cap_id c) t true true ->
  revoked c = false -> expired now c = false -> u64 (now - t) < CAP_CACHE_TTL ->
  cap_validate now st c = (st, true).
Proof.
  intros En Hr He Ht. unfold cap_validate, cache_hit. rewrite Hr, He, En. cbn [occupied ce_cap_id validated_at ce_valid].
  by rewrite Z.eqb_refl, (proj2 (Z.ltb_lt _ _)).
Qed.

Lemma validate_miss now st c :
  snd (cap_validate now st c) = true -> cache_hit now st (cap_id c) = false ->
  fst (cap_validate now st c) =
    with_cache st (<[cache_slot (cap_id c) := CacheEntry (cap_id c) now true true]> (cap_cache st)).
Proof.
  unfold cap_validate. intros Hv Hm. rewrite Hm in *. destruct (revoked c); [done|].
  destruct (expired now c); [done|]. cbv zeta in *. cbn [fst snd] in *. by rewrite Hv.
Qed.

(** A cached validation accepts a forged token.  Within 1000 ticks of a
    successful validation of a capability, [cap_validate] accepts any token that
    carries the same id and is not marked revoked or expired, whatever its
    rights, its object, its owner and its seal. *)
Theorem cap_validate_cached_forgery now st c forged d :
  cap_reachable st -> snd (cap_validate now st c) = true -> cache_hit now st (cap_id c) = false ->
  cap_id forged = cap_id c -> revoked forged = false -> expires_at forged = 0 ->
  0 <= d < CAP_CACHE_TTL ->
  snd (cap_validate (now + d) (fst (cap_validate now st c)) forged) = true.
Proof.
  intros Hi%cap_reachable_inv Hv Hmiss Eid Hr He Hd. rewrite validate_miss by done.
  rewrite (validate_cached _ _ _ now); [done| |done| |].
  - rewrite Eid. cbn [with_cache cap_cache]. apply nth_lookup_Some, list_lookup_insert_eq.
    rewrite (ci_cache_len _ Hi). unfold cache_slot, CAP_CACHE_SIZE. lia.
  - unfold expired. by rewrite He.
  - replace (now + d - now) with d by lia.
    rewrite wrap_small by (unfold is_word, CAP_CACHE_TTL in *; lia). lia.
Qed.

(** ** Witnesses

    Process 5 receives a capability on object 9 (id 2) and grants it, read and
    write only, to process 6 (id 3). *)

Definition demo_boot : cap_state := cap_init 0 (boot_caps (hmac_ctx_init [])) (replicate 32 7).
Definition demo_created : cap_state :=
  let '(st, c) := cap_create 0 demo_boot 9 CAP_OBJ_PROCESS 5 CAP_ALL 0 in fst (cap_table_insert st c).
Definition demo_granted : cap_state := fst (cap_grant 10 demo_created 5 2 6 (CAP_READ + CAP_WRITE)).

Definition demo_cap (st : cap_state) (id : Z) : capability := default zero_cap (cap_table_lookup st id).

Lemma demo_created_reachable : cap_reachable demo_created.
Proof.
  exists 0, (hmac_ctx_init []), (replicate 32 7). apply rtc_once.
  apply (step_create 0 demo_boot 9 CAP_OBJ_PROCESS 5 CAP_ALL). reflexivity.
Qed.

Lemma demo_granted_reachable : cap_reachable demo_granted.
Proof.
  destruct demo_created_reachable as (now & ctx & key & H). exists now, ctx, key.
  eapply rtc_r; [exact H|]. apply (step_grant 10 demo_created 5 2 6). reflexivity.
Qed.

Lemma demo_parent : cap_table_lookup demo_granted 2 = Some (demo_cap demo_granted 2).
Proof. vm_compute. reflexivity. Qed.

Lemma demo_child : cap_table_lookup demo_granted 3 = Some (demo_cap demo_granted 3).
Proof. vm_compute. reflexivity. Qed.

Lemma cap_attenuation_witness :
  Z.land (rights (demo_cap demo_granted 3)) (rights (demo_cap demo_granted 2)) =
    rights (demo_cap demo_granted 3) /\
  object_id (demo_cap demo_granted 3) = object_id (demo_cap demo_granted 2) /\
  object_type (demo_cap demo_granted 3) = object_type (demo_cap demo_granted 2).
Proof.
  apply (cap_attenuation demo_granted 3); [apply demo_granted_reachable|apply demo_child|].
  apply ancestor_parent. vm_compute. reflexivity.
Defined.

Lemma cap_check_exact_witness :
  (snd (cap_check 20 demo_granted 6 9 CAP_READ) = true <->
   6 = 0 \/ exists id c, cap_table_lookup demo_granted id = Some c /\ allows 20 6 9 CAP_READ c) /\
  cap_table (fst (cap_check 20 demo_granted 6 9 CAP_READ)) = cap_table demo_granted.
Proof. apply cap_check_exact, demo_granted_reachable. Defined.

Lemma cap_grant_correct_witness :
  let '(st', err) := cap_grant 10 demo_created 5 2 6 3 in
  err = grant_code 10 demo_created 5 2 /\
  (err <> VOS_OK -> forall j, cap_table_lookup st' j = cap_table_lookup demo_created j) /\
  (err = VOS_OK -> exists p c, cap_table_lookup demo_created 2 = Some p /\
     (forall j, cap_table_lookup st' j =
        if j =? next_cap_id demo_created then Some c else cap_table_lookup demo_created j) /\
     derives c p /\ owner_pid c = 6 /\ rights c = Z.land 3 (rights p) /\
     sealed st' c /\ revoked c = false).
Proof. apply cap_grant_correct; [apply demo_created_reachable|reflexivity]. Defined.

Lemma cap_revoke_kernel_witness :
  (exists st', cap_revoke demo_granted 0 2 = Some (st', VOS_OK) /\
    (forall j d, cap_table_lookup demo_granted j = Some d -> j = 2 \/ live_below demo_granted 2 j ->
       cap_table_lookup st' j = Some (set_revoked d)) /\
    (forall j, j <> 2 -> ~ live_below demo_granted 2 j -> cap_table_lookup st' j = cap_table_lookup demo_granted j)) /\
  live_below demo_granted 2 3.
Proof.
  split; [apply (cap_revoke_kernel demo_granted 2 (demo_cap demo_granted 2)); [apply demo_granted_reachable|apply demo_parent]|].
  apply (below_child _ _ _ (demo_cap demo_granted 3)); [apply demo_child|vm_compute; reflexivity..].
Defined.

(** A capability granted twice over: process 5 (id 2) to process 6 (id 3), and
    process 6 to process 7 (id 4).  Process 6 revokes its own, which leaves that
    of process 7; when the kernel then revokes the first, the revoked link is
    skipped and process 7 keeps its access. *)
Definition demo_chain : cap_state := fst (cap_grant 10 (fst (cap_grant 10 demo_created 5 2 6 CAP_ALL)) 6 3 7 CAP_READ).
Definition after_revoke (st : cap_state) (owner id : Z) : cap_state := match cap_revoke st owner id with Some (st, _) => st | None => st end.

Example revoked_link_stops_cascade :
  let st := after_revoke (after_revoke demo_chain 6 3) 0 2 in
  cap_reachable st /\
  parent_cap_id (demo_cap st 4) = 3 /\ parent_cap_id (demo_cap st 3) = 2 /\
  revoked (demo_cap st 2) = true /\ revoked (demo_cap st 3) = true /\ revoked (demo_cap st 4) = false /\
  snd (cap_check 20 st 7 9 CAP_READ) = true.
Proof.
  cbv zeta. split; [|vm_compute; repeat split; reflexivity].
  destruct demo_created_reachable as (now & ctx & key & H). exists now, ctx, key.
  eapply rtc_r; [eapply rtc_r; [eapply rtc_r; [eapply rtc_r; [exact H|]|]|]|].
  - apply (step_grant 10 demo_created 5 2 6 CAP_ALL). reflexivity.
  - apply (step_grant 10 _ 6 3 7 CAP_READ). vm_compute. reflexivity.
  - apply (step_revoke demo_chain 6 3 _ VOS_OK). vm_compute. reflexivity.
  - apply (step_revoke _ 0 2 _ VOS_OK). vm_compute. reflexivity.
Qed.

(** The granter revokes its capability; the grantee's, a descendant, survives. *)
Lemma cap_revoke_owner_only_witness :
  owner_pid (demo_cap demo_granted 3) = 6 /\ parent_cap_id (demo_cap demo_granted 3) = 2 /\
  exists st' err, cap_revoke demo_granted 5 2 = Some (st', err) /\
    forall j d, cap_table_lookup demo_granted j = Some d -> owner_pid d <> 5 ->
      cap_table_lookup st' j = Some d.
Proof.
  split; [vm_compute; reflexivity|]. split; [vm_compute; reflexivity|].
  apply cap_revoke_owner_only; [apply demo_granted_reachable|discriminate].
Defined.

(** A token with id 3, all rights and a zero seal, presented 500 ticks later. *)
Lemma cap_validate_cached_forgery_witness :
  snd (cap_validate (10 + 500) (fst (cap_validate 10 demo_granted (demo_cap demo_granted 3)))
         (Cap 3 1 CAP_OBJ_SYSTEM 6 CAP_ALL (replicate 32 0) 0 0 0 false)) = true.
Proof.
  apply cap_validate_cached_forgery;
    [apply demo_granted_reachable|vm_compute; reflexivity..|vm_compute; split; congruence].
Defined.
