(* ===== verification/Database.v ===== *)
(** * The database engine (src/kernel/db/database.c)

    The four parallel arrays indexed by table id are one list of [db_table],
    whose length is [table_count].  The shared plaintext buffers are part of
    the state, so that what is left in them after each operation is visible.
    [mem n] says whether the [n]-th [kmalloc] of a call succeeds.  A B-tree
    fault makes the operation [Fault]. *)

From Stdlib Require Import String Ascii.
From S2P Require Import Prelude CLib Errors Random Sha256 Hmac Aes Record Btree.

Definition MAX_TABLES : nat := 16.
Definition MAX_TABLE_NAME : nat := 64.
Definition MAX_COLUMN_NAME : nat := 64.
Definition AES_BLOCK_SIZE : nat := 16.

Definition TABLE_ID_SYSTEM : nat := 0.
Definition TABLE_ID_PROCESS : nat := 1.
Definition TABLE_ID_CAPABILITY : nat := 2.
Definition TABLE_ID_OBJECT : nat := 3.
Definition TABLE_ID_MESSAGE : nat := 4.
Definition TABLE_ID_AUDIT : nat := 5.

Record encrypted_record := Enc {
  iv : list Z;
  ciphertext : list Z;        (* ciphertext_len bytes *)
  mac : list Z;
  enc_row_id : Z;
  enc_table_id : Z
}.

Record db_table := DbTable {
  schema : table_schema;
  index : btree encrypted_record;
  aes_key : list Z;           (* the round keys *)
  mac_ctx : hmac_ctx
}.

Record db_state := Db {
  tables : list db_table;
  global_row_id : Z;
  master_db_key : list Z;
  serde_buf : list Z;
  crypto_buf : list Z;
  aes_fl : aes_flags;
  gen : rng
}.

Definition with_bufs (st : db_state) (s c : list Z) : db_state :=
  Db (tables st) (global_row_id st) (master_db_key st) s c (aes_fl st) (gen st).
Definition with_tables (st : db_state) (t : list db_table) : db_state :=
  Db t (global_row_id st) (master_db_key st) (serde_buf st) (crypto_buf st) (aes_fl st) (gen st).
Definition with_gen (st : db_state) (g : rng) : db_state :=
  Db (tables st) (global_row_id st) (master_db_key st) (serde_buf st) (crypto_buf st) (aes_fl st) g.
Definition set_index (t : db_table) (i : btree encrypted_record) : db_table :=
  DbTable (schema t) i (aes_key t) (mac_ctx t).

(** [memset(buf, 0, n)] *)
Definition zero_prefix (buf : list Z) (n : nat) : list Z := blit buf 0 (replicate n 0).

Definition mac_input (iv ct : list Z) : list Z := iv ++ ct.

Section database.
Context `{Hw, AesNi}.

Definition db_next_row_id (st : db_state) : db_state * Z :=
  (Db (tables st) (u64 (global_row_id st + 1)) (master_db_key st) (serde_buf st) (crypto_buf st)
     (aes_fl st) (gen st), global_row_id st).

(** ** Tables and keys *)

(** The seven bytes a key is derived from: a tag and the table id. *)
Definition key_domain (tag : list Z) (table_id : Z) : list Z :=
  tag ++ map (fun i => Z.land (Z.shiftr table_id (8 * Z.of_nat i)) 0xFF) (seq 0 4).

Definition derive_table_key (st : db_state) (table_id : Z) : aes_flags * list Z * hmac_ctx :=
  let derived := hmac_sha256 (master_db_key st) (key_domain (cs "AES") table_id) in
  let '(fl, rk) := aes_init (aes_fl st) cpuid1_ecx derived in
  let derived := hmac_sha256 (master_db_key st) (key_domain (cs "MAC") table_id) in
  (fl, rk, hmac_ctx_init derived).

Definition db_create_table (st : db_state) (sch : table_schema) : db_state * Z :=
  let table_count := length (tables st) in
  if (MAX_TABLES <=? table_count)%nat then (st, VOS_ERR_FULL)
  else
    let id := Z.of_nat table_count in
    let sch := Schema (sch_name sch) id (columns sch) (encrypted sch) (system_table sch) in
    let '(fl, rk, mc) := derive_table_key st id in
    (Db (tables st ++ [DbTable sch (btree_init id) rk mc]) (global_row_id st) (master_db_key st)
       (serde_buf st) (crypto_buf st) fl (gen st), VOS_OK).

Definition db_init (st : db_state) : db_state :=
  let '(g, key) := random_bytes (gen st) 32 in
  Db [] 1 key (serde_buf st) (crypto_buf st) (aes_fl st) g.

(** The first table whose name is equal up to case. *)
Fixpoint find_schema (ts : list db_table) (name : list Z) (i : nat) : option nat :=
  match ts with
  | [] => None
  | t :: ts =>
      if strcasecmp (sch_name (schema t)) name =? 0 then Some i else find_schema ts name (S i)
  end.

Definition db_get_schema (st : db_state) (name : list Z) : option nat := find_schema (tables st) name 0.

Definition db_get_schema_by_id (st : db_state) (id : nat) : option table_schema :=
  match tables st !! id with Some t => Some (schema t) | None => None end.

Definition db_get_table_count (st : db_state) : nat := length (tables st).

Definition db_get_index (st : db_state) (id : nat) : option (btree encrypted_record) :=
  match tables st !! id with Some t => Some (index t) | None => None end.

(** ** Encrypt-then-MAC *)

Definition db_insert_record (mem : nat -> bool) (st : db_state) (id : nat) (rec : record)
    : outcome (db_state * Z) :=
  match tables st !! id with
  | None => Done (st, VOS_ERR_INVAL)
  | Some t =>
      (* Step 1: serialize *)
      let '(sbuf, plain_len) := record_serialize rec (serde_buf st) MAX_RECORD_SIZE in
      let st := with_bufs st sbuf (crypto_buf st) in
      if (plain_len =? 0)%nat then Done (st, VOS_ERR_INVAL)
      else
        (* Step 2: PKCS7 pad *)
        let padded_len := aes_padded_size plain_len in
        if (MAX_RECORD_SIZE + AES_BLOCK_SIZE <? padded_len)%nat then Done (st, VOS_ERR_INVAL)
        else
          let cbuf := blit (crypto_buf st) 0 (take plain_len sbuf) in
          let cbuf := aes_pkcs7_pad cbuf plain_len padded_len in
          let st := with_bufs st sbuf cbuf in
          (* Step 3: allocate *)
          if negb (mem 0%nat) then Done (st, VOS_ERR_NOMEM)
          else if negb (mem 1%nat) then Done (st, VOS_ERR_NOMEM)
          else
            (* Step 4: random IV and CBC *)
            let '(g, iv) := random_bytes (gen st) AES_BLOCK_SIZE in
            let st := with_gen st g in
            let ct := aes_cbc_encrypt (aes_fl st) (aes_key t) iv (take padded_len cbuf) in
            (* Step 5: HMAC of IV and ciphertext *)
            if negb (mem 2%nat) then Done (st, VOS_ERR_NOMEM)
            else
              let tag := hmac_ctx_compute (mac_ctx t) (mac_input iv ct) in
              let enc := Enc iv ct tag (row_id rec) (Z.of_nat id) in
              (* Step 6: store *)
              match btree_insert (index t) (row_id rec) enc with
              | Done i =>
                  let st := with_tables st (<[id := set_index t i]> (tables st)) in
                  Done (with_bufs st (zero_prefix sbuf plain_len) (zero_prefix cbuf padded_len), VOS_OK)
              | Fault => Fault
              | NoFuel => NoFuel
              end
  end.

(** ** Verify-then-decrypt *)

Definition db_decrypt_record (mem : nat -> bool) (st : db_state) (id : nat) (enc : encrypted_record)
    : db_state * option record :=
  match tables st !! id with
  | None => (st, None)
  | Some t =>
      if negb (mem 0%nat) then (st, None)
      else
        let computed := hmac_ctx_compute (mac_ctx t) (mac_input (iv enc) (ciphertext enc)) in
        if negb (hmac_verify (mac enc) computed 32) then (st, None)
        else
          let len := length (ciphertext enc) in
          if (MAX_RECORD_SIZE + AES_BLOCK_SIZE <? len)%nat then (st, None)
          else
            let plain := aes_cbc_decrypt (aes_fl st) (aes_key t) (iv enc) (ciphertext enc) in
            let cbuf := blit (crypto_buf st) 0 plain in
            let plain_len := aes_pkcs7_unpad cbuf len in
            let st := with_bufs st (serde_buf st) (zero_prefix cbuf len) in
            if (plain_len =? 0)%nat then (st, None)
            else
              match record_deserialize cbuf plain_len with
              | Some (rec, _) => (st, Some rec)
              | None => (st, None)
              end
  end.

Definition db_get_record (mem : nat -> bool) (st : db_state) (id : nat) (rid : Z)
    : outcome (db_state * option record) :=
  match tables st !! id with
  | None => Done (st, None)
  | Some t =>
      match btree_search (index t) rid with
      | Done None => Done (st, None)
      | Done (Some enc) => Done (db_decrypt_record mem st id enc)
      | Fault => Fault
      | NoFuel => NoFuel
      end
  end.

(** ** Deletion and update *)

Definition db_delete_record (st : db_state) (id : nat) (rid : Z) : outcome (db_state * Z) :=
  match tables st !! id with
  | None => Done (st, VOS_ERR_INVAL)
  | Some t =>
      match btree_search (index t) rid with
      | Done None => Done (st, VOS_ERR_NOTFOUND)
      | Done (Some _) =>
          match btree_delete (index t) rid with
          | Done (i, _) => Done (with_tables st (<[id := set_index t i]> (tables st)), VOS_OK)
          | Fault => Fault
          | NoFuel => NoFuel
          end
      | Fault => Fault
      | NoFuel => NoFuel
      end
  end.

Definition set_ids (rec : record) (rid tid : Z) : record := Rec rid tid (fields rec) (field_count rec).

Definition db_update_encrypted (mem : nat -> bool) (st : db_state) (id : nat) (rid : Z)
    (modified : record) : outcome (db_state * Z) :=
  if (length (tables st) <=? id)%nat then Done (st, VOS_ERR_INVAL)
  else
    match db_delete_record st id rid with
    | Done (st, err) =>
        if negb (err =? VOS_OK) then Done (st, err)
        else db_insert_record mem st id (set_ids modified rid (Z.of_nat id))
    | Fault => Fault
    | NoFuel => NoFuel
    end.

(** ** Audit log *)

(** [fields[i].str_val.length = n] *)
Definition set_str_length (rec : record) (i : nat) (n : Z) : record :=
  match field rec i with
  | FStr data _ => Rec (row_id rec) (table_id rec) (<[i := FStr data n]> (fields rec)) (field_count rec)
  | _ => rec
  end.

Definition pad_str (s : list Z) : list Z :=
  blit (replicate (S MAX_STR_LEN) 0) 0 (take (Nat.min (strlen s) MAX_STR_LEN) s).

Definition audit_record (rid now pid : Z) (action : list Z) (target : Z) (result : list Z) : record :=
  let a := Rec rid (Z.of_nat TABLE_ID_AUDIT) (fields zero_record) 6 in
  let a := record_set_u64 a 0 rid in
  let a := record_set_u64 a 1 now in
  let a := record_set_u64 a 2 pid in
  let a := record_set_str a 3 (pad_str action) in
  let a := set_str_length a 3 (Z.of_nat MAX_STR_LEN) in
  let a := record_set_u64 a 4 target in
  let a := record_set_str a 5 (pad_str result) in
  set_str_length a 5 (Z.of_nat MAX_STR_LEN).

Definition db_audit_log (mem : nat -> bool) (st : db_state) (now pid : Z) (action : list Z)
    (target : Z) (result : list Z) : outcome db_state :=
  let '(st, rid) := db_next_row_id st in
  match db_insert_record mem st TABLE_ID_AUDIT (audit_record rid now pid action target result) with
  | Done (st, _) => Done st
  | Fault => Fault
  | NoFuel => NoFuel
  end.

(** ** System tables *)

Definition col (name : string) (t : column_type) (pk nn : bool) : column_def :=
  ColDef (cells MAX_COLUMN_NAME name) t pk nn false.

Definition sys_schema (name : string) (sys : bool) (cols : list column_def) : table_schema :=
  Schema (cells MAX_TABLE_NAME name) 0 cols true sys.

Definition system_schemas : list table_schema := [
  sys_schema "SystemTable" true
    [col "id" COL_U64 true false; col "key" COL_STR false true; col "value" COL_STR false false;
     col "created" COL_U64 false false];
  sys_schema "ProcessTable" true
    [col "pid" COL_U64 true false; col "name" COL_STR false false; col "state" COL_STR false false;
     col "priority" COL_U32 false false; col "cap_root" COL_U64 false false;
     col "created" COL_U64 false false];
  sys_schema "CapabilityTable" true
    [col "cap_id" COL_U64 true false; col "object_id" COL_U64 false false;
     col "owner_pid" COL_U64 false false; col "rights" COL_U32 false false;
     col "parent_id" COL_U64 false false; col "revoked" COL_BOOL false false;
     col "created" COL_U64 false false];
  sys_schema "ObjectTable" false
    [col "obj_id" COL_U64 true false; col "name" COL_STR false true; col "type" COL_STR false false;
     col "data" COL_STR false false; col "owner_pid" COL_U64 false false;
     col "size" COL_U64 false false; col "created" COL_U64 false false];
  sys_schema "MessageTable" true
    [col "msg_id" COL_U64 true false; col "src_pid" COL_U64 false false;
     col "dst_pid" COL_U64 false false; col "type" COL_STR false false;
     col "payload" COL_STR false false; col "delivered" COL_BOOL false false];
  sys_schema "AuditTable" true
    [col "audit_id" COL_U64 true false; col "timestamp" COL_U64 false false;
     col "pid" COL_U64 false false; col "action" COL_STR false false;
     col "target_id" COL_U64 false false; col "result" COL_STR false false]
].

Definition system_record (rid : Z) (key value : string) : record :=
  let r := Rec rid (Z.of_nat TABLE_ID_SYSTEM) (fields zero_record) 0 in
  let r := record_set_u64 r 0 rid in
  let r := record_set_str r 1 (cs key ++ [0]) in
  let r := record_set_str r 2 (cs value ++ [0]) in
  record_set_u64 r 3 0.

(** Insert one boot record; the returned code is ignored. *)
Definition insert_system (mem : nat -> bool) (st : db_state) (key value : string) : outcome db_state :=
  let '(st, rid) := db_next_row_id st in
  match db_insert_record mem st TABLE_ID_SYSTEM (system_record rid key value) with
  | Done (st, _) => Done st
  | Fault => Fault
  | NoFuel => NoFuel
  end.

Definition boot_values : list (string * string) := [
  ("os.name", "VaultOS"); ("os.version", "0.1.0");
  ("os.philosophy", "Everything is a database and all data is confidential")]%string.

Fixpoint insert_systems (mem : nat -> bool) (st : db_state) (l : list (string * string))
    : outcome db_state :=
  match l with
  | [] => Done st
  | (k, v) :: l =>
      match insert_system mem st k v with
      | Done st => insert_systems mem st l
      | o => o
      end
  end.

Definition db_init_system_tables (mem : nat -> bool) (st : db_state) : outcome db_state :=
  let st := foldl (fun st sch => fst (db_create_table st sch)) st system_schemas in
  insert_systems mem st boot_values.
End database.

(** ** Query results

    [mem] tells whether [krealloc] succeeds; a null pointer is [None]. *)

Record query_result := QResult {
  rows : list record;        (* the first row_count rows *)
  row_capacity : Z;
  error_code : Z;
  error_msg : list Z;        (* char error_msg[256] *)
  res_schema : option table_schema
}.

Definition db_result_create (mem : nat -> bool) (capacity : Z) : option query_result :=
  if negb (mem 0%nat) then None
  else if (0 <? capacity) && negb (mem 1%nat) then None
  else Some (QResult [] capacity VOS_OK (replicate 256 0) None).

Definition db_result_add_row (mem : bool) (r : query_result) (row : record) : query_result :=
  if row_capacity r <=? Z.of_nat (length (rows r)) then
    let new_cap := if row_capacity r =? 0 then 16 else u32 (row_capacity r * 2) in
    if negb mem then r
    else QResult (rows r ++ [row]) new_cap (error_code r) (error_msg r) (res_schema r)
  else QResult (rows r ++ [row]) (row_capacity r) (error_code r) (error_msg r) (res_schema r).

Definition db_result_error (mem : nat -> bool) (code : Z) (msg : list Z) : option query_result :=
  match db_result_create mem 0 with
  | None => None
  | Some r => Some (QResult (rows r) (row_capacity r) code (strncpy (error_msg r) msg 255) (res_schema r))
  end.

(** ** A small run: two rows in the object table, read back *)

Definition all_mem : nat -> bool := fun _ => true.

Definition boot_db : db_state :=
  Db [] 1 [] (replicate MAX_RECORD_SIZE 0) (replicate (MAX_RECORD_SIZE + AES_BLOCK_SIZE) 0)
    (AesFlags false false) (Rng 11 22 false 0 0).

Definition demo_db : outcome db_state := db_init_system_tables all_mem (db_init boot_db).

Example demo_db_reads :
  match demo_db with
  | Done st =>
      match db_get_record all_mem st TABLE_ID_SYSTEM 2 with
      | Done (_, Some rec) =>
          length (tables st) = 6%nat /\ field rec 1 = str_field (cs "os.version" ++ [0])
      | _ => False
      end
  | _ => False
  end.
Proof. vm_compute. by split. Qed.
