(* ===== verification/DatabaseSpec.v ===== *)
(** * Correctness of the database engine

    [db_ok] is the invariant of the engine; [stored] is the abstract content:
    which ciphertext each (table, row id) holds.  The theorems follow a record
    through the pipeline: what is inserted is read back, what is tampered with
    is refused, what is deleted is gone, and what plaintext stays behind. *)

From Stdlib Require Import String.
From stdpp Require Import gmap.
From S2P Require Import Prelude CLib Errors Random Sha256 Hmac Aes Record Btree BtreeSpec Database.

(** Ciphers are applied, never evaluated, in proofs. *)
#[local] Opaque hmac_ctx_compute hmac_verify hmac_sha256 aes_cbc_encrypt aes_cbc_decrypt aes_init
  record_serialize record_deserialize random_bytes.

Record table_ok (t : db_table) : Prop := {
  to_tree : wf_tree (index t);
  to_key : is_schedule (aes_key t)
}.

Record db_ok (st : db_state) : Prop := {
  ok_serde : length (serde_buf st) = MAX_RECORD_SIZE;
  ok_crypto : length (crypto_buf st) = (MAX_RECORD_SIZE + AES_BLOCK_SIZE)%nat;
  ok_tables : Forall table_ok (tables st)
}.

(** The ciphertext held for row [rid] of table [id]. *)
Definition stored (st : db_state) (id : nat) (rid : Z) : option encrypted_record :=
  match tables st !! id with Some t => abs (index t) !! rid | None => None end.

(** The bytes that are encrypted for a record. *)
Definition padded (rec : record) : list Z :=
  let n := aes_padded_size (length (wire rec)) in
  wire rec ++ replicate (n - length (wire rec)) (Z.of_nat (n - length (wire rec))).

Definition fits_record (rec : record) : Prop := (length (wire rec) <= MAX_RECORD_SIZE)%nat.

Lemma table_ok_lookup st id t : db_ok st -> tables st !! id = Some t -> table_ok t.
Proof. intros [_ _ H] L. rewrite Forall_forall in H. apply H. by eapply list_elem_of_lookup_2. Qed.

Lemma wire_field_bytes f : wf_field f -> bytes (wire_field f).
Proof.
  intros Hf. unfold wire_field. apply Forall_app_2; [apply le_bytes_bytes|].
  destruct f as [v|v|data l|data l|v|v|v]; cbn [wire_payload wf_field] in *; auto with vault.
  - destruct Hf as (s & -> & Hl & Hb & ->). apply Forall_app_2; [apply le_bytes_bytes|].
    rewrite Nat2Z.id. rewrite take_app_length. done.
  - destruct Hf as (s & -> & Hl & Hb & ->). apply Forall_app_2; [apply le_bytes_bytes|].
    rewrite Nat2Z.id. rewrite take_app_length. done.
  - destruct v; by repeat constructor.
Qed.

Lemma wire_bytes rec : wf_record rec -> bytes (wire rec).
Proof.
  intros [_ _ _ _ Hl _]. unfold wire, wire_header. repeat apply Forall_app_2; auto with vault.
  apply Forall_concat, Forall_map. eapply Forall_impl; [exact Hl|]. apply wire_field_bytes.
Qed.

Lemma wire_length rec : (16 <= length (wire rec))%nat.
Proof. unfold wire, wire_header. len. Qed.

Lemma padded_shape rec :
  wf_record rec ->
  bytes (padded rec) /\ length (padded rec) = aes_padded_size (length (wire rec)) /\
  (length (padded rec) mod 16 = 0)%nat.
Proof.
  intros Hw. pose proof (aes_padded_size_spec (length (wire rec))) as [Hb Hm]. unfold padded.
  assert (length (wire rec ++ replicate (aes_padded_size (length (wire rec)) - length (wire rec))
    (Z.of_nat (aes_padded_size (length (wire rec)) - length (wire rec)))) =
    aes_padded_size (length (wire rec))) as E by len.
  rewrite E. split_and!; [|done|done]. apply Forall_app_2; [by apply wire_bytes|].
  apply Forall_replicate. unfold is_word. lia.
Qed.

Section database_spec.
Context {HW : Hw} {NI : AesNi} {NIL : AesNiLaws}.

(** ** The pipeline *)

Definition seal_record (fl : aes_flags) (t : db_table) (id : nat) (ivec : list Z) (rec : record)
    : encrypted_record :=
  let ct := aes_cbc_encrypt fl (aes_key t) ivec (padded rec) in
  Enc ivec ct (hmac_ctx_compute (mac_ctx t) (mac_input ivec ct)) (row_id rec) (Z.of_nat id).

Lemma zero_prefix_length buf n : (n <= length buf)%nat -> length (zero_prefix buf n) = length buf.
Proof. intros. unfold zero_prefix. rewrite length_blit; len. Qed.

(** Decrypting what was sealed gives the record, whichever AES path each used. *)
Lemma decrypt_sealed mem st id t fl ivec rec :
  db_ok st -> tables st !! id = Some t -> mem 0%nat = true ->
  length ivec = 16%nat -> bytes ivec -> wf_record rec -> fits_record rec ->
  exists st', db_decrypt_record mem st id (seal_record fl t id ivec rec) = (st', Some rec) /\
    tables st' = tables st /\ db_ok st'.
Proof.
  intros Hok L Hm Hiv Hivb Hw Hfit. destruct (table_ok_lookup _ _ _ Hok L) as [_ Hk].
  destruct (padded_shape rec Hw) as (Hpb & Hpl & Hpm).
  pose proof (aes_padded_size_spec (length (wire rec))) as [Hsz Hsm].
  destruct (cbc_encrypt_shape fl (aes_key t) ivec (padded rec) Hk Hiv Hivb Hpm Hpb) as [_ Hcl].
  pose proof (ok_crypto _ Hok) as Hcb. unfold fits_record, MAX_RECORD_SIZE, AES_BLOCK_SIZE in *.
  unfold db_decrypt_record. rewrite L, Hm. cbn [negb seal_record mac iv ciphertext].
  rewrite hmac_verify_same. cbn [negb]. rewrite Hcl, Hpl.
  rewrite (proj2 (Nat.ltb_ge _ _)) by (unfold MAX_RECORD_SIZE, AES_BLOCK_SIZE; lia).
  rewrite (cbc_roundtrip _ _ _ fl (aes_fl st)) by done.
  set (n := aes_padded_size (length (wire rec))) in *.
  assert (blit (crypto_buf st) 0 (padded rec) =
    wire rec ++ replicate (n - length (wire rec)) (Z.of_nat (n - length (wire rec))) ++
    drop n (crypto_buf st)) as Eb.
  { unfold blit. rewrite take_0, app_nil_l, Nat.add_0_l, Hpl. unfold padded. by rewrite <- app_assoc. }
  pose proof (aes_pkcs7_unpad_spec (wire rec) (n - length (wire rec)) (drop n (crypto_buf st))) as Eu.
  replace (length (wire rec) + (n - length (wire rec)))%nat with n in Eu by lia.
  rewrite Eb, Eu by lia.
  pose proof (wire_length rec). rewrite (proj2 (Nat.eqb_neq _ _)) by lia.
  rewrite record_deserialize_wire by done. eexists. split; [done|]. split; [done|].
  destruct Hok as [H1 H2 H3]. constructor; [done| |done]. cbn [with_bufs crypto_buf].
  rewrite <- Eb, zero_prefix_length; rewrite length_blit; unfold MAX_RECORD_SIZE, AES_BLOCK_SIZE; lia.
Qed.

(** The state after the buffers have been used: their prefixes zeroed. *)
Definition after_insert (st : db_state) (id : nat) (t : db_table) (i : btree encrypted_record)
    (rec : record) (g : rng) : db_state :=
  let n := length (wire rec) in
  with_bufs (with_gen (with_tables st (<[id := set_index t i]> (tables st))) g)
    (zero_prefix (blit (serde_buf st) 0 (wire rec)) n)
    (zero_prefix (aes_pkcs7_pad (blit (crypto_buf st) 0 (wire rec)) n (aes_padded_size n))
       (aes_padded_size n)).

Lemma serialize_fits st rec :
  db_ok st -> wf_record rec -> fits_record rec ->
  record_serialize rec (serde_buf st) MAX_RECORD_SIZE =
    (blit (serde_buf st) 0 (wire rec), length (wire rec)).
Proof.
  intros Hok Hw Hf.
  assert (Forall str_ok (live_fields rec)) as Hs
    by (eapply Forall_impl; [apply Hw|apply wf_field_str_ok]).
  pose proof (record_serialize_spec rec (serde_buf st) MAX_RECORD_SIZE Hs) as E.
  rewrite (proj2 (Nat.leb_le _ _)) in E by done. apply E. by rewrite (ok_serde _ Hok).
Qed.

Lemma insert_pipeline mem st id t rec i :
  db_ok st -> tables st !! id = Some t -> (forall n, mem n = true) ->
  wf_record rec -> fits_record rec ->
  let '(g, ivec) := random_bytes (gen st) 16 in
  btree_insert (index t) (row_id rec) (seal_record (aes_fl st) t id ivec rec) = Done i ->
  db_insert_record mem st id rec = Done (after_insert st id t i rec g, VOS_OK).
Proof.
  intros Hok L Hm Hw Hf. destruct (random_bytes (gen st) 16) as [g ivec] eqn:Eg. intros Ei.
  pose proof (aes_padded_size_spec (length (wire rec))) as [Hsz _]. pose proof (wire_length rec).
  pose proof (ok_crypto _ Hok) as Hcb. pose proof (ok_serde _ Hok) as Hsb.
  unfold db_insert_record. rewrite L, serialize_fits by done.
  unfold fits_record in Hf. rewrite (proj2 (Nat.eqb_neq _ _)) by lia.
  rewrite (proj2 (Nat.ltb_ge _ _)) by (unfold AES_BLOCK_SIZE; lia).
  rewrite !Hm. cbn [negb with_bufs gen crypto_buf]. unfold AES_BLOCK_SIZE at 1. rewrite Eg.
  assert (take (length (wire rec)) (blit (serde_buf st) 0 (wire rec)) = wire rec) as Et
    by (apply (take_blit (serde_buf st) (wire rec) 0); lia).
  rewrite Et.
  assert (take (aes_padded_size (length (wire rec)))
    (aes_pkcs7_pad (blit (crypto_buf st) 0 (wire rec)) (length (wire rec))
       (aes_padded_size (length (wire rec)))) = padded rec) as Ep.
  { unfold padded. eapply aes_pkcs7_pad_spec; [unfold blit; rewrite take_0; done|].
    rewrite length_blit; rewrite Hcb; unfold AES_BLOCK_SIZE; lia. }
  rewrite Ep. cbn [with_gen with_bufs aes_fl]. fold (seal_record (aes_fl st) t id ivec rec).
  rewrite Ei. reflexivity.
Qed.

Lemma length_pkcs7_pad buf a b : length (aes_pkcs7_pad buf a b) = length buf.
Proof.
  unfold aes_pkcs7_pad. set (x := u8 _). generalize (seq a (b - a)). intros l. revert buf.
  induction l as [|j l IH]; intros buf; simpl; [done|]. rewrite IH. len.
Qed.

Lemma after_insert_ok st id t i rec g :
  db_ok st -> tables st !! id = Some t -> fits_record rec -> wf_tree i ->
  db_ok (after_insert st id t i rec g).
Proof.
  intros Hok L Hf Hi. destruct (table_ok_lookup _ _ _ Hok L) as [_ Hk]. destruct Hok as [H1 H2 H3].
  pose proof (aes_padded_size_spec (length (wire rec))) as [Hsz _]. unfold fits_record in Hf.
  unfold AES_BLOCK_SIZE in *.
  constructor; cbn [after_insert with_bufs with_gen with_tables serde_buf crypto_buf tables].
  - rewrite zero_prefix_length; rewrite length_blit; lia.
  - rewrite zero_prefix_length; rewrite length_pkcs7_pad, length_blit; unfold AES_BLOCK_SIZE; lia.
  - apply Forall_insert; [done|]. by constructor.
Qed.

(** ** The abstract content *)

Lemma stored_insert st st' id t i id' rid :
  tables st !! id = Some t -> tables st' = <[id := set_index t i]> (tables st) ->
  stored st' id' rid = if decide (id' = id) then abs i !! rid else stored st id' rid.
Proof.
  intros L E. unfold stored. rewrite E. case_decide as Ei.
  - subst id'. rewrite list_lookup_insert_eq; [done|]. by eapply lookup_lt_Some.
  - by rewrite list_lookup_insert_ne.
Qed.

Lemma stored_table st id t rid : tables st !! id = Some t -> stored st id rid = abs (index t) !! rid.
Proof. intros L. unfold stored. by rewrite L. Qed.

(** Reading a row decrypts what is stored for it. *)
Lemma get_stored mem st id rid :
  db_ok st ->
  db_get_record mem st id rid =
    Done (match stored st id rid with
          | Some enc => db_decrypt_record mem st id enc
          | None => (st, None)
          end).
Proof.
  intros Hok. unfold db_get_record, stored. destruct (tables st !! id) as [t|] eqn:L; [|done].
  destruct (table_ok_lookup _ _ _ Hok L) as [Hw _]. rewrite tree_search by done.
  by destruct (abs (index t) !! rid).
Qed.

Lemma insert_stores mem st id t rec :
  db_ok st -> tables st !! id = Some t -> (forall n, mem n = true) ->
  wf_record rec -> fits_record rec ->
  tree_roomy (index t) -> row_id rec ∉ tree_leaf_keys (index t) ->
  exists i g ivec, length ivec = 16%nat /\ bytes ivec /\
    db_insert_record mem st id rec = Done (after_insert st id t i rec g, VOS_OK) /\
    db_ok (after_insert st id t i rec g) /\
    abs i = <[row_id rec := seal_record (aes_fl st) t id ivec rec]> (abs (index t)) /\
    btree_insert (index t) (row_id rec) (seal_record (aes_fl st) t id ivec rec) = Done i.
Proof.
  intros Hok L Hm Hw Hf Hr Hk. pose proof (insert_pipeline mem st id t rec) as Hp.
  destruct (random_bytes (gen st) 16) as [g ivec] eqn:Eg.
  destruct (random_bytes_spec (gen st) 16) as [Hl Hb]. rewrite Eg in Hl, Hb. cbn [snd] in Hl, Hb.
  destruct (table_ok_lookup _ _ _ Hok L) as [Hwt _].
  destruct (tree_insert (index t) (row_id rec) (seal_record (aes_fl st) t id ivec rec) Hwt Hr)
    as (i & Ei & Hwi & Ea & _); [apply (wf_row _ Hw)|done|].
  exists i, g, ivec. split_and!; [done|done|by apply Hp|by apply after_insert_ok|done|done].
Qed.

(** C6: what is inserted is read back.  For a well-formed record that fits the
    buffer, with a row id that no leaf of the table's tree holds,
    [db_insert_record] (serialize, pad, encrypt, MAC, store) succeeds;
    [db_get_record] then verifies, decrypts and returns exactly that record;
    every other row of every table is unchanged, and the invariant holds. *)
Theorem db_insert_get mem st id t rec :
  db_ok st -> tables st !! id = Some t -> (forall n, mem n = true) ->
  wf_record rec -> fits_record rec ->
  tree_roomy (index t) -> row_id rec ∉ tree_leaf_keys (index t) ->
  exists st', db_insert_record mem st id rec = Done (st', VOS_OK) /\ db_ok st' /\
    (exists st'', db_get_record mem st' id (row_id rec) = Done (st'', Some rec)) /\
    (forall id' rid, (id', rid) <> (id, row_id rec) -> stored st' id' rid = stored st id' rid).
Proof.
  intros Hok L Hm Hw Hf Hr Hk.
  destruct (insert_stores mem st id t rec) as (i & g & ivec & Hl & Hb & E & Hok' & Ea & _); [done..|].
  set (st' := after_insert st id t i rec g) in *. exists st'.
  pose proof (fun id' rid => stored_insert st st' id t i id' rid L eq_refl) as Hst.
  assert (tables st' !! id = Some (set_index t i)) as L'.
  { apply list_lookup_insert_eq. by eapply lookup_lt_Some. }
  split_and!; [done|done| |].
  - rewrite get_stored, Hst, decide_True, Ea, lookup_insert_eq by done.
    destruct (decrypt_sealed mem st' id (set_index t i) (aes_fl st) ivec rec) as (st'' & Ed & _); [done..|].
    exists st''. by rewrite <- Ed.
  - intros id' rid Hne. rewrite Hst. case_decide as Ei; [|done]. subst id'.
    rewrite Ea, lookup_insert_ne by congruence. by rewrite (stored_table st id t).
Qed.

(** C15: tampering is detected.  Whatever was done to the stored IV, ciphertext
    or tag, if the tag is not the HMAC of the IV and the ciphertext under the
    table's MAC key, [db_decrypt_record] returns null and decrypts nothing:
    the state, with its plaintext buffers, is unchanged. *)
Theorem db_tamper_detected mem st id t enc :
  tables st !! id = Some t -> bytes (mac enc) -> length (mac enc) = 32%nat ->
  mac enc <> hmac_ctx_compute (mac_ctx t) (mac_input (iv enc) (ciphertext enc)) ->
  db_decrypt_record mem st id enc = (st, None).
Proof.
  intros L Hb Hl Hne. unfold db_decrypt_record. rewrite L. destruct (mem 0%nat); [|done]. cbn [negb].
  rewrite hmac_verify_tag by done. by rewrite bool_decide_eq_false_2.
Qed.

Lemma delete_spec st id t rid :
  db_ok st -> tables st !! id = Some t ->
  match stored st id rid with
  | None => db_delete_record st id rid = Done (st, VOS_ERR_NOTFOUND)
  | Some _ => exists i,
      db_delete_record st id rid = Done (with_tables st (<[id := set_index t i]> (tables st)), VOS_OK) /\
      wf_tree i /\ abs i = delete rid (abs (index t)) /\ rid ∉ tree_leaf_keys i /\
      (tree_roomy (index t) -> tree_roomy i)
  end.
Proof.
  intros Hok L. destruct (table_ok_lookup _ _ _ Hok L) as [Hw _].
  rewrite (stored_table st id t) by done. unfold db_delete_record. rewrite L, tree_search by done.
  destruct (abs (index t) !! rid) as [enc|] eqn:Ea; [|done].
  destruct (tree_delete (index t) rid Hw) as (i & r & E & Hwi & Ed & Hcase). rewrite E.
  exists i. split; [done|]. destruct Hcase as [(_ & _ & _ & Hl & Hr & _)|(Hk & _)]; [done|].
  rewrite abs_lookup, get_None in Ea by done. done.
Qed.

Lemma with_tables_ok st id t i :
  db_ok st -> tables st !! id = Some t -> wf_tree i ->
  db_ok (with_tables st (<[id := set_index t i]> (tables st))).
Proof.
  intros Hok L Hi. destruct (table_ok_lookup _ _ _ Hok L) as [_ Hk]. destruct Hok as [B1 B2 B3].
  constructor; [done|done|]. apply Forall_insert; [done|]. by constructor.
Qed.

(** Deletion removes exactly the row.  [db_delete_record] on an existing
    table answers success when the row is stored and not-found otherwise; the
    row is gone afterwards, every other row is unchanged, and the invariant
    holds. *)
Theorem db_delete_correct st id t rid :
  db_ok st -> tables st !! id = Some t ->
  exists st', db_delete_record st id rid =
      Done (st', match stored st id rid with Some _ => VOS_OK | None => VOS_ERR_NOTFOUND end) /\
    db_ok st' /\ stored st' id rid = None /\
    (forall id' rid', (id', rid') <> (id, rid) -> stored st' id' rid' = stored st id' rid').
Proof.
  intros Hok L. pose proof (delete_spec st id t rid Hok L) as Hd.
  destruct (stored st id rid) as [enc|] eqn:Es; [|by exists st].
  destruct Hd as (i & E & Hwi & Ea & _).
  set (st1 := with_tables st (<[id := set_index t i]> (tables st))) in *. exists st1. split; [done|].
  pose proof (fun id' rid => stored_insert st st1 id t i id' rid L eq_refl) as Hst.
  split_and!; [by apply with_tables_ok|by rewrite Hst, decide_True, Ea, lookup_delete_eq|].
  intros id' rid' Hne. rewrite Hst. case_decide; [|done]. subst id'.
  rewrite Ea, lookup_delete_ne by congruence. by rewrite (stored_table st id t).
Qed.

(** C14: update replaces the row.  For a stored row and a record that
    serializes, [db_update_encrypted] succeeds, the row then reads as the new
    record (under the old row id) and every other row is unchanged: the
    deletion makes the re-insertion legal, even where it leaves a tombstone. *)
Theorem db_update_correct mem st id t rid enc modified :
  db_ok st -> tables st !! id = Some t -> (forall n, mem n = true) ->
  stored st id rid = Some enc -> tree_roomy (index t) ->
  wf_record (set_ids modified rid (Z.of_nat id)) -> fits_record (set_ids modified rid (Z.of_nat id)) ->
  exists st', db_update_encrypted mem st id rid modified = Done (st', VOS_OK) /\ db_ok st' /\
    (exists st'', db_get_record mem st' id rid = Done (st'', Some (set_ids modified rid (Z.of_nat id)))) /\
    (forall id' rid', (id', rid') <> (id, rid) -> stored st' id' rid' = stored st id' rid').
Proof.
  intros Hok L Hm Es Hr Hw Hf. pose proof (delete_spec st id t rid Hok L) as Hd. rewrite Es in Hd.
  destruct Hd as (i & E & Hwi & Ea & Hl & Hroom).
  set (st1 := with_tables st (<[id := set_index t i]> (tables st))) in *.
  assert (db_ok st1) as Hok1 by (by apply with_tables_ok).
  pose proof (lookup_lt_Some _ _ _ L) as Hlt.
  assert (tables st1 !! id = Some (set_index t i)) as L1 by (by apply list_lookup_insert_eq).
  destruct (insert_stores mem st1 id (set_index t i) (set_ids modified rid (Z.of_nat id)))
    as (i2 & g & ivec & Hil & Hib & E2 & Hok2 & Ea2 & _); [done..|by apply Hroom|done|].
  set (rec := set_ids modified rid (Z.of_nat id)) in *. set (st2 := after_insert st1 _ _ _ _ _) in *.
  exists st2. split.
  { unfold db_update_encrypted. rewrite (proj2 (Nat.leb_gt _ _)) by done. rewrite E. exact E2. }
  pose proof (fun id' rid => stored_insert st1 st2 id (set_index t i) i2 id' rid L1 eq_refl) as Hst.
  split_and!; [done| |].
  - rewrite get_stored, Hst, decide_True, Ea2 by done. change (row_id rec) with rid.
    rewrite lookup_insert_eq.
    destruct (decrypt_sealed mem st2 id (set_index (set_index t i) i2) (aes_fl st1) ivec rec)
      as (st3 & Ed & _); [done| |done..|].
    { apply list_lookup_insert_eq. by eapply lookup_lt_Some. }
    exists st3. by rewrite <- Ed.
  - intros id' rid' Hne. rewrite Hst. case_decide as Ei.
    + subst id'. rewrite Ea2. change (row_id rec) with rid. rewrite lookup_insert_ne by congruence.
      cbn [set_index index]. rewrite Ea, lookup_delete_ne by congruence. by rewrite (stored_table st id t).
    + rewrite (stored_insert st st1 id t i) by done. by rewrite decide_False.
Qed.

(** A failed update loses the row.  When the new record does not fit,
    [db_update_encrypted] reports an error, but the old row has already been
    deleted. *)
Theorem db_update_loses_row mem st id t rid enc modified :
  db_ok st -> tables st !! id = Some t -> stored st id rid = Some enc ->
  wf_record (set_ids modified rid (Z.of_nat id)) -> ~ fits_record (set_ids modified rid (Z.of_nat id)) ->
  exists st', db_update_encrypted mem st id rid modified = Done (st', VOS_ERR_INVAL) /\
    stored st' id rid = None.
Proof.
  intros Hok L Es Hw Hf. pose proof (delete_spec st id t rid Hok L) as Hd. rewrite Es in Hd.
  destruct Hd as (i & E & Hwi & Ea & _).
  set (st1 := with_tables st (<[id := set_index t i]> (tables st))) in *.
  pose proof (lookup_lt_Some _ _ _ L) as Hlt.
  assert (tables st1 !! id = Some (set_index t i)) as L1 by (by apply list_lookup_insert_eq).
  unfold db_update_encrypted. rewrite (proj2 (Nat.leb_gt _ _)) by done. rewrite E. cbn [negb Z.eqb VOS_OK].
  unfold db_insert_record. rewrite L1. set (rec := set_ids modified rid (Z.of_nat id)) in *.
  assert (Forall str_ok (live_fields rec)) as Hs
    by (eapply Forall_impl; [apply Hw|apply wf_field_str_ok]).
  pose proof (record_serialize_spec rec (serde_buf st1) MAX_RECORD_SIZE Hs) as Er.
  unfold fits_record in Hf. rewrite (proj2 (Nat.leb_gt _ _)) in Er by lia.
  specialize (Er ltac:(by rewrite <- (ok_serde _ Hok))).
  destruct (record_serialize rec (serde_buf st1) MAX_RECORD_SIZE) as [sbuf n]. cbn [snd] in Er. subst n.
  eexists. split; [reflexivity|].
  rewrite (stored_insert st _ id t i) by done. by rewrite decide_True, Ea, lookup_delete_eq.
Qed.

(** ** Plaintext left in the shared buffers *)

Lemma zero_prefix_over buf x : (length x <= length buf)%nat ->
  zero_prefix (blit buf 0 x) (length x) = zero_prefix buf (length x).
Proof.
  intros Hl. unfold zero_prefix, blit. rewrite !take_0, !app_nil_l, !Nat.add_0_l, !length_replicate.
  by rewrite drop_app_length.
Qed.

Lemma drop_insert_all {A} (x : A) buf l n :
  Forall (fun i => (i < n)%nat) l -> drop n (foldl (fun b i => <[i := x]> b) buf l) = drop n buf.
Proof.
  intros Hl. revert buf. induction Hl as [|i l Hi Hl IH]; intros buf; simpl; [done|].
  by rewrite IH, drop_insert_lt.
Qed.

Lemma zero_prefix_pad buf x p : (length x <= p)%nat ->
  zero_prefix (aes_pkcs7_pad (blit buf 0 x) (length x) p) p = zero_prefix buf p.
Proof.
  intros Hl. unfold zero_prefix, blit at 1 3. rewrite !take_0, !app_nil_l, !Nat.add_0_l, !length_replicate.
  f_equal. unfold aes_pkcs7_pad. rewrite drop_insert_all.
  - unfold blit. rewrite take_0, app_nil_l, Nat.add_0_l, drop_app_ge by done. rewrite drop_drop. f_equal. lia.
  - apply Forall_forall. intros i Hi%elem_of_seq. lia.
Qed.

Lemma take_pad buf x p : (length x <= p)%nat ->
  take (length x) (aes_pkcs7_pad (blit buf 0 x) (length x) p) = x.
Proof.
  intros Hl. unfold aes_pkcs7_pad. set (v := u8 _).
  assert (forall l b, Forall (fun i => (length x <= i)%nat) l ->
    take (length x) (foldl (fun b i => <[i := v]> b) b l) = take (length x) b) as E.
  { intros l. induction l as [|i l IH]; intros b Hi; [done|]. apply Forall_cons in Hi as [Hi Hs]. simpl.
    by rewrite IH, take_insert_ge. }
  rewrite E; [unfold blit; rewrite take_0, app_nil_l; apply take_app_length|].
  apply Forall_forall. intros i Hi%elem_of_seq. lia.
Qed.

(** What plaintext an insertion leaves behind.  When it succeeds, every
    byte it wrote to the two shared buffers has been zeroed.  When the first
    allocation fails, both buffers still hold the serialized record. *)
Theorem db_insert_plaintext mem st id t rec :
  db_ok st -> tables st !! id = Some t -> wf_record rec -> fits_record rec ->
  tree_roomy (index t) -> row_id rec ∉ tree_leaf_keys (index t) ->
  ((forall n, mem n = true) -> exists st', db_insert_record mem st id rec = Done (st', VOS_OK) /\
     serde_buf st' = zero_prefix (serde_buf st) (length (wire rec)) /\
     crypto_buf st' = zero_prefix (crypto_buf st) (aes_padded_size (length (wire rec)))) /\
  (mem 0%nat = false -> exists st', db_insert_record mem st id rec = Done (st', VOS_ERR_NOMEM) /\
     take (length (wire rec)) (serde_buf st') = wire rec /\
     take (length (wire rec)) (crypto_buf st') = wire rec).
Proof.
  intros Hok L Hw Hf Hr Hk. pose proof (aes_padded_size_spec (length (wire rec))) as [Hsz _].
  pose proof (ok_serde _ Hok) as Hsb. pose proof (ok_crypto _ Hok) as Hcb.
  assert (length (wire rec) <= length (serde_buf st))%nat as Hls by (rewrite Hsb; exact Hf).
  split; intros Hm.
  - destruct (insert_stores mem st id t rec) as (i & g & ivec & _ & _ & E & _); [done..|].
    eexists. split; [exact E|]. cbn [after_insert with_bufs serde_buf crypto_buf].
    split; [by apply zero_prefix_over|apply zero_prefix_pad; lia].
  - unfold db_insert_record. rewrite L, serialize_fits by done. pose proof (wire_length rec).
    unfold fits_record in Hf. rewrite (proj2 (Nat.eqb_neq _ _)) by lia.
    rewrite (proj2 (Nat.ltb_ge _ _)) by (unfold AES_BLOCK_SIZE; lia).
    rewrite Hm. eexists. split; [done|]. cbn [with_bufs serde_buf crypto_buf].
    assert (take (length (wire rec)) (blit (serde_buf st) 0 (wire rec)) = wire rec) as Et
      by (apply (take_blit (serde_buf st) (wire rec) 0); lia).
    split; [done|]. rewrite Et. apply take_pad. lia.
Qed.

(** ** Tables and keys *)

Lemma derive_schedule st id fl rk mc : derive_table_key st id = (fl, rk, mc) -> is_schedule rk.
Proof.
  unfold derive_table_key.
  destruct (hmac_sha256_shape (master_db_key st) (key_domain (cs "AES") id)) as [Hl Hb].
  revert Hl Hb. generalize (hmac_sha256 (master_db_key st) (key_domain (cs "AES") id)).
  intros dk Hl Hb. pose proof (aes_init_schedule (aes_fl st) cpuid1_ecx dk ltac:(lia) Hb) as Hs.
  destruct (aes_init (aes_fl st) cpuid1_ecx dk) as [fl' rk']. by intros [= _ <- _].
Qed.

Lemma create_table_ok st sch : db_ok st -> db_ok (fst (db_create_table st sch)).
Proof.
  intros Hok. unfold db_create_table. destruct (_ <=? _)%nat; [done|].
  destruct (derive_table_key st (Z.of_nat (length (tables st)))) as [[fl rk] mc] eqn:E.
  apply derive_schedule in E. destruct Hok as [B1 B2 B3]. constructor; [done|done|].
  cbn [fst tables]. apply Forall_app. split; [done|]. constructor; [|done].
  constructor; [apply wf_tree_init|exact E].
Qed.

Lemma init_ok st :
  length (serde_buf st) = MAX_RECORD_SIZE ->
  length (crypto_buf st) = (MAX_RECORD_SIZE + AES_BLOCK_SIZE)%nat -> db_ok (db_init st).
Proof.
  intros Hs Hc. unfold db_init. destruct (random_bytes (gen st) 32). constructor; [done|done|constructor].
Qed.

Lemma key_domain_le tag id : key_domain tag id = tag ++ le_bytes 4 id.
Proof.
  unfold key_domain. f_equal. rewrite le_bytes_shift. apply map_ext. intros i. do 2 f_equal. lia.
Qed.

(** Key derivation separates domains.  Two derivations, for the cipher or
    for the MAC, of any two tables, hash the same bytes only if they are for
    the same purpose and the same table. *)
Theorem key_domain_injective (tag tag' : list Z) (id id' : Z) :
  tag ∈ [cs "AES"; cs "MAC"] -> tag' ∈ [cs "AES"; cs "MAC"] -> is_u32 id -> is_u32 id' ->
  key_domain tag id = key_domain tag' id' -> tag = tag' /\ id = id'.
Proof.
  intros Ht Ht' Hi Hi' E. rewrite !key_domain_le in E.
  assert (length tag = length tag') as El by (rewrite !elem_of_cons in Ht, Ht'; set_solver).
  apply app_inj_1 in E as [E1 E2]; [|done]. split; [done|].
  by apply (le_bytes_inj 4 id id') in E2.
Qed.
End database_spec.

(** ** Witnesses

    A database with one table, empty or with one (arbitrary) ciphertext stored
    under row 7. *)

Definition demo_schema : table_schema := sys_schema "ObjectTable" false [col "obj_id" COL_U64 true false].
Definition demo_empty : db_state := fst (db_create_table (db_init boot_db) demo_schema).
Definition demo_table : db_table :=
  let '(_, rk, mc) := derive_table_key (db_init boot_db) 0 in DbTable demo_schema (btree_init 0) rk mc.

Definition demo_enc : encrypted_record := Enc (replicate 16 0) (replicate 16 1) (replicate 32 2) 7 0.
Definition demo_tree : btree encrypted_record :=
  BTree (BNode (7 :: replicate 62 0) (Some demo_enc :: replicate 62 None) (replicate 64 None) 1 true) 1 0.
Definition demo_full : db_state := with_tables demo_empty [set_index demo_table demo_tree].

Lemma demo_empty_ok : db_ok demo_empty.
Proof. apply create_table_ok, init_ok; reflexivity. Qed.

Lemma demo_empty_table : tables demo_empty !! 0%nat = Some demo_table.
Proof. vm_compute. reflexivity. Qed.

Lemma demo_tree_wf : wf_tree demo_tree.
Proof. sample_wf. Qed.

Lemma demo_full_ok : db_ok demo_full.
Proof.
  apply (with_tables_ok demo_empty 0 demo_table demo_tree demo_empty_ok demo_empty_table demo_tree_wf).
Qed.

(** Three blobs of 2048 bytes: well formed, but too large to serialize. *)
Definition big_record : record :=
  Rec 7 0 (replicate 3 (FBlob (replicate 2048 1) 2048) ++ replicate 13 zero_field) 3.

Lemma big_record_wf : wf_record big_record.
Proof.
  split; [by_compute|by_compute|by_compute|reflexivity| |reflexivity].
  change (live_fields big_record) with (replicate 3 (FBlob (replicate 2048 1) 2048)).
  apply Forall_replicate. exists (replicate 2048 1).
  split; [by rewrite length_replicate|]. split; [by rewrite length_replicate|].
  split; [apply Forall_replicate; by_compute|]. by rewrite length_replicate, app_nil_r.
Qed.

Lemma db_insert_get_witness :
  exists st', db_insert_record all_mem demo_empty 0 sample_record = Done (st', VOS_OK) /\ db_ok st' /\
    (exists st'', db_get_record all_mem st' 0 (row_id sample_record) = Done (st'', Some sample_record)) /\
    (forall id' rid, (id', rid) <> (0%nat, row_id sample_record) ->
       stored st' id' rid = stored demo_empty id' rid).
Proof.
  apply (db_insert_get all_mem demo_empty 0 demo_table sample_record demo_empty_ok demo_empty_table);
    [done|apply sample_record_wf|apply Nat.leb_le; reflexivity|exact I|by_compute].
Defined.

Lemma db_tamper_detected_witness :
  db_decrypt_record all_mem demo_empty 0 demo_enc = (demo_empty, None).
Proof.
  apply (db_tamper_detected all_mem demo_empty 0 demo_table demo_enc demo_empty_table);
    [by_compute|reflexivity|vm_compute; discriminate].
Defined.

Lemma demo_full_table : tables demo_full !! 0%nat = Some (set_index demo_table demo_tree).
Proof. reflexivity. Qed.

Lemma demo_full_stored : stored demo_full 0 7 = Some demo_enc.
Proof. reflexivity. Qed.

Lemma db_delete_correct_witness :
  exists st', db_delete_record demo_full 0 7 =
      Done (st', match stored demo_full 0 7 with Some _ => VOS_OK | None => VOS_ERR_NOTFOUND end) /\
    db_ok st' /\ stored st' 0 7 = None /\
    (forall id' rid', (id', rid') <> (0%nat, 7) -> stored st' id' rid' = stored demo_full id' rid').
Proof. apply (db_delete_correct demo_full 0 _ 7 demo_full_ok demo_full_table). Defined.

Lemma sample_ids_wf : wf_record (set_ids sample_record 7 0).
Proof. destruct sample_record_wf as [_ _ W3 W4 W5 W6]. split; [by_compute|by_compute|done..]. Qed.

Lemma db_update_correct_witness :
  exists st', db_update_encrypted all_mem demo_full 0 7 sample_record = Done (st', VOS_OK) /\ db_ok st' /\
    (exists st'', db_get_record all_mem st' 0 7 = Done (st'', Some (set_ids sample_record 7 0))) /\
    (forall id' rid', (id', rid') <> (0%nat, 7) -> stored st' id' rid' = stored demo_full id' rid').
Proof.
  apply (db_update_correct all_mem demo_full 0 _ 7 demo_enc sample_record demo_full_ok demo_full_table);
    [done|apply demo_full_stored|exact I|apply sample_ids_wf|apply Nat.leb_le; reflexivity].
Defined.

Lemma db_update_loses_row_witness :
  exists st', db_update_encrypted all_mem demo_full 0 7 big_record = Done (st', VOS_ERR_INVAL) /\
    stored st' 0 7 = None.
Proof.
  apply (db_update_loses_row all_mem demo_full 0 _ 7 demo_enc big_record demo_full_ok demo_full_table);
    [apply demo_full_stored|apply big_record_wf|].
  unfold fits_record. apply Nat.leb_nle. vm_compute. reflexivity.
Defined.

Definition no_mem : nat -> bool := fun _ => false.

Lemma db_insert_plaintext_witness :
  ((forall n, no_mem n = true) -> exists st',
     db_insert_record no_mem demo_empty 0 sample_record = Done (st', VOS_OK) /\
     serde_buf st' = zero_prefix (serde_buf demo_empty) (length (wire sample_record)) /\
     crypto_buf st' = zero_prefix (crypto_buf demo_empty) (aes_padded_size (length (wire sample_record)))) /\
  (no_mem 0%nat = false -> exists st',
     db_insert_record no_mem demo_empty 0 sample_record = Done (st', VOS_ERR_NOMEM) /\
     take (length (wire sample_record)) (serde_buf st') = wire sample_record /\
     take (length (wire sample_record)) (crypto_buf st') = wire sample_record).
Proof.
  apply (db_insert_plaintext no_mem demo_empty 0 demo_table sample_record demo_empty_ok
    demo_empty_table); [apply sample_record_wf|apply Nat.leb_le; reflexivity|exact I|by_compute].
Defined.

Lemma key_domain_injective_witness :
  key_domain (cs "AES") 3 = key_domain (cs "AES") 3 /\ cs "AES" = cs "AES" /\ 3 = 3.
Proof.
  split; [reflexivity|].
  apply key_domain_injective; [by left|by left|by_compute|by_compute|reflexivity].
Defined.
