(* ===== verification/Transaction.v ===== *)
(** * Transactions (src/kernel/db/transaction.c)

    The interface hands out a pointer to the one static transaction, so a
    [transaction_t *] is nothing but that transaction. *)

From S2P Require Import Prelude Errors.

Inductive txn_state := TXN_ACTIVE | TXN_COMMITTED | TXN_ABORTED.

#[export] Instance txn_state_eq_dec : EqDecision txn_state.
Proof. solve_decision. Defined.

Record transaction := Txn { txn_id : Z; txn_state_of : txn_state; txn_pid : Z }.

(** [next_txn_id] and [current_txn]. *)
Record txns := Txns { next_txn_id : Z; current_txn : transaction }.

Definition txns_boot : txns := Txns 1 (Txn 0 TXN_ACTIVE 0).

Definition set_txn_state (s : txn_state) (st : txns) : txns :=
  Txns (next_txn_id st) (Txn (txn_id (current_txn st)) s (txn_pid (current_txn st))).

Definition txn_begin (pid : Z) (st : txns) : txns := Txns (u64 (next_txn_id st + 1)) (Txn (next_txn_id st) TXN_ACTIVE pid).

Definition txn_commit (st : txns) : txns * Z :=
  if negb (bool_decide (txn_state_of (current_txn st) = TXN_ACTIVE)) then (st, VOS_ERR_TXN_ABORT)
  else (set_txn_state TXN_COMMITTED st, VOS_OK).

Definition txn_abort (st : txns) : txns * Z := (set_txn_state TXN_ABORTED st, VOS_OK).

(** ** Runs of one client *)

Inductive txn_op := Begin (pid : Z) | Commit | Abort.

Definition txn_run (st : txns) (op : txn_op) : txns :=
  match op with
  | Begin pid => txn_begin pid st
  | Commit => fst (txn_commit st)
  | Abort => fst (txn_abort st)
  end.

(** A transaction is committed at most once, and never after an abort; ids are
    those of the calls of [txn_begin], in order. *)
Theorem txn_commit_once (st : txns) (ops : list txn_op) :
  Forall (fun op => forall pid, op <> Begin pid) ops ->
  txn_state_of (current_txn st) <> TXN_ACTIVE ->
  txn_commit (foldl txn_run st ops) = (foldl txn_run st ops, VOS_ERR_TXN_ABORT) /\
  txn_id (current_txn (foldl txn_run st ops)) = txn_id (current_txn st).
Proof.
  intros Ho. revert st. induction Ho as [|op ops Hop Ho IH]; intros st Hs; cbn [foldl].
  { unfold txn_commit. by rewrite bool_decide_eq_false_2. }
  assert (txn_state_of (current_txn (txn_run st op)) <> TXN_ACTIVE /\ txn_id (current_txn (txn_run st op)) = txn_id (current_txn st)) as [H1 H2].
  { destruct op as [pid| |]; cbn [txn_run]; [by destruct (Hop pid)| |done]. unfold txn_commit. by rewrite bool_decide_eq_false_2. }
  destruct (IH _ H1) as [E1 E2]. split; [exact E1|congruence].
Qed.

(** There is one transaction: when a second one begins, the commit meant for
    the first ends the second. *)
Example second_begin_replaces_first :
  let st := txn_begin 8 (txn_begin 7 txns_boot) in
  current_txn st = Txn 2 TXN_ACTIVE 8 /\ snd (txn_commit st) = VOS_OK /\ snd (txn_commit (fst (txn_commit st))) = VOS_ERR_TXN_ABORT.
Proof. by vm_compute. Qed.
