(* ===== verification/Ipc.v ===== *)
(** * Message passing (src/kernel/proc/ipc.c)

    One ring buffer of 64 messages for all processes.  The model keeps the
    array, the two indices and the id counter; its abstract content is the
    list [pending] of messages from tail to head. *)

From S2P Require Import Prelude Errors.

Record ipc_message := Msg {
  msg_id : Z;
  src_pid : Z;
  dst_pid : Z;
  msg_type : Z;
  payload : list Z;       (* uint8_t payload[512] *)
  payload_size : Z;
  timestamp : Z
}.

Definition zero_msg : ipc_message := Msg 0 0 0 0 (replicate 512 0) 0 0.

Definition IPC_QUEUE_SIZE : nat := 64.

Record ipc_state := Ipc {
  queue : list ipc_message;
  queue_head : nat;
  queue_tail : nat;
  next_msg_id : Z
}.

Definition ipc_init : ipc_state := Ipc (replicate IPC_QUEUE_SIZE zero_msg) 0 0 1.

Definition at_slot (q : list ipc_message) (i : nat) : ipc_message := nth i q zero_msg.

(** [now] is [pit_get_ticks()]. *)
Definition ipc_send (now : Z) (st : ipc_state) (dst : Z) (msg : ipc_message) : ipc_state * Z :=
  let next := ((queue_head st + 1) mod IPC_QUEUE_SIZE)%nat in
  if (next =? queue_tail st)%nat then (st, VOS_ERR_FULL)
  else
    let m := Msg (next_msg_id st) (src_pid msg) dst (msg_type msg) (payload msg)
               (payload_size msg) now in
    (Ipc (<[queue_head st := m]> (queue st)) next (queue_tail st) (u64 (next_msg_id st + 1)), VOS_OK).

Definition addressed (pid : Z) (m : ipc_message) : bool := (dst_pid m =? pid) || (dst_pid m =? 0).

(** [while (next != queue_head) { queue[idx] = queue[next]; ... }] *)
Fixpoint recv_shift (fuel : nat) (q : list ipc_message) (idx next head : nat) : list ipc_message :=
  match fuel with
  | O => q
  | S fuel =>
      if (next =? head)%nat then q
      else recv_shift fuel (<[idx := at_slot q next]> q) next ((next + 1) mod IPC_QUEUE_SIZE) head
  end.

(** The scan from [idx]; both loops visit at most the 64 slots. *)
Fixpoint recv_scan (fuel : nat) (st : ipc_state) (pid : Z) (idx : nat)
    : option (ipc_state * ipc_message) :=
  match fuel with
  | O => None
  | S fuel =>
      if (idx =? queue_head st)%nat then None
      else if addressed pid (at_slot (queue st) idx) then
        let q := recv_shift IPC_QUEUE_SIZE (queue st) idx ((idx + 1) mod IPC_QUEUE_SIZE)
                   (queue_head st) in
        Some (Ipc q ((queue_head st + IPC_QUEUE_SIZE - 1) mod IPC_QUEUE_SIZE) (queue_tail st)
                (next_msg_id st), at_slot (queue st) idx)
      else recv_scan fuel st pid ((idx + 1) mod IPC_QUEUE_SIZE)
  end.

Definition ipc_recv (st : ipc_state) (pid : Z) : ipc_state * option ipc_message * Z :=
  match recv_scan IPC_QUEUE_SIZE st pid (queue_tail st) with
  | Some (st, m) => (st, Some m, VOS_OK)
  | None => (st, None, VOS_ERR_NOTFOUND)
  end.

(** ** The abstract queue *)

Definition ring (st : ipc_state) (k : nat) : nat := ((queue_tail st + k) mod IPC_QUEUE_SIZE)%nat.
Definition used (st : ipc_state) : nat :=
  ((queue_head st + IPC_QUEUE_SIZE - queue_tail st) mod IPC_QUEUE_SIZE)%nat.
Definition pending (st : ipc_state) : list ipc_message :=
  map (fun k => at_slot (queue st) (ring st k)) (seq 0 (used st)).

Record wf_ipc (st : ipc_state) : Prop := {
  wi_len : length (queue st) = IPC_QUEUE_SIZE;
  wi_head : (queue_head st < IPC_QUEUE_SIZE)%nat;
  wi_tail : (queue_tail st < IPC_QUEUE_SIZE)%nat
}.

(** The queue without its first message addressed to [pid]. *)
Fixpoint take_first (pid : Z) (l : list ipc_message) : option (ipc_message * list ipc_message) :=
  match l with
  | [] => None
  | m :: l =>
      if addressed pid m then Some (m, l)
      else match take_first pid l with
           | Some (x, l) => Some (x, m :: l)
           | None => None
           end
  end.

Lemma ring_lt st k : (ring st k < IPC_QUEUE_SIZE)%nat.
Proof. apply Nat.mod_upper_bound. done. Qed.

Lemma ring_head st : wf_ipc st -> ring st (used st) = queue_head st.
Proof. intros [_ H1 H2]. unfold ring, used, IPC_QUEUE_SIZE in *. lia. Qed.

Lemma ring_next st k : ((ring st k + 1) mod IPC_QUEUE_SIZE = ring st (S k))%nat.
Proof. unfold ring, IPC_QUEUE_SIZE. lia. Qed.

Lemma ring_inj st i j : (i < IPC_QUEUE_SIZE)%nat -> (j < IPC_QUEUE_SIZE)%nat -> ring st i = ring st j -> i = j.
Proof. unfold ring, IPC_QUEUE_SIZE. lia. Qed.

Lemma used_lt st : (used st < IPC_QUEUE_SIZE)%nat.
Proof. apply Nat.mod_upper_bound. done. Qed.

Lemma at_slot_insert q i j m :
  (i < length q)%nat -> at_slot (<[i := m]> q) j = if decide (j = i) then m else at_slot q j.
Proof.
  intros Hi. unfold at_slot. case_decide as E.
  - subst j. apply nth_lookup_Some. by apply list_lookup_insert_eq.
  - rewrite !nth_lookup. by rewrite list_lookup_insert_ne.
Qed.

Lemma pending_lookup st k : (k < used st)%nat -> pending st !! k = Some (at_slot (queue st) (ring st k)).
Proof. intros H. unfold pending. rewrite list_lookup_fmap, lookup_seq_lt by done. done. Qed.

Lemma length_pending st : length (pending st) = used st.
Proof. unfold pending. by rewrite length_map, length_seq. Qed.

(** The shifting loop closes the gap at position [k]. *)
Lemma recv_shift_spec st q k fuel :
  wf_ipc st -> length q = IPC_QUEUE_SIZE -> (k < used st)%nat -> (used st - k <= fuel)%nat ->
  let q' := recv_shift fuel q (ring st k) (ring st (S k)) (queue_head st) in
  length q' = IPC_QUEUE_SIZE /\
  forall j, (j < IPC_QUEUE_SIZE)%nat -> at_slot q' (ring st j) =
    if decide (k <= j < used st - 1)%nat then at_slot q (ring st (S j)) else at_slot q (ring st j).
Proof.
  intros Hw. revert q k. pose proof (used_lt st) as Hu.
  induction fuel as [|fuel IH]; intros q k Hl Hk Hf; [lia|]. cbn [recv_shift].
  destruct (Nat.eqb_spec (ring st (S k)) (queue_head st)) as [E|E].
  - rewrite <- ring_head in E by done. split; [done|]. intros j Hj.
    rewrite decide_False; [done|]. intros Hc. assert (S k = used st) by (apply (ring_inj st); lia). lia.
  - assert (S k < used st)%nat as Hk'.
    { destruct (decide (S k = used st)) as [Es|]; [|lia]. by rewrite Es, ring_head in E. }
    rewrite ring_next. set (q1 := <[ring st k := at_slot q (ring st (S k))]> q).
    assert (length q1 = IPC_QUEUE_SIZE) as Hl1 by (unfold q1; by rewrite length_insert).
    destruct (IH q1 (S k) Hl1 Hk' ltac:(lia)) as [IHl IHj]. split; [done|]. intros j Hj.
    rewrite IHj by done. pose proof (ring_lt st k).
    assert (forall i, (i < IPC_QUEUE_SIZE)%nat -> at_slot q1 (ring st i) =
      if decide (i = k) then at_slot q (ring st (S k)) else at_slot q (ring st i)) as Hq1.
    { intros i Hi. unfold q1. rewrite at_slot_insert by lia. case_decide as Ei.
      - apply ring_inj in Ei; [|lia|lia]. by rewrite decide_True.
      - rewrite decide_False; [done|]. by intros ->. }
    repeat case_decide; rewrite ?Hq1 by lia; repeat case_decide; try lia; subst; try done.
Qed.

Lemma take_first_lookup pid l k m :
  l !! k = Some m -> addressed pid m = true ->
  (forall j x, (j < k)%nat -> l !! j = Some x -> addressed pid x = false) ->
  take_first pid l = Some (m, take k l ++ drop (S k) l).
Proof.
  revert k. induction l as [|a l IH]; intros k Hk Hm Hj; [done|]. destruct k as [|k]; simpl in *.
  - injection Hk as ->. by rewrite Hm.
  - rewrite (Hj 0%nat a) by (done || lia). rewrite (IH k Hk Hm); [done|].
    intros j x Hlt Hx. apply (Hj (S j) x); [lia|done].
Qed.

Lemma take_first_none pid l :
  (forall x, x ∈ l -> addressed pid x = false) -> take_first pid l = None.
Proof.
  induction l as [|a l IH]; intros Hx; [done|]. simpl. rewrite Hx by (by left).
  rewrite IH; [done|]. intros x Hin. apply Hx. by right.
Qed.

(** ** Properties *)

Lemma wf_ipc_init : wf_ipc ipc_init.
Proof. by split; vm_compute; lia. Qed.

(** Sending appends.  [ipc_send] refuses exactly when 63 messages are
    pending; otherwise the message, stamped with the next id, the destination
    and the time, becomes the last pending one. *)
Theorem ipc_send_appends now st dst msg :
  wf_ipc st ->
  let '(st', err) := ipc_send now st dst msg in
  wf_ipc st' /\
  if (used st =? IPC_QUEUE_SIZE - 1)%nat then st' = st /\ err = VOS_ERR_FULL
  else err = VOS_OK /\
    pending st' = pending st ++ [Msg (next_msg_id st) (src_pid msg) dst (msg_type msg) (payload msg)
                                   (payload_size msg) now].
Proof.
  intros Hw. pose proof Hw as [H1 H2 H3]. unfold ipc_send.
  assert ((((queue_head st + 1) mod IPC_QUEUE_SIZE =? queue_tail st) = (used st =? IPC_QUEUE_SIZE - 1))%nat)
    as E by (unfold used, IPC_QUEUE_SIZE in *; lia).
  rewrite E. destruct (Nat.eqb_spec (used st) (IPC_QUEUE_SIZE - 1)) as [|Hne]; [done|].
  set (m := Msg _ _ _ _ _ _ _). set (st' := Ipc _ _ _ _).
  assert (wf_ipc st') as Hw'.
  { split; cbn [st' queue queue_head queue_tail]; [by rewrite length_insert| |done].
    apply Nat.mod_upper_bound. done. }
  split; [done|]. split; [done|].
  assert (used st' = S (used st)) as Hu
    by (unfold used in *; cbn [st' queue_head queue_tail]; unfold IPC_QUEUE_SIZE in *; lia).
  unfold pending. rewrite Hu, seq_S, map_app. cbn [map]. pose proof (used_lt st).
  change (ring st') with (ring st). cbn [st' queue Nat.add].
  f_equal.
  - apply map_ext_in. intros k Hk%in_seq. rewrite at_slot_insert by lia. rewrite decide_False; [done|].
    rewrite <- ring_head by done. intros Er%ring_inj; lia.
  - rewrite at_slot_insert by lia. by rewrite decide_True by (by apply ring_head).
Qed.

Lemma recv_scan_spec st pid k fuel :
  wf_ipc st -> (k <= used st)%nat -> (used st - k < fuel)%nat ->
  (forall j, (j < k)%nat -> addressed pid (at_slot (queue st) (ring st j)) = false) ->
  match recv_scan fuel st pid (ring st k) with
  | Some (st', m) => wf_ipc st' /\ take_first pid (pending st) = Some (m, pending st')
  | None => take_first pid (pending st) = None
  end.
Proof.
  intros Hw. revert k. induction fuel as [|fuel IH]; intros k Hk Hf Hno; [lia|]. cbn [recv_scan].
  pose proof (used_lt st) as Hu. destruct (Nat.eqb_spec (ring st k) (queue_head st)) as [E|E].
  - rewrite <- ring_head in E by done. apply ring_inj in E; [|lia|lia]. subst k.
    apply take_first_none. intros x (k & -> & Hin)%list_elem_of_fmap.
    apply elem_of_seq in Hin. apply Hno. lia.
  - assert (k < used st)%nat as Hlt.
    { destruct (decide (k = used st)) as [Ek|]; [|lia]. by rewrite Ek, ring_head in E. }
    destruct (addressed pid (at_slot (queue st) (ring st k))) eqn:Ea.
    + rewrite ring_next. set (st' := Ipc _ _ _ _).
      destruct (recv_shift_spec st (queue st) k IPC_QUEUE_SIZE Hw (wi_len _ Hw) Hlt ltac:(lia)) as [Hl Hq].
      assert (used st' = used st - 1)%nat as Hu'.
      { destruct Hw as [_ H2 H3]. unfold used in *. cbn [st' queue_head queue_tail].
        unfold IPC_QUEUE_SIZE in *. lia. }
      split; [split; [done|apply Nat.mod_upper_bound; done|apply Hw]|].
      rewrite (take_first_lookup pid (pending st) k _ (pending_lookup _ _ Hlt) Ea).
      * do 2 f_equal. apply list_eq. intros j. pose proof (length_pending st) as Hlp.
        destruct (decide (j < used st - 1)%nat) as [Hj|Hj].
        -- rewrite pending_lookup by lia. change (ring st' j) with (ring st j).
           cbn [st' queue]. rewrite Hq by lia. destruct (decide (j < k)%nat).
           ++ rewrite lookup_app_l by (rewrite length_take; lia).
              rewrite lookup_take_lt, pending_lookup by lia. by rewrite decide_False by lia.
           ++ rewrite lookup_app_r by (rewrite length_take; lia).
              rewrite length_take, lookup_drop, Hlp. rewrite decide_True by lia.
              replace (S k + (j - Nat.min k (used st)))%nat with (S j) by lia. by rewrite pending_lookup by lia.
        -- rewrite !lookup_ge_None_2; [done| |]; rewrite ?length_app, ?length_take, ?length_drop, ?length_pending; lia.
      * intros j x Hj Hx. rewrite pending_lookup in Hx by lia. injection Hx as <-. by apply Hno.
    + rewrite ring_next. apply IH; [lia|lia|]. intros j Hj.
      destruct (decide (j = k)) as [->|]; [done|]. apply Hno. lia.
Qed.

(** Receiving takes the oldest matching message.  [ipc_recv] returns the
    first pending message addressed to the process (or to 0) and removes
    exactly that one, keeping the order of the others; when there is none it
    answers not-found and changes nothing. *)
Theorem ipc_recv_takes_first st pid :
  wf_ipc st ->
  let '(st', m, err) := ipc_recv st pid in
  match take_first pid (pending st) with
  | Some (x, rest) => m = Some x /\ err = VOS_OK /\ pending st' = rest /\ wf_ipc st'
  | None => m = None /\ err = VOS_ERR_NOTFOUND /\ st' = st
  end.
Proof.
  intros Hw. unfold ipc_recv. pose proof (used_lt st).
  pose proof (recv_scan_spec st pid 0 IPC_QUEUE_SIZE Hw ltac:(lia) ltac:(lia) ltac:(lia)) as Hs.
  assert (ring st 0 = queue_tail st) as E.
  { destruct Hw as [_ _ H3]. unfold ring. rewrite Nat.add_0_r. by apply Nat.mod_small. }
  rewrite E in Hs. destruct (recv_scan _ st pid _) as [[st' m]|].
  - destruct Hs as [Hw' ->]. done.
  - by rewrite Hs.
Qed.

Definition demo_msg : ipc_message := Msg 0 5 0 1 [104; 105] 2 0.

Lemma ipc_send_appends_witness :
  let '(st', err) := ipc_send 3 ipc_init 9 demo_msg in
  wf_ipc st' /\
  if (used ipc_init =? IPC_QUEUE_SIZE - 1)%nat then st' = ipc_init /\ err = VOS_ERR_FULL
  else err = VOS_OK /\ pending st' = pending ipc_init ++ [Msg 1 5 9 1 [104; 105] 2 3].
Proof. apply (ipc_send_appends 3 ipc_init 9 demo_msg wf_ipc_init). Defined.

Lemma ipc_recv_takes_first_witness :
  let st := Ipc (Msg 1 5 8 1 [] 0 0 :: Msg 2 5 9 1 [] 0 0 :: replicate 62 zero_msg) 2 0 3 in
  let '(st', m, err) := ipc_recv st 9 in
  match take_first 9 (pending st) with
  | Some (x, rest) => m = Some x /\ err = VOS_OK /\ pending st' = rest /\ wf_ipc st'
  | None => m = None /\ err = VOS_ERR_NOTFOUND /\ st' = st
  end.
Proof.
  apply (ipc_recv_takes_first
    (Ipc (Msg 1 5 8 1 [] 0 0 :: Msg 2 5 9 1 [] 0 0 :: replicate 62 zero_msg) 2 0 3)).
  split; vm_compute; lia.
Defined.
