(* ===== verification/Pmm.v ===== *)
(** * Physical pages (src/kernel/lib/bitmap.h, src/kernel/mm/pmm.c)

    The bitmap is an array of 64-bit words, one bit per page, set when the page
    is used.  The searches return [None] for [UINT64_MAX].  A failed [ASSERT]
    panics: the operation is then [None]. *)

From S2P Require Import Prelude.

(** ** Bitmap *)

Definition bit_mask (bit : nat) : Z := Z.shiftl 1 (Z.of_nat (bit mod 64)).

Definition bitmap_set (b : list Z) (bit : nat) : list Z :=
  <[(bit / 64)%nat := Z.lor b.[bit / 64] (bit_mask bit)]> b.

Definition bitmap_clear (b : list Z) (bit : nat) : list Z :=
  <[(bit / 64)%nat := Z.land b.[bit / 64] (2 ^ 64 - 1 - bit_mask bit)]> b.

Definition bitmap_test (b : list Z) (bit : nat) : bool :=
  Z.odd (Z.shiftr b.[bit / 64] (Z.of_nat (bit mod 64))).

Definition bitmap_set_range (b : list Z) (start cnt : nat) : list Z :=
  foldl bitmap_set b (seq start cnt).

Definition bitmap_clear_range (b : list Z) (start cnt : nat) : list Z :=
  foldl bitmap_clear b (seq start cnt).

(** [n] is the number of bits left to look at, from [i]. *)
Fixpoint find_clear_loop (b : list Z) (n i : nat) : option nat :=
  match n with
  | O => None
  | S n => if negb (bitmap_test b i) then Some i else find_clear_loop b n (S i)
  end.

Definition bitmap_find_clear (b : list Z) (total start : nat) : option nat :=
  find_clear_loop b (total - start) start.

Fixpoint find_range_loop (b : list Z) (n i : nat) (cnt found base : nat) : option nat :=
  match n with
  | O => None
  | S n =>
      if bitmap_test b i then find_range_loop b n (S i) cnt 0 (S i)
      else if (S found =? cnt)%nat then Some base
      else find_range_loop b n (S i) cnt (S found) base
  end.

Definition bitmap_find_clear_range (b : list Z) (total cnt start : nat) : option nat :=
  find_range_loop b (total - start) start cnt 0 start.

(** ** The allocator *)

Definition PAGE_SIZE : Z := 4096.
Definition MAX_PAGES : nat := Z.to_nat (4 * 1024 * 1024 * 1024 / PAGE_SIZE).
Definition BITMAP_SIZE : nat := (MAX_PAGES / 64)%nat.
Definition MMAP_USABLE : Z := 7.

(** [ALIGN_UP(x, align)] for a power of two, on 64 bits. *)
Definition ALIGN_UP (x align : Z) : Z := Z.land (u64 (x + (align - 1))) (2 ^ 64 - align).

Record mmap_entry := MmapEntry { mm_type : Z; phys_start : Z; num_pages : Z }.

Record pmm_state := Pmm {
  bitmap : list Z;
  total_pages : Z;
  used_pages : Z;
  highest_page : nat
}.

Definition free_one (st : pmm_state) (p : nat) : pmm_state :=
  Pmm (bitmap_clear (bitmap st) p) (u64 (total_pages st + 1)) (used_pages st) (highest_page st).

Definition add_region (st : pmm_state) (e : mmap_entry) : pmm_state :=
  if mm_type e =? MMAP_USABLE then
    let base := ALIGN_UP (phys_start e) PAGE_SIZE in
    let end_ := u64 (phys_start e + u64 (num_pages e * PAGE_SIZE)) in
    let page_start := Z.to_nat (base / PAGE_SIZE) in
    let page_end := Nat.min (Z.to_nat (end_ / PAGE_SIZE)) MAX_PAGES in
    let st := foldl free_one st (seq page_start (page_end - page_start)) in
    Pmm (bitmap st) (total_pages st) (used_pages st) (Nat.max (highest_page st) page_end)
  else st.

Definition reserve (st : pmm_state) (p : nat) : pmm_state :=
  if negb (bitmap_test (bitmap st) p)
  then Pmm (bitmap_set (bitmap st) p) (total_pages st) (u64 (used_pages st + 1)) (highest_page st)
  else st.

(** [kern_start] and [kern_end] are the linker's symbols. *)
Definition pmm_init (st : pmm_state) (mmap : list mmap_entry) (kern_start kern_end : Z) : pmm_state :=
  let st := Pmm (replicate BITMAP_SIZE (2 ^ 64 - 1)) 0 0 (highest_page st) in
  let st := foldl add_region st mmap in
  let kernel_start := Z.to_nat (kern_start / PAGE_SIZE) in
  let kernel_pages := Z.to_nat (ALIGN_UP (u64 (kern_end - kern_start)) PAGE_SIZE / PAGE_SIZE) in
  let st := foldl reserve st (seq 0 256) in
  foldl reserve st (seq kernel_start kernel_pages).

(** 0 is the failure result. *)
Definition pmm_alloc_page (st : pmm_state) : pmm_state * Z :=
  match bitmap_find_clear (bitmap st) (highest_page st) 256 with
  | None => (st, 0)
  | Some page =>
      (Pmm (bitmap_set (bitmap st) page) (total_pages st) (u64 (used_pages st + 1)) (highest_page st),
       Z.of_nat page * PAGE_SIZE)
  end.

Definition pmm_free_page (st : pmm_state) (phys : Z) : option pmm_state :=
  let page := Z.to_nat (phys / PAGE_SIZE) in
  if negb (page <? highest_page st)%nat then None
  else if negb (bitmap_test (bitmap st) page) then None
  else Some (Pmm (bitmap_clear (bitmap st) page) (total_pages st) (u64 (used_pages st - 1))
               (highest_page st)).

Definition pmm_alloc_pages (st : pmm_state) (cnt : nat) : pmm_state * Z :=
  match bitmap_find_clear_range (bitmap st) (highest_page st) cnt 256 with
  | None => (st, 0)
  | Some base =>
      (Pmm (bitmap_set_range (bitmap st) base cnt) (total_pages st)
         (u64 (used_pages st + Z.of_nat cnt)) (highest_page st),
       Z.of_nat base * PAGE_SIZE)
  end.

Definition pmm_free_pages (st : pmm_state) (phys : Z) (cnt : nat) : pmm_state :=
  let page := Z.to_nat (phys / PAGE_SIZE) in
  Pmm (bitmap_clear_range (bitmap st) page cnt) (total_pages st)
    (u64 (used_pages st - Z.of_nat cnt)) (highest_page st).

Definition pmm_get_total_pages (st : pmm_state) : Z := total_pages st.
Definition pmm_get_free_pages (st : pmm_state) : Z := u64 (total_pages st - used_pages st).

(** ** Bits *)

Definition words (b : list Z) : Prop := Forall is_u64 b.

Lemma bit_mask_bits bit j :
  0 <= j -> Z.testbit (bit_mask bit) j = (j =? Z.of_nat (bit mod 64)).
Proof.
  intros Hj. unfold bit_mask. rewrite Z.shiftl_spec by done.
  destruct (Z.eqb_spec j (Z.of_nat (bit mod 64))) as [->|Hne]; [by rewrite Z.sub_diag|].
  destruct (decide (j < Z.of_nat (bit mod 64))); [by rewrite Z.testbit_neg_r by lia|].
  rewrite Z.bits_above_log2; [done|lia|]. change (Z.log2 1) with 0. lia.
Qed.

Lemma bitmap_test_bit b bit : bitmap_test b bit = Z.testbit b.[bit / 64] (Z.of_nat (bit mod 64)).
Proof. unfold bitmap_test. rewrite <- Z.bit0_odd, Z.shiftr_spec by lia. f_equal. Qed.

Lemma same_bit i j : (i / 64 = j / 64)%nat -> (i mod 64 = j mod 64)%nat -> i = j.
Proof. intros. rewrite (Nat.div_mod_eq i 64), (Nat.div_mod_eq j 64). lia. Qed.

Lemma bitmap_test_set b i j :
  (i / 64 < length b)%nat -> bitmap_test (bitmap_set b i) j = bool_decide (i = j) || bitmap_test b j.
Proof.
  intros Hi. rewrite !bitmap_test_bit. unfold bitmap_set.
  destruct (decide (i / 64 = j / 64)%nat) as [E|E].
  - rewrite <- E, nth_insert_eq by done. rewrite Z.lor_spec, bit_mask_bits by lia.
    rewrite orb_comm. f_equal. destruct (Z.eqb_spec (Z.of_nat (j mod 64)) (Z.of_nat (i mod 64))) as [Em|Em].
    + rewrite (same_bit i j) by lia. by rewrite bool_decide_eq_true_2.
    + rewrite bool_decide_eq_false_2; [done|]. by intros ->.
  - rewrite nth_insert_ne by done. rewrite bool_decide_eq_false_2; [done|]. by intros ->.
Qed.

Lemma bitmap_test_clear b i j :
  (i / 64 < length b)%nat -> words b ->
  bitmap_test (bitmap_clear b i) j = negb (bool_decide (i = j)) && bitmap_test b j.
Proof.
  intros Hi Hw. rewrite !bitmap_test_bit. unfold bitmap_clear.
  destruct (decide (i / 64 = j / 64)%nat) as [E|E].
  - rewrite <- E, nth_insert_eq by done. rewrite Z.land_spec, andb_comm. f_equal.
    assert (2 ^ 64 - 1 - bit_mask i = Z.lxor (Z.ones 64) (bit_mask i)) as ->.
    { rewrite (Z.sub_nocarry_ldiff (2 ^ 64 - 1) (bit_mask i)).
      - apply Z.bits_inj'. intros k Hk. rewrite Z.ldiff_spec, Z.lxor_spec.
        change (2 ^ 64 - 1) with (Z.ones 64). rewrite Z.testbit_ones_nonneg, bit_mask_bits by lia.
        destruct (Z.eqb_spec k (Z.of_nat (i mod 64))), (Z.ltb_spec k 64); simpl; try done. lia.
      - apply Z.bits_inj'. intros k Hk. rewrite Z.ldiff_spec, Z.bits_0.
        change (2 ^ 64 - 1) with (Z.ones 64). rewrite Z.testbit_ones_nonneg, bit_mask_bits by lia.
        destruct (Z.eqb_spec k (Z.of_nat (i mod 64))), (Z.ltb_spec k 64); simpl; try done. lia. }
    rewrite Z.lxor_spec, Z.testbit_ones_nonneg, bit_mask_bits by lia.
    rewrite (proj2 (Z.ltb_lt _ _)) by lia.
    destruct (Z.eqb_spec (Z.of_nat (j mod 64)) (Z.of_nat (i mod 64))) as [Em|Em]; simpl.
    + rewrite (same_bit i j) by lia. by rewrite bool_decide_eq_true_2.
    + rewrite bool_decide_eq_false_2; [done|]. by intros ->.
  - rewrite nth_insert_ne by done. rewrite bool_decide_eq_false_2; [done|]. by intros ->.
Qed.

Lemma length_bitmap_set b i : length (bitmap_set b i) = length b.
Proof. apply length_insert. Qed.

Lemma bitmap_set_range_spec b start cnt :
  ((start + cnt) <= 64 * length b)%nat ->
  length (bitmap_set_range b start cnt) = length b /\
  forall j, bitmap_test (bitmap_set_range b start cnt) j =
    bool_decide (start <= j < start + cnt)%nat || bitmap_test b j.
Proof.
  unfold bitmap_set_range. revert b start. induction cnt as [|cnt IH]; intros b start Hl; cbn [seq foldl].
  - split; [done|]. intros j. rewrite bool_decide_eq_false_2 by lia. done.
  - destruct (IH (bitmap_set b start) (S start)) as [IH1 IH2]; [rewrite length_bitmap_set; lia|].
    split; [by rewrite IH1, length_bitmap_set|]. intros j. rewrite IH2, bitmap_test_set by lia.
    rewrite orb_assoc. f_equal. apply eq_bool_prop_intro. rewrite orb_True, !bool_decide_spec. lia.
Qed.

(** ** Searches *)

Lemma find_clear_spec b n i :
  match find_clear_loop b n i with
  | Some p => (i <= p < i + n)%nat /\ bitmap_test b p = false /\
      (forall q, (i <= q < p)%nat -> bitmap_test b q = true)
  | None => forall q, (i <= q < i + n)%nat -> bitmap_test b q = true
  end.
Proof.
  revert i. induction n as [|n IH]; intros i; cbn [find_clear_loop]; [lia|].
  destruct (bitmap_test b i) eqn:E; cbn [negb].
  - specialize (IH (S i)). destruct (find_clear_loop b n (S i)) as [p|].
    + destruct IH as (H1 & H2 & H3). split_and!; [lia|lia|done|]. intros q Hq.
      destruct (decide (q = i)) as [->|]; [done|]. apply H3. lia.
    + intros q Hq. destruct (decide (q = i)) as [->|]; [done|]. apply IH. lia.
  - split_and!; [lia|lia|done|lia].
Qed.

(** The run of [cnt] bits from [p] contains a set bit. *)
Definition blocked (b : list Z) (p cnt : nat) : Prop :=
  exists j, (p <= j < p + cnt)%nat /\ bitmap_test b j = true.

Lemma find_range_spec b start n i cnt found base :
  (start <= base)%nat -> (base + found = i)%nat -> (found < cnt)%nat ->
  (forall j, (base <= j < i)%nat -> bitmap_test b j = false) ->
  (forall p, (start <= p < base)%nat -> blocked b p cnt) ->
  match find_range_loop b n i cnt found base with
  | Some p => (start <= p)%nat /\ (p + cnt <= i + n)%nat /\
      (forall j, (p <= j < p + cnt)%nat -> bitmap_test b j = false) /\
      (forall q, (start <= q < p)%nat -> blocked b q cnt)
  | None => forall q, (start <= q)%nat -> (q + cnt <= i + n)%nat -> blocked b q cnt
  end.
Proof.
  revert i found base. induction n as [|n IH]; intros i found base Hs Hi Hf Hc Hb; cbn [find_range_loop].
  - intros q Hq Hqn. apply Hb. lia.
  - destruct (bitmap_test b i) eqn:E.
    + replace (i + S n)%nat with (S i + n)%nat by lia.
      apply IH; [lia|lia|lia|lia|]. intros p Hp.
      destruct (decide (p < base)%nat); [apply Hb; lia|]. exists i. split; [lia|done].
    + destruct (Nat.eqb_spec (S found) cnt) as [Ec|Ec].
      * split_and!; [done|lia| |done]. intros j Hj. destruct (decide (j = i)) as [->|]; [done|].
        apply Hc. lia.
      * replace (i + S n)%nat with (S i + n)%nat by lia.
        apply IH; [done|lia|lia| |done]. intros j Hj. destruct (decide (j = i)) as [->|]; [done|].
        apply Hc. lia.
Qed.

(** ** Free pages *)

Definition is_free (b : list Z) (p : nat) : bool := negb (bitmap_test b p).
Definition free_count (st : pmm_state) : nat :=
  length (List.filter (is_free (bitmap st)) (seq 0 (highest_page st))).

Record wf_pmm (st : pmm_state) : Prop := {
  wp_len : length (bitmap st) = BITMAP_SIZE;
  wp_words : words (bitmap st);
  wp_high : (highest_page st <= MAX_PAGES)%nat
}.

Lemma BITMAP_pages : (64 * BITMAP_SIZE = MAX_PAGES)%nat.
Proof. unfold BITMAP_SIZE, MAX_PAGES, PAGE_SIZE. lia. Qed.

(** The bitmap has a bit for every page in use. *)
Lemma pmm_capacity st : wf_pmm st -> (highest_page st <= 64 * length (bitmap st))%nat.
Proof. intros [-> _ H]. rewrite BITMAP_pages. exact H. Qed.

Lemma MAX_PAGES_Z : Z.of_nat MAX_PAGES = 1048576.
Proof. unfold MAX_PAGES. rewrite Z2Nat.id; [reflexivity|vm_compute; discriminate]. Qed.

Lemma highest_page_bound st : wf_pmm st -> Z.of_nat (highest_page st) <= 1048576.
Proof. intros [_ _ H%inj_le]. rewrite MAX_PAGES_Z in H. exact H. Qed.

Lemma words_set b i : words b -> words (bitmap_set b i).
Proof.
  intros Hw. apply Forall_insert; [done|]. apply lor_word; [lia|apply nth_Forall; [by_compute|done]|].
  unfold bit_mask, is_word. rewrite Z.shiftl_1_l. split; [lia|]. apply Z.pow_lt_mono_r; lia.
Qed.

Lemma words_clear b i : words b -> words (bitmap_clear b i).
Proof.
  intros Hw. apply Forall_insert; [done|]. apply land_word_l; [lia|]. apply nth_Forall; [by_compute|done].
Qed.

(** Marking [cnt] free pages of the range. *)
Lemma filter_range_count (p q : nat -> bool) n base cnt :
  (base + cnt <= n)%nat ->
  (forall j, (base <= j < base + cnt)%nat -> p j = true) ->
  (forall j, (j < n)%nat -> q j = negb (bool_decide (base <= j < base + cnt)%nat) && p j) ->
  (length (List.filter q (seq 0 n)) + cnt = length (List.filter p (seq 0 n)))%nat.
Proof.
  intros Hn Hp Hq.
  assert (forall (l : list nat) (f g : nat -> bool), Forall (fun j => f j = g j) l -> List.filter f l = List.filter g l) as Hext.
  { intros l f g Hl. induction Hl as [|j l Hj Hl IH]; simpl; [done|]. rewrite Hj, IH. done. }
  replace n with (base + (cnt + (n - base - cnt)))%nat by lia.
  rewrite !seq_app, !List.filter_app, !length_app. simpl.
  rewrite (Hext (seq 0 base) q p), (Hext (seq (base + cnt) _) q p).
  - rewrite (Hext (seq base cnt) q (fun _ => false)), (Hext (seq base cnt) p (fun _ => true)).
    + assert (List.filter (fun _ : nat => false) (seq base cnt) = []) as ->
        by (clear; induction (seq base cnt); done).
      assert (List.filter (fun _ : nat => true) (seq base cnt) = seq base cnt) as ->
        by (clear; induction (seq base cnt) as [|a l IH]; [done|simpl; by rewrite IH]).
      rewrite length_seq. simpl. lia.
    + apply Forall_forall. intros j Hj%elem_of_seq. apply Hp. lia.
    + apply Forall_forall. intros j Hj%elem_of_seq. rewrite Hq by lia.
      by rewrite bool_decide_eq_true_2 by lia.
  - apply Forall_forall. intros j Hj%elem_of_seq. rewrite Hq by lia.
    by rewrite bool_decide_eq_false_2 by lia.
  - apply Forall_forall. intros j Hj%elem_of_seq. rewrite Hq by lia.
    by rewrite bool_decide_eq_false_2 by lia.
Qed.

(** ** Properties *)

Lemma alloc_page_spec st :
  wf_pmm st ->
  let '(st', phys) := pmm_alloc_page st in
  wf_pmm st' /\
  ((phys = 0 /\ st' = st /\
    forall p, (256 <= p < highest_page st)%nat -> bitmap_test (bitmap st) p = true) \/
   exists p, phys = Z.of_nat p * PAGE_SIZE /\ (256 <= p < highest_page st)%nat /\
     bitmap_test (bitmap st) p = false /\
     (forall q, (256 <= q < p)%nat -> bitmap_test (bitmap st) q = true) /\
     (forall q, bitmap_test (bitmap st') q = bool_decide (p = q) || bitmap_test (bitmap st) q) /\
     (free_count st' + 1 = free_count st)%nat /\
     exists st'', pmm_free_page st' phys = Some st'' /\
       forall q, bitmap_test (bitmap st'') q = bitmap_test (bitmap st) q).
Proof.
  intros Hw. pose proof (pmm_capacity st Hw) as Hcap. pose proof Hw as [H1 H2 H3]. clear Hw.
  unfold pmm_alloc_page, bitmap_find_clear.
  pose proof (find_clear_spec (bitmap st) (highest_page st - 256) 256) as Hs.
  destruct (find_clear_loop _ _ _) as [p|].
  2: { split; [by constructor|]. left. split; [reflexivity|]. split; [reflexivity|].
       intros q Hq. apply Hs. clear - Hq. lia. }
  destruct Hs as (Hp & Hfree & Hfirst).
  assert (256 <= p < highest_page st)%nat as Hr by (clear - Hp; lia).
  assert (p / 64 < length (bitmap st))%nat as Hi by (clear - Hr Hcap; lia).
  assert (forall q, bitmap_test (bitmap_set (bitmap st) p) q =
    bool_decide (p = q) || bitmap_test (bitmap st) q) as Hset by (intros q; by apply bitmap_test_set).
  split; [constructor; cbn [bitmap highest_page];
    [by rewrite length_bitmap_set|by apply words_set|done]|].
  right. exists p. split; [reflexivity|]. split; [exact Hr|]. split; [exact Hfree|].
  split; [exact Hfirst|]. split; [exact Hset|]. split.
  - unfold free_count. cbn [bitmap highest_page].
    apply (filter_range_count _ _ (highest_page st) p 1); [clear - Hr; lia| |].
    + intros j Hj. replace j with p by (clear - Hj; lia). unfold is_free. by rewrite Hfree.
    + intros j Hj. unfold is_free. rewrite Hset, negb_orb. f_equal. f_equal.
      apply bool_decide_ext. clear. lia.
  - unfold pmm_free_page. cbn [bitmap highest_page].
    rewrite Z.div_mul, Nat2Z.id by (unfold PAGE_SIZE; discriminate).
    rewrite (proj2 (Nat.ltb_lt _ _)) by (clear - Hr; lia). rewrite Hset, bool_decide_eq_true_2 by done. cbn [negb orb].
    eexists. split; [done|]. intros q. cbn [bitmap].
    rewrite bitmap_test_clear, Hset; [|by rewrite length_bitmap_set|by apply words_set].
    case_bool_decide as Eq; simpl; [by subst|done].
Qed.

(** Page allocation is sound and complete.  [pmm_alloc_page] returns 0,
    changing nothing, exactly when every page from 1 MiB up to the highest one
    is used; otherwise it returns the address of the first free page of that
    range, marks exactly that page used and decreases the number of free pages
    by one; freeing that address gives back the same bitmap. *)
Theorem pmm_alloc_page_correct st :
  wf_pmm st ->
  let '(st', phys) := pmm_alloc_page st in
  wf_pmm st' /\
  ((phys = 0 /\ st' = st /\
    forall p, (256 <= p < highest_page st)%nat -> bitmap_test (bitmap st) p = true) \/
   exists p, phys = Z.of_nat p * PAGE_SIZE /\ (256 <= p < highest_page st)%nat /\
     bitmap_test (bitmap st) p = false /\
     (forall q, (256 <= q < p)%nat -> bitmap_test (bitmap st) q = true) /\
     (forall q, bitmap_test (bitmap st') q = bool_decide (p = q) || bitmap_test (bitmap st) q) /\
     (free_count st' + 1 = free_count st)%nat /\
     exists st'', pmm_free_page st' phys = Some st'' /\
       forall q, bitmap_test (bitmap st'') q = bitmap_test (bitmap st) q).
Proof. apply alloc_page_spec. Qed.

(** Contiguous allocation is first fit.  [pmm_alloc_pages] for a positive
    count returns 0 exactly when every run of that length between 1 MiB and the
    highest page contains a used page; otherwise it returns the lowest such run,
    all of whose pages were free, and marks exactly these pages used. *)
Theorem pmm_alloc_pages_first_fit st cnt :
  wf_pmm st -> (0 < cnt)%nat ->
  let '(st', phys) := pmm_alloc_pages st cnt in
  (phys = 0 /\ st' = st /\
   forall p, (256 <= p)%nat -> (p + cnt <= highest_page st)%nat -> blocked (bitmap st) p cnt) \/
  exists p, phys = Z.of_nat p * PAGE_SIZE /\ (256 <= p)%nat /\ (p + cnt <= highest_page st)%nat /\
    (forall q, (p <= q < p + cnt)%nat -> bitmap_test (bitmap st) q = false) /\
    (forall q, (256 <= q < p)%nat -> blocked (bitmap st) q cnt) /\
    (forall q, bitmap_test (bitmap st') q =
       bool_decide (p <= q < p + cnt)%nat || bitmap_test (bitmap st) q) /\
    (free_count st' + cnt = free_count st)%nat.
Proof.
  intros [H1 H2 H3] Hc. pose proof BITMAP_pages as Hbp.
  unfold pmm_alloc_pages, bitmap_find_clear_range.
  pose proof (find_range_spec (bitmap st) 256 (highest_page st - 256) 256 cnt 0 256
    ltac:(lia) ltac:(lia) Hc ltac:(lia) ltac:(lia)) as Hs.
  destruct (find_range_loop _ _ _ _ _ _) as [p|].
  2: { left. split_and!; [done|done|]. intros q Hq Hh. apply Hs; lia. }
  destruct Hs as (Hp & Hh & Hfree & Hfirst).
  assert (p + cnt <= highest_page st)%nat as Hh' by lia.
  destruct (bitmap_set_range_spec (bitmap st) p cnt ltac:(lia)) as [Hl Hset].
  right. exists p. split; [reflexivity|]. split; [exact Hp|]. split; [exact Hh'|].
  split; [exact Hfree|]. split; [exact Hfirst|]. split; [exact Hset|].
  unfold free_count. cbn [bitmap highest_page].
  apply (filter_range_count _ _ (highest_page st) p cnt); [done| |].
  - intros j Hj. unfold is_free. by rewrite Hfree.
  - intros j Hj. unfold is_free. by rewrite Hset, negb_orb.
Qed.

(** A machine with usable memory from 0 to 2 MiB and the kernel at 1 MiB. *)
Definition demo_pmm : pmm_state :=
  Pmm (replicate 4 (2 ^ 64 - 1) ++ [2 ^ 64 - 1 - 4] ++ replicate (BITMAP_SIZE - 5) (2 ^ 64 - 1)) 1 0 320.

Lemma demo_pmm_wf : wf_pmm demo_pmm.
Proof.
  constructor; [vm_compute; reflexivity| |].
  - cbn [demo_pmm bitmap]. repeat (apply Forall_app; split); try (apply Forall_replicate; by_compute).
    by_compute.
  - unfold MAX_PAGES, PAGE_SIZE. cbn [demo_pmm highest_page]. lia.
Qed.

Lemma pmm_alloc_page_correct_witness :
  let '(st', phys) := pmm_alloc_page demo_pmm in
  wf_pmm st' /\
  ((phys = 0 /\ st' = demo_pmm /\
    forall p, (256 <= p < highest_page demo_pmm)%nat -> bitmap_test (bitmap demo_pmm) p = true) \/
   exists p, phys = Z.of_nat p * PAGE_SIZE /\ (256 <= p < highest_page demo_pmm)%nat /\
     bitmap_test (bitmap demo_pmm) p = false /\
     (forall q, (256 <= q < p)%nat -> bitmap_test (bitmap demo_pmm) q = true) /\
     (forall q, bitmap_test (bitmap st') q = bool_decide (p = q) || bitmap_test (bitmap demo_pmm) q) /\
     (free_count st' + 1 = free_count demo_pmm)%nat /\
     exists st'', pmm_free_page st' phys = Some st'' /\
       forall q, bitmap_test (bitmap st'') q = bitmap_test (bitmap demo_pmm) q).
Proof. apply (pmm_alloc_page_correct demo_pmm demo_pmm_wf). Defined.

Lemma pmm_alloc_pages_first_fit_witness :
  let '(st', phys) := pmm_alloc_pages demo_pmm 1 in
  (phys = 0 /\ st' = demo_pmm /\
   forall p, (256 <= p)%nat -> (p + 1 <= highest_page demo_pmm)%nat -> blocked (bitmap demo_pmm) p 1) \/
  exists p, phys = Z.of_nat p * PAGE_SIZE /\ (256 <= p)%nat /\ (p + 1 <= highest_page demo_pmm)%nat /\
    (forall q, (p <= q < p + 1)%nat -> bitmap_test (bitmap demo_pmm) q = false) /\
    (forall q, (256 <= q < p)%nat -> blocked (bitmap demo_pmm) q 1) /\
    (forall q, bitmap_test (bitmap st') q =
       bool_decide (p <= q < p + 1)%nat || bitmap_test (bitmap demo_pmm) q) /\
    (free_count st' + 1 = free_count demo_pmm)%nat.
Proof. apply (pmm_alloc_pages_first_fit demo_pmm 1 demo_pmm_wf). lia. Defined.

Example demo_pmm_alloc : snd (pmm_alloc_page demo_pmm) = 258 * PAGE_SIZE.
Proof. vm_compute. reflexivity. Qed.
