(* ===== verification/Heap.v ===== *)
(** * The kernel heap (src/kernel/mm/heap.c)

    The doubly linked list of block headers, from [heap_head] along [next], is
    the list [blocks]; [prev] is the preceding element.  Each header sits at
    its address, the data area [HDR] bytes further.  A failed [ASSERT] (or a
    pointer that is no block's data area) gives [None]. *)

From S2P Require Import Prelude Pmm.

(** [sizeof(heap_block_t)]: magic, size, free (padded), next, prev. *)
Definition HDR : Z := 40.
Definition MIN_BLOCK_SIZE : Z := 32.
Definition KERNEL_HEAP_BASE : Z := 0xFFFFFFFF82000000.
Definition KERNEL_HEAP_SIZE : Z := 256 * 1024 * 1024.

Record block := Blk { b_addr : Z; b_size : Z; b_free : bool }.

Record heap_state := Heap {
  blocks : list block;
  heap_total_size : Z;
  heap_used_bytes : Z
}.

Definition heap_init : heap_state :=
  let initial_size := 256 * PAGE_SIZE in
  Heap [Blk KERNEL_HEAP_BASE (initial_size - HDR) true] initial_size 0.

(** The first-fit loop: the new list and the block that was taken. *)
Fixpoint kmalloc_loop (size : Z) (bs : list block) : option (list block * block) :=
  match bs with
  | [] => None
  | b :: bs =>
      if b_free b && (size <=? b_size b) then
        if u64 (size + HDR + MIN_BLOCK_SIZE) <=? b_size b then
          let taken := Blk (b_addr b) size false in
          let new_block := Blk (b_addr b + HDR + size) (b_size b - size - HDR) true in
          Some (taken :: new_block :: bs, taken)
        else
          let taken := Blk (b_addr b) (b_size b) false in
          Some (taken :: bs, taken)
      else
        match kmalloc_loop size bs with
        | Some (bs, taken) => Some (b :: bs, taken)
        | None => None
        end
  end.

(** [None] is the null pointer. *)
Definition kmalloc (st : heap_state) (size : Z) : heap_state * option Z :=
  if size =? 0 then (st, None)
  else
    let size := ALIGN_UP size 16 in
    match kmalloc_loop size (blocks st) with
    | Some (bs, taken) =>
        (Heap bs (heap_total_size st) (u64 (heap_used_bytes st + b_size taken)),
         Some (b_addr taken + HDR))
    | None => (st, None)
    end.

(** The position of the block whose header is at [a]. *)
Fixpoint find_block (bs : list block) (a : Z) : option nat :=
  match bs with
  | [] => None
  | b :: bs =>
      if b_addr b =? a then Some O
      else match find_block bs a with Some i => Some (S i) | None => None end
  end.

(** Block [i] absorbs block [i + 1]. *)
Definition join_at (bs : list block) (i : nat) : list block :=
  match bs !! i, bs !! S i with
  | Some a, Some b =>
      take i bs ++ Blk (b_addr a) (b_size a + HDR + b_size b) (b_free a) :: drop (S (S i)) bs
  | _, _ => bs
  end.

Definition is_free_at (bs : list block) (i : nat) : bool :=
  match bs !! i with Some b => b_free b | None => false end.

Definition kfree (st : heap_state) (ptr : option Z) : option heap_state :=
  match ptr with
  | None => Some st
  | Some p =>
      match find_block (blocks st) (p - HDR) with
      | None => None
      | Some i =>
          match blocks st !! i with
          | None => None
          | Some b =>
              if b_free b then None
              else
                let bs := <[i := Blk (b_addr b) (b_size b) true]> (blocks st) in
                (* coalesce with the next block, then with the previous one *)
                let bs := if is_free_at bs (S i) then join_at bs i else bs in
                let bs := match i with
                          | O => bs
                          | S j => if is_free_at bs j then join_at bs j else bs
                          end in
                Some (Heap bs (heap_total_size st) (u64 (heap_used_bytes st - b_size b)))
          end
      end
  end.

(** The third component is the area cleared by [memset], if any. *)
Definition kzalloc (st : heap_state) (size : Z) : heap_state * option Z * option (Z * Z) :=
  let '(st, ptr) := kmalloc st size in
  (st, ptr, match ptr with Some p => Some (p, size) | None => None end).

(** The third component is the copy made, if any: from, to, length. *)
Definition krealloc (st : heap_state) (ptr : option Z) (new_size : Z)
    : option (heap_state * option Z * option (Z * Z * Z)) :=
  match ptr with
  | None => let '(st, p) := kmalloc st new_size in Some (st, p, None)
  | Some p =>
      if new_size =? 0 then
        match kfree st ptr with Some st => Some (st, None, None) | None => None end
      else
        match find_block (blocks st) (p - HDR) with
        | None => None
        | Some i =>
            match blocks st !! i with
            | None => None
            | Some b =>
                if new_size <=? b_size b then Some (st, ptr, None)
                else
                  match kmalloc st new_size with
                  | (st, Some q) =>
                      match kfree st ptr with
                      | Some st => Some (st, Some q, Some (p, q, b_size b))
                      | None => None
                      end
                  | (st, None) => Some (st, None, None)
                  end
            end
        end
  end.

(** The part of [heap_expand] after the mapping: the block of the new pages is
    linked at the end, and joined with the last block when that is free. *)
Definition append_pages (st : heap_state) (num_pages : Z) : heap_state :=
  let virt_start := KERNEL_HEAP_BASE + heap_total_size st in
  let expand_size := num_pages * PAGE_SIZE in
  let new_block := Blk virt_start (expand_size - HDR) true in
  let bs := blocks st ++ [new_block] in
  let i := (length (blocks st) - 1)%nat in
  let bs :=
    match blocks st !! i with
    | Some last =>
        if b_free last && (b_addr last + HDR + b_size last =? virt_start)
        then join_at bs i else bs
    | None => bs
    end in
  Heap bs (u64 (heap_total_size st + expand_size)) (heap_used_bytes st).

Definition heap_used (st : heap_state) : Z := heap_used_bytes st.
Definition heap_free (st : heap_state) : Z := u64 (heap_total_size st - heap_used_bytes st - HDR).

(** ** Well-formed heaps *)

(** The blocks tile [a, e): each starts where the previous one ends. *)
Fixpoint tiles (a e : Z) (bs : list block) : Prop :=
  match bs with
  | [] => a = e
  | b :: bs => b_addr b = a /\ 0 <= b_size b /\ tiles (a + HDR + b_size b) e bs
  end.

(** No two free blocks are neighbours. *)
Fixpoint coalesced (bs : list block) : Prop :=
  match bs with
  | a :: (b :: _) as rest => ~ (b_free a = true /\ b_free b = true) /\ coalesced rest
  | _ => True
  end.

(** The allocated areas: data address and size. *)
Definition allocs (bs : list block) : list (Z * Z) :=
  map (fun b => (b_addr b + HDR, b_size b)) (List.filter (fun b => negb (b_free b)) bs).

Definition sum_sizes (l : list (Z * Z)) : Z := foldr (fun p s => snd p + s) 0 l.

Record wf_heap (st : heap_state) : Prop := {
  wh_tiles : tiles KERNEL_HEAP_BASE (KERNEL_HEAP_BASE + heap_total_size st) (blocks st);
  wh_coalesced : coalesced (blocks st);
  wh_total : 0 <= heap_total_size st <= KERNEL_HEAP_SIZE;
  wh_pages : heap_total_size st mod PAGE_SIZE = 0;
  wh_some : blocks st <> [];
  wh_used : heap_used_bytes st = sum_sizes (allocs (blocks st))
}.

(** Areas that do not overlap. *)
Definition disjoint_area (p q : Z * Z) : Prop :=
  fst p + snd p <= fst q \/ fst q + snd q <= fst p.

Lemma tiles_app a e bs1 bs2 :
  tiles a e (bs1 ++ bs2) <-> exists m, tiles a m bs1 /\ tiles m e bs2.
Proof.
  revert a. induction bs1 as [|b bs1 IH]; intros a; simpl.
  - split; [by exists a|]. by intros (m & -> & H).
  - setoid_rewrite IH. naive_solver.
Qed.

Lemma tiles_le a e bs : tiles a e bs -> a <= e.
Proof.
  revert a. induction bs as [|b bs IH]; intros a; simpl; [lia|].
  intros (_ & H0 & H%IH). unfold HDR in H. lia.
Qed.

Lemma tiles_from a a' e bs : a' = a -> tiles a' e bs -> tiles a e bs.
Proof. by intros ->. Qed.

Lemma tiles_in a e bs b :
  tiles a e bs -> b ∈ bs -> a <= b_addr b /\ 0 <= b_size b /\ b_addr b + HDR + b_size b <= e.
Proof.
  revert a. induction bs as [|b0 bs IH]; intros a H Hb; [by apply elem_of_nil in Hb|].
  destruct H as (E & H0 & H). apply elem_of_cons in Hb as [->|Hb].
  - apply tiles_le in H. unfold HDR in *. lia.
  - destruct (IH _ H Hb). unfold HDR in *. lia.
Qed.

(** ** Allocation *)

Definition too_small (size : Z) (b : block) : Prop := ~ (b_free b = true /\ size <= b_size b).

(** What the first-fit loop does: it takes the first free block that is large
    enough and leaves the rest of it, if any, as a new free block. *)
Lemma kmalloc_loop_spec size bs a e :
  0 <= size -> tiles a e bs -> e - a <= KERNEL_HEAP_SIZE ->
  match kmalloc_loop size bs with
  | Some (bs', t) =>
      exists pre b post rest, bs = pre ++ b :: post /\ b_free b = true /\
        Forall (too_small size) pre /\
        b_addr t = b_addr b /\ b_free t = false /\ size <= b_size t /\
        bs' = pre ++ t :: rest ++ post /\
        ((rest = [] /\ b_size t = b_size b) \/
         (rest = [Blk (b_addr b + HDR + b_size t) (b_size b - b_size t - HDR) true] /\
          b_size t + HDR <= b_size b))
  | None => Forall (too_small size) bs
  end.
Proof.
  intros Hs. revert a. induction bs as [|b bs IH]; intros a Ht He; cbn [kmalloc_loop]; [constructor|].
  destruct Ht as (Ha & Hb & Ht). pose proof (tiles_le _ _ _ Ht) as Hle.
  unfold KERNEL_HEAP_SIZE, HDR, MIN_BLOCK_SIZE in *.
  destruct (b_free b) eqn:Hf; [destruct (Z.leb_spec size (b_size b))|]; cbn [andb].
  - rewrite wrap_small by (unfold is_word; lia).
    destruct (Z.leb_spec (size + 40 + 32) (b_size b)).
    + exists [], b, bs, [Blk (b_addr b + 40 + size) (b_size b - size - 40) true].
      split_and!; try done. right. split; [done|]. cbn. lia.
    + exists [], b, bs, []. split_and!; try done. by left.
  - specialize (IH _ Ht ltac:(lia)). destruct (kmalloc_loop size bs) as [[bs' t]|].
    + destruct IH as (pre & b' & post & rest & -> & H1 & H2 & H3 & H4 & H5 & -> & H6).
      exists (b :: pre), b', post, rest. split_and!; try done.
      constructor; [|done]. intros [_ ?]. lia.
    + constructor; [|done]. intros [_ ?]. lia.
  - specialize (IH _ Ht ltac:(lia)). destruct (kmalloc_loop size bs) as [[bs' t]|].
    + destruct IH as (pre & b' & post & rest & -> & H1 & H2 & H3 & H4 & H5 & -> & H6).
      exists (b :: pre), b', post, rest. split_and!; try done.
      constructor; [|done]. intros [? _]. congruence.
    + constructor; [|done]. intros [? _]. congruence.
Qed.

Lemma coalesced_app l b k : coalesced (l ++ b :: k) <-> coalesced (l ++ [b]) /\ coalesced (b :: k).
Proof.
  induction l as [|x l IH]; [cbn; tauto|]. destruct l as [|y l].
  - cbn [app]. cbn [coalesced]. tauto.
  - cbn [app] in *. cbn [coalesced] in *. tauto.
Qed.

Lemma coalesced_snoc_used l b : b_free b = false -> coalesced l -> coalesced (l ++ [b]).
Proof.
  intros Hf. induction l as [|x l IH]; [done|]. destruct l as [|y l]; cbn [app coalesced] in *.
  - intros _. split; [|done]. intros [_ ?]. congruence.
  - intros [H1 H2]. split; [done|]. by apply IH.
Qed.

Lemma coalesced_used_cons b k : b_free b = false -> coalesced k -> coalesced (b :: k).
Proof. intros Hf H. destruct k as [|c k]; [done|]. split; [|done]. intros [? _]. congruence. Qed.

Lemma coalesced_same_free b c k : b_free b = b_free c -> coalesced (b :: k) -> coalesced (c :: k).
Proof. intros E. destruct k; cbn; [done|]. by rewrite E. Qed.

Lemma coalesced_prefix l k : coalesced (l ++ k) -> coalesced l.
Proof.
  induction l as [|x l IH]; [done|]. destruct l as [|y l]; [done|].
  cbn [app coalesced] in *. intros [H1 H2]. split; [done|]. by apply IH.
Qed.

Lemma coalesced_tail b k : coalesced (b :: k) -> coalesced k.
Proof. destruct k; cbn; tauto. Qed.

Lemma allocs_app l k : allocs (l ++ k) = allocs l ++ allocs k.
Proof. unfold allocs. by rewrite List.filter_app, map_app. Qed.

Lemma allocs_cons b k :
  allocs (b :: k) = (if b_free b then [] else [(b_addr b + HDR, b_size b)]) ++ allocs k.
Proof. unfold allocs. cbn. by destruct (b_free b). Qed.

Lemma allocs_elem bs p sz :
  (p, sz) ∈ allocs bs <-> exists b, b ∈ bs /\ b_free b = false /\ p = b_addr b + HDR /\ sz = b_size b.
Proof.
  unfold allocs. rewrite list_elem_of_In, in_map_iff. setoid_rewrite filter_In.
  setoid_rewrite negb_true_iff. setoid_rewrite list_elem_of_In.
  split; [intros (b & E & ? & ?); injection E as <- <-; eauto|].
  intros (b & ? & ? & -> & ->). eauto.
Qed.

Lemma sum_sizes_app l k : sum_sizes (l ++ k) = sum_sizes l + sum_sizes k.
Proof. unfold sum_sizes. induction l as [|x l IH]; cbn; [done|]. rewrite IH. lia. Qed.

Lemma sum_sizes_cons p l : sum_sizes (p :: l) = snd p + sum_sizes l.
Proof. done. Qed.

#[export] Instance sum_sizes_perm : Proper ((≡ₚ) ==> (=)) sum_sizes.
Proof. intros l k H. unfold sum_sizes. induction H; cbn; lia. Qed.

Lemma sum_sizes_range a e bs : tiles a e bs -> 0 <= sum_sizes (allocs bs) <= e - a.
Proof.
  revert a. induction bs as [|b bs IH]; intros a H; [cbn in *; lia|].
  destruct H as (? & ? & H). specialize (IH _ H). rewrite allocs_cons, sum_sizes_app.
  unfold HDR in *. destruct (b_free b); cbn; lia.
Qed.

(** Distinct blocks of a tiling have disjoint data areas. *)
Lemma tiles_disjoint a e pre b post :
  tiles a e (pre ++ b :: post) ->
  Forall (disjoint_area (b_addr b + HDR, b_size b)) (allocs (pre ++ post)).
Proof.
  intros (m & H1 & Ha & Hb & H2)%tiles_app. rewrite allocs_app.
  apply Forall_app; split; apply Forall_forall; intros [p sz] (c & Hc & _ & -> & ->)%allocs_elem;
    unfold disjoint_area, HDR in *; cbn.
  - destruct (tiles_in _ _ _ _ H1 Hc) as (? & ? & ?). unfold HDR in *. lia.
  - destruct (tiles_in _ _ _ _ H2 Hc) as (? & ? & ?). unfold HDR in *. lia.
Qed.

Lemma ALIGN_UP_pow k n :
  0 <= k <= 64 -> 0 < n <= 2 ^ 64 - 2 ^ k ->
  ALIGN_UP n (2 ^ k) = (n + 2 ^ k - 1) / 2 ^ k * 2 ^ k.
Proof.
  intros Hk Hn. unfold ALIGN_UP. rewrite wrap_small by (unfold is_word; lia).
  replace (2 ^ 64 - 2 ^ k) with (Z.shiftl (Z.ones (64 - k)) k).
  2: { rewrite Z.shiftl_mul_pow2, Z.ones_equiv, Z.mul_pred_l, <- Z.pow_add_r by lia.
       do 2 f_equal. lia. }
  replace (n + (2 ^ k - 1)) with (n + 2 ^ k - 1) by lia.
  rewrite <- Z.shiftr_div_pow2, <- Z.shiftl_mul_pow2 by lia.
  apply Z.bits_inj'. intros i Hi. rewrite Z.land_spec.
  destruct (Z.lt_ge_cases i k).
  - rewrite !(Z.shiftl_spec_low _ _ i), andb_false_r by lia. done.
  - rewrite !Z.shiftl_spec, Z.shiftr_spec, Z.testbit_ones_nonneg by lia.
    replace (i - k + k) with i by lia.
    destruct (Z.ltb_spec (i - k) (64 - k)); [apply andb_true_r|].
    rewrite (testbit_word 64); [done|unfold is_word; lia|lia].
Qed.

Lemma ALIGN_UP_16 n : 0 < n <= 2 ^ 64 - 16 -> ALIGN_UP n 16 = (n + 15) / 16 * 16.
Proof.
  intros Hn. change 16 with (2 ^ 4) at 1. rewrite ALIGN_UP_pow by lia.
  change (2 ^ 4) with 16. do 2 f_equal. lia.
Qed.

(** What [kmalloc] promises for a request of [n] bytes. *)
Definition kmalloc_post (st : heap_state) (n : Z) (r : heap_state * option Z) : Prop :=
  match r with
  | (st', Some p) =>
      wf_heap st' /\ heap_total_size st' = heap_total_size st /\
      exists sz, n <= sz /\ KERNEL_HEAP_BASE + HDR <= p /\
        p + sz <= KERNEL_HEAP_BASE + heap_total_size st /\
        Forall (disjoint_area (p, sz)) (allocs (blocks st)) /\
        allocs (blocks st') ≡ₚ (p, sz) :: allocs (blocks st)
  | (st', None) =>
      st' = st /\ Forall (fun b => b_free b = true -> b_size b < (n + 15) / 16 * 16) (blocks st)
  end.

Lemma kmalloc_meets st n : wf_heap st -> 0 < n <= 2 ^ 64 - 16 -> kmalloc_post st n (kmalloc st n).
Proof.
  intros [Ht Hc Htot Hpg Hne Hu] Hn. unfold kmalloc_post, kmalloc.
  destruct (Z.eqb_spec n 0); [lia|]. rewrite ALIGN_UP_16 by done.
  pose proof (kmalloc_loop_spec ((n + 15) / 16 * 16) _ _ _ ltac:(lia) Ht ltac:(lia)) as Hs.
  destruct (kmalloc_loop _ _) as [[bs' t]|].
  2: { split; [done|]. eapply Forall_impl; [exact Hs|]. intros b Hb Hf.
       apply Z.nle_gt. intros ?. by apply Hb. }
  destruct Hs as (pre & b & post & rest & Ebs & Hf & _ & Hta & Htf & Hsz & -> & Hrest).
  rewrite Ebs in *. pose proof Ht as (m & H1 & Hm & Hb & H2)%tiles_app.
  assert (tiles KERNEL_HEAP_BASE (KERNEL_HEAP_BASE + heap_total_size st) (pre ++ t :: rest ++ post)) as Ht'.
  { apply tiles_app. exists m. split; [done|]. cbn [tiles].
    destruct Hrest as [[-> E]|[-> E]]; rewrite ?E; split_and!; try (rewrite ?Hta; lia); [done|].
    cbn [app tiles b_addr b_size]. rewrite Hm in *. unfold HDR in *.
    split_and!; [lia|lia|]. eapply tiles_from; [|exact H2]. lia. }
  assert (allocs rest = []) as Hr by (by destruct Hrest as [[-> _]|[-> _]]).
  assert (allocs (pre ++ t :: rest ++ post) ≡ₚ
          (b_addr t + HDR, b_size t) :: allocs (pre ++ b :: post)) as Hp.
  { rewrite !allocs_app, !allocs_cons, allocs_app, Htf, Hf, Hr. cbn. symmetry.
    apply Permutation_middle. }
  assert (coalesced (pre ++ t :: rest ++ post)) as Hc'.
  { apply coalesced_app in Hc as [Hc1 Hc2]. apply coalesced_app. split.
    - apply coalesced_snoc_used; [done|]. by eapply coalesced_prefix.
    - apply coalesced_used_cons; [done|]. destruct Hrest as [[-> _]|[-> _]]; cbn [app].
      + by eapply coalesced_tail.
      + by eapply coalesced_same_free; [|exact Hc2]. }
  pose proof (tiles_disjoint _ _ _ _ _ Ht') as Hd. rewrite !allocs_app, Hr in Hd. cbn [app] in Hd.
  destruct (tiles_in _ _ _ t Ht' ltac:(apply list_elem_of_In, in_elt)) as (Hi1 & Hi2 & Hi3).
  pose proof (sum_sizes_range _ _ _ Ht') as Hsum. rewrite Hp, sum_sizes_cons in Hsum.
  cbn [snd] in Hsum.
  split_and!; [|done|].
  - constructor; cbn [blocks heap_total_size heap_used_bytes]; try done.
    + by destruct pre.
    + rewrite Hp, Hu, sum_sizes_cons. cbn [snd]. rewrite wrap_small; [lia|].
      unfold is_word, KERNEL_HEAP_SIZE in *. lia.
  - exists (b_size t). split_and!; [lia|lia|lia| |exact Hp].
    rewrite allocs_app, allocs_cons, Hf. exact Hd.
Qed.

(** C21: on a well-formed heap, for a request [n] of 1 to 2^64 - 16 bytes:
    if [kmalloc] returns a pointer, the area behind it has at least [n] bytes,
    lies in the heap, is disjoint from every area allocated before, becomes
    the only new allocation, and the heap is well formed again (the blocks
    tile it, no two free neighbours, the used-bytes counter exact).  It
    returns the null pointer only if no free block holds the request rounded
    up to a multiple of 16, and then changes nothing. *)
Theorem kmalloc_correct st n :
  wf_heap st -> 0 < n <= 2 ^ 64 - 16 ->
  match kmalloc st n with
  | (st', Some p) =>
      wf_heap st' /\ heap_total_size st' = heap_total_size st /\
      exists sz, n <= sz /\ KERNEL_HEAP_BASE + HDR <= p /\
        p + sz <= KERNEL_HEAP_BASE + heap_total_size st /\
        Forall (disjoint_area (p, sz)) (allocs (blocks st)) /\
        allocs (blocks st') ≡ₚ (p, sz) :: allocs (blocks st)
  | (st', None) =>
      st' = st /\ Forall (fun b => b_free b = true -> b_size b < (n + 15) / 16 * 16) (blocks st)
  end.
Proof. exact (kmalloc_meets st n). Qed.

(** ** Freeing *)

Lemma find_block_app a e pre b post :
  tiles a e (pre ++ b :: post) -> find_block (pre ++ b :: post) (b_addr b) = Some (length pre).
Proof.
  revert a. induction pre as [|c pre IH]; intros a; cbn [app find_block].
  - intros _. by rewrite Z.eqb_refl.
  - intros (Ha & Hc & H). rewrite (IH _ H).
    destruct (Z.eqb_spec (b_addr c) (b_addr b)) as [E|]; [|done].
    pose proof (tiles_in _ _ _ b H ltac:(apply list_elem_of_In, in_elt)) as (? & _).
    unfold HDR in *. lia.
Qed.

Lemma is_free_at_app pre b post : is_free_at (pre ++ b :: post) (length pre) = b_free b.
Proof. unfold is_free_at. by rewrite list_lookup_middle. Qed.

Lemma is_free_at_next pre b post :
  is_free_at (pre ++ b :: post) (S (length pre)) = match post with c :: _ => b_free c | [] => false end.
Proof.
  unfold is_free_at. rewrite lookup_app_r by lia. replace (S (length pre) - length pre)%nat with 1%nat by lia.
  by destruct post.
Qed.

Definition merge (a b : block) : block := Blk (b_addr a) (b_size a + HDR + b_size b) (b_free a).

Lemma join_at_app pre a b post : join_at (pre ++ a :: b :: post) (length pre) = pre ++ merge a b :: post.
Proof.
  unfold join_at. rewrite list_lookup_middle by done.
  replace (pre ++ a :: b :: post) with ((pre ++ [a]) ++ b :: post) by (by rewrite <- app_assoc).
  rewrite list_lookup_middle by (rewrite length_app; cbn; lia).
  rewrite <- app_assoc. cbn [app]. rewrite take_app_length.
  replace (S (S (length pre))) with (length (pre ++ [a; b])) by (rewrite length_app; cbn; lia).
  replace (pre ++ a :: b :: post) with ((pre ++ [a; b]) ++ post) by (by rewrite <- app_assoc).
  by rewrite drop_app_length.
Qed.

Lemma tiles_merge a e pre x y post :
  tiles a e (pre ++ x :: y :: post) -> tiles a e (pre ++ merge x y :: post).
Proof.
  rewrite !tiles_app. intros (m & H1 & H). exists m. split; [done|]. cbn [tiles merge b_addr b_size] in *.
  destruct H as (-> & Hx & Hy & Hy' & H). unfold HDR in *. split_and!; [done|lia|].
  eapply tiles_from; [|exact H]. lia.
Qed.

Lemma allocs_merge pre x y post :
  b_free x = true -> b_free y = true ->
  allocs (pre ++ merge x y :: post) = allocs (pre ++ x :: y :: post).
Proof. intros Hx Hy. by rewrite !allocs_app, !allocs_cons; cbn [merge b_free]; rewrite Hx, Hy. Qed.

(** What [kfree] does to the list, with the freed block [b] between [pre]
    and [post]: first the merge with the next block, then with the previous
    one. *)
Lemma free_step a e pre b post :
  b_free b = true -> tiles a e (pre ++ b :: post) -> coalesced pre -> coalesced post ->
  let bs := pre ++ b :: post in
  let bs := if is_free_at bs (S (length pre)) then join_at bs (length pre) else bs in
  let bs := match length pre with
            | O => bs
            | S j => if is_free_at bs j then join_at bs j else bs
            end in
  tiles a e bs /\ coalesced bs /\ allocs bs = allocs (pre ++ b :: post) /\ bs <> [].
Proof.
  intros Hf Ht Hpre Hpost. cbn zeta. rewrite is_free_at_next.
  (* the merge with the next block *)
  assert (exists b' post', b_free b' = true /\ coalesced (b' :: post') /\
    tiles a e (pre ++ b' :: post') /\ allocs (pre ++ b' :: post') = allocs (pre ++ b :: post) /\
    (if match post with c :: _ => b_free c | [] => false end
     then join_at (pre ++ b :: post) (length pre) else pre ++ b :: post) = pre ++ b' :: post')
    as (b' & post' & Hb' & Hc' & Ht' & Ha' & ->).
  { destruct post as [|c post]; [by exists b, []|]. destruct (b_free c) eqn:Hc.
    - exists (merge b c), post. rewrite join_at_app. split_and!; try done.
      + eapply coalesced_same_free; [|exact Hpost]. cbn. congruence.
      + by apply tiles_merge.
      + by apply allocs_merge.
    - exists b, (c :: post). split_and!; try done. split; [|done]. intros [_ ?]. congruence. }
  (* the merge with the previous one *)
  destruct pre as [|q pre _] using rev_ind; cbn [length].
  { split_and!; done. }
  rewrite length_app. cbn [length]. rewrite Nat.add_1_r, <- app_assoc. cbn [app].
  rewrite is_free_at_app. rewrite <- app_assoc in Ht', Ha'. cbn [app] in Ht', Ha'.
  destruct (b_free q) eqn:Hq.
  - rewrite join_at_app. split_and!.
    + by apply tiles_merge.
    + apply coalesced_app. split.
      * destruct pre as [|x pre _] using rev_ind; [done|].
        rewrite <- app_assoc in *. cbn [app] in *. apply coalesced_app in Hpre as [H1 H2].
        apply coalesced_app. split; [done|]. cbn in *. by rewrite Hq in *.
      * eapply coalesced_same_free; [|exact Hc']. cbn. congruence.
    + by rewrite allocs_merge.
    + by destruct pre.
  - split_and!; [done| |done|by destruct pre].
    apply coalesced_app. split; [done|]. by apply coalesced_used_cons.
Qed.

(** Without allocations the heap is one free block. *)
Lemma no_allocs_one_block a e bs :
  tiles a e bs -> coalesced bs -> bs <> [] -> allocs bs = [] -> bs = [Blk a (e - a - HDR) true].
Proof.
  destruct bs as [|[x s f] [|[y s' f'] bs]]; [done| |]; intros Ht Hc _.
  - cbn in Ht. destruct Ht as (-> & H0 & E). unfold HDR in *. destruct f; [|done]. intros _.
    repeat f_equal. lia.
  - rewrite !allocs_cons. cbn [b_free]. destruct f; [|done]. destruct f'; [|done].
    exfalso. apply (proj1 Hc). done.
Qed.

(** What [kfree] does. *)
Lemma kfree_allocated st p sz :
  wf_heap st -> (p, sz) ∈ allocs (blocks st) ->
  exists st', kfree st (Some p) = Some st' /\ wf_heap st' /\
    heap_total_size st' = heap_total_size st /\
    allocs (blocks st) ≡ₚ (p, sz) :: allocs (blocks st') /\
    heap_used st' = heap_used st - sz /\
    (allocs (blocks st') = [] ->
     blocks st' = [Blk KERNEL_HEAP_BASE (heap_total_size st - HDR) true]).
Proof.
  intros [Ht Hc Htot Hpg Hne Hu] (b & Hb & Hbf & -> & ->)%allocs_elem.
  apply list_elem_of_split in Hb as (pre & post & Ebs). rewrite Ebs in *.
  unfold kfree. rewrite Ebs. replace (b_addr b + HDR - HDR) with (b_addr b) by lia.
  rewrite (find_block_app _ _ _ _ _ Ht), list_lookup_middle, Hbf, insert_app_r_alt by done.
  rewrite Nat.sub_diag. cbn [insert list_insert].
  set (b' := Blk (b_addr b) (b_size b) true).
  assert (allocs (pre ++ b :: post) ≡ₚ (b_addr b + HDR, b_size b) :: allocs (pre ++ b' :: post)) as Hp.
  { rewrite !allocs_app, !allocs_cons, Hbf. cbn. symmetry. apply Permutation_middle. }
  assert (tiles KERNEL_HEAP_BASE (KERNEL_HEAP_BASE + heap_total_size st) (pre ++ b' :: post)) as Ht'.
  { apply tiles_app in Ht as (m & ? & ?). apply tiles_app. by exists m. }
  assert (coalesced pre) as Hc1 by (by eapply coalesced_prefix).
  assert (coalesced post) as Hc2 by (by apply coalesced_app in Hc as [_ ?%coalesced_tail]).
  pose proof (sum_sizes_range _ _ _ Ht) as Hsum. rewrite Hp, sum_sizes_cons in Hsum.
  pose proof (sum_sizes_range _ _ _ Ht') as Hsum'. cbn [snd] in Hsum.
  destruct (free_step _ _ pre b' post eq_refl Ht' Hc1 Hc2) as (Hft & Hfc & Hfa & Hfn).
  cbn zeta in *. eexists. split; [reflexivity|]. cbn [blocks heap_total_size heap_used heap_used_bytes].
  assert (u64 (heap_used_bytes st - b_size b) = sum_sizes (allocs (pre ++ b' :: post))) as Hu'.
  { rewrite Hu, Hp, sum_sizes_cons. cbn [snd]. rewrite wrap_small; [lia|].
    unfold is_word, KERNEL_HEAP_SIZE in *. lia. }
  split_and!; [|done| | |].
  - constructor; cbn [blocks heap_total_size heap_used_bytes]; try done. by rewrite Hfa.
  - by rewrite Hfa.
  - unfold heap_used. cbn [heap_used_bytes]. rewrite Hu', Hu, Hp, sum_sizes_cons. cbn [snd]. lia.
  - intros E. rewrite (no_allocs_one_block _ _ _ Hft Hfc Hfn E). do 2 f_equal. lia.
Qed.

(** Freeing an allocated area ([p], [sz]) of a well-formed heap succeeds
    (no assertion fails), removes exactly that area from the allocations and
    leaves the heap well formed, in particular without two free neighbours;
    when it was the last allocation, the heap is again one free block. *)
Theorem kfree_correct st p sz :
  wf_heap st -> (p, sz) ∈ allocs (blocks st) ->
  exists st', kfree st (Some p) = Some st' /\ wf_heap st' /\
    heap_total_size st' = heap_total_size st /\
    allocs (blocks st) ≡ₚ (p, sz) :: allocs (blocks st') /\
    heap_used st' = heap_used st - sz /\
    (allocs (blocks st') = [] ->
     blocks st' = [Blk KERNEL_HEAP_BASE (heap_total_size st - HDR) true]).
Proof. apply kfree_allocated. Qed.

Lemma tiles_snoc_end a e pre b : tiles a e (pre ++ [b]) -> b_addr b + HDR + b_size b = e.
Proof. intros (m & _ & -> & _ & H)%tiles_app. exact H. Qed.

(** Growing the heap keeps it well formed and the allocations in place. *)
Lemma append_pages_wf st np :
  wf_heap st -> 1 <= np -> heap_total_size st + np * PAGE_SIZE <= KERNEL_HEAP_SIZE ->
  wf_heap (append_pages st np) /\ allocs (blocks (append_pages st np)) = allocs (blocks st) /\
  heap_total_size (append_pages st np) = heap_total_size st + np * PAGE_SIZE.
Proof.
  intros [Ht Hc Htot Hpg Hne Hu] Hnp Hmax. unfold append_pages. change PAGE_SIZE with (2 ^ 12) in *.
  rewrite wrap_small by (unfold is_word, KERNEL_HEAP_SIZE in *; lia).
  set (new := Blk (KERNEL_HEAP_BASE + heap_total_size st) (np * 2 ^ 12 - HDR) true).
  destruct (blocks st) as [|last pre _] eqn:Ebs using rev_ind; [done|].
  rewrite length_app. cbn [length]. rewrite Nat.add_sub, list_lookup_middle by done.
  rewrite (tiles_snoc_end _ _ _ _ Ht), Z.eqb_refl, andb_true_r, <- app_assoc. cbn [app].
  assert (tiles KERNEL_HEAP_BASE (KERNEL_HEAP_BASE + (heap_total_size st + np * 2 ^ 12))
            (pre ++ [last; new])) as Ht'.
  { change [last; new] with ([last] ++ [new]). rewrite app_assoc. apply tiles_app. eexists. split; [exact Ht|].
    subst new. cbn [tiles b_addr b_size]. unfold HDR. split_and!; [done|lia|lia]. }
  destruct (b_free last) eqn:Hl; rewrite ?join_at_app; cbn [blocks heap_total_size].
  - assert (allocs (pre ++ [merge last new]) = allocs (pre ++ [last])) as Ha
      by (rewrite allocs_merge by done; by rewrite !allocs_app, !allocs_cons, Hl).
    split_and!; [|done|done].
    constructor; cbn [blocks heap_total_size heap_used_bytes]; [by apply tiles_merge| |lia|by rewrite Z.mod_add|by destruct pre|].
    + destruct pre as [|x pre _] using rev_ind; [done|].
      rewrite <- app_assoc in *. cbn [app] in *. apply coalesced_app in Hc as [H1 H2].
      apply coalesced_app. split; [done|]. cbn in *. by rewrite Hl in *.
    + by rewrite Ha.
  - assert (allocs (pre ++ [last; new]) = allocs (pre ++ [last])) as Ha
      by (by rewrite !allocs_app, !allocs_cons, Hl).
    split_and!; [|done|done].
    constructor; cbn [blocks heap_total_size heap_used_bytes]; [done| |lia|by rewrite Z.mod_add|by destruct pre|by rewrite Ha].
    apply coalesced_app. split; [done|]. by apply coalesced_used_cons.
Qed.

Lemma heap_init_wf : wf_heap heap_init.
Proof. constructor; by_compute || done || (vm_compute; done). Qed.

Lemma demo_heap_kmalloc :
  kmalloc heap_init 100 =
    (Heap [Blk KERNEL_HEAP_BASE 112 false; Blk (KERNEL_HEAP_BASE + 152) 1048384 true] 1048576 112,
     Some (KERNEL_HEAP_BASE + 40)).
Proof. reflexivity. Qed.

Definition demo_heap : heap_state := fst (kmalloc heap_init 100).

Lemma demo_heap_wf : wf_heap demo_heap.
Proof.
  constructor; vm_compute; try done; repeat split; try done. by intros [? _].
Qed.

Lemma kmalloc_correct_witness :
  match kmalloc heap_init 100 with
  | (st', Some p) =>
      wf_heap st' /\ heap_total_size st' = heap_total_size heap_init /\
      exists sz, 100 <= sz /\ KERNEL_HEAP_BASE + HDR <= p /\
        p + sz <= KERNEL_HEAP_BASE + heap_total_size heap_init /\
        Forall (disjoint_area (p, sz)) (allocs (blocks heap_init)) /\
        allocs (blocks st') ≡ₚ (p, sz) :: allocs (blocks heap_init)
  | (st', None) =>
      st' = heap_init /\
      Forall (fun b => b_free b = true -> b_size b < (100 + 15) / 16 * 16) (blocks heap_init)
  end.
Proof. apply (kmalloc_correct heap_init 100 heap_init_wf). lia. Defined.

Lemma kfree_correct_witness :
  exists st', kfree demo_heap (Some (KERNEL_HEAP_BASE + 40)) = Some st' /\ wf_heap st' /\
    heap_total_size st' = heap_total_size demo_heap /\
    allocs (blocks demo_heap) ≡ₚ (KERNEL_HEAP_BASE + 40, 112) :: allocs (blocks st') /\
    heap_used st' = heap_used demo_heap - 112 /\
    (allocs (blocks st') = [] ->
     blocks st' = [Blk KERNEL_HEAP_BASE (heap_total_size demo_heap - HDR) true]).
Proof. apply (kfree_correct demo_heap _ 112 demo_heap_wf). apply list_elem_of_In. by left. Defined.

(** The rounding wraps: a request of 2^64 - 1 bytes gets a block of size 0. *)
Example kmalloc_rounding_wraps : snd (kmalloc heap_init (2 ^ 64 - 1)) = Some (KERNEL_HEAP_BASE + HDR).
Proof. reflexivity. Qed.
