(* ===== verification/Paging.v ===== *)
(** * Page tables and the virtual memory manager (src/kernel/mm/paging.c, vmm.c)

    Physical memory holds 64-bit words: [word m a] is the word at physical
    address [a], and entry [i] of the table at [t] is the word at [t + 8 * i].
    A pointer obtained with [phys_to_ptr] designates the physical word it was
    made from: that the direct map (or, at boot, the identity map) is in place
    is not part of this model, [phys_to_ptr] itself is ([phys_to_ptr]).  The
    TLB is not modelled.  A failed [ASSERT] is [None]. *)

From stdpp Require Import functions.
From S2P Require Import Prelude Pmm Heap.

Definition PTE_PRESENT : Z := 2 ^ 0.
Definition PTE_WRITABLE : Z := 2 ^ 1.
Definition PTE_USER : Z := 2 ^ 2.
Definition PTE_PWT : Z := 2 ^ 3.
Definition PTE_PCD : Z := 2 ^ 4.
Definition PTE_HUGE : Z := 2 ^ 7.
Definition PTE_GLOBAL : Z := 2 ^ 8.
Definition PTE_NX : Z := 2 ^ 63.
Definition PTE_ADDR_MASK : Z := 0x000FFFFFFFFFF000.

Definition PML4_INDEX (va : Z) : Z := Z.land (Z.shiftr va 39) 0x1FF.
Definition PDPT_INDEX (va : Z) : Z := Z.land (Z.shiftr va 30) 0x1FF.
Definition PD_INDEX (va : Z) : Z := Z.land (Z.shiftr va 21) 0x1FF.
Definition PT_INDEX (va : Z) : Z := Z.land (Z.shiftr va 12) 0x1FF.

Definition KERNEL_VBASE : Z := 0xFFFFFFFF80000000.
Definition PHYS_MAP_BASE : Z := 0xFFFFFFFF92000000.
Definition FRAMEBUF_VBASE : Z := 0xFFFFFFFFC0000000.

Definition PHYS_TO_VIRT (phys : Z) : Z := u64 (phys + PHYS_MAP_BASE).

Definition phys_to_ptr (phys_map_ready : bool) (phys : Z) : Z :=
  if phys_map_ready then PHYS_TO_VIRT phys else phys.

(** ** Memory *)

Record vm := Vm { words_at : Z -> Z; frames : pmm_state }.

Definition entry (v : vm) (table index : Z) : Z := words_at v (table + 8 * index).
Definition set_entry (v : vm) (table index x : Z) : vm :=
  Vm (<[table + 8 * index := x]> (words_at v)) (frames v).

(** [memset(ptr, 0, PAGE_SIZE)] *)
Definition zero_page (m : Z -> Z) (phys : Z) : Z -> Z :=
  fun a => if (phys <=? a) && (a <? phys + PAGE_SIZE) then 0 else m a.

Definition alloc_table_page (v : vm) : option (vm * Z) :=
  let '(pm, phys) := pmm_alloc_page (frames v) in
  if phys =? 0 then None
  else Some (Vm (zero_page (words_at v) phys) pm, phys).

Definition has (x flag : Z) : bool := negb (Z.land x flag =? 0).

(** The address of the next-level table. *)
Definition get_or_create_table (v : vm) (table index flags : Z) : option (vm * Z) :=
  match (if negb (has (entry v table index) PTE_PRESENT) then
           match alloc_table_page v with
           | None => None
           | Some (v, new_table) =>
               Some (set_entry v table index
                       (Z.lor (Z.lor (Z.lor new_table PTE_PRESENT) PTE_WRITABLE) flags))
           end
         else Some v) with
  | None => None
  | Some v => Some (v, Z.land (entry v table index) PTE_ADDR_MASK)
  end.

Definition paging_create_address_space (v : vm) : option (vm * Z) := alloc_table_page v.

Definition paging_map_page (v : vm) (pml4 virt phys flags : Z) : option vm :=
  let extra_flags := if has flags PTE_USER then PTE_USER else 0 in
  match get_or_create_table v pml4 (PML4_INDEX virt) extra_flags with
  | None => None
  | Some (v, pdpt) =>
      match get_or_create_table v pdpt (PDPT_INDEX virt) extra_flags with
      | None => None
      | Some (v, pd) =>
          match get_or_create_table v pd (PD_INDEX virt) extra_flags with
          | None => None
          | Some (v, pt) =>
              Some (set_entry v pt (PT_INDEX virt)
                      (Z.lor (Z.lor (Z.land phys PTE_ADDR_MASK) flags) PTE_PRESENT))
          end
      end
  end.

Definition paging_unmap_page (v : vm) (pml4 virt : Z) : vm :=
  let e := entry v pml4 (PML4_INDEX virt) in
  if negb (has e PTE_PRESENT) then v
  else
    let pdpt := Z.land e PTE_ADDR_MASK in
    let e := entry v pdpt (PDPT_INDEX virt) in
    if negb (has e PTE_PRESENT) then v
    else
      let pd := Z.land e PTE_ADDR_MASK in
      let e := entry v pd (PD_INDEX virt) in
      if negb (has e PTE_PRESENT) then v
      else set_entry v (Z.land e PTE_ADDR_MASK) (PT_INDEX virt) 0.

Definition paging_virt_to_phys (v : vm) (pml4 virt : Z) : Z :=
  let e := entry v pml4 (PML4_INDEX virt) in
  if negb (has e PTE_PRESENT) then 0
  else
    let pdpt := Z.land e PTE_ADDR_MASK in
    let e := entry v pdpt (PDPT_INDEX virt) in
    if negb (has e PTE_PRESENT) then 0
    else
      let pd := Z.land e PTE_ADDR_MASK in
      let e := entry v pd (PD_INDEX virt) in
      if has e PTE_HUGE then Z.lor (Z.land e PTE_ADDR_MASK) (Z.land virt 0x1FFFFF)
      else if negb (has e PTE_PRESENT) then 0
      else
        let e := entry v (Z.land e PTE_ADDR_MASK) (PT_INDEX virt) in
        if negb (has e PTE_PRESENT) then 0
        else Z.lor (Z.land e PTE_ADDR_MASK) (Z.land virt 0xFFF).

(** [for (i = 0; i < num_pages; i++)] *)
Fixpoint map_range_loop (n : nat) (v : vm) (pml4 virt phys flags : Z) : option vm :=
  match n with
  | O => Some v
  | S n =>
      match paging_map_page v pml4 virt phys flags with
      | Some v => map_range_loop n v pml4 (u64 (virt + PAGE_SIZE)) (u64 (phys + PAGE_SIZE)) flags
      | None => None
      end
  end.

Definition paging_map_range (v : vm) (pml4 virt_start phys_start num_pages flags : Z) : option vm :=
  map_range_loop (Z.to_nat num_pages) v pml4 virt_start phys_start flags.

(** [heap_expand] of heap.c, in the kernel's address space; [None]: an assertion
    of the mapping fails. *)
Definition heap_expand (v : vm) (kernel_pml4 : Z) (st : heap_state) (bytes : Z) : option (vm * heap_state * Z) :=
  if bytes =? 0 then Some (v, st, 0)
  else if KERNEL_HEAP_SIZE <? u64 (heap_total_size st + bytes) then Some (v, st, -1)
  else
    let num_pages := ALIGN_UP bytes PAGE_SIZE / PAGE_SIZE in
    let '(pm, phys) := pmm_alloc_pages (frames v) (Z.to_nat num_pages) in
    let v := Vm (words_at v) pm in
    if phys =? 0 then Some (v, st, -1)
    else
      match paging_map_range v kernel_pml4 (KERNEL_HEAP_BASE + heap_total_size st) phys num_pages
              (Z.lor (Z.lor PTE_PRESENT PTE_WRITABLE) PTE_NX) with
      | None => None
      | Some v => Some (v, append_pages st num_pages, 0)
      end.

(** On success at least the requested bytes are added; otherwise the heap is
    as it was. *)
Lemma heap_expand_wf v pml4 st bytes :
  wf_heap st -> 0 <= bytes < 2 ^ 63 ->
  match heap_expand v pml4 st bytes with
  | None => True
  | Some (_, st', r) => wf_heap st' /\ allocs (blocks st') = allocs (blocks st) /\
      (r = 0 -> heap_total_size st + bytes <= heap_total_size st') /\ (r <> 0 -> st' = st)
  end.
Proof.
  intros Hw Hb. pose proof Hw as [Ht Hc Htot Hpg Hne Hu]. unfold heap_expand.
  destruct (Z.eqb_spec bytes 0); [split_and!; [done|done|lia|done]|].
  rewrite wrap_small by (unfold is_word, KERNEL_HEAP_SIZE in *; lia).
  destruct (Z.ltb_spec KERNEL_HEAP_SIZE (heap_total_size st + bytes)); [split_and!; done|].
  change PAGE_SIZE with (2 ^ 12) in *. rewrite ALIGN_UP_pow by lia. rewrite Z.div_mul by lia.
  destruct (pmm_alloc_pages _ _) as [pm' phys]. destruct (phys =? 0); [split_and!; done|].
  destruct (paging_map_range _ _ _ _ _ _); [|done]. set (np := (bytes + 2 ^ 12 - 1) / 2 ^ 12).
  assert (bytes <= np * 2 ^ 12 < bytes + 2 ^ 12) as Hnp by (unfold np; lia).
  destruct (append_pages_wf st np Hw) as (H1 & H2 & H3); [lia|change PAGE_SIZE with (2 ^ 12); unfold KERNEL_HEAP_SIZE in *; lia|].
  rewrite H3. change PAGE_SIZE with (2 ^ 12). split_and!; [done|done|lia|done].
Qed.

(** Frees the page of an entry; [None]: an assertion of [pmm_free_page]. *)
Definition free_entry (pm : pmm_state) (e : Z) : option pmm_state :=
  pmm_free_page pm (Z.land e PTE_ADDR_MASK).

(** The loops over the [n] entries of a table from [i], [body] being run for
    the present ones. *)
Fixpoint for_entries (n : nat) (v : vm) (table i : Z) (skip : Z -> bool)
    (body : pmm_state -> Z -> option pmm_state) (pm : pmm_state) : option pmm_state :=
  match n with
  | O => Some pm
  | S n =>
      let e := entry v table i in
      if negb (has e PTE_PRESENT) || skip e then for_entries n v table (i + 1) skip body pm
      else match body pm e with
           | Some pm => for_entries n v table (i + 1) skip body pm
           | None => None
           end
  end.

Definition paging_destroy_address_space (v : vm) (pml4 : Z) : option vm :=
  let never := fun _ : Z => false in
  let free_pdpt pm e :=
    match for_entries 512 v (Z.land e PTE_ADDR_MASK) 0 (fun e => has e PTE_HUGE) free_entry pm with
    | Some pm => free_entry pm e
    | None => None
    end in
  let free_pml4 pm e :=
    match for_entries 512 v (Z.land e PTE_ADDR_MASK) 0 never free_pdpt pm with
    | Some pm => free_entry pm e
    | None => None
    end in
  match for_entries 256 v pml4 0 never free_pml4 (frames v) with
  | None => None
  | Some pm =>
      match pmm_free_page pm pml4 with
      | Some pm => Some (Vm (words_at v) pm)
      | None => None
      end
  end.

(** ** The virtual memory manager *)

Record boot_info := BootInfo {
  magic : Z;
  fb_base : Z; fb_width : Z; fb_height : Z; fb_pitch : Z; fb_bpp : Z; fb_pixel_format : Z; _pad0 : Z;
  mmap_base : Z; mmap_size : Z; mmap_desc_size : Z; mmap_desc_version : Z; mmap_entry_count : Z;
  kernel_phys_base : Z; kernel_size : Z;
  runtime_services : Z; rsdp_address : Z
}.

(** The heap's first pages, one frame each. *)
Fixpoint map_heap_loop (n : nat) (v : vm) (pml4 virt : Z) : option vm :=
  match n with
  | O => Some v
  | S n =>
      let '(pm, page) := pmm_alloc_page (frames v) in
      if page =? 0 then None
      else
        match paging_map_page (Vm (words_at v) pm) pml4 virt page
                (Z.lor (Z.lor PTE_PRESENT PTE_WRITABLE) PTE_NX) with
        | Some v => map_heap_loop n v pml4 (u64 (virt + PAGE_SIZE))
        | None => None
        end
  end.

Definition rw : Z := Z.lor PTE_PRESENT PTE_WRITABLE.
Definition rw_global : Z := Z.lor rw PTE_GLOBAL.
Definition rw_uncached : Z := Z.lor (Z.lor rw PTE_PWT) PTE_PCD.

(** The kernel's address space: its top-level table and the state. *)
Definition vmm_init (v : vm) (b : boot_info) : option (vm * Z) :=
  match paging_create_address_space v with
  | None => None
  | Some (v, pml4) =>
      let kernel_pages := ALIGN_UP (kernel_size b) PAGE_SIZE / PAGE_SIZE in
      let kernel_pages := if kernel_pages <? 512 then 512 else kernel_pages in
      match paging_map_range v pml4 KERNEL_VBASE (kernel_phys_base b) kernel_pages rw_global with
      | None => None
      | Some v =>
          match paging_map_range v pml4 0 0 1024 rw with
          | None => None
          | Some v =>
              let phys_map_pages := 1024 * 1024 * 1024 / PAGE_SIZE in
              match paging_map_range v pml4 PHYS_MAP_BASE 0 phys_map_pages rw_global with
              | None => None
              | Some v =>
                  let fb :=
                    if fb_base b =? 0 then Some v
                    else
                      let fb_size := u64 (fb_pitch b * fb_height b) in
                      let fb_pages := ALIGN_UP fb_size PAGE_SIZE / PAGE_SIZE in
                      paging_map_range v pml4 FRAMEBUF_VBASE (fb_base b) fb_pages rw_uncached in
                  match fb with
                  | None => None
                  | Some v =>
                      match map_heap_loop 256 v pml4 KERNEL_HEAP_BASE with
                      | None => None
                      | Some v => Some (v, pml4)
                      end
                  end
              end
          end
      end
  end.

(** [for (i = 256; i < 512; i++) user_pml4[i] = kernel_pml4[i]] *)
Definition vmm_create_user_space (v : vm) (kernel_pml4 : Z) : option (vm * Z) :=
  match paging_create_address_space v with
  | None => None
  | Some (v, pml4) =>
      if pml4 =? 0 then Some (v, 0)
      else Some (foldl (fun v i => set_entry v pml4 (Z.of_nat i) (entry v kernel_pml4 (Z.of_nat i))) v
                   (seq 256 256), pml4)
  end.

Definition vmm_destroy_user_space (v : vm) (pml4 : Z) : option vm := paging_destroy_address_space v pml4.

(** ** Translation

    The specification sees a table of level [n] (0: page table, 3: PML4) and
    walks down one level at a time. *)

Definition idx (n : nat) (va : Z) : Z := Z.land (Z.shiftr va (12 + 9 * Z.of_nat n)) 0x1FF.
Definition addr (e : Z) : Z := Z.land e PTE_ADDR_MASK.
Definition present (e : Z) : bool := has e PTE_PRESENT.

(** The entry that maps [va] in the table [t] of level [n]. *)
Fixpoint trans (m : Z -> Z) (n : nat) (t va : Z) : option Z :=
  let e := m (t + 8 * idx n va) in
  if present e then
    match n with
    | O => Some e
    | S n => trans m n (addr e) va
    end
  else None.

(** Two addresses take the same entries from level [n] down. *)
Fixpoint same_path (n : nat) (va vb : Z) : bool :=
  (idx n va =? idx n vb) && match n with O => true | S n => same_path n va vb end.

(** The table pages reachable from [t]. *)
Fixpoint owns (m : Z -> Z) (n : nat) (t p : Z) : Prop :=
  p = t \/
  match n with
  | O => False
  | S n => exists i, 0 <= i < 512 /\ present (m (t + 8 * i)) = true /\ owns m n (addr (m (t + 8 * i))) p
  end.

Definition page_ok (p : Z) : Prop := 0 <= p < 2 ^ 52 /\ p mod 4096 = 0.
Definition in_page (p a : Z) : Prop := p <= a < p + 4096.

(** A tree of tables: entries are empty or point to tables of the next level,
    and no table is reachable in two ways. *)
Fixpoint wf_table (m : Z -> Z) (n : nat) (t : Z) : Prop :=
  page_ok t /\
  match n with
  | O => True
  | S n =>
      (forall i, 0 <= i < 512 ->
         m (t + 8 * i) = 0 \/
         present (m (t + 8 * i)) = true /\ has (m (t + 8 * i)) PTE_HUGE = false /\
         wf_table m n (addr (m (t + 8 * i))) /\ ~ owns m n (addr (m (t + 8 * i))) t) /\
      (forall i j p, 0 <= i < 512 -> 0 <= j < 512 -> i <> j ->
         present (m (t + 8 * i)) = true -> present (m (t + 8 * j)) = true ->
         owns m n (addr (m (t + 8 * i))) p -> ~ owns m n (addr (m (t + 8 * j))) p)
  end.

Definition used_frame (pm : pmm_state) (p : Z) : Prop := bitmap_test (bitmap pm) (Z.to_nat (p / 4096)) = true.

(** ** Bits of entries *)

Lemma idx_range n va : 0 <= idx n va < 512.
Proof.
  unfold idx. change 0x1FF with (Z.ones 9). rewrite Z.land_ones by lia.
  apply Z.mod_pos_bound. lia.
Qed.

Lemma has_bit x k : 0 <= k -> has x (2 ^ k) = Z.testbit x k.
Proof.
  intros Hk. unfold has. destruct (Z.testbit x k) eqn:E.
  - apply negb_true_iff, Z.eqb_neq. intros H. apply (f_equal (fun z => Z.testbit z k)) in H.
    rewrite Z.land_spec, Z.pow2_bits_true, E, Z.bits_0 in H by done. done.
  - apply negb_false_iff, Z.eqb_eq. apply Z.bits_inj'. intros i Hi.
    rewrite Z.land_spec, Z.bits_0. destruct (decide (i = k)) as [->|].
    + by rewrite E.
    + rewrite Z.pow2_bits_false by done. apply andb_false_r.
Qed.

Lemma present_bit e : present e = Z.testbit e 0.
Proof. apply (has_bit e 0). lia. Qed.

Lemma present_0 : present 0 = false.
Proof. done. Qed.

Lemma page_mask p : page_ok p -> Z.land p PTE_ADDR_MASK = p.
Proof.
  intros [Hr Hm]. change PTE_ADDR_MASK with (Z.shiftl (Z.ones 40) 12).
  replace p with (Z.shiftl (p / 2 ^ 12) 12) at 1 2.
  2: { rewrite Z.shiftl_mul_pow2 by lia. change (2 ^ 12) with 4096. lia. }
  rewrite <- Z.shiftl_land, Z.land_ones by lia. f_equal. apply Z.mod_small.
  change (2 ^ 12) with 4096. change (2 ^ 40) with 1099511627776. change (2 ^ 52) with 4503599627370496 in Hr. lia.
Qed.

Lemma testbit_page p i : page_ok p -> 0 <= i < 12 -> Z.testbit p i = false.
Proof.
  intros [Hr Hm] Hi. replace p with (p / 2 ^ 12 * 2 ^ 12) by (change (2 ^ 12) with 4096; lia).
  by rewrite Z.mul_pow2_bits_low by lia.
Qed.

(** The entry written for a new table. *)
Lemma new_entry p f :
  page_ok p -> f = 0 \/ f = PTE_USER ->
  let e := Z.lor (Z.lor (Z.lor p PTE_PRESENT) PTE_WRITABLE) f in
  addr e = p /\ present e = true /\ has e PTE_HUGE = false.
Proof.
  intros Hp Hf. cbn zeta. split; [|split].
  - unfold addr. rewrite !Z.land_lor_distr_l, page_mask by done.
    by destruct Hf as [->| ->]; rewrite !Z.lor_0_r.
  - rewrite present_bit, !Z.lor_spec. change (Z.testbit PTE_PRESENT 0) with true.
    by rewrite orb_true_r.
  - unfold PTE_HUGE. rewrite has_bit, !Z.lor_spec, testbit_page by (done || lia).
    by destruct Hf as [->| ->].
Qed.

Lemma pages_apart p q a : page_ok p -> page_ok q -> in_page p a -> in_page q a -> p = q.
Proof. unfold page_ok, in_page. lia. Qed.

Lemma entry_in_page t i : page_ok t -> 0 <= i < 512 -> in_page t (t + 8 * i).
Proof. unfold in_page. lia. Qed.

(** ** Frames *)

Definition agree_on (m m' : Z -> Z) (P : Z -> Prop) : Prop :=
  forall p a, P p -> in_page p a -> m' a = m a.

Lemma owns_root m n t : owns m n t t.
Proof. destruct n; by left. Qed.

Lemma wf_page m n t : wf_table m n t -> page_ok t.
Proof. destruct n; by intros [? _]. Qed.

(** A table tree is determined by its own pages. *)
Lemma table_frame m m' n t :
  wf_table m n t -> agree_on m m' (owns m n t) ->
  wf_table m' n t /\ (forall p, owns m' n t p <-> owns m n t p) /\ (forall va, trans m' n t va = trans m n t va).
Proof.
  revert t. induction n as [|n IH]; intros t Hw Ha.
  - pose proof (wf_page _ _ _ Hw) as Hp. split; [done|]. split; [done|]. intros va. cbn [trans].
    rewrite (Ha t); [done|apply owns_root|]. apply entry_in_page; [done|apply idx_range].
  - destruct Hw as (Hp & He & Hd).
    assert (forall i, 0 <= i < 512 -> m' (t + 8 * i) = m (t + 8 * i)) as Hrow.
    { intros i Hi. apply (Ha t); [apply owns_root|by apply entry_in_page]. }
    assert (forall i, 0 <= i < 512 -> present (m (t + 8 * i)) = true ->
      wf_table m' n (addr (m (t + 8 * i))) /\
      (forall p, owns m' n (addr (m (t + 8 * i))) p <-> owns m n (addr (m (t + 8 * i))) p) /\
      (forall va, trans m' n (addr (m (t + 8 * i))) va = trans m n (addr (m (t + 8 * i))) va)) as Hch.
    { intros i Hi Hpr. destruct (He i Hi) as [E|(_ & _ & Hwc & _)]; [by rewrite E in Hpr|].
      apply IH; [done|]. intros p a Ho. apply Ha. right. by exists i. }
    split; [split; [done|split]|split].
    + intros i Hi. rewrite Hrow by done. destruct (He i Hi) as [E|(Hpr & Hh & _ & Hno)]; [by left|].
      right. destruct (Hch i Hi Hpr) as (H1 & H2 & _). rewrite H2. done.
    + intros i j p Hi Hj Hij. rewrite !Hrow by done. intros Hpi Hpj.
      destruct (Hch i Hi Hpi) as (_ & Ho1 & _). destruct (Hch j Hj Hpj) as (_ & Ho2 & _).
      rewrite Ho1, Ho2. by apply Hd.
    + intros p. cbn [owns]. split; (intros [->|(i & Hi & Hpr & Ho)]; [by left|right; exists i]).
      * rewrite Hrow in Hpr, Ho by done. split; [done|]. split; [done|]. by apply (Hch i Hi Hpr).
      * rewrite Hrow by done. split; [done|]. split; [done|]. by apply (Hch i Hi Hpr).
    + intros va. cbn [trans]. rewrite Hrow by apply idx_range.
      destruct (present (m (t + 8 * idx (S n) va))) eqn:Hpr; [|done].
      apply (Hch _ (idx_range _ _) Hpr).
Qed.

(** An empty table. *)
Lemma zero_table m n t :
  page_ok t -> (forall a, in_page t a -> m a = 0) ->
  wf_table m n t /\ (forall p, owns m n t p <-> p = t) /\ (forall va, trans m n t va = None).
Proof.
  intros Hp Hz. assert (forall i, 0 <= i < 512 -> m (t + 8 * i) = 0) as Hrow
    by (intros i Hi; by apply Hz, entry_in_page).
  destruct n as [|n]; (split; [split; [done|]|split]).
  - done.
  - intros p. cbn. tauto.
  - intros va. cbn [trans]. by rewrite Hrow by apply idx_range.
  - split; [intros i Hi; left; auto|]. intros i j p Hi Hj _. by rewrite Hrow.
  - intros p. cbn [owns]. split; [|by left]. intros [->|(i & Hi & Hpr & _)]; [done|]. by rewrite Hrow in Hpr.
  - intros va. cbn [trans]. by rewrite Hrow by apply idx_range.
Qed.

(** ** One step of the walk *)

(** What an update of a tree of tables leaves in place. *)
Record tree_step (v v' : vm) (n : nat) (t : Z) : Prop := {
  ts_wf : wf_table (words_at v') n t;
  ts_pmm : wf_pmm (frames v');
  ts_used : forall p, used_frame (frames v) p -> used_frame (frames v') p;
  ts_owns : forall p, owns (words_at v') n t p ->
    owns (words_at v) n t p \/ (~ used_frame (frames v) p /\ used_frame (frames v') p);
  ts_keeps : forall p, owns (words_at v) n t p -> owns (words_at v') n t p;
  ts_words : forall a, words_at v' a <> words_at v a -> exists p, owns (words_at v') n t p /\ in_page p a
}.

Definition owned_used (v : vm) (n : nat) (t : Z) : Prop :=
  forall p, owns (words_at v) n t p -> used_frame (frames v) p.

Lemma tree_step_owned v v' n t : tree_step v v' n t -> owned_used v n t -> owned_used v' n t.
Proof. intros Hs Ho p [H|[_ H]]%(ts_owns _ _ _ _ Hs); [|done]. apply Hs. by apply Ho. Qed.

Lemma alloc_frame v v' t :
  wf_pmm (frames v) -> alloc_table_page v = Some (v', t) ->
  page_ok t /\ wf_pmm (frames v') /\ ~ used_frame (frames v) t /\ used_frame (frames v') t /\
  (forall p, used_frame (frames v) p -> used_frame (frames v') p) /\
  words_at v' = zero_page (words_at v) t.
Proof.
  intros Hw. unfold alloc_table_page. pose proof (alloc_page_spec (frames v) Hw) as Hs.
  pose proof (highest_page_bound _ Hw) as Hh.
  destruct (pmm_alloc_page (frames v)) as [pm phys]. destruct (Z.eqb_spec phys 0) as [|Hne]; [done|].
  intros [= <- <-]. destruct Hs as [Hwf [[E _]|(p & -> & Hr & Hf & _ & Hset & _)]]; [done|].
  cbn [frames words_at]. unfold used_frame.
  assert (Z.to_nat (Z.of_nat p * PAGE_SIZE / 4096) = p) as Ep
    by (unfold PAGE_SIZE; rewrite Z.div_mul by lia; apply Nat2Z.id).
  rewrite Ep, Hf, Hset, bool_decide_eq_true_2 by done. split; [|split; [done|split; [done|split; [done|split; [|done]]]]].
  - assert (Z.of_nat p < 1048576) as Hp.
    { clear - Hh Hr. lia. }
    clear - Hp. unfold page_ok, PAGE_SIZE. change (2 ^ 52) with 4503599627370496.
    split; [lia|]. apply Z.mod_mul. lia.
  - intros q Hq. by rewrite Hset, Hq, orb_true_r.
Qed.

Lemma owns_page m n t p : wf_table m n t -> owns m n t p -> page_ok p.
Proof.
  revert t. induction n as [|n IH]; intros t Hw Ho.
  - destruct Ho as [->|[]]. by apply wf_page in Hw.
  - destruct Ho as [->|(i & Hi & Hpr & Ho)]; [by apply wf_page in Hw|]. destruct Hw as (_ & He & _).
    destruct (He i Hi) as [E|(_ & _ & Hwc & _)]; [by rewrite E in Hpr|]. by apply (IH _ Hwc).
Qed.

Lemma tree_step_refl v n t : wf_table (words_at v) n t -> wf_pmm (frames v) -> tree_step v v n t.
Proof. intros Hw Hp. split; [done|done|done|by left|done|done]. Qed.

(** A step inside a subtree leaves the other used pages alone. *)
Lemma step_untouched v v' n c p a :
  tree_step v v' n c -> page_ok p -> used_frame (frames v) p -> ~ owns (words_at v) n c p ->
  in_page p a -> words_at v' a = words_at v a.
Proof.
  intros Hs Hp Hu Hno Ha. destruct (decide (words_at v' a = words_at v a)) as [|Hne]; [done|].
  apply (ts_words _ _ _ _ Hs) in Hne as (q & Hq & Hqa). exfalso.
  pose proof (owns_page _ _ _ _ (ts_wf _ _ _ _ Hs) Hq) as Hqp.
  assert (q = p) as -> by (by eapply pages_apart). apply (ts_owns _ _ _ _ Hs) in Hq. tauto.
Qed.

Lemma child_step v v' n t i :
  wf_table (words_at v) (S n) t -> owned_used v (S n) t -> 0 <= i < 512 ->
  present (entry v t i) = true -> tree_step v v' n (addr (entry v t i)) ->
  tree_step v v' (S n) t /\
  forall va, trans (words_at v') (S n) t va =
    if idx (S n) va =? i then trans (words_at v') n (addr (entry v t i)) va
    else trans (words_at v) (S n) t va.
Proof.
  unfold entry. intros (Hp & He & Hd) Hu Hi Hpr Hs. set (c := addr (words_at v (t + 8 * i))) in *.
  assert (~ owns (words_at v) n c t) as Hct.
  { destruct (He i Hi) as [E|(_ & _ & _ & H)]; [by rewrite E in Hpr|done]. }
  assert (forall j, 0 <= j < 512 -> words_at v' (t + 8 * j) = words_at v (t + 8 * j)) as Hrow.
  { intros j Hj. apply (step_untouched v v' n c t); try done; [|by apply entry_in_page].
    apply Hu, owns_root. }
  assert (forall j, 0 <= j < 512 -> j <> i -> present (words_at v (t + 8 * j)) = true ->
    wf_table (words_at v') n (addr (words_at v (t + 8 * j))) /\
    (forall p, owns (words_at v') n (addr (words_at v (t + 8 * j))) p <->
               owns (words_at v) n (addr (words_at v (t + 8 * j))) p) /\
    (forall va, trans (words_at v') n (addr (words_at v (t + 8 * j))) va =
                trans (words_at v) n (addr (words_at v (t + 8 * j))) va)) as Hch.
  { intros j Hj Hij Hpj. destruct (He j Hj) as [E|(_ & _ & Hwj & _)]; [by rewrite E in Hpj|].
    apply table_frame; [done|]. intros p a Ho. apply (step_untouched v v' n c p a Hs).
    - by eapply owns_page.
    - apply Hu. right. by exists j.
    - by eapply (Hd j i). }
  assert (forall j p, 0 <= j < 512 -> j <> i -> present (words_at v (t + 8 * j)) = true ->
    owns (words_at v') n c p -> ~ owns (words_at v) n (addr (words_at v (t + 8 * j))) p) as Hdis.
  { intros j p Hj Hij Hpj [Ho|[Hn _]]%(ts_owns _ _ _ _ Hs) Ho'; [by eapply (Hd i j)|].
    apply Hn, Hu. right. by exists j. }
  split; [split|].
  - split; [done|]. split.
    + intros j Hj. rewrite Hrow by done. destruct (decide (j = i)) as [->|Hij].
      * right. destruct (He i Hi) as [E|(? & Hh & _ & _)]; [by rewrite E in Hpr|]. fold c.
        split; [done|]. split; [done|]. split; [apply Hs|].
        intros [Ho|[Hn _]]%(ts_owns _ _ _ _ Hs); [done|]. apply Hn, Hu, owns_root.
      * destruct (He j Hj) as [E|(Hpj & Hh & _ & Hno)]; [by left|right].
        destruct (Hch j Hj Hij Hpj) as (H1 & H2 & _). rewrite H2. done.
    + intros j k p Hj Hk Hjk. rewrite !Hrow by done. intros Hpj Hpk.
      destruct (decide (j = i)) as [->|Hji]; [|destruct (decide (k = i)) as [->|Hki]].
      * destruct (Hch k Hk ltac:(done) Hpk) as (_ & -> & _). by apply Hdis.
      * destruct (Hch j Hj Hji Hpj) as (_ & -> & _). intros Ho Ho'. by eapply (Hdis j).
      * destruct (Hch j Hj Hji Hpj) as (_ & -> & _). destruct (Hch k Hk Hki Hpk) as (_ & -> & _). by apply Hd.
  - apply Hs.
  - apply Hs.
  - intros p. cbn [owns]. intros [->|(j & Hj & Hpj & Ho)]; [left; by left|].
    rewrite Hrow in Hpj, Ho by done. destruct (decide (j = i)) as [->|Hij].
    + apply (ts_owns _ _ _ _ Hs) in Ho as [Ho|?]; [|by right]. left. right. by exists i.
    + left. right. exists j. split; [done|]. split; [done|]. by apply (Hch j Hj Hij Hpj).
  - intros p. cbn [owns]. intros [->|(j & Hj & Hpj & Ho)]; [by left|right]. exists j.
    rewrite Hrow by done. split; [done|]. split; [done|]. destruct (decide (j = i)) as [->|Hij].
    + by apply (ts_keeps _ _ _ _ Hs).
    + by apply (Hch j Hj Hij Hpj).
  - intros a (p & Ho & Hpa)%(ts_words _ _ _ _ Hs). exists p. split; [|done]. right. exists i.
    by rewrite Hrow.
  - intros va. cbn [trans]. rewrite Hrow by apply idx_range.
    destruct (Z.eqb_spec (idx (S n) va) i) as [->|Hne]; [by rewrite Hpr|].
    destruct (present (words_at v (t + 8 * idx (S n) va))) eqn:Hpv; [|done].
    by apply (Hch _ (idx_range _ _) Hne Hpv).
Qed.

(** Filling an empty slot with an empty table. *)
Lemma fill_step v v1 n t i e c :
  wf_table (words_at v) (S n) t -> owned_used v (S n) t -> wf_pmm (frames v) -> 0 <= i < 512 ->
  entry v t i = 0 -> alloc_table_page v = Some (v1, c) ->
  addr e = c -> present e = true -> has e PTE_HUGE = false ->
  let v' := set_entry v1 t i e in
  tree_step v v' (S n) t /\ entry v' t i = e /\
  forall va, trans (words_at v') (S n) t va = trans (words_at v) (S n) t va.
Proof.
  intros (Hp & He & Hd) Hu Hpm Hi E0 Ha Eadr Hpr Hh. cbn zeta.
  destruct (alloc_frame v v1 c Hpm Ha) as (Hc & Hpm1 & Hnc & Huc & Hmono & Hw1).
  assert (t <> c) as Htc by (intros ->; apply Hnc, Hu, owns_root).
  set (m' := words_at (set_entry v1 t i e)).
  assert (m' = <[t + 8 * i := e]> (zero_page (words_at v) c)) as Em by (unfold m'; cbn; by rewrite Hw1).
  assert (forall a, a <> t + 8 * i -> ~ in_page c a -> m' a = words_at v a) as Hold.
  { intros a Hne Hna. rewrite Em, fn_lookup_insert_ne by done. unfold zero_page, in_page, PAGE_SIZE in *.
    destruct (Z.leb_spec c a); [|done]. destruct (Z.ltb_spec a (c + 4096)); [lia|done]. }
  assert (forall j, 0 <= j < 512 -> ~ in_page c (t + 8 * j)) as Hnin.
  { intros j Hj Hin. apply Htc. eapply pages_apart; [done|done| |done]. by apply entry_in_page. }
  assert (m' (t + 8 * i) = e) as Hrow_i by (by rewrite Em, fn_lookup_insert).
  assert (forall j, 0 <= j < 512 -> j <> i -> m' (t + 8 * j) = words_at v (t + 8 * j)) as Hrow
    by (intros j Hj Hij; apply Hold; [lia|by apply Hnin]).
  assert (forall a, in_page c a -> m' a = 0) as Hz.
  { intros a Hca. rewrite Em, fn_lookup_insert_ne by (intros <-; by apply (Hnin i)).
    unfold zero_page, in_page, PAGE_SIZE in *.
    rewrite (proj2 (Z.leb_le _ _)), (proj2 (Z.ltb_lt _ _)) by lia. done. }
  destruct (zero_table m' n c Hc Hz) as (Hwc & Hoc & Htr).
  assert (forall j, 0 <= j < 512 -> present (words_at v (t + 8 * j)) = true ->
    let c' := addr (words_at v (t + 8 * j)) in j <> i /\ ~ owns (words_at v) n c' c /\
    wf_table m' n c' /\ (forall p, owns m' n c' p <-> owns (words_at v) n c' p) /\
    (forall va, trans m' n c' va = trans (words_at v) n c' va)) as Hch.
  { intros j Hj Hpj. cbn zeta. assert (j <> i) as Hji by (intros ->; unfold entry in E0; by rewrite E0 in Hpj).
    destruct (He j Hj) as [E|(_ & _ & Hwj & Hnt)]; [by rewrite E in Hpj|].
    assert (~ owns (words_at v) n (addr (words_at v (t + 8 * j))) c) as Hno.
    { intros Ho. apply Hnc, Hu. right. by exists j. }
    split; [done|]. split; [done|]. apply table_frame; [done|]. intros p a Ho Hpa. apply Hold.
    - intros ->. apply Hnt. assert (p = t) as ->; [|done].
      eapply pages_apart; [by eapply owns_page|exact Hp|exact Hpa|by apply entry_in_page].
    - intros Hca. apply Hno. assert (p = c) as <-; [|done]. eapply pages_apart; [by eapply owns_page|done..]. }
  assert (forall p, owns m' (S n) t p <-> owns (words_at v) (S n) t p \/ p = c) as Hown.
  { intros p. cbn [owns]. split.
    - intros [->|(j & Hj & Hpj & Ho)]; [left; by left|]. destruct (decide (j = i)) as [->|Hji].
      + rewrite Hrow_i, Eadr in Ho. right. by apply Hoc.
      + rewrite Hrow in Hpj, Ho by done. left. right. exists j. split; [done|]. split; [done|].
        by apply (Hch j Hj Hpj).
    - intros [[->|(j & Hj & Hpj & Ho)]| ->]; [by left| |].
      + right. exists j. destruct (Hch j Hj Hpj) as (Hji & _ & _ & Ho' & _). rewrite Hrow by done.
        split; [done|]. split; [done|]. by apply Ho'.
      + right. exists i. rewrite Hrow_i, Eadr. split; [done|]. split; [done|]. by apply Hoc. }
  split; [split|split; [done|]]; fold m'; cbn [frames set_entry].
  - split; [done|]. split.
    + intros j Hj. destruct (decide (j = i)) as [->|Hji].
      * right. rewrite Hrow_i, Eadr. split; [done|]. split; [done|]. split; [done|]. by rewrite Hoc.
      * rewrite Hrow by done. destruct (He j Hj) as [E|(Hpj & Hhj & _ & Hnt)]; [by left|right].
        destruct (Hch j Hj Hpj) as (_ & _ & ? & -> & _). done.
    + intros j k p Hj Hk Hjk. destruct (decide (j = i)) as [->|Hji]; [|destruct (decide (k = i)) as [->|Hki]].
      * rewrite Hrow_i, Eadr, Hrow, Hoc by done. intros _ Hpk ->.
        destruct (Hch k Hk Hpk) as (_ & Hno & _ & -> & _). done.
      * rewrite Hrow_i, Eadr, Hrow, Hoc by done. intros Hpj _ Ho ->.
        destruct (Hch j Hj Hpj) as (_ & Hno & _ & Ho' & _). by apply Hno, Ho'.
      * rewrite !Hrow by done. intros Hpj Hpk. destruct (Hch j Hj Hpj) as (_ & _ & _ & -> & _).
        destruct (Hch k Hk Hpk) as (_ & _ & _ & -> & _). by apply Hd.
  - done.
  - done.
  - intros p [Ho| ->]%Hown; [by left|]. by right.
  - intros p Ho. apply Hown. by left.
  - intros a Hne. destruct (decide (a = t + 8 * i)) as [->|Hat].
    + exists t. split; [apply owns_root|by apply entry_in_page].
    + exists c. split; [apply Hown; by right|]. destruct (decide (c <= a < c + 4096)) as [Hin|Hout]; [done|].
      destruct Hne. by apply Hold.
  - intros va. cbn [trans]. destruct (decide (idx (S n) va = i)) as [->|Hne].
    + rewrite Hrow_i, Hpr, Eadr, Htr. unfold entry in E0. by rewrite E0.
    + rewrite Hrow by (done || apply idx_range).
      destruct (present (words_at v (t + 8 * idx (S n) va))) eqn:Hpv; [|done].
      by apply (Hch _ (idx_range _ _) Hpv).
Qed.

Lemma create_step v v' n t i f c :
  wf_table (words_at v) (S n) t -> owned_used v (S n) t -> wf_pmm (frames v) -> 0 <= i < 512 ->
  f = 0 \/ f = PTE_USER -> get_or_create_table v t i f = Some (v', c) ->
  tree_step v v' (S n) t /\ present (entry v' t i) = true /\ c = addr (entry v' t i) /\
  forall va, trans (words_at v') (S n) t va = trans (words_at v) (S n) t va.
Proof.
  intros Hw Hu Hpm Hi Hf. unfold get_or_create_table.
  destruct (has (entry v t i) PTE_PRESENT) eqn:Hpr; cbn [negb].
  - intros [= <- <-]. split; [by apply tree_step_refl|]. done.
  - destruct (alloc_table_page v) as [[v1 nt]|] eqn:Ha; [|done]. intros [= <- <-].
    destruct (alloc_frame v v1 nt Hpm Ha) as (Hnt & _).
    destruct (new_entry nt f Hnt Hf) as (H1 & H2 & H3).
    assert (entry v t i = 0) as E0.
    { destruct Hw as (_ & He & _). destruct (He i Hi) as [E|(Hp' & _)]; [done|].
      unfold entry in Hpr. unfold present in Hp'. congruence. }
    destruct (fill_step v v1 n t i _ nt Hw Hu Hpm Hi E0 Ha H1 H2 H3) as (Hs & Ee & Ht). cbn zeta in *.
    split; [exact Hs|]. rewrite Ee. split; [exact H2|]. split; [by rewrite fn_lookup_insert|exact Ht].
Qed.

(** ** Mapping a page *)

(** [paging_map_page] from the table [t] of level [n] down. *)
Fixpoint map_at (n : nat) (v : vm) (t va f pte : Z) : option vm :=
  match n with
  | O => Some (set_entry v t (idx 0 va) pte)
  | S k =>
      match get_or_create_table v t (idx n va) f with
      | Some (v, c) => map_at k v c va f pte
      | None => None
      end
  end.

Lemma map_page_at v pml4 virt phys flags :
  paging_map_page v pml4 virt phys flags =
  map_at 3 v pml4 virt (if has flags PTE_USER then PTE_USER else 0)
    (Z.lor (Z.lor (Z.land phys PTE_ADDR_MASK) flags) PTE_PRESENT).
Proof.
  unfold paging_map_page, map_at.
  change (PML4_INDEX virt) with (idx 3 virt). change (PDPT_INDEX virt) with (idx 2 virt).
  change (PD_INDEX virt) with (idx 1 virt). change (PT_INDEX virt) with (idx 0 virt).
  repeat (destruct (get_or_create_table _ _ _ _) as [[? ?]|]; [|done]). done.
Qed.

Lemma tree_step_trans v v1 v2 n t : tree_step v v1 n t -> tree_step v1 v2 n t -> tree_step v v2 n t.
Proof.
  intros H1 H2. split; [apply H2|apply H2| | | |].
  - intros p Hp. apply H2. by apply H1.
  - intros p [Ho|[Hn Hu]]%(ts_owns _ _ _ _ H2).
    + apply (ts_owns _ _ _ _ H1) in Ho as [?|[? Hu]]; [by left|right]. split; [done|]. by apply H2.
    + right. split; [|done]. intros Hp. apply Hn. by apply H1.
  - intros p Ho. by apply (ts_keeps _ _ _ _ H2), (ts_keeps _ _ _ _ H1).
  - intros a Hne. destruct (decide (words_at v2 a = words_at v1 a)) as [E|Hne2].
    + rewrite E in Hne. apply (ts_words _ _ _ _ H1) in Hne as (p & Ho & Hpa).
      exists p. split; [|done]. by apply (ts_keeps _ _ _ _ H2).
    + by apply (ts_words _ _ _ _ H2) in Hne2.
Qed.

Lemma leaf_step v t va pte :
  wf_table (words_at v) 0 t -> wf_pmm (frames v) ->
  tree_step v (set_entry v t (idx 0 va) pte) 0 t /\
  forall vb, trans (words_at (set_entry v t (idx 0 va) pte)) 0 t vb =
    if idx 0 va =? idx 0 vb then (if present pte then Some pte else None) else trans (words_at v) 0 t vb.
Proof.
  intros Hw Hpm. pose proof (wf_page _ _ _ Hw) as Hp. split.
  - split; cbn [set_entry words_at frames]; [done|done|done|by left|done|].
    intros a Hne. exists t. split; [by left|]. destruct (decide (a = t + 8 * idx 0 va)) as [->|Hna].
    + apply entry_in_page; [done|apply idx_range].
    + by rewrite fn_lookup_insert_ne in Hne.
  - intros vb. cbn [trans set_entry words_at]. destruct (Z.eqb_spec (idx 0 va) (idx 0 vb)) as [->|Hne].
    + by rewrite fn_lookup_insert.
    + by rewrite fn_lookup_insert_ne by lia.
Qed.

Lemma map_at_spec n v t va f pte v' :
  wf_table (words_at v) n t -> owned_used v n t -> wf_pmm (frames v) -> f = 0 \/ f = PTE_USER ->
  map_at n v t va f pte = Some v' ->
  tree_step v v' n t /\
  forall vb, trans (words_at v') n t vb =
    if same_path n va vb then (if present pte then Some pte else None) else trans (words_at v) n t vb.
Proof.
  revert v t. induction n as [|n IH]; intros v t Hw Hu Hpm Hf; cbn [map_at].
  - intros [= <-]. destruct (leaf_step v t va pte Hw Hpm) as [Hs Ht]. split; [done|].
    intros vb. rewrite Ht. cbn [same_path]. by rewrite andb_true_r.
  - destruct (get_or_create_table v t (idx (S n) va) f) as [[v1 c]|] eqn:Eg; [|done]. intros Em.
    destruct (create_step v v1 n t _ f c Hw Hu Hpm (idx_range _ _) Hf Eg) as (Hs1 & Hpr & -> & Ht1).
    pose proof (ts_wf _ _ _ _ Hs1) as Hw1. pose proof (tree_step_owned _ _ _ _ Hs1 Hu) as Hu1.
    assert (wf_table (words_at v1) n (addr (entry v1 t (idx (S n) va)))) as Hwc.
    { destruct Hw1 as (_ & He & _). destruct (He _ (idx_range (S n) va)) as [E|(_ & _ & ? & _)]; [|done].
      unfold entry in Hpr. by rewrite E in Hpr. }
    destruct (IH v1 (addr (entry v1 t (idx (S n) va)))) as [Hs2 Ht2]; [done| |apply Hs1|done|done|].
    { intros p Ho. apply Hu1. right. exists (idx (S n) va). split; [apply idx_range|]. done. }
    destruct (child_step v1 v' n t _ Hw1 Hu1 (idx_range _ _) Hpr Hs2) as [Hs3 Ht3].
    split; [by eapply tree_step_trans|]. intros vb. rewrite Ht3, Ht2, Ht1. cbn [same_path].
    rewrite (Z.eqb_sym (idx (S n) va)). destruct (Z.eqb_spec (idx (S n) vb) (idx (S n) va)) as [E|Hne]; cbn [andb]; [|done].
    destruct (same_path n va vb); [done|]. rewrite <- Ht1. cbn [trans]. rewrite E.
    unfold entry in Hpr. by rewrite Hpr.
Qed.

(** What [paging_virt_to_phys] computes on a tree of tables. *)
Lemma virt_to_phys_trans v pml4 va :
  wf_table (words_at v) 3 pml4 ->
  paging_virt_to_phys v pml4 va =
    match trans (words_at v) 3 pml4 va with
    | Some e => Z.lor (addr e) (Z.land va 0xFFF)
    | None => 0
    end.
Proof.
  intros (_ & He3 & _). unfold paging_virt_to_phys, entry.
  change (PML4_INDEX va) with (idx 3 va). change (PDPT_INDEX va) with (idx 2 va).
  change (PD_INDEX va) with (idx 1 va). change (PT_INDEX va) with (idx 0 va).
  cbn [trans]. repeat change (has ?x PTE_PRESENT) with (present x).
  destruct (He3 _ (idx_range 3 va)) as [->|(-> & _ & (_ & He2 & _) & _)]; [done|]. cbn [negb].
  fold (addr (words_at v (pml4 + 8 * idx 3 va))).
  destruct (He2 _ (idx_range 2 va)) as [->|(-> & _ & (_ & He1 & _) & _)]; [done|]. cbn [negb].
  fold (addr (words_at v (addr (words_at v (pml4 + 8 * idx 3 va)) + 8 * idx 2 va))).
  destruct (He1 _ (idx_range 1 va)) as [->|(-> & -> & _ & _)]; [done|]. cbn [negb].
  fold (addr (words_at v (addr (words_at v (addr (words_at v (pml4 + 8 * idx 3 va)) + 8 * idx 2 va)) + 8 * idx 1 va))).
  by destruct (present _).
Qed.

(** The invariant of an address space: a tree of tables whose pages the frame
    allocator holds. *)
Record address_space (v : vm) (pml4 : Z) : Prop := {
  as_tree : wf_table (words_at v) 3 pml4;
  as_used : owned_used v 3 pml4;
  as_pmm : wf_pmm (frames v)
}.

Definition pte (phys flags : Z) : Z := Z.lor (Z.lor (Z.land phys PTE_ADDR_MASK) flags) PTE_PRESENT.

Lemma pte_addr phys flags : Z.land flags PTE_ADDR_MASK = 0 -> addr (pte phys flags) = addr phys.
Proof.
  intros Hf. unfold addr, pte. rewrite !Z.land_lor_distr_l, Hf, <- Z.land_assoc, Z.land_diag.
  by rewrite !Z.lor_0_r.
Qed.

Lemma pte_present phys flags : present (pte phys flags) = true.
Proof. rewrite present_bit. unfold pte. rewrite Z.lor_spec. apply orb_true_r. Qed.

Lemma map_page_spec v v' pml4 virt phys flags :
  address_space v pml4 -> paging_map_page v pml4 virt phys flags = Some v' ->
  address_space v' pml4 /\
  forall va, trans (words_at v') 3 pml4 va =
    if same_path 3 virt va then Some (pte phys flags) else trans (words_at v) 3 pml4 va.
Proof.
  intros [Hw Hu Hpm]. rewrite map_page_at. intros Em.
  set (f := if has flags PTE_USER then PTE_USER else 0) in Em.
  assert (f = 0 \/ f = PTE_USER) as Hf by (subst f; destruct (has flags PTE_USER); [by right|by left]).
  destruct (map_at_spec 3 v pml4 virt f _ v' Hw Hu Hpm Hf Em) as [Hs Ht].
  split; [split; [apply Hs|by eapply tree_step_owned|apply Hs]|]. intros va. rewrite Ht.
  change (Z.lor _ PTE_PRESENT) with (pte phys flags). by rewrite pte_present.
Qed.

(** C10: mapping a page makes exactly that page translate.  In an address
    space whose tables form a tree of frames held by the allocator, a
    successful [paging_map_page] keeps this invariant, however many tables it
    had to create; afterwards an address of the mapped page translates to the
    given frame plus its offset, and every other address translates as
    before. *)
Theorem paging_map_page_correct (v v' : vm) (pml4 virt phys flags : Z) :
  address_space v pml4 -> Z.land flags PTE_ADDR_MASK = 0 ->
  paging_map_page v pml4 virt phys flags = Some v' ->
  address_space v' pml4 /\
  forall va, paging_virt_to_phys v' pml4 va =
    if same_path 3 virt va then Z.lor (Z.land phys PTE_ADDR_MASK) (Z.land va 0xFFF)
    else paging_virt_to_phys v pml4 va.
Proof.
  intros Ha Hf Em. destruct (map_page_spec v v' pml4 virt phys flags Ha Em) as [Ha' Ht].
  split; [done|]. intros va. rewrite !virt_to_phys_trans by (apply Ha || apply Ha'). rewrite Ht.
  destruct (same_path 3 virt va); [|done]. by rewrite pte_addr.
Qed.

(** ** Ranges *)

(** Canonical addresses: bits 47 to 63 are equal. *)
Definition canonical (va : Z) : Prop := 0 <= va < 2 ^ 47 \/ 2 ^ 64 - 2 ^ 47 <= va < 2 ^ 64.

Lemma idx_div n va : idx n va = va / 2 ^ (12 + 9 * Z.of_nat n) mod 512.
Proof.
  unfold idx. change 0x1FF with (Z.ones 9). rewrite Z.land_ones, Z.shiftr_div_pow2 by lia. done.
Qed.

Lemma digit_split p : p mod 2 ^ 36 =
  p mod 512 + 512 * (p / 512 mod 512) + 2 ^ 18 * (p / 2 ^ 18 mod 512) + 2 ^ 27 * (p / 2 ^ 27 mod 512).
Proof.
  change (2 ^ 36) with (512 * (512 * (512 * 512))). rewrite !Z.rem_mul_r by lia.
  change (2 ^ 18) with (512 * 512). change (2 ^ 27) with (512 * (512 * 512)). rewrite <- !Z.div_div by lia. ring.
Qed.

Lemma same_path_pages va vb :
  same_path 3 va vb = true <-> (va / 4096) mod 2 ^ 36 = (vb / 4096) mod 2 ^ 36.
Proof.
  cbn [same_path]. rewrite !andb_true_iff, !Z.eqb_eq, !idx_div.
  change (12 + 9 * Z.of_nat 3) with (12 + 27). change (12 + 9 * Z.of_nat 2) with (12 + 18).
  change (12 + 9 * Z.of_nat 1) with (12 + 9). change (12 + 9 * Z.of_nat 0) with 12.
  rewrite !(Z.pow_add_r 2 12) by lia. change (2 ^ 12) with 4096. rewrite <- !Z.div_div by lia.
  change (2 ^ 9) with 512. rewrite !digit_split.
  generalize (va / 4096) (vb / 4096). intros p q.
  pose proof (Z.mod_pos_bound p 512 ltac:(lia)). pose proof (Z.mod_pos_bound q 512 ltac:(lia)).
  pose proof (Z.mod_pos_bound (p / 512) 512 ltac:(lia)). pose proof (Z.mod_pos_bound (q / 512) 512 ltac:(lia)).
  pose proof (Z.mod_pos_bound (p / 2 ^ 18) 512 ltac:(lia)). pose proof (Z.mod_pos_bound (q / 2 ^ 18) 512 ltac:(lia)).
  pose proof (Z.mod_pos_bound (p / 2 ^ 27) 512 ltac:(lia)). pose proof (Z.mod_pos_bound (q / 2 ^ 27) 512 ltac:(lia)).
  generalize dependent (p mod 512). generalize dependent (q mod 512).
  generalize dependent (p / 512 mod 512). generalize dependent (q / 512 mod 512).
  generalize dependent (p / 2 ^ 18 mod 512). generalize dependent (q / 2 ^ 18 mod 512).
  generalize dependent (p / 2 ^ 27 mod 512). generalize dependent (q / 2 ^ 27 mod 512).
  clear. intros. change (2 ^ 18) with 262144. change (2 ^ 27) with 134217728. lia.
Qed.

Lemma same_path_canonical va vb :
  canonical va -> canonical vb -> same_path 3 va vb = (va / 4096 =? vb / 4096).
Proof.
  intros Ha Hb. apply eq_bool_prop_intro. rewrite !Is_true_true, Z.eqb_eq, same_path_pages.
  unfold canonical in *. change (2 ^ 36) with 68719476736. change (2 ^ 47) with 140737488355328 in *.
  change (2 ^ 64) with 18446744073709551616 in *. split; [lia|by intros ->].
Qed.

(** [n] pages from [virt] on, all canonical. *)
Definition range_ok (virt : Z) (n : nat) : Prop :=
  virt mod 4096 = 0 /\
  (0 <= virt /\ virt + 4096 * Z.of_nat n <= 2 ^ 47 \/
   2 ^ 64 - 2 ^ 47 <= virt /\ virt + 4096 * Z.of_nat n <= 2 ^ 64).

Definition in_range (virt : Z) (n : nat) (va : Z) : bool :=
  (virt <=? va) && (va <? virt + 4096 * Z.of_nat n).

Lemma map_range_spec n v v' pml4 virt phys flags :
  address_space v pml4 -> range_ok virt n -> 0 <= phys -> phys + 4096 * Z.of_nat n <= 2 ^ 52 ->
  map_range_loop n v pml4 virt phys flags = Some v' ->
  address_space v' pml4 /\
  forall va, canonical va -> trans (words_at v') 3 pml4 va =
    if in_range virt n va then Some (pte (phys + (va / 4096 * 4096 - virt)) flags)
    else trans (words_at v) 3 pml4 va.
Proof.
  revert v virt phys. induction n as [|n IH]; intros v virt phys Ha Hr Hp Hpn; cbn [map_range_loop].
  - intros [= <-]. split; [done|]. intros va _. unfold in_range.
    destruct (Z.leb_spec virt va); [|done]. destruct (Z.ltb_spec va (virt + 4096 * Z.of_nat 0)); [lia|done].
  - destruct (paging_map_page v pml4 virt phys flags) as [v1|] eqn:E1; [|done]. intros E.
    destruct (map_page_spec _ _ _ _ _ _ Ha E1) as [Ha1 Ht1].
    destruct Hr as [Hal Hr]. change (2 ^ 47) with 140737488355328 in Hr. change (2 ^ 52) with 4503599627370496 in Hpn.
    change (2 ^ 64) with 18446744073709551616 in Hr.
    assert (canonical virt) as Hcv by (unfold canonical; lia).
    destruct n as [|n].
    + injection E as <-. split; [done|]. intros va Hva. rewrite Ht1, same_path_canonical by done.
      unfold in_range. destruct (Z.eqb_spec (virt / 4096) (va / 4096)).
      * rewrite (proj2 (Z.leb_le _ _)), (proj2 (Z.ltb_lt _ _)) by lia. cbn [andb]. do 2 f_equal. lia.
      * destruct (Z.leb_spec virt va); [|done]. destruct (Z.ltb_spec va (virt + 4096 * Z.of_nat 1)); [lia|done].
    + assert (u64 (virt + PAGE_SIZE) = virt + 4096) as Ev
        by (unfold PAGE_SIZE; apply wrap_small; unfold is_word; lia).
      assert (u64 (phys + PAGE_SIZE) = phys + 4096) as Epp
        by (unfold PAGE_SIZE; apply wrap_small; unfold is_word; lia).
      rewrite Ev, Epp in E.
      destruct (IH v1 (virt + 4096) (phys + 4096)) as [Ha' Ht]; [done| |lia|lia|done|].
      { unfold range_ok. change (2 ^ 47) with 140737488355328. change (2 ^ 64) with 18446744073709551616. lia. }
      split; [done|]. intros va Hva. rewrite Ht, Ht1, same_path_canonical by done. unfold in_range.
      destruct (Z.eqb_spec (virt / 4096) (va / 4096)).
      * rewrite (proj2 (Z.leb_le virt va)), (proj2 (Z.ltb_lt va (virt + 4096 * Z.of_nat (S (S n))))) by lia.
        cbn [andb]. rewrite (proj2 (Z.leb_gt (virt + 4096) va)) by lia. cbn [andb]. do 2 f_equal. lia.
      * replace (virt <=? va) with (virt + 4096 <=? va) by lia.
        replace (va <? virt + 4096 * Z.of_nat (S (S n))) with (va <? virt + 4096 + 4096 * Z.of_nat (S n)) by lia.
        destruct (_ && _); [|done]. do 2 f_equal. lia.
Qed.

Lemma in_range_true virt n va : virt <= va < virt + 4096 * Z.of_nat n -> in_range virt n va = true.
Proof. unfold in_range. lia. Qed.

Lemma in_range_false virt n va : ~ virt <= va < virt + 4096 * Z.of_nat n -> in_range virt n va = false.
Proof. unfold in_range. lia. Qed.

(** ** The kernel's address space *)

Lemma lor_page p o : page_ok p -> 0 <= o < 4096 -> Z.lor p o = p + o.
Proof.
  intros [Hr Hm] Ho. rewrite Z.lor_comm.
  replace p with (Z.shiftl (p / 4096) 12) at 1 by (rewrite Z.shiftl_mul_pow2 by lia; change (2 ^ 12) with 4096; lia).
  rewrite lor_shiftl_add by (change (2 ^ 12) with 4096; lia). change (2 ^ 12) with 4096. lia.
Qed.

(** The address a range maps [va] to. *)
Lemma range_phys v pml4 va virt phys flags :
  wf_table (words_at v) 3 pml4 -> Z.land flags PTE_ADDR_MASK = 0 ->
  virt mod 4096 = 0 -> phys mod 4096 = 0 -> 0 <= phys -> virt <= va -> phys + (va - virt) < 2 ^ 52 ->
  trans (words_at v) 3 pml4 va = Some (pte (phys + (va / 4096 * 4096 - virt)) flags) ->
  paging_virt_to_phys v pml4 va = phys + (va - virt).
Proof.
  intros Hw Hf Hv Hp H0 Hle Hlt Ht. rewrite virt_to_phys_trans, Ht, pte_addr by done. unfold addr.
  change (2 ^ 52) with 4503599627370496 in Hlt.
  assert (page_ok (phys + (va / 4096 * 4096 - virt))) as Hpg
    by (unfold page_ok; change (2 ^ 52) with 4503599627370496; lia).
  rewrite page_mask by done. change 0xFFF with (Z.ones 12). rewrite Z.land_ones by lia.
  change (2 ^ 12) with 4096. rewrite lor_page by (done || lia). lia.
Qed.

Lemma create_space v v' pml4 :
  wf_pmm (frames v) -> paging_create_address_space v = Some (v', pml4) ->
  address_space v' pml4 /\ forall va, trans (words_at v') 3 pml4 va = None.
Proof.
  intros Hpm E. destruct (alloc_frame v v' pml4 Hpm E) as (Hp & Hpm' & _ & Hu & _ & Ew).
  destruct (zero_table (words_at v') 3 pml4 Hp) as (Hw & Ho & Ht).
  { intros a Ha. rewrite Ew. unfold zero_page, in_page, PAGE_SIZE in *.
    by rewrite (proj2 (Z.leb_le _ _)), (proj2 (Z.ltb_lt _ _)) by lia. }
  split; [|done]. split; [done| |done]. intros p Hp'. by apply Ho in Hp' as ->.
Qed.

(** Taking a frame for data. *)
Lemma space_alloc v pml4 pm page :
  address_space v pml4 -> pmm_alloc_page (frames v) = (pm, page) -> address_space (Vm (words_at v) pm) pml4.
Proof.
  intros [Hw Hu Hpm] E. pose proof (alloc_page_spec _ Hpm) as Hs. rewrite E in Hs. destruct Hs as [Hpm' Hs].
  split; [done| |done]. intros p Ho. apply Hu in Ho. unfold used_frame in *. cbn [frames].
  destruct Hs as [(_ & -> & _)|(q & _ & _ & _ & _ & Hset & _)]; [done|]. by rewrite Hset, Ho, orb_true_r.
Qed.

Lemma map_heap_spec n v v' pml4 virt :
  address_space v pml4 -> range_ok virt n -> map_heap_loop n v pml4 virt = Some v' ->
  address_space v' pml4 /\
  forall va, canonical va -> in_range virt n va = false ->
    trans (words_at v') 3 pml4 va = trans (words_at v) 3 pml4 va.
Proof.
  revert v virt. induction n as [|n IH]; intros v virt Ha Hr; cbn [map_heap_loop]; [by intros [= <-]|].
  destruct (pmm_alloc_page (frames v)) as [pm page] eqn:Ep. destruct (page =? 0); [done|].
  pose proof (space_alloc _ _ _ _ Ha Ep) as Ha0.
  destruct (paging_map_page _ pml4 virt page _) as [v1|] eqn:E1; [|done]. intros E.
  destruct (map_page_spec _ _ _ _ _ _ Ha0 E1) as [Ha1 Ht1]. cbn [words_at] in Ht1.
  destruct Hr as [Hal Hr]. change (2 ^ 47) with 140737488355328 in Hr.
  change (2 ^ 64) with 18446744073709551616 in Hr.
  assert (canonical virt) as Hcv
    by (unfold canonical; change (2 ^ 47) with 140737488355328; change (2 ^ 64) with 18446744073709551616; lia).
  assert (forall va, canonical va -> in_range virt (S n) va = false ->
    trans (words_at v1) 3 pml4 va = trans (words_at v) 3 pml4 va) as Hout.
  { intros va Hva Hin. rewrite Ht1, same_path_canonical by done. unfold in_range in Hin.
    destruct (Z.eqb_spec (virt / 4096) (va / 4096)); [lia|done]. }
  destruct n as [|n]; [by injection E as <-|].
  assert (u64 (virt + PAGE_SIZE) = virt + 4096) as Ev by (unfold PAGE_SIZE; apply wrap_small; unfold is_word; lia).
  rewrite Ev in E. destruct (IH v1 (virt + 4096) Ha1) as [Ha' Ht]; [|done|].
  { unfold range_ok. change (2 ^ 47) with 140737488355328. change (2 ^ 64) with 18446744073709551616. lia. }
  split; [done|]. intros va Hva Hin. rewrite Ht, Hout by (done || (unfold in_range in *; lia)). done.
Qed.

(** Sizes for which the regions before the direct map do not run into each
    other and every frame number fits an entry. *)
Record boot_ok (b : boot_info) : Prop := {
  bo_base : kernel_phys_base b mod 4096 = 0;
  bo_size : 0 < kernel_size b <= 32 * 1024 * 1024;
  bo_phys : 0 <= kernel_phys_base b <= 2 ^ 32;
  bo_fb : fb_base b <> 0 /\ fb_base b mod 4096 = 0 /\ 0 <= fb_base b <= 2 ^ 48;
  bo_fb_size : 0 < fb_pitch b * fb_height b <= 1024 * 1024 * 1024
}.

Definition direct_map_hole : Z := FRAMEBUF_VBASE - PHYS_MAP_BASE.

Ltac layout_arith :=
  unfold direct_map_hole, range_ok, canonical, KERNEL_VBASE, PHYS_MAP_BASE, FRAMEBUF_VBASE, KERNEL_HEAP_BASE in *;
  lia.

Lemma pages_of_size s : 0 < s <= 2 ^ 40 ->
  let n := ALIGN_UP s PAGE_SIZE / PAGE_SIZE in s <= 4096 * n < s + 4096.
Proof.
  intros Hs. cbn zeta. change PAGE_SIZE with (2 ^ 12). rewrite ALIGN_UP_pow, Z.div_mul by lia.
  change (2 ^ 12) with 4096. lia.
Qed.

(** How [vmm_init] builds the translations: the last region mapped wins. *)
Lemma vmm_init_trans v b v' pml4 :
  wf_pmm (frames v) -> boot_ok b -> vmm_init v b = Some (v', pml4) ->
  address_space v' pml4 /\
  exists nk nf, kernel_size b <= 4096 * Z.of_nat nk <= 32 * 1024 * 1024 /\
    fb_pitch b * fb_height b <= 4096 * Z.of_nat nf <= 1024 * 1024 * 1024 /\
    forall va, canonical va -> in_range KERNEL_HEAP_BASE 256 va = false ->
      trans (words_at v') 3 pml4 va =
      if in_range FRAMEBUF_VBASE nf va
      then Some (pte (fb_base b + (va / 4096 * 4096 - FRAMEBUF_VBASE)) rw_uncached)
      else if in_range PHYS_MAP_BASE (Z.to_nat 262144) va
      then Some (pte (0 + (va / 4096 * 4096 - PHYS_MAP_BASE)) rw_global)
      else if in_range 0 1024 va
      then Some (pte (0 + (va / 4096 * 4096 - 0)) rw)
      else if in_range KERNEL_VBASE nk va
      then Some (pte (kernel_phys_base b + (va / 4096 * 4096 - KERNEL_VBASE)) rw_global)
      else None.
Proof.
  intros Hpm [B1 B2 B3 (B4 & B5 & B6) B7]. unfold vmm_init.
  destruct (paging_create_address_space v) as [[v0 pt]|] eqn:E0; [|done].
  destruct (create_space _ _ _ Hpm E0) as [Ha0 Ht0].
  pose proof (pages_of_size (kernel_size b) ltac:(lia)) as Hk. cbn zeta in Hk.
  pose proof (pages_of_size (fb_pitch b * fb_height b) ltac:(lia)) as Hf. cbn zeta in Hf.
  rewrite (wrap_small 64) by (unfold is_word; lia).
  set (kp := ALIGN_UP (kernel_size b) PAGE_SIZE / PAGE_SIZE) in *.
  set (kp' := if kp <? 512 then 512 else kp).
  assert (kernel_size b <= 4096 * kp' <= 32 * 1024 * 1024) as Hk'
    by (subst kp'; destruct (Z.ltb_spec kp 512); lia).
  clearbody kp'. set (fp := ALIGN_UP (fb_pitch b * fb_height b) PAGE_SIZE / PAGE_SIZE) in *. clearbody fp kp.
  destruct (fb_base b =? 0) eqn:Efb; [lia|]. unfold paging_map_range.
  change (1024 * 1024 * 1024 / PAGE_SIZE) with 262144.
  destruct (map_range_loop _ v0 pt _ _ _) as [v1|] eqn:E1; [|done].
  eapply map_range_spec in E1 as [Ha1 Ht1]; [|done|layout_arith|lia|lia].
  destruct (map_range_loop _ v1 pt _ _ _) as [v2|] eqn:E2; [|done].
  eapply map_range_spec in E2 as [Ha2 Ht2]; [|done|layout_arith|lia|lia].
  destruct (map_range_loop _ v2 pt _ _ _) as [v3|] eqn:E3; [|done].
  eapply map_range_spec in E3 as [Ha3 Ht3]; [|done|layout_arith|lia|lia].
  destruct (map_range_loop _ v3 pt _ _ _) as [v4|] eqn:E4; [|done].
  eapply map_range_spec in E4 as [Ha4 Ht4]; [|done|layout_arith|lia|lia].
  destruct (map_heap_loop 256 v4 pt _) as [v5|] eqn:E5; [|done].
  apply map_heap_spec in E5 as [Ha5 Ht5]; [|done|layout_arith].
  intros [= <- <-]. split; [done|]. exists (Z.to_nat kp'), (Z.to_nat fp). split; [lia|]. split; [lia|].
  intros va Hva Hout. rewrite Ht5, Ht4, Ht3, Ht2, Ht1, Ht0 by done. done.
Qed.

(** ** Enough frames *)

Lemma filter_seq_bound (f : nat -> bool) k h :
  (forall p, (k <= p < h)%nat -> f p = false) -> (length (List.filter f (seq 0 h)) <= k)%nat.
Proof.
  intros Hf. destruct (decide (h <= k)%nat) as [Hle|Hgt].
  - transitivity (length (seq 0 h)); [apply filter_length_le|]. by rewrite length_seq.
  - assert (h = k + (h - k))%nat as -> by lia. rewrite seq_app, List.filter_app, length_app.
    assert (List.filter f (seq (0 + k) (h - k)) = []) as ->.
    { apply elem_of_nil_inv. intros p Hp. apply list_elem_of_In, filter_In in Hp as [Hp E].
      apply in_seq in Hp. rewrite Hf in E by lia. done. }
    rewrite Nat.add_0_r. transitivity (length (seq 0 k)); [apply filter_length_le|]. by rewrite length_seq.
Qed.

Lemma alloc_table_succeeds v :
  wf_pmm (frames v) -> (256 < free_count (frames v))%nat ->
  exists v' c, alloc_table_page v = Some (v', c) /\ wf_pmm (frames v') /\
    (free_count (frames v') + 1 = free_count (frames v))%nat.
Proof.
  intros Hw Hf. unfold alloc_table_page. pose proof (alloc_page_spec _ Hw) as Hs.
  destruct (pmm_alloc_page (frames v)) as [pm phys].
  destruct Hs as [Hw' [(_ & _ & Hall)|(p & -> & Hr & _ & _ & _ & Hc & _)]].
  - exfalso. assert (free_count (frames v) <= 256)%nat; [|lia]. apply (filter_seq_bound _ 256).
    intros p Hp. unfold is_free. by rewrite Hall.
  - rewrite (proj2 (Z.eqb_neq _ _)) by (unfold PAGE_SIZE; lia). eexists _, _. split; [done|]. done.
Qed.

Lemma get_or_create_succeeds v t i f :
  wf_pmm (frames v) -> (256 < free_count (frames v))%nat ->
  exists v' c, get_or_create_table v t i f = Some (v', c) /\ wf_pmm (frames v') /\
    (free_count (frames v) <= free_count (frames v') + 1)%nat.
Proof.
  intros Hw Hf. unfold get_or_create_table. destruct (has _ _); cbn [negb].
  - eexists _, _. split; [done|]. split; [done|lia].
  - destruct (alloc_table_succeeds v Hw Hf) as (v' & c & -> & Hw' & Hc).
    eexists _, _. split; [done|]. split; [done|]. cbn [set_entry frames]. lia.
Qed.

Lemma map_at_succeeds n v t va f e :
  wf_pmm (frames v) -> (256 + n <= free_count (frames v))%nat ->
  exists v', map_at n v t va f e = Some v' /\ (free_count (frames v) <= free_count (frames v') + n)%nat.
Proof.
  revert v t. induction n as [|n IH]; intros v t Hw Hf; cbn [map_at].
  - eexists. split; [done|]. cbn [set_entry frames]. lia.
  - destruct (get_or_create_succeeds v t (idx (S n) va) f Hw ltac:(lia)) as (v1 & c & -> & Hw1 & Hc).
    destruct (IH v1 c Hw1 ltac:(lia)) as (v' & -> & Hc'). exists v'. split; [done|lia].
Qed.

(** The tables for [va] exist already. *)
Fixpoint walked (m : Z -> Z) (n : nat) (t va : Z) : Prop :=
  match n with
  | O => True
  | S k => present (m (t + 8 * idx n va)) = true /\ walked m k (addr (m (t + 8 * idx n va))) va
  end.

Lemma map_at_walked n v t va f e :
  walked (words_at v) n t va -> exists v', map_at n v t va f e = Some v' /\ frames v' = frames v.
Proof.
  revert t. induction n as [|n IH]; intros t Hw; cbn [map_at]; [by eexists|].
  destruct Hw as [Hp Hw]. unfold get_or_create_table, entry. unfold present in Hp. rewrite Hp. cbn [negb].
  by apply IH.
Qed.

Lemma trans_walked m n t va e : trans m n t va = Some e -> walked m n t va.
Proof.
  revert t. induction n as [|n IH]; intros t; cbn [trans walked]; [done|].
  destruct (present _); [|done]. intros H. split; [done|by apply IH].
Qed.

(** Addresses of the same 2 MiB use the same tables. *)
Lemma walked_region m n t va vb : va / 2 ^ 21 = vb / 2 ^ 21 -> walked m n t va -> walked m n t vb.
Proof.
  intros Hr. revert t. induction n as [|n IH]; intros t; cbn [walked]; [done|].
  assert (idx (S n) vb = idx (S n) va) as ->.
  { rewrite !idx_div. f_equal. replace (12 + 9 * Z.of_nat (S n)) with (21 + 9 * Z.of_nat n) by lia.
    rewrite Z.pow_add_r, <- !Z.div_div by lia. by rewrite Hr. }
  intros [? ?]. split; [done|by apply IH].
Qed.

(** The 2 MiB regions [n] pages from [virt] reach into. *)
Definition regions (virt : Z) (n : nat) : nat :=
  match n with
  | O => O
  | _ => Z.to_nat ((virt + 4096 * Z.of_nat n - 1) / 2 ^ 21 - virt / 2 ^ 21 + 1)
  end.

Definition known (b : bool) : nat := if b then 1 else 0.

Lemma map_range_succeeds n v pml4 virt phys flags b :
  address_space v pml4 -> range_ok virt n ->
  (b = true -> (0 < n)%nat /\ walked (words_at v) 3 pml4 virt) ->
  (256 + 3 * (regions virt n - known b) <= free_count (frames v))%nat ->
  exists v', map_range_loop n v pml4 virt phys flags = Some v' /\
    (free_count (frames v) <= free_count (frames v') + 3 * (regions virt n - known b))%nat.
Proof.
  revert v virt phys b. induction n as [|n IH]; intros v virt phys b Ha Hr Hb Hf; cbn [map_range_loop].
  { exists v. split; [done|lia]. }
  destruct Hr as [Hal Hr]. change (2 ^ 47) with 140737488355328 in Hr.
  change (2 ^ 64) with 18446744073709551616 in Hr.
  assert (exists v1, paging_map_page v pml4 virt phys flags = Some v1 /\
    (free_count (frames v) <= free_count (frames v1) + 3 * (1 - known b))%nat) as (v1 & E1 & Hf1).
  { rewrite map_page_at. destruct b; cbn [known] in *.
    - destruct (map_at_walked 3 v pml4 virt (if has flags PTE_USER then PTE_USER else 0) (pte phys flags)) as (v1 & E & Efr);
        [by apply Hb|]. exists v1. rewrite Efr. split; [exact E|lia].
    - apply map_at_succeeds; [apply Ha|]. unfold regions in Hf. change (2 ^ 21) with 2097152 in Hf. lia. }
  rewrite E1. destruct (map_page_spec _ _ _ _ _ _ Ha E1) as [Ha1 Ht1].
  destruct n as [|n].
  { exists v1. split; [done|]. unfold regions. change (2 ^ 21) with 2097152. destruct b; cbn [known] in *; lia. }
  assert (u64 (virt + PAGE_SIZE) = virt + 4096) as Ev by (unfold PAGE_SIZE; apply wrap_small; unfold is_word; lia).
  rewrite Ev.
  set (b1 := virt / 2 ^ 21 =? (virt + 4096) / 2 ^ 21).
  assert (regions virt (S (S n)) = regions (virt + 4096) (S n) + 1 - known b1)%nat as Hreg.
  { unfold regions, known, b1. change (2 ^ 21) with 2097152. destruct (Z.eqb_spec (virt / 2097152) ((virt + 4096) / 2097152)); lia. }
  destruct (IH v1 (virt + 4096) (u64 (phys + PAGE_SIZE)) b1 Ha1) as (v' & E & Hf').
  - unfold range_ok. change (2 ^ 47) with 140737488355328. change (2 ^ 64) with 18446744073709551616. lia.
  - intros Hb1. split; [lia|]. apply Z.eqb_eq in Hb1. apply (walked_region _ _ _ virt); [done|].
    eapply trans_walked. rewrite Ht1, (proj2 (same_path_pages virt virt)) by done. done.
  - assert (0 < regions (virt + 4096) (S n))%nat by (unfold regions; change (2 ^ 21) with 2097152; lia).
    destruct b, b1; cbn [known] in *; lia.
  - exists v'. split; [done|].
    assert (0 < regions (virt + 4096) (S n))%nat by (unfold regions; change (2 ^ 21) with 2097152; lia).
    destruct b, b1; cbn [known] in *; lia.
Qed.

Lemma alloc_page_succeeds pm :
  wf_pmm pm -> (256 < free_count pm)%nat ->
  exists pm' page, pmm_alloc_page pm = (pm', page) /\ page <> 0 /\ wf_pmm pm' /\
    (free_count pm' + 1 = free_count pm)%nat.
Proof.
  intros Hw Hf. destruct (alloc_table_succeeds (Vm (fun _ => 0) pm) Hw Hf) as (v' & c & E & Hw' & Hc).
  unfold alloc_table_page in E. cbn [frames] in *. destruct (pmm_alloc_page pm) as [pm' page].
  destruct (Z.eqb_spec page 0); [done|]. injection E as <- <-. by exists pm', page.
Qed.

Lemma map_heap_succeeds n v pml4 virt :
  address_space v pml4 -> (256 + 4 * n <= free_count (frames v))%nat ->
  exists v', map_heap_loop n v pml4 virt = Some v'.
Proof.
  revert v virt. induction n as [|n IH]; intros v virt Ha Hf; cbn [map_heap_loop]; [by eexists|].
  destruct (alloc_page_succeeds (frames v) (as_pmm _ _ Ha) ltac:(lia)) as (pm & page & E & Hne & Hw & Hc).
  rewrite E. rewrite (proj2 (Z.eqb_neq _ _)) by done.
  pose proof (space_alloc _ _ _ _ Ha E) as Ha0.
  destruct (map_at_succeeds 3 (Vm (words_at v) pm) pml4 virt
    (if has (Z.lor (Z.lor PTE_PRESENT PTE_WRITABLE) PTE_NX) PTE_USER then PTE_USER else 0)
    (pte page (Z.lor (Z.lor PTE_PRESENT PTE_WRITABLE) PTE_NX)) Hw) as (v1 & E1 & Hf1);
    [cbn [frames]; lia|].
  pose proof (map_page_at (Vm (words_at v) pm) pml4 virt page (Z.lor (Z.lor PTE_PRESENT PTE_WRITABLE) PTE_NX)) as Em.
  fold (pte page (Z.lor (Z.lor PTE_PRESENT PTE_WRITABLE) PTE_NX)) in Em. rewrite E1 in Em. rewrite Em.
  cbn [frames] in *.
  apply IH; [|lia]. by apply (map_page_spec _ _ _ _ _ _ Ha0 Em).
Qed.

Lemma regions_bound virt m k :
  0 <= m -> 4096 * m <= 2097152 * k -> Z.of_nat (regions virt (Z.to_nat m)) <= k + 1.
Proof.
  intros Hm H. unfold regions. destruct (Z.to_nat m) eqn:E; [lia|].
  assert (Z.of_nat (S n) = m) as -> by lia. change (2 ^ 21) with 2097152. lia.
Qed.

(** Frames enough for every table and the heap's first pages: 4500. *)
Lemma vmm_init_succeeds v b :
  wf_pmm (frames v) -> boot_ok b -> 4500 <= Z.of_nat (free_count (frames v)) ->
  exists v' pml4, vmm_init v b = Some (v', pml4).
Proof.
  intros Hpm [B1 B2 B3 (B4 & B5 & B6) B7] Hfree. unfold vmm_init, paging_create_address_space.
  destruct (alloc_table_succeeds v Hpm ltac:(lia)) as (v0 & pt & E0 & _ & Hc0). rewrite E0.
  destruct (create_space _ _ _ Hpm E0) as [Ha0 _].
  pose proof (pages_of_size (kernel_size b) ltac:(lia)) as Hk. cbn zeta in Hk.
  pose proof (pages_of_size (fb_pitch b * fb_height b) ltac:(lia)) as Hf. cbn zeta in Hf.
  rewrite (wrap_small 64) by (unfold is_word; lia).
  set (kp := ALIGN_UP (kernel_size b) PAGE_SIZE / PAGE_SIZE) in *.
  set (kp' := if kp <? 512 then 512 else kp).
  assert (kernel_size b <= 4096 * kp' <= 32 * 1024 * 1024) as Hk'
    by (subst kp'; destruct (Z.ltb_spec kp 512); lia).
  clearbody kp'. set (fp := ALIGN_UP (fb_pitch b * fb_height b) PAGE_SIZE / PAGE_SIZE) in *. clearbody fp kp.
  destruct (fb_base b =? 0) eqn:Efb; [lia|]. unfold paging_map_range.
  change (1024 * 1024 * 1024 / PAGE_SIZE) with 262144.
  (* closed page counts would be evaluated by the arithmetic solver *)
  remember 1024 as ni eqn:Eni. remember 262144 as nd eqn:End.
  pose proof (regions_bound KERNEL_VBASE kp' 16 ltac:(lia) ltac:(lia)) as R1.
  pose proof (regions_bound 0 ni 2 ltac:(lia) ltac:(lia)) as R2.
  pose proof (regions_bound PHYS_MAP_BASE nd 512 ltac:(lia) ltac:(lia)) as R3.
  pose proof (regions_bound FRAMEBUF_VBASE fp 512 ltac:(lia) ltac:(lia)) as R4.
  destruct (map_range_succeeds (Z.to_nat kp') v0 pt KERNEL_VBASE (kernel_phys_base b) rw_global false Ha0)
    as (v1 & E1 & F1); [layout_arith|done|cbn [known]; lia|]. rewrite E1. cbn [known] in F1.
  eapply map_range_spec in E1 as [Ha1 _]; [|done|layout_arith|lia|lia].
  destruct (map_range_succeeds (Z.to_nat ni) v1 pt 0 0 rw false Ha1)
    as (v2 & E2 & F2); [layout_arith|done|cbn [known]; lia|]. rewrite E2. cbn [known] in F2.
  eapply map_range_spec in E2 as [Ha2 _]; [|done|layout_arith|lia|lia].
  destruct (map_range_succeeds (Z.to_nat nd) v2 pt PHYS_MAP_BASE 0 rw_global false Ha2)
    as (v3 & E3 & F3); [layout_arith|done|cbn [known]; lia|]. rewrite E3. cbn [known] in F3.
  eapply map_range_spec in E3 as [Ha3 _]; [|done|layout_arith|lia|lia].
  destruct (map_range_succeeds (Z.to_nat fp) v3 pt FRAMEBUF_VBASE (fb_base b) rw_uncached false Ha3)
    as (v4 & E4 & F4); [layout_arith|done|cbn [known]; lia|]. rewrite E4. cbn [known] in F4.
  eapply map_range_spec in E4 as [Ha4 _]; [|done|layout_arith|lia|lia].
  destruct (map_heap_succeeds 256 v4 pt KERNEL_HEAP_BASE Ha4) as [v5 ->]; [lia|].
  by eexists _, _.
Qed.

(** C12: the kernel's address space.  With 4500 free frames (about 18 MiB)
    [vmm_init] succeeds; its page tables then translate the kernel image, the
    framebuffer and the direct map below offset 0x2E000000 as announced in
    memory_layout.h.  From that offset on, however, the direct map lies under
    the framebuffer mapping: the kernel's pointer to the physical address
    0x2E000000 + x is a pointer into video memory. *)
Theorem vmm_init_layout (v : vm) (b : boot_info) :
  wf_pmm (frames v) -> boot_ok b -> 4500 <= Z.of_nat (free_count (frames v)) ->
  exists v' pml4, vmm_init v b = Some (v', pml4) /\ address_space v' pml4 /\
    (forall x, 0 <= x < kernel_size b ->
       paging_virt_to_phys v' pml4 (KERNEL_VBASE + x) = kernel_phys_base b + x) /\
    (forall x, 0 <= x < fb_pitch b * fb_height b ->
       paging_virt_to_phys v' pml4 (FRAMEBUF_VBASE + x) = fb_base b + x) /\
    (forall x, 0 <= x < direct_map_hole -> paging_virt_to_phys v' pml4 (PHYS_TO_VIRT x) = x) /\
    (forall x, 0 <= x < fb_pitch b * fb_height b ->
       paging_virt_to_phys v' pml4 (PHYS_TO_VIRT (direct_map_hole + x)) = fb_base b + x).
Proof.
  intros Hpm Hb Hfree. destruct (vmm_init_succeeds v b Hpm Hb Hfree) as (v' & pml4 & E).
  destruct (vmm_init_trans v b v' pml4 Hpm Hb E) as (Ha & nk & nf & Hnk & Hnf & Ht).
  destruct Hb as [B1 B2 B3 (B4 & B5 & B6) B7]. pose proof (as_tree _ _ Ha) as Hw.
  assert (forall x, 0 <= x < fb_pitch b * fb_height b ->
    paging_virt_to_phys v' pml4 (FRAMEBUF_VBASE + x) = fb_base b + x) as Hfb.
  { intros x Hx. rewrite (range_phys v' pml4 _ FRAMEBUF_VBASE (fb_base b) rw_uncached); try done; try layout_arith.
    rewrite Ht by first [layout_arith|apply in_range_false; layout_arith].
    by rewrite in_range_true by layout_arith. }
  exists v', pml4. split; [done|]. split; [done|]. split; [|split; [exact Hfb|split]].
  - intros x Hx. rewrite (range_phys v' pml4 _ KERNEL_VBASE (kernel_phys_base b) rw_global); try done; try layout_arith.
    rewrite Ht by first [layout_arith|apply in_range_false; layout_arith].
    rewrite (in_range_false FRAMEBUF_VBASE), (in_range_false PHYS_MAP_BASE), (in_range_false 0),
      (in_range_true KERNEL_VBASE) by layout_arith. done.
  - intros x Hx. unfold PHYS_TO_VIRT. rewrite wrap_small by (unfold is_word; layout_arith).
    rewrite (range_phys v' pml4 _ PHYS_MAP_BASE 0 rw_global); try done; try layout_arith.
    rewrite Ht by first [layout_arith|apply in_range_false; layout_arith].
    rewrite (in_range_false FRAMEBUF_VBASE), (in_range_true PHYS_MAP_BASE) by layout_arith. done.
  - intros x Hx. unfold PHYS_TO_VIRT. rewrite wrap_small by (unfold is_word; layout_arith).
    replace (direct_map_hole + x + PHYS_MAP_BASE) with (FRAMEBUF_VBASE + x) by layout_arith. by apply Hfb.
Qed.

(** ** Witnesses *)

(** A machine whose first 64 MiB are free. *)
Definition free_pmm : pmm_state := Pmm (replicate BITMAP_SIZE 0) 0 0 (Z.to_nat 16384).

Lemma free_pmm_wf : wf_pmm free_pmm.
Proof.
  split; cbn [free_pmm bitmap highest_page].
  - apply length_replicate.
  - apply Forall_replicate. by_compute.
  - unfold MAX_PAGES. apply Z2Nat.inj_le; vm_compute; discriminate.
Qed.

Lemma free_pmm_test p : bitmap_test (bitmap free_pmm) p = false.
Proof.
  unfold bitmap_test. cbn [free_pmm bitmap].
  assert (forall i k, (replicate k 0).[i] = 0) as H.
  { intros i k. revert i. induction k; destruct i; cbn; auto. }
  by rewrite H, Z.shiftr_0_l.
Qed.

Lemma filter_all (f : nat -> bool) l : (forall x, f x = true) -> List.filter f l = l.
Proof. intros Hf. induction l as [|x l IH]; [done|]. cbn. by rewrite Hf, IH. Qed.

Lemma free_pmm_count : Z.of_nat (free_count free_pmm) = 16384.
Proof.
  unfold free_count. rewrite filter_all, length_seq.
  - cbn [free_pmm highest_page]. apply Z2Nat.id. discriminate.
  - intros p. unfold is_free. by rewrite free_pmm_test.
Qed.

Definition demo_boot : boot_info := 
  BootInfo 0x5641554C544F5321 0xFD000000 1024 768 4096 32 0 0 0x8000 48 48 1 1 0x100000 500000 0 0.

Lemma demo_boot_ok : boot_ok demo_boot.
Proof. by constructor; vm_compute; repeat split. Qed.

Definition blank_vm : vm := Vm (fun _ => 0) free_pmm.

Lemma vmm_init_layout_witness :
  exists v' pml4, vmm_init blank_vm demo_boot = Some (v', pml4) /\ address_space v' pml4 /\
    (forall x, 0 <= x < 500000 -> paging_virt_to_phys v' pml4 (KERNEL_VBASE + x) = 0x100000 + x) /\
    (forall x, 0 <= x < 4096 * 768 -> paging_virt_to_phys v' pml4 (FRAMEBUF_VBASE + x) = 0xFD000000 + x) /\
    (forall x, 0 <= x < direct_map_hole -> paging_virt_to_phys v' pml4 (PHYS_TO_VIRT x) = x) /\
    (forall x, 0 <= x < 4096 * 768 ->
       paging_virt_to_phys v' pml4 (PHYS_TO_VIRT (direct_map_hole + x)) = 0xFD000000 + x).
Proof.
  apply (vmm_init_layout blank_vm demo_boot free_pmm_wf demo_boot_ok).
  change (frames blank_vm) with free_pmm. rewrite free_pmm_count. discriminate.
Defined.

(** The same machine after its first table was created, at frame 256. *)
Definition demo_space : vm :=
  match paging_create_address_space blank_vm with Some (v, _) => v | None => blank_vm end.

Lemma demo_space_create : paging_create_address_space blank_vm = Some (demo_space, 0x100000).
Proof. reflexivity. Qed.

Lemma paging_map_page_correct_witness :
  exists v', paging_map_page demo_space 0x100000 0x400000 0x7000 rw = Some v' /\
    address_space v' 0x100000 /\
    forall va, paging_virt_to_phys v' 0x100000 va =
      if same_path 3 0x400000 va then Z.lor (Z.land 0x7000 PTE_ADDR_MASK) (Z.land va 0xFFF)
      else paging_virt_to_phys demo_space 0x100000 va.
Proof.
  assert (match paging_map_page demo_space 0x100000 0x400000 0x7000 rw with Some _ => true | None => false end = true)
    as Hrun by (vm_compute; reflexivity).
  destruct (create_space blank_vm _ _ free_pmm_wf demo_space_create) as [Ha _].
  destruct (paging_map_page demo_space 0x100000 0x400000 0x7000 rw) as [v'|] eqn:E.
  - exists v'. split; [exact eq_refl|].
    apply (paging_map_page_correct demo_space v' 0x100000 0x400000 0x7000 rw Ha eq_refl E).
  - discriminate Hrun.
Defined.
