(* ===== verification/Klist.v ===== *)
(** * Intrusive circular lists (src/kernel/lib/list.h)

    The memory of the list nodes is the pair of functions [nxt] and [prv]
    from node addresses to node addresses; each operation performs the
    assignments of the source in the source's order, so that nodes that are
    equal or adjacent alias as they do in C.

    [dlist m h l] says that the list headed by [h] holds the nodes [l] in
    order; the lemmas show that every operation is the list operation its name
    promises, and [untouched] that it leaves other lists alone. *)

From stdpp Require Import functions sets.
From S2P Require Import Prelude.

Section klist.
Context {A : Type} `{EqDecision A}.

Record links := Links { nxt : A -> A; prv : A -> A }.

Definition set_next (m : links) (a b : A) : links := Links (<[a := b]> (nxt m)) (prv m).
Definition set_prev (m : links) (a b : A) : links := Links (nxt m) (<[a := b]> (prv m)).

Definition list_init (m : links) (head : A) : links :=
  let m := set_next m head head in
  set_prev m head head.

Definition list_add (m : links) (head node : A) : links :=
  let m := set_next m node (nxt m head) in
  let m := set_prev m node head in
  let m := set_prev m (nxt m head) node in
  set_next m head node.

Definition list_add_tail (m : links) (head node : A) : links :=
  let m := set_next m node head in
  let m := set_prev m node (prv m head) in
  let m := set_next m (prv m head) node in
  set_prev m head node.

Definition list_del (m : links) (node : A) : links :=
  let m := set_next m (prv m node) (nxt m node) in
  let m := set_prev m (nxt m node) (prv m node) in
  let m := set_next m node node in
  set_prev m node node.

Definition list_empty (m : links) (head : A) : bool := bool_decide (nxt m head = head).

(** [while (pos != head)], [None] when the fuel runs out. *)
Fixpoint count_loop (fuel : nat) (m : links) (head pos : A) : option nat :=
  if decide (pos = head) then Some O
  else match fuel with
       | O => None
       | S fuel => S <$> count_loop fuel m head (nxt m pos)
       end.

Definition list_count (fuel : nat) (m : links) (head : A) : option nat :=
  count_loop fuel m head (nxt m head).

(** ** The list a head denotes *)

Definition link (m : links) (a b : A) : Prop := nxt m a = b /\ prv m b = a.

(** Consecutive nodes are linked both ways. *)
Fixpoint path (m : links) (s : list A) : Prop :=
  match s with
  | a :: (b :: _) as s => link m a b /\ path m s
  | _ => True
  end.

Record dlist (m : links) (h : A) (l : list A) : Prop := {
  dl_path : path m (h :: l ++ [h]);
  dl_nodup : NoDup (h :: l)
}.

(** A node that is in no list points to itself. *)
Definition detached (m : links) (a : A) : Prop := link m a a.

Lemma path_split m s1 a s2 : path m (s1 ++ a :: s2) <-> path m (s1 ++ [a]) /\ path m (a :: s2).
Proof.
  induction s1 as [|x s1 IH]; [cbn; tauto|]. destruct s1 as [|y s1]; cbn [app path] in *; tauto.
Qed.

Lemma path_join m s1 a b s2 :
  path m (s1 ++ a :: b :: s2) <-> path m (s1 ++ [a]) /\ link m a b /\ path m (b :: s2).
Proof. rewrite path_split. cbn [path]. tauto. Qed.

(** A path reads [nxt] of all its nodes but the last, [prv] of all but the first. *)
Lemma path_ext m m' s :
  (forall x, x ∈ removelast s -> nxt m' x = nxt m x) -> (forall x, x ∈ tl s -> prv m' x = prv m x) ->
  path m s -> path m' s.
Proof.
  induction s as [|a [|b s] IH]; intros Hn Hp; [done|done|].
  change (removelast (a :: b :: s)) with (a :: removelast (b :: s)) in Hn. cbn [tl] in *.
  intros [[E1 E2] Hs]. split.
  - split; [rewrite Hn by (by left)|rewrite Hp by (by left)]; done.
  - apply IH; [|intros x Hx; apply Hp; by right|done]. intros x Hx. apply Hn. by right.
Qed.

Lemma snoc_case (h : A) l : exists s a, h :: l = s ++ [a].
Proof. destruct (exists_last (l := h :: l)) as (s & a & ->); [done|]. by exists s, a. Qed.

Lemma cons_case (l : list A) h : exists b s, l ++ [h] = b :: s.
Proof. destruct l as [|b l]; [by exists h, []|by exists b, (l ++ [h])]. Qed.

(** The neighbours of a node of the list. *)
Lemma dlist_neighbours m h l1 n l2 s1 a b s2 :
  dlist m h (l1 ++ n :: l2) -> h :: l1 = s1 ++ [a] -> l2 ++ [h] = b :: s2 ->
  prv m n = a /\ nxt m n = b.
Proof.
  intros [Hp _] E1 E2. rewrite <- app_assoc in Hp. cbn [app] in Hp.
  rewrite E2, app_comm_cons, E1, <- app_assoc in Hp. cbn [app] in Hp.
  apply path_join in Hp as (_ & [_ ?] & [[? _] _]). done.
Qed.

Lemma dlist_prev_head m h l s a : dlist m h l -> h :: l = s ++ [a] -> prv m h = a.
Proof.
  intros [Hp _] E. rewrite app_comm_cons, E, <- app_assoc in Hp. cbn [app] in Hp.
  apply path_join in Hp as (_ & [_ ?] & _). done.
Qed.

Lemma dlist_next_head m h l b s : dlist m h l -> l ++ [h] = b :: s -> nxt m h = b.
Proof. intros [Hp _] E. rewrite E in Hp. apply Hp. Qed.

(** ** The operations *)

Lemma list_init_spec m h : dlist (list_init m h) h [].
Proof.
  split; [|apply NoDup_singleton]. split; [|done].
  split; unfold list_init; cbn [set_next set_prev nxt prv]; apply fn_lookup_insert.
Qed.

Ltac fn_simpl := repeat first
  [ rewrite fn_lookup_insert
  | rewrite fn_lookup_insert_ne by (first [done | congruence]) ].

Lemma list_add_tail_spec m h l n :
  dlist m h l -> n ∉ h :: l -> dlist (list_add_tail m h n) h (l ++ [n]).
Proof.
  intros Hd Hn. destruct (snoc_case h l) as (s & a & E).
  pose proof (dlist_prev_head m h l s a Hd E) as Ha. destruct Hd as [Hp Hnd].
  assert (n <> h) by set_solver. assert (a ∈ h :: l) by (rewrite E; set_solver).
  assert (n <> a) by set_solver. assert (a ∉ s).
  { rewrite E in Hnd. apply NoDup_app in Hnd as (_ & Hnd & _). set_solver. }
  split.
  2: { rewrite app_comm_cons. apply NoDup_app. split; [done|]. split; [set_solver|apply NoDup_singleton]. }
  rewrite app_comm_cons, E, <- app_assoc in Hp. apply path_join in Hp as (Hp1 & _ & _).
  rewrite <- app_assoc, app_comm_cons, E, <- app_assoc. cbn [app]. apply path_join.
  unfold list_add_tail, set_next, set_prev. cbn [nxt prv].
  rewrite (fn_lookup_insert_ne (prv m) n h) by done. rewrite Ha.
  split; [|split].
  - eapply path_ext; [| |exact Hp1]; cbn [nxt prv].
    + intros x. rewrite removelast_last. intros Hx.
      assert (x ∈ h :: l) by (rewrite E; set_solver). assert (x <> n) by set_solver.
      assert (x <> a) by set_solver. by fn_simpl.
    + rewrite <- E. cbn [tl]. intros x Hx. apply NoDup_cons in Hnd as [Hh _].
      assert (x <> h) by set_solver. assert (x <> n) by set_solver. by fn_simpl.
  - split; cbn [nxt prv]; by fn_simpl.
  - split; [|done]. split; cbn [nxt prv]; by fn_simpl.
Qed.

Lemma list_add_spec m h l n :
  dlist m h l -> n ∉ h :: l -> dlist (list_add m h n) h (n :: l).
Proof.
  intros Hd Hn. destruct (cons_case l h) as (b & s & E).
  pose proof (dlist_next_head m h l b s Hd E) as Hb. destruct Hd as [Hp Hnd].
  apply NoDup_cons in Hnd as [Hh Hnd].
  assert (n <> h) by set_solver. assert (b ∈ h :: l).
  { assert (b ∈ l ++ [h]) by (rewrite E; set_solver). set_solver. }
  assert (n <> b) by set_solver.
  assert (b ∉ s) as Hbs.
  { assert (NoDup (l ++ [h])) as Hx by (apply NoDup_app; split; [done|]; split; [set_solver|apply NoDup_singleton]).
    rewrite E in Hx. by apply NoDup_cons in Hx as [? _]. }
  split; [|constructor; [set_solver|constructor; [set_solver|done]]].
  rewrite E in Hp. cbn [app]. rewrite E. destruct Hp as [_ Hp].
  unfold list_add, set_next, set_prev. cbn [nxt prv].
  rewrite !(fn_lookup_insert_ne (nxt m) n h) by done. rewrite Hb.
  split; [|split]; [split; cbn [nxt prv]; by fn_simpl|split; cbn [nxt prv]; by fn_simpl|].
  eapply path_ext; [| |exact Hp]; cbn [nxt prv].
  - rewrite <- E, removelast_last. intros x Hx.
    assert (x <> h) by set_solver. assert (x <> n) by set_solver. by fn_simpl.
  - cbn [tl]. intros x Hx. assert (x ∈ l ++ [h]) by (rewrite E; set_solver).
    assert (x <> b) by set_solver. assert (x <> n) by set_solver. by fn_simpl.
Qed.

Lemma list_del_spec m h l1 n l2 :
  dlist m h (l1 ++ n :: l2) ->
  dlist (list_del m n) h (l1 ++ l2) /\ detached (list_del m n) n.
Proof.
  intros Hd. destruct (snoc_case h l1) as (s1 & a & E1). destruct (cons_case l2 h) as (b & s2 & E2).
  destruct (dlist_neighbours m h l1 n l2 s1 a b s2 Hd E1 E2) as [Ha Hb]. destruct Hd as [Hp Hnd].
  apply NoDup_cons in Hnd as [Hh Hnd].
  apply NoDup_app in Hnd as (Hnd1 & Hdis & Hnd2). apply NoDup_cons in Hnd2 as [Hn2 Hnd2].
  assert (n ∉ h :: l1) as Hn1 by (clear - Hh Hdis; set_solver).
  assert (n ∉ l2 ++ [h]) as Hn2' by (clear - Hh Hn2; set_solver).
  assert (forall x, x ∈ l1 -> x ∉ l2 ++ [h]) as H12 by (clear - Hh Hdis; set_solver).
  assert (forall x, x ∈ l2 -> x ∉ h :: l1) as H21 by (clear - Hh Hdis; set_solver).
  assert (a ∈ h :: l1) as Hain by (rewrite E1; apply elem_of_app; right; by left).
  assert (b ∈ l2 ++ [h]) as Hbin by (rewrite E2; by left).
  assert (n <> a) by (by intros ->). assert (n <> b) by (by intros ->).
  assert (forall x, x ∈ s1 -> x <> a /\ x <> n) as Hs1.
  { intros x Hx. split.
    - intros ->. assert (NoDup (s1 ++ [a])) as Hd by (rewrite <- E1; constructor; [clear - Hh; set_solver|done]).
      apply NoDup_app in Hd as (_ & Hd & _). apply (Hd a Hx). by left.
    - intros ->. apply Hn1. rewrite E1. apply elem_of_app. by left. }
  assert (forall x, x ∈ s2 -> x <> b /\ x <> n) as Hs2.
  { intros x Hx. split.
    - intros ->. assert (NoDup (b :: s2)) as Hd.
      { rewrite <- E2. apply NoDup_app. split; [done|]. split; [clear - Hh; set_solver|apply NoDup_singleton]. }
      by apply NoDup_cons in Hd as [? _].
    - intros ->. apply Hn2'. rewrite E2. by right. }
  rewrite <- app_assoc in Hp. cbn [app] in Hp. rewrite E2, app_comm_cons, E1, <- app_assoc in Hp.
  cbn [app] in Hp. apply path_join in Hp as (Hp1 & _ & Hp2). destruct Hp2 as [_ Hp2].
  unfold list_del, set_next, set_prev. cbn [nxt prv]. rewrite Ha.
  rewrite !(fn_lookup_insert_ne (nxt m) a n), Hb by done.
  split; [split|split; cbn [nxt prv]; by fn_simpl].
  2: { constructor; [clear - Hh; set_solver|]. apply NoDup_app. split; [done|].
       split; [clear - Hdis; set_solver|done]. }
  rewrite <- app_assoc, E2, app_comm_cons, E1, <- app_assoc. cbn [app]. apply path_join.
  split; [|split].
  - eapply path_ext; [| |exact Hp1]; cbn [nxt prv].
    + intros x. rewrite removelast_last. intros [? ?]%Hs1. by fn_simpl.
    + rewrite <- E1. cbn [tl]. intros x Hx. assert (x <> b) by (intros ->; by apply (H12 b)).
      assert (x <> n) by (intros ->; apply Hn1; by right). by fn_simpl.
  - split; cbn [nxt prv]; by fn_simpl.
  - eapply path_ext; [| |exact Hp2]; cbn [nxt prv].
    + rewrite <- E2, removelast_last. intros x Hx. assert (x <> a) by (intros ->; by apply (H21 a)).
      assert (x <> n) by (by intros ->). by fn_simpl.
    + cbn [tl]. intros x [? ?]%Hs2. by fn_simpl.
Qed.

(** Deleting a detached node changes nothing. *)
Lemma list_del_detached m n x :
  detached m n -> nxt (list_del m n) x = nxt m x /\ prv (list_del m n) x = prv m x.
Proof.
  intros [Hn Hp]. unfold list_del, set_next, set_prev. cbn [nxt prv]. rewrite Hn, Hp, fn_lookup_insert.
  destruct (decide (x = n)) as [->|]; fn_simpl; by rewrite ?Hn, ?Hp.
Qed.

Lemma list_empty_spec m h l : dlist m h l -> list_empty m h = bool_decide (l = []).
Proof.
  intros [Hp Hnd]. unfold list_empty. apply bool_decide_ext. destruct l as [|a l].
  - cbn in Hp. destruct Hp as [[? _] _]. done.
  - destruct Hp as [[-> _] _]. apply NoDup_cons in Hnd as [Hh _]. set_solver.
Qed.

Lemma count_loop_spec m h fuel : forall a l,
  path m (a :: l ++ [h]) -> h ∉ l -> (length l <= fuel)%nat ->
  count_loop fuel m h (nxt m a) = Some (length l).
Proof.
  induction fuel as [|fuel IH]; intros a l Hp Hh Hf.
  - destruct l; [|cbn in Hf; lia]. destruct Hp as [[-> _] _]. cbn. by rewrite decide_True.
  - destruct l as [|b l]; destruct Hp as [[-> _] Hp]; cbn [count_loop length].
    + by rewrite decide_True.
    + rewrite decide_False by set_solver. cbn in Hf. rewrite (IH b l Hp); [done|set_solver|lia].
Qed.

(** [list_count] terminates and counts. *)
Lemma list_count_spec m h l fuel :
  dlist m h l -> (length l <= fuel)%nat -> list_count fuel m h = Some (length l).
Proof.
  intros [Hp Hnd] Hf. apply NoDup_cons in Hnd as [Hh _]. by apply count_loop_spec.
Qed.

(** Two memories that agree on the nodes of a list hold the same list. *)
Lemma dlist_ext m m' h l :
  (forall x, x ∈ h :: l -> nxt m' x = nxt m x /\ prv m' x = prv m x) -> dlist m h l -> dlist m' h l.
Proof.
  intros He [Hp Hnd]. split; [|done]. eapply path_ext; [| |exact Hp].
  - intros x Hx. apply He. rewrite app_comm_cons, removelast_last in Hx. done.
  - cbn [tl]. intros x Hx. apply He. set_solver.
Qed.

(** What the operations do not touch. *)
Lemma list_init_frame m n x : x <> n -> nxt (list_init m n) x = nxt m x /\ prv (list_init m n) x = prv m x.
Proof. intros Hx. unfold list_init, set_next, set_prev. cbn [nxt prv]. by rewrite !fn_lookup_insert_ne by done. Qed.

Lemma list_add_tail_frame m h l n x :
  dlist m h l -> x ∉ n :: h :: l ->
  nxt (list_add_tail m h n) x = nxt m x /\ prv (list_add_tail m h n) x = prv m x.
Proof.
  intros Hd Hx. destruct (snoc_case h l) as (s & a & E).
  pose proof (dlist_prev_head m h l s a Hd E) as Ha.
  assert (a ∈ h :: l) by (rewrite E; set_solver).
  assert (x <> n) by set_solver. assert (x <> h) by set_solver. assert (x <> a) by set_solver.
  unfold list_add_tail, set_next, set_prev. cbn [nxt prv].
  destruct (decide (n = h)) as [->|]; [rewrite fn_lookup_insert|rewrite (fn_lookup_insert_ne (prv m) n h) by done];
    rewrite Ha; by fn_simpl.
Qed.

Lemma list_del_frame m h l1 n l2 x :
  dlist m h (l1 ++ n :: l2) -> x ∉ h :: l1 ++ n :: l2 ->
  nxt (list_del m n) x = nxt m x /\ prv (list_del m n) x = prv m x.
Proof.
  intros Hd Hx. destruct (snoc_case h l1) as (s1 & a & E1). destruct (cons_case l2 h) as (b & s2 & E2).
  destruct (dlist_neighbours m h l1 n l2 s1 a b s2 Hd E1 E2) as [Ha Hb].
  assert (a ∈ h :: l1) by (rewrite E1; set_solver). assert (b ∈ l2 ++ [h]) by (rewrite E2; set_solver).
  assert (x <> n) by set_solver. assert (x <> a) by set_solver. assert (x <> b) by set_solver.
  unfold list_del, set_next, set_prev. cbn [nxt prv]. rewrite Ha, Hb.
  destruct (decide (a = n)) as [->|]; [rewrite fn_lookup_insert|rewrite (fn_lookup_insert_ne (nxt m) a n) by done];
    rewrite ?Hb; by fn_simpl.
Qed.

(** A head denotes one list. *)
Lemma path_unique m h : forall l l' a,
  path m (a :: l ++ [h]) -> path m (a :: l' ++ [h]) -> h ∉ l -> h ∉ l' -> l = l'.
Proof.
  induction l as [|b l IH]; intros [|b' l'] a H1 H2 Hl Hl'; [done|..].
  - destruct H1 as [[E1 _] _]. destruct H2 as [[E2 _] _]. set_solver.
  - destruct H1 as [[E1 _] _]. destruct H2 as [[E2 _] _]. set_solver.
  - destruct H1 as [[E1 _] H1]. destruct H2 as [[E2 _] H2]. assert (b' = b) as -> by congruence.
    f_equal. eapply IH; [exact H1|exact H2|set_solver|set_solver].
Qed.

Lemma dlist_unique m h l l' : dlist m h l -> dlist m h l' -> l = l'.
Proof.
  intros [H1 N1] [H2 N2]. apply NoDup_cons in N1 as [? _]. apply NoDup_cons in N2 as [? _].
  by eapply path_unique.
Qed.
End klist.

Arguments links : clear implicits.
