(* ===== verification/Sched.v ===== *)
(** * Processes and the scheduler (src/kernel/proc/process.c, scheduler.c)

    A [process_t *] is the slot of the static array [processes].  The two list
    nodes of a slot and the two list heads are the constructors of [node];
    their links are the memory of Klist.v.  [switches] records the calls of
    the assembly routine [context_switch], newest first.  A failed [ASSERT]
    is [None].  [pml4] is the value of [vmm_get_kernel_pml4()], [now] that of
    [pit_get_ticks()]. *)

From stdpp Require Import functions sets relations.
From S2P Require Import Prelude CLib Errors Sha256 Hmac Cap Pmm Heap Klist.

Inductive proc_state := PROC_READY | PROC_RUNNING | PROC_BLOCKED | PROC_TERMINATED.

#[export] Instance proc_state_eq_dec : EqDecision proc_state.
Proof. solve_decision. Defined.

Definition MAX_PROCESSES : nat := 64.
Definition PROC_STACK_SIZE : Z := 64 * 1024.

Record context := Ctx {
  rsp : Z; rbp : Z; rbx : Z; r12 : Z; r13 : Z; r14 : Z; r15 : Z;
  rflags : Z; rip : Z; cr3 : Z
}.

Definition zero_context : context := Ctx 0 0 0 0 0 0 0 0 0 0.

Record process := Proc {
  p_pid : Z;
  p_name : list Z;              (* char name[64] *)
  p_state : proc_state;
  priority : Z;
  p_context : context;
  page_table : Z;
  stack_base : Z;
  entry_point : Z;
  cap_root : Z
}.

(** [memset(proc, 0, sizeof(process_t))]; the list nodes are handled by the
    links. *)
Definition zero_process : process :=
  Proc 0 (replicate 64 0) PROC_READY 0 zero_context 0 0 0 0.

Inductive node := ReadyHead | AllHead | SchedNode (slot : nat) | AllNode (slot : nat).

#[export] Instance node_eq_dec : EqDecision node.
Proof. solve_decision. Defined.

Record sched := Sched {
  processes : list process;
  next_pid : Z;
  ls : links node;
  current : option nat;
  tick_count : Z;
  scheduler_active : bool;
  tss_rsp0 : Z;
  switches : list (nat * nat)
}.

Definition with_procs (s : sched) (ps : list process) : sched :=
  Sched ps (next_pid s) (ls s) (current s) (tick_count s) (scheduler_active s) (tss_rsp0 s) (switches s).
Definition with_links (s : sched) (m : links node) : sched :=
  Sched (processes s) (next_pid s) m (current s) (tick_count s) (scheduler_active s) (tss_rsp0 s) (switches s).

Definition set_pstate (p : process) (st : proc_state) : process :=
  Proc (p_pid p) (p_name p) st (priority p) (p_context p) (page_table p) (stack_base p) (entry_point p)
    (cap_root p).
Definition set_pid (p : process) (pid : Z) : process :=
  Proc pid (p_name p) (p_state p) (priority p) (p_context p) (page_table p) (stack_base p) (entry_point p)
    (cap_root p).

Definition proc (s : sched) (i : nat) : process := nth i (processes s) zero_process.

(** [proc->state = st] *)
Definition set_state (s : sched) (i : nat) (st : proc_state) : sched :=
  with_procs s (<[i := set_pstate (proc s i) st]> (processes s)).

(** ** The scheduler *)

Definition TIMESLICE : Z := 10.

Definition scheduler_init (s : sched) : sched :=
  Sched (processes s) (next_pid s) (list_init (ls s) ReadyHead) None 0 false (tss_rsp0 s) (switches s).

Definition scheduler_add (s : sched) (i : nat) : sched :=
  let s := set_state s i PROC_READY in
  with_links s (list_add_tail (ls s) ReadyHead (SchedNode i)).

Definition scheduler_remove (s : sched) (i : nat) : sched :=
  let m := list_del (ls s) (SchedNode i) in
  with_links s (list_init m (SchedNode i)).

Definition scheduler_get_current (s : sched) : option nat := current s.

(** [list_entry(node, process_t, sched_node)]; only nodes of the ready queue
    are converted. *)
Definition list_entry (n : node) : nat := match n with SchedNode i | AllNode i => i | _ => O end.

Definition schedule (s : sched) : sched :=
  if list_empty (ls s) ReadyHead then s
  else if negb (scheduler_active s) then s
  else
    let prev := current s in
    let next := list_entry (nxt (ls s) ReadyHead) in
    if bool_decide (prev = Some next) then s
    else
      let s :=
        match prev with
        | Some p =>
            if bool_decide (p_state (proc s p) = PROC_RUNNING) then
              let s := set_state s p PROC_READY in
              let s := with_links s (list_del (ls s) (SchedNode p)) in
              with_links s (list_add_tail (ls s) ReadyHead (SchedNode p))
            else s
        | None => s
        end in
      let s := with_links s (list_del (ls s) (SchedNode next)) in
      let s := with_links s (list_add_tail (ls s) ReadyHead (SchedNode next)) in
      let s := set_state s next PROC_RUNNING in
      Sched (processes s) (next_pid s) (ls s) (Some next) (tick_count s) (scheduler_active s)
        (u64 (stack_base (proc s next) + PROC_STACK_SIZE))
        (match prev with Some p => (p, next) :: switches s | None => switches s end).

Definition scheduler_tick (s : sched) : sched :=
  let s := Sched (processes s) (next_pid s) (ls s) (current s) (u64 (tick_count s + 1))
             (scheduler_active s) (tss_rsp0 s) (switches s) in
  if negb (scheduler_active s) then s
  else if tick_count s mod TIMESLICE =? 0 then schedule s
  else s.

Definition scheduler_yield (s : sched) : sched := schedule s.

Definition scheduler_block (s : sched) (i : nat) : sched :=
  let s := set_state s i PROC_BLOCKED in
  let s := scheduler_remove s i in
  if bool_decide (Some i = current s) then schedule s else s.

Definition scheduler_unblock (s : sched) (i : nat) : sched :=
  let s := set_state s i PROC_READY in
  scheduler_add s i.

(** Up to the jump to the entry point, which never returns; the second result
    is the address jumped to. *)
Definition scheduler_start (s : sched) : option (sched * Z) :=
  if list_empty (ls s) ReadyHead then None
  else
    let first := list_entry (nxt (ls s) ReadyHead) in
    let s := set_state s first PROC_RUNNING in
    Some (Sched (processes s) (next_pid s) (ls s) (Some first) (tick_count s) true
            (u64 (stack_base (proc s first) + PROC_STACK_SIZE)) (switches s),
          entry_point (proc s first)).

(** ** Processes *)

Definition process_init (s : sched) : sched :=
  Sched (replicate MAX_PROCESSES zero_process) 1 (list_init (ls s) AllHead) (current s) (tick_count s)
    (scheduler_active s) (tss_rsp0 s) (switches s).

(** The first slot with pid [pid]. *)
Fixpoint find_pid (ps : list process) (pid : Z) (i : nat) : option nat :=
  match ps with
  | [] => None
  | p :: ps => if p_pid p =? pid then Some i else find_pid ps pid (S i)
  end.

Definition process_get_by_pid (s : sched) (pid : Z) : option nat := find_pid (processes s) pid 0.

Definition process_get_current (s : sched) : option nat := scheduler_get_current s.

(** A started machine: scheduler, heap and capabilities. *)
Record machine := Machine { m_sched : sched; m_heap : heap_state; m_caps : cap_state }.

(** The second result is the slot, [None] the null pointer. *)
Definition process_create (pml4 now : Z) (k : machine) (name : list Z) (entry : Z)
    : option (machine * option nat) :=
  let s := m_sched k in
  match find_pid (processes s) 0 0 with
  | None => Some (k, None)
  | Some i =>
      let pid := next_pid s in
      let '(h, stack) := kmalloc (m_heap k) PROC_STACK_SIZE in
      match stack with
      | None => None                    (* ASSERT(proc->stack_base != 0) *)
      | Some stack =>
          let stack_top := u64 (stack + PROC_STACK_SIZE) in
          let ctx := Ctx (u64 (stack_top - 8)) stack_top 0 0 0 0 0 0x202 entry pml4 in
          let '(caps, cap) := cap_create now (m_caps k) pid CAP_OBJ_PROCESS pid CAP_ALL 0 in
          let caps := fst (cap_table_insert caps cap) in
          let p := Proc pid (strncpy (replicate 64 0) name 63) PROC_READY 1 ctx 0 stack entry
                     (cap_id cap) in
          let m := list_init (ls s) (SchedNode i) in
          let m := list_init m (AllNode i) in
          let m := list_add_tail m AllHead (AllNode i) in
          Some (Machine (Sched (<[i := p]> (processes s)) (u64 (next_pid s + 1)) m (current s)
                           (tick_count s) (scheduler_active s) (tss_rsp0 s) (switches s)) h caps,
                Some i)
      end
  end.

(** [None]: [kfree] failed an assertion. *)
Definition process_exit (k : machine) (i : nat) : option machine :=
  let s := set_state (m_sched k) i PROC_TERMINATED in
  let s := scheduler_remove s i in
  let s := with_links s (list_del (ls s) (AllNode i)) in
  let stack := stack_base (proc s i) in
  match (if stack =? 0 then Some (m_heap k) else kfree (m_heap k) (Some stack)) with
  | None => None
  | Some h => Some (Machine (with_procs s (<[i := set_pid (proc s i) 0]> (processes s))) h (m_caps k))
  end.

(** ** The ready queue as a list of slots *)

Record queue_is (s : sched) (q : list nat) : Prop := {
  qi_list : dlist (ls s) ReadyHead (map SchedNode q);
  qi_slots : Forall (fun i => i < length (processes s))%nat q
}.

Lemma SchedNode_inj : Inj (=) (=) SchedNode.
Proof. by intros i j [=]. Qed.

Lemma elem_SchedNode i q : SchedNode i ∈ ReadyHead :: map SchedNode q <-> i ∈ q.
Proof.
  rewrite elem_of_cons, list_elem_of_fmap. split.
  - intros [?|(j & [= ->] & ?)]; done.
  - intros ?. right. by exists i.
Qed.

Lemma queue_nodup s q : queue_is s q -> NoDup q.
Proof. intros [[_ Hn] _]. apply NoDup_cons in Hn as [_ Hn]. by eapply (NoDup_fmap_1 SchedNode). Qed.

Lemma queue_empty s q : queue_is s q -> list_empty (ls s) ReadyHead = bool_decide (q = []).
Proof.
  intros [Hd _]. rewrite (list_empty_spec _ _ _ Hd). apply bool_decide_ext. by destruct q.
Qed.

Lemma queue_first s i q : queue_is s (i :: q) -> list_entry (nxt (ls s) ReadyHead) = i.
Proof. intros [[[[-> _] _] _] _]. done. Qed.

Lemma queue_ext s s' q :
  ls s' = ls s -> length (processes s') = length (processes s) -> queue_is s q -> queue_is s' q.
Proof. intros El Ep [H1 H2]. split; [by rewrite El|by rewrite Ep]. Qed.

Lemma length_set_state s i st : length (processes (set_state s i st)) = length (processes s).
Proof. apply length_insert. Qed.

Lemma queue_add s q i :
  queue_is s q -> i ∉ q -> (i < length (processes s))%nat ->
  queue_is (with_links s (list_add_tail (ls s) ReadyHead (SchedNode i))) (q ++ [i]).
Proof.
  intros [Hd Hq] Hi Hl. split; cbn [ls with_links processes].
  - rewrite map_app. apply list_add_tail_spec; [done|]. by rewrite elem_SchedNode.
  - apply Forall_app; split; [done|]. by constructor.
Qed.

Lemma queue_del s q1 i q2 :
  queue_is s (q1 ++ i :: q2) -> queue_is (with_links s (list_del (ls s) (SchedNode i))) (q1 ++ q2).
Proof.
  intros [Hd Hq]. split; cbn [ls with_links processes].
  - rewrite map_app in *. by apply list_del_spec.
  - apply Forall_app in Hq as [? Hq]. apply Forall_cons in Hq as [_ ?]. by apply Forall_app.
Qed.

(** Moving a queued process to the back. *)
Lemma queue_requeue s q1 i q2 :
  queue_is s (q1 ++ i :: q2) ->
  queue_is (with_links (with_links s (list_del (ls s) (SchedNode i)))
              (list_add_tail (list_del (ls s) (SchedNode i)) ReadyHead (SchedNode i))) ((q1 ++ q2) ++ [i]).
Proof.
  intros Hq. pose proof (queue_nodup _ _ Hq) as Hn. pose proof (qi_slots _ _ Hq) as Hs.
  apply (queue_add (with_links s (list_del (ls s) (SchedNode i)))).
  - by apply queue_del.
  - apply NoDup_app in Hn as (_ & H1 & Hn). apply NoDup_cons in Hn as [H2 _]. rewrite elem_of_app.
    intros [?|?]; [|done]. by eapply H1; [|left].
  - apply Forall_app in Hs as [_ Hs]. by apply Forall_cons in Hs as [? _].
Qed.

Lemma proc_set_state s i st j :
  (i < length (processes s))%nat ->
  proc (set_state s i st) j = if decide (i = j) then set_pstate (proc s i) st else proc s j.
Proof.
  intros Hi. unfold proc, set_state, with_procs. cbn [processes].
  rewrite (nth_lookup (<[i:=_]> _)). destruct (decide (i = j)) as [->|].
  - by rewrite list_lookup_insert_eq.
  - rewrite list_lookup_insert_ne by done. by rewrite nth_lookup.
Qed.

(** ** Round robin *)

(** The running process is the last of the queue. *)
Record rotating (s : sched) (q : list nat) (c : nat) : Prop := {
  ro_queue : queue_is s (q ++ [c]);
  ro_active : scheduler_active s = true;
  ro_current : current s = Some c;
  ro_running : p_state (proc s c) = PROC_RUNNING
}.

Lemma schedule_rotates s i q c :
  rotating s (i :: q) c -> rotating (schedule s) (q ++ [c]) i.
Proof.
  intros [Hq Ha Hc Hr]. unfold schedule. rewrite (queue_empty _ _ Hq), Ha, Hc. cbn [negb app] in *.
  rewrite bool_decide_eq_false_2 by done. rewrite (queue_first _ _ _ Hq).
  pose proof (queue_nodup _ _ Hq) as Hn. apply NoDup_cons in Hn as [Hi _].
  assert (c <> i) as Hci by set_solver. rewrite bool_decide_eq_false_2 by congruence.
  rewrite bool_decide_eq_true_2 by done.
  pose proof (qi_slots _ _ Hq) as Hs. apply Forall_cons in Hs as [Hil Hs].
  apply Forall_app in Hs as [_ Hs]. apply Forall_cons in Hs as [Hcl _].
  set (s1 := set_state s c PROC_READY).
  assert (queue_is s1 (i :: q ++ [c])) as H1 by (apply (queue_ext s); [done|apply length_set_state|done]).
  pose proof (queue_requeue s1 (i :: q) c [] H1) as H2. rewrite app_nil_r in H2.
  set (s2 := with_links (with_links s1 _) _) in *.
  pose proof (queue_requeue s2 [] i (q ++ [c]) H2) as H3. cbn [app] in H3.
  change (list_add_tail (ls (with_links s1 (list_del (ls s1) (SchedNode c)))) ReadyHead (SchedNode c))
    with (list_add_tail (list_del (ls s1) (SchedNode c)) ReadyHead (SchedNode c)). fold s2.
  set (s3 := with_links (with_links s2 _) _) in H3.
  change (with_links (with_links s2 _) _) with s3.
  assert (length (processes s3) = length (processes s)) as El by apply length_set_state.
  split; cbn [ls processes scheduler_active current]; [|done|done|].
  - refine (queue_ext s3 _ _ _ _ H3); [reflexivity|exact (length_set_state s3 i PROC_RUNNING)].
  - change (p_state (proc (set_state s3 i PROC_RUNNING) i) = PROC_RUNNING).
    rewrite proc_set_state by lia. by rewrite decide_True.
Qed.

Lemma rotate_n s q c k :
  rotating s q c -> (k <= length q)%nat ->
  match k with
  | O => True
  | S j => exists i, q !! j = Some i /\
      rotating (Nat.iter k schedule s) (drop k q ++ c :: take j q) i
  end.
Proof.
  intros Hr. induction k as [|k IH]; intros Hk; [done|].
  destruct k as [|k].
  - destruct q as [|i q]; [cbn in Hk; lia|]. exists i. split; [done|]. cbn.
    by apply schedule_rotates.
  - destruct IH as (i & Hi & Hro); [lia|].
    destruct (lookup_lt_is_Some_2 q (S k)) as [j Hj]; [lia|]. exists j. split; [done|].
    rewrite (drop_S q j (S k)) in Hro by done. cbn [app] in Hro. apply schedule_rotates in Hro.
    change (Nat.iter (S (S k)) schedule s) with (schedule (Nat.iter (S k) schedule s)).
    rewrite (take_S_r q k i) by done. by rewrite <- app_assoc in Hro.
Qed.

(** ** Ticks *)

Definition with_ticks (s : sched) (t : Z) : sched :=
  Sched (processes s) (next_pid s) (ls s) (current s) t (scheduler_active s) (tss_rsp0 s) (switches s).

Lemma schedule_ticks s t : schedule (with_ticks s t) = with_ticks (schedule s) t.
Proof.
  unfold schedule. cbn [with_ticks ls scheduler_active current].
  destruct (list_empty (ls s) ReadyHead); [done|]. destruct (scheduler_active s) eqn:Ea; [|done]. cbn [negb].
  destruct (bool_decide (current s = _)); [done|]. destruct (current s) as [p|]; [|done].
  change (proc (with_ticks s t) p) with (proc s p). by destruct (bool_decide (p_state _ = _)).
Qed.

Lemma with_ticks_twice s t t' : with_ticks (with_ticks s t) t' = with_ticks s t'.
Proof. done. Qed.

Lemma with_ticks_same s : with_ticks s (tick_count s) = s.
Proof. by destruct s. Qed.

(** Until the end of the time slice a tick only counts. *)
Lemma ticks_within s n :
  scheduler_active s = true -> 0 <= tick_count s ->
  Z.of_nat n < TIMESLICE - tick_count s mod TIMESLICE -> tick_count s + Z.of_nat n < 2 ^ 64 ->
  Nat.iter n scheduler_tick s = with_ticks s (tick_count s + Z.of_nat n).
Proof.
  unfold TIMESLICE. intros Ha H0. induction n as [|n IH]; intros Hn Ht.
  - cbn. by rewrite Z.add_0_r, with_ticks_same.
  - cbn [Nat.iter nat_rect]. fold (Nat.iter n scheduler_tick s). rewrite IH by lia.
    unfold scheduler_tick. cbn [with_ticks processes next_pid ls current tick_count scheduler_active tss_rsp0 switches].
    rewrite Ha, wrap_small by (unfold is_word; lia). cbn [negb]. unfold TIMESLICE.
    destruct (Z.eqb_spec ((tick_count s + Z.of_nat n + 1) mod 10) 0); [lia|].
    rewrite <- Ha. unfold with_ticks. f_equal. lia.
Qed.

(** At its end the scheduler runs. *)
Lemma ticks_slice s :
  scheduler_active s = true -> 0 <= tick_count s -> tick_count s + 10 < 2 ^ 64 ->
  let r := TIMESLICE - tick_count s mod TIMESLICE in
  Nat.iter (Z.to_nat r) scheduler_tick s = with_ticks (schedule s) (tick_count s + r).
Proof.
  unfold TIMESLICE. intros Ha H0 Ht. cbn zeta.
  set (r := 10 - tick_count s mod 10). assert (1 <= r <= 10) as Hr by lia.
  replace (Z.to_nat r) with (S (Z.to_nat (r - 1))) by lia.
  cbn [Nat.iter nat_rect]. fold (Nat.iter (Z.to_nat (r - 1)) scheduler_tick s).
  rewrite ticks_within by (first [done | unfold TIMESLICE; lia]).
  unfold scheduler_tick. cbn [with_ticks processes next_pid ls current tick_count scheduler_active tss_rsp0 switches].
  rewrite Ha, wrap_small by (unfold is_word; lia). cbn [negb]. unfold TIMESLICE.
  replace (tick_count s + Z.of_nat (Z.to_nat (r - 1)) + 1) with (tick_count s + r) by lia.
  destruct (Z.eqb_spec ((tick_count s + r) mod 10) 0); [|lia].
  rewrite <- Ha. apply schedule_ticks.
Qed.

Lemma schedule_active s : scheduler_active (schedule s) = scheduler_active s.
Proof.
  unfold schedule. destruct (list_empty _ _); [done|]. destruct (scheduler_active s) eqn:E; [|done].
  cbn [negb]. destruct (bool_decide (current s = _)); [done|]. destruct (current s) as [p|]; [|done].
  by destruct (bool_decide (p_state _ = _)).
Qed.

Lemma ticks_slices s j :
  scheduler_active s = true -> 0 <= tick_count s -> tick_count s + 10 * Z.of_nat (S j) < 2 ^ 64 ->
  let r := TIMESLICE - tick_count s mod TIMESLICE in
  Nat.iter (Z.to_nat r + 10 * j) scheduler_tick s =
    with_ticks (Nat.iter (S j) schedule s) (tick_count s + r + 10 * Z.of_nat j).
Proof.
  unfold TIMESLICE. intros Ha H0. cbn zeta. set (r := 10 - tick_count s mod 10).
  assert (1 <= r <= 10) as Hr by lia. induction j as [|j IH]; intros Ht.
  - rewrite Nat.mul_0_r, Nat.add_0_r, Z.add_0_r. apply ticks_slice; [done|done|lia].
  - replace (Z.to_nat r + 10 * S j)%nat with (10 + (Z.to_nat r + 10 * j))%nat by lia.
    rewrite Nat.iter_add, IH by lia.
    set (s' := with_ticks (Nat.iter (S j) schedule s) (tick_count s + r + 10 * Z.of_nat j)).
    assert (scheduler_active s' = true) as Ha'.
    { clear IH Ht. subst s'. cbn [with_ticks scheduler_active]. generalize (S j). intros n.
      induction n as [|n IHn]; [done|]. cbn [Nat.iter nat_rect]. by rewrite schedule_active. }
    assert (tick_count s' = tick_count s + r + 10 * Z.of_nat j) as Et by done.
    assert (tick_count s' mod 10 = 0) as Em by (rewrite Et; subst r; lia).
    pose proof (ticks_slice s' Ha' ltac:(lia) ltac:(lia)) as E. cbn zeta in E. unfold TIMESLICE in E.
    rewrite Em in E. change (Z.to_nat (10 - 0)) with 10%nat in E. rewrite E, Et. subst s'.
    rewrite schedule_ticks, with_ticks_twice. cbn [Nat.iter nat_rect]. f_equal. lia.
Qed.

(** ** Running machines

    The states between two operations of the scheduler once it is started: the
    queue [q], and a process that has the processor and, while it is marked
    running, stands in the queue. *)
Record scheduled (s : sched) (q : list nat) (c : nat) : Prop := {
  sc_queue : queue_is s q;
  sc_active : scheduler_active s = true;
  sc_current : current s = Some c;
  sc_running : p_state (proc s c) = PROC_RUNNING -> c ∈ q
}.

Lemma rotating_scheduled s q c : rotating s q c -> scheduled s (q ++ [c]) c.
Proof. intros [Hq Ha Hc Hr]. constructor; [done..|]. intros _. apply elem_of_app. right. by left. Qed.

(** What a switch does: the first of the queue runs, and stands last. *)
Lemma schedule_switches s h t c : scheduled s (h :: t) c -> c <> h ->
  exists t', rotating (schedule s) t' h /\ t' ≡ₚ t.
Proof.
  intros [Hq Ha Hc Hr] Hch. unfold schedule. rewrite (queue_empty _ _ Hq), Ha, Hc, (queue_first _ _ _ Hq). cbn [negb].
  rewrite !bool_decide_eq_false_2 by congruence.
  pose proof (qi_slots _ _ Hq) as Hs. apply Forall_cons in Hs as [Hil Hs].
  set (s2 := if bool_decide (p_state (proc s c) = PROC_RUNNING) then _ else s).
  assert (exists t', queue_is s2 (h :: t') /\ t' ≡ₚ t /\ scheduler_active s2 = true /\ length (processes s2) = length (processes s)) as (t' & H2 & Hp & Ha2 & El).
  { subst s2. case_bool_decide as Hrun; [|by exists t]. specialize (Hr Hrun). apply elem_of_cons in Hr as [?|Hr]; [done|].
    apply list_elem_of_split in Hr as (t1 & t2 & ->). exists ((t1 ++ t2) ++ [c]).
    assert (queue_is (set_state s c PROC_READY) ((h :: t1) ++ c :: t2)) as H1 by (apply (queue_ext s); [done|apply length_set_state|done]).
    pose proof (queue_requeue _ _ _ _ H1) as H2. split; [exact H2|]. split; [|split; [done|apply length_set_state]].
    rewrite <- app_assoc. apply Permutation_app_head. symmetry. apply Permutation_cons_append. }
  exists t'. split; [|done]. pose proof (queue_requeue s2 [] h t' H2) as H3. cbn [app] in H3.
  set (s3 := with_links (with_links s2 _) _) in H3. change (with_links (with_links s2 _) _) with s3.
  split; cbn [ls processes scheduler_active current]; [|done|done|].
  - refine (queue_ext s3 _ _ _ _ H3); [reflexivity|exact (length_set_state s3 h PROC_RUNNING)].
  - change (p_state (proc (set_state s3 h PROC_RUNNING) h) = PROC_RUNNING).
    rewrite proc_set_state by (change (processes s3) with (processes s2); lia). by rewrite decide_True.
Qed.

Lemma schedule_nop s q c : scheduled s q c -> head q = Some c \/ q = [] -> schedule s = s.
Proof.
  intros [Hq Ha Hc Hr] H. unfold schedule. rewrite (queue_empty _ _ Hq). destruct q as [|h q]; [done|].
  rewrite bool_decide_eq_false_2, Ha, Hc, (queue_first _ _ _ Hq) by done. cbn [negb]. destruct H as [[= ->]|?]; [|done]. by rewrite bool_decide_eq_true_2.
Qed.

Lemma schedule_scheduled s q c : scheduled s q c -> exists q' c', scheduled (schedule s) q' c'.
Proof.
  intros H. destruct q as [|h t]; [rewrite (schedule_nop s [] c); eauto|].
  destruct (decide (c = h)) as [->|Hne]; [rewrite (schedule_nop s (h :: t) h); eauto|].
  destruct (schedule_switches s h t c H Hne) as (t' & Hro & _). eexists _, _. by apply rotating_scheduled.
Qed.

Lemma tick_scheduled s q c : scheduled s q c -> exists q' c', scheduled (scheduler_tick s) q' c'.
Proof.
  intros [Hq Ha Hc Hr]. unfold scheduler_tick. cbn [scheduler_active tick_count]. rewrite Ha. cbn [negb].
  set (s1 := Sched _ _ _ _ _ _ _ _). assert (scheduled s1 q c) as H1 by (constructor; [apply (queue_ext s); done|done..]).
  destruct (_ =? 0); [by eapply schedule_scheduled|eauto].
Qed.

Lemma queue_unlink s q1 i q2 : queue_is s (q1 ++ i :: q2) -> queue_is (scheduler_remove s i) (q1 ++ q2).
Proof.
  intros Hq. pose proof (queue_nodup _ _ Hq) as Hn. destruct (queue_del _ _ _ _ Hq) as [Hd Hs]. unfold scheduler_remove. split; [|exact Hs].
  cbn [ls with_links] in *. eapply dlist_ext; [|exact Hd]. intros x Hx. apply list_init_frame. intros ->. apply elem_SchedNode in Hx.
  apply NoDup_app in Hn as (_ & H1 & Hn). apply NoDup_cons in Hn as [H2 _]. apply elem_of_app in Hx as [?|?]; [|done]. by eapply H1; [|left].
Qed.

Lemma block_scheduled s q1 q2 i c : scheduled s (q1 ++ i :: q2) c -> exists q' c', scheduled (scheduler_block s i) q' c'.
Proof.
  intros [Hq Ha Hc Hr]. unfold scheduler_block. set (s1 := set_state s i PROC_BLOCKED).
  pose proof (qi_slots _ _ Hq) as Hs. apply Forall_app in Hs as [_ Hs]. apply Forall_cons in Hs as [Hi _].
  assert (queue_is s1 (q1 ++ i :: q2)) as H1 by (apply (queue_ext s); [done|apply length_set_state|done]). apply queue_unlink in H1.
  assert (scheduled (scheduler_remove s1 i) (q1 ++ q2) c) as H2.
  { constructor; [done..|]. change (proc (scheduler_remove s1 i) c) with (proc s1 c). unfold s1. rewrite proc_set_state by done.
    destruct (decide (i = c)) as [->|Hne]; [done|]. intros H%Hr. rewrite elem_of_app in *. rewrite elem_of_cons in H. naive_solver. }
  case_bool_decide; [by eapply schedule_scheduled|eauto].
Qed.

Lemma add_scheduled s q c i : scheduled s q c -> i ∉ q -> (i < length (processes s))%nat -> scheduled (scheduler_add s i) (q ++ [i]) c.
Proof.
  intros [Hq Ha Hc Hr] Hi Hl. constructor; [|done|done|].
  - apply (queue_add (set_state s i PROC_READY)); [|done|by rewrite length_set_state]. apply (queue_ext s); [done|apply length_set_state|done].
  - change (proc (scheduler_add s i) c) with (proc (set_state s i PROC_READY) c). rewrite proc_set_state by done.
    destruct (decide (i = c)) as [->|Hne]; [done|]. intros H%Hr. rewrite elem_of_app. by left.
Qed.

(** The operations of the scheduler on a running machine, with what their
    callers guarantee: the queue does not hold what is added or unblocked, and
    holds what is blocked. *)
Inductive sched_step : sched -> sched -> Prop :=
  | sched_tick s : sched_step s (scheduler_tick s)
  | sched_yield s : sched_step s (scheduler_yield s)
  | sched_add s q i : queue_is s q -> i ∉ q -> (i < length (processes s))%nat -> sched_step s (scheduler_add s i)
  | sched_block s q i : queue_is s q -> i ∈ q -> sched_step s (scheduler_block s i)
  | sched_unblock s q i : queue_is s q -> i ∉ q -> (i < length (processes s))%nat -> sched_step s (scheduler_unblock s i).

(** From [scheduler_start] on a queue. *)
Definition sched_reachable (s : sched) : Prop :=
  exists s0 first q s1 entry, queue_is s0 (first :: q) /\ scheduler_start s0 = Some (s1, entry) /\ rtc sched_step s1 s.

Lemma queue_unique s q q' : queue_is s q -> queue_is s q' -> q = q'.
Proof. intros [H _] [H' _]. pose proof SchedNode_inj. apply (inj (fmap SchedNode)). by eapply dlist_unique. Qed.

Lemma step_scheduled s s' q c : sched_step s s' -> scheduled s q c -> exists q' c', scheduled s' q' c'.
Proof.
  intros Hs H. pose proof (sc_queue _ _ _ H) as Hq. destruct Hs as [s|s|s q' i Hq' Hi Hl|s q' i Hq' Hi|s q' i Hq' Hi Hl];
    [by eapply tick_scheduled|by eapply schedule_scheduled|..]; rewrite (queue_unique _ _ _ Hq' Hq) in Hi.
  - eauto using add_scheduled.
  - apply list_elem_of_split in Hi as (q1 & q2 & ->). by eapply block_scheduled.
  - unfold scheduler_unblock. eexists _, _. apply add_scheduled; [|exact Hi|by rewrite length_set_state].
    destruct H as [H1 H2 H3 H4]. constructor; [apply (queue_ext s); [done|apply length_set_state|done]|done|exact H3|].
    rewrite proc_set_state by done. destruct (decide (i = c)) as [->|]; [done|exact H4].
Qed.

Lemma reachable_scheduled s : sched_reachable s -> exists q c, scheduled s q c.
Proof.
  intros (s0 & first & q & s1 & entry & Hq & Hst & Hr).
  assert (exists q c, scheduled s1 q c) as H1.
  { unfold scheduler_start in Hst. rewrite (queue_empty _ _ Hq), bool_decide_eq_false_2, (queue_first _ _ _ Hq) in Hst by done. injection Hst as <- _.
    exists (first :: q), first. constructor; [apply (queue_ext s0); [done|apply length_set_state|done]|done|done|]. intros _. by left. }
  clear Hst Hq. induction Hr as [s1|s1 s2 s Hk Hr IH]; [done|]. apply IH. destruct H1 as (q1 & c1 & H1). by eapply step_scheduled.
Qed.

(** A process that has the processor and stands first keeps it. *)
Lemma head_keeps s q c n : scheduled s (c :: q) c -> scheduled (Nat.iter n scheduler_tick s) (c :: q) c.
Proof.
  intros H. induction n as [|n IH]; [done|]. rewrite Nat.iter_succ. set (s' := Nat.iter n scheduler_tick s) in *. destruct IH as [Hq Ha Hc Hr].
  unfold scheduler_tick. cbn [scheduler_active tick_count]. rewrite Ha. cbn [negb].
  set (s1 := Sched _ _ _ _ _ _ _ _). assert (scheduled s1 (c :: q) c) as H1 by (constructor; [apply (queue_ext s'); done|done..]).
  destruct (_ =? 0); [|done]. by rewrite (schedule_nop s1 (c :: q) c) by auto.
Qed.

(** C22: when round robin is fair.  In every state reached from [scheduler_start]
    by ticks, yields, and adding, blocking and unblocking processes, let [h] be
    the first process of the ready queue.  If another process has the processor,
    every process of the queue gets it within one time slice (10 ticks) per
    process of the queue, as long as the tick counter does not wrap; if [h] itself has it, no number of ticks takes it
    away, whatever else waits.  [scheduler_start] leaves the process it starts
    in that second situation ([first_process_never_preempted]); blocking it is
    what makes the others run. *)
Theorem round_robin_live (s : sched) (h : nat) (q : list nat) :
  sched_reachable s -> queue_is s (h :: q) ->
  (current s <> Some h -> 0 <= tick_count s -> tick_count s + 10 * Z.of_nat (S (length q)) < 2 ^ 64 ->
   forall i, i ∈ h :: q -> exists k, (k <= 10 * length (h :: q))%nat /\ current (Nat.iter k scheduler_tick s) = Some i) /\
  (current s = Some h -> forall k, current (Nat.iter k scheduler_tick s) = Some h).
Proof.
  intros (q' & c & Hs)%reachable_scheduled Hq. rewrite (queue_unique _ _ _ (sc_queue _ _ _ Hs) Hq) in Hs. pose proof (sc_current _ _ _ Hs) as Hc. split.
  - intros Hne H0 Ht i Hi. pose proof (sc_active _ _ _ Hs) as Ha.
    destruct (schedule_switches s h q c Hs) as (t & Hro & Hp); [congruence|]. apply Permutation_length in Hp as El.
    assert (exists j, (j <= length t)%nat /\ current (Nat.iter (S j) schedule s) = Some i) as (j & Hj & Hcur).
    { apply elem_of_cons in Hi as [->|Hi]; [exists O; split; [lia|apply Hro]|]. rewrite <- Hp in Hi.
      apply list_elem_of_lookup in Hi as [j Hj]. pose proof (lookup_lt_Some _ _ _ Hj) as Hlt. exists (S j). split; [lia|].
      destruct (rotate_n (schedule s) t h (S j) Hro ltac:(lia)) as (i' & Hj' & Hro'). rewrite Nat.iter_succ_r, (ro_current _ _ _ Hro'). congruence. }
    exists (Z.to_nat (TIMESLICE - tick_count s mod TIMESLICE) + 10 * j)%nat. cbn [length].
    split; [unfold TIMESLICE; lia|]. rewrite ticks_slices by (done || lia). exact Hcur.
  - intros Hh k. assert (c = h) as -> by congruence. apply (sc_current _ (h :: q)). by apply head_keeps.
Qed.

(** ** The first process *)

(** What can happen on a running machine short of blocking or ending a
    process: timer ticks, voluntary yields, and processes becoming ready. *)
Inductive kstep : sched -> sched -> Prop :=
  | step_tick s : kstep s (scheduler_tick s)
  | step_yield s : kstep s (scheduler_yield s)
  | step_add s q i : queue_is s q -> i ∉ q -> (i < length (processes s))%nat -> kstep s (scheduler_add s i).

(** The running process is still the first of the queue. *)
Definition stuck (s : sched) (first : nat) (sw : list (nat * nat)) : Prop :=
  (exists q, queue_is s (first :: q)) /\ current s = Some first /\ switches s = sw.

Lemma schedule_stuck s first sw : stuck s first sw -> schedule s = s.
Proof.
  intros ([q Hq] & Hc & _). unfold schedule. rewrite (queue_empty _ _ Hq), (queue_first _ _ _ Hq), Hc.
  rewrite bool_decide_eq_false_2 by done. destruct (scheduler_active s); [|done]. cbn [negb].
  by rewrite bool_decide_eq_true_2.
Qed.

Lemma kstep_stuck s s' first sw : kstep s s' -> stuck s first sw -> stuck s' first sw.
Proof.
  intros Hs Hst. destruct Hs as [s|s|s q i Hq Hi Hl].
  - unfold scheduler_tick. cbn [scheduler_active tick_count].
    assert (stuck (with_ticks s (u64 (tick_count s + 1))) first sw) as Ht.
    { destruct Hst as ([q Hq] & ? & ?). split; [|done]. exists q. by apply (queue_ext s). }
    unfold with_ticks in Ht. destruct (scheduler_active s); [|done]. cbn [negb].
    destruct (_ =? 0); [|done]. by rewrite (schedule_stuck _ _ _ Ht).
  - unfold scheduler_yield. by rewrite (schedule_stuck _ _ _ Hst).
  - destruct Hst as ([q' Hq'] & Hc & Hw). split; [|done]. exists (q' ++ [i]).
    assert (i ∉ first :: q') as Hi'.
    { intros Hx. apply Hi. apply (elem_SchedNode i). apply (elem_SchedNode i) in Hx.
      assert (map SchedNode q = map SchedNode (first :: q')) as ->; [|done].
      eapply dlist_unique; [apply Hq|apply Hq']. }
    change (first :: q' ++ [i]) with ((first :: q') ++ [i]).
    apply (queue_add (set_state s i PROC_READY)); [|done|by rewrite length_set_state].
    apply (queue_ext s); [done|apply length_set_state|done].
Qed.

(** The first process is never preempted.  [scheduler_start] leaves the
    process it starts at the head of the ready queue, where [schedule] finds
    it again: as long as it neither blocks nor ends, no sequence of timer
    ticks, yields and newly ready processes ever switches to another
    process. *)
Theorem first_process_never_preempted (s s0 s' : sched) (first : nat) (q : list nat) (entry : Z) :
  queue_is s (first :: q) -> scheduler_start s = Some (s0, entry) -> rtc kstep s0 s' ->
  current s' = Some first /\ switches s' = switches s0.
Proof.
  intros Hq Hs Hr.
  assert (stuck s0 first (switches s0)) as Hst.
  { unfold scheduler_start in Hs. rewrite (queue_empty _ _ Hq), bool_decide_eq_false_2 in Hs by done.
    rewrite (queue_first _ _ _ Hq) in Hs. injection Hs as <- _. split; [|done]. exists q.
    apply (queue_ext s); [done|apply length_set_state|done]. }
  clear Hs Hq. induction Hr as [s0|s0 s1 s' Hk Hr IH]; [apply Hst|].
  pose proof (kstep_stuck _ _ _ _ Hk Hst) as Hst1. destruct Hst1 as (Hx & Hy & Hz).
  destruct IH as [H1 H2]; [split; [done|]; split; done|]. split; [done|]. congruence.
Qed.

(** ** Processes and their lists *)

(** The intrusive lists behave as sequences.  On a head [h] that denotes
    the list [l]: adding a new node at the front or at the back gives
    [n :: l] and [l ++ [n]]; deleting a member removes exactly it and leaves
    it detached, so that a second deletion changes no link; [list_empty] and
    [list_count] (with enough fuel) answer for [l]; links outside are not
    touched. *)
Theorem klist_refines (m : links node) (h n : node) (l l1 l2 : list node) :
  dlist m h l -> n ∉ h :: l ->
  dlist (list_add m h n) h (n :: l) /\
  dlist (list_add_tail m h n) h (l ++ [n]) /\
  list_empty m h = bool_decide (l = []) /\
  list_count (length l) m h = Some (length l) /\
  (forall x, x ∉ n :: h :: l -> nxt (list_add_tail m h n) x = nxt m x) /\
  (forall k, l = l1 ++ k :: l2 ->
     dlist (list_del m k) h (l1 ++ l2) /\
     forall x, nxt (list_del (list_del m k) k) x = nxt (list_del m k) x).
Proof.
  intros Hd Hn. split; [by apply list_add_spec|]. split; [by apply list_add_tail_spec|].
  split; [by apply list_empty_spec|]. split; [by apply list_count_spec|]. split.
  - intros x Hx. by apply (list_add_tail_frame m h l n).
  - intros k ->. destruct (list_del_spec m h l1 k l2 Hd) as [H1 H2]. split; [done|].
    intros x. exact (proj1 (list_del_detached (list_del m k) k x H2)).
Qed.

(** A machine with two processes, 0 and 1. *)
Definition demo_links : links node := list_init (Links (fun n => n) (fun n => n)) ReadyHead.
Definition demo_sched : sched :=
  let p := Proc 1 (replicate 64 0) PROC_READY 1 zero_context 0 4096 1000 1 in
  let s := Sched (replicate 2 p) 3 demo_links None 0 false 0 [] in
  scheduler_add (scheduler_add s 0) 1.

Lemma demo_queue : queue_is demo_sched [0; 1]%nat.
Proof.
  split; [|by repeat constructor; vm_compute].
  apply (list_add_tail_spec _ ReadyHead [SchedNode 0] (SchedNode 1)); [|set_solver].
  apply (list_add_tail_spec _ ReadyHead [] (SchedNode 0)); [|set_solver].
  apply list_init_spec.
Qed.

Lemma klist_refines_witness :
  dlist demo_links ReadyHead [] /\
  dlist (list_add demo_links ReadyHead (SchedNode 4)) ReadyHead [SchedNode 4].
Proof.
  split; [apply list_init_spec|].
  apply (klist_refines demo_links ReadyHead (SchedNode 4) [] [] []); [apply list_init_spec|set_solver].
Defined.

(** Processes 0, 1 and 2 are started; process 0 blocks and comes back: process
    1 runs while 2 and 0 wait. *)
Definition demo_running : sched :=
  let p := Proc 1 (replicate 64 0) PROC_READY 1 zero_context 0 4096 1000 1 in
  let s := Sched (replicate 3 p) 4 demo_links None 7 false 0 [] in
  let s := scheduler_add (scheduler_add (scheduler_add s 0) 1) 2 in
  let s := match scheduler_start s with Some (s, _) => s | None => s end in
  scheduler_unblock (scheduler_block s 0) 0.

Lemma demo_running_reachable : sched_reachable demo_running /\ queue_is demo_running [2; 1; 0]%nat.
Proof.
  set (s0 := scheduler_add (scheduler_add (scheduler_add (Sched (replicate 3 (Proc 1 (replicate 64 0) PROC_READY 1 zero_context 0 4096 1000 1)) 4 demo_links None 7 false 0 []) 0) 1) 2).
  assert (queue_is s0 [0; 1; 2]%nat) as H0.
  { split; [|by repeat constructor; vm_compute]. apply (list_add_tail_spec _ ReadyHead [SchedNode 0; SchedNode 1] (SchedNode 2)); [|set_solver].
    apply (list_add_tail_spec _ ReadyHead [SchedNode 0] (SchedNode 1)); [|set_solver].
    apply (list_add_tail_spec _ ReadyHead [] (SchedNode 0)); [apply list_init_spec|set_solver]. }
  destruct (scheduler_start s0) as [[s1 e]|] eqn:E1; [|discriminate E1]. injection E1 as E1 Ee.
  assert (scheduled s1 [0; 1; 2]%nat 0) as H1.
  { rewrite <- E1. constructor; [apply (queue_ext s0); [done|reflexivity|done]|done|done|intros _; by left]. }
  assert (demo_running = scheduler_unblock (scheduler_block s1 0) 0) as -> by (by rewrite <- E1).
  assert (scheduler_block s1 0 = schedule (scheduler_remove (set_state s1 0 PROC_BLOCKED) 0)) as Eb.
  { unfold scheduler_block. by rewrite bool_decide_eq_true_2 by (by rewrite <- E1). }
  assert (queue_is (scheduler_block s1 0) [2; 1]%nat) as H2.
  { rewrite Eb. assert (scheduled (scheduler_remove (set_state s1 0 PROC_BLOCKED) 0) [1; 2]%nat 0) as Hr.
    { constructor; [apply (queue_unlink _ [] 0 [1; 2]%nat), (queue_ext s1); [done|apply length_set_state|apply H1]|apply H1|apply H1|by rewrite <- E1]. }
    destruct (schedule_switches _ 1 [2%nat] 0 Hr) as (t & [Hq _ _ _] & Hp); [done|]. apply Permutation_singleton_r in Hp as ->. exact Hq. }
  split.
  - exists s0, 0%nat, [1; 2]%nat, s1, e. split; [done|]. split; [by rewrite <- E1, <- Ee|].
    eapply rtc_l; [apply (sched_block s1 [0; 1; 2]%nat 0); [apply H1|by left]|]. apply rtc_once.
    apply (sched_unblock _ [2; 1]%nat 0); [done|set_solver|]. rewrite <- E1. vm_compute. lia.
  - apply (queue_add (set_state (set_state (scheduler_block s1 0) 0 PROC_READY) 0 PROC_READY) [2; 1]%nat 0); [|set_solver|rewrite <- E1; vm_compute; lia].
    apply (queue_ext (scheduler_block s1 0)); [done|by rewrite !length_set_state|done].
Qed.

Lemma round_robin_live_witness :
  current demo_running = Some 1%nat /\
  forall i, i ∈ [2; 1; 0]%nat -> exists k, (k <= 30)%nat /\ current (Nat.iter k scheduler_tick demo_running) = Some i.
Proof.
  split; [reflexivity|]. destruct demo_running_reachable as [Hr Hq].
  apply (round_robin_live demo_running 2 [1; 0]%nat Hr Hq); [discriminate|vm_compute; discriminate|vm_compute; reflexivity].
Defined.

Lemma first_process_never_preempted_witness :
  exists s0 entry, scheduler_start demo_sched = Some (s0, entry) /\
    current (scheduler_tick (scheduler_yield s0)) = Some 0%nat /\
    switches (scheduler_tick (scheduler_yield s0)) = switches s0.
Proof.
  eexists _, _. split; [reflexivity|].
  eapply (first_process_never_preempted demo_sched _ _ 0 [1%nat]); [apply demo_queue|reflexivity|].
  eapply rtc_l; [apply step_yield|]. eapply rtc_l; [apply step_tick|]. apply rtc_refl.
Defined.

(** A free slot has pid 0, so looking up pid 0 finds one instead of nothing. *)
Example get_by_pid_zero :
  process_get_by_pid (process_init demo_sched) 0 = Some 0%nat.
Proof. reflexivity. Qed.
