(* ===== verification/Arch.v ===== *)
(** * Descriptor tables, interrupt controller and timer (src/kernel/arch/x86_64)

    The entries of the GDT and of the IDT field by field (gdt.c, idt.c), the
    registers and commands of the two interrupt controllers (pic.c), the
    routing of an interrupt through the assembly stubs (isr.asm) to its handler,
    the timer (pit.c) and the
    registers of the SYSCALL instruction (syscall.c).  A port write is an
    update of the controller behind the port, given by its data sheet. *)

From stdpp Require Import gmap.
From S2P Require Import Prelude CLib Errors Klist Sched.

(** ** Segment descriptors (gdt.c) *)

Record gdt_entry := GdtEntry {
  limit_low : Z;
  base_low : Z;
  base_mid : Z;
  gdt_access : Z;
  flags_limit_high : Z;
  base_high : Z
}.

Definition gdt_zero : gdt_entry := GdtEntry 0 0 0 0 0 0.

Definition GDT_KERNEL_CODE : Z := 0x08.
Definition GDT_KERNEL_DATA : Z := 0x10.
Definition GDT_USER_DATA : Z := 0x18.
Definition GDT_USER_CODE : Z := 0x20.
Definition GDT_TSS : Z := 0x28.
Definition GDT_ENTRIES : nat := 7.

(** The assignments of [gdt_set_entry] to one entry. *)
Definition gdt_encode (base limit access flags : Z) : gdt_entry :=
  GdtEntry (Z.land limit 0xFFFF) (Z.land base 0xFFFF) (Z.land (Z.shiftr base 16) 0xFF) access
    (Z.lor (Z.land (Z.shiftr limit 16) 0x0F) (Z.land flags 0xF0)) (Z.land (Z.shiftr base 24) 0xFF).

Definition gdt_set_entry (gdt : list gdt_entry) (index : nat) (base limit access flags : Z) : list gdt_entry :=
  <[index := gdt_encode base limit access flags]> gdt.

(** The first half of the TSS descriptor. *)
Definition tss_low (tss_base tss_limit : Z) : gdt_entry :=
  GdtEntry (Z.land tss_limit 0xFFFF) (u16 (Z.land tss_base 0xFFFF)) (Z.land (Z.shiftr tss_base 16) 0xFF) 0x89
    (Z.land (Z.shiftr tss_limit 16) 0x0F) (Z.land (Z.shiftr tss_base 24) 0xFF).

(** The second half, as the bytes of an entry: [tss_high[0] = base >> 32],
    [tss_high[1] = 0]. *)
Definition tss_high (tss_base : Z) : gdt_entry :=
  let h := u32 (Z.shiftr tss_base 32) in
  GdtEntry (Z.land h 0xFFFF) (Z.shiftr h 16) 0 0 0 0.

(** The task state segment; its address is [tss_base]. *)
Record tss := Tss {
  reserved0 : Z; rsp0 : Z; rsp1 : Z; rsp2 : Z; reserved1 : Z;
  tss_ist : list Z; reserved2 : Z; reserved3 : Z; iomap_base : Z
}.

Definition TSS_SIZE : Z := 104.

(** The variables of gdt.c; [gdtr] is the limit and the base [gdt_load] gets. *)
Record gdt_state := GdtState { gdt : list gdt_entry; kernel_tss : tss; gdtr : Z * Z }.

Definition gdt_init (gdt_addr tss_base : Z) : gdt_state :=
  let gdt := replicate GDT_ENTRIES gdt_zero in
  let gdt := gdt_set_entry gdt 0 0 0 0 0 in
  let gdt := gdt_set_entry gdt 1 0 0xFFFFF 0x9A 0xA0 in
  let gdt := gdt_set_entry gdt 2 0 0xFFFFF 0x92 0xC0 in
  let gdt := gdt_set_entry gdt 3 0 0xFFFFF 0xF2 0xC0 in
  let gdt := gdt_set_entry gdt 4 0 0xFFFFF 0xFA 0xA0 in
  let gdt := <[5%nat := tss_low tss_base (TSS_SIZE - 1)]> gdt in
  let gdt := <[6%nat := tss_high tss_base]> gdt in
  GdtState gdt (Tss 0 0 0 0 0 (replicate 7 0) 0 0 TSS_SIZE) (8 * Z.of_nat GDT_ENTRIES - 1, gdt_addr).

Definition gdt_set_tss_rsp0 (new : Z) (g : gdt_state) : gdt_state :=
  let t := kernel_tss g in
  GdtState (gdt g)
    (Tss (reserved0 t) new (rsp1 t) (rsp2 t) (reserved1 t) (tss_ist t) (reserved2 t) (reserved3 t) (iomap_base t)) (gdtr g).

(** ** What the processor reads in a descriptor *)

Definition seg_base (e : gdt_entry) : Z := base_low e + base_mid e * 2 ^ 16 + base_high e * 2 ^ 24.
Definition seg_limit (e : gdt_entry) : Z := limit_low e + (flags_limit_high e mod 16) * 2 ^ 16.
Definition seg_present (e : gdt_entry) : bool := Z.testbit (gdt_access e) 7.
Definition seg_dpl (e : gdt_entry) : Z := (gdt_access e / 32) mod 4.
Definition seg_code (e : gdt_entry) : bool := Z.testbit (gdt_access e) 4 && Z.testbit (gdt_access e) 3.
Definition seg_data (e : gdt_entry) : bool := Z.testbit (gdt_access e) 4 && negb (Z.testbit (gdt_access e) 3).
Definition seg_long (e : gdt_entry) : bool := Z.testbit (flags_limit_high e) 5.

(** ** Interrupt gates (idt.c) *)

Record idt_entry := IdtEntry {
  offset_low : Z;
  selector : Z;
  ist : Z;
  type_attr : Z;
  offset_mid : Z;
  offset_high : Z;
  reserved : Z
}.

Definition idt_zero : idt_entry := IdtEntry 0 0 0 0 0 0 0.
Definition IDT_ENTRIES : nat := 256.
Definition IDT_INTERRUPT_GATE : Z := 0x8E.

Definition idt_encode (handler ist type_attr : Z) : idt_entry :=
  IdtEntry (Z.land handler 0xFFFF) GDT_KERNEL_CODE (Z.land ist 0x7) type_attr
    (Z.land (Z.shiftr handler 16) 0xFFFF) (Z.land (Z.shiftr handler 32) 0xFFFFFFFF) 0.

Definition idt_set_entry (idt : list idt_entry) (vector : nat) (handler ist type_attr : Z) : list idt_entry :=
  <[vector := idt_encode handler ist type_attr]> idt.

(** The loops of [idt_init] over the vectors; [isr_stubs] are the addresses of
    the assembly stubs. *)
Definition set_vectors (isr_stubs : list Z) (idt : list idt_entry) (vectors : list nat) : list idt_entry :=
  foldl (fun idt i => idt_set_entry idt i (isr_stubs.[i]) 0 IDT_INTERRUPT_GATE) idt vectors.

(** The handlers the drivers register. *)
Inductive irq_handler_t := PitHandler | KeyboardHandler | MouseHandler.

(** The variables of idt.c; [idtr] is the limit and the base [lidt] gets. *)
Record idt_state := IdtState { idt : list idt_entry; idtr : Z * Z; handlers : list (option irq_handler_t) }.

Definition idt_init (idt_addr : Z) (isr_stubs : list Z) : idt_state :=
  let idt := replicate IDT_ENTRIES idt_zero in
  let idt := set_vectors isr_stubs idt (seq 0 32) in
  let idt := set_vectors isr_stubs idt (seq 32 16) in
  IdtState idt (16 * Z.of_nat IDT_ENTRIES - 1, idt_addr) (replicate 16 None).

(** Where the processor goes through a gate. *)
Definition gate_target (e : idt_entry) : Z := offset_low e + offset_mid e * 2 ^ 16 + offset_high e * 2 ^ 32.

(** ** The interrupt controllers (pic.c) *)

Definition PIC1_CMD : Z := 0x20.
Definition PIC1_DATA : Z := 0x21.
Definition PIC2_CMD : Z := 0xA0.
Definition PIC2_DATA : Z := 0xA1.
Definition PIC_EOI : Z := 0x20.

(** The 8259A controller as its data sheet describes it.  A command byte with
    bit 4 set (ICW1) clears the mask and announces the initialisation words
    that follow on the data port: the vector offset (ICW2, its five high bits),
    unless bit 1 says there is one controller only the cascade wiring (ICW3:
    the lines with a second controller on the first one, the line it sits on on
    the second), and, when bit 0 asks for it, the mode (ICW4), which is zero
    otherwise.  Other bytes on the data port are the mask.  Command 0x20 takes
    the interrupt of highest priority, the lowest line number, out of service. *)
Inductive init_word := ICW2 | ICW3 | ICW4.

Record pic := Pic { mask : Z; offset : Z; in_service : Z; icw : list init_word; cascade : Z; mode : Z }.

Definition pic_command (v : Z) (p : pic) : pic :=
  if Z.testbit v 4 then
    Pic 0 (offset p) (in_service p)
      (ICW2 :: (if Z.testbit v 1 then [] else [ICW3]) ++ (if Z.testbit v 0 then [ICW4] else [])) (cascade p) 0
  else if v =? PIC_EOI then Pic (mask p) (offset p) (Z.land (in_service p) (in_service p - 1)) (icw p) (cascade p) (mode p)
  else p.

Definition pic_data (v : Z) (p : pic) : pic :=
  match icw p with
  | ICW2 :: l => Pic (mask p) (Z.land v 0xF8) (in_service p) l (cascade p) (mode p)
  | ICW3 :: l => Pic (mask p) (offset p) (in_service p) l v (mode p)
  | ICW4 :: l => Pic (mask p) (offset p) (in_service p) l (cascade p) v
  | [] => Pic v (offset p) (in_service p) [] (cascade p) (mode p)
  end.

Record pics := Pics { pic1 : pic; pic2 : pic }.

Definition outb (port v : Z) (io : pics) : pics :=
  if port =? PIC1_CMD then Pics (pic_command v (pic1 io)) (pic2 io)
  else if port =? PIC1_DATA then Pics (pic_data v (pic1 io)) (pic2 io)
  else if port =? PIC2_CMD then Pics (pic1 io) (pic_command v (pic2 io))
  else if port =? PIC2_DATA then Pics (pic1 io) (pic_data v (pic2 io))
  else io.

Definition inb (port : Z) (io : pics) : Z := if port =? PIC1_DATA then mask (pic1 io) else mask (pic2 io).

(** [io_wait] writes to an unused port. *)
Definition pic_init (io : pics) : pics :=
  let mask1 := inb PIC1_DATA io in
  let mask2 := inb PIC2_DATA io in
  foldl (fun io pv => outb (fst pv) (snd pv) io) io
    [(PIC1_CMD, 0x11); (PIC2_CMD, 0x11); (PIC1_DATA, 32); (PIC2_DATA, 40); (PIC1_DATA, 0x04); (PIC2_DATA, 0x02);
     (PIC1_DATA, 0x01); (PIC2_DATA, 0x01); (PIC1_DATA, mask1); (PIC2_DATA, mask2)].

Definition pic_send_eoi (irq : Z) (io : pics) : pics :=
  let io := if 8 <=? irq then outb PIC2_CMD PIC_EOI io else io in
  outb PIC1_CMD PIC_EOI io.

Definition pic_mask (irq : Z) (io : pics) : pics :=
  let '(port, irq) := if irq <? 8 then (PIC1_DATA, irq) else (PIC2_DATA, irq - 8) in
  outb port (u8 (Z.lor (inb port io) (Z.shiftl 1 irq))) io.

Definition pic_unmask (irq : Z) (io : pics) : pics :=
  let '(port, irq) := if irq <? 8 then (PIC1_DATA, irq) else (PIC2_DATA, irq - 8) in
  outb port (u8 (Z.land (inb port io) (Z.lnot (Z.shiftl 1 irq)))) io.

Definition pic_disable (io : pics) : pics := outb PIC2_DATA 0xFF (outb PIC1_DATA 0xFF io).

(** A controller delivers a line when it is initialised, in the 8086 mode (bit
    0 of ICW4), the line is not masked and no line of the same or a higher
    priority is in service. *)
Definition accepts (p : pic) (line : Z) : bool :=
  bool_decide (icw p = []) && Z.testbit (mode p) 0 && negb (Z.testbit (mask p) line) && (in_service p mod 2 ^ (line + 1) =? 0).

(** The line is in service until the end of interrupt, unless bit 1 of ICW4
    asks for automatic ends. *)
Definition serve (p : pic) (line : Z) : pic :=
  if Z.testbit (mode p) 1 then p
  else Pic (mask p) (offset p) (Z.lor (in_service p) (Z.shiftl 1 line)) (icw p) (cascade p) (mode p).

(** The vector of line [irq], and the controllers once it is in service.  The
    second controller's output is wired to line 2 of the first, which lets it
    give the vector when its ICW3 marks line 2 and the second's says 2; a
    marked line is not an interrupt of its own. *)
Definition raise (io : pics) (irq : Z) : option (Z * pics) :=
  if irq <? 8 then
    if accepts (pic1 io) irq && negb (Z.testbit (cascade (pic1 io)) irq)
    then Some (offset (pic1 io) + irq, Pics (serve (pic1 io) irq) (pic2 io)) else None
  else
    if accepts (pic1 io) 2 && Z.testbit (cascade (pic1 io)) 2 && (cascade (pic2 io) mod 8 =? 2) && accepts (pic2 io) (irq - 8)
    then Some (offset (pic2 io) + (irq - 8), Pics (serve (pic1 io) 2) (serve (pic2 io) (irq - 8))) else None.

(** ** The stubs (isr.asm)

    The stack is a list of quadwords, its top first.  The registers [isr_common_stub]
    saves are listed in the order it pushes them, [rax] to [r15]. *)

Record cpu := Cpu { gprs : list Z; cpu_rip : Z; cpu_cs : Z; cpu_rflags : Z; cpu_rsp : Z; cpu_ss : Z }.

(** The macro each stub is made with: [ISR_ERR] for the exceptions for which
    the processor pushes an error code. *)
Inductive stub_macro := ISR_NOERR | ISR_ERR.

Definition isr_stub_macros : list stub_macro :=
  [ISR_NOERR; ISR_NOERR; ISR_NOERR; ISR_NOERR; ISR_NOERR; ISR_NOERR; ISR_NOERR; ISR_NOERR;
   ISR_ERR; ISR_NOERR; ISR_ERR; ISR_ERR; ISR_ERR; ISR_ERR; ISR_ERR; ISR_NOERR;
   ISR_NOERR; ISR_ERR; ISR_NOERR; ISR_NOERR; ISR_NOERR; ISR_ERR; ISR_NOERR; ISR_NOERR;
   ISR_NOERR; ISR_NOERR; ISR_NOERR; ISR_NOERR; ISR_NOERR; ISR_ERR; ISR_ERR; ISR_NOERR] ++ replicate 16 ISR_NOERR.

(** [isr_stub_n] *)
Definition isr_stub (n : nat) (stack : list Z) : list Z :=
  match nth n isr_stub_macros ISR_NOERR with
  | ISR_NOERR => Z.of_nat n :: 0 :: stack
  | ISR_ERR => Z.of_nat n :: stack
  end.

(** Until the call of [isr_handler]: the frame its argument points to. *)
Definition isr_common_entry (regs : list Z) (stack : list Z) : list Z := rev regs ++ stack.

(** After the call: the registers popped, and what [iretq] finds. *)
Definition isr_common_exit (stack : list Z) : cpu :=
  let regs := rev (take 15 stack) in
  let stack := drop 2 (drop 15 stack) in
  Cpu regs stack.[0] stack.[1] stack.[2] stack.[3] stack.[4].

(** [frame->vector], after the fifteen registers of [interrupt_frame_t]. *)
Definition frame_vector (frame : list Z) : Z := frame.[15].

(** What the processor pushes for an interrupt or an exception without error
    code. *)
Definition cpu_push (c : cpu) : list Z := [cpu_rip c; cpu_cs c; cpu_rflags c; cpu_rsp c; cpu_ss c].

(** The stub an address belongs to; [stubs] is where the linker put them. *)
Fixpoint stub_at (stubs : list Z) (addr : Z) : option nat :=
  match stubs with
  | [] => None
  | a :: stubs => if a =? addr then Some O else option_map S (stub_at stubs addr)
  end.

(** The frame [isr_handler] gets when the processor takes vector [v] through a
    table of gates: a gate of type 0x8E leads to its target. *)
Definition take_vector (gates : list idt_entry) (stubs : list Z) (c : cpu) (v : Z) : option (list Z) :=
  match gates !! Z.to_nat v with
  | Some g =>
      if (type_attr g =? IDT_INTERRUPT_GATE) && (selector g =? GDT_KERNEL_CODE)
      then option_map (fun n => isr_common_entry (gprs c) (isr_stub n (cpu_push c))) (stub_at stubs (gate_target g))
      else None
  | None => None
  end.

(** ** Routing (idt.c) *)

Definition irq_register_handler (irq_handlers : list (option irq_handler_t)) (irq : Z) (handler : irq_handler_t) :
    list (option irq_handler_t) :=
  if irq <? 16 then <[Z.to_nat irq := Some handler]> irq_handlers else irq_handlers.

(** What an interrupt does: an exception is reported on the console and halts
    the machine; a hardware interrupt calls the handler, if there is one. *)
Inductive interrupt := Halted (vector : Z) | Calls (handler : irq_handler_t) | Nothing.

Definition isr_handler (irq_handlers : list (option irq_handler_t)) (vector : Z) : interrupt :=
  if vector <? 32 then Halted vector
  else if (32 <=? vector) && (vector <? 48) then
    let irq := u8 (vector - 32) in
    match nth (Z.to_nat irq) irq_handlers None with Some h => Calls h | None => Nothing end
  else Nothing.

(** ** The timer (pit.c) *)

Definition PIT_FREQUENCY : Z := 1193182.
Definition PIT_CMD : Z := 0x43.
Definition PIT_CHANNEL0 : Z := 0x40.

(** The variables of pit.c, with the handlers, the controllers and the bytes
    written to the timer's ports. *)
Record timer := Timer {
  pit_ticks : Z;
  pit_hz : Z;
  irq_handlers : list (option irq_handler_t);
  ports : pics;
  pit_writes : list (Z * Z)
}.

(** [None]: the division by a zero frequency. *)
Definition pit_init (target_hz : Z) (t : timer) : option timer :=
  if target_hz =? 0 then None
  else
    let divisor := PIT_FREQUENCY / target_hz in
    Some (Timer (pit_ticks t) target_hz (irq_register_handler (irq_handlers t) 0 PitHandler) (pic_unmask 0 (ports t))
      (pit_writes t ++ [(PIT_CMD, 0x34); (PIT_CHANNEL0, Z.land divisor 0xFF); (PIT_CHANNEL0, Z.land (Z.shiftr divisor 8) 0xFF)])).

(** [pit_handler]: the tick, then the end of interrupt.  When the tick switches
    to another process, what runs next is what that process was suspended in.
    Suspended in an earlier tick, it goes on to the [pic_send_eoi] of that
    tick.  [elsewhere p] holds of a process that was not: one that has never
    run starts at its entry point, and one that gave up the processor returns
    from [scheduler_yield] or [scheduler_block]. *)
Definition pit_handler (elsewhere : nat -> bool) (t : timer) (s : sched) : timer * sched :=
  let s' := scheduler_tick s in
  let resumed_elsewhere :=
    bool_decide (length (switches s') <> length (switches s)) &&
    match current s' with Some p => elsewhere p | None => false end in
  (Timer (u64 (pit_ticks t + 1)) (pit_hz t) (irq_handlers t) (if resumed_elsewhere then ports t else pic_send_eoi 0 (ports t))
     (pit_writes t), s').

Definition pit_get_ticks (t : timer) : Z := pit_ticks t.
Definition pit_get_uptime_ms (t : timer) : Z := u64 (pit_ticks t * 1000) / pit_hz t.

(** ** Encodings *)

(** The four low bits of the flag byte are those of the limit. *)
Lemma flag_byte_low a f : Z.lor (Z.land a 0x0F) (Z.land f 0xF0) mod 16 = a mod 16.
Proof.
  change 16 with (2 ^ 4). rewrite <- !Z.land_ones by lia. rewrite Z.land_lor_distr_l, <- !Z.land_assoc.
  change (Z.land 0xF0 (Z.ones 4)) with 0. change (Z.land 0x0F (Z.ones 4)) with (Z.ones 4). by rewrite Z.land_0_r, Z.lor_0_r.
Qed.

Lemma flag_byte_high a f n : 4 <= n < 8 -> Z.testbit (Z.lor (Z.land a 0x0F) (Z.land f 0xF0)) n = Z.testbit f n.
Proof.
  intros Hn. rewrite Z.lor_spec, !Z.land_spec. assert (n = 4 \/ n = 5 \/ n = 6 \/ n = 7) as [-> | [-> | [-> | ->] ] ] by lia;
    cbn; by rewrite andb_false_r, andb_true_r.
Qed.

Lemma gdt_encode_decode base limit access flags : is_u32 base -> 0 <= limit < 2 ^ 20 ->
  let e := gdt_encode base limit access flags in
  seg_base e = base /\ seg_limit e = limit /\ gdt_access e = access /\ seg_long e = Z.testbit flags 5.
Proof.
  intros Hb Hl. unfold is_word in Hb. unfold gdt_encode, seg_base, seg_limit, seg_long.
  cbn [base_low base_mid base_high limit_low flags_limit_high gdt_access].
  rewrite flag_byte_low, flag_byte_high by lia. rewrite !Z.shiftr_div_pow2 by lia.
  change 0xFFFF with (Z.ones 16). change 0xFF with (Z.ones 8). rewrite !Z.land_ones by lia. split_and!; [lia|lia|done|done].
Qed.

(** ** Interrupts in service *)

Lemma low_bits_zero x l n : 0 <= n <= l -> x mod 2 ^ (l + 1) = 0 -> Z.testbit x n = false.
Proof. intros Hn Hx. rewrite <- (Z.mod_pow2_bits_low x (l + 1) n) by lia. by rewrite Hx, Z.testbit_0_l. Qed.

(** Taking the lowest line out of service. *)
Lemma lor_disjoint x m : Z.land x m = 0 -> Z.lor x m = x + m.
Proof. intros H. pose proof (Z.add_lor_land x m). lia. Qed.

Lemma clear_lowest x l : 0 <= l -> x mod 2 ^ (l + 1) = 0 ->
  let y := Z.lor x (Z.shiftl 1 l) in Z.land y (y - 1) = x.
Proof.
  intros Hl Hx y. assert (y = x + 2 ^ l) as Ey.
  { unfold y. rewrite Z.shiftl_1_l. apply lor_disjoint, Z.bits_inj'. intros n Hn.
    rewrite Z.land_spec, Z.testbit_0_l, Z.pow2_bits_eqb by lia.
    destruct (Z.eqb_spec l n) as [->|]; [|apply andb_false_r]. by rewrite (low_bits_zero x n n) by (done || lia). }
  assert (y - 1 = Z.lor x (Z.ones l)) as ->.
  { rewrite Ey, lor_disjoint; [rewrite Z.ones_equiv; lia|]. apply Z.bits_inj'. intros n Hn. rewrite Z.land_spec, Z.testbit_0_l.
    destruct (decide (n < l)); [by rewrite (low_bits_zero x l n) by (done || lia)|]. rewrite Z.ones_spec_high by lia. apply andb_false_r. }
  unfold y. rewrite Z.shiftl_1_l, <- Z.lor_land_distr_r. replace (Z.land (2 ^ l) (Z.ones l)) with 0; [by rewrite Z.lor_0_r|].
  rewrite Z.land_ones by lia. symmetry. apply Z.mod_same. lia.
Qed.

(** ** System calls (syscall.c) *)

Definition MSR_EFER : Z := 0xC0000080.
Definition MSR_STAR : Z := 0xC0000081.
Definition MSR_LSTAR : Z := 0xC0000082.
Definition MSR_SFMASK : Z := 0xC0000084.
Definition EFER_SCE : Z := Z.shiftl 1 0.

(** The model-specific registers, as a map from their numbers. *)
Definition wrmsr (msr v : Z) (m : gmap Z Z) : gmap Z Z := <[msr := v]> m.
Definition rdmsr (msr : Z) (m : gmap Z Z) : Z := default 0 (m !! msr).

Definition syscall_init (syscall_entry : Z) (m : gmap Z Z) : gmap Z Z :=
  let efer := Z.lor (rdmsr MSR_EFER m) EFER_SCE in
  let m := wrmsr MSR_EFER efer m in
  let star := Z.lor (Z.shiftl 0x10 48) (Z.shiftl GDT_KERNEL_CODE 32) in
  let m := wrmsr MSR_STAR star m in
  let m := wrmsr MSR_LSTAR syscall_entry m in
  wrmsr MSR_SFMASK 0x200 m.

(** The selectors the processor derives from STAR: SYSCALL loads CS from bits
    32 to 47 and SS 8 above it; SYSRET loads CS 16 and SS 8 above bits 48 to
    63, with requested privilege 3. *)
Definition star_field (m : gmap Z Z) (shift : Z) : Z := Z.shiftr (rdmsr MSR_STAR m) shift mod 2 ^ 16.

Definition segment (g : list gdt_entry) (selector : Z) : gdt_entry := nth (Z.to_nat (selector / 8)) g gdt_zero.

(** A flat segment of the whole address space. *)
Definition flat (e : gdt_entry) (dpl : Z) : Prop := seg_base e = 0 /\ seg_limit e = 0xFFFFF /\ seg_present e = true /\ seg_dpl e = dpl.

(** The selectors that SYSCALL and SYSRET derive from STAR. *)
Lemma syscall_init_star entry m : rdmsr MSR_STAR (syscall_init entry m) = 0x0010000800000000.
Proof. unfold syscall_init, rdmsr, wrmsr. by rewrite !lookup_insert_ne, lookup_insert_eq by done. Qed.

(** The segments are what the selectors say.  For every address of the
    task state segment, the table [gdt_init] builds has at the kernel's and
    the user's selectors flat, present code (64-bit) and data segments of
    privilege 0 and 3, at the task selector a present descriptor of exactly
    that 64-bit address and 104 bytes; the register limit covers the table.
    After [syscall_init] the instruction is enabled, enters at the given
    address, and the selectors that SYSCALL and SYSRET derive are the kernel's
    code and data and the user's code and data of this table. *)
Theorem gdt_init_segments (gdt_addr tss_base entry : Z) (msrs : gmap Z Z) :
  is_u64 tss_base ->
  let g := gdt (gdt_init gdt_addr tss_base) in
  let m := syscall_init entry msrs in
  (length g = GDT_ENTRIES /\ gdtr (gdt_init gdt_addr tss_base) = (8 * Z.of_nat (length g) - 1, gdt_addr)) /\
  (flat (segment g GDT_KERNEL_CODE) 0 /\ seg_code (segment g GDT_KERNEL_CODE) = true /\ seg_long (segment g GDT_KERNEL_CODE) = true) /\
  (flat (segment g GDT_KERNEL_DATA) 0 /\ seg_data (segment g GDT_KERNEL_DATA) = true) /\
  (flat (segment g GDT_USER_DATA) 3 /\ seg_data (segment g GDT_USER_DATA) = true) /\
  (flat (segment g GDT_USER_CODE) 3 /\ seg_code (segment g GDT_USER_CODE) = true /\ seg_long (segment g GDT_USER_CODE) = true) /\
  (let low := segment g GDT_TSS in
   let high := segment g (GDT_TSS + 8) in
   seg_base low + (limit_low high + base_low high * 2 ^ 16) * 2 ^ 32 = tss_base /\
   seg_limit low = TSS_SIZE - 1 /\ seg_present low = true) /\
  (Z.testbit (rdmsr MSR_EFER m) 0 = true /\ rdmsr MSR_LSTAR m = entry) /\
  (star_field m 32 = GDT_KERNEL_CODE /\ star_field m 32 + 8 = GDT_KERNEL_DATA /\
   star_field m 48 + 16 = GDT_USER_CODE /\ star_field m 48 + 8 = GDT_USER_DATA).
Proof.
  intros Ht g m. split; [done|]. do 4 (split; [vm_compute; repeat split|]).
  split; [|split; [|unfold star_field, m; rewrite syscall_init_star; vm_compute; repeat split] ].
  - change (segment g GDT_TSS) with (tss_low tss_base (TSS_SIZE - 1)). change (segment g (GDT_TSS + 8)) with (tss_high tss_base).
    split; [|vm_compute; repeat split]. unfold is_word in Ht. unfold tss_low, tss_high, seg_base, wrap.
    cbn [base_low base_mid base_high limit_low]. rewrite !Z.shiftr_div_pow2 by lia.
    change 0xFFFF with (Z.ones 16). change 0xFF with (Z.ones 8). rewrite !Z.land_ones by lia. lia.
  - unfold m, syscall_init, wrmsr. set (efer := Z.lor (rdmsr _ _) _). unfold rdmsr. rewrite !lookup_insert_ne, lookup_insert_eq by done.
    rewrite lookup_insert_ne, lookup_insert_eq by done. split; [|done]. cbn [default from_option].
    unfold id, efer. rewrite Z.lor_spec. apply orb_true_r.
Qed.

Lemma gdt_init_segments_witness :
  let g := gdt (gdt_init 0x1000 0xFFFFFFFF80123456) in
  seg_base (segment g GDT_TSS) + (limit_low (segment g (GDT_TSS + 8)) + base_low (segment g (GDT_TSS + 8)) * 2 ^ 16) * 2 ^ 32
    = 0xFFFFFFFF80123456.
Proof.
  intros g. destruct (gdt_init_segments 0x1000 0xFFFFFFFF80123456 0x2000 ∅) as (_ & _ & _ & _ & _ & (H & _) & _); [unfold is_word; lia|]. exact H.
Defined.

(** ** The path of an interrupt *)

Lemma set_vectors_lookup stubs vs idt (v : nat) : (v < length idt)%nat ->
  set_vectors stubs idt vs !! v = if decide (v ∈ vs) then Some (idt_encode (stubs.[v]) 0 IDT_INTERRUPT_GATE) else idt !! v.
Proof.
  revert idt. induction vs as [|i vs IH]; intros idt Hv; [done|]. cbn [set_vectors foldl].
  fold (set_vectors stubs (idt_set_entry idt i (stubs.[i]) 0 IDT_INTERRUPT_GATE) vs).
  rewrite IH by (unfold idt_set_entry; by rewrite length_insert). unfold idt_set_entry.
  destruct (decide (v ∈ vs)) as [Hi|Hi]; [by rewrite decide_True by by right|].
  destruct (decide (v = i)) as [->|Hne].
  - rewrite list_lookup_insert_eq, decide_True by (done || left). done.
  - rewrite list_lookup_insert_ne, decide_False by (rewrite ?elem_of_cons; naive_solver). done.
Qed.

Lemma length_set_vectors stubs vs idt : length (set_vectors stubs idt vs) = length idt.
Proof.
  revert idt. induction vs as [|i vs IH]; intros idt; [done|]. cbn [set_vectors foldl].
  fold (set_vectors stubs (idt_set_entry idt i (stubs.[i]) 0 IDT_INTERRUPT_GATE) vs). rewrite IH. apply length_insert.
Qed.

Lemma idt_init_lookup idt_addr stubs (v : nat) : (v < 256)%nat ->
  idt (idt_init idt_addr stubs) !! v = Some (if decide (v < 48)%nat then idt_encode (stubs.[v]) 0 IDT_INTERRUPT_GATE else idt_zero).
Proof.
  intros Hv. unfold idt_init. cbn [Arch.idt].
  rewrite set_vectors_lookup by (rewrite length_set_vectors, length_replicate; unfold IDT_ENTRIES; lia).
  rewrite set_vectors_lookup by (rewrite length_replicate; unfold IDT_ENTRIES; lia).
  rewrite lookup_replicate_2 by (unfold IDT_ENTRIES; lia).
  assert (forall a n, v ∈ seq a n <-> (a <= v < a + n)%nat) as Hs by (intros a n; rewrite list_elem_of_In; apply in_seq).
  repeat case_decide; rewrite ?Hs in *; (done || lia).
Qed.

Lemma gate_target_encode h i ty : is_u64 h -> gate_target (idt_encode h i ty) = h.
Proof.
  intros Hh. unfold is_word in Hh. unfold gate_target, idt_encode. cbn [offset_low offset_mid offset_high].
  rewrite !Z.shiftr_div_pow2 by lia. change 0xFFFF with (Z.ones 16). change 0xFFFFFFFF with (Z.ones 32). rewrite !Z.land_ones by lia. lia.
Qed.

(** A controller after [pic_init]: the vectors from [off], in the 8086 mode. *)
Definition ready (m off cas : Z) : pic := Pic m off 0 [] cas 1.

Lemma pic_init_eq io : in_service (pic1 io) = 0 -> in_service (pic2 io) = 0 ->
  pic_init io = Pics (ready (mask (pic1 io)) 32 4) (ready (mask (pic2 io)) 40 2).
Proof. destruct io as [[m1 o1 i1 w1 c1 d1] [m2 o2 i2 w2 c2 d2]]. cbn [in_service pic1 pic2]. by intros -> ->. Qed.

(** The mask register after [pic_unmask]. *)
Definition opened (m l : Z) : Z := u8 (Z.land m (Z.lnot (Z.shiftl 1 l))).

Lemma opened_bit m l n : is_u8 m -> 0 <= l < 8 -> 0 <= n < 8 -> Z.testbit (opened m l) n = Z.testbit m n && negb (n =? l).
Proof.
  intros Hm Hl Hn. unfold opened, wrap. rewrite Z.mod_pow2_bits_low, Z.land_spec, Z.lnot_spec, Z.shiftl_1_l, Z.pow2_bits_eqb by lia.
  by rewrite Z.eqb_sym.
Qed.

Lemma ready_accepts m off cas l : 0 <= l -> Z.testbit m l = false -> accepts (ready m off cas) l = true.
Proof. intros Hl Hm. unfold accepts, ready. cbn [icw mode mask in_service]. rewrite Hm, Z.mod_0_l by lia. done. Qed.

Lemma serve_eoi m off cas l : 0 <= l -> pic_command PIC_EOI (serve (ready m off cas) l) = ready m off cas.
Proof. intros Hl. unfold pic_command, serve, ready. cbn -[Z.lor Z.land Z.shiftl Z.sub]. by rewrite clear_lowest by (done || apply Z.mod_0_l; lia). Qed.

Lemma serve_blocks m off cas l : 0 <= l -> accepts (serve (ready m off cas) l) l = false.
Proof.
  intros Hl. unfold accepts, serve, ready. cbn [mask in_service mode icw Z.testbit Pos.testbit].
  destruct (Z.eqb_spec (Z.lor 0 (Z.shiftl 1 l) mod 2 ^ (l + 1)) 0) as [E|E]; [|apply andb_false_r].
  pose proof (low_bits_zero _ l l ltac:(lia) E) as Hb. rewrite Z.lor_spec, Z.shiftl_1_l, Z.pow2_bits_true, orb_true_r in Hb by lia. done.
Qed.

Lemma stub_at_nth stubs n : NoDup stubs -> (n < length stubs)%nat -> stub_at stubs (stubs.[n]) = Some n.
Proof.
  intros Hd. revert n. induction Hd as [|a stubs Ha Hd IH]; intros n Hn; cbn [length] in Hn; [lia|]. destruct n as [|n]; cbn [stub_at nth]; [by rewrite Z.eqb_refl|].
  assert (stubs.[n] ∈ stubs) as Hin by (apply list_elem_of_In, nth_In; lia).
  destruct (Z.eqb_spec a (stubs.[n])) as [E|E]; [rewrite E in Ha; done|]. by rewrite IH by lia.
Qed.

(** Through the gates of [idt_init], a hardware vector arrives as itself, on
    the frame that returns to what was interrupted. *)
Lemma take_hardware_vector idt_addr stubs c v : 32 <= v < 48 -> length stubs = 48%nat -> Forall is_u64 stubs -> NoDup stubs -> length (gprs c) = 15%nat ->
  exists frame, take_vector (idt (idt_init idt_addr stubs)) stubs c v = Some frame /\ frame_vector frame = v /\ isr_common_exit frame = c.
Proof.
  intros Hv Hl Hs Hd Hg. unfold take_vector. rewrite idt_init_lookup, decide_True by lia.
  rewrite gate_target_encode by (apply Forall_nth; [done|lia]). rewrite stub_at_nth by (done || lia).
  cbn [idt_encode type_attr selector]. rewrite !Z.eqb_refl. cbn [andb option_map]. eexists. split; [done|].
  unfold isr_stub. replace (nth (Z.to_nat v) isr_stub_macros ISR_NOERR) with ISR_NOERR.
  2: { unfold isr_stub_macros. rewrite app_nth2 by (cbn; lia). rewrite nth_lookup, lookup_replicate_2 by (cbn [length]; lia). done. }
  unfold isr_common_entry, frame_vector, isr_common_exit. assert (length (rev (gprs c)) = 15%nat) as Hr by (by rewrite length_rev).
  rewrite app_nth2 by lia. rewrite Hr, Nat.sub_diag, take_app_length', drop_app_length', rev_involutive by done.
  split; [cbn [nth]; lia|]. by destruct c.
Qed.

Lemma registered_handler hs irq h : 0 <= irq < 16 -> length hs = 16%nat -> isr_handler (irq_register_handler hs irq h) (32 + irq) = Calls h.
Proof.
  intros Hi Hh. unfold isr_handler, irq_register_handler. replace (32 + irq <? 32) with false by lia. replace (_ && _) with true by lia.
  replace (irq <? 16) with true by lia. unfold wrap. rewrite Z.mod_small by lia. replace (32 + irq - 32) with irq by lia.
  rewrite nth_lookup, list_lookup_insert_eq by lia. done.
Qed.

(** The controllers after [pic_init] and [pic_unmask irq]. *)
Lemma unmask_eq io irq (m1 := mask (pic1 io)) (m2 := mask (pic2 io)) : in_service (pic1 io) = 0 -> in_service (pic2 io) = 0 ->
  pic_unmask irq (pic_init io) =
    if irq <? 8 then Pics (ready (opened m1 irq) 32 4) (ready m2 40 2) else Pics (ready m1 32 4) (ready (opened m2 (irq - 8)) 40 2).
Proof. intros H1 H2. rewrite pic_init_eq by done. unfold pic_unmask. by destruct (irq <? 8). Qed.



(** ** Findings *)

(** The end of interrupt comes after the switch.  When a tick switches to a
    process that was not suspended inside a tick, such as one that has never
    run, line 0 stays in service, and no line of either controller is
    delivered any more: neither the timer nor the keyboard. *)
Lemma tick_to_other_process_blocks elsewhere t s io v p irq :
  raise io 0 = Some (v, ports t) -> Z.testbit (mode (pic1 io)) 1 = false -> length (switches (scheduler_tick s)) <> length (switches s) ->
  current (scheduler_tick s) = Some p -> elsewhere p = true -> 0 <= irq < 16 ->
  raise (ports (pit_handler elsewhere t s).1) irq = None.
Proof.
  intros Hr Hae Hsw Hc Hf Hi. unfold pit_handler. cbn [fst ports]. rewrite bool_decide_true, Hc, Hf by done. cbn [andb].
  unfold raise in Hr. cbn -[accepts serve cascade] in Hr. destruct (accepts (pic1 io) 0 && _); [|done]. injection Hr as _ <-.
  assert (forall l, 0 <= l -> accepts (serve (pic1 io) 0) l = false) as Hb.
  { intros l Hl. unfold accepts, serve. rewrite Hae. cbn [mask in_service mode icw].
    destruct (Z.eqb_spec (Z.lor (in_service (pic1 io)) (Z.shiftl 1 0) mod 2 ^ (l + 1)) 0) as [E|E]; [|apply andb_false_r].
    pose proof (low_bits_zero _ l 0 ltac:(lia) E) as Hz. rewrite Z.lor_spec in Hz. cbn in Hz. by rewrite orb_true_r in Hz. }
  unfold raise. cbn [pic1 pic2]. destruct (Z.ltb_spec irq 8); [by rewrite Hb by lia|by rewrite (Hb 2) by lia].
Qed.
