(* ===== verification/Printf.v ===== *)
(** * Formatted output (src/kernel/lib/printf.c)

    The formatter calls [put] once per character; [kvprintf_chars] is the list
    of those characters, in order, and [kvprintf] feeds them to [put].  An
    argument of the variadic list is a 64-bit register ([AInt]) or a string
    pointer ([AStr], [None] being the null pointer).  A specifier that does
    not match its argument, a missing argument, and a format that ends inside
    a specifier (the code then steps over the terminator) give [None]. *)

From Stdlib Require Import String.
From S2P Require Import Prelude CLib.

Inductive varg :=
  | AInt (v : Z)
  | AStr (s : option (list Z)).

(** [digits[d]] *)
Definition digit_char (uppercase : bool) (d : Z) : Z :=
  if d <? 10 then 48 + d else if uppercase then 55 + d else 87 + d.

(** [while (num > 0)]: least significant digit first. *)
Fixpoint num_digits (fuel : nat) (num base : Z) (uppercase : bool) : list Z :=
  match fuel with
  | O => []
  | S fuel =>
      if 0 <? num then digit_char uppercase (num mod base) :: num_digits fuel (num / base) base uppercase
      else []
  end.

(** A 64-bit number has at most 64 digits in any base. *)
Definition print_num (num base : Z) (is_signed uppercase : bool) (width : Z) (pad : Z) : list Z :=
  let negative := is_signed && (i64 num <? 0) in
  let num := if negative then u64 (- i64 num) else num in
  let buf := if num =? 0 then [48] else num_digits 64 num base uppercase in
  let total := Z.of_nat (length buf) + (if negative then 1 else 0) in
  let padding := if total <? width then width - total else 0 in
  (if (pad =? 48) && negative then [45] else []) ++
  replicate (Z.to_nat padding) pad ++
  (if negb (pad =? 48) && negative then [45] else []) ++
  rev buf.

(** Two's complement reading of the low 32 bits, as [va_arg(ap, int)]. *)
Definition i32 (x : Z) : Z := (x + 2 ^ 31) mod 2 ^ 32 - 2 ^ 31.

(** [while (isdigit( *fmt))] *)
Fixpoint parse_width (fmt : list Z) (width : Z) : Z * list Z :=
  match fmt with
  | [] => (width, [])
  | c :: rest => if isdigit c then parse_width rest (width * 10 + (c - 48)) else (width, fmt)
  end.

Definition parse_length (fmt : list Z) : Z * list Z :=
  let '(length, fmt) := if chr fmt =? 108 then (1, next fmt) else (0, fmt) in
  if chr fmt =? 108 then (length + 1, next fmt) else (length, fmt).

(** One conversion: the characters and the remaining arguments. *)
Definition convert (spec length width pad : Z) (args : list varg) : option (list Z * list varg) :=
  let unsigned v := if 2 <=? length then v else u32 v in
  match spec with
  | 100 | 105 =>                                  (* d, i *)
      match args with
      | AInt v :: args =>
          let val := if 2 <=? length then v else u64 (i32 v) in
          Some (print_num val 10 true false width pad, args)
      | _ => None
      end
  | 117 =>                                        (* u *)
      match args with
      | AInt v :: args => Some (print_num (unsigned v) 10 false false width pad, args)
      | _ => None
      end
  | 120 =>                                        (* x *)
      match args with
      | AInt v :: args => Some (print_num (unsigned v) 16 false false width pad, args)
      | _ => None
      end
  | 88 =>                                         (* X *)
      match args with
      | AInt v :: args => Some (print_num (unsigned v) 16 false true width pad, args)
      | _ => None
      end
  | 112 =>                                        (* p *)
      match args with
      | AInt v :: args => Some (48 :: 120 :: print_num v 16 false false 16 48, args)
      | _ => None
      end
  | 115 =>                                        (* s *)
      match args with
      | AStr s :: args =>
          let s := match s with Some s => cstr s | None => cs "(null)" end in
          let slen := Z.of_nat (Datatypes.length s) in
          let spad := if slen <? width then width - slen else 0 in
          Some (replicate (Z.to_nat spad) 32 ++ s, args)
      | _ => None
      end
  | 99 =>                                         (* c *)
      match args with
      | AInt v :: args => Some ([u8 v], args)
      | _ => None
      end
  | 37 => Some ([37], args)                       (* %% *)
  | c => Some ([37; c], args)
  end.

(** [while ( *fmt)]: each iteration consumes at least one character. *)
Fixpoint kvprintf_loop (fuel : nat) (fmt : list Z) (args : list varg) : option (list Z) :=
  match fuel with
  | O => None
  | S fuel =>
      if chr fmt =? 0 then Some []
      else if negb (chr fmt =? 37) then cons (chr fmt) <$> kvprintf_loop fuel (next fmt) args
      else
        let fmt := next fmt in
        let '(pad, fmt) := if chr fmt =? 48 then (48, next fmt) else (32, fmt) in
        let '(width, fmt) := parse_width fmt 0 in
        let '(length, fmt) := parse_length fmt in
        if chr fmt =? 0 then None
        else
          match convert (chr fmt) length width pad args with
          | Some (out, args) => app out <$> kvprintf_loop fuel (next fmt) args
          | None => None
          end
  end.

Definition kvprintf_chars (fmt : list Z) (args : list varg) : option (list Z) :=
  kvprintf_loop (S (length fmt)) fmt args.

(** The state of the output device after the call, and the count returned. *)
Definition kvprintf {S} (put : S -> Z -> S) (ctx : S) (fmt : list Z) (args : list varg)
    : option (S * Z) :=
  match kvprintf_chars fmt args with
  | Some out => Some (foldl put ctx out, Z.of_nat (length out))
  | None => None
  end.

(** ** Output to a buffer *)

Record snprintf_ctx := SnCtx { sn_buf : list Z; sn_pos : Z; sn_max : Z }.

(** [max - 1] is computed in [size_t]. *)
Definition snprintf_putchar (s : snprintf_ctx) (c : Z) : snprintf_ctx :=
  SnCtx (if sn_pos s <? u64 (sn_max s - 1) then <[Z.to_nat (sn_pos s) := c]> (sn_buf s) else sn_buf s)
    (u64 (sn_pos s + 1)) (sn_max s).

Definition vsnprintf (buf : list Z) (n : Z) (fmt : list Z) (args : list varg)
    : option (list Z * Z) :=
  match kvprintf snprintf_putchar (SnCtx buf 0 n) fmt args with
  | Some (ctx, ret) =>
      Some (if 0 <? n then <[Z.to_nat (Z.min (sn_pos ctx) (n - 1)) := 0]> (sn_buf ctx) else sn_buf ctx,
            ret)
  | None => None
  end.

Definition snprintf (buf : list Z) (n : Z) (fmt : list Z) (args : list varg)
    : option (list Z * Z) := vsnprintf buf n fmt args.

Example kvprintf_sample :
  kvprintf_chars (cs "pid=%03d [%6s] 0x%llX %u%%") [AInt (2 ^ 64 - 5); AStr (Some (cs "db")); AInt 48879; AInt 7] =
  Some (cs "pid=-05 [    db] 0xBEEF 7%").
Proof. reflexivity. Qed.

(** ** Buffers *)

Lemma snprintf_fold buf n out :
  0 < n <= Z.of_nat (length buf) -> Z.of_nat (length buf) < 2 ^ 63 -> Z.of_nat (length out) < 2 ^ 63 ->
  foldl snprintf_putchar (SnCtx buf 0 n) out =
    SnCtx (blit buf 0 (take (Z.to_nat (n - 1)) out)) (Z.of_nat (length out)) n.
Proof.
  intros Hn Hb. induction out as [|c out IH] using rev_ind; intros Ho.
  - cbn [foldl length]. by rewrite take_nil, blit_nil.
  - rewrite length_app in *. cbn [length] in *. rewrite foldl_app, IH by lia. cbn [foldl].
    unfold snprintf_putchar. cbn [sn_buf sn_pos sn_max]. rewrite !wrap_small by (unfold is_word; lia).
    f_equal; [|lia]. destruct (Z.ltb_spec (Z.of_nat (length out)) (n - 1)).
    + rewrite !take_ge by (rewrite ?length_app; cbn; lia). rewrite Nat2Z.id.
      rewrite insert_blit by (rewrite length_blit; lia).
      apply (blit_blit_next buf out [c] 0). cbn. lia.
    + by rewrite take_app_le by lia.
Qed.

Lemma blit_terminated buf w :
  (length w < length buf)%nat -> <[length w := 0]> (blit buf 0 w) = blit buf 0 (w ++ [0]).
Proof.
  intros H. rewrite insert_blit by (rewrite length_blit; lia).
  apply (blit_blit_next buf w [0] 0). cbn. lia.
Qed.

(** [snprintf] into a buffer of at least [n > 0] cells stores the first
    [n - 1] characters of the formatted text and a terminator, touches no
    other cell, and returns the length of the whole text. *)
Theorem snprintf_bounded (buf : list Z) (n : Z) (fmt : list Z) (args : list varg) (out : list Z) :
  0 < n <= Z.of_nat (length buf) -> Z.of_nat (length buf) < 2 ^ 63 -> Z.of_nat (length out) < 2 ^ 63 ->
  kvprintf_chars fmt args = Some out ->
  snprintf buf n fmt args =
    Some (blit buf 0 (take (Z.to_nat (n - 1)) out ++ [0]), Z.of_nat (length out)).
Proof.
  intros Hn Hb Ho E. unfold snprintf, vsnprintf, kvprintf. rewrite E, snprintf_fold by done.
  cbn [sn_pos sn_buf]. rewrite (proj2 (Z.ltb_lt _ _)) by lia. do 2 f_equal.
  rewrite <- blit_terminated by (rewrite length_take; lia).
  f_equal. rewrite length_take. lia.
Qed.

Lemma snprintf_bounded_witness :
  snprintf (replicate 4 7) 4 (cs "x=%u") [AInt 12] = Some ([120; 61; 49; 0], 4).
Proof.
  rewrite (snprintf_bounded (replicate 4 7) 4 (cs "x=%u") [AInt 12] (cs "x=12"));
    [reflexivity|split; reflexivity || discriminate|reflexivity|reflexivity|reflexivity].
Defined.

(** With [n = 0] the bound [max - 1] wraps and every character is stored. *)
Example snprintf_zero_size : snprintf [7; 7; 7] 0 (cs "ab") [] = Some ([97; 98; 7], 2).
Proof. reflexivity. Qed.

(** ** Numbers *)

Lemma num_digits_dec fuel num :
  0 <= num < 10 ^ Z.of_nat fuel ->
  exists ds, rev (num_digits fuel num 10 false) = dec_chars ds /\ Forall is_digit ds /\
    dec_value ds = num /\ (0 < num -> ds <> []).
Proof.
  revert num. induction fuel as [|fuel IH]; intros num Hn.
  - exists []. split_and!; [done|constructor|cbn in *; lia|cbn in *; lia].
  - rewrite Nat2Z.inj_succ, Z.pow_succ_r in Hn by lia. cbn [num_digits].
    destruct (Z.ltb_spec 0 num).
    2: { exists []. split_and!; [done|constructor|cbn; lia|lia]. }
    destruct (IH (num / 10)) as (ds & E & Hd & Hv & _); [split; [lia|apply Z.div_lt_upper_bound; lia]|].
    exists (ds ++ [num mod 10]). cbn [rev]. rewrite E. unfold dec_chars, dec_value in *.
    rewrite map_app, foldl_app, Hv. cbn [map foldl]. split_and!.
    + f_equal. unfold digit_char. by rewrite (proj2 (Z.ltb_lt _ _)) by lia.
    + apply Forall_app; split; [done|]. constructor; [|done]. unfold is_digit. lia.
    + lia.
    + by destruct ds.
Qed.

Lemma num_digits_length k fuel num base uc :
  2 <= base -> 0 <= num < base ^ Z.of_nat k -> (length (num_digits fuel num base uc) <= k)%nat.
Proof.
  intros Hb. revert k num. induction fuel as [|fuel IH]; intros k num Hn; cbn [num_digits length]; [lia|].
  destruct (Z.ltb_spec 0 num); cbn [length]; [|lia].
  destruct k as [|k]; [cbn in Hn; lia|]. rewrite Nat2Z.inj_succ, Z.pow_succ_r in Hn by lia.
  apply le_n_S, IH. split; [apply Z.div_pos; lia|apply Z.div_lt_upper_bound; lia].
Qed.

(** Printing a 64-bit number in decimal ([%llu], no width) and reading it
    back with [strtou64] gives the number, whatever non-digit follows; and the
    digits of any 64-bit number, in base 10 or 16, fit the 24-byte buffer
    [print_num] collects them in. *)
Theorem print_num_roundtrip (v : Z) (rest : list Z) :
  is_u64 v -> digit_value (chr rest) = None ->
  strtou64 (print_num v 10 false false 0 32 ++ rest) 10 = (v, rest) /\
  forall base uc, 10 <= base -> (length (num_digits 64 v base uc) <= 20)%nat.
Proof.
  intros Hv Hr. split.
  2: { intros base uc Hb. apply num_digits_length; [lia|]. split; [apply Hv|].
       eapply Z.lt_le_trans; [apply Hv|]. transitivity (10 ^ 20); [lia|].
       apply Z.pow_le_mono_l. lia. }
  unfold print_num. cbn [andb]. rewrite andb_false_r.
  set (buf := if v =? 0 then [48] else _).
  assert (exists ds, rev buf = dec_chars ds /\ Forall is_digit ds /\ dec_value ds = v /\ ds <> [])
    as (ds & E & Hd & Hval & Hne).
  { subst buf. destruct (Z.eqb_spec v 0) as [->|].
    - exists [0]. split_and!; [done| |done|done]. repeat constructor; lia.
    - destruct (num_digits_dec 64 v) as (ds & ? & ? & ? & ?); [unfold is_word in Hv; lia|].
      exists ds. split_and!; try done. unfold is_word in Hv. auto with lia. }
  rewrite (proj2 (Z.ltb_ge _ _)) by lia. cbn [Z.to_nat replicate app]. rewrite E.
  change (_ ++ _ ++ dec_chars ds) with (dec_chars ds).
  rewrite strtou64_dec; [|done|done|by rewrite Hr]. by rewrite Hval, wrap_small.
Qed.

Lemma print_num_roundtrip_witness :
  strtou64 (print_num 1234567890123 10 false false 0 32 ++ [41]) 10 = (1234567890123, [41]) /\
  forall base uc, 10 <= base -> (length (num_digits 64 1234567890123 base uc) <= 20)%nat.
Proof. apply (print_num_roundtrip 1234567890123 [41]); [by_compute|reflexivity]. Defined.

(** ** What is put *)

Ltac nonzero := repeat first [apply Forall_nil_2 | apply Forall_cons_2; [lia|]].

Lemma num_digits_nonzero fuel num base uc : 0 < base -> Forall (fun c => c <> 0) (num_digits fuel num base uc).
Proof.
  intros Hb. revert num. induction fuel as [|fuel IH]; intros num; cbn; [constructor|]. destruct (0 <? num); [|constructor].
  constructor; [|apply IH]. pose proof (Z.mod_pos_bound num base Hb). unfold digit_char. destruct (_ <? 10), uc; lia.
Qed.

Lemma print_num_nonzero num base sg uc width pad : 0 < base -> pad <> 0 -> Forall (fun c => c <> 0) (print_num num base sg uc width pad).
Proof.
  intros Hb Hp. unfold print_num. set (neg := sg && _). set (m := if neg then _ else _).
  assert (Forall (fun c => c <> 0) (if m =? 0 then [48] else num_digits 64 m base uc)) as Hd
    by (destruct (m =? 0); [nonzero|by apply num_digits_nonzero]).
  rewrite !Forall_app. split_and!; [destruct (pad =? 48), neg; nonzero|by apply Forall_replicate|destruct (pad =? 48), neg; nonzero|by apply Forall_rev].
Qed.

Lemma convert_nonzero spec len width pad args out rest : spec <> 0 -> spec <> 99 -> pad <> 0 ->
  convert spec len width pad args = Some (out, rest) -> Forall (fun c => c <> 0) out.
Proof.
  intros H0 Hc Hp E.
  assert (forall v b sg uc w p (a : list varg), 0 < b -> p <> 0 -> Some (print_num v b sg uc w p, a) = Some (out, rest) -> Forall (fun c => c <> 0) out) as Hn
    by (intros ?????? ? ?? [= <- _]; by apply print_num_nonzero).
  unfold convert in E. cbv zeta in E.
  destruct (decide (spec = 100)) as [->|N1]; [destruct args as [|[v|s] args]; [done| |done]; by eapply Hn in E|].
  destruct (decide (spec = 105)) as [->|N2]; [destruct args as [|[v|s] args]; [done| |done]; by eapply Hn in E|].
  destruct (decide (spec = 117)) as [->|N3]; [destruct args as [|[v|s] args]; [done| |done]; by eapply Hn in E|].
  destruct (decide (spec = 120)) as [->|N4]; [destruct args as [|[v|s] args]; [done| |done]; by eapply Hn in E|].
  destruct (decide (spec = 88)) as [->|N5]; [destruct args as [|[v|s] args]; [done| |done]; by eapply Hn in E|].
  destruct (decide (spec = 112)) as [->|N6].
  { destruct args as [|[v|s] args]; [done| |done]. injection E as <- _. constructor; [done|]. constructor; [done|]. by apply print_num_nonzero. }
  destruct (decide (spec = 115)) as [->|N7].
  { destruct args as [|[v|s] args]; [done|done|]. injection E as <- _. apply Forall_app_2; [by apply Forall_replicate|].
    destruct s as [s|]; [apply cstr_nonzero|]. apply cstr_nonzero with (s := cs "(null)"). }
  destruct (decide (spec = 37)) as [->|N8]; [injection E as <- _; nonzero|].
  assert (Some ([37; spec], args) = Some (out, rest)) as E'.
  { rewrite <- E. destruct spec as [|p|p]; [done| |done]. do 7 (destruct p as [p|p|]; try done). }
  injection E' as <- _. nonzero.
Qed.

Lemma parse_width_suffix fmt : forall w, exists a, fmt = a ++ (parse_width fmt w).2.
Proof. induction fmt as [|c fmt IH]; intros w; cbn; [by exists []|]. destruct (isdigit c); [|by exists []]. destruct (IH (w * 10 + (c - 48))) as [a E]. exists (c :: a). cbn. by rewrite <- E. Qed.

(** At most 64 digits, a sign and the padding. *)
Lemma print_num_short n b sg uc w pad : (length (print_num n b sg uc w pad) <= 66 + Z.to_nat w)%nat.
Proof.
  assert (forall fuel num, length (num_digits fuel num b uc) <= fuel)%nat as Hd
    by (induction fuel as [|fuel IH]; intros num; cbn; [lia|]; destruct (0 <? num); cbn; [specialize (IH (num / b))|]; lia).
  unfold print_num. set (neg := sg && _). set (m := if neg then _ else _). set (buf := if m =? 0 then _ else _).
  assert (length buf <= 64)%nat as Hb by (unfold buf; destruct (m =? 0); [cbn; lia|apply Hd]).
  rewrite !length_app, length_rev, length_replicate. clearbody buf neg. destruct (pad =? 48), neg, (_ <? w); cbn [andb negb length]; lia.
Qed.

(** A format without a character conversion puts no NUL. *)
Lemma kvprintf_nonzero fmt args out : 99 ∉ fmt -> kvprintf_chars fmt args = Some out -> Forall (fun c => c <> 0) out.
Proof.
  unfold kvprintf_chars. generalize (S (length fmt)) as fuel. intros fuel. revert fmt args out.
  assert (forall fmt : list Z, 99 ∉ fmt -> 99 ∉ next fmt) as Hn by (intros [|c f] H; [done|]; intros Hf; apply H; by right).
  induction fuel as [|fuel IH]; intros fmt args out H99 E; cbn in E; [done|].
  destruct (Z.eqb_spec (chr fmt) 0) as [|H0]; [by injection E as <-; constructor|].
  destruct (Z.eqb_spec (chr fmt) 37) as [H37|H37]; cbn [negb] in E.
  2:{ destruct (kvprintf_loop fuel (next fmt) args) as [o|] eqn:E1; [|done]. injection E as <-. constructor; [done|]. eapply IH; [|exact E1]. by apply Hn. }
  set (pf := if chr (next fmt) =? 48 then _ else _) in E.
  assert (pf.1 <> 0 /\ 99 ∉ pf.2) as [Hpad Hf] by (subst pf; destruct (_ =? 48); split; [done|by apply Hn, Hn|done|by apply Hn]).
  destruct pf as [pad f1]. cbn [fst snd] in *.
  destruct (parse_width_suffix f1 0) as [a Ea]. destruct (parse_width f1 0) as [width f2]. cbn [snd] in Ea.
  assert (99 ∉ f2) as H2 by (intros Hi; apply Hf; rewrite Ea; by apply elem_of_app; right).
  assert (99 ∉ (parse_length f2).2) as H3.
  { unfold parse_length. destruct (chr f2 =? 108); [destruct (chr (next f2) =? 108)|destruct (chr f2 =? 108)]; cbn; auto. }
  destruct (parse_length f2) as [len f3]. cbn [snd] in H3. destruct (Z.eqb_spec (chr f3) 0) as [|H4]; [done|].
  destruct (convert (chr f3) len width pad args) as [[o rest]|] eqn:Ec; [|done].
  destruct (kvprintf_loop fuel (next f3) rest) as [o'|] eqn:E1; [|done]. injection E as <-.
  apply Forall_app. split; [|by eapply IH; [apply Hn|exact E1]].
  apply convert_nonzero in Ec; [done|done| |done]. destruct f3 as [|c f3]; [done|]. cbn. intros ->. apply H3. left.
Qed.

(** The formatter has no flag for left-justified fields: "%-20s" is put as it
    stands and takes no argument, so that the conversions after it take the
    arguments meant for others. *)
Example left_justified_not_converted name n : kvprintf_chars (cs "    %-20s ") [AStr (Some name)] = Some (cs "    %-20s ") /\
  kvprintf_chars (cs "%-20s (%d lines)") [AStr (Some name); AInt n] = None.
Proof. split; reflexivity. Qed.
