(* ===== verification/Query.v ===== *)
(** * The query language (src/kernel/db/query.c)

    The tokenizer, the WHERE clause and the eight statements, on the state of
    the database and of the capability table.

    [input] is the C string; reading at or past its end gives the terminator.
    [tok_value] is the token's text with its terminator: what the array
    [value] holds behind it is never read.  Local arrays the code does not
    initialise start with the unknown cells [stack a i] ([a]: which array,
    [i]: which element).  Calls that allocate are numbered by [q_calls]:
    [mem n] is the allocator's answer to the [n]-th of them and [clock n] the
    value of [pit_get_ticks()].  A write through a null pointer is [Fault]. *)

From Stdlib Require Import String.
From S2P Require Import Prelude CLib Errors Random Sha256 Hmac Aes Record Btree Cap Database Printf.

(** ** Tokenizer *)

Inductive token_type :=
  | TOK_SELECT | TOK_INSERT | TOK_INTO | TOK_DELETE | TOK_UPDATE
  | TOK_FROM | TOK_WHERE | TOK_AND | TOK_SET | TOK_VALUES
  | TOK_SHOW | TOK_TABLES | TOK_DESCRIBE
  | TOK_GRANT | TOK_REVOKE | TOK_ON | TOK_TO
  | TOK_READ | TOK_WRITE | TOK_ALL
  | TOK_STAR | TOK_COMMA | TOK_LPAREN | TOK_RPAREN
  | TOK_EQ | TOK_NEQ | TOK_LT | TOK_GT | TOK_LE | TOK_GE
  | TOK_IDENT | TOK_STRING | TOK_NUMBER
  | TOK_EOF | TOK_ERROR.

#[export] Instance token_type_eq_dec : EqDecision token_type.
Proof. solve_decision. Defined.

Record parser := Parser {
  input : list Z;
  pos : nat;
  tok_type : token_type;
  tok_value : list Z
}.

Definition is_tok (p : parser) (t : token_type) : bool := bool_decide (tok_type p = t).
Definition at_pos (p : parser) : Z := (input p).[pos p].

(** [while (input[pos] && isspace(input[pos])) pos++] *)
Fixpoint skip_ws (fuel : nat) (s : list Z) (i : nat) : nat :=
  match fuel with
  | O => i
  | S fuel => if negb (s.[i] =? 0) && isspace s.[i] then skip_ws fuel s (S i) else i
  end.

Definition skip_whitespace (p : parser) : parser :=
  Parser (input p) (skip_ws (length (input p) - pos p) (input p) (pos p)) (tok_type p) (tok_value p).

Definition keywords : list (string * token_type) := [
  ("SELECT", TOK_SELECT); ("INSERT", TOK_INSERT); ("INTO", TOK_INTO); ("DELETE", TOK_DELETE);
  ("UPDATE", TOK_UPDATE); ("FROM", TOK_FROM); ("WHERE", TOK_WHERE); ("AND", TOK_AND);
  ("SET", TOK_SET); ("VALUES", TOK_VALUES); ("SHOW", TOK_SHOW); ("TABLES", TOK_TABLES);
  ("DESCRIBE", TOK_DESCRIBE); ("GRANT", TOK_GRANT); ("REVOKE", TOK_REVOKE); ("ON", TOK_ON);
  ("TO", TOK_TO); ("READ", TOK_READ); ("WRITE", TOK_WRITE); ("ALL", TOK_ALL)]%string.

Fixpoint keyword_in (ks : list (string * token_type)) (word : list Z) : token_type :=
  match ks with
  | [] => TOK_IDENT
  | (k, t) :: ks => if strcasecmp word (cs k) =? 0 then t else keyword_in ks word
  end.

Definition check_keyword (word : list Z) : token_type := keyword_in keywords word.

(** [while (ok(input[pos]) && i < limit) value[i++] = input[pos++]]: the
    characters taken. *)
Fixpoint take_chars (ok : Z -> bool) (limit : nat) (s : list Z) (i : nat) : list Z :=
  match limit with
  | O => []
  | S limit => if ok s.[i] then s.[i] :: take_chars ok limit s (S i) else []
  end.

Definition ident_char (c : Z) : bool := isalnum c || (c =? 95).
Definition string_char (c : Z) : bool := negb (c =? 0) && negb (c =? 39).

Definition next_token (p : parser) : parser :=
  let p := skip_whitespace p in
  let s := input p in
  let i := pos p in
  let c := s.[i] in
  let tok t n := Parser s (i + n) t (tok_value p) in
  if c =? 0 then tok TOK_EOF 0%nat
  else if c =? 42 then Parser s (i + 1) TOK_STAR [42; 0]
  else if c =? 44 then tok TOK_COMMA 1%nat
  else if c =? 40 then tok TOK_LPAREN 1%nat
  else if c =? 41 then tok TOK_RPAREN 1%nat
  else if c =? 61 then tok TOK_EQ 1%nat
  else if (c =? 33) && (s.[i + 1] =? 61) then tok TOK_NEQ 2%nat
  else if (c =? 60) && (s.[i + 1] =? 61) then tok TOK_LE 2%nat
  else if (c =? 62) && (s.[i + 1] =? 61) then tok TOK_GE 2%nat
  else if c =? 60 then tok TOK_LT 1%nat
  else if c =? 62 then tok TOK_GT 1%nat
  else if c =? 39 then
    let v := take_chars string_char MAX_STR_LEN s (i + 1) in
    let j := (i + 1 + length v)%nat in
    let j := if s.[j] =? 39 then (j + 1)%nat else j in
    Parser s j TOK_STRING (v ++ [0])
  else if isdigit c then
    let v := take_chars isdigit 20 s i in
    Parser s (i + length v) TOK_NUMBER (v ++ [0])
  else if isalpha c || (c =? 95) then
    let v := take_chars ident_char MAX_STR_LEN s i in
    Parser s (i + length v) (check_keyword (v ++ [0])) (v ++ [0])
  else tok TOK_ERROR 1%nat.

Definition expect (p : parser) (t : token_type) : option parser :=
  if negb (is_tok p t) then None else Some (next_token p).

(** ** WHERE clauses *)

Inductive cmp_op := CMP_EQ | CMP_NEQ | CMP_LT | CMP_GT | CMP_LE | CMP_GE | CMP_LIKE.

Record where_cond := Cond { cond_column : list Z; cond_op : cmp_op; cond_value : field_value }.

(** [op] applied to the sign of [a - b]. *)
Definition compare_with (op : cmp_op) (a b : Z) : bool :=
  match op with
  | CMP_EQ => a =? b
  | CMP_NEQ => negb (a =? b)
  | CMP_LT => a <? b
  | CMP_GT => b <? a
  | CMP_LE => a <=? b
  | CMP_GE => b <=? a
  | CMP_LIKE => false
  end.

Definition match_field (f : field_value) (op : cmp_op) (cond_val : field_value) : bool :=
  match f, cond_val with
  | FStr data _, FStr data' _ => compare_with op (strcmp data data') 0
  | FU64 v, FU64 v' => compare_with op v v'
  | FBool v, FBool v' => Bool.eqb v v'
  | FU64 v, FStr data _ =>
      let cv := fst (strtou64 data 10) in
      match op with
      | CMP_EQ => v =? cv
      | CMP_NEQ => negb (v =? cv)
      | _ => false
      end
  | _, _ => false
  end.

Fixpoint find_col (cols : list column_def) (name : list Z) (i : nat) : option nat :=
  match cols with
  | [] => None
  | c :: cols => if strcasecmp (col_name c) name =? 0 then Some i else find_col cols name (S i)
  end.

(** -1 is [None]. *)
Definition find_column_index (sch : table_schema) (name : list Z) : option nat :=
  find_col (columns sch) name 0.

Fixpoint record_matches (rec : record) (sch : table_schema) (conds : list where_cond) : bool :=
  match conds with
  | [] => true
  | c :: conds =>
      match find_column_index sch (cond_column c) with
      | None => false
      | Some i =>
          if negb (match_field (field rec i) (cond_op c) (cond_value c)) then false
          else record_matches rec sch conds
      end
  end.

Definition MAX_WHERE_CONDS : nat := 8.
Definition MAX_INSERT_VALS : nat := 16.

Definition parse_op (p : parser) : parser * cmp_op :=
  match tok_type p with
  | TOK_EQ => (next_token p, CMP_EQ)
  | TOK_NEQ => (next_token p, CMP_NEQ)
  | TOK_LT => (next_token p, CMP_LT)
  | TOK_GT => (next_token p, CMP_GT)
  | TOK_LE => (next_token p, CMP_LE)
  | TOK_GE => (next_token p, CMP_GE)
  | _ => (p, CMP_EQ)
  end.

(** The arrays of uninitialised local cells. *)
Definition A_COND_COLUMN : nat := 0.
Definition A_COND_STR : nat := 1.
Definition A_COL_NAME : nat := 2.
Definition A_SET_STR : nat := 3.

Section query.
Context `{Hw, AesNi}.
Context (mem : nat -> nat -> bool) (clock : nat -> Z) (stack : nat -> nat -> list Z).

(** [strncpy(array, value, MAX_COLUMN_NAME - 1)] *)
Definition column_cells (a i : nat) (value : list Z) : list Z :=
  strncpy (stack a i) value (MAX_COLUMN_NAME - 1).

(** The value of a condition or an assignment; [None]: neither a string nor a
    number. *)
Definition parse_value (a i : nat) (p : parser) : option field_value :=
  match tok_type p with
  | TOK_STRING =>
      Some (FStr (strncpy (stack a i) (tok_value p) MAX_STR_LEN)
              (u16 (Z.of_nat (strlen (tok_value p)))))
  | TOK_NUMBER => Some (FU64 (fst (strtou64 (tok_value p) 10)))
  | _ => None
  end.

(** [while (count < MAX_WHERE_CONDS)]; [room] conditions still fit. *)
Fixpoint where_loop (room i : nat) (p : parser) : parser * list where_cond :=
  match room with
  | O => (p, [])
  | S room =>
      if negb (is_tok p TOK_IDENT) then (p, [])
      else
        let column := column_cells A_COND_COLUMN i (tok_value p) in
        let p := next_token p in
        let '(p, op) := parse_op p in
        match parse_value A_COND_STR i p with
        | None => (p, [])
        | Some v =>
            let p := next_token p in
            if is_tok p TOK_AND then
              let '(p, conds) := where_loop room (S i) (next_token p) in (p, Cond column op v :: conds)
            else (p, [Cond column op v])
        end
  end.

Definition parse_where (p : parser) : parser * list where_cond :=
  if negb (is_tok p TOK_WHERE) then (p, []) else where_loop MAX_WHERE_CONDS 0 (next_token p).

(** ** The state and its monad *)

Record q_state := Q { q_db : db_state; q_caps : cap_state; q_calls : nat }.

Definition M (A : Type) : Type := q_state -> outcome (q_state * A).

Definition ret {A} (a : A) : M A := fun q => Done (q, a).
Definition bind {A B} (m : M A) (k : A -> M B) : M B := fun q =>
  match m q with
  | Done (q, a) => k a q
  | Fault => Fault
  | NoFuel => NoFuel
  end.
Definition fault {A} : M A := fun _ => Fault.

Notation "'let*' x := m 'in' k" := (bind m (fun x => k))
  (at level 200, x name, m at level 100, k at level 200, right associativity).

(** The number of the next allocating call. *)
Definition tick : M nat := fun q => Done (Q (q_db q) (q_caps q) (S (q_calls q)), q_calls q).
Definition get_db : M db_state := fun q => Done (q, q_db q).
Definition set_db (st : db_state) : M unit := fun q => Done (Q st (q_caps q) (q_calls q), tt).
Definition get_caps : M cap_state := fun q => Done (q, q_caps q).
Definition set_caps (st : cap_state) : M unit := fun q => Done (Q (q_db q) st (q_calls q), tt).
Definition lift {A} (o : outcome A) : M A := fun q =>
  match o with Done a => Done (q, a) | Fault => Fault | NoFuel => NoFuel end.

Definition result := option query_result.

Definition result_create (capacity : Z) : M result :=
  let* n := tick in ret (db_result_create (mem n) capacity).

Definition result_error (code : Z) (msg : string) : M result :=
  let* n := tick in ret (db_result_error (mem n) code (cs msg)).

(** [snprintf(result->error_msg, sizeof(result->error_msg), fmt, ...)] *)
Definition result_message (r : result) (fmt : string) (args : list varg) : M result :=
  match r with
  | None => fault
  | Some r =>
      match snprintf (error_msg r) 256 (cs fmt) args with
      | None => fault
      | Some (msg, _) => ret (Some (QResult (rows r) (row_capacity r) (error_code r) msg (res_schema r)))
      end
  end.

Definition set_schema (r : query_result) (sch : table_schema) : query_result :=
  QResult (rows r) (row_capacity r) (error_code r) (error_msg r) (Some sch).

Definition set_code (r : result) (code : Z) : result :=
  match r with
  | Some r => Some (QResult (rows r) (row_capacity r) code (error_msg r) (res_schema r))
  | None => None
  end.

Definition add_row (r : query_result) (row : record) : M query_result :=
  let* n := tick in ret (db_result_add_row (mem n 0%nat) r row).

Definition audit (pid : Z) (action : string) (target : Z) (res : string) : M unit :=
  let* n := tick in let* st := get_db in
  let* st := lift (db_audit_log (mem n) st (clock n) pid (cs action) target (cs res)) in set_db st.

(** The schema a table name denotes. *)
Definition schema_named (name : list Z) : M (option table_schema) :=
  let* st := get_db in
  ret (match db_get_schema st name with
       | Some i => db_get_schema_by_id st i
       | None => None
       end).

(** [select_scan_callback] and [delete_scan_callback], which are the same
    function: decrypt, test, copy. *)
Definition scan_callback (sch : table_schema) (conds : list where_cond)
    (acc : q_state * query_result) (key : Z) (value : encrypted_record) : q_state * query_result :=
  let '(Q db caps n, r) := acc in
  match db_decrypt_record (mem n) db (Z.to_nat (sch_table_id sch)) value with
  | (db, None) => (Q db caps (S n), r)
  | (db, Some rec) =>
      if record_matches rec sch conds
      then (Q db caps (S (S n)), db_result_add_row (mem (S n) 0%nat) r rec)
      else (Q db caps (S n), r)
  end.

(** [btree_scan(db_get_index(schema->table_id), callback, &ctx)] *)
Definition scan_table (sch : table_schema) (conds : list where_cond) (r : query_result)
    : M query_result := fun q =>
  match db_get_index (q_db q) (Z.to_nat (sch_table_id sch)) with
  | None => Fault
  | Some index => btree_scan (scan_callback sch conds) index (q, r)
  end.

(** ** SHOW TABLES and DESCRIBE *)

Definition show_schema : table_schema :=
  Schema (cells MAX_TABLE_NAME "Tables") 0
    [col "id" COL_U64 false false; col "table_name" COL_STR false false;
     col "columns" COL_U64 false false] false false.

Definition show_row (i : nat) (s : table_schema) : record :=
  let row := Rec (Z.of_nat i) (Z.of_nat i) (fields zero_record) 3 in
  let row := record_set_u64 row 0 (Z.of_nat i) in
  let row := record_set_str row 1 (sch_name s) in
  record_set_u64 row 2 (Z.of_nat (length (columns s))).

Fixpoint show_loop (ids : list nat) (r : query_result) : M query_result :=
  match ids with
  | [] => ret r
  | i :: ids =>
      let* st := get_db in
      match db_get_schema_by_id st i with
      | None => fault
      | Some s => let* r := add_row r (show_row i s) in show_loop ids r
      end
  end.

Definition exec_show_tables : M result :=
  let* st := get_db in
  let tc := db_get_table_count st in
  let* r := result_create (Z.of_nat tc) in
  match r with
  | None => result_error VOS_ERR_NOMEM "Out of memory"
  | Some r => let* r := show_loop (seq 0 tc) r in ret (Some (set_schema r show_schema))
  end.

Definition type_name (t : column_type) : string :=
  (match t with
   | COL_U64 => "U64" | COL_I64 => "I64" | COL_STR => "STR" | COL_BLOB => "BLOB"
   | COL_BOOL => "BOOL" | COL_U32 => "U32" | COL_U8 => "U8"
   end)%string.

Definition yes_no (b : bool) : list Z := cs (if b then "YES" else "NO").

Definition describe_row (i : nat) (c : column_def) : record :=
  let row := Rec (Z.of_nat i) 0 (fields zero_record) 4 in
  let row := record_set_str row 0 (col_name c) in
  let row := record_set_str row 1 (cs (type_name (col_type c))) in
  let row := record_set_str row 2 (yes_no (primary_key c)) in
  record_set_str row 3 (yes_no (not_null c)).

Definition desc_schema : table_schema :=
  Schema (cells MAX_TABLE_NAME "Columns") 0
    [col "name" COL_STR false false; col "type" COL_STR false false;
     col "pk" COL_STR false false; col "not_null" COL_STR false false] false false.

Fixpoint describe_loop (i : nat) (cols : list column_def) (r : query_result) : M query_result :=
  match cols with
  | [] => ret r
  | c :: cols => let* r := add_row r (describe_row i c) in describe_loop (S i) cols r
  end.

Definition exec_describe (p : parser) : M result :=
  if negb (is_tok p TOK_IDENT) then result_error VOS_ERR_SYNTAX "Expected table name"
  else
    let* sch := schema_named (tok_value p) in
    match sch with
    | None => result_error VOS_ERR_NOTFOUND "Table not found"
    | Some sch =>
        let* r := result_create (Z.of_nat (length (columns sch))) in
        match r with
        | None => result_error VOS_ERR_NOMEM "Out of memory"
        | Some r => let* r := describe_loop 0 (columns sch) r in ret (Some (set_schema r desc_schema))
        end
    end.

(** ** SELECT *)

(** [while (IDENT) { next; if (COMMA) next; else break; }]: every iteration
    moves at least one character forward. *)
Fixpoint skip_columns (fuel : nat) (p : parser) : option parser :=
  match fuel with
  | O => None
  | S fuel =>
      if negb (is_tok p TOK_IDENT) then Some p
      else
        let p := next_token p in
        if is_tok p TOK_COMMA then skip_columns fuel (next_token p) else Some p
  end.

Definition loop_fuel (p : parser) : nat := S (S (length (input p) - pos p)).

Definition exec_select (p : parser) (pid : Z) : M result :=
  match (if is_tok p TOK_STAR then Some (next_token p) else skip_columns (loop_fuel p) p) with
  | None => fun _ => NoFuel
  | Some p =>
      match expect p TOK_FROM with
      | None => result_error VOS_ERR_SYNTAX "Expected FROM"
      | Some p =>
          if negb (is_tok p TOK_IDENT) then result_error VOS_ERR_SYNTAX "Expected table name"
          else
            let* sch := schema_named (tok_value p) in
            match sch with
            | None => result_error VOS_ERR_NOTFOUND "Table not found"
            | Some sch =>
                let '(_, conds) := parse_where (next_token p) in
                let* r := result_create 16 in
                match r with
                | None => result_error VOS_ERR_NOMEM "Out of memory"
                | Some r => let* r := scan_table sch conds (set_schema r sch) in ret (Some r)
                end
            end
      end
  end.

(** ** INSERT *)

(** The column list, at most [MAX_INSERT_VALS] names. *)
Fixpoint insert_columns (room i : nat) (p : parser) : parser * list (list Z) :=
  match room with
  | O => (p, [])
  | S room =>
      if negb (is_tok p TOK_IDENT) then (p, [])
      else
        let name := column_cells A_COL_NAME i (tok_value p) in
        let p := next_token p in
        if is_tok p TOK_COMMA then
          let '(p, names) := insert_columns room (S i) (next_token p) in (p, name :: names)
        else (p, [name])
  end.

(** One value stored in column [ci]; [None]: neither a string nor a number. *)
Definition set_value (sch : table_schema) (rec : record) (ci : nat) (p : parser) : option record :=
  match tok_type p with
  | TOK_STRING => Some (record_set_str rec ci (tok_value p))
  | TOK_NUMBER =>
      let v := fst (strtou64 (tok_value p) 10) in
      match columns sch !! ci with
      | Some c =>
          match col_type c with
          | COL_U64 => Some (record_set_u64 rec ci v)
          | COL_U32 => Some (record_set_u32 rec ci (u32 v))
          | _ => Some (record_set_str rec ci (tok_value p))
          end
      | None => Some (record_set_str rec ci (tok_value p))
      end
  | _ => None
  end.

(** The value loop, over the column names still to fill; [None]: unknown
    column. *)
Fixpoint insert_values (sch : table_schema) (names : list (list Z)) (rec : record) (p : parser)
    : option record :=
  match names with
  | [] => Some rec
  | name :: names =>
      if is_tok p TOK_RPAREN || is_tok p TOK_EOF then Some rec
      else
        match find_column_index sch name with
        | None => None
        | Some ci =>
            match set_value sch rec ci p with
            | None => Some rec
            | Some rec =>
                let p := next_token p in
                if is_tok p TOK_COMMA then insert_values sch names rec (next_token p) else Some rec
            end
        end
  end.

(** [fields[i].str_val.length]; 0 for a field that never held a string. *)
Definition str_length_of (f : field_value) : Z := match f with FStr _ l => l | _ => 0 end.

(** The columns the engine fills in itself. *)
Definition fill_columns (sch : table_schema) (rec : record) (pid now : Z) : record :=
  let rec := Rec (row_id rec) (table_id rec) (fields rec) (Z.of_nat (length (columns sch))) in
  let rec := match find_column_index sch (cs "owner_pid") with
             | Some i => record_set_u64 rec i pid | None => rec end in
  let rec := match find_column_index sch (cs "created") with
             | Some i => record_set_u64 rec i now | None => rec end in
  match find_column_index sch (cs "size"), find_column_index sch (cs "data") with
  | Some i, Some j => record_set_u64 rec i (str_length_of (field rec j))
  | _, _ => rec
  end.

(** The record before the values: zeroed, with its ids and its primary key. *)
Definition blank_record (sch : table_schema) (rid : Z) : record :=
  let rec := Rec rid (sch_table_id sch) (fields zero_record) 0 in
  match columns sch with
  | c :: _ =>
      match find_column_index sch (col_name c) with
      | Some _ => if primary_key c then record_set_u64 rec 0 rid else rec
      | None => rec
      end
  | [] => rec
  end.

Definition insert_row (sch : table_schema) (rec : record) (pid : Z) : M result :=
  let* n := tick in
  let* st := get_db in
  let rec := fill_columns sch rec pid (clock n) in
  let* r := lift (db_insert_record (mem n) st (Z.to_nat (sch_table_id sch)) rec) in
  let '(st, err) := r in
  let* _ := set_db st in
  if negb (err =? VOS_OK) then result_error err "Insert failed"
  else
    let* _ := audit pid "INSERT" (row_id rec) "OK" in
    let* r := result_create 0 in
    result_message r "1 row inserted (row_id=%llu)" [AInt (row_id rec)].

Definition exec_insert (p : parser) (pid : Z) : M result :=
  match expect p TOK_INTO with
  | None => result_error VOS_ERR_SYNTAX "Expected INTO"
  | Some p =>
      if negb (is_tok p TOK_IDENT) then result_error VOS_ERR_SYNTAX "Expected table name"
      else
        let* sch := schema_named (tok_value p) in
        match sch with
        | None => result_error VOS_ERR_NOTFOUND "Table not found"
        | Some sch =>
            match expect (next_token p) TOK_LPAREN with
            | None => result_error VOS_ERR_SYNTAX "Expected '('"
            | Some p =>
                let '(p, names) := insert_columns MAX_INSERT_VALS 0 p in
                match expect p TOK_RPAREN with
                | None => result_error VOS_ERR_SYNTAX "Expected ')'"
                | Some p =>
                    match expect p TOK_VALUES with
                    | None => result_error VOS_ERR_SYNTAX "Expected VALUES"
                    | Some p =>
                        match expect p TOK_LPAREN with
                        | None => result_error VOS_ERR_SYNTAX "Expected '('"
                        | Some p =>
                            let* st := get_db in
                            let '(st, rid) := db_next_row_id st in
                            let* _ := set_db st in
                            match insert_values sch names (blank_record sch rid) p with
                            | None => result_error VOS_ERR_INVAL "Unknown column"
                            | Some rec => insert_row sch rec pid
                            end
                        end
                    end
                end
            end
        end
  end.

(** ** DELETE *)

Fixpoint delete_loop (id : nat) (rs : list record) (pid : Z) (deleted : Z) : M Z :=
  match rs with
  | [] => ret deleted
  | r :: rs =>
      let* st := get_db in
      let* d := lift (db_delete_record st id (row_id r)) in
      let* _ := set_db (fst d) in
      let* _ := audit pid "DELETE" (row_id r) "OK" in
      delete_loop id rs pid (u32 (deleted + 1))
  end.

(** The rows that match, copied; a failed allocation is dereferenced. *)
Definition matching_rows (sch : table_schema) (conds : list where_cond) : M (list record) :=
  let* r := result_create 16 in
  match r with
  | None => fault
  | Some r => let* r := scan_table sch conds r in ret (rows r)
  end.

Definition exec_delete (p : parser) (pid : Z) : M result :=
  match expect p TOK_FROM with
  | None => result_error VOS_ERR_SYNTAX "Expected FROM"
  | Some p =>
      if negb (is_tok p TOK_IDENT) then result_error VOS_ERR_SYNTAX "Expected table name"
      else
        let* sch := schema_named (tok_value p) in
        match sch with
        | None => result_error VOS_ERR_NOTFOUND "Table not found"
        | Some sch =>
            let '(_, conds) := parse_where (next_token p) in
            let* rs := matching_rows sch conds in
            let* deleted := delete_loop (Z.to_nat (sch_table_id sch)) rs pid 0 in
            let* r := result_create 0 in
            result_message r "%u row(s) deleted" [AInt deleted]
        end
  end.

(** ** UPDATE *)

Fixpoint set_loop (room i : nat) (p : parser) : parser * list (list Z * field_value) :=
  match room with
  | O => (p, [])
  | S room =>
      if negb (is_tok p TOK_IDENT) then (p, [])
      else
        let name := column_cells A_COL_NAME i (tok_value p) in
        let p := next_token p in
        if negb (is_tok p TOK_EQ) then (p, [])
        else
          let p := next_token p in
          match parse_value A_SET_STR i p with
          | None => (p, [])
          | Some v =>
              let p := next_token p in
              if is_tok p TOK_COMMA then
                let '(p, sets) := set_loop room (S i) (next_token p) in (p, (name, v) :: sets)
              else (p, [(name, v)])
          end
  end.

Fixpoint apply_sets (sch : table_schema) (sets : list (list Z * field_value)) (rec : record) : record :=
  match sets with
  | [] => rec
  | (name, v) :: sets =>
      match find_column_index sch name with
      | None => apply_sets sch sets rec
      | Some ci =>
          apply_sets sch sets
            (Rec (row_id rec) (table_id rec) (<[ci := v]> (fields rec)) (field_count rec))
      end
  end.

Fixpoint update_loop (sch : table_schema) (sets : list (list Z * field_value)) (rs : list record)
    (updated : Z) : M Z :=
  match rs with
  | [] => ret updated
  | r :: rs =>
      let modified := apply_sets sch sets r in
      let* n := tick in
      let* st := get_db in
      let* u := lift (db_update_encrypted (mem n) st (Z.to_nat (sch_table_id sch)) (row_id modified)
                        modified) in
      let* _ := set_db (fst u) in
      update_loop sch sets rs (u32 (updated + 1))
  end.

Definition exec_update (p : parser) (pid : Z) : M result :=
  if negb (is_tok p TOK_IDENT) then result_error VOS_ERR_SYNTAX "Expected table name"
  else
    let* sch := schema_named (tok_value p) in
    match sch with
    | None => result_error VOS_ERR_NOTFOUND "Table not found"
    | Some sch =>
        match expect (next_token p) TOK_SET with
        | None => result_error VOS_ERR_SYNTAX "Expected SET"
        | Some p =>
            let '(p, sets) := set_loop MAX_INSERT_VALS 0 p in
            let '(_, conds) := parse_where p in
            let* rs := matching_rows sch conds in
            let* updated := update_loop sch sets rs 0 in
            let* _ := audit pid "UPDATE" 0 "OK" in
            let* r := result_create 0 in
            result_message r "%u row(s) updated" [AInt updated]
        end
    end.

(** ** GRANT and REVOKE *)

Definition is_word_tok (p : parser) (t : token_type) (word : string) : bool :=
  is_tok p t || (strcasecmp (tok_value p) (cs word) =? 0).

Definition add_right (p : parser) (rts : Z) : Z :=
  if is_word_tok p TOK_READ "READ" then Z.lor rts CAP_READ
  else if is_word_tok p TOK_WRITE "WRITE" then Z.lor rts CAP_WRITE
  else if is_word_tok p TOK_ALL "ALL" then CAP_ALL
  else rts.

Fixpoint grant_rights (fuel : nat) (p : parser) (rts : Z) : option (parser * Z) :=
  match fuel with
  | O => None
  | S fuel =>
      if is_tok p TOK_READ || is_tok p TOK_WRITE || is_tok p TOK_ALL || is_tok p TOK_IDENT then
        let rts := add_right p rts in
        let p := next_token p in
        if is_tok p TOK_COMMA then grant_rights fuel (next_token p) rts else Some (p, rts)
      else Some (p, rts)
  end.

Definition exec_grant (p : parser) (pid : Z) : M result :=
  match grant_rights (loop_fuel p) p 0 with
  | None => fun _ => NoFuel
  | Some (p, rts) =>
      match expect p TOK_ON with
      | None => result_error VOS_ERR_SYNTAX "Expected ON"
      | Some p =>
          if negb (is_tok p TOK_NUMBER) then result_error VOS_ERR_SYNTAX "Expected object_id"
          else
            let object_id := fst (strtou64 (tok_value p) 10) in
            match expect (next_token p) TOK_TO with
            | None => result_error VOS_ERR_SYNTAX "Expected TO"
            | Some p =>
                if negb (is_tok p TOK_NUMBER) then result_error VOS_ERR_SYNTAX "Expected process_id"
                else
                  let target_pid := fst (strtou64 (tok_value p) 10) in
                  let* n := tick in
                  let* caps := get_caps in
                  let '(caps, cap) :=
                    cap_create (clock n) caps object_id CAP_OBJ_TABLE_ROW target_pid rts 0 in
                  let* _ := set_caps (fst (cap_table_insert caps cap)) in
                  let* r := result_create 0 in
                  result_message r "Granted rights 0x%x on object %llu to pid %llu (cap_id=%llu)"
                    [AInt rts; AInt object_id; AInt target_pid; AInt (cap_id cap)]
            end
      end
  end.

Definition exec_revoke (p : parser) (pid : Z) : M result :=
  if negb (is_tok p TOK_NUMBER) then result_error VOS_ERR_SYNTAX "Expected cap_id"
  else
    let id := fst (strtou64 (tok_value p) 10) in
    let* caps := get_caps in
    match cap_revoke caps pid id with
    | None => fun _ => NoFuel
    | Some (caps, err) =>
        let* _ := set_caps caps in
        let* r := result_create 0 in
        let* r := (if err =? VOS_OK
                   then result_message r "Capability %llu revoked (cascade)" [AInt id]
                   else result_message r "Revoke failed: %s" [AStr (Some (cs (vos_strerror err)))]) in
        ret (set_code r err)
    end.

(** ** Entry point *)

Definition query_execute (text : list Z) (caller_pid : Z) : M result :=
  let p := next_token (Parser text 0 TOK_EOF [0]) in
  let p' := next_token p in
  match tok_type p with
  | TOK_SHOW =>
      if is_tok p' TOK_TABLES then exec_show_tables
      else result_error VOS_ERR_SYNTAX "Expected TABLES after SHOW"
  | TOK_DESCRIBE => exec_describe p'
  | TOK_SELECT => exec_select p' caller_pid
  | TOK_INSERT => exec_insert p' caller_pid
  | TOK_DELETE => exec_delete p' caller_pid
  | TOK_UPDATE => exec_update p' caller_pid
  | TOK_GRANT => exec_grant p' caller_pid
  | TOK_REVOKE => exec_revoke p' caller_pid
  | _ =>
      result_error VOS_ERR_SYNTAX
        "Unknown command. Use: SELECT, INSERT, DELETE, UPDATE, SHOW TABLES, DESCRIBE, GRANT, REVOKE"
  end.

(** [db_execute] of database.c. *)
Definition db_execute (query_str : list Z) (caller_pid : Z) : M result :=
  query_execute query_str caller_pid.

End query.
