(* ===== verification/Client.v ===== *)
(** * What the clients of the query language share

    Scripts (src/shell/script.c) and documents (src/gui/desktop.c) format a
    query into a local array, execute it and read strings of the rows. *)

From Stdlib Require Import String.
From S2P Require Import Prelude CLib Random Aes Record Btree Cap Database Printf Query.

Definition txt (s : list Z) : varg := AStr (Some s).

(** [snprintf(buf, sizeof(buf), ...)]: the array afterwards.  A format that
    takes more arguments than it is given has no meaning; no call is like
    that. *)
Definition print_buf (buf : list Z) (fmt : string) (args : list varg) : list Z :=
  match snprintf buf (Z.of_nat (length buf)) (cs fmt) args with Some (b, _) => b | None => buf end.

(** The same where the array is filled with a query. *)
Definition print_to (sql : list Z) (fmt : string) (args : list varg) : M (list Z) := fun q =>
  match snprintf sql (Z.of_nat (length sql)) (cs fmt) args with
  | Some (sql, _) => Done (q, sql)
  | None => Fault
  end.

(** [fields[i].str_val.data]; [data_of] reads the union of a field that is not
    a string. *)
Definition str_data (data_of : field_value -> list Z) (row : record) (i : nat) : list Z :=
  match field row i with FStr data _ => data | f => data_of f end.

(** [fields[i].u64_val]; [num_of] reads the union of a field that is not a
    64-bit number. *)
Definition u64_data (num_of : field_value -> Z) (row : record) (i : nat) : Z :=
  match field row i with FU64 v => v | f => num_of f end.

Definition row_count (r : query_result) : nat := length (rows r).

(** The text in the array after [snprintf]: what the formatter put, cut to the
    array. *)
Lemma print_buf_text buf fmt args out :
  kvprintf_chars (cs fmt) args = Some out -> 99 ∉ cs fmt -> (0 < length buf)%nat ->
  Z.of_nat (length buf) < 2 ^ 63 -> Z.of_nat (length out) < 2 ^ 63 ->
  cstr (print_buf buf fmt args) = take (length buf - 1) out /\ length (print_buf buf fmt args) = length buf.
Proof.
  intros E H99 H0 Hb Ho. unfold print_buf. erewrite snprintf_bounded; [|lia|done|exact Ho|exact E].
  replace (Z.to_nat (Z.of_nat (length buf) - 1)) with (length buf - 1)%nat by lia.
  pose proof (Forall_take _ (length buf - 1) _ (kvprintf_nonzero _ _ _ H99 E)) as Hz.
  split; [|apply length_blit; rewrite length_app, length_take; cbn [length]; lia].
  unfold blit. cbn [take app Nat.add]. rewrite <- app_assoc. by apply cstr_app_0.
Qed.
