(* ===== verification/QuerySpec.v ===== *)
(** * Correctness of the query language

    The tokenizer stays inside its input and moves forward, so that every
    parsing loop terminates; what a SELECT that parses returns (its meaning as
    SQL is in SqlSpec.v); and two behaviours the statements do not guard against: GRANT
    needs no authority, and a WHERE clause that does not parse is no condition
    at all. *)

From Stdlib Require Import String Sorting.
From stdpp Require Import gmap.
From S2P Require Import Prelude CLib Errors Random Sha256 Hmac Aes Record Btree BtreeSpec Cap.
From S2P Require Import Database DatabaseSpec Printf Query.

#[local] Opaque hmac_ctx_compute hmac_verify hmac_sha256 aes_cbc_encrypt aes_cbc_decrypt aes_init
  record_serialize record_deserialize random_bytes.

(** ** The tokenizer *)

Lemma nth_nonzero (s : list Z) i : s.[i] <> 0 -> (i < length s)%nat.
Proof. intros H. destruct (decide (i < length s)%nat); [done|]. rewrite nth_overflow in H; [done|lia]. Qed.

Lemma skip_ws_bounds fuel s i :
  (i <= length s)%nat -> (i <= skip_ws fuel s i <= length s)%nat.
Proof.
  revert i. induction fuel as [|fuel IH]; intros i Hi; cbn [skip_ws]; [lia|].
  destruct (Z.eqb_spec s.[i] 0) as [|Hne]; cbn [negb andb]; [lia|].
  apply nth_nonzero in Hne. destruct (isspace _); [|lia].
  specialize (IH (S i) ltac:(lia)). lia.
Qed.

Lemma take_chars_bounds ok limit s i :
  ok 0 = false -> (i <= length s)%nat ->
  (length (take_chars ok limit s i) <= limit)%nat /\ (i + length (take_chars ok limit s i) <= length s)%nat.
Proof.
  intros Hok. revert i. induction limit as [|limit IH]; intros i Hi; cbn [take_chars length]; [lia|].
  destruct (ok s.[i]) eqn:E; cbn [length]; [|lia].
  assert (i < length s)%nat by (apply nth_nonzero; congruence).
  specialize (IH (S i) ltac:(lia)). lia.
Qed.

Lemma take_chars_nonempty ok limit s i :
  ok s.[i] = true -> (1 <= length (take_chars ok (S limit) s i))%nat.
Proof. intros E. cbn [take_chars]. rewrite E. cbn. lia. Qed.

Lemma keyword_in_not_eof ks w : Forall (fun k => snd k <> TOK_EOF) ks -> keyword_in ks w <> TOK_EOF.
Proof.
  induction 1 as [|[k t] ks Hk Hks IH]; cbn [keyword_in]; [done|]. by destruct (_ =? 0).
Qed.

Lemma keyword_in_not ks w t : t <> TOK_IDENT -> Forall (fun k => snd k <> t) ks -> keyword_in ks w <> t.
Proof.
  intros Ht. induction 1 as [|[k u] ks Hk Hks IH]; cbn [keyword_in]; [done|]. by destruct (_ =? 0).
Qed.

Lemma check_keyword_not_eof w : check_keyword w <> TOK_EOF.
Proof. apply keyword_in_not_eof. by repeat constructor. Qed.

(** What one call of the tokenizer guarantees. *)
Definition token_step (p p' : parser) : Prop :=
  input p' = input p /\ (pos p <= pos p' <= length (input p))%nat /\
  (tok_type p' <> TOK_EOF -> (pos p < pos p')%nat) /\
  (tok_value p' = tok_value p \/ (length (tok_value p') <= S MAX_STR_LEN)%nat).

Lemma next_token_step p : (pos p <= length (input p))%nat -> token_step p (next_token p).
Proof.
  intros Hp. unfold next_token. cbn [skip_whitespace input pos tok_value].
  pose proof (skip_ws_bounds (length (input p) - pos p) (input p) (pos p) Hp) as Hi.
  set (i := skip_ws _ _ _) in *. set (s := input p) in *. set (c := s.[i]).
  assert (forall t n v, (0 < n)%nat \/ t = TOK_EOF -> (i + n <= length s)%nat ->
    v = tok_value p \/ (length v <= S MAX_STR_LEN)%nat ->
    token_step p (Parser s (i + n) t v)) as Hgo.
  { intros t n v Hn Hl Hv. split_and!; cbn; try done; try lia. intros Ht. destruct Hn; [lia|done]. }
  destruct (Z.eqb_spec c 0) as [|Hc]; [by apply Hgo; [right|lia|left]|].
  pose proof (nth_nonzero s i Hc) as Hlt.
  assert (forall d, s.[i + 1] =? d = true -> d <> 0 -> (i + 2 <= length s)%nat) as H2.
  { intros d E Hd. apply Z.eqb_eq in E. pose proof (nth_nonzero s (i + 1) ltac:(congruence)). lia. }
  assert (forall ok limit j, (j <= length s)%nat -> ok 0 = false -> (limit <= MAX_STR_LEN)%nat ->
    (j + length (take_chars ok limit s j) <= length s)%nat /\
    (length (take_chars ok limit s j ++ [0%Z]) <= S MAX_STR_LEN)%nat) as Htk.
  { intros ok limit j Hj Hok Hlim. pose proof (take_chars_bounds ok limit s j Hok Hj).
    rewrite length_app. cbn [length]. lia. }
  repeat match goal with
  | |- token_step _ (if ?b then Parser s (i + _) _ _ else _) =>
      let E := fresh "E" in destruct b eqn:E; [apply Hgo; [lia| |first [by left | right; cbn; unfold MAX_STR_LEN; lia]]|]
  end; try lia; try (match goal with
    | H : _ && (s.[i + 1] =? _) = true |- _ => apply andb_true_iff in H as [_ H]; by eapply H2
    end).
  destruct (c =? 39) eqn:E39.
  { set (v := take_chars string_char _ _ _). destruct (Htk string_char MAX_STR_LEN (i + 1)%nat) as [Hv1 Hv2];
      [lia|done|lia|]. fold v in Hv1, Hv2.
    assert (s.[i + 1 + length v] =? 39 = true -> (i + 1 + length v < length s)%nat).
    { intros E'%Z.eqb_eq. apply nth_nonzero. by rewrite E'. }
    destruct (s.[i + 1 + length v] =? 39); [specialize (H eq_refl)|];
      (split_and!; cbn [input pos tok_type tok_value]; try done; fold s;
       first [by right|intros _; lia|lia]). }
  destruct (isdigit c) eqn:Edig.
  { destruct (Htk isdigit 20%nat i) as [Hv1 Hv2]; [lia|done|unfold MAX_STR_LEN; lia|].
    pose proof (take_chars_nonempty isdigit 19 s i Edig). apply Hgo; [lia|lia|by right]. }
  destruct (isalpha c || (c =? 95)) eqn:Eal.
  { destruct (Htk ident_char MAX_STR_LEN i) as [Hv1 Hv2]; [lia|done|lia|].
    assert (ident_char c = true) as Eid by (unfold ident_char, isalnum; destruct (isdigit c); done).
    pose proof (take_chars_nonempty ident_char 254 s i Eid). apply Hgo; [|lia|by right].
    left. change MAX_STR_LEN with (S 254). lia. }
  apply Hgo; [lia|lia|by left].
Qed.

(** Parsers inside their input. *)
Definition in_input (p : parser) : Prop := (pos p <= length (input p))%nat.

Lemma next_token_in p : in_input p -> in_input (next_token p).
Proof. intros Hp. destruct (next_token_step p Hp) as (E & H & _). unfold in_input. rewrite E. lia. Qed.

Lemma is_tok_true p t : is_tok p t = true <-> tok_type p = t.
Proof. apply bool_decide_eq_true. Qed.

(** A token followed by a comma: the rest of the input got shorter. *)
Lemma comma_progress p :
  in_input p -> is_tok (next_token p) TOK_COMMA = true ->
  in_input (next_token (next_token p)) /\ input (next_token (next_token p)) = input p /\
  (pos p < pos (next_token (next_token p)))%nat.
Proof.
  intros Hp Hc%is_tok_true. pose proof (next_token_in p Hp) as Hp1.
  destruct (next_token_step p Hp) as (E1 & B1 & G1 & _).
  destruct (next_token_step _ Hp1) as (E2 & B2 & _ & _).
  split; [by apply next_token_in|]. split; [congruence|].
  rewrite Hc in G1. specialize (G1 ltac:(done)). lia.
Qed.

Lemma skip_columns_total fuel p :
  in_input p -> (length (input p) - pos p < fuel)%nat ->
  exists p', skip_columns fuel p = Some p' /\ in_input p' /\ input p' = input p.
Proof.
  revert p. induction fuel as [|fuel IH]; intros p Hp Hf; [lia|]. cbn [skip_columns].
  destruct (is_tok p TOK_IDENT); cbn [negb]; [|by exists p].
  destruct (is_tok (next_token p) TOK_COMMA) eqn:Ec.
  - destruct (comma_progress p Hp Ec) as (Hp' & E & Hlt).
    destruct (IH _ Hp') as (p' & ? & ? & ?); [unfold in_input in *; rewrite E in *; lia|].
    exists p'. split_and!; [done|done|congruence].
  - exists (next_token p). split_and!; [done|by apply next_token_in|]. by apply next_token_step.
Qed.

Lemma grant_rights_total fuel p rts :
  in_input p -> (length (input p) - pos p < fuel)%nat ->
  exists p' rts', grant_rights fuel p rts = Some (p', rts') /\ in_input p' /\ input p' = input p.
Proof.
  revert p rts. induction fuel as [|fuel IH]; intros p rts Hp Hf; [lia|]. cbn [grant_rights].
  destruct (is_tok p TOK_READ || _ || _ || _); [|by exists p, rts].
  destruct (is_tok (next_token p) TOK_COMMA) eqn:Ec.
  - destruct (comma_progress p Hp Ec) as (Hp' & E & Hlt).
    destruct (IH _ (add_right p rts) Hp') as (p' & r' & ? & ? & ?); [unfold in_input in *; rewrite E in *; lia|].
    exists p', r'. split_and!; [done|done|congruence].
  - eexists _, _. split_and!; [done|by apply next_token_in|]. by apply next_token_step.
Qed.

(** C37: the tokenizer is safe and makes progress.  From a position inside the
    input, [next_token] never moves past the terminator, leaves the input
    alone, moves forward by at least one character unless it reports the end
    of input, and the text it stores fits the 256-byte array.  Hence the two
    parsing loops without a counter, the column list of SELECT and the rights
    list of GRANT, end on every input. *)
Theorem query_parsing_terminates (p : parser) (rts : Z) :
  (pos p <= length (input p))%nat ->
  token_step p (next_token p) /\
  (exists p', skip_columns (loop_fuel p) p = Some p') /\
  (exists p' rts', grant_rights (loop_fuel p) p rts = Some (p', rts')).
Proof.
  intros Hp. unfold loop_fuel. split; [by apply next_token_step|]. split.
  - destruct (skip_columns_total (S (S (length (input p) - pos p))) p Hp) as (p' & ? & _); [lia|].
    by exists p'.
  - destruct (grant_rights_total (S (S (length (input p) - pos p))) p rts Hp) as (p' & r & ? & _); [lia|].
    by exists p', r.
Qed.

Lemma query_parsing_terminates_witness :
  let p := Parser (cs "READ, WRITE ON 3 TO 9") 0 TOK_GRANT [0] in
  token_step p (next_token p) /\
  (exists p', skip_columns (loop_fuel p) p = Some p') /\
  (exists p' rts', grant_rights (loop_fuel p) p 0 = Some (p', rts')).
Proof.
  apply (query_parsing_terminates (Parser (cs "READ, WRITE ON 3 TO 9") 0 TOK_GRANT [0]) 0).
  cbn. lia.
Defined.

(** ** SELECT *)

Section select.
Context `{Hw, AesNi, !HwLaws, !AesNiLaws}.
Context (mem : nat -> nat -> bool) (clock : nat -> Z) (stack : nat -> nat -> list Z).

(** [enc] is what the engine stores for [rec] in table [id]. *)
Definition seals (id : nat) (t : db_table) (enc : encrypted_record) (rec : record) : Prop :=
  exists fl ivec, enc = seal_record fl t id ivec rec /\ length ivec = 16%nat /\ bytes ivec /\
    wf_record rec /\ fits_record rec.

(** The plaintext content of table [id]. *)
Definition table_holds (id : nat) (t : db_table) (content : gmap Z record) : Prop :=
  forall k, match abs (index t) !! k, content !! k with
            | Some enc, Some rec => seals id t enc rec
            | None, None => True
            | _, _ => False
            end.

Definition matching (sch : table_schema) (conds : list where_cond) (l : list record) : list record :=
  List.filter (fun rec => record_matches rec sch conds) l.

Lemma add_row_rows r rec : rows (db_result_add_row true r rec) = rows r ++ [rec].
Proof. unfold db_result_add_row. by destruct (_ <=? _). Qed.

Lemma add_row_rest b r rec :
  error_code (db_result_add_row b r rec) = error_code r /\
  res_schema (db_result_add_row b r rec) = res_schema r /\
  error_msg (db_result_add_row b r rec) = error_msg r.
Proof. unfold db_result_add_row. destruct (_ <=? _); [|done]. by destruct b. Qed.

(** Reading a row takes no row id. *)
Lemma decrypt_row_id m st id enc st' r : db_decrypt_record m st id enc = (st', r) -> global_row_id st' = global_row_id st.
Proof.
  unfold db_decrypt_record. repeat match goal with |- context [match ?x with _ => _ end] => destruct x end; by intros [= <- _].
Qed.

(** The callback over a list of sealed rows keeps those that match. *)
Lemma scan_fold sch conds t l recs q r :
  (forall n m, mem n m = true) -> db_ok (q_db q) ->
  tables (q_db q) !! Z.to_nat (sch_table_id sch) = Some t ->
  Forall2 (fun ke rec => seals (Z.to_nat (sch_table_id sch)) t (snd ke) rec) l recs ->
  exists q' r',
    foldl (fun a '(k, v) => scan_callback mem sch conds a k v) (q, r) l = (q', r') /\
    rows r' = rows r ++ matching sch conds recs /\
    error_code r' = error_code r /\ res_schema r' = res_schema r /\
    db_ok (q_db q') /\ tables (q_db q') = tables (q_db q) /\ q_caps q' = q_caps q /\
    global_row_id (q_db q') = global_row_id (q_db q).
Proof.
  intros Hm Hok L Hl. revert q r Hok L.
  induction Hl as [|[k enc] rec l recs Hs Hl IH]; intros [db caps n] r Hok L; cbn [foldl].
  - exists (Q db caps n), r. cbn. by rewrite app_nil_r.
  - destruct Hs as (fl & ivec & Es & Hiv & Hb & Hwf & Hfit). cbn [snd scan_callback q_db] in *. subst enc.
    destruct (decrypt_sealed (mem n) db _ t fl ivec rec Hok L (Hm n 0%nat) Hiv Hb Hwf Hfit)
      as (db' & Edec & Et & Hok'). pose proof (decrypt_row_id _ _ _ _ _ _ Edec) as Eg. rewrite Edec.
    cbn [matching List.filter]. destruct (record_matches rec sch conds).
    + rewrite Hm. destruct (IH (Q db' caps (S (S n))) (db_result_add_row true r rec)) as
        (q' & r' & -> & Hr & Hc & Hsch & Hq); [done|by cbn; rewrite Et|].
      exists q', r'. split; [done|]. rewrite Hr, add_row_rows, <- app_assoc. split; [done|].
      destruct (add_row_rest true r rec) as (Hc1 & Hs1 & _). cbn [q_db q_caps] in Hq.
      rewrite <- Et, <- Eg. split_and!; [congruence|congruence|apply Hq..].
    + destruct (IH (Q db' caps (S n)) r) as (q' & r' & E & Hr & Hc & Hsch & Hq); [done|by cbn; rewrite Et|].
      exists q', r'. cbn [q_db q_caps] in Hq. rewrite <- Et, <- Eg. split_and!; [done..|apply Hq|apply Hq|apply Hq|apply Hq].
Qed.
(** The scan's list of ciphertexts, read as the content of the table. *)
Lemma content_list id t content l :
  table_holds id t content -> l ≡ₚ map_to_list (abs (index t)) ->
  exists l', l'.*1 = l.*1 /\ l' ≡ₚ map_to_list content /\
    Forall2 (fun ke rec => seals id t (snd ke) rec) l l'.*2.
Proof.
  intros Hh Hl.
  assert (forall k enc, (k, enc) ∈ l <-> abs (index t) !! k = Some enc) as Hin.
  { intros k enc. rewrite Hl. apply elem_of_map_to_list. }
  exists (map (fun ke => (fst ke, default zero_record (content !! fst ke))) l). split; [|split].
  - rewrite map_map. cbn. by apply map_ext.
  - apply NoDup_Permutation; [|apply NoDup_map_to_list|].
    + apply (NoDup_fmap_1 fst). rewrite <- list_fmap_compose. cbn.
      change (NoDup (fst <$> l)). rewrite Hl. apply NoDup_fst_map_to_list.
    + intros [k rec]. rewrite elem_of_map_to_list, list_elem_of_fmap. split.
      * intros ([k' enc] & [= -> ->] & Hk%Hin). cbn. specialize (Hh k'). rewrite Hk in Hh.
        by destruct (content !! k').
      * intros Hc. pose proof (Hh k) as Hk. rewrite Hc in Hk.
        destruct (abs (index t) !! k) as [enc|] eqn:E; [|done].
        exists (k, enc). cbn. rewrite Hc. split; [done|]. by apply Hin.
  - rewrite <- list_fmap_compose. apply Forall2_fmap_r, Forall_Forall2_diag, Forall_forall.
    intros [k enc] Hk%Hin. cbn. specialize (Hh k). rewrite Hk in Hh. by destruct (content !! k).
Qed.

(** SELECT queries: the table's name and the conditions of a text. *)
Definition select_query (text : list Z) : option (list Z * list where_cond) :=
  let p := next_token (Parser text 0 TOK_EOF [0]) in
  if negb (is_tok p TOK_SELECT) then None
  else
    let p := next_token p in
    match (if is_tok p TOK_STAR then Some (next_token p) else skip_columns (loop_fuel p) p) with
    | Some p =>
        match expect p TOK_FROM with
        | Some p =>
            if is_tok p TOK_IDENT
            then Some (tok_value p, snd (parse_where stack (next_token p))) else None
        | None => None
        end
    | None => None
    end.

(** DELETE queries: the table's name and the conditions of a text. *)
Definition delete_query (text : list Z) : option (list Z * list where_cond) :=
  let p := next_token (Parser text 0 TOK_EOF [0]) in
  if negb (is_tok p TOK_DELETE) then None
  else
    match expect (next_token p) TOK_FROM with
    | Some p =>
        if is_tok p TOK_IDENT then Some (tok_value p, snd (parse_where stack (next_token p))) else None
    | None => None
    end.

Lemma scan_table_holds sch conds id t content q r :
  (forall n m, mem n m = true) -> db_ok (q_db q) -> tables (q_db q) !! id = Some t ->
  sch_table_id sch = Z.of_nat id -> table_holds id t content ->
  exists q' r' l, scan_table mem sch conds r q = Done (q', r') /\
    rows r' = rows r ++ matching sch conds l.*2 /\
    StronglySorted Z.lt l.*1 /\ l ≡ₚ map_to_list content /\
    error_code r' = error_code r /\ res_schema r' = res_schema r /\
    db_ok (q_db q') /\ tables (q_db q') = tables (q_db q) /\ q_caps q' = q_caps q /\
    global_row_id (q_db q') = global_row_id (q_db q).
Proof.
  intros Hm Hok L Hid Hh. destruct (table_ok_lookup _ _ _ Hok L) as [Hw _].
  unfold scan_table, db_get_index. rewrite Hid, Nat2Z.id, L.
  destruct (tree_scan (scan_callback mem sch conds) (index t) (q, r) Hw) as (l & -> & Hs & Hl).
  destruct (content_list id t content l Hh Hl) as (l' & Ek & Hl' & Hf).
  destruct (scan_fold sch conds t l l'.*2 q r Hm Hok) as (q' & r' & -> & Hq1); [by rewrite Hid, Nat2Z.id..|].
  exists q', r', l'. split; [done|]. split; [apply Hq1|]. rewrite Ek. split; [done|]. split; [done|]. apply Hq1.
Qed.

(** What a SELECT does. *)
Lemma select_statement (text : list Z) (pid : Z) (q : q_state) name conds id t content :
  (forall n m, mem n m = true) -> db_ok (q_db q) -> tables (q_db q) !! id = Some t ->
  sch_table_id (schema t) = Z.of_nat id -> table_holds id t content ->
  select_query text = Some (name, conds) -> db_get_schema (q_db q) name = Some id ->
  exists q' r l, query_execute mem clock stack text pid q = Done (q', Some r) /\
    error_code r = VOS_OK /\ res_schema r = Some (schema t) /\
    rows r = matching (schema t) conds l.*2 /\
    StronglySorted Z.lt l.*1 /\ l ≡ₚ map_to_list content /\
    tables (q_db q') = tables (q_db q) /\ q_caps q' = q_caps q /\
    db_ok (q_db q') /\ global_row_id (q_db q') = global_row_id (q_db q).
Proof.
  intros Hm Hok L Hid Hh Hq Hn. unfold select_query in Hq. unfold query_execute.
  set (p0 := next_token (Parser text 0 TOK_EOF [0])) in *.
  destruct (is_tok p0 TOK_SELECT) eqn:E0; [|done]. cbn [negb] in Hq. apply is_tok_true in E0. rewrite E0.
  unfold exec_select. set (p1 := next_token p0) in *.
  destruct (if is_tok p1 TOK_STAR then _ else _) as [p2|]; [|done].
  destruct (expect p2 TOK_FROM) as [p3|]; [|done]. destruct (is_tok p3 TOK_IDENT); [|done]. cbn [negb].
  injection Hq as <- <-. destruct (parse_where stack (next_token p3)) as [p4 conds] eqn:Ew.
  unfold bind, schema_named, get_db, ret, bind. rewrite Hn. unfold db_get_schema_by_id. rewrite L.
  unfold result_create, bind, tick, ret, db_result_create. rewrite !Hm, andb_false_r. cbn [negb].
  set (q1 := Q (q_db q) (q_caps q) (S (q_calls q))).
  destruct (scan_table_holds (schema t) conds id t content q1
    (set_schema (QResult [] 16 VOS_OK (replicate 256 0) None) (schema t)) Hm Hok L Hid Hh)
    as (q' & r & l & -> & Hr & Hs & Hl & Hc & Hsch & Hok' & Ht & Hcap & Hg).
  exists q', r, l. by split_and!.
Qed.

End select.

(** A table with one row, sealed under its key. *)
Definition one_tree (enc : encrypted_record) : btree encrypted_record :=
  BTree (BNode (7 :: replicate 62 0) (Some enc :: replicate 62 None) (replicate 64 None) 1 true) 1 0.

Lemma one_tree_wf enc : wf_tree (one_tree enc).
Proof. sample_wf. Qed.

Lemma seal_set_index fl t i id ivec rec :
  seal_record fl (set_index t i) id ivec rec = seal_record fl t id ivec rec.
Proof. reflexivity. Qed.

Lemma one_tree_abs enc : abs (one_tree enc) = {[7 := enc]}.
Proof. reflexivity. Qed.

Definition all_ok : nat -> nat -> bool := fun _ _ => true.
Definition zero_stack : nat -> nat -> list Z := fun _ _ => replicate 256 0.
Definition boot_caps : cap_state :=
  CapState (replicate 1024 zero_cap) 0 1 (replicate 64 zero_cache_entry) (hmac_ctx_init []).

(** ** GRANT *)

Section grant.
Context `{Hw, AesNi}.
Context (mem : nat -> nat -> bool) (clock : nat -> Z) (stack : nat -> nat -> list Z).

(** GRANT queries: the rights, the object and the process a text names. *)
Definition grant_query (text : list Z) : option (Z * Z * Z) :=
  let p := next_token (Parser text 0 TOK_EOF [0]) in
  if negb (is_tok p TOK_GRANT) then None
  else
    let p := next_token p in
    match grant_rights (loop_fuel p) p 0 with
    | Some (p, rts) =>
        match expect p TOK_ON with
        | Some p =>
            if negb (is_tok p TOK_NUMBER) then None
            else
              let obj := fst (strtou64 (tok_value p) 10) in
              match expect (next_token p) TOK_TO with
              | Some p =>
                  if negb (is_tok p TOK_NUMBER) then None
                  else Some (rts, obj, fst (strtou64 (tok_value p) 10))
              | None => None
              end
        | None => None
        end
    | None => None
    end.

Lemma grant_message r a b c d q :
  exists r', result_message (Some r) "Granted rights 0x%x on object %llu to pid %llu (cap_id=%llu)"
    [AInt a; AInt b; AInt c; AInt d] q = Done (q, Some r').
Proof. eexists. reflexivity. Qed.

(** GRANT checks no authority.  Whoever runs it, a query that parses as
    GRANT [rts] ON [obj] TO [target] enters in the table a fresh, validly
    sealed root capability with exactly these rights for that process: no
    capability of the caller is looked up, and nothing is attenuated. *)
Theorem grant_needs_no_authority (text : list Z) (pid : Z) (q : q_state) (rts obj target : Z) :
  (forall n m, mem n m = true) -> grant_query text = Some (rts, obj, target) ->
  length (cap_table (q_caps q)) = Z.to_nat CAP_TABLE_SIZE ->
  0 < next_cap_id (q_caps q) <= CAP_TABLE_SIZE -> cap_count (q_caps q) < CAP_TABLE_SIZE ->
  exists q' r now, query_execute mem clock stack text pid q = Done (q', Some r) /\
    let id := next_cap_id (q_caps q) in
    let cap := cap_compute_hmac (q_caps q)
                 (Cap id obj CAP_OBJ_TABLE_ROW target rts (replicate 32 0) 0 now 0 false) in
    cap_table_lookup (q_caps q') id = Some cap /\
    master_hmac_ctx (q_caps q') = master_hmac_ctx (q_caps q) /\
    (forall id', id' <> id -> 0 < id' -> cap_table_lookup (q_caps q') id' = cap_table_lookup (q_caps q) id').
Proof.
  intros Hm Hq Hlen Hid Hcnt. unfold grant_query in Hq. unfold query_execute.
  set (p0 := next_token (Parser text 0 TOK_EOF [0])) in *.
  destruct (is_tok p0 TOK_GRANT) eqn:E0; [|done]. cbn [negb] in Hq. apply is_tok_true in E0. rewrite E0.
  unfold exec_grant. destruct (grant_rights _ _ 0) as [[p1 r1]|]; [|done].
  destruct (expect p1 TOK_ON) as [p2|]; [|done]. destruct (is_tok p2 TOK_NUMBER); [|done]. cbn [negb] in *.
  destruct (expect (next_token p2) TOK_TO) as [p3|]; [|done].
  destruct (is_tok p3 TOK_NUMBER); [|done]. cbn [negb] in *. injection Hq as -> -> ->.
  set (cap := cap_compute_hmac (q_caps q)
    (Cap (next_cap_id (q_caps q)) obj CAP_OBJ_TABLE_ROW target rts (replicate 32 0) 0 (clock (q_calls q)) 0 false)).
  assert (cap_id cap = next_cap_id (q_caps q)) as Ecap by done.
  assert (bad_id (next_cap_id (q_caps q)) = false) as Hbad
    by (unfold bad_id; destruct (Z.eqb_spec (next_cap_id (q_caps q)) 0); [lia|cbn; lia]).
  unfold bind, tick, get_caps, set_caps, result_create, bind, tick, ret, cap_create. cbn [q_caps q_db q_calls].
  unfold db_result_create. rewrite !Hm. cbn [negb Z.ltb Z.compare andb].
  match goal with |- context [result_message (Some ?r) _ [AInt ?a; AInt ?b; AInt ?c; AInt ?d] ?s] =>
    destruct (grant_message r a b c d s) as [r' ->] end.
  eexists _, r', (clock (q_calls q)). split; [reflexivity|]. cbn zeta. fold cap. cbn [q_caps].
  unfold cap_table_insert. rewrite (proj2 (Z.leb_gt _ _)) by done.
  match goal with |- context [bad_id (cap_id ?c)] => change (cap_id c) with (next_cap_id (q_caps q)) end.
  rewrite Hbad. cbn [fst master_hmac_ctx]. split; [|split; [done|]].
  - unfold cap_table_lookup. rewrite Hbad. cbn [cap_table].
    rewrite list_lookup_insert_eq by (rewrite Hlen; unfold slot_of; lia).
    change (cap_id _) with (next_cap_id (q_caps q)) at 1. by rewrite Z.eqb_refl.
  - intros id' Hne Hpos. unfold cap_table_lookup. destruct (bad_id id'); [done|]. cbn [cap_table].
    by rewrite list_lookup_insert_ne by (unfold slot_of; lia).
Qed.
End grant.

Lemma grant_needs_no_authority_witness :
  exists q' r now,
    query_execute all_ok Z.of_nat zero_stack (cs "GRANT ALL ON 3 TO 9") 5 (Q demo_empty boot_caps 0)
      = Done (q', Some r) /\
    let cap := cap_compute_hmac boot_caps
                 (Cap 1 3 CAP_OBJ_TABLE_ROW 9 CAP_ALL (replicate 32 0) 0 now 0 false) in
    cap_table_lookup (q_caps q') 1 = Some cap /\
    master_hmac_ctx (q_caps q') = master_hmac_ctx boot_caps /\
    (forall id', id' <> 1 -> 0 < id' -> cap_table_lookup (q_caps q') id' = cap_table_lookup boot_caps id').
Proof.
  apply (grant_needs_no_authority all_ok Z.of_nat zero_stack (cs "GRANT ALL ON 3 TO 9") 5
    (Q demo_empty boot_caps 0) CAP_ALL 3 9); [done|vm_compute; reflexivity|reflexivity|by_compute|by_compute].
Defined.

(** ** Conditions *)

(** A WHERE clause that does not parse is no condition.  When the word
    after WHERE is not a column name, or what follows its operator is neither
    a string nor a number (as in [WHERE name LIKE 'x']), [parse_where] yields
    no condition at all, so that every row of every table matches: DELETE and
    UPDATE then apply to the whole table. *)
Theorem where_unparsed_matches_all (stack : nat -> nat -> list Z) (p : parser) (sch : table_schema)
    (l : list record) :
  tok_type p = TOK_WHERE ->
  tok_type (next_token p) <> TOK_IDENT \/
  parse_value stack A_COND_STR 0 (fst (parse_op (next_token (next_token p)))) = None ->
  snd (parse_where stack p) = [] /\ matching sch (snd (parse_where stack p)) l = l.
Proof.
  intros Hp Hw. assert (snd (parse_where stack p) = []) as ->.
  { unfold parse_where, is_tok. rewrite bool_decide_eq_true_2 by done. cbn [negb].
    unfold MAX_WHERE_CONDS. cbn [where_loop]. unfold is_tok.
    case_bool_decide as Hi; cbn [negb]; [|done]. destruct Hw as [Hw|Hw]; [done|].
    destruct (parse_op _) as [p' op]. cbn [fst] in Hw. by rewrite Hw. }
  split; [done|]. unfold matching. induction l as [|r l IH]; [done|]. cbn. f_equal. exact IH.
Qed.

Lemma where_unparsed_matches_all_witness :
  let p := Parser (cs " name LIKE 'zzz'") 0 TOK_WHERE [0] in
  snd (parse_where zero_stack p) = [] /\
  matching demo_schema (snd (parse_where zero_stack p)) [sample_record] = [sample_record].
Proof.
  apply (where_unparsed_matches_all zero_stack (Parser (cs " name LIKE 'zzz'") 0 TOK_WHERE [0])
    demo_schema [sample_record]); [reflexivity|right; vm_compute; reflexivity].
Defined.

(** A condition on a [COL_U32] column never holds: literals are strings or
    64-bit numbers, and [match_field] compares equal types only. *)
Lemma u32_column_never_matches stack a i p op c v :
  parse_value stack a i p = Some c -> match_field (FU32 v) op c = false.
Proof. unfold parse_value. by destruct (tok_type p). Qed.
