(* ===== verification/QueryWrites.v ===== *)
(** * The statements that change tables (src/kernel/db/query.c)

    INSERT and DELETE against the plaintext content of the tables
    ([table_holds] of QuerySpec.v): which rows a table holds afterwards, and
    what the audit log records. *)

From Stdlib Require Import String Sorting.Sorted.
From stdpp Require Import gmap sets.
From S2P Require Import Prelude CLib Errors Random Sha256 Hmac Aes Record Btree BtreeSpec Cap CapSpec Database DatabaseSpec Printf Query QuerySpec.

(** ** Well-formed rows *)

(** A record under construction for a table of [n] columns: nothing set
    beyond them, and no blob. *)
Definition slim (f : field_value) : Prop := wf_field f /\ (length (wire_field f) <= 261)%nat.

Record built (n : nat) (rec : record) : Prop := Built {
  bu_row : is_u64 (row_id rec);
  bu_table : is_u32 (table_id rec);
  bu_count : 0 <= field_count rec <= Z.of_nat n;
  bu_length : length (fields rec) = MAX_COLUMNS;
  bu_fields : Forall slim (fields rec);
  bu_rest : drop n (fields rec) = replicate (MAX_COLUMNS - n) zero_field
}.

Lemma slim_zero : slim zero_field.
Proof. split; [vm_compute; split; congruence|apply Nat.leb_le; reflexivity]. Qed.

Lemma slim_u64 v : is_u64 v -> slim (FU64 v).
Proof. intros Hv. split; [done|]. cbn. rewrite ?length_app, ?length_le_bytes. cbn. lia. Qed.

Lemma slim_u32 v : is_u32 v -> slim (FU32 v).
Proof. intros Hv. split; [done|]. cbn. rewrite ?length_app, ?length_le_bytes. cbn. lia. Qed.

Lemma slim_str data l : wf_field (FStr data l) -> slim (FStr data l).
Proof.
  intros Hw. split; [done|]. destruct Hw as (s & -> & Hs & _ & ->). unfold wire_field, wire_payload.
  rewrite !length_app, !length_le_bytes, length_take. unfold MAX_STR_LEN in *. lia.
Qed.

Lemma slim_str_field val : bytes val -> slim (str_field val).
Proof. intros Hb. pose proof (str_field_wf val Hb) as Hw. rewrite str_field_eq in *. by apply slim_str. Qed.

Lemma built_set n rec i f : (n <= MAX_COLUMNS)%nat -> (i < n)%nat -> slim f -> built n rec -> built n (set_field rec i f).
Proof.
  intros Hn Hi Hf [H1 H2 H3 H4 H5 H6]. constructor; cbn [set_field row_id table_id fields field_count]; [done|done| | | |].
  - destruct (Z.leb_spec (field_count rec) (Z.of_nat i)); lia.
  - by rewrite length_insert.
  - by apply Forall_insert.
  - by rewrite drop_insert_lt by lia.
Qed.

Lemma built_wf n rec : (n <= MAX_COLUMNS)%nat -> field_count rec = Z.of_nat n -> built n rec -> wf_record rec.
Proof.
  intros Hn Hc [H1 H2 H3 H4 H5 H6]. constructor; [done|done|rewrite Hc; lia|done| |].
  - unfold live_fields. apply Forall_take. eapply Forall_impl; [exact H5|]. by intros f [].
  - unfold live_fields. rewrite Hc, Nat2Z.id. by rewrite <- H6, take_drop.
Qed.

Lemma length_concat_le (l : list (list Z)) k : Forall (fun x => (length x <= k)%nat) l -> (length (concat l) <= length l * k)%nat.
Proof. induction 1; cbn; [done|]. rewrite length_app. lia. Qed.

(** Fifteen columns of strings always fit a record. *)
Lemma built_fits n rec : (n <= 15)%nat -> field_count rec = Z.of_nat n -> built n rec -> fits_record rec.
Proof.
  intros Hn Hc [H1 H2 H3 H4 H5 H6]. unfold fits_record, wire. rewrite length_app.
  assert (length (wire_header rec) = 16)%nat as -> by (unfold wire_header; by rewrite !length_app, !length_le_bytes).
  assert (Forall (fun x => (length x <= 261)%nat) (map wire_field (live_fields rec))) as Hf.
  { unfold live_fields. apply Forall_map, Forall_take. eapply Forall_impl; [exact H5|]. by intros f []. }
  apply length_concat_le in Hf. rewrite length_map in Hf. unfold live_fields in Hf at 2. rewrite length_take, Hc, Nat2Z.id in Hf.
  unfold MAX_RECORD_SIZE. nia.
Qed.

Lemma find_col_bound cols name i k : find_col cols name i = Some k -> (i <= k < i + length cols)%nat.
Proof.
  revert i. induction cols as [|c cols IH]; intros i; cbn; [done|]. destruct (_ =? 0); [intros [= ->]; lia|].
  intros Hk%IH. lia.
Qed.

Lemma column_bound sch name k : find_column_index sch name = Some k -> (k < length (columns sch))%nat.
Proof. intros Hk%find_col_bound. lia. Qed.

(** ** Tokens are bytes *)

Lemma take_chars_bytes ok limit s i : bytes s -> bytes (take_chars ok limit s i).
Proof.
  intros Hs. revert i. induction limit as [|l IH]; intros i; cbn; [constructor|]. destruct (ok _); [|constructor].
  constructor; [|apply IH]. destruct (decide (i < length s)%nat) as [Hi|Hi].
  - apply (Forall_nth _ 0 s); done.
  - rewrite nth_overflow by lia. vm_compute. split; congruence.
Qed.

Lemma bytes_snoc s : bytes s -> bytes (s ++ [0]).
Proof. intros Hs. apply Forall_app. split; [done|]. constructor; [vm_compute; split; congruence|constructor]. Qed.

Definition token_bytes (p : parser) : Prop := bytes (input p) /\ bytes (tok_value p).

Lemma next_token_bytes p : token_bytes p -> token_bytes (next_token p).
Proof.
  intros [Hi Hv]. unfold next_token, token_bytes.
  assert (input (skip_whitespace p) = input p /\ tok_value (skip_whitespace p) = tok_value p) as [-> ->] by done.
  repeat match goal with |- context [if ?b then _ else _] => destruct b end; cbn [input tok_value];
    (split; [done|]); try done; try (by apply bytes_snoc, take_chars_bytes).
  constructor; [vm_compute; split; congruence|]. constructor; [vm_compute; split; congruence|constructor].
Qed.

Lemma strtou64_digits_u64 base s acc : is_u64 acc -> is_u64 (fst (strtou64_digits base s acc)).
Proof.
  revert acc. induction s as [|c s IH]; intros acc Ha; cbn; [done|]. destruct (digit_value c); [|done].
  destruct (_ <=? _); [done|]. apply IH. unfold is_word, wrap. lia.
Qed.

Lemma strtou64_u64 s : is_u64 (fst (strtou64 s 10)).
Proof. apply strtou64_digits_u64. vm_compute. split; congruence. Qed.

(** ** The row an INSERT builds *)

Section row.
Context (sch : table_schema) (Hcols : (length (columns sch) <= MAX_COLUMNS)%nat).
Abbreviation ncols := (length (columns sch)).

Lemma built_u64 rec i v : (i < ncols)%nat -> is_u64 v -> built ncols rec -> built ncols (record_set_u64 rec i v).
Proof. intros Hi Hv Hb. unfold record_set_u64. destruct (_ <=? _)%nat; [done|]. apply built_set; [done..|by apply slim_u64|done]. Qed.

Lemma built_str rec i v : (i < ncols)%nat -> bytes v -> built ncols rec -> built ncols (record_set_str rec i v).
Proof. intros Hi Hv Hb. unfold record_set_str. destruct (_ <=? _)%nat; [done|]. apply built_set; [done..|by apply slim_str_field|done]. Qed.

Lemma built_u32 rec i v : (i < ncols)%nat -> is_u32 v -> built ncols rec -> built ncols (record_set_u32 rec i v).
Proof. intros Hi Hv Hb. unfold record_set_u32. destruct (_ <=? _)%nat; [done|]. apply built_set; [done..|by apply slim_u32|done]. Qed.

Lemma built_blank rid : is_u64 rid -> is_u32 (sch_table_id sch) -> built ncols (blank_record sch rid).
Proof.
  intros Hr Ht. unfold blank_record.
  assert (built ncols (Rec rid (sch_table_id sch) (fields zero_record) 0)) as Hb.
  { constructor; cbn [row_id table_id fields field_count]; [done|done|lia|done| |].
    - apply Forall_replicate, slim_zero.
    - unfold zero_record. cbn [fields]. by rewrite drop_replicate. }
  pose proof (fun Hi => built_u64 (Rec rid (sch_table_id sch) (fields zero_record) 0) 0 rid Hi Hr Hb) as Hset.
  destruct (columns sch) as [|c cs] eqn:E; [done|]. destruct (find_column_index sch (col_name c)); [|done].
  destruct (primary_key c); [|done]. apply Hset. cbn. lia.
Qed.

Lemma set_value_built rec ci p rec' : (ci < ncols)%nat -> bytes (tok_value p) -> built ncols rec ->
  set_value sch rec ci p = Some rec' -> built ncols rec'.
Proof.
  intros Hi Hb Hr. unfold set_value. destruct (tok_type p); try done.
  - intros [= <-]. by apply built_str.
  - destruct (columns sch !! ci) as [c|]; [|intros [= <-]; by apply built_str].
    destruct (col_type c); intros [= <-]; try (by apply built_str); apply built_u64 || apply built_u32; try done.
    + apply strtou64_u64.
    + unfold is_word, wrap. lia.
Qed.

Lemma insert_values_built names rec p rec' : token_bytes p -> built ncols rec ->
  insert_values sch names rec p = Some rec' -> built ncols rec' /\ row_id rec' = row_id rec.
Proof.
  revert rec p. induction names as [|name names IH]; intros rec p Hp Hr; cbn [insert_values]; [by intros [= <-]|].
  destruct (_ || _); [by intros [= <-]|]. destruct (find_column_index sch name) as [ci|] eqn:Ec; [|done].
  apply column_bound in Ec. destruct (set_value sch rec ci p) as [rec1|] eqn:Es; [|by intros [= <-]].
  assert (built ncols rec1) as Hr1 by (eapply set_value_built; [exact Ec|apply Hp|done|done]).
  assert (row_id rec1 = row_id rec) as Er.
  { revert Es. unfold set_value, record_set_str, record_set_u64, record_set_u32. clear.
    repeat match goal with |- context [match ?x with _ => _ end] => destruct x end; by intros [= <-]. }
  destruct (is_tok _ TOK_COMMA); [|by intros [= <-]].
  intros Hi. destruct (IH rec1 (next_token (next_token p))) as [H1 H2]; [by do 2 apply next_token_bytes|done|done|]. split; [done|congruence].
Qed.

Lemma fill_columns_built rec pid now : is_u64 pid -> is_u64 now -> built ncols rec ->
  let rec' := fill_columns sch rec pid now in
  built ncols rec' /\ field_count rec' = Z.of_nat ncols /\ row_id rec' = row_id rec.
Proof.
  intros Hp Hn Hr. unfold fill_columns.
  set (P rec' := built ncols rec' /\ field_count rec' = Z.of_nat ncols /\ row_id rec' = row_id rec).
  assert (forall r i v, P r -> (i < ncols)%nat -> is_u64 v -> P (record_set_u64 r i v)) as Hset.
  { intros r i v (H1 & H2 & H3) Hi Hv. split; [by apply built_u64|]. unfold record_set_u64. destruct (_ <=? _)%nat; [done|].
    cbn [set_field field_count row_id]. split; [|done]. destruct (Z.leb_spec (field_count r) (Z.of_nat i)); lia. }
  set (r0 := Rec _ _ _ _). assert (P r0) as H0.
  { destruct Hr. split; [|done]. constructor; cbn; try done. lia. }
  assert (forall r name v, P r -> is_u64 v ->
    P (match find_column_index sch name with Some i => record_set_u64 r i v | None => r end)) as Hfill.
  { intros r name v H Hv. destruct (find_column_index sch name) eqn:E; [|done]. apply column_bound in E. by apply Hset. }
  pose proof (Hfill _ (cs "created") now (Hfill r0 (cs "owner_pid") pid H0 Hp) Hn) as H2. cbv zeta.
  match type of H2 with P ?r => revert H2; generalize r end. intros r2 H2.
  destruct (find_column_index sch (cs "size")) as [i|] eqn:E; [|exact H2]. destruct (find_column_index sch (cs "data")) as [j|]; [|exact H2].
  apply column_bound in E. apply Hset; [exact H2|done|]. unfold str_length_of, field.
  assert (is_u64 0) as Hz by (unfold is_word; lia). destruct (nth j (fields r2) zero_field) eqn:Ef; try exact Hz.
  match type of Ef with _ = ?f => assert (slim f) as [Hs _] end.
  { destruct (decide (j < length (fields r2))%nat).
    - rewrite <- Ef. apply Forall_nth; [apply H2|done].
    - rewrite nth_overflow in Ef by lia. done. }
  destruct Hs as (s & -> & Hs & _). unfold MAX_STR_LEN in Hs. unfold is_word. lia.
Qed.
End row.

(** ** The audit log *)

Lemma full_str_wf t : bytes t -> (length t <= MAX_STR_LEN)%nat ->
  slim (FStr (t ++ replicate (S MAX_STR_LEN - length t) 0) (Z.of_nat MAX_STR_LEN)).
Proof.
  intros Hb Hl. apply slim_str. exists (t ++ replicate (MAX_STR_LEN - length t) 0). unfold MAX_STR_LEN in *.
  rewrite length_app, length_replicate. split; [lia|]. split; [lia|]. split.
  - apply Forall_app. split; [done|]. apply Forall_replicate. vm_compute. split; congruence.
  - rewrite <- app_assoc, <- replicate_add. do 2 f_equal. lia.
Qed.

Lemma bytes_cs s : bytes (cs s).
Proof.
  unfold cs. apply Forall_map, Forall_true. intros a. pose proof (Ascii.N_ascii_bounded a). unfold is_word. lia.
Qed.

Lemma pad_str_bytes s : bytes s -> bytes (pad_str s).
Proof.
  intros Hs. unfold pad_str, blit. apply Forall_app. split; [apply Forall_take, Forall_replicate; vm_compute; split; congruence|].
  apply Forall_app. split; [by apply bytes_take|]. apply Forall_drop, Forall_replicate. vm_compute. split; congruence.
Qed.

(** Setting a string and declaring all its 255 characters. *)
Lemma built_full_str n rec i s : (n <= MAX_COLUMNS)%nat -> (i < n)%nat -> field_count rec = Z.of_nat n -> bytes s -> built n rec ->
  let rec' := set_str_length (record_set_str rec i s) i (Z.of_nat MAX_STR_LEN) in
  built n rec' /\ field_count rec' = Z.of_nat n /\ row_id rec' = row_id rec.
Proof.
  intros Hn Hi Hc Hs Hb. pose proof Hb as [H1 H2 H3 H4 H5 H6].
  assert (built n (set_field rec i (FStr (str_text s ++ replicate (S MAX_STR_LEN - length (str_text s)) 0) (Z.of_nat MAX_STR_LEN)))) as Hb'.
  { apply built_set; [done|done| |done]. apply full_str_wf; [apply bytes_take, bytes_take, Hs|unfold str_text; rewrite length_take; lia]. }
  unfold record_set_str. rewrite (proj2 (Nat.leb_gt _ _)) by lia. unfold set_str_length, field.
  cbn [set_field fields]. rewrite nth_lookup, list_lookup_insert_eq by (rewrite H4; lia). cbn [default id]. rewrite str_field_eq.
  cbn [id set_field row_id table_id field_count fields]. rewrite list_insert_insert_eq. cbn [set_field] in Hb'.
  unfold set_field in Hb'. assert ((field_count rec <=? Z.of_nat i) = false) as E by lia. rewrite E in *. done.
Qed.

Lemma built_u64_at n rec i v : (n <= MAX_COLUMNS)%nat -> (i < n)%nat -> field_count rec = Z.of_nat n -> is_u64 v -> built n rec ->
  let rec' := record_set_u64 rec i v in built n rec' /\ field_count rec' = Z.of_nat n /\ row_id rec' = row_id rec.
Proof.
  intros Hn Hi Hc Hv Hb. unfold record_set_u64. rewrite (proj2 (Nat.leb_gt _ _)) by lia. cbv zeta.
  split; [apply built_set; [done..|by apply slim_u64|done]|]. cbn. destruct (Z.leb_spec (field_count rec) (Z.of_nat i)); [lia|done].
Qed.

Lemma audit_record_built rid now pid action target result :
  is_u64 rid -> is_u64 now -> is_u64 pid -> is_u64 target -> bytes action -> bytes result ->
  let a := audit_record rid now pid action target result in built 6 a /\ field_count a = 6 /\ row_id a = rid.
Proof.
  intros Hr Hn Hp Ht Ha Hs. unfold audit_record. set (r0 := Rec rid _ _ 6).
  assert (built 6 r0 /\ field_count r0 = Z.of_nat 6 /\ row_id r0 = rid) as S0.
  { split; [|done]. constructor; cbn [r0 row_id table_id fields field_count]; [done|vm_compute; split; congruence|lia|done| |reflexivity].
    apply Forall_replicate, slim_zero. }
  assert (forall r i v, built 6 r /\ field_count r = Z.of_nat 6 /\ row_id r = rid -> (i < 6)%nat -> is_u64 v ->
    built 6 (record_set_u64 r i v) /\ field_count (record_set_u64 r i v) = Z.of_nat 6 /\ row_id (record_set_u64 r i v) = rid) as Hu.
  { intros r i v (B & C & D) Hi Hv. destruct (built_u64_at 6 r i v) as (B' & C' & D'); [unfold MAX_COLUMNS; lia|done..|]. split_and!; congruence || done. }
  assert (forall r i s, built 6 r /\ field_count r = Z.of_nat 6 /\ row_id r = rid -> (i < 6)%nat -> bytes s ->
    let r' := set_str_length (record_set_str r i (pad_str s)) i (Z.of_nat MAX_STR_LEN) in
    built 6 r' /\ field_count r' = Z.of_nat 6 /\ row_id r' = rid) as Hst.
  { intros r i s (B & C & D) Hi Hv. destruct (built_full_str 6 r i (pad_str s)) as (B' & C' & D'); [unfold MAX_COLUMNS; lia|done|done|by apply pad_str_bytes|done|]. split_and!; congruence || done. }
  clearbody r0. cbv zeta. apply Hst; [|lia|done]. apply Hu; [|lia|done]. apply Hst; [|lia|done].
  apply Hu; [|lia|done]. apply Hu; [|lia|done]. by apply Hu; [|lia|].
Qed.

(** Room for [n] more rows with consecutive ids from [rid] on. *)
Fixpoint room_for (n : nat) (t : btree encrypted_record) (rid : Z) : Prop :=
  match n with
  | O => True
  | S n => tree_roomy t /\ rid ∉ tree_leaf_keys t /\ is_u64 rid /\
      forall v t', btree_insert t rid v = Done t' -> room_for n t' (u64 (rid + 1))
  end.

Section writes.
Context `{Hw, AesNi, !HwLaws, !AesNiLaws}.
Context (mem : nat -> nat -> bool) (clock : nat -> Z) (stack : nat -> nat -> list Z).
Context (Hmem : forall n m, mem n m = true) (Hclock : forall n, is_u64 (clock n)).

(** The content of a table, each row under its own id. *)
Definition table_is (id : nat) (t : db_table) (content : gmap Z record) : Prop :=
  table_holds id t content /\ forall k rec, content !! k = Some rec -> row_id rec = k.

Lemma table_is_insert id t i content rec fl ivec :
  table_is id t content -> length ivec = 16%nat -> bytes ivec -> wf_record rec -> fits_record rec ->
  abs i = <[row_id rec := seal_record fl t id ivec rec]> (abs (index t)) ->
  table_is id (set_index t i) (<[row_id rec := rec]> content).
Proof.
  intros [Hh Hk] Hl Hb Hwf Hf Ea. split.
  - intros k. cbn [set_index index]. rewrite Ea. destruct (decide (k = row_id rec)) as [->|Hne].
    + rewrite !lookup_insert_eq. by exists fl, ivec.
    + rewrite !lookup_insert_ne by done. exact (Hh k).
  - intros k r. destruct (decide (k = row_id rec)) as [->|Hne]; [rewrite lookup_insert_eq; by intros [= ->]|].
    rewrite lookup_insert_ne by done. apply Hk.
Qed.

Lemma table_is_delete id t i content rid :
  table_is id t content -> abs i = delete rid (abs (index t)) -> table_is id (set_index t i) (delete rid content).
Proof.
  intros [Hh Hk] Ea. split.
  - intros k. cbn [set_index index]. rewrite Ea. destruct (decide (k = rid)) as [->|Hne].
    + by rewrite !lookup_delete_eq.
    + rewrite !lookup_delete_ne by done. exact (Hh k).
  - intros k r Hr. apply lookup_delete_Some in Hr as [_ Hr]. by apply Hk.
Qed.

(** One entry of the audit log. *)
Lemma audit_spec pid action target res q a acontent :
  db_ok (q_db q) -> tables (q_db q) !! TABLE_ID_AUDIT = Some a -> table_is TABLE_ID_AUDIT a acontent ->
  room_for 1 (index a) (global_row_id (q_db q)) -> is_u64 pid -> is_u64 target ->
  exists db' i v, audit mem clock pid action target res q = Done (Q db' (q_caps q) (S (q_calls q)), tt) /\
    db_ok db' /\ tables db' = <[TABLE_ID_AUDIT := set_index a i]> (tables (q_db q)) /\
    global_row_id db' = u64 (global_row_id (q_db q) + 1) /\
    btree_insert (index a) (global_row_id (q_db q)) v = Done i /\
    table_is TABLE_ID_AUDIT (set_index a i)
      (<[global_row_id (q_db q) := audit_record (global_row_id (q_db q)) (clock (q_calls q)) pid (cs action) target (cs res)]> acontent).
Proof.
  intros Hok L Hta (Hroom & Hfresh & Hrid & _) Hp Ht.
  set (rid := global_row_id (q_db q)) in *. set (rec := audit_record rid (clock (q_calls q)) pid (cs action) target (cs res)).
  destruct (audit_record_built rid (clock (q_calls q)) pid (cs action) target (cs res)) as (Hb & Hc & Hr); [done|apply Hclock|done|done|apply bytes_cs|apply bytes_cs|].
  assert (wf_record rec) as Hwf by (apply (built_wf 6); [unfold MAX_COLUMNS; lia|done|done]).
  assert (fits_record rec) as Hfit by (apply (built_fits 6); [lia|done|done]).
  set (st1 := (db_next_row_id (q_db q)).1).
  assert (db_ok st1) as Hok1 by (destruct Hok; by constructor).
  destruct (insert_stores (mem (q_calls q)) st1 TABLE_ID_AUDIT a rec) as (i & g & ivec & Hl & Hbi & E & Hok' & Ea & Ei);
    [done|done|apply Hmem|done|done|done|by unfold rec; rewrite Hr|].
  exists (after_insert st1 TABLE_ID_AUDIT a i rec g), i, (seal_record (aes_fl st1) a TABLE_ID_AUDIT ivec rec). split.
  { unfold audit, bind, tick, get_db, lift, set_db, db_audit_log. cbn [q_db q_calls]. unfold db_next_row_id at 1.
    fold rid. fold rec. change (Db _ _ _ _ _ _ _) with st1. rewrite E. done. }
  split; [done|]. split; [done|]. split; [done|]. split; [by unfold rec in Ei; rewrite Hr in Ei|].
  pose proof (table_is_insert TABLE_ID_AUDIT a i acontent rec _ ivec Hta Hl Hbi Hwf Hfit Ea) as Hi.
  unfold rec in Hi at 1. by rewrite Hr in Hi.
Qed.

(** ** INSERT *)

(** INSERT queries: the table, the columns and the place of the values. *)
Definition insert_query (text : list Z) : option (list Z * list (list Z) * parser) :=
  let p := next_token (Parser text 0 TOK_EOF [0]) in
  match expect p TOK_INSERT with
  | None => None
  | Some p =>
      match expect p TOK_INTO with
      | None => None
      | Some p =>
          if negb (is_tok p TOK_IDENT) then None
          else
            match expect (next_token p) TOK_LPAREN with
            | None => None
            | Some p1 =>
                let '(p2, names) := insert_columns stack MAX_INSERT_VALS 0 p1 in
                match expect p2 TOK_RPAREN with
                | None => None
                | Some p2 =>
                    match expect p2 TOK_VALUES with
                    | None => None
                    | Some p2 =>
                        match expect p2 TOK_LPAREN with
                        | None => None
                        | Some p2 => Some (tok_value p, names, p2)
                        end
                    end
                end
            end
      end
  end.

Lemma expect_bytes p t p' : expect p t = Some p' -> token_bytes p -> token_bytes p'.
Proof. unfold expect. destruct (negb _); [done|]. intros [= <-]. apply next_token_bytes. Qed.

Lemma insert_columns_bytes room i p : token_bytes p -> token_bytes (insert_columns stack room i p).1.
Proof.
  revert i p. induction room as [|room IH]; intros i p Hp; cbn [insert_columns]; [done|]. destruct (negb _); [done|].
  destruct (is_tok (next_token p) TOK_COMMA); [|by apply next_token_bytes].
  specialize (IH (S i) (next_token (next_token p))). destruct (insert_columns _ _ _ _). apply IH. by do 2 apply next_token_bytes.
Qed.

Lemma insert_query_bytes text name names p : bytes text -> insert_query text = Some (name, names, p) -> token_bytes p.
Proof.
  intros Hb. unfold insert_query.
  assert (token_bytes (next_token (Parser text 0 TOK_EOF [0]))) as Htok.
  { apply next_token_bytes. split; [done|]. constructor; [vm_compute; split; congruence|constructor]. }
  destruct (expect _ TOK_INSERT) as [p1|] eqn:E1; [|done]. destruct (expect p1 TOK_INTO) as [p2|] eqn:E2; [|done].
  destruct (negb _); [done|]. destruct (expect (next_token p2) TOK_LPAREN) as [p3|] eqn:E3; [|done].
  assert (token_bytes p3) as Htok3 by (eapply expect_bytes, next_token_bytes; [done|]; do 2 (eapply expect_bytes; [done|]); done).
  pose proof (insert_columns_bytes MAX_INSERT_VALS 0 p3 Htok3) as Htok4. destruct (insert_columns _ _ _ _) as [p4 ns]. cbn [fst] in Htok4.
  destruct (expect p4 TOK_RPAREN) as [p5|] eqn:E5; [|done]. destruct (expect p5 TOK_VALUES) as [p6|] eqn:E6; [|done].
  destruct (expect p6 TOK_LPAREN) as [p7|] eqn:E7; [|done]. intros [= _ _ <-]. by do 3 (eapply expect_bytes; [done|]).
Qed.

Lemma inserted_message r a q : exists r', result_message (Some r) "1 row inserted (row_id=%llu)" [AInt a] q = Done (q, Some r') /\
  error_code r' = error_code r.
Proof. eexists. split; reflexivity. Qed.

(** What an INSERT does: the rows, and the trees they are stored in. *)
Lemma insert_statement (text : list Z) (pid : Z) (q : q_state) name names p id t content a acontent :
  bytes text -> is_u64 pid -> db_ok (q_db q) ->
  insert_query text = Some (name, names, p) -> db_get_schema (q_db q) name = Some id ->
  tables (q_db q) !! id = Some t -> sch_table_id (schema t) = Z.of_nat id -> (length (columns (schema t)) <= 15)%nat ->
  tables (q_db q) !! TABLE_ID_AUDIT = Some a -> id <> TABLE_ID_AUDIT -> Z.of_nat id < 2 ^ 32 ->
  table_is id t content -> table_is TABLE_ID_AUDIT a acontent ->
  let rid := global_row_id (q_db q) in
  room_for 1 (index t) rid -> room_for 1 (index a) (u64 (rid + 1)) ->
  match insert_values (schema t) names (blank_record (schema t) rid) p with
  | None => exists q' r, query_execute mem clock stack text pid q = Done (q', Some r) /\ error_code r = VOS_ERR_INVAL /\
      tables (q_db q') = tables (q_db q) /\ q_caps q' = q_caps q
  | Some vals => exists q' r i v i' v' now,
      let t' := set_index t i in let a' := set_index a i' in
      btree_insert (index t) rid v = Done i /\ btree_insert (index a) (u64 (rid + 1)) v' = Done i' /\
      query_execute mem clock stack text pid q = Done (q', Some r) /\ error_code r = VOS_OK /\
      tables (q_db q') = <[TABLE_ID_AUDIT := a']> (<[id := t']> (tables (q_db q))) /\
      table_is id t' (<[rid := fill_columns (schema t) vals pid (clock (q_calls q))]> content) /\
      table_is TABLE_ID_AUDIT a' (<[u64 (rid + 1) := audit_record (u64 (rid + 1)) now pid (cs "INSERT") rid (cs "OK")]> acontent) /\
      db_ok (q_db q') /\ q_caps q' = q_caps q /\ global_row_id (q_db q') = u64 (u64 (rid + 1) + 1)
  end.
Proof.
  intros Hbt Hpid Hok Hq Hn L Hid Hcols La Hne Hlt Ht Hta rid (Hr1 & Hr2 & Hrid & _) Hra.
  pose proof (insert_query_bytes _ _ _ _ Hbt Hq) as Hpb. unfold insert_query in Hq. unfold query_execute.
  set (p0 := next_token (Parser text 0 TOK_EOF [0])) in *.
  destruct (expect p0 TOK_INSERT) as [p1|] eqn:E0; [|done]. unfold expect in E0. destruct (is_tok p0 TOK_INSERT) eqn:Et; [|done].
  cbn [negb] in E0. injection E0 as <-. apply is_tok_true in Et. rewrite Et. unfold exec_insert.
  destruct (expect (next_token p0) TOK_INTO) as [p2|]; [|done]. destruct (is_tok p2 TOK_IDENT); [|done]. cbn [negb] in *.
  destruct (expect (next_token p2) TOK_LPAREN) as [p3|]; [|done].
  destruct (insert_columns stack MAX_INSERT_VALS 0 p3) as [p4 ns]. destruct (expect p4 TOK_RPAREN) as [p5|]; [|done].
  destruct (expect p5 TOK_VALUES) as [p6|]; [|done]. destruct (expect p6 TOK_LPAREN) as [p7|]; [|done].
  injection Hq as -> -> ->. unfold bind, schema_named, bind, get_db, ret, set_db, db_get_schema_by_id. rewrite Hn, L.
  cbn [db_next_row_id q_db q_caps q_calls]. fold rid.
  set (st1 := Db _ _ _ _ _ _ _). assert (db_ok st1) as Hok1 by (destruct Hok; by constructor).
  pose proof (built_blank (schema t) ltac:(unfold MAX_COLUMNS; lia) rid Hrid ltac:(rewrite Hid; unfold is_word; lia)) as Hbl.
  destruct (insert_values (schema t) names (blank_record (schema t) rid) p) as [vals|] eqn:Ev.
  2:{ unfold result_error, bind, tick, ret, db_result_error, db_result_create. rewrite !Hmem. cbn [negb q_db q_caps Z.ltb Z.compare andb]. eexists _, _. by split_and!. }
  destruct (insert_values_built (schema t) ltac:(unfold MAX_COLUMNS; lia) _ _ _ _ Hpb Hbl Ev) as [Hbv Hrv].
  set (rec := fill_columns (schema t) vals pid (clock (q_calls q))).
  destruct (fill_columns_built (schema t) ltac:(unfold MAX_COLUMNS; lia) vals pid (clock (q_calls q)) Hpid (Hclock _) Hbv) as (Hbf & Hcf & Hrf).
  fold rec in Hbf, Hcf, Hrf.
  assert (row_id rec = rid) as Hrr by (rewrite Hrf, Hrv; unfold blank_record, record_set_u64; destruct (columns (schema t)); [done|];
    destruct (find_column_index _ _); [|done]; destruct (primary_key _); done).
  assert (wf_record rec) as Hwfr by (apply (built_wf (length (columns (schema t)))); [unfold MAX_COLUMNS; lia|done|done]).
  assert (fits_record rec) as Hfr by (by apply (built_fits (length (columns (schema t))))).
  destruct (insert_stores (mem (q_calls q)) st1 id t rec) as (i & g & ivec & Hl & Hbi & E & Hok2 & Ea & Ei);
    [done|done|apply Hmem|done|done|done|by rewrite Hrr|].
  unfold insert_row, bind, tick, get_db, lift, set_db. cbn [q_db q_calls q_caps]. fold rec.
  rewrite Hid, Nat2Z.id, E. change (negb (VOS_OK =? VOS_OK)) with false. cbv iota.
  set (st2 := after_insert st1 id t i rec g) in *. rewrite Hrr. cbn [q_db q_caps q_calls].
  set (q1 := Q st2 (q_caps q) (S (q_calls q))).
  assert (tables st2 = <[id := set_index t i]> (tables (q_db q))) as Et2 by done.
  destruct (audit_spec pid "INSERT" rid "OK" q1 a acontent) as (db' & i' & v & Eau & Hok' & Et' & Eg & Ei' & Hta');
    [done|by cbn [q1 q_db]; rewrite Et2, list_lookup_insert_ne|done|done|done|done|]. rewrite Eau.
  unfold result_create, bind, tick, ret, db_result_create. rewrite Hmem. cbn [negb q_db q_caps q_calls Z.ltb Z.compare andb].
  match goal with |- context [result_message (Some ?r) _ [AInt ?a] ?s] => destruct (inserted_message r a s) as (r' & -> & Hr') end.
  eexists _, r', i, _, i', v, _. cbv zeta. split; [rewrite <- Hrr; exact Ei|]. split; [exact Ei'|]. split; [reflexivity|]. cbn [q_db q_caps].
  split; [done|]. split; [by rewrite Et'|]. split.
  { pose proof (table_is_insert id t i content rec _ ivec Ht Hl Hbi Hwfr Hfr Ea) as Hi. by rewrite Hrr in Hi. }
  split; [exact Hta'|]. by rewrite Eg.
Qed.

(** ** DELETE *)

Lemma table_is_row id t content k rec : table_is id t content -> content !! k = Some rec -> is_u64 (row_id rec).
Proof.
  intros [Hh _] Hk. specialize (Hh k). rewrite Hk in Hh. destruct (abs (index t) !! k) as [enc|]; [|done].
  destruct Hh as (fl & ivec & _ & _ & _ & Hwf & _). apply (wf_row _ Hwf).
Qed.

(** The audit log after one entry per target, with consecutive ids. *)
Fixpoint logged (pid : Z) (action : string) (rid : Z) (targets times : list Z) (log : gmap Z record) : gmap Z record :=
  match targets, times with
  | target :: targets, now :: times =>
      logged pid action (u64 (rid + 1)) targets times (<[rid := audit_record rid now pid (cs action) target (cs "OK")]> log)
  | _, _ => log
  end.

Definition without (rs : list record) (content : gmap Z record) : gmap Z record :=
  foldl (fun m r => delete (row_id r) m) content rs.

Lemma without_lookup rs content k : without rs content !! k = if decide (k ∈ map row_id rs) then None else content !! k.
Proof.
  revert content. induction rs as [|r rs IH]; intros content; [done|]. cbn [without foldl map]. fold (without rs (delete (row_id r) content)).
  rewrite IH. destruct (decide (k ∈ map row_id rs)) as [Hk|Hk]; [by rewrite decide_True by by right|].
  destruct (decide (k = row_id r)) as [->|Hne].
  - rewrite lookup_delete_eq, decide_True by left. done.
  - rewrite lookup_delete_ne, decide_False by (rewrite ?elem_of_cons; naive_solver). done.
Qed.

Lemma delete_loop_spec id pid rs : id <> TABLE_ID_AUDIT -> is_u64 pid -> forall n q t content a acontent,
  db_ok (q_db q) -> tables (q_db q) !! id = Some t -> tables (q_db q) !! TABLE_ID_AUDIT = Some a ->
  table_is id t content -> table_is TABLE_ID_AUDIT a acontent ->
  room_for (length rs) (index a) (global_row_id (q_db q)) ->
  Forall (fun r => content !! row_id r = Some r) rs -> NoDup (map row_id rs) ->
  exists q' m t' a' times, delete_loop mem clock id rs pid n q = Done (q', m) /\
    tables (q_db q') = <[TABLE_ID_AUDIT := a']> (<[id := t']> (tables (q_db q))) /\
    schema t' = schema t /\ schema a' = schema a /\ table_is id t' (without rs content) /\
    length times = length rs /\
    table_is TABLE_ID_AUDIT a' (logged pid "DELETE" (global_row_id (q_db q)) (map row_id rs) times acontent) /\
    db_ok (q_db q') /\ q_caps q' = q_caps q.
Proof.
  intros Hne Hp. induction rs as [|r rs IH]; intros n q t content a acontent Hok L La Ht Ha Hroom Hrs Hnd.
  { exists q, n, t, a, []. split; [done|]. split; [by rewrite (list_insert_id _ id), list_insert_id|]. by split_and!. }
  apply Forall_cons in Hrs as [Hr Hrs]. cbn [map] in Hnd. apply NoDup_cons in Hnd as [Hnr Hnd].
  pose proof (table_is_row _ _ _ _ _ Ht Hr) as Hru. cbn [delete_loop length] in *.
  pose proof (delete_spec (q_db q) id t (row_id r) Hok L) as Hd. rewrite (stored_table _ _ _ _ L) in Hd.
  destruct (abs (index t) !! row_id r) as [enc|] eqn:Ee.
  2:{ exfalso. destruct Ht as [Hh _]. specialize (Hh (row_id r)). by rewrite Ee, Hr in Hh. }
  destruct Hd as (i & Ed & Hwi & Ea & _). unfold bind, get_db, lift, set_db. rewrite Ed. cbn [fst q_db q_caps q_calls].
  set (q1 := Q (with_tables (q_db q) (<[id := set_index t i]> (tables (q_db q)))) (q_caps q) (q_calls q)).
  destruct Hroom as (Hr1 & Hr2 & Hr3 & Hrest).
  destruct (audit_spec pid "DELETE" (row_id r) "OK" q1 a acontent) as (db' & i' & v & Eau & Hok' & Et' & Eg & Ei & Ha');
    [by apply with_tables_ok|by cbn; rewrite list_lookup_insert_ne|done|exact (conj Hr1 (conj Hr2 (conj Hr3 (fun _ _ _ => I))))|done|done|].
  rewrite Eau. cbn [q1 q_caps q_calls q_db with_tables tables global_row_id] in *.
  pose proof (lookup_lt_Some _ _ _ L). pose proof (lookup_lt_Some _ _ _ La).
  destruct (IH (u32 (n + 1)) (Q db' (q_caps q) (S (q_calls q))) (set_index t i) (delete (row_id r) content) (set_index a i')
    (<[global_row_id (q_db q) := audit_record (global_row_id (q_db q)) (clock (q_calls q)) pid (cs "DELETE") (row_id r) (cs "OK")]> acontent) Hok')
    as (q' & m & t' & a' & times & E & Etab & Es & Eas & Ht' & Hlen & Ha2 & Hok2 & Hc).
  - cbn [q_db]. rewrite Et', list_lookup_insert_ne, list_lookup_insert_eq by done. done.
  - cbn [q_db]. rewrite Et', list_lookup_insert_eq by (by rewrite length_insert). done.
  - by apply table_is_delete.
  - exact Ha'.
  - cbn [q_db set_index index]. rewrite Eg. eapply Hrest. exact Ei.
  - rewrite Forall_forall in Hrs |- *. intros r' Hr'. rewrite lookup_delete_ne; [by apply Hrs|].
    intros Eq. apply Hnr. rewrite Eq. apply list_elem_of_In, in_map. by apply list_elem_of_In.
  - done.
  - exists q', m, t', a', (clock (q_calls q) :: times). cbn [q_db q_caps] in *. split; [done|]. split.
    { rewrite Etab, Et'. rewrite (list_insert_insert_ne _ id TABLE_ID_AUDIT), !list_insert_insert_eq by done. done. }
    rewrite Eg in Ha2. split; [done|]. split; [done|]. split; [done|]. split; [cbn; lia|]. by split_and!.
Qed.

Lemma deleted_message r a q : exists r', result_message (Some r) "%u row(s) deleted" [AInt a] q = Done (q, Some r') /\
  error_code r' = error_code r.
Proof.
  unfold result_message. destruct (snprintf _ _ _ _) as [[msg n]|] eqn:E; [by eexists|]. discriminate E.
Qed.

(** The rows of a content that satisfy the conditions, and the rest. *)
Lemma matching_rows_of sch conds content (l : list (Z * record)) :
  (forall k rec, content !! k = Some rec -> row_id rec = k) -> l ≡ₚ map_to_list content ->
  let rs := matching sch conds l.*2 in
  Forall (fun r => content !! row_id r = Some r) rs /\ NoDup (map row_id rs) /\
  without rs content = filter (fun kr => record_matches kr.2 sch conds = false) content.
Proof.
  intros Hk Hl rs.
  assert (forall r, r ∈ rs <-> content !! row_id r = Some r /\ record_matches r sch conds = true) as Hin.
  { intros r. unfold rs, matching. rewrite list_elem_of_In, filter_In, <- list_elem_of_In, list_elem_of_fmap. split.
    - intros [([k r'] & -> & Hr) Hm]. rewrite Hl, elem_of_map_to_list in Hr. cbn in *. by rewrite (Hk k r' Hr).
    - intros [Hr Hm]. split; [|done]. exists (row_id r, r). split; [done|]. by rewrite Hl, elem_of_map_to_list. }
  split; [|split].
  - apply Forall_forall. intros r Hr. by apply Hin.
  - apply (NoDup_fmap_2_strong row_id).
    + intros r r' Hr Hr' E. apply Hin in Hr as [Hr _], Hr' as [Hr' _]. congruence.
    + unfold rs, matching. apply NoDup_ListNoDup, List.NoDup_filter, NoDup_ListNoDup, (NoDup_fmap_1 row_id).
      rewrite <- list_fmap_compose. rewrite (list_fmap_ext _ fst); [rewrite Hl; apply NoDup_fst_map_to_list|].
      intros i [k r] Hi. cbn. apply Hk. apply elem_of_map_to_list. rewrite <- Hl. by eapply list_elem_of_lookup_2.
  - apply map_eq. intros k. rewrite without_lookup, map_lookup_filter. destruct (content !! k) as [r|] eqn:E; cbn.
    + pose proof (Hk k r E) as Er. destruct (record_matches r sch conds) eqn:Em.
      * rewrite decide_True; [by rewrite option_guard_False|]. rewrite <- Er. apply list_elem_of_In, in_map, list_elem_of_In, Hin. by rewrite Er.
      * rewrite decide_False; [by rewrite option_guard_True|]. intros Hi%list_elem_of_In. apply in_map_iff in Hi as (r' & Er' & Hr').
        apply list_elem_of_In, Hin in Hr' as [Hr' Hm']. rewrite Er' in Hr'. congruence.
    + by case_decide.
Qed.

(** What a DELETE does; one that matches no row leaves the tables alone. *)
Lemma delete_statement (text : list Z) (pid : Z) (q : q_state) name conds id t content a acontent :
  is_u64 pid -> db_ok (q_db q) ->
  delete_query stack text = Some (name, conds) -> db_get_schema (q_db q) name = Some id ->
  tables (q_db q) !! id = Some t -> sch_table_id (schema t) = Z.of_nat id ->
  tables (q_db q) !! TABLE_ID_AUDIT = Some a -> id <> TABLE_ID_AUDIT ->
  table_is id t content -> table_is TABLE_ID_AUDIT a acontent ->
  (forall n, (n <= size content)%nat -> room_for n (index a) (global_row_id (q_db q))) ->
  exists q' r t' a' l times,
    query_execute mem clock stack text pid q = Done (q', Some r) /\ error_code r = VOS_OK /\
    tables (q_db q') = <[TABLE_ID_AUDIT := a']> (<[id := t']> (tables (q_db q))) /\
    schema t' = schema t /\ schema a' = schema a /\
    table_is id t' (filter (fun kr => record_matches kr.2 (schema t) conds = false) content) /\
    StronglySorted Z.lt l.*1 /\ l ≡ₚ map_to_list content /\
    length times = length (matching (schema t) conds l.*2) /\
    table_is TABLE_ID_AUDIT a'
      (logged pid "DELETE" (global_row_id (q_db q)) (map row_id (matching (schema t) conds l.*2)) times acontent) /\
    db_ok (q_db q') /\ q_caps q' = q_caps q /\
    (matching (schema t) conds l.*2 = [] -> tables (q_db q') = tables (q_db q) /\ global_row_id (q_db q') = global_row_id (q_db q)).
Proof.
  intros Hp Hok Hq Hn L Hid La Hne Ht Ha Hroom. unfold delete_query in Hq. unfold query_execute.
  set (p0 := next_token (Parser text 0 TOK_EOF [0])) in *.
  destruct (is_tok p0 TOK_DELETE) eqn:E0; [|done]. cbn [negb] in Hq. apply is_tok_true in E0. rewrite E0.
  unfold exec_delete. destruct (expect (next_token p0) TOK_FROM) as [p1|]; [|done]. destruct (is_tok p1 TOK_IDENT); [|done].
  cbn [negb]. injection Hq as <- <-. destruct (parse_where stack (next_token p1)) as [p2 conds]. cbn [snd].
  unfold bind, schema_named, bind, get_db, ret, db_get_schema_by_id. rewrite Hn, L.
  unfold matching_rows, result_create, bind, tick, ret, db_result_create. rewrite !Hmem, andb_false_r. cbn [negb].
  set (q1 := Q (q_db q) (q_caps q) (S (q_calls q))).
  destruct (scan_table_holds mem (schema t) conds id t content q1 (QResult [] 16 VOS_OK (replicate 256 0) None) Hmem Hok L Hid (proj1 Ht))
    as (q2 & r & l & -> & Hr & Hs & Hl & _ & _ & Hok2 & Et2 & Ec2 & Eg2). cbn [rows app] in Hr. rewrite Hr.
  destruct (matching_rows_of (schema t) conds content l (proj2 Ht) Hl) as (Hrs & Hnd & Ew).
  rewrite Hid, Nat2Z.id. cbn [q1 q_db q_caps] in *.
  destruct (delete_loop_spec id pid (matching (schema t) conds l.*2) Hne Hp 0 q2 t content a acontent)
    as (q3 & m & t' & a' & times & Ed & Et3 & Es & Eas & Ht' & Hlen & Ha' & Hok3 & Ec3); try (rewrite ?Et2; done).
  { rewrite Eg2. apply Hroom. unfold matching.
    apply Permutation_length in Hl. rewrite length_map_to_list in Hl. rewrite <- Hl.
    etransitivity; [apply filter_length_le|]. by rewrite length_fmap. }
  rewrite Ed. rewrite Hmem. cbn [negb Z.ltb Z.compare andb].
  match goal with |- context [result_message (Some ?r) _ [AInt ?a] ?s] => destruct (deleted_message r a s) as (r' & -> & Hr') end.
  exists (Q (q_db q3) (q_caps q3) (S (q_calls q3))), r', t', a', l, times. cbn [q_db q_caps]. rewrite Ew in Ht'. rewrite Et2 in Et3.
  rewrite Eg2 in Ha'. split_and!; try done; [congruence|].
  intros Em. rewrite Em in Ed. injection Ed as <- _. by rewrite Et2, Eg2.
Qed.

End writes.

(** ** Witnesses: the system tables, empty, and one with a row *)

Definition sys_db : db_state := foldl (fun st sch => fst (db_create_table st sch)) (db_init boot_db) system_schemas.
Definition sys_table (id : nat) : db_table := nth id (tables sys_db) demo_table.

Lemma sys_db_ok : db_ok sys_db.
Proof. unfold sys_db. cbn [foldl system_schemas]. repeat apply create_table_ok. apply init_ok; reflexivity. Qed.

Lemma sys_table_at id : (id < 6)%nat -> tables sys_db !! id = Some (sys_table id).
Proof.
  intros Hi. unfold sys_table. rewrite nth_lookup. destruct (tables sys_db !! id) eqn:E; [done|].
  apply lookup_ge_None in E. assert (length (tables sys_db) = 6%nat) as El by (vm_compute; reflexivity). lia.
Qed.

Lemma sys_table_index id : (id < 6)%nat -> index (sys_table id) = btree_init (Z.of_nat id).
Proof. intros Hi. do 6 (destruct id as [|id]; [vm_compute; reflexivity|]). lia. Qed.

Lemma empty_is id t : index t = btree_init (Z.of_nat id) -> table_is id t ∅.
Proof.
  intros E. split; [|done]. intros k. rewrite E, (proj2 (wf_tree_init _)), !lookup_empty. done.
Qed.

Lemma empty_room t rid : (exists i, index t = btree_init i) -> is_u64 rid -> room_for 1 (index t) rid.
Proof. intros [i ->] Hr. split; [exact I|]. split; [apply not_elem_of_nil|]. by split. Qed.

Definition noon : nat -> Z := fun _ => 1000.

Lemma noon_u64 n : is_u64 (noon n).
Proof. vm_compute. split; congruence. Qed.

Definition object_schema : table_schema :=
  let s := nth 3 system_schemas show_schema in Schema (sch_name s) 3 (columns s) (encrypted s) (system_table s).

Lemma sys_row_id : global_row_id sys_db = 1.
Proof. vm_compute. reflexivity. Qed.

Lemma sys_objects_schema : schema (sys_table 3) = object_schema.
Proof. vm_compute. reflexivity. Qed.

(** The parts of [demo_insert], and the values of its row. *)
Definition one_row : encrypted_record := seal_record (AesFlags false false) (sys_table 3) 3 (replicate 16 0) sample_record.
Definition one_row_table : db_table := set_index (sys_table 3) (one_tree one_row).
Definition one_row_db : db_state := with_tables sys_db (<[3%nat := one_row_table]> (tables sys_db)).

Lemma set_index_schema t i : schema (set_index t i) = schema t.
Proof. reflexivity. Qed.

Lemma one_row_schema : schema one_row_table = object_schema.
Proof. unfold one_row_table. rewrite set_index_schema. apply sys_objects_schema. Qed.

Lemma one_row_is : table_is 3 one_row_table {[7 := sample_record]}.
Proof.
  split.
  - intros k. unfold one_row_table. cbn [set_index index]. rewrite one_tree_abs. destruct (decide (k = 7)) as [->|Hk].
    + rewrite !lookup_singleton_eq. exists (AesFlags false false), (replicate 16 0). split; [symmetry; apply seal_set_index|].
      split; [done|]. split; [apply Forall_replicate; by_compute|]. split; [apply sample_record_wf|]. by apply Nat.leb_le.
    + by rewrite !lookup_singleton_ne by done.
  - intros k rec [<- <-]%lookup_singleton_Some. reflexivity.
Qed.

Definition demo_delete : list Z := cs "DELETE FROM objecttable WHERE obj_id = 7".

Definition demo_conditions : list where_cond := Eval vm_compute in match delete_query zero_stack demo_delete with Some (_, c) => c | None => [] end.

Lemma demo_delete_parts : delete_query zero_stack demo_delete = Some (cs "objecttable" ++ [0], demo_conditions).
Proof. vm_compute. reflexivity. Qed.

Lemma demo_delete_matches : record_matches sample_record object_schema demo_conditions = true.
Proof. vm_compute. reflexivity. Qed.

Lemma one_row_objects : db_get_schema one_row_db (cs "objecttable" ++ [0]) = Some 3%nat.
Proof. vm_compute. reflexivity. Qed.

Lemma with_tables_row_id st ts : global_row_id (with_tables st ts) = global_row_id st.
Proof. reflexivity. Qed.

Lemma with_tables_tables st ts : tables (with_tables st ts) = ts.
Proof. reflexivity. Qed.

Lemma one_row_ok : db_ok one_row_db.
Proof. unfold one_row_db, one_row_table. apply with_tables_ok; [exact sys_db_ok|apply sys_table_at; lia|apply one_tree_wf]. Qed.

Lemma one_row_at : tables one_row_db !! 3%nat = Some one_row_table.
Proof. unfold one_row_db. rewrite with_tables_tables. apply list_lookup_insert_eq. eapply lookup_lt_Some, (sys_table_at 3). lia. Qed.

Lemma one_row_audit : tables one_row_db !! TABLE_ID_AUDIT = Some (sys_table 5).
Proof.
  unfold one_row_db. rewrite with_tables_tables, list_lookup_insert_ne by discriminate. apply (sys_table_at 5). lia.
Qed.

Lemma one_row_row_id : global_row_id one_row_db = 1.
Proof. unfold one_row_db. rewrite with_tables_row_id. apply sys_row_id. Qed.

#[local] Opaque one_row_db one_row_table.


(** The finding: the document editor doubles the apostrophes of a line before
    it builds an INSERT, but the tokenizer ends a string at the first one. *)
Example apostrophe_ends_string :
  let p := next_token (Parser (cs "'it''s') ") 0 TOK_EOF [0]) in
  (tok_type p, tok_value p) = (TOK_STRING, cs "it" ++ [0]) /\ tok_type (next_token p) = TOK_STRING.
Proof. vm_compute. split; reflexivity. Qed.
