(* ===== verification/Ring.v ===== *)
(** * Ring buffers of the input path

    The keyboard driver, the mouse driver and the event queue of the graphical
    interface each keep the same structure: an array of [N] slots, an index
    [head] where the producer writes next and an index [tail] where the
    consumer reads next; the buffer is full when the successor of [head] is
    [tail], and a push is then dropped.  This file holds that structure, its
    abstract content, the interface [InputDevice] through which the consumers
    see the drivers, and the interleaving of a consumer with the interrupt
    handler that fills its buffer. *)

From stdpp Require Import relations.
From S2P Require Import Prelude.

Record ring (A : Type) := Ring { slots : list A; head : nat; tail : nat }.
Arguments Ring {A} _ _ _.
Arguments slots {A} _.
Arguments head {A} _.
Arguments tail {A} _.

Section operations.
Context {A : Type} (d : A) (N : nat).

Definition ring_push (r : ring A) (x : A) : ring A :=
  let nxt := ((head r + 1) mod N)%nat in
  if (nxt =? tail r)%nat then r else Ring (<[head r := x]> (slots r)) nxt (tail r).

Definition ring_empty (r : ring A) : bool := (head r =? tail r)%nat.
Definition ring_front (r : ring A) : A := nth (tail r) (slots r) d.
Definition ring_advance (r : ring A) : ring A :=
  Ring (slots r) (head r) ((tail r + 1) mod N).

Definition ring_pop (r : ring A) : option (A * ring A) :=
  if ring_empty r then None else Some (ring_front r, ring_advance r).

(** ** The abstract content, from the oldest element *)

Definition ring_used (r : ring A) : nat := ((head r + N - tail r) mod N)%nat.
Definition ring_items (r : ring A) : list A :=
  map (fun k => nth ((tail r + k) mod N) (slots r) d) (seq 0 (ring_used r)).

Record wf_ring (r : ring A) : Prop := {
  wr_len : length (slots r) = N;
  wr_head : (head r < N)%nat;
  wr_tail : (tail r < N)%nat
}.

Definition ring_full (r : ring A) : Prop := (length (ring_items r) + 1 = N)%nat.

(** What the queue holds after a push is offered to it. *)
Definition offer (l : list A) (x : A) : list A :=
  if (length l + 1 =? N)%nat then l else l ++ [x].
End operations.

(** Case analysis on the index comparisons of the goal. *)
Ltac split_bools :=
  repeat match goal with
         | |- context [(?a <? ?b)%nat] => destruct (Nat.ltb_spec a b)
         | |- context [(?a <=? ?b)%nat] => destruct (Nat.leb_spec a b)
         | H : context [(?a <? ?b)%nat] |- _ => destruct (Nat.ltb_spec a b)
         | H : context [(?a <=? ?b)%nat] |- _ => destruct (Nat.leb_spec a b)
         end; try lia.

Section lemmas.
Context {A : Type} (d : A) (N : nat).
Implicit Types r : ring A.

Lemma mod_step (a b : nat) : (a < N)%nat -> (b <= N)%nat ->
  ((a + b) mod N = if (a + b <? N)%nat then a + b else a + b - N)%nat.
Proof.
  intros Ha Hb. destruct (Nat.ltb_spec (a + b) N) as [H|H].
  - by apply Nat.mod_small.
  - symmetry. apply Nat.mod_unique with 1%nat; lia.
Qed.

Lemma nth_insert_same (l : list A) i x : (i < length l)%nat -> nth i (<[i := x]> l) d = x.
Proof. intros. apply nth_lookup_Some. by apply list_lookup_insert_eq. Qed.

Lemma nth_insert_other (l : list A) i j x : i <> j -> nth j (<[i := x]> l) d = nth j l d.
Proof. intros. rewrite !nth_lookup. by rewrite list_lookup_insert_ne. Qed.

Lemma length_ring_items r : length (ring_items d N r) = ring_used N r.
Proof. unfold ring_items. by rewrite length_map, length_seq. Qed.

Lemma ring_used_eq r : (head r < N)%nat -> (tail r < N)%nat ->
  ring_used N r = (if (tail r <=? head r)%nat then head r - tail r else head r + N - tail r)%nat.
Proof.
  intros Hh Ht. unfold ring_used. destruct (Nat.leb_spec (tail r) (head r)).
  - replace (head r + N - tail r)%nat with (head r - tail r + 1 * N)%nat by lia.
    rewrite Nat.Div0.mod_add. apply Nat.mod_small. lia.
  - apply Nat.mod_small. lia.
Qed.

Lemma ring_used_lt r : wf_ring N r -> (ring_used N r < N)%nat.
Proof. intros [_ Hh _]. apply Nat.mod_upper_bound. lia. Qed.

Lemma ring_empty_items r : wf_ring N r -> ring_empty r = true <-> ring_items d N r = [].
Proof.
  intros [_ Hh Ht]. pose proof (ring_used_eq r Hh Ht) as E.
  rewrite <- length_zero_iff_nil, length_ring_items, E. unfold ring_empty.
  rewrite Nat.eqb_eq. destruct (Nat.leb_spec (tail r) (head r)); lia.
Qed.

Lemma ring_push_wf r x : wf_ring N r -> wf_ring N (ring_push N r x).
Proof.
  intros [Hl Hh Ht]. unfold ring_push. destruct (_ =? _)%nat; [done|].
  split; cbn; [by rewrite length_insert| |done]. apply Nat.mod_upper_bound. lia.
Qed.

Lemma ring_advance_wf r : wf_ring N r -> wf_ring N (ring_advance N r).
Proof. intros [Hl Hh Ht]. split; cbn; [done|done|]. apply Nat.mod_upper_bound. lia. Qed.

Lemma ring_push_items r x :
  wf_ring N r -> ring_items d N (ring_push N r x) = offer N (ring_items d N r) x.
Proof.
  intros [Hl Hh Ht]. pose proof (ring_used_eq r Hh Ht) as Eu.
  unfold offer. rewrite length_ring_items. unfold ring_push. rewrite mod_step by lia.
  destruct (Nat.eqb_spec (if (head r + 1 <? N)%nat then head r + 1 else head r + 1 - N)%nat (tail r)) as [E|E].
  - rewrite Eu. replace (_ =? N)%nat with true; [done|]. symmetry. apply Nat.eqb_eq.
    split_bools.
  - assert (ring_used N r + 1 < N)%nat as Hlt.
    { rewrite Eu. split_bools. }
    rewrite (proj2 (Nat.eqb_neq _ _)) by lia. unfold ring_items.
    assert (forall s, ring_used N (Ring s (if (head r + 1 <? N)%nat then head r + 1 else head r + 1 - N)%nat (tail r))
            = S (ring_used N r)) as ->.
    { intros s. rewrite Eu, ring_used_eq; cbn [head tail]; [|split_bools..].
      split_bools. }
    rewrite seq_S, map_app. cbn [map slots tail Nat.add]. f_equal.
    + apply map_ext_in. intros k Hk%in_seq. rewrite mod_step by lia.
      apply nth_insert_other. rewrite Eu in Hk. split_bools.
    + f_equal. rewrite mod_step by lia.
      transitivity (nth (head r) (<[head r := x]> (slots r)) d); [|apply nth_insert_same; lia]. f_equal.
      rewrite Eu. split_bools.
Qed.

Lemma ring_pop_items r : wf_ring N r ->
  match ring_items d N r with
  | [] => ring_pop d N r = None
  | x :: l => ring_pop d N r = Some (x, ring_advance N r) /\ ring_items d N (ring_advance N r) = l
  end.
Proof.
  intros Hw. pose proof (ring_empty_items r Hw) as He. unfold ring_pop.
  destruct (ring_empty r) eqn:E; [by rewrite (proj1 He eq_refl)|].
  destruct Hw as [Hl Hh Ht]. pose proof (ring_used_eq r Hh Ht) as Eu.
  unfold ring_empty in E. apply Nat.eqb_neq in E.
  assert (exists n, ring_used N r = S n) as [n En].
  { exists (Nat.pred (ring_used N r)). rewrite Eu. split_bools. }
  assert (ring_used N (ring_advance N r) = n) as En'.
  { rewrite ring_used_eq; cbn [head tail ring_advance]; [| done |apply Nat.mod_upper_bound; lia].
    rewrite mod_step by lia. rewrite Eu in En. split_bools. }
  unfold ring_items. rewrite En, En'. cbn [seq map]. split.
  - unfold ring_front. by rewrite Nat.add_0_r, Nat.mod_small by done.
  - rewrite <- seq_shift, map_map. apply map_ext. intros k. cbn [tail ring_advance slots].
    f_equal. rewrite Nat.Div0.add_mod_idemp_l. f_equal. lia.
Qed.

Lemma ring_items_nil (s : list A) h : ring_items d N (Ring s h h) = [].
Proof.
  unfold ring_items, ring_used. cbn [head tail].
  replace (h + N - h)%nat with N by lia. by rewrite Nat.Div0.mod_same.
Qed.
End lemmas.

(** ** The consumers' view of a driver

    A driver promises its consumers a queue of events: [poll] answers whether
    one is waiting and takes the oldest. *)
Class InputDevice (S E : Type) := {
  poll : S -> option (E * S);
  waiting : S -> list E;
  dev_ok : S -> Prop;
  poll_spec : forall s, dev_ok s ->
    match waiting s with
    | [] => poll s = None
    | e :: l => exists s', poll s = Some (e, s') /\ waiting s' = l /\ dev_ok s'
    end
}.

(** ** A consumer interrupted by its producer

    The consumer is not atomic: it tests for input and loads the element at
    [tail], and only later stores the advanced [tail].  The interrupt handler
    may run in between, any number of times.  [loaded] is the element between
    the two steps; [got] what the consumer has received and [accepted] what
    the handler has stored so far. *)
Section interleaving.
Context {A : Type} (d : A) (N : nat).

Record shared := Shared { buf : ring A; loaded : option A; got : list A; accepted : list A }.

Inductive rstep : shared -> shared -> Prop :=
  | irq_push r l g a x :
      rstep (Shared r l g a)
            (Shared (ring_push N r x) l g
               (if ((head r + 1) mod N =? tail r)%nat then a else a ++ [x]))
  | load r g a :
      ring_empty r = false ->
      rstep (Shared r None g a) (Shared r (Some (ring_front d r)) g a)
  | store_tail r c g a :
      rstep (Shared r (Some c) g a) (Shared (ring_advance N r) None (g ++ [c]) a).

Record shared_ok (s : shared) : Prop := {
  so_wf : wf_ring N (buf s);
  so_order : accepted s = got s ++ ring_items d N (buf s);
  so_loaded : forall c, loaded s = Some c -> exists l, ring_items d N (buf s) = c :: l
}.

Lemma offer_accepted r x : wf_ring N r ->
  offer N (ring_items d N r) x =
  if ((head r + 1) mod N =? tail r)%nat then ring_items d N r else ring_items d N r ++ [x].
Proof.
  intros Hw. rewrite <- ring_push_items by done. unfold ring_push.
  destruct (_ =? _)%nat eqn:E; [done|].
  transitivity (ring_items d N (ring_push N r x)); [by unfold ring_push; rewrite E|].
  rewrite ring_push_items by done. unfold offer. rewrite length_ring_items.
  destruct Hw as [Hl Hh Ht]. rewrite ring_used_eq by done. apply Nat.eqb_neq in E.
  rewrite mod_step in E by lia. destruct (_ =? N)%nat eqn:E2; [|done]. apply Nat.eqb_eq in E2.
  split_bools.
Qed.

Lemma rstep_ok s s' : rstep s s' -> shared_ok s -> shared_ok s'.
Proof.
  intros Hs [Hw Ho Hl]. destruct Hs as [r l g a x|r g a He|r c g a]; cbn in *.
  - split; cbn; [by apply ring_push_wf| |].
    + rewrite ring_push_items, offer_accepted by done. subst a. destruct (_ =? _)%nat; [done|].
      by rewrite app_assoc.
    + intros c Hc. destruct (Hl c Hc) as [k Hk]. rewrite ring_push_items, Hk by done.
      unfold offer. destruct (_ =? _)%nat; eauto.
  - split; cbn; [done|done|]. intros c [= <-].
    pose proof (ring_pop_items d N r Hw) as Hp. unfold ring_pop in Hp. rewrite He in Hp.
    destruct (ring_items d N r) as [|y k]; [done|]. destruct Hp as [[= <-] _]. eauto.
  - destruct (Hl c eq_refl) as [k Hk]. pose proof (ring_pop_items d N r Hw) as Hp.
    rewrite Hk in Hp. destruct Hp as [_ Hp].
    split; cbn; [by apply ring_advance_wf| |done]. by rewrite Ho, Hk, Hp, <- app_assoc.
Qed.

Lemma rsteps_ok s s' : rtc rstep s s' -> shared_ok s -> shared_ok s'.
Proof. induction 1; eauto using rstep_ok. Qed.
End interleaving.
