(* ===== verification/Keyboard.v ===== *)
(** * The keyboard driver (src/kernel/drivers/keyboard.c)

    The state is the ring buffer of characters, the modifier flags and the
    number of end-of-interrupt commands sent.  A [char] is its byte: the key
    codes from 0x80 up are negative in C, where the letter tests fail on them
    as they do here.  [keyboard_handler] receives the scancode the port
    delivers; [keyboard_getchar] busy-waits, [None] meaning that it still
    waits. *)

From Stdlib Require Import String.
From stdpp Require Import relations.
From S2P Require Import Prelude CLib Ring.

Definition KB_BUFFER_SIZE : nat := 256.

Definition KEY_UP : Z := 0x80.
Definition KEY_DOWN : Z := 0x81.
Definition KEY_LEFT : Z := 0x82.
Definition KEY_RIGHT : Z := 0x83.
Definition KEY_HOME : Z := 0x84.
Definition KEY_END : Z := 0x85.
Definition KEY_DELETE : Z := 0x86.
Definition KEY_INSERT : Z := 0x87.
Definition KEY_PGUP : Z := 0x88.
Definition KEY_PGDN : Z := 0x89.
Definition KEY_F1 : Z := 0x90.
Definition KEY_F2 : Z := 0x91.
Definition KEY_F3 : Z := 0x92.
Definition KEY_F4 : Z := 0x93.
Definition KEY_F5 : Z := 0x94.
Definition KEY_F6 : Z := 0x95.
Definition KEY_F7 : Z := 0x96.
Definition KEY_F8 : Z := 0x97.
Definition KEY_F9 : Z := 0x98.
Definition KEY_F10 : Z := 0x99.

Definition function_keys : list Z :=
  [KEY_F1; KEY_F2; KEY_F3; KEY_F4; KEY_F5; KEY_F6; KEY_F7; KEY_F8; KEY_F9; KEY_F10].

Definition scancode_to_ascii : list Z :=
  [0; 0x1B] ++ cs "1234567890-=" ++ [8; 9] ++ cs "qwertyuiop[]" ++ [10; 0] ++
  cs "asdfghjkl;'`" ++ [0] ++ cs "\zxcvbnm,./" ++ [0] ++ cs "*" ++ [0] ++ cs " " ++ [0] ++
  function_keys ++ [0; 0] ++ cs "789-456+1230." ++ replicate 44 0.

(** 34 is the double quote. *)
Definition scancode_to_ascii_shift : list Z :=
  [0; 0x1B] ++ cs "!@#$%^&*()_+" ++ [8; 9] ++ cs "QWERTYUIOP{}" ++ [10; 0] ++
  cs "ASDFGHJKL:" ++ [34] ++ cs "~" ++ [0] ++ cs "|ZXCVBNM<>?" ++ [0] ++ cs "*" ++ [0] ++ cs " " ++ [0] ++
  function_keys ++ [0; 0] ++ cs "789-456+1230." ++ replicate 44 0.

Definition e0_scancode_to_key : list Z :=
  foldl (fun t '(i, k) => <[i := k]> t) (replicate 128 0)
    [(Z.to_nat 0x48, KEY_UP); (Z.to_nat 0x50, KEY_DOWN); (Z.to_nat 0x4B, KEY_LEFT);
     (Z.to_nat 0x4D, KEY_RIGHT); (Z.to_nat 0x47, KEY_HOME); (Z.to_nat 0x4F, KEY_END);
     (Z.to_nat 0x53, KEY_DELETE); (Z.to_nat 0x52, KEY_INSERT); (Z.to_nat 0x49, KEY_PGUP);
     (Z.to_nat 0x51, KEY_PGDN)].

Record kb_state := Kb {
  kb_buffer : ring Z;
  shift_pressed : bool;
  ctrl_pressed : bool;
  caps_lock : bool;
  e0_prefix : bool;
  eoi_sent : nat
}.

Definition kb_push (st : kb_state) (c : Z) : kb_state :=
  Kb (ring_push KB_BUFFER_SIZE (kb_buffer st) c) (shift_pressed st) (ctrl_pressed st)
     (caps_lock st) (e0_prefix st) (eoi_sent st).

(** [pic_send_eoi(1)] *)
Definition send_eoi (st : kb_state) : kb_state :=
  Kb (kb_buffer st) (shift_pressed st) (ctrl_pressed st) (caps_lock st) (e0_prefix st) (S (eoi_sent st)).

Definition set_shift (st : kb_state) (b : bool) : kb_state :=
  Kb (kb_buffer st) b (ctrl_pressed st) (caps_lock st) (e0_prefix st) (eoi_sent st).
Definition set_ctrl (st : kb_state) (b : bool) : kb_state :=
  Kb (kb_buffer st) (shift_pressed st) b (caps_lock st) (e0_prefix st) (eoi_sent st).
Definition set_caps (st : kb_state) (b : bool) : kb_state :=
  Kb (kb_buffer st) (shift_pressed st) (ctrl_pressed st) b (e0_prefix st) (eoi_sent st).
Definition set_e0 (st : kb_state) (b : bool) : kb_state :=
  Kb (kb_buffer st) (shift_pressed st) (ctrl_pressed st) (caps_lock st) b (eoi_sent st).

Definition is_lower (c : Z) : bool := (97 <=? c) && (c <=? 122).
Definition is_upper (c : Z) : bool := (65 <=? c) && (c <=? 90).

(** The character of a key press that is no modifier; 0 for none. *)
Definition key_char (st : kb_state) (is_extended : bool) (scancode : Z) : Z :=
  if is_extended then e0_scancode_to_key.[Z.to_nat (Z.land scancode 0x7F)]
  else
    let c := if shift_pressed st then scancode_to_ascii_shift.[Z.to_nat scancode]
             else scancode_to_ascii.[Z.to_nat scancode] in
    let c := if caps_lock st && is_lower c then c - 32
             else if caps_lock st && is_upper c then c + 32 else c in
    if ctrl_pressed st && is_lower c then c - 97 + 1
    else if ctrl_pressed st && is_upper c then c - 65 + 1 else c.

Definition keyboard_handler (st : kb_state) (scancode : Z) : kb_state :=
  if scancode =? 0xE0 then send_eoi (set_e0 st true)
  else
    let is_extended := e0_prefix st in
    let st := set_e0 st false in
    if negb (Z.land scancode 0x80 =? 0) then
      let released := Z.land scancode 0x7F in
      let st := if (released =? 0x2A) || (released =? 0x36) then set_shift st false else st in
      let st := if released =? 0x1D then set_ctrl st false else st in
      send_eoi st
    else if (scancode =? 0x2A) || (scancode =? 0x36) then send_eoi (set_shift st true)
    else if scancode =? 0x1D then send_eoi (set_ctrl st true)
    else if scancode =? 0x3A then send_eoi (set_caps st (negb (caps_lock st)))
    else
      let c := key_char st is_extended scancode in
      let st := if c =? 0 then st else kb_push st c in
      send_eoi st.

(** [keyboard_init] resets the indices, not the modifiers. *)
Definition keyboard_init (st : kb_state) : kb_state :=
  Kb (Ring (slots (kb_buffer st)) 0 0) (shift_pressed st) (ctrl_pressed st) (caps_lock st)
     (e0_prefix st) (eoi_sent st).

(** The static variables at boot. *)
Definition kb_boot : kb_state := Kb (Ring (replicate KB_BUFFER_SIZE 0) 0 0) false false false false 0.

Definition keyboard_has_input (st : kb_state) : bool := negb (ring_empty (kb_buffer st)).

Definition with_buffer (st : kb_state) (r : ring Z) : kb_state :=
  Kb r (shift_pressed st) (ctrl_pressed st) (caps_lock st) (e0_prefix st) (eoi_sent st).

Definition keyboard_getchar (st : kb_state) : option (Z * kb_state) :=
  if negb (keyboard_has_input st) then None
  else Some (ring_front 0 (kb_buffer st), with_buffer st (ring_advance KB_BUFFER_SIZE (kb_buffer st))).

Definition keyboard_getchar_nonblock (st : kb_state) : Z * kb_state :=
  if negb (keyboard_has_input st) then (0, st)
  else (ring_front 0 (kb_buffer st), with_buffer st (ring_advance KB_BUFFER_SIZE (kb_buffer st))).

Definition keyboard_ctrl_held (st : kb_state) : bool := ctrl_pressed st.

(** ** The driver as a queue of characters *)

Definition kb_waiting (st : kb_state) : list Z := ring_items 0 KB_BUFFER_SIZE (kb_buffer st).
Definition kb_ok (st : kb_state) : Prop :=
  wf_ring KB_BUFFER_SIZE (kb_buffer st) /\ Forall (fun c => c <> 0) (kb_waiting st).

Lemma getchar_spec st : wf_ring KB_BUFFER_SIZE (kb_buffer st) ->
  match kb_waiting st with
  | [] => keyboard_getchar st = None /\ keyboard_getchar_nonblock st = (0, st)
  | c :: l =>
      let st' := with_buffer st (ring_advance KB_BUFFER_SIZE (kb_buffer st)) in
      keyboard_getchar st = Some (c, st') /\ keyboard_getchar_nonblock st = (c, st') /\
      kb_waiting st' = l
  end.
Proof.
  intros Hw. pose proof (ring_pop_items 0 KB_BUFFER_SIZE _ Hw) as Hp. unfold ring_pop in Hp.
  unfold keyboard_getchar, keyboard_getchar_nonblock, keyboard_has_input. rewrite negb_involutive.
  change (kb_waiting st) with (ring_items 0 KB_BUFFER_SIZE (kb_buffer st)).
  destruct (ring_items 0 KB_BUFFER_SIZE (kb_buffer st)) as [|c l], (ring_empty (kb_buffer st)); try done.
  - by destruct Hp.
  - destruct Hp as [[= <-] <-]. done.
Qed.

#[refine, export] Instance keyboard_device : InputDevice kb_state Z := {|
  poll := fun st => let '(c, st') := keyboard_getchar_nonblock st in if c =? 0 then None else Some (c, st');
  waiting := kb_waiting;
  dev_ok := kb_ok
|}.
Proof.
  intros st [Hw Hn]. pose proof (getchar_spec st Hw) as Hg.
  destruct (kb_waiting st) as [|c l]; [by destruct Hg as [_ ->]|].
  destruct Hg as (_ & -> & Hl). apply Forall_cons in Hn as [Hc Hn].
  rewrite (proj2 (Z.eqb_neq _ _) Hc). eexists. split; [done|]. split; [done|].
  split; [by apply ring_advance_wf|by rewrite Hl].
Defined.

(** ** What the handler does to the queue *)

(** The character an interrupt offers to the buffer. *)
Definition produced (st : kb_state) (sc : Z) : option Z :=
  if (sc =? 0xE0) || negb (Z.land sc 0x80 =? 0) || (sc =? 0x2A) || (sc =? 0x36) || (sc =? 0x1D) || (sc =? 0x3A)
  then None
  else let c := key_char (set_e0 st false) (e0_prefix st) sc in if c =? 0 then None else Some c.

Lemma handler_buffer st sc :
  kb_buffer (keyboard_handler st sc) =
  match produced st sc with
  | Some c => ring_push KB_BUFFER_SIZE (kb_buffer st) c
  | None => kb_buffer st
  end.
Proof.
  unfold keyboard_handler, produced.
  destruct (sc =? 0xE0); [done|]. destruct (negb (Z.land sc 0x80 =? 0)); cbn [orb].
  { by destruct (_ || _), (_ =? 0x1D). }
  destruct (sc =? 0x2A), (sc =? 0x36); try done. destruct (sc =? 0x1D); [done|].
  destruct (sc =? 0x3A); [done|]. cbn [orb]. by destruct (key_char _ _ _ =? 0).
Qed.

Lemma handler_eoi st sc : eoi_sent (keyboard_handler st sc) = S (eoi_sent st).
Proof.
  unfold keyboard_handler. cbv zeta.
  repeat match goal with |- context [if ?b then _ else _] => destruct b end; done.
Qed.

Lemma handler_ok st sc : kb_ok st ->
  kb_ok (keyboard_handler st sc) /\
  kb_waiting (keyboard_handler st sc) =
    match produced st sc with
    | Some c => offer KB_BUFFER_SIZE (kb_waiting st) c
    | None => kb_waiting st
    end.
Proof.
  intros [Hw Hn]. unfold kb_ok, kb_waiting in *. rewrite handler_buffer.
  destruct (produced st sc) as [c|] eqn:E; [|done].
  rewrite ring_push_items by done. split; [|done]. split; [by apply ring_push_wf|].
  unfold offer. destruct (_ =? _)%nat; [done|]. apply Forall_app. split; [done|].
  apply Forall_singleton. unfold produced in E. destruct (_ || _); [done|].
  destruct (Z.eqb_spec (key_char (set_e0 st false) (e0_prefix st) sc) 0); by simplify_eq.
Qed.

(** ** Typing *)

(** The key that carries a character, and whether Shift is needed. *)
Definition key_for (c : Z) : option (bool * Z) :=
  match list_find (eq c) scancode_to_ascii with
  | Some (i, _) => Some (false, Z.of_nat i)
  | None => match list_find (eq c) scancode_to_ascii_shift with
            | Some (i, _) => Some (true, Z.of_nat i)
            | None => None
            end
  end.

(** The scancodes of typing one character: make and break codes, between
    those of the left Shift key where it is needed. *)
Definition strokes (c : Z) : list Z :=
  match key_for c with
  | Some (false, sc) => [sc; sc + 0x80]
  | Some (true, sc) => [0x2A; sc; sc + 0x80; 0xAA]
  | None => []
  end.

(** Backspace, Tab, Enter, Escape and the printable characters. *)
Definition typable : list Z := [8; 9; 10; 0x1B] ++ map Z.of_nat (seq 32 95).

Definition idle (st : kb_state) : Prop :=
  shift_pressed st = false /\ ctrl_pressed st = false /\ caps_lock st = false /\ e0_prefix st = false.

Definition interrupts (st : kb_state) (scs : list Z) : kb_state := foldl keyboard_handler st scs.

Lemma type_char st c : idle st -> c ∈ typable ->
  interrupts st (strokes c) =
  Kb (ring_push KB_BUFFER_SIZE (kb_buffer st) c) false false false false (length (strokes c) + eoi_sent st).
Proof.
  destruct st as [b s t k e n]. unfold idle. cbn. intros (-> & -> & -> & ->) Hc.
  apply list_elem_of_In in Hc. vm_compute in Hc.
  repeat (destruct Hc as [<-|Hc]; [reflexivity|]). done.
Qed.

Lemma type_text text st : idle st -> kb_ok st -> Forall (.∈ typable) text ->
  (length (kb_waiting st) + length text < KB_BUFFER_SIZE)%nat ->
  let st' := interrupts st (concat (map strokes text)) in
  idle st' /\ kb_ok st' /\ kb_waiting st' = kb_waiting st ++ text /\
  eoi_sent st' = (eoi_sent st + length (concat (map strokes text)))%nat.
Proof.
  revert st. induction text as [|c text IH]; intros st Hi [Hw Hn] Ht Hlen.
  { cbn. rewrite app_nil_r, Nat.add_0_r. done. }
  apply Forall_cons in Ht as [Hc Ht]. cbn [map concat]. unfold interrupts. rewrite foldl_app.
  fold (interrupts st (strokes c)). rewrite (type_char st c Hi Hc).
  set (st1 := Kb _ _ _ _ _ _). fold (interrupts st1 (concat (map strokes text))). cbn [length] in Hlen.
  assert (kb_waiting st1 = kb_waiting st ++ [c]) as E1.
  { unfold st1, kb_waiting. cbn [kb_buffer]. rewrite ring_push_items by done. unfold offer.
    unfold kb_waiting in Hlen. rewrite (proj2 (Nat.eqb_neq _ _)) by lia. done. }
  assert (c <> 0) as Hc0 by (by apply (proj1 (Forall_forall (fun c => c <> 0) typable) ltac:(by_compute))).
  destruct (IH st1) as (H1 & H2 & H3 & H4); [done| |done| |].
  - split; [by apply ring_push_wf|]. rewrite E1. apply Forall_app. by repeat constructor.
  - rewrite E1, length_app. cbn [length]. lia.
  - split; [done|]. split; [done|]. rewrite H3, H4, E1, <- app_assoc, length_app.
    cbn [eoi_sent st1]. split; [done|lia].
Qed.

(** Typing a text delivers it.  From an idle keyboard with room in the
    buffer, the interrupts of typing any text of printable characters (with
    Enter, Tab, Backspace and Escape), Shift being held where the layout needs
    it, append exactly that text to the characters waiting, in order; the
    keyboard is idle again, and every interrupt was acknowledged once. *)
Theorem keyboard_types_text (st : kb_state) (text : list Z) :
  idle st -> kb_ok st -> Forall (.∈ typable) text ->
  (length (kb_waiting st) + length text < KB_BUFFER_SIZE)%nat ->
  let st' := interrupts st (concat (map strokes text)) in
  idle st' /\ kb_ok st' /\ kb_waiting st' = kb_waiting st ++ text /\
  eoi_sent st' = (eoi_sent st + length (concat (map strokes text)))%nat.
Proof. apply type_text. Qed.

Lemma kb_boot_ok : kb_ok kb_boot.
Proof. split; [split; by_compute|]. apply Forall_nil_2. Qed.

Lemma keyboard_types_text_witness :
  let st' := interrupts kb_boot (concat (map strokes (cs "SELECT * FROM SystemTable;"))) in
  kb_waiting st' = cs "SELECT * FROM SystemTable;" /\ eoi_sent st' = 76%nat.
Proof.
  destruct (keyboard_types_text kb_boot (cs "SELECT * FROM SystemTable;")) as (_ & _ & H1 & H2).
  - by repeat split.
  - apply kb_boot_ok.
  - by_compute.
  - apply Nat.ltb_lt. by vm_compute.
  - split; [exact H1|]. exact H2.
Defined.

(** ** Letters and modifiers *)

(** Shift and Caps Lock cancel out, Ctrl wins.  For each of the 26 letter
    keys, the plain table giving the lower-case letter [c]: with Ctrl held the
    key produces the control code 1 to 26 of the letter whatever the other
    modifiers; without it, the upper-case letter exactly when one, and not
    both, of Shift and Caps Lock is active.  Keys after the prefix 0xE0 ignore
    all three. *)
Theorem keyboard_modifiers (st : kb_state) (sc : nat) :
  (sc < 128)%nat -> is_lower scancode_to_ascii.[sc] = true ->
  let c := scancode_to_ascii.[sc] in
  (e0_prefix st = false ->
   produced st (Z.of_nat sc) =
     Some (if ctrl_pressed st then c - 96
           else if xorb (shift_pressed st) (caps_lock st) then c - 32 else c)) /\
  (e0_prefix st = true -> produced st (Z.of_nat sc) = None).
Proof.
  intros Hlt Hl c.
  assert (sc ∈ List.filter (fun i => is_lower scancode_to_ascii.[i]) (seq 0 128)) as Hin.
  { apply list_elem_of_In, filter_In. split; [apply in_seq; lia|done]. }
  apply list_elem_of_In in Hin. vm_compute in Hin. subst c.
  destruct st as [b s t k e n]. cbn [e0_prefix ctrl_pressed shift_pressed caps_lock].
  clear Hlt Hl.
  repeat (destruct Hin as [<-|Hin]; [split; intros ->; [destruct s, t, k; reflexivity|reflexivity]|]). done.
Qed.

Lemma keyboard_modifiers_witness :
  produced (Kb (kb_buffer kb_boot) true false true false 0) 30 = Some 97.
Proof. apply (keyboard_modifiers (Kb (kb_buffer kb_boot) true false true false 0) 30); done || lia. Defined.

(** ** What the keys mean

    The US keyboard written down on its own: the rows of keys by the code of
    their first key, plain and with Shift, and the keys that stand apart. *)

Definition key_rows : list (Z * list Z * list Z) :=
  [(0x02, cs "1234567890-=", cs "!@#$%^&*()_+");
   (0x10, cs "qwertyuiop[]", cs "QWERTYUIOP{}");
   (0x1E, cs "asdfghjkl;'`", cs "ASDFGHJKL:" ++ [34] ++ cs "~");
   (0x2B, cs "\zxcvbnm,./", cs "|ZXCVBNM<>?");
   (0x37, cs "*", cs "*"); (0x39, cs " ", cs " "); (0x47, cs "789-456+1230.", cs "789-456+1230.");
   (0x01, [0x1B], [0x1B]); (0x0E, [8; 9], [8; 9]); (0x1C, [10], [10]);
   (0x3B, map Z.of_nat (seq 0x90 10), map Z.of_nat (seq 0x90 10))].

(** What is printed on a key. *)
Definition key_cap (shift : bool) (sc : Z) : option Z :=
  foldr (fun '(first, plain, shifted) other =>
    if (first <=? sc) && (sc <? first + Z.of_nat (length plain))
    then (if shift then shifted else plain) !! Z.to_nat (sc - first) else other) None key_rows.

(** The keys of the cursor block, sent after the prefix 0xE0. *)
Definition cursor_keys : list (Z * Z) :=
  [(0x48, KEY_UP); (0x50, KEY_DOWN); (0x4B, KEY_LEFT); (0x4D, KEY_RIGHT); (0x47, KEY_HOME); (0x4F, KEY_END);
   (0x53, KEY_DELETE); (0x52, KEY_INSERT); (0x49, KEY_PGUP); (0x51, KEY_PGDN)].

Definition alphabet : list Z := cs "abcdefghijklmnopqrstuvwxyz".

Record mods := Mods { md_shift : bool; md_ctrl : bool; md_caps : bool; md_e0 : bool }.

(** The character a key press types: a letter is a capital when one of Shift
    and Caps Lock is on, and its number in the alphabet under Ctrl. *)
Definition types (m : mods) (sc : Z) : option Z :=
  if md_e0 m then snd <$> find (fun k => fst k =? sc) cursor_keys
  else match key_cap false sc, list_find (fun c => key_cap false sc = Some c) alphabet with
       | Some c, Some (n, _) => Some (if md_ctrl m then Z.of_nat n + 1 else if xorb (md_shift m) (md_caps m) then c - 32 else c)
       | _, _ => key_cap (md_shift m) sc
       end.

(** A scan code: the modifiers after it, and the character it types. *)
Definition decode (m : mods) (sc : Z) : mods * option Z :=
  if sc =? 0xE0 then (Mods (md_shift m) (md_ctrl m) (md_caps m) true, None)
  else if 0x80 <=? sc then
    let key := sc - 0x80 in
    (Mods (md_shift m && negb ((key =? 0x2A) || (key =? 0x36))) (md_ctrl m && negb (key =? 0x1D)) (md_caps m) false, None)
  else if (sc =? 0x2A) || (sc =? 0x36) then (Mods true (md_ctrl m) (md_caps m) false, None)
  else if sc =? 0x1D then (Mods (md_shift m) true (md_caps m) false, None)
  else if sc =? 0x3A then (Mods (md_shift m) (md_ctrl m) (negb (md_caps m)) false, None)
  else (Mods (md_shift m) (md_ctrl m) (md_caps m) false, types m sc).

Definition mods_of (st : kb_state) : mods := Mods (shift_pressed st) (ctrl_pressed st) (caps_lock st) (e0_prefix st).

#[export] Instance mods_eq_dec : EqDecision mods.
Proof. solve_decision. Defined.

Definition decodes (m : mods) (sc : Z) : bool :=
  let st := Kb (kb_buffer kb_boot) (md_shift m) (md_ctrl m) (md_caps m) (md_e0 m) 0 in
  bool_decide (decode m sc = (mods_of (keyboard_handler st sc), produced st sc)).

Definition all_mods : list mods :=
  s ← [false; true]; t ← [false; true]; k ← [false; true]; e ← [false; true]; [Mods s t k e].

Lemma decodes_all : forallb (fun m => forallb (decodes m) (map Z.of_nat (seq 0 256))) all_mods = true.
Proof. vm_compute. reflexivity. Qed.

(** The handler's tables and flags implement the keyboard. *)
Lemma decode_handler st sc : is_u8 sc -> decode (mods_of st) sc = (mods_of (keyboard_handler st sc), produced st sc).
Proof.
  intros Hs. assert (mods_of st ∈ all_mods) as Hm.
  { unfold mods_of. destruct (shift_pressed st), (ctrl_pressed st), (caps_lock st), (e0_prefix st); vm_compute; set_solver. }
  pose proof decodes_all as H. rewrite forallb_forall in H. specialize (H _ (proj1 (list_elem_of_In _ _) Hm)). rewrite forallb_forall in H.
  assert (In sc (map Z.of_nat (seq 0 256))) as Hin.
  { apply in_map_iff. exists (Z.to_nat sc). rewrite in_seq. unfold is_word in Hs. lia. }
  specialize (H sc Hin). unfold decodes in H. apply bool_decide_eq_true in H. rewrite H. destruct st as [b s t k e n]. f_equal.
  unfold keyboard_handler. cbv zeta. cbn [mods_of md_shift md_ctrl md_caps md_e0 e0_prefix shift_pressed ctrl_pressed caps_lock].
  change (key_char (set_e0 (Kb ?b1 s t k e ?n1) false) e sc) with (key_char (set_e0 (Kb b s t k e n) false) e sc).
  repeat match goal with |- context [if ?c then _ else _] => destruct c end; reflexivity.
Qed.

(** ** Interrupts during a read

    [keyboard_getchar] tests, loads and stores in separate steps; the handler
    can run between them.  Beside the driver run the keyboard itself, as the
    modifiers that are down, [typed], every character typed on it, and
    [kept], those typed while fewer than 255 were waiting to be read. *)

Record reading := Reading {
  dev : kb_state; pending : option Z; received : list Z; keys_down : mods; typed : list Z; kept : list Z
}.

Definition key_press (sc : Z) (s : reading) : reading :=
  let '(m, c) := decode (keys_down s) sc in
  match c with
  | None => Reading (keyboard_handler (dev s) sc) (pending s) (received s) m (typed s) (kept s)
  | Some c =>
      Reading (keyboard_handler (dev s) sc) (pending s) (received s) m (typed s ++ [c])
        (if (length (kept s) - length (received s) <? 255)%nat then kept s ++ [c] else kept s)
  end.

Inductive kb_step : reading -> reading -> Prop :=
  | kb_irq s sc : is_u8 sc -> kb_step s (key_press sc s)
  | kb_load st g m t k :
      keyboard_has_input st = true ->
      kb_step (Reading st None g m t k) (Reading st (Some (ring_front 0 (kb_buffer st))) g m t k)
  | kb_store st c g m t k :
      kb_step (Reading st (Some c) g m t k)
        (Reading (with_buffer st (ring_advance KB_BUFFER_SIZE (kb_buffer st))) None (g ++ [c]) m t k).

Definition as_shared (s : reading) : shared := Shared (kb_buffer (dev s)) (pending s) (received s) (kept s).

(** The ring holds what was kept and not read, and the driver knows the
    modifiers. *)
Record reading_ok (s : reading) : Prop := {
  ro_shared : shared_ok 0 KB_BUFFER_SIZE (as_shared s);
  ro_mods : keys_down s = mods_of (dev s);
  ro_kept : (length (kept s) = length (typed s) -> kept s = typed s) /\ (length (kept s) <= length (typed s))%nat
}.

Lemma key_press_ok s sc : is_u8 sc -> reading_ok s -> reading_ok (key_press sc s).
Proof.
  intros Hsc [Hok Hm [Hk Hle]]. unfold key_press. rewrite Hm, decode_handler by done.
  pose proof (handler_buffer (dev s) sc) as Hb. destruct (produced (dev s) sc) as [c|].
  - constructor; cbn [dev keys_down kept typed]; [|done|].
    + pose proof (so_wf _ _ _ Hok) as Hw. pose proof (so_order _ _ _ Hok) as Ho. unfold as_shared in *. cbn [buf accepted got dev kept received pending] in *.
      eapply rstep_ok; [|exact Hok]. rewrite Hb.
      replace (if (_ <? 255)%nat then _ else _) with
        (if ((head (kb_buffer (dev s)) + 1) mod KB_BUFFER_SIZE =? tail (kb_buffer (dev s)))%nat then kept s else kept s ++ [c]); [apply irq_push|].
      pose proof (offer_accepted 0 KB_BUFFER_SIZE (kb_buffer (dev s)) c Hw) as Hof. unfold offer in Hof.
      assert (length (ring_items 0%Z KB_BUFFER_SIZE (kb_buffer (dev s))) < 256)%nat as Hlt
        by (rewrite length_ring_items; by apply ring_used_lt).
      rewrite Ho, length_app. replace (_ + _ - _)%nat with (length (ring_items 0 KB_BUFFER_SIZE (kb_buffer (dev s)))) by lia.
      assert (forall l : list Z, l <> l ++ [c]) as Hd by (intros l E; apply (f_equal length) in E; rewrite length_app in E; cbn in E; lia).
      change KB_BUFFER_SIZE with 256%nat in *.
      destruct (_ =? tail _)%nat, (Nat.eqb_spec (length (ring_items 0%Z 256 (kb_buffer (dev s))) + 1) 256), (Nat.ltb_spec (length (ring_items 0%Z 256 (kb_buffer (dev s)))) 255);
        (done || lia || (by apply Hd in Hof) || (by symmetry in Hof; apply Hd in Hof)).
    + destruct (_ <? 255)%nat; rewrite ?length_app; cbn [length]; split; [|lia|lia|lia]. intros E. by rewrite Hk by lia.
  - constructor; cbn [dev keys_down kept typed]; [|done|done]. unfold as_shared in *. cbn [dev pending received kept]. by rewrite Hb.
Qed.

Lemma kb_step_ok s s' : kb_step s s' -> reading_ok s -> reading_ok s'.
Proof.
  intros Hs H. destruct Hs as [s sc Hsc|st g m t k Hi|st c g m t k]; [by apply key_press_ok|..]; destruct H as [Hok Hm Hk];
    (constructor; [|exact Hm|exact Hk]); (eapply rstep_ok; [|exact Hok]).
  - apply load. by apply negb_true_iff in Hi.
  - apply (store_tail 0 KB_BUFFER_SIZE).
Qed.

(** C38: what is typed is what is read, whatever the race between the reader and
    the interrupt handler.  However the steps of reading (test and load, then
    store the index) and keyboard interrupts interleave, the characters the
    reader has received followed by those waiting are exactly the characters
    typed while fewer than 255 were waiting, in order, none repeated; when none
    was typed with 255 waiting, these are all the characters typed.  A
    character that has been loaded but not yet taken off is the oldest one
    waiting.  What a scan code types is said by the layout of the keyboard and
    the modifiers held, written down apart from the driver's tables. *)
Theorem keyboard_read_race (st : kb_state) (s : reading) :
  kb_ok st -> rtc kb_step (Reading st None [] (mods_of st) (kb_waiting st) (kb_waiting st)) s ->
  received s ++ kb_waiting (dev s) = kept s /\
  (length (kept s) = length (typed s) -> kept s = typed s) /\
  forall c, pending s = Some c -> exists l, kb_waiting (dev s) = c :: l.
Proof.
  intros [Hw _] Hs. assert (reading_ok s) as [[_ Ho Hl] _ [Hk _]]; [|done].
  assert (reading_ok (Reading st None [] (mods_of st) (kb_waiting st) (kb_waiting st))) as H0 by done.
  induction Hs as [|x y z Hxy _ IH]; [done|]. eauto using kb_step_ok.
Qed.

Lemma keyboard_read_race_witness :
  let s := key_press 176 (key_press 48 (Reading (interrupts kb_boot (strokes 97)) (Some 97) [] (mods_of kb_boot) [97] [97])) in
  let d := with_buffer (dev s) (ring_advance KB_BUFFER_SIZE (kb_buffer (dev s))) in
  let s' := Reading d None [97] (mods_of kb_boot) [97; 98] [97; 98] in
  rtc kb_step (Reading kb_boot None [] (mods_of kb_boot) [] []) s' /\ [97] ++ kb_waiting d = [97; 98].
Proof.
  intros s d s'.
  assert (rtc kb_step (Reading kb_boot None [] (mods_of kb_boot) [] []) s') as Hs.
  { eapply rtc_l; [apply (kb_irq _ 30); unfold is_word; lia|]. eapply rtc_l; [apply (kb_irq _ 158); unfold is_word; lia|].
    eapply rtc_l; [apply kb_load; reflexivity|]. eapply rtc_l; [apply (kb_irq _ 48); unfold is_word; lia|].
    eapply rtc_l; [apply (kb_irq _ 176); unfold is_word; lia|]. eapply rtc_l; [apply kb_store|]. reflexivity. }
  split; [exact Hs|]. exact (proj1 (keyboard_read_race kb_boot _ kb_boot_ok Hs)).
Defined.
