(* ===== verification/Mouse.v ===== *)
(** * The PS/2 mouse driver (src/kernel/drivers/mouse.c)

    The interrupt handler receives what the two ports deliver: the status byte
    and the data byte.  [mouse_init] talks to the controller: its port
    accesses are a trace, the [n]-th read of a port answering [inb_at n port]. *)

From stdpp Require Import relations.
From S2P Require Import Prelude Ring.

Definition i16 (x : Z) : Z := (x + 2 ^ 15) mod 2 ^ 16 - 2 ^ 15.

Definition MOUSE_BUF_SIZE : nat := 64.

Record mouse_event := MouseEv { dx : Z; dy : Z; buttons : Z }.

Record mouse_state := Mouse {
  event_buf : ring mouse_event;
  packet : list Z;          (* uint8_t packet[3] *)
  packet_idx : nat;
  abs_x : Z;
  abs_y : Z;
  screen_w : Z;
  screen_h : Z;
  mouse_eoi : nat           (* calls of pic_send_eoi(12) *)
}.

Definition no_event : mouse_event := MouseEv 0 0 0.

(** The static variables at boot. *)
Definition mouse_boot : mouse_state :=
  Mouse (Ring (replicate MOUSE_BUF_SIZE no_event) 0 0) [0; 0; 0] 0 512 384 1024 768 0.

Definition mouse_ack (st : mouse_state) : mouse_state :=
  Mouse (event_buf st) (packet st) (packet_idx st) (abs_x st) (abs_y st) (screen_w st) (screen_h st)
    (S (mouse_eoi st)).

(** [abs += d; if (abs < 0) abs = 0; if (abs >= screen) abs = screen - 1] *)
Definition move_axis (a d screen : Z) : Z :=
  let a := i16 (a + d) in
  let a := if a <? 0 then 0 else a in
  if screen <=? a then i16 (screen - 1) else a.

Definition decode_packet (st : mouse_state) : mouse_state :=
  let p := packet st in
  let b := Z.land p.[0] 0x07 in
  let dx := i16 (p.[1] - (if Z.land p.[0] 0x10 =? 0 then 0 else 256)) in
  let dy := i16 (p.[2] - (if Z.land p.[0] 0x20 =? 0 then 0 else 256)) in
  let dy := i16 (- dy) in
  Mouse (ring_push MOUSE_BUF_SIZE (event_buf st) (MouseEv dx dy b)) p 0
    (move_axis (abs_x st) dx (screen_w st)) (move_axis (abs_y st) dy (screen_h st))
    (screen_w st) (screen_h st) (mouse_eoi st).

Definition mouse_irq_handler (st : mouse_state) (status data : Z) : mouse_state :=
  if Z.land status 0x21 =? 0 then mouse_ack st
  else if (packet_idx st =? 0)%nat && (Z.land data 0x08 =? 0) then mouse_ack st
  else
    let st := Mouse (event_buf st) (<[packet_idx st := data]> (packet st)) (S (packet_idx st))
                (abs_x st) (abs_y st) (screen_w st) (screen_h st) (mouse_eoi st) in
    let st := if (3 <=? packet_idx st)%nat then decode_packet st else st in
    mouse_ack st.

Definition mouse_poll (st : mouse_state) : option (mouse_event * mouse_state) :=
  match ring_pop no_event MOUSE_BUF_SIZE (event_buf st) with
  | None => None
  | Some (ev, r) =>
      Some (ev, Mouse r (packet st) (packet_idx st) (abs_x st) (abs_y st) (screen_w st) (screen_h st)
                  (mouse_eoi st))
  end.

Definition mouse_get_position (st : mouse_state) : Z * Z := (abs_x st, abs_y st).

Definition mouse_set_bounds (st : mouse_state) (width height : Z) : mouse_state :=
  Mouse (event_buf st) (packet st) (packet_idx st)
    (if width <=? abs_x st then i16 (width - 1) else abs_x st)
    (if height <=? abs_y st then i16 (height - 1) else abs_y st)
    width height (mouse_eoi st).

(** ** The controller *)

Definition PS2_DATA : Z := 0x60.
Definition PS2_STATUS : Z := 0x64.
Definition PS2_CMD : Z := 0x64.
Definition PS2_CMD_READ_CONFIG : Z := 0x20.
Definition PS2_CMD_WRITE_CONFIG : Z := 0x60.
Definition PS2_CMD_ENABLE_AUX : Z := 0xA8.
Definition PS2_CMD_SEND_TO_AUX : Z := 0xD4.
Definition MOUSE_CMD_SET_DEFAULTS : Z := 0xF6.
Definition MOUSE_CMD_ENABLE_REPORT : Z := 0xF4.

(** [int timeout = 100000] *)
Definition PS2_TIMEOUT : nat := Z.to_nat 100000.

Section controller.
Variable inb_at : nat -> Z -> Z.

Record ports := Ports { reads : nat; outs : list (Z * Z) }.

Definition inb (io : ports) (port : Z) : Z * ports :=
  (inb_at (reads io) port, Ports (S (reads io)) (outs io)).
Definition outb (io : ports) (port data : Z) : ports := Ports (reads io) (outs io ++ [(port, data)]).

Fixpoint mouse_wait_input (timeout : nat) (io : ports) : ports :=
  match timeout with
  | O => io
  | S timeout =>
      let '(s, io) := inb io PS2_STATUS in
      if negb (Z.land s 0x02 =? 0) then mouse_wait_input timeout io else io
  end.

Fixpoint mouse_wait_output (timeout : nat) (io : ports) : ports :=
  match timeout with
  | O => io
  | S timeout =>
      let '(s, io) := inb io PS2_STATUS in
      if negb (Z.land s 0x01 =? 0) then io else mouse_wait_output timeout io
  end.

Definition mouse_write (io : ports) (data : Z) : ports :=
  let io := mouse_wait_input PS2_TIMEOUT io in
  let io := outb io PS2_CMD PS2_CMD_SEND_TO_AUX in
  let io := mouse_wait_input PS2_TIMEOUT io in
  outb io PS2_DATA data.

Definition mouse_read (io : ports) : Z * ports :=
  inb (mouse_wait_output PS2_TIMEOUT io) PS2_DATA.

(** The port accesses of [mouse_init]; it then registers the handler and
    unmasks interrupts 12 and 2. *)
Definition mouse_init (io : ports) : ports :=
  let io := mouse_wait_input PS2_TIMEOUT io in
  let io := outb io PS2_CMD PS2_CMD_ENABLE_AUX in
  let io := mouse_wait_input PS2_TIMEOUT io in
  let io := outb io PS2_CMD PS2_CMD_READ_CONFIG in
  let '(config, io) := mouse_read io in
  let config := u8 (Z.lor config 0x02) in
  let config := u8 (Z.land config (Z.lnot 0x20)) in
  let io := mouse_wait_input PS2_TIMEOUT io in
  let io := outb io PS2_CMD PS2_CMD_WRITE_CONFIG in
  let io := mouse_wait_input PS2_TIMEOUT io in
  let io := outb io PS2_DATA config in
  let io := mouse_write io MOUSE_CMD_SET_DEFAULTS in
  let '(_, io) := mouse_read io in
  let io := mouse_write io MOUSE_CMD_ENABLE_REPORT in
  let '(_, io) := mouse_read io in
  io.

Lemma wait_input_outs n io : outs (mouse_wait_input n io) = outs io.
Proof. revert io. induction n as [|n IH]; intros io; cbn; [done|]. destruct (negb _); [by rewrite IH|done]. Qed.

Lemma wait_output_outs n io : outs (mouse_wait_output n io) = outs io.
Proof. revert io. induction n as [|n IH]; intros io; cbn; [done|]. destruct (negb _); [done|by rewrite IH]. Qed.

#[local] Hint Rewrite wait_input_outs wait_output_outs : ps2.

(** Whatever the controller answers, and whether or not it answers in time,
    the same command sequence is sent; the configuration byte written back has
    the second port's interrupt enabled and its clock not disabled. *)
Lemma mouse_init_commands io :
  exists config, is_u8 config /\ Z.testbit config 1 = true /\ Z.testbit config 5 = false /\
    outs (mouse_init io) = outs io ++
      [(PS2_CMD, PS2_CMD_ENABLE_AUX); (PS2_CMD, PS2_CMD_READ_CONFIG);
       (PS2_CMD, PS2_CMD_WRITE_CONFIG); (PS2_DATA, config);
       (PS2_CMD, PS2_CMD_SEND_TO_AUX); (PS2_DATA, MOUSE_CMD_SET_DEFAULTS);
       (PS2_CMD, PS2_CMD_SEND_TO_AUX); (PS2_DATA, MOUSE_CMD_ENABLE_REPORT)].
Proof.
  unfold mouse_init, mouse_write, mouse_read. generalize PS2_TIMEOUT. intros T.
  eexists (u8 (Z.land (u8 (Z.lor _ 0x02)) (Z.lnot 0x20))).
  split; [by apply wrap_range|]. split; [|split]; [..|unfold inb, outb; repeat (autorewrite with ps2; cbn [outs]);
    rewrite <- !app_assoc; reflexivity].
  - unfold wrap. rewrite Z.mod_pow2_bits_low, Z.land_spec, Z.mod_pow2_bits_low, Z.lor_spec by lia.
    by rewrite orb_true_r.
  - unfold wrap. rewrite Z.mod_pow2_bits_low, Z.land_spec by lia. by rewrite andb_false_r.
Qed.
End controller.

(** ** The driver as a queue of events *)

Definition mouse_waiting (st : mouse_state) : list mouse_event :=
  ring_items no_event MOUSE_BUF_SIZE (event_buf st).

Definition on_axis (a screen : Z) : Prop := 0 <= a < Z.min screen (2 ^ 15).

Record mouse_ok (st : mouse_state) : Prop := {
  mo_ring : wf_ring MOUSE_BUF_SIZE (event_buf st);
  mo_packet : length (packet st) = 3%nat;
  mo_idx : (packet_idx st < 3)%nat;
  mo_bytes : bytes (packet st);
  mo_x : on_axis (abs_x st) (screen_w st);
  mo_y : on_axis (abs_y st) (screen_h st);
  mo_events : Forall (fun e => is_word 3 (buttons e)) (mouse_waiting st)
}.

#[refine, export] Instance mouse_device : InputDevice mouse_state mouse_event := {|
  poll := mouse_poll;
  waiting := mouse_waiting;
  dev_ok := mouse_ok
|}.
Proof.
  intros st [Hr Hp Hi Hb Hx Hy He]. pose proof (ring_pop_items no_event MOUSE_BUF_SIZE _ Hr) as H.
  unfold mouse_poll, mouse_waiting in *.
  destruct (ring_items no_event MOUSE_BUF_SIZE (event_buf st)) as [|e l]; [by rewrite H|].
  destruct H as [-> Hl]. apply Forall_cons in He as [_ He]. eexists. split; [done|]. split; [done|].
  split; try done; unfold mouse_waiting; cbn [event_buf]; [by apply ring_advance_wf|by rewrite Hl].
Defined.

(** ** Position *)

Lemma move_axis_on a d screen : 1 <= screen -> on_axis (move_axis a d screen) screen.
Proof.
  intros Hs. unfold on_axis, move_axis, i16.
  destruct (Z.ltb_spec ((a + d + 2 ^ 15) mod 2 ^ 16 - 2 ^ 15) 0), (Z.leb_spec screen 0); try lia.
  - destruct (Z.leb_spec screen ((a + d + 2 ^ 15) mod 2 ^ 16 - 2 ^ 15)); lia.
Qed.

Lemma move_axis_clamp a d screen :
  on_axis a screen -> -256 <= d <= 256 -> screen <= 2 ^ 15 - 256 ->
  move_axis a d screen = Z.max 0 (Z.min (screen - 1) (a + d)).
Proof.
  unfold on_axis, move_axis, i16. intros Ha Hd Hs.
  rewrite (Z.mod_small (a + d + 2 ^ 15)) by lia. replace (a + d + 2 ^ 15 - 2 ^ 15) with (a + d) by lia.
  destruct (Z.ltb_spec (a + d) 0).
  - destruct (Z.leb_spec screen 0); lia.
  - destruct (Z.leb_spec screen (a + d)); [rewrite Z.mod_small by lia|]; lia.
Qed.

Lemma land7_word x : is_word 3 (Z.land x 0x07).
Proof. change 7 with (Z.ones 3). rewrite Z.land_ones by lia. apply Z.mod_pos_bound. lia. Qed.

Lemma decode_ok st : mouse_ok st -> mouse_ok (decode_packet st).
Proof.
  intros [Hr Hp Hi Hb Hx Hy He]. unfold decode_packet.
  split; cbn [packet packet_idx abs_x abs_y screen_w screen_h event_buf]; try done; try lia.
  - by apply ring_push_wf.
  - apply move_axis_on. unfold on_axis in Hx. lia.
  - apply move_axis_on. unfold on_axis in Hy. lia.
  - unfold mouse_waiting. cbn [event_buf]. rewrite ring_push_items by done. unfold offer.
    destruct (_ =? _)%nat; [done|]. apply Forall_app. split; [done|]. apply Forall_singleton.
    apply land7_word.
Qed.

Lemma mouse_irq_ok st status data : is_u8 data -> mouse_ok st -> mouse_ok (mouse_irq_handler st status data).
Proof.
  intros Hd Hok. pose proof Hok as [Hr Hp Hi Hb Hx Hy He]. unfold mouse_irq_handler.
  destruct (_ =? 0); [done|]. destruct (_ && _); [done|]. cbn [packet_idx].
  assert (bytes (<[packet_idx st := data]> (packet st))) as Hb' by (by apply Forall_insert).
  assert (length (<[packet_idx st := data]> (packet st)) = 3%nat) as Hp' by (by rewrite length_insert).
  destruct (Nat.leb_spec 3 (S (packet_idx st))) as [H3|H3].
  - assert (forall s, mouse_ok s -> mouse_ok (mouse_ack s)) as Hack by (by intros s []).
    apply Hack. unfold decode_packet. cbn [packet event_buf abs_x abs_y screen_w screen_h mouse_eoi].
    apply (decode_ok (Mouse (event_buf st) (<[packet_idx st := data]> (packet st)) 0 (abs_x st) (abs_y st)
             (screen_w st) (screen_h st) (mouse_eoi st))).
    split; cbn [packet packet_idx]; done || lia.
  - split; cbn [mouse_ack packet packet_idx]; done.
Qed.

Lemma set_bounds_ok st w h : 1 <= w -> 1 <= h -> mouse_ok st -> mouse_ok (mouse_set_bounds st w h).
Proof.
  intros Hw Hh [Hr Hp Hi Hb Hx Hy He]. split; cbn; try done; unfold on_axis, i16 in *.
  - destruct (Z.leb_spec w (abs_x st)); lia.
  - destruct (Z.leb_spec h (abs_y st)); lia.
Qed.

(** Everything that can happen to the driver. *)
Inductive mouse_step : mouse_state -> mouse_state -> Prop :=
  | ms_irq st status data : is_u8 data -> mouse_step st (mouse_irq_handler st status data)
  | ms_poll st ev st' : mouse_poll st = Some (ev, st') -> mouse_step st st'
  | ms_bounds st w h : 1 <= w < 2 ^ 16 -> 1 <= h < 2 ^ 16 -> mouse_step st (mouse_set_bounds st w h).

Lemma mouse_step_ok st st' : mouse_step st st' -> mouse_ok st -> mouse_ok st'.
Proof.
  intros [s status data Hd|s ev s' Hp|s w h Hw Hh] Hok.
  - by apply mouse_irq_ok.
  - pose proof (poll_spec s Hok) as Hs. cbn [waiting poll mouse_device] in Hs. destruct (mouse_waiting s).
    + congruence.
    + destruct Hs as (s2 & E & _ & H). by simplify_eq.
  - apply set_bounds_ok; [lia..|done].
Qed.

(** ** Claims *)

(** The value of a 9-bit two's complement number: a sign bit and a byte. *)
Definition signed9 (sign : bool) (byte : Z) : Z := (byte + 256 * Z.b2z sign + 256) mod 512 - 256.

Lemma signed9_sub sign byte : is_u8 byte -> signed9 sign byte = byte - (if sign then 256 else 0).
Proof.
  unfold is_word, signed9. intros Hb. destruct sign; cbn [Z.b2z].
  - replace (byte + 256 * 1 + 256) with (byte + 1 * 512) by lia. rewrite Z.mod_add, Z.mod_small; lia.
  - rewrite Z.mod_small; lia.
Qed.

Lemma land_pow2_test x k : 0 <= k -> (Z.land x (2 ^ k) =? 0) = negb (Z.testbit x k).
Proof.
  intros Hk. destruct (Z.testbit x k) eqn:E; cbn.
  - apply Z.eqb_neq. intros H0. apply (f_equal (fun v => Z.testbit v k)) in H0.
    rewrite Z.land_spec, E, Z.pow2_bits_true, Z.bits_0 in H0 by done. done.
  - apply Z.eqb_eq, Z.bits_inj'. intros n Hn. rewrite Z.land_spec, Z.bits_0, Z.pow2_bits_eqb by done.
    destruct (Z.eqb_spec k n) as [->|]; [by rewrite E|apply andb_false_r].
Qed.

Lemma i16_small x : - 2 ^ 15 <= x < 2 ^ 15 -> i16 x = x.
Proof. intros. unfold i16. rewrite Z.mod_small by lia. lia. Qed.

Lemma irq_byte st status data :
  Z.land status 0x21 <> 0 -> (packet_idx st = 0%nat -> Z.testbit data 3 = true) ->
  mouse_irq_handler st status data =
    mouse_ack (let st := Mouse (event_buf st) (<[packet_idx st := data]> (packet st)) (S (packet_idx st))
                 (abs_x st) (abs_y st) (screen_w st) (screen_h st) (mouse_eoi st) in
               if (3 <=? packet_idx st)%nat then decode_packet st else st).
Proof.
  intros Hs Hd. unfold mouse_irq_handler. rewrite (proj2 (Z.eqb_neq _ _) Hs).
  change 8 with (2 ^ 3). rewrite land_pow2_test by lia.
  destruct (Nat.eqb_spec (packet_idx st) 0) as [E|E]; [by rewrite (Hd E)|done].
Qed.

(** A packet is decoded.  When the driver stands between packets, three
    interrupts with the bytes [b0] (bit 3 set), [b1], [b2] add one event: the
    movement is the 9-bit two's complement number formed by the sign bit in
    [b0] and the byte, the vertical one inverted; the buttons are the low bits
    of [b0]; the pointer moves by that amount, stopping at the screen's edge;
    and the driver stands between packets again.  An event that finds 63
    others waiting is dropped, the movement is not. *)
Theorem mouse_packet_decoded (st : mouse_state) (status b0 b1 b2 : Z) :
  mouse_ok st -> packet_idx st = 0%nat -> Z.land status 0x21 <> 0 ->
  is_u8 b0 -> is_u8 b1 -> is_u8 b2 -> Z.testbit b0 3 = true ->
  screen_w st <= 2 ^ 15 - 256 -> screen_h st <= 2 ^ 15 - 256 ->
  let st' := foldl (fun st b => mouse_irq_handler st status b) st [b0; b1; b2] in
  let mx := signed9 (Z.testbit b0 4) b1 in
  let my := - signed9 (Z.testbit b0 5) b2 in
  mouse_waiting st' = offer MOUSE_BUF_SIZE (mouse_waiting st) (MouseEv mx my (Z.land b0 0x07)) /\
  abs_x st' = Z.max 0 (Z.min (screen_w st - 1) (abs_x st + mx)) /\
  abs_y st' = Z.max 0 (Z.min (screen_h st - 1) (abs_y st + my)) /\
  packet_idx st' = 0%nat /\ mouse_ok st'.
Proof.
  intros Hok Hidx Hst H0 H1 H2 H3 Hw Hh st' mx my.
  assert (mouse_ok st') as Hok'.
  { unfold st'. cbn [foldl]. by repeat apply mouse_irq_ok. }
  destruct Hok as [Hr Hp _ Hb Hx Hy _].
  destruct st as [q p k ax ay w h eoi]. cbn [packet_idx packet screen_w screen_h abs_x abs_y event_buf] in *.
  subst k. destruct p as [|p0 [|p1 [|p2 [|]]]]; try done.
  revert Hok'. unfold st'. clear st'. cbn [foldl].
  rewrite (irq_byte (Mouse _ _ _ _ _ _ _ _) status b0) by done.
  unfold mouse_ack. cbn [Nat.leb packet_idx event_buf packet abs_x abs_y screen_w screen_h mouse_eoi insert list_insert].
  rewrite (irq_byte (Mouse _ _ _ _ _ _ _ _) status b1) by done.
  unfold mouse_ack. cbn [Nat.leb packet_idx event_buf packet abs_x abs_y screen_w screen_h mouse_eoi insert list_insert].
  rewrite (irq_byte (Mouse _ _ _ _ _ _ _ _) status b2) by done.
  unfold mouse_ack, decode_packet, mouse_waiting.
  cbn [Nat.leb packet_idx event_buf packet abs_x abs_y screen_w screen_h mouse_eoi insert list_insert nth].
  change 0x10 with (2 ^ 4). change 0x20 with (2 ^ 5). rewrite !land_pow2_test by lia.
  assert (i16 (b1 - (if negb (Z.testbit b0 4) then 0 else 256)) = mx) as Ex.
  { unfold mx. rewrite signed9_sub by done. unfold is_word in H1. destruct (Z.testbit b0 4); cbn [negb]; apply i16_small; lia. }
  assert (i16 (- i16 (b2 - (if negb (Z.testbit b0 5) then 0 else 256))) = my) as Ey.
  { unfold my. rewrite signed9_sub by done. unfold is_word in H2.
    destruct (Z.testbit b0 5); cbn [negb]; rewrite (i16_small (b2 - _)) by lia; apply i16_small; lia. }
  rewrite Ex, Ey. intros Hok'. split; [by apply ring_push_items|].
  assert (-256 <= mx <= 256 /\ -256 <= my <= 256) as [Hmx Hmy].
  { unfold mx, my, signed9. lia. }
  rewrite !move_axis_clamp in * by done. done.
Qed.

Lemma mouse_boot_ok : mouse_ok mouse_boot.
Proof. split; try (split; by_compute); try by_compute. Qed.

Lemma mouse_packet_decoded_witness :
  let st' := foldl (fun st b => mouse_irq_handler st 0x21 b) mouse_boot [0x19; 0xF6; 0x05] in
  mouse_waiting st' = [MouseEv (-10) (-5) 1] /\ abs_x st' = 502 /\ abs_y st' = 379.
Proof.
  destruct (mouse_packet_decoded mouse_boot 0x21 0x19 0xF6 0x05 mouse_boot_ok) as (H1 & H2 & H3 & _);
    [by_compute..|].
  split; [exact H1|]. split; [exact H2|exact H3].
Defined.

(** The pointer stays on the screen.  In every state reachable from boot
    by interrupts with any bytes, polls and changes of the (non-empty) screen
    size, the position is within the screen, the packet index within the
    packet, and every event waiting has button bits 0 to 2 only. *)
Theorem mouse_position_invariant (st : mouse_state) :
  rtc mouse_step mouse_boot st ->
  0 <= abs_x st < screen_w st /\ 0 <= abs_y st < screen_h st /\ (packet_idx st < 3)%nat /\
  (length (mouse_waiting st) < MOUSE_BUF_SIZE)%nat /\
  Forall (fun e => is_word 3 (buttons e)) (mouse_waiting st).
Proof.
  intros H. assert (mouse_ok st) as [Hr _ Hi _ Hx Hy He].
  { pose proof mouse_boot_ok as H0. induction H; eauto using mouse_step_ok. }
  unfold on_axis in *. split; [lia|]. split; [lia|]. split; [done|]. split; [|done].
  unfold mouse_waiting. rewrite length_ring_items. by apply ring_used_lt.
Qed.

Lemma mouse_position_invariant_witness :
  let st := mouse_set_bounds (mouse_irq_handler mouse_boot 1 0xFF) 10 10 in
  rtc mouse_step mouse_boot st /\ 0 <= abs_x st < screen_w st.
Proof.
  intros st.
  assert (rtc mouse_step mouse_boot st) as H.
  { eapply rtc_l; [apply (ms_irq _ 1 0xFF); by_compute|].
    eapply rtc_l; [apply (ms_bounds _ 10 10); by_compute|]. reflexivity. }
  split; [exact H|]. apply (mouse_position_invariant st H).
Defined.
