(* ===== verification/Event.v ===== *)
(** * The event queue of the graphical interface (src/gui/event.c)

    [event_pump] drains the two input drivers, which it sees through the
    interface [InputDevice] of Ring.v, and translates what it finds into
    events.  Interrupts that arrive while it runs extend what it drains; the
    model takes what is waiting when it starts.  [None]: the fuel of the
    draining loops was not enough. *)

From S2P Require Import Prelude Ring Keyboard Mouse.

Inductive event_type :=
  | EVT_NONE | EVT_MOUSE_MOVE | EVT_MOUSE_DOWN | EVT_MOUSE_UP | EVT_KEY_DOWN
  | EVT_PAINT | EVT_CLOSE | EVT_FOCUS | EVT_BLUR.

#[global] Instance event_type_eq_dec : EqDecision event_type.
Proof. solve_decision. Defined.

Record gui_event := GuiEv {
  ev_type : event_type;
  mouse_x : Z;
  mouse_y : Z;
  mouse_button : Z;
  mouse_buttons : Z;
  key : Z;
  target_window : Z
}.

(** [gui_event_t ev = {0}] *)
Definition zero_event : gui_event := GuiEv EVT_NONE 0 0 0 0 0 0.

Definition EVENT_BUF_SIZE : nat := 256.

Record event_state := Events { evt_buf : ring gui_event; prev_buttons : Z }.

Definition event_init (st : event_state) : event_state := Events (Ring (slots (evt_buf st)) 0 0) 0.

Definition event_push (st : event_state) (ev : gui_event) : event_state :=
  Events (ring_push EVENT_BUF_SIZE (evt_buf st) ev) (prev_buttons st).

Definition event_poll (st : event_state) : option (gui_event * event_state) :=
  match ring_pop zero_event EVENT_BUF_SIZE (evt_buf st) with
  | None => None
  | Some (ev, r) => Some (ev, Events r (prev_buttons st))
  end.

(** A pointing device also has a position, which polling does not move. *)
Class Pointer (M E : Type) `{InputDevice M E} := {
  position : M -> Z * Z;
  position_poll : forall m e m', poll m = Some (e, m') -> position m' = position m
}.

Definition move_event (mx my : Z) (mev : mouse_event) : gui_event :=
  GuiEv EVT_MOUSE_MOVE mx my 0 (buttons mev) 0 0.

Definition button_event (mx my : Z) (mev : mouse_event) (btn : Z) : gui_event :=
  GuiEv (if Z.land (buttons mev) (Z.shiftl 1 btn) =? 0 then EVT_MOUSE_UP else EVT_MOUSE_DOWN)
    mx my (Z.shiftl 1 btn) (buttons mev) 0 0.

Definition key_event (c : Z) : gui_event := GuiEv EVT_KEY_DOWN 0 0 0 0 (u8 c) 0.

(** One mouse event. *)
Definition pump_mouse_event (mx my : Z) (st : event_state) (mev : mouse_event) : event_state :=
  let st := if negb (dx mev =? 0) || negb (dy mev =? 0) then event_push st (move_event mx my mev) else st in
  let changed := Z.lxor (buttons mev) (prev_buttons st) in
  let st := foldl (fun st btn =>
              if Z.land changed (Z.shiftl 1 btn) =? 0 then st
              else event_push st (button_event mx my mev btn)) st [0; 1; 2] in
  Events (evt_buf st) (buttons mev).

Section pump.
Context {M K : Type} `{dm : InputDevice M mouse_event} {pm : Pointer M mouse_event} `{dk : InputDevice K Z}.

Fixpoint pump_mouse (fuel : nat) (m : M) (st : event_state) : option (M * event_state) :=
  match fuel with
  | O => None
  | S fuel =>
      match poll m with
      | None => Some (m, st)
      | Some (mev, m) =>
          let '(mx, my) := position m in
          pump_mouse fuel m (pump_mouse_event mx my st mev)
      end
  end.

Fixpoint pump_keys (fuel : nat) (k : K) (st : event_state) : option (K * event_state) :=
  match fuel with
  | O => None
  | S fuel =>
      match poll k with
      | None => Some (k, st)
      | Some (c, k) => pump_keys fuel k (event_push st (key_event c))
      end
  end.

Definition event_pump (fuel : nat) (m : M) (k : K) (st : event_state) : option (M * K * event_state) :=
  match pump_mouse fuel m st with
  | None => None
  | Some (m, st) =>
      match pump_keys fuel k st with
      | None => None
      | Some (k, st) => Some (m, k, st)
      end
  end.
End pump.

(** ** The events as a list *)

Definition events (st : event_state) : list gui_event := ring_items zero_event EVENT_BUF_SIZE (evt_buf st).
Definition events_ok (st : event_state) : Prop := wf_ring EVENT_BUF_SIZE (evt_buf st).
Abbreviation enqueue := (foldl (offer EVENT_BUF_SIZE)).

(** What one mouse event becomes, the buttons having been [prev]. *)
Definition mouse_events (mx my prev : Z) (mev : mouse_event) : list gui_event :=
  (if negb (dx mev =? 0) || negb (dy mev =? 0) then [move_event mx my mev] else []) ++
  map (button_event mx my mev)
    (List.filter (fun btn => negb (Z.land (Z.lxor (buttons mev) prev) (Z.shiftl 1 btn) =? 0)) [0; 1; 2]).

Fixpoint all_mouse_events (mx my prev : Z) (l : list mouse_event) : list gui_event :=
  match l with
  | [] => []
  | mev :: l => mouse_events mx my prev mev ++ all_mouse_events mx my (buttons mev) l
  end.

(** The buttons held, as a consumer of the events sees them. *)
Definition replay (mask : Z) (ev : gui_event) : Z :=
  match ev_type ev with
  | EVT_MOUSE_DOWN => Z.lor mask (mouse_button ev)
  | EVT_MOUSE_UP => Z.ldiff mask (mouse_button ev)
  | _ => mask
  end.

Lemma event_push_spec st ev : events_ok st ->
  events_ok (event_push st ev) /\ events (event_push st ev) = offer EVENT_BUF_SIZE (events st) ev.
Proof. intros Hw. split; [by apply ring_push_wf|by apply ring_push_items]. Qed.

Lemma pump_mouse_event_spec mx my st mev : events_ok st ->
  let st' := pump_mouse_event mx my st mev in
  events_ok st' /\ prev_buttons st' = buttons mev /\
  events st' = enqueue (events st) (mouse_events mx my (prev_buttons st) mev).
Proof.
  intros Hw. unfold pump_mouse_event, mouse_events.
  set (st1 := if negb (dx mev =? 0) || negb (dy mev =? 0) then _ else _).
  assert (events_ok st1 /\ prev_buttons st1 = prev_buttons st /\
          events st1 = enqueue (events st) (if negb (dx mev =? 0) || negb (dy mev =? 0)
                                            then [move_event mx my mev] else [])) as (H1 & H2 & H3).
  { unfold st1. destruct (_ || _); [|done]. by destruct (event_push_spec st (move_event mx my mev) Hw). }
  rewrite foldl_app, <- H3, H2. clearbody st1. clear H3. generalize [0; 1; 2]. intros l.
  cbn [prev_buttons]. split; [|split; [done|]].
  - clear H2. revert st1 H1. induction l as [|b l IH]; intros st1 H1; [done|]. cbn [foldl]. apply IH.
    destruct (_ =? 0); [done|]. by apply event_push_spec.
  - clear H2. unfold events at 1. cbn [evt_buf].
    revert st1 H1. induction l as [|b l IH]; intros st1 H1; [done|]. cbn [foldl List.filter].
    destruct (_ =? 0); cbn [negb map foldl]; [by apply IH|].
    destruct (event_push_spec st1 (button_event mx my mev b) H1) as [Hw' <-]. by apply IH.
Qed.

Section pump_lemmas.
Context {M K : Type} `{dm : InputDevice M mouse_event} {pm : Pointer M mouse_event} `{dk : InputDevice K Z}.

Lemma pump_mouse_spec fuel (m : M) st :
  dev_ok m -> events_ok st -> (length (waiting m) < fuel)%nat ->
  exists m' st', pump_mouse fuel m st = Some (m', st') /\ waiting m' = [] /\ dev_ok m' /\ events_ok st' /\
    events st' = enqueue (events st)
      (all_mouse_events (position m).1 (position m).2 (prev_buttons st) (waiting m)) /\
    prev_buttons st' = foldl (fun _ mev => buttons mev) (prev_buttons st) (waiting m).
Proof.
  revert m st. induction fuel as [|fuel IH]; intros m st Hm Hst Hf; [lia|].
  pose proof (poll_spec m Hm) as Hp. cbn [pump_mouse].
  destruct (waiting m) as [|mev l] eqn:E.
  { rewrite Hp. by exists m, st. }
  destruct Hp as (m1 & Em & El & Hm1). rewrite Em.
  pose proof (position_poll _ _ _ Em) as Epos. destruct (position m1) as [mx my] eqn:Ep. rewrite <- Epos.
  destruct (pump_mouse_event_spec mx my st mev Hst) as (H1 & H2 & H3).
  cbn [length] in Hf.
  destruct (IH m1 (pump_mouse_event mx my st mev)) as (m' & st' & ? & ? & ? & ? & E1 & E2);
    [done|done|rewrite El; lia|].
  exists m', st'. rewrite E1, E2, El, Ep, H2, H3. cbn [fst snd all_mouse_events foldl].
  rewrite foldl_app. done.
Qed.

Lemma pump_keys_spec fuel (k : K) st :
  dev_ok k -> events_ok st -> (length (waiting k) < fuel)%nat ->
  exists k' st', pump_keys fuel k st = Some (k', st') /\ waiting k' = [] /\ dev_ok k' /\ events_ok st' /\
    events st' = enqueue (events st) (map key_event (waiting k)) /\ prev_buttons st' = prev_buttons st.
Proof.
  revert k st. induction fuel as [|fuel IH]; intros k st Hk Hst Hf; [lia|].
  pose proof (poll_spec k Hk) as Hp. cbn [pump_keys].
  destruct (waiting k) as [|c l] eqn:E.
  { rewrite Hp. by exists k, st. }
  destruct Hp as (k1 & Ek & El & Hk1). rewrite Ek. cbn [length] in Hf.
  destruct (event_push_spec st (key_event c) Hst) as [H1 H2].
  destruct (IH k1 (event_push st (key_event c))) as (k' & st' & ? & ? & ? & ? & E1 & E2);
    [done|done|rewrite El; lia|].
  exists k', st'. rewrite E1, E2, El, H2. done.
Qed.
End pump_lemmas.

(** ** Replaying the button events *)

Lemma replay_filter mx my mev prev l :
  is_word 3 (buttons mev) -> is_word 3 prev -> l = [0; 1; 2] ->
  foldl replay prev (map (button_event mx my mev)
    (List.filter (fun btn => negb (Z.land (Z.lxor (buttons mev) prev) (Z.shiftl 1 btn) =? 0)) l)) = buttons mev.
Proof.
  destruct mev as [x y b]. unfold is_word. cbn [buttons]. intros Hb Hp ->. unfold button_event. cbn [buttons].
  assert (b ∈ [0; 1; 2; 3; 4; 5; 6; 7]) as Hb' by (rewrite !elem_of_cons; lia).
  assert (prev ∈ [0; 1; 2; 3; 4; 5; 6; 7]) as Hp' by (rewrite !elem_of_cons; lia).
  clear Hb Hp. apply list_elem_of_In in Hb', Hp'. cbn [In] in Hb', Hp'.
  repeat (destruct Hb' as [<-|Hb']; [repeat (destruct Hp' as [<-|Hp']; [reflexivity|]); done|]). done.
Qed.

Lemma replay_mouse mx my prev mev : is_word 3 (buttons mev) -> is_word 3 prev ->
  foldl replay prev (mouse_events mx my prev mev) = buttons mev.
Proof.
  intros Hb Hp. unfold mouse_events. rewrite foldl_app.
  replace (foldl replay prev (if _ || _ then _ else _)) with prev by (by destruct (_ || _)).
  by apply replay_filter.
Qed.

Lemma replay_all mx my l prev : Forall (fun e => is_word 3 (buttons e)) l -> is_word 3 prev ->
  foldl replay prev (all_mouse_events mx my prev l) = foldl (fun _ mev => buttons mev) prev l.
Proof.
  revert prev. induction l as [|mev l IH]; intros prev Hl Hp; [done|].
  apply Forall_cons in Hl as [Hm Hl]. cbn [all_mouse_events foldl].
  rewrite foldl_app, replay_mouse by done. by apply IH.
Qed.

Lemma replay_keys mask l : foldl replay mask (map key_event l) = mask.
Proof. revert mask. induction l; intros; cbn; auto. Qed.

#[refine, export] Instance mouse_pointer : Pointer mouse_state mouse_event := {|
  position := mouse_get_position
|}.
Proof.
  intros m e m' E. cbn in E. unfold mouse_poll in E.
  destruct (ring_pop _ _ _) as [[? ?]|]; by simplify_eq.
Defined.

(** [event_pump] drains the mouse and the keyboard, in this order, and
    queues one event per movement, one per button that changed and one per
    key, in the order of the input, dropping what finds the queue full.  It
    terminates within one step per input.  A consumer that replays the button
    events knows at the end which buttons are held. *)
Theorem event_pump_correct (fuel : nat) (m : mouse_state) (k : kb_state) (st : event_state) :
  dev_ok m -> dev_ok k -> events_ok st -> is_word 3 (prev_buttons st) ->
  (length (waiting m) < fuel)%nat -> (length (waiting k) < fuel)%nat ->
  let evs := all_mouse_events (abs_x m) (abs_y m) (prev_buttons st) (waiting m) ++ map key_event (waiting k) in
  exists m' k' st', event_pump fuel m k st = Some (m', k', st') /\
    waiting m' = [] /\ waiting k' = [] /\ dev_ok m' /\ dev_ok k' /\ events_ok st' /\
    events st' = enqueue (events st) evs /\
    foldl replay (prev_buttons st) evs = prev_buttons st' /\ is_word 3 (prev_buttons st').
Proof.
  intros Hm Hk Hst Hb Hf1 Hf2 evs. unfold event_pump.
  destruct (pump_mouse_spec fuel m st Hm Hst Hf1) as (m' & st1 & -> & Hm1 & Hm2 & Hs1 & He1 & Hp1).
  destruct (pump_keys_spec fuel k st1 Hk Hs1 Hf2) as (k' & st' & -> & Hk1 & Hk2 & Hs2 & He2 & Hp2).
  exists m', k', st'. do 6 (split; [done|]).
  assert (Forall (fun e => is_word 3 (buttons e)) (waiting m)) as Hwords by apply Hm.
  unfold evs. split.
  - rewrite He2, He1, foldl_app. done.
  - rewrite foldl_app, replay_all, replay_keys, Hp2, Hp1 by done. split; [done|].
    clear - Hb Hwords. revert Hb. generalize (prev_buttons st).
    induction Hwords; intros; cbn; auto.
Qed.

Definition events_boot : event_state := Events (Ring (replicate EVENT_BUF_SIZE zero_event) 0 0) 0.

(** The left button is pressed while the mouse moves, and a key is typed. *)
Lemma event_pump_correct_witness :
  let m := foldl (fun st b => mouse_irq_handler st 0x21 b) mouse_boot [0x09; 3; 0] in
  let k := interrupts kb_boot (strokes 97) in
  exists m' k' st', event_pump 2 m k events_boot = Some (m', k', st') /\
    events st' = [GuiEv EVT_MOUSE_MOVE 515 384 0 1 0 0; GuiEv EVT_MOUSE_DOWN 515 384 1 1 0 0;
                  GuiEv EVT_KEY_DOWN 0 0 0 0 97 0] /\ prev_buttons st' = 1.
Proof.
  intros m k.
  destruct (event_pump_correct 2 m k events_boot) as (m' & k' & st' & E & _ & _ & _ & _ & _ & H1 & H2 & _).
  - do 3 (apply mouse_irq_ok; [by_compute|]). apply mouse_boot_ok.
  - do 2 apply handler_ok. apply kb_boot_ok.
  - split; by_compute.
  - by_compute.
  - apply Nat.ltb_lt. by vm_compute.
  - apply Nat.ltb_lt. by vm_compute.
  - exists m', k', st'. split; [exact E|]. split; [rewrite H1; reflexivity|]. rewrite <- H2. reflexivity.
Defined.
