(* ===== verification/History.v ===== *)
(** * Command history (src/shell/history.c)

    The circular array of 32 lines of 512 cells, the number of lines kept, the
    next slot to write and the slot the arrow keys stand on (-1: none).  The
    functions that return a pointer into the array return the line it points
    to.  The abstract content is the list [entries], newest first. *)

From Stdlib Require Import String.
From S2P Require Import Prelude CLib.

Definition HISTORY_SIZE : nat := 32.
Definition HISTORY_LINE_MAX : nat := 512.

Record history := Hist {
  history_buf : list (list Z);
  history_count : nat;
  history_head : nat;
  history_nav : Z
}.

Definition history_init : history :=
  Hist (replicate HISTORY_SIZE (replicate HISTORY_LINE_MAX 0)) 0 0 (-1).

Definition row (st : history) (i : nat) : list Z := nth i (history_buf st) [].

Definition history_add (st : history) (line : option (list Z)) : history :=
  match line with
  | None => st
  | Some line =>
      if (strlen line =? 0)%nat then st
      else
        let last := ((history_head st + HISTORY_SIZE - 1) mod HISTORY_SIZE)%nat in
        if (0 <? history_count st)%nat && (strcmp (row st last) line =? 0) then st
        else
          let r := strlcpy (row st (history_head st)) line (HISTORY_LINE_MAX - 1) in
          Hist (<[history_head st := r]> (history_buf st))
            (if (history_count st <? HISTORY_SIZE)%nat then S (history_count st) else history_count st)
            ((history_head st + 1) mod HISTORY_SIZE) (history_nav st)
  end.

Definition set_nav (st : history) (n : Z) : history :=
  Hist (history_buf st) (history_count st) (history_head st) n.

Definition history_prev (st : history) : history * option (list Z) :=
  if (history_count st =? 0)%nat then (st, None)
  else if history_nav st =? -1 then
    let nav := ((history_head st + HISTORY_SIZE - 1) mod HISTORY_SIZE)%nat in
    (set_nav st (Z.of_nat nav), Some (row st nav))
  else
    let nav := Z.to_nat (history_nav st) in
    let prev := ((nav + HISTORY_SIZE - 1) mod HISTORY_SIZE)%nat in
    let oldest := if (HISTORY_SIZE <=? history_count st)%nat then history_head st else 0%nat in
    if (prev =? oldest)%nat && (HISTORY_SIZE <=? history_count st)%nat && (nav =? oldest)%nat then
      (st, Some (row st nav))
    else
      let start := ((history_head st + HISTORY_SIZE - history_count st) mod HISTORY_SIZE)%nat in
      let in_range := existsb (fun i => ((start + i) mod HISTORY_SIZE =? prev)%nat) (seq 0 (history_count st)) in
      if negb in_range then (st, Some (row st nav))
      else (set_nav st (Z.of_nat prev), Some (row st prev)).

Definition history_next (st : history) : history * option (list Z) :=
  if history_nav st =? -1 then (st, None)
  else
    let next := ((Z.to_nat (history_nav st) + 1) mod HISTORY_SIZE)%nat in
    if (next =? history_head st)%nat then (set_nav st (-1), None)
    else (set_nav st (Z.of_nat next), Some (row st next)).

Definition history_reset_nav (st : history) : history := set_nav st (-1).

(** ** The abstract history *)

(** The slot of the [k]-th newest line. *)
Definition slot (st : history) (k : nat) : nat :=
  ((history_head st + (HISTORY_SIZE - 1) - k) mod HISTORY_SIZE)%nat.

Definition entries (st : history) : list (list Z) :=
  map (fun k => cstr (row st (slot st k))) (seq 0 (history_count st)).

(** Which entry the arrow keys stand on. *)
Definition at_entry (st : history) (pos : option nat) : Prop :=
  match pos with
  | None => history_nav st = -1
  | Some k => (k < history_count st)%nat /\ history_nav st = Z.of_nat (slot st k)
  end.

Record history_ok (st : history) : Prop := {
  ho_rows : length (history_buf st) = HISTORY_SIZE;
  ho_lines : Forall (fun r => length r = HISTORY_LINE_MAX) (history_buf st);
  ho_count : (history_count st <= HISTORY_SIZE)%nat;
  ho_head : (history_head st < HISTORY_SIZE)%nat;
  ho_fresh : (history_count st < HISTORY_SIZE)%nat -> history_head st = history_count st
}.

(** The entry an Up key leads to. *)
Definition older (count k : nat) : nat :=
  if (S k <? count)%nat then S k else if (count =? HISTORY_SIZE)%nat then 0%nat else k.

Lemma slot_lt st k : (slot st k < HISTORY_SIZE)%nat.
Proof. apply Nat.mod_upper_bound. done. Qed.

Lemma slot_prev st k : (k < HISTORY_SIZE)%nat -> (history_head st < HISTORY_SIZE)%nat ->
  ((slot st k + HISTORY_SIZE - 1) mod HISTORY_SIZE)%nat = if (S k <? HISTORY_SIZE)%nat then slot st (S k) else slot st 0.
Proof.
  unfold slot, HISTORY_SIZE. intros Hk Hh. destruct (Nat.ltb_spec (S k) 32); lia.
Qed.

Lemma slot_inj st i j : (i < HISTORY_SIZE)%nat -> (j < HISTORY_SIZE)%nat -> slot st i = slot st j -> i = j.
Proof. unfold slot, HISTORY_SIZE. lia. Qed.

Lemma slot_next st k : (S k < HISTORY_SIZE)%nat -> ((slot st (S k) + 1) mod HISTORY_SIZE)%nat = slot st k.
Proof. unfold slot, HISTORY_SIZE. lia. Qed.

Lemma slot_0_next st : (history_head st < HISTORY_SIZE)%nat -> ((slot st 0 + 1) mod HISTORY_SIZE)%nat = history_head st.
Proof. unfold slot, HISTORY_SIZE. lia. Qed.

Lemma slot_not_head st k : (S k < HISTORY_SIZE)%nat -> (history_head st < HISTORY_SIZE)%nat -> slot st k <> history_head st.
Proof. unfold slot, HISTORY_SIZE. lia. Qed.

(** The loop over the slots in use finds exactly them. *)
Lemma in_range_slot st k :
  (history_count st <= HISTORY_SIZE)%nat -> (history_head st < HISTORY_SIZE)%nat -> (k < HISTORY_SIZE)%nat ->
  existsb (fun i => (((history_head st + HISTORY_SIZE - history_count st) mod HISTORY_SIZE + i) mod HISTORY_SIZE
                     =? slot st k)%nat) (seq 0 (history_count st)) = (k <? history_count st)%nat.
Proof.
  intros Hc Hh Hk. apply eq_true_iff_eq. rewrite existsb_exists, Nat.ltb_lt. split.
  - intros (i & Hi%in_seq & E%Nat.eqb_eq). unfold slot, HISTORY_SIZE in *. lia.
  - intros Hlt. exists (history_count st - 1 - k)%nat. split; [apply in_seq; lia|].
    apply Nat.eqb_eq. unfold slot, HISTORY_SIZE in *. lia.
Qed.

(** The slot before the one of entry [k] is that of entry [j]. *)
Lemma prev_slot st k :
  (history_count st <= HISTORY_SIZE)%nat -> (history_head st < HISTORY_SIZE)%nat -> (k < history_count st)%nat ->
  exists j, (if (S k <? HISTORY_SIZE)%nat then slot st (S k) else slot st 0) = slot st j /\ (j < HISTORY_SIZE)%nat /\
    j = if (S k <? HISTORY_SIZE)%nat then S k else 0%nat.
Proof.
  intros Hc Hh Hk. exists (if (S k <? HISTORY_SIZE)%nat then S k else 0%nat).
  destruct (Nat.ltb_spec (S k) HISTORY_SIZE); split; try done; split; try done; unfold HISTORY_SIZE; lia.
Qed.

(** ** Claims *)

Lemma row_length st i : history_ok st -> (i < HISTORY_SIZE)%nat -> length (row st i) = HISTORY_LINE_MAX.
Proof.
  intros [Hl Hf _ _ _] Hi. rewrite <- Hl in Hi. apply nth_In with (d := []) in Hi.
  rewrite Forall_forall in Hf. apply Hf. by apply list_elem_of_In.
Qed.

Lemma entries_lookup st k : (k < history_count st)%nat ->
  entries st !! k = Some (cstr (row st (slot st k))).
Proof.
  intros Hk. unfold entries. rewrite list_lookup_fmap, lookup_seq_lt by done. done.
Qed.

Lemma entries_head st : (0 < history_count st)%nat ->
  head (entries st) = Some (cstr (row st (slot st 0))).
Proof. intros H. rewrite head_lookup. by apply entries_lookup. Qed.

Lemma length_entries st : length (entries st) = history_count st.
Proof. unfold entries. by rewrite length_map, length_seq. Qed.

(** A new line in the slot at [history_head] becomes the newest entry. *)
Lemma entries_add st st2 r s :
  history_ok st ->
  history_buf st2 = <[history_head st := r]> (history_buf st) ->
  history_head st2 = ((history_head st + 1) mod HISTORY_SIZE)%nat ->
  history_count st2 = Nat.min (S (history_count st)) HISTORY_SIZE ->
  cstr r = s -> entries st2 = take HISTORY_SIZE (s :: entries st).
Proof.
  intros [Hl Hf Hc Hh Hfresh] Hb2 Hh2 Hc2 Hr. apply list_eq. intros k.
  destruct (decide (k < history_count st2)%nat) as [Hk|Hk].
  2:{ rewrite !lookup_ge_None_2; [done| |].
      - rewrite length_take. cbn [length]. rewrite length_entries. lia.
      - rewrite length_entries. lia. }
  rewrite entries_lookup, lookup_take_lt by lia. unfold row. rewrite Hb2.
  destruct k as [|k].
  - replace (slot st2 0) with (history_head st) by (unfold slot, HISTORY_SIZE in *; lia).
    rewrite (nth_lookup_Some _ _ _ r) by (apply list_lookup_insert_eq; lia). by rewrite <- Hr.
  - change ((s :: entries st) !! S k) with (entries st !! k). rewrite entries_lookup by lia. unfold row.
    replace (slot st2 (S k)) with (slot st k) by (unfold slot, HISTORY_SIZE in *; lia).
    do 2 f_equal. rewrite !nth_lookup, list_lookup_insert_ne; [done|].
    apply not_eq_sym, slot_not_head; [lia|done].
Qed.

Lemma history_add_ok st line : history_ok st -> history_ok (history_add st line).
Proof.
  intros Hok. unfold history_add. destruct line as [l|]; [|done].
  destruct (strlen l =? 0)%nat; [done|]. destruct (_ && _); [done|]. pose proof Hok as [Hl Hf Hc Hh Hfresh].
  destruct (strlcpy_spec (row st (history_head st)) l 511) as [Hr _]; [by apply row_length|].
  split; cbn [history_buf history_count history_head].
  - by rewrite length_insert.
  - by apply Forall_insert.
  - destruct (Nat.ltb_spec (history_count st) HISTORY_SIZE); lia.
  - by apply Nat.mod_upper_bound.
  - unfold HISTORY_SIZE in *. destruct (Nat.ltb_spec (history_count st) 32); lia.
Qed.

Lemma entries_history_add st l : history_ok st ->
  entries (history_add st (Some l)) =
    if decide (cstr l = [] \/ head (entries st) = Some (cstr l)) then entries st
    else take HISTORY_SIZE (take 511 (cstr l) :: entries st).
Proof.
  intros Hok. unfold history_add.
  assert (strlen l = 0%nat <-> cstr l = []) as Hempty.
  { rewrite <- length_cstr. by destruct (cstr l). }
  destruct (Nat.eqb_spec (strlen l) 0) as [E|E].
  { rewrite decide_True by tauto. done. }
  pose proof Hok as [Hl Hf Hc Hh Hfresh].
  replace ((history_head st + HISTORY_SIZE - 1) mod HISTORY_SIZE)%nat with (slot st 0)
    by (unfold slot, HISTORY_SIZE; lia).
  destruct ((0 <? history_count st)%nat && (strcmp (row st (slot st 0)) l =? 0)) eqn:Edup.
  { apply andb_true_iff in Edup as [H1%Nat.ltb_lt H2%Z.eqb_eq]. apply strcmp_0 in H2.
    rewrite decide_True; [done|]. right. by rewrite entries_head, H2. }
  rewrite decide_False.
  - eapply entries_add; try done.
    + cbn [history_count]. destruct (Nat.ltb_spec (history_count st) HISTORY_SIZE); lia.
    + apply strlcpy_spec. by apply row_length.
  - intros [H|H]; [tauto|]. destruct (history_count st) eqn:Ec; [unfold entries in H; by rewrite Ec in H|].
    rewrite entries_head in H by lia. injection H as H. apply strcmp_0 in H. by rewrite H in Edup.
Qed.

(** Adding a line.  [history_add] ignores a null or empty line and a line
    equal to the newest entry; any other becomes the newest entry, cut to 511
    characters, and the oldest of 32 is dropped.  Every line always fits its
    row. *)
Theorem history_add_correct (st : history) (line : option (list Z)) :
  history_ok st ->
  let st' := history_add st line in
  history_ok st' /\ history_nav st' = history_nav st /\
  entries st' =
    match line with
    | None => entries st
    | Some l =>
        if decide (cstr l = [] \/ head (entries st) = Some (cstr l)) then entries st
        else take HISTORY_SIZE (take 511 (cstr l) :: entries st)
    end.
Proof.
  intros Hok st'. split; [by apply history_add_ok|]. unfold st'. destruct line as [l|]; [|done].
  split; [|by apply entries_history_add]. unfold history_add.
  destruct (strlen l =? 0)%nat; [done|]. by destruct (_ && _).
Qed.

Definition typed (l : list string) : history :=
  fold_left (fun st s => history_add st (Some (cs s))) l history_init.

Lemma history_init_ok : history_ok history_init.
Proof.
  split; cbn [history_init history_buf history_count history_head]; try (unfold HISTORY_SIZE; lia).
  - apply length_replicate.
  - apply Forall_replicate, length_replicate.
Qed.

Lemma history_add_correct_witness :
  let st := typed ["ps"; "tables"]%string in
  history_ok (history_add st (Some (cs "ps"))) /\
  entries (history_add st (Some (cs "ps"))) = map cs ["ps"; "tables"; "ps"]%string.
Proof.
  intros st.
  destruct (history_add_correct history_init (Some (cs "ps")) history_init_ok) as (H1 & _ & _).
  destruct (history_add_correct _ (Some (cs "tables")) H1) as (H2 & _ & _).
  destruct (history_add_correct st (Some (cs "ps")) H2) as (H3 & _ & E).
  split; [exact H3|]. rewrite E. reflexivity.
Defined.

(** Navigation.  Up (with any line in the history) shows the newest entry
    first and then the next older one each time; Down the next newer one, and
    past the newest it answers null and leaves the history.  At the oldest
    entry Up stays there, except that when all 32 slots are in use it wraps
    around to the newest entry.  The entry shown is always one of the
    history, and neither key changes the entries. *)
Theorem history_navigation (st : history) (pos : option nat) :
  history_ok st -> at_entry st pos ->
  let '(up, shown) := history_prev st in
  let '(down, shown') := history_next st in
  (history_count st = 0%nat -> up = st /\ shown = None) /\
  ((0 < history_count st)%nat ->
    let k := match pos with None => 0%nat | Some k => older (history_count st) k end in
    at_entry up (Some k) /\ history_ok up /\ entries up = entries st /\
    cstr <$> shown = entries st !! k) /\
  match pos with
  | None => down = st /\ shown' = None
  | Some O => down = history_reset_nav st /\ at_entry down None /\ shown' = None
  | Some (S k) => at_entry down (Some k) /\ history_ok down /\ entries down = entries st /\
                  cstr <$> shown' = entries st !! k
  end.
Proof.
  intros Hok Hpos. pose proof Hok as [Hl Hf Hc Hh Hfresh].
  assert (forall n, history_ok (set_nav st n)) as Hnav by done.
  assert (forall n, entries (set_nav st n) = entries st) as Hent by done.
  destruct (history_prev st) as [up shown] eqn:Eup, (history_next st) as [down shown'] eqn:Edown.
  split; [|split].
  - intros H0. unfold history_prev in Eup. rewrite H0 in Eup. cbn [Nat.eqb] in Eup. by simplify_eq.
  - intros H0. unfold history_prev in Eup. rewrite (proj2 (Nat.eqb_neq _ _)) in Eup by lia.
    destruct pos as [k|]; cbn [at_entry] in Hpos.
    + destruct Hpos as [Hk Hn]. rewrite Hn in Eup. rewrite (proj2 (Z.eqb_neq _ _)) in Eup by lia.
      rewrite Nat2Z.id, slot_prev in Eup by lia.
      destruct (prev_slot st k Hc Hh Hk) as (j & Ej & Hj & Hcase).
      rewrite Ej in Eup.
      replace ((slot st j =? _)%nat && _ && _) with false in Eup.
      2:{ symmetry. apply not_true_is_false. intros H. apply andb_true_iff in H as [[H1 H2]%andb_true_iff H3].
          apply Nat.eqb_eq in H1, H3. apply Nat.leb_le in H2. rewrite <- H3 in H1. apply slot_inj in H1; [|lia..].
          unfold HISTORY_SIZE in *. destruct (Nat.ltb_spec (S k) 32); lia. }
      rewrite in_range_slot in Eup by done. unfold older.
      destruct (Nat.ltb_spec j (history_count st)) as [Hlt|Hge]; cbn [negb] in Eup; injection Eup as <- <-.
      * replace (if (S k <? history_count st)%nat then _ else _) with j.
        2:{ clear - Hcase Hc Hk Hj Hlt. unfold HISTORY_SIZE in *.
            destruct (Nat.ltb_spec (S k) 32), (Nat.ltb_spec (S k) (history_count st)),
              (Nat.eqb_spec (history_count st) 32); lia. }
        split; [done|]. split; [done|]. split; [done|]. cbn. by rewrite entries_lookup.
      * replace (if (S k <? history_count st)%nat then _ else _) with k.
        2:{ clear - Hcase Hc Hk Hj Hge. unfold HISTORY_SIZE in *.
            destruct (Nat.ltb_spec (S k) 32), (Nat.ltb_spec (S k) (history_count st)),
              (Nat.eqb_spec (history_count st) 32); lia. }
        split; [done|]. split; [done|]. split; [done|]. cbn. by rewrite entries_lookup.
    + rewrite Hpos in Eup. change (-1 =? -1) with true in Eup. cbv iota zeta in Eup.
      assert ((history_head st + HISTORY_SIZE - 1) mod HISTORY_SIZE = slot st 0)%nat as E0
        by (unfold slot, HISTORY_SIZE; lia).
      rewrite E0 in Eup. injection Eup as <- <-. split; [done|]. split; [done|]. split; [done|].
      by rewrite entries_lookup.
  - unfold history_next in Edown. destruct pos as [k|]; cbn [at_entry] in Hpos.
    + destruct Hpos as [Hk Hn]. rewrite Hn in Edown. rewrite (proj2 (Z.eqb_neq _ _)) in Edown by lia.
      rewrite Nat2Z.id in Edown. destruct k as [|k].
      * rewrite slot_0_next, Nat.eqb_refl in Edown by done. by simplify_eq.
      * rewrite slot_next in Edown by lia.
        rewrite (proj2 (Nat.eqb_neq _ _)) in Edown by (apply slot_not_head; lia). simplify_eq.
        split; [split; [cbn; lia|done]|]. split; [done|]. split; [done|]. cbn. by rewrite entries_lookup by lia.
    + rewrite Hpos in Edown. change (-1 =? -1) with true in Edown. cbv iota in Edown. by simplify_eq.
Qed.

(** Three lines typed, then Up twice and Down. *)
Lemma history_navigation_witness :
  let st := typed ["ps"; "tables"; "audit"]%string in
  let up := (history_prev (history_prev st).1).1 in
  at_entry up (Some 1%nat) /\ cstr <$> (history_next up).2 = Some (cs "audit").
Proof.
  intros st. cbv zeta.
  assert (history_ok st) as Hst.
  { repeat (apply (history_add_ok _ (Some _))). apply history_init_ok. }
  pose proof (history_navigation st None Hst eq_refl) as H1.
  destruct (history_prev st) as [u1 s1] eqn:E1, (history_next st).
  destruct H1 as (_ & H1 & _). destruct H1 as (A1 & O1 & _ & _); [apply Nat.ltb_lt; reflexivity|].
  pose proof (history_navigation u1 (Some 0%nat) O1 A1) as H2. cbn [fst].
  assert (history_count u1 = 3%nat) as C1 by (by injection E1 as <- <-).
  destruct (history_prev u1) as [u2 s2] eqn:E2, (history_next u1). rewrite C1 in H2.
  destruct H2 as (_ & H2 & _). destruct H2 as (A2 & O2 & T2 & _); [lia|].
  pose proof (history_navigation u2 (Some 1%nat) O2 A2) as H3. cbn [fst].
  destruct (history_prev u2), (history_next u2) as [u3 s3]. destruct H3 as (_ & _ & _ & _ & _ & H3).
  split; [exact A2|]. cbn [snd]. rewrite H3, T2. injection E1 as <- _. reflexivity.
Defined.

(** The finding: with a full history, Up at the oldest entry shows the newest. *)
Example history_wraps :
  let st := fold_left (fun st n => history_add st (Some (cs (String (Ascii.ascii_of_nat (65 + n)) EmptyString))))
              (seq 0 40) history_init in
  let shown n := cstr <$> (history_prev (Nat.iter n (fun s => (history_prev s).1) st)).2 in
  shown 31%nat = Some [Z.of_nat (65 + 8)] /\ shown 32%nat = Some [Z.of_nat (65 + 39)].
Proof. vm_compute. split; reflexivity. Qed.
