(* ===== verification/Friendly.v ===== *)
(** * Friendly commands (src/shell/friendly.c)

    The translator from shell commands such as [find procs state=ready] to the
    query language.  A C string is its list of characters, a local character
    array the string it holds.  A command's [snprintf] calls, in order, are
    the list [friendly_calls] gives; [friendly_translate] runs them on the
    caller's buffer at the running position [pos], as the code does, where
    [None] is a store outside the buffer: once [pos] has passed the end, the
    size [sql_size - pos] wraps around. *)

From Stdlib Require Import String.
From S2P Require Import Prelude CLib Record Printf Database Query.

(** ** Tables and verbs *)

Definition aliases : list (string * string) := [
  ("procs", "ProcessTable"); ("caps", "CapabilityTable"); ("objects", "ObjectTable");
  ("msgs", "MessageTable"); ("audit", "AuditTable"); ("config", "SystemTable");
  ("sys", "SystemTable")]%string.

Definition friendly_get_aliases : list (string * string) := aliases.

Fixpoint resolve_in (l : list (string * string)) (name : list Z) : list Z :=
  match l with
  | [] => name
  | (a, t) :: l => if strcasecmp name (cs a) =? 0 then cs t else resolve_in l name
  end.

Definition friendly_resolve_alias (name : list Z) : list Z := resolve_in aliases name.

Definition verbs : list string := [
  "tables"; "show"; "info"; "find"; "count"; "add"; "del"; "set";
  "create"; "open"; "list"; "rm"; "cat"; "ps"; "scripts"; "inbox";
  "save"; "run"; "kill"; "spawn"; "msg"]%string.

Definition friendly_is_verb (word : list Z) (len : nat) : bool :=
  existsb (fun v => (strlen (cs v) =? len)%nat && (strncasecmp (cs v) word len =? 0)) verbs.

(** ** Parsing helpers *)

(** [while ( *s && isspace( *s)) s++] *)
Fixpoint skip_blanks (s : list Z) : list Z :=
  match s with
  | [] => []
  | c :: r => if negb (c =? 0) && isspace c then skip_blanks r else s
  end.

(** [while ( *s && ok( *s) && i < room) buf[i++] = *s++]: what is copied, and
    what remains. *)
Fixpoint copy_while (ok : Z -> bool) (room : nat) (s : list Z) : list Z * list Z :=
  match room, s with
  | S room, c :: r =>
      if negb (c =? 0) && ok c then let '(w, r) := copy_while ok room r in (c :: w, r) else ([], s)
  | _, _ => ([], s)
  end.

Definition word_token (s : list Z) (buf_size : nat) : list Z * list Z :=
  copy_while (fun c => negb (isspace c)) (buf_size - 1) (skip_blanks s).

Fixpoint all_digits (s : list Z) : bool :=
  match s with
  | [] => true
  | c :: r => if c =? 0 then true else if negb (isdigit c) then false else all_digits r
  end.

Definition is_numeric (s : list Z) : bool :=
  if chr s =? 0 then false
  else
    let s := if chr s =? 45 then next s else s in
    if chr s =? 0 then false else all_digits s.

(** One [snprintf]: its format and arguments. *)
Definition call : Type := list Z * list varg.
Definition str (fmt : string) (args : list (list Z)) : call := (cs fmt, map (fun s => AStr (Some s)) args).

Definition append_value (val : list Z) : call :=
  if is_numeric val || (strcasecmp val (cs "true") =? 0) || (strcasecmp val (cs "false") =? 0)
  then str "%s" [val] else str "'%s'" [val].

Definition parse_pair (s : list Z) (col_size val_size : nat) : option (list Z * list Z * list Z) :=
  let s := skip_blanks s in
  if chr s =? 0 then None
  else
    let '(col, s) := copy_while (fun c => negb (c =? 61) && negb (isspace c)) (col_size - 1) s in
    if (length col =? 0)%nat || negb (chr s =? 61) then None
    else
      let s := next s in
      if chr s =? 39 then
        let '(val, s) := copy_while (fun c => negb (c =? 39)) (val_size - 1) (next s) in
        let s := if chr s =? 39 then next s else s in
        Some (col, val, s)
      else
        let '(val, s) := copy_while (fun c => negb (isspace c)) (val_size - 1) s in
        Some (col, val, s).

(** The loop over [col=val] pairs, at most [room] of them; each takes at least
    the [=] from the text. *)
Fixpoint parse_pairs (room : nat) (rest : list Z) : list (list Z * list Z) * list Z :=
  match room with
  | O => ([], rest)
  | S room =>
      if chr rest =? 0 then ([], rest)
      else
        match parse_pair rest MAX_COLUMN_NAME MAX_STR_LEN with
        | None => ([], rest)
        | Some (col, val, nxt) =>
            let '(pairs, rest) := parse_pairs room (skip_blanks nxt) in ((col, val) :: pairs, rest)
        end
  end.

(** The pairs of [set], up to the word [where]. *)
Fixpoint parse_set_pairs (room : nat) (rest : list Z) : list (list Z * list Z) * list Z :=
  match room with
  | O => ([], rest)
  | S room =>
      if chr rest =? 0 then ([], rest)
      else
        let '(peek, peek_rest) := word_token rest 32 in
        if strcasecmp peek (cs "where") =? 0 then ([], peek_rest)
        else
          match parse_pair rest MAX_COLUMN_NAME MAX_STR_LEN with
          | None => ([], rest)
          | Some (col, val, nxt) =>
              let '(pairs, rest) := parse_set_pairs room (skip_blanks nxt) in ((col, val) :: pairs, rest)
          end
  end.

(** The body of the condition loops: [col = value], with AND between them. *)
Fixpoint cond_calls (first : bool) (pairs : list (list Z * list Z)) : list call :=
  match pairs with
  | [] => []
  | (col, val) :: pairs =>
      (if first then [] else [str " AND " []]) ++ [str "%s = " [col]; append_value val] ++ cond_calls false pairs
  end.

Fixpoint set_calls (first : bool) (pairs : list (list Z * list Z)) : list call :=
  match pairs with
  | [] => []
  | (col, val) :: pairs =>
      (if first then [] else [str ", " []]) ++ [str "%s = " [col]; append_value val] ++ set_calls false pairs
  end.

Fixpoint column_calls (first : bool) (pairs : list (list Z * list Z)) : list call :=
  match pairs with
  | [] => []
  | (col, _) :: pairs => str "%s%s" [if first then [] else cs ", "; col] :: column_calls false pairs
  end.

Fixpoint value_calls (first : bool) (pairs : list (list Z * list Z)) : list call :=
  match pairs with
  | [] => []
  | (_, val) :: pairs =>
      (if first then [] else [str ", " []]) ++ [append_value val] ++ value_calls false pairs
  end.

(** The content of [create], a final quote being dropped. *)
Fixpoint create_content (room : nat) (p : list Z) : list Z :=
  match room with
  | O => []
  | S room =>
      if chr p =? 0 then []
      else if (chr p =? 39) && (chr (next p) =? 0) then []
      else chr p :: create_content room (next p)
  end.

(** ** The translator *)

Definition is_verb (verb : list Z) (name : string) : bool := strcasecmp verb (cs name) =? 0.

(** The table named next, its alias resolved; [None]: no name. *)
Definition table_arg (rest : list Z) : option (list Z * list Z) :=
  let '(table, rest) := word_token rest MAX_TABLE_NAME in
  if chr table =? 0 then None else Some (table, rest).

(** One definition per verb; [None]: the function returns false. *)
Definition show_calls (rest : list Z) : option (list call) :=
  match table_arg rest with
  | None => None
  | Some (table, _) =>
      if is_verb table "tables" then Some [str "SHOW TABLES" []]
      else Some [str "SELECT * FROM %s" [friendly_resolve_alias table]]
  end.

Definition info_calls (rest : list Z) : option (list call) :=
  match table_arg rest with
  | None => None
  | Some (table, _) => Some [str "DESCRIBE %s" [friendly_resolve_alias table]]
  end.

Definition count_calls (rest : list Z) : option (list call) :=
  match table_arg rest with
  | None => None
  | Some (table, _) => Some [str "SELECT * FROM %s" [friendly_resolve_alias table]]
  end.

Definition find_calls (rest : list Z) : option (list call) :=
  match table_arg rest with
  | None => None
  | Some (table, rest) =>
      let resolved := friendly_resolve_alias table in
      let rest := skip_blanks rest in
      if chr rest =? 0 then Some [str "SELECT * FROM %s" [resolved]]
      else Some (str "SELECT * FROM %s WHERE " [resolved] :: cond_calls true (fst (parse_pairs (length rest) rest)))
  end.

Definition add_calls (rest : list Z) : option (list call) :=
  match table_arg rest with
  | None => None
  | Some (table, rest) =>
      let resolved := friendly_resolve_alias table in
      let '(pairs, _) := parse_pairs MAX_INSERT_VALS (skip_blanks rest) in
      if (length pairs =? 0)%nat then None
      else Some (str "INSERT INTO %s (" [resolved] :: column_calls true pairs ++
                 [str ") VALUES (" []] ++ value_calls true pairs ++ [str ")" []])
  end.

Definition del_calls (rest : list Z) : option (list call) :=
  match table_arg rest with
  | None => None
  | Some (table, rest) =>
      let resolved := friendly_resolve_alias table in
      let rest := skip_blanks rest in
      if chr rest =? 0 then None
      else Some (str "DELETE FROM %s WHERE " [resolved] :: cond_calls true (fst (parse_pairs (length rest) rest)))
  end.

Definition update_calls (rest : list Z) : option (list call) :=
  match table_arg rest with
  | None => None
  | Some (table, rest) =>
      let resolved := friendly_resolve_alias table in
      let '(pairs, rest) := parse_set_pairs MAX_INSERT_VALS (skip_blanks rest) in
      if (length pairs =? 0)%nat then None
      else
        let rest := skip_blanks rest in
        Some (str "UPDATE %s SET " [resolved] :: set_calls true pairs ++
              if chr rest =? 0 then []
              else str " WHERE " [] :: cond_calls true (fst (parse_pairs (length rest) rest)))
  end.

Definition create_calls (rest : list Z) : option (list call) :=
  let '(type, rest) := word_token rest MAX_STR_LEN in
  if chr type =? 0 then None
  else
    let '(name, rest) := word_token rest MAX_STR_LEN in
    if chr name =? 0 then None
    else
      let rest := skip_blanks rest in
      if negb (chr rest =? 0) then
        let p := if chr rest =? 39 then next rest else rest in
        let content := create_content (MAX_STR_LEN - 1) p in
        Some [str "INSERT INTO ObjectTable (name, type, data) VALUES ('%s', '%s', '%s')" [name; type; content]]
      else Some [str "INSERT INTO ObjectTable (name, type) VALUES ('%s', '%s')" [name; type]].

Definition open_calls (rest : list Z) : option (list call) :=
  let '(name, _) := word_token rest MAX_STR_LEN in
  if chr name =? 0 then None else Some [str "SELECT * FROM ObjectTable WHERE name = '%s'" [name]].

Definition list_calls (rest : list Z) : option (list call) :=
  let '(type, _) := word_token rest MAX_STR_LEN in
  if chr type =? 0 then Some [str "SELECT * FROM ObjectTable" []]
  else Some [str "SELECT * FROM ObjectTable WHERE type = '%s'" [type]].

Definition rm_calls (rest : list Z) : option (list call) :=
  let '(name, _) := word_token rest MAX_STR_LEN in
  if chr name =? 0 then None else Some [str "DELETE FROM ObjectTable WHERE name = '%s'" [name]].

Definition friendly_calls (input : list Z) : option (list call) :=
  let '(verb, rest) := word_token input 32 in
  if chr verb =? 0 then None
  else if is_verb verb "tables" then Some [str "SHOW TABLES" []]
  else if is_verb verb "show" then show_calls rest
  else if is_verb verb "info" then info_calls rest
  else if is_verb verb "count" then count_calls rest
  else if is_verb verb "find" then find_calls rest
  else if is_verb verb "add" then add_calls rest
  else if is_verb verb "del" then del_calls rest
  else if is_verb verb "set" then update_calls rest
  else if is_verb verb "create" then create_calls rest
  else if is_verb verb "open" then open_calls rest
  else if is_verb verb "list" then list_calls rest
  else if is_verb verb "rm" then rm_calls rest
  else if is_verb verb "ps" then Some [str "SELECT * FROM ProcessTable" []]
  else None.

(** [n = snprintf(sql + pos, sql_size - pos, ...); if (n > 0) pos += n] *)
Definition snprintf_at (sql : list Z) (pos : nat) (c : call) : option (list Z * nat) :=
  let '(fmt, args) := c in
  if (pos <? length sql)%nat then
    match snprintf (drop pos sql) (Z.of_nat (length sql - pos)) fmt args with
    | None => None
    | Some (b, n) => Some (take pos sql ++ b, (pos + Z.to_nat n)%nat)
    end
  else
    match kvprintf_chars fmt args with
    | Some [] => if (pos =? length sql)%nat then Some (sql, pos) else None
    | _ => None
    end.

Fixpoint snprintf_all (sql : list Z) (pos : nat) (cs : list call) : option (list Z) :=
  match cs with
  | [] => Some sql
  | c :: cs =>
      match snprintf_at sql pos c with
      | Some (sql, pos) => snprintf_all sql pos cs
      | None => None
      end
  end.

Definition friendly_translate (input : list Z) (sql_out : list Z) : option (bool * list Z) :=
  match friendly_calls input with
  | None => Some (false, sql_out)
  | Some cs => match snprintf_all sql_out 0 cs with
               | Some sql => Some (true, sql)
               | None => None
               end
  end.

Definition FRIENDLY_SQL_MAX : nat := 512.

Definition translated (s : string) : option (bool * list Z) :=
  match friendly_translate (cs s) (replicate FRIENDLY_SQL_MAX 7) with
  | Some (b, sql) => Some (b, cstr sql)
  | None => None
  end.

Example translate_find :
  translated "find procs state='ready' pid=3" =
  Some (true, cs "SELECT * FROM ProcessTable WHERE state = 'ready' AND pid = 3").
Proof. vm_compute. reflexivity. Qed.

Example translate_add :
  translated "add objects name=a type=note" =
  Some (true, cs "INSERT INTO ObjectTable (name, type) VALUES ('a', 'note')").
Proof. vm_compute. reflexivity. Qed.

Example translate_set :
  translated "SET sys value=1 enabled=true WHERE key=boot" =
  Some (true, cs "UPDATE SystemTable SET value = 1, enabled = true WHERE key = 'boot'").
Proof. vm_compute. reflexivity. Qed.

Example translate_create :
  translated "create note todo 'buy milk'" =
  Some (true, cs "INSERT INTO ObjectTable (name, type, data) VALUES ('todo', 'note', 'buy milk')").
Proof. vm_compute. reflexivity. Qed.
