(* ===== verification/FriendlySpec.v ===== *)
(** * Correctness of the friendly commands

    Which queries the commands become, when the caller's buffer is large
    enough for them, and, composed with the parser of the query language, what
    these queries mean. *)

From Stdlib Require Import String.
From S2P Require Import Prelude CLib Record Printf Database Query QuerySpec Friendly.

(** Evaluates the literal texts of the goal. *)
Ltac lit := repeat match goal with |- context [cs ?s] => let v := eval vm_compute in (cs s) in change (cs s) with v end.

(** ** Formats of literal text and [%s] *)

Fixpoint fill (fmt : list Z) (args : list (list Z)) : list Z :=
  match fmt with
  | [] => []
  | c :: r =>
      if c =? 37 then match r, args with _ :: r, a :: args => cstr a ++ fill r args | _, _ => [] end
      else c :: fill r args
  end.

Fixpoint simple (fmt : list Z) (n : nat) : bool :=
  match fmt with
  | [] => (n =? 0)%nat
  | c :: r =>
      if c =? 0 then false
      else if c =? 37 then
        match r, n with
        | s :: r, S n => (s =? 115) && simple r n
        | _, _ => false
        end
      else simple r n
  end.

Lemma kvprintf_loop_fill k fmt args fuel :
  (length fmt <= k)%nat -> (length fmt < fuel)%nat -> simple fmt (length args) = true ->
  kvprintf_loop fuel fmt (map (fun s => AStr (Some s)) args) = Some (fill fmt args).
Proof.
  revert fmt args fuel. induction k as [|k IH]; intros [|c r] args fuel Hk Hf Hs;
    (destruct fuel as [|fuel]; [cbn in Hf; lia|]); cbn [length] in Hk, Hf; try lia; try done.
  cbn [simple] in Hs. cbn [kvprintf_loop fill chr hd next tl].
  destruct (c =? 0); [done|]. destruct (c =? 37) eqn:E; cbn [negb].
  - destruct r as [|s r]; [done|]. destruct args as [|a args]; [done|]. cbn [length] in Hs, Hk, Hf.
    apply andb_true_iff in Hs as [->%Z.eqb_eq Hs]. cbn [tl].
    cbn -[kvprintf_loop fill]. rewrite (proj2 (Z.ltb_ge _ _)) by lia. cbn [Z.to_nat replicate app].
    rewrite IH by (done || lia). done.
  - by rewrite IH by (done || lia).
Qed.

Lemma kvprintf_fill fmt args :
  simple fmt (length args) = true ->
  kvprintf_chars fmt (map (fun s => AStr (Some s)) args) = Some (fill fmt args).
Proof. intros H. unfold kvprintf_chars. apply (kvprintf_loop_fill (length fmt)); [done|lia|done]. Qed.

(** ** The calls of a command *)

Definition call_text (c : call) : list Z := default [] (kvprintf_chars (fst c) (snd c)).

(** A call that prints a non-empty text. *)
Definition call_ok (c : call) : Prop :=
  kvprintf_chars (fst c) (snd c) = Some (call_text c) /\ call_text c <> [].

Lemma str_text fmt args : simple (cs fmt) (length args) = true -> call_text (str fmt args) = fill (cs fmt) args.
Proof. intros H. unfold call_text, str. cbn [fst snd]. by rewrite kvprintf_fill. Qed.

Lemma str_ok fmt args :
  simple (cs fmt) (length args) = true -> fill (cs fmt) args <> [] -> call_ok (str fmt args).
Proof.
  intros H Hne. split; [|by rewrite str_text].
  unfold call_text, str. cbn [fst snd]. by rewrite kvprintf_fill.
Qed.

(** A literal first character makes the text non-empty. *)
Definition literal_start (fmt : list Z) (n : nat) : bool :=
  simple fmt n && negb (chr fmt =? 37) && negb (length fmt =? 0)%nat.

Lemma str_lit_ok fmt args : literal_start (cs fmt) (length args) = true -> call_ok (str fmt args).
Proof.
  intros H. apply andb_true_iff in H as [[H1 H2]%andb_true_iff H3].
  apply str_ok; [done|]. destruct (cs fmt) as [|c r]; [done|]. cbn in H2 |- *. by destruct (c =? 37).
Qed.

Lemma cstr_nonempty s : chr s <> 0 -> cstr s <> [].
Proof. destruct s as [|c s]; [done|]. cbn. unfold cstr. cbn [strlen]. intros H. by rewrite (proj2 (Z.eqb_neq _ _) H). Qed.

Lemma append_value_text val :
  call_text (append_value val) =
    if is_numeric val || (strcasecmp val (cs "true") =? 0) || (strcasecmp val (cs "false") =? 0)
    then cstr val else [39] ++ cstr val ++ [39].
Proof.
  unfold append_value. destruct (_ || _).
  - rewrite str_text by done. lit. cbn. by rewrite app_nil_r.
  - rewrite str_text by done. by lit.
Qed.

Lemma append_value_ok val : call_ok (append_value val).
Proof.
  unfold append_value.
  destruct (is_numeric val || (strcasecmp val (cs "true") =? 0) || (strcasecmp val (cs "false") =? 0)) eqn:E;
    [|by apply str_lit_ok].
  apply str_ok; [done|]. lit. cbn. rewrite app_nil_r. intros H0.
  apply orb_true_iff in E as [[E|E]%orb_true_iff|E].
  - revert H0. apply cstr_nonempty. unfold is_numeric in E. by destruct (Z.eqb_spec (chr val) 0).
  - apply Z.eqb_eq, strcasecmp_0 in E. by rewrite H0 in E.
  - apply Z.eqb_eq, strcasecmp_0 in E. by rewrite H0 in E.
Qed.

Definition pair_ok (cv : list Z * list Z) : Prop := cstr (fst cv) <> [].

Lemma copy_while_nonzero ok room s : Forall (fun c => c <> 0) (fst (copy_while ok room s)).
Proof.
  revert s. induction room as [|room IH]; intros [|c s]; cbn [copy_while]; try done.
  destruct (Z.eqb_spec c 0); cbn [negb andb]; [done|]. destruct (ok c); [|done].
  specialize (IH s). destruct (copy_while ok room s). by constructor.
Qed.

Lemma parse_pair_ok s cz vz col val r : parse_pair s cz vz = Some (col, val, r) -> pair_ok (col, val).
Proof.
  unfold parse_pair. destruct (chr (skip_blanks s) =? 0); [done|].
  pose proof (copy_while_nonzero (fun c => negb (c =? 61) && negb (isspace c)) (cz - 1) (skip_blanks s)) as Hz.
  destruct (copy_while _ (cz - 1) (skip_blanks s)) as [w s'].
  destruct (length w =? 0)%nat eqn:E; [done|]. cbn [orb]. destruct (negb (chr s' =? 61)); [done|].
  cbn [fst] in Hz. intros H.
  assert (col = w) as ->.
  { destruct (chr (next s') =? 39).
    - by destruct (copy_while _ _ (next (next s'))); simplify_eq.
    - by destruct (copy_while _ _ (next s')); simplify_eq. }
  unfold pair_ok. cbn [fst]. rewrite cstr_idemp by done. by destruct w.
Qed.

Lemma parse_pairs_ok room rest : Forall pair_ok (fst (parse_pairs room rest)).
Proof.
  revert rest. induction room as [|room IH]; intros rest; cbn [parse_pairs]; [done|].
  destruct (chr rest =? 0); [done|].
  destruct (parse_pair rest _ _) as [[[col val] nxt]|] eqn:E; [|done].
  specialize (IH (skip_blanks nxt)). destruct (parse_pairs room (skip_blanks nxt)).
  constructor; [by eapply parse_pair_ok|done].
Qed.

Lemma parse_set_pairs_ok room rest : Forall pair_ok (fst (parse_set_pairs room rest)).
Proof.
  revert rest. induction room as [|room IH]; intros rest; cbn [parse_set_pairs]; [done|].
  destruct (chr rest =? 0); [done|]. destruct (word_token rest 32) as [peek pr].
  destruct (_ =? 0); [done|].
  destruct (parse_pair rest _ _) as [[[col val] nxt]|] eqn:E; [|done].
  specialize (IH (skip_blanks nxt)). destruct (parse_set_pairs room (skip_blanks nxt)).
  constructor; [by eapply parse_pair_ok|done].
Qed.

Lemma assign_ok col : pair_ok (col, []) -> call_ok (str "%s = " [col]).
Proof. intros H. apply str_ok; [done|]. lit. cbn. unfold pair_ok in H. cbn in H. by destruct (cstr col). Qed.

Lemma cond_calls_ok first pairs : Forall pair_ok pairs -> Forall call_ok (cond_calls first pairs).
Proof.
  revert first. induction pairs as [|[col val] pairs IH]; intros first Hp; cbn [cond_calls]; [done|].
  apply Forall_cons in Hp as [Hc Hp]. apply Forall_app. split.
  - destruct first; [done|]. apply Forall_singleton. by apply str_lit_ok.
  - constructor; [by apply assign_ok|]. constructor; [apply append_value_ok|]. by apply IH.
Qed.

Lemma set_calls_ok first pairs : Forall pair_ok pairs -> Forall call_ok (set_calls first pairs).
Proof.
  revert first. induction pairs as [|[col val] pairs IH]; intros first Hp; cbn [set_calls]; [done|].
  apply Forall_cons in Hp as [Hc Hp]. apply Forall_app. split.
  - destruct first; [done|]. apply Forall_singleton. by apply str_lit_ok.
  - constructor; [by apply assign_ok|]. constructor; [apply append_value_ok|]. by apply IH.
Qed.

Lemma column_calls_ok first pairs : Forall pair_ok pairs -> Forall call_ok (column_calls first pairs).
Proof.
  revert first. induction pairs as [|[col val] pairs IH]; intros first Hp; cbn [column_calls]; [done|].
  apply Forall_cons in Hp as [Hc Hp]. constructor; [|by apply IH].
  apply str_ok; [done|]. lit. cbn. destruct first; cbn; [|done]. by rewrite app_nil_r.
Qed.

Lemma value_calls_ok first pairs : Forall call_ok (value_calls first pairs).
Proof.
  revert first. induction pairs as [|[col val] pairs IH]; intros first; cbn [value_calls]; [done|].
  apply Forall_app. split.
  - destruct first; [done|]. apply Forall_singleton. by apply str_lit_ok.
  - constructor; [apply append_value_ok|]. by apply IH.
Qed.

Lemma friendly_calls_ok input cs : friendly_calls input = Some cs -> Forall call_ok cs /\ cs <> [].
Proof.
  unfold friendly_calls, show_calls, info_calls, count_calls, find_calls, add_calls, del_calls, update_calls, create_calls, open_calls, list_calls, rm_calls.
  destruct (word_token input 32) as [verb rest].
  destruct (chr verb =? 0); [done|].
  assert (forall fmt args l, literal_start (CLib.cs fmt) (length args) = true -> Forall call_ok l ->
    Forall call_ok (str fmt args :: l)) as Hlit.
  { intros. constructor; [by apply str_lit_ok|done]. }
  repeat match goal with
  | |- (if ?b then _ else _) = _ -> _ => destruct b
  | |- match table_arg rest with _ => _ end = _ -> _ =>
      destruct (table_arg rest) as [[table rest']|]; [|intros H; discriminate H]
  | |- (let '(_, _) := word_token ?r MAX_STR_LEN in _) = _ -> _ => destruct (word_token r MAX_STR_LEN) as [? ?]
  | |- context [parse_pairs MAX_INSERT_VALS ?r] =>
      let H := fresh "Hp" in pose proof (parse_pairs_ok MAX_INSERT_VALS r) as H;
      destruct (parse_pairs MAX_INSERT_VALS r) as [? ?]; cbn [fst] in H
  | |- context [parse_set_pairs MAX_INSERT_VALS ?r] =>
      let H := fresh "Hp" in pose proof (parse_set_pairs_ok MAX_INSERT_VALS r) as H;
      destruct (parse_set_pairs MAX_INSERT_VALS r) as [? ?]; cbn [fst] in H
  end;
  first [intros H; discriminate H | intros <-%(inj Some); (split; [|discriminate]); apply Hlit; [reflexivity|];
         try apply Forall_nil_2].
  - apply cond_calls_ok, parse_pairs_ok.
  - apply Forall_app. split; [by apply column_calls_ok|]. apply Hlit; [reflexivity|].
    apply Forall_app. split; [by apply value_calls_ok|]. by apply Hlit; [reflexivity|].
  - apply cond_calls_ok, parse_pairs_ok.
  - apply Forall_app. split; [by apply set_calls_ok|]. destruct (_ =? 0); [done|].
    apply Hlit; [reflexivity|]. apply cond_calls_ok, parse_pairs_ok.
Qed.

(** ** The buffer *)

Definition command_text (cs : list call) : list Z := concat (map call_text cs).

Definition short (l : list Z) : Prop := Z.of_nat (length l) < 2 ^ 63.

(** Printing after a text that fits is printing the longer text. *)
Lemma blit_take_drop {A} (sql text z w : list A) :
  (length z <= length w)%nat ->
  take (length text) (blit sql 0 (text ++ z)) ++ blit (drop (length text) (blit sql 0 (text ++ z))) 0 w =
  blit sql 0 (text ++ w).
Proof.
  intros H. unfold blit. cbn [take Nat.add]. rewrite !app_nil_l, <- !app_assoc, take_app_length, drop_app_length.
  rewrite drop_app_ge, drop_drop, !length_app by done. do 3 f_equal. lia.
Qed.

Lemma snprintf_at_text sql text z c :
  call_ok c -> short sql -> short (call_text c) -> (length text < length sql)%nat -> (length z <= 1)%nat ->
  snprintf_at (blit sql 0 (text ++ z)) (length text) c =
    Some (blit sql 0 (take (length sql - 1) (text ++ call_text c) ++ [0]), length (text ++ call_text c)).
Proof.
  intros [E _] Hs Ht Hl Hz. unfold snprintf_at. destruct c as [fmt args]. cbn [fst snd] in E.
  assert (length (blit sql 0 (text ++ z)) = length sql) as Hbl by (apply length_blit; len).
  unfold short in *. rewrite Hbl, (proj2 (Nat.ltb_lt _ _) Hl).
  erewrite snprintf_bounded; [|rewrite length_drop; lia|rewrite length_drop; lia|exact Ht|exact E].
  rewrite Nat2Z.id, blit_take_drop by (rewrite length_app; cbn [length]; lia).
  rewrite length_app, app_assoc, (take_app text), (take_ge text) by lia. do 6 f_equal. lia.
Qed.

Lemma snprintf_at_out sql pos c :
  call_ok c -> (length sql <= pos)%nat -> snprintf_at sql pos c = None.
Proof.
  intros [E Hne] Hp. unfold snprintf_at. destruct c as [fmt args]. cbn [fst snd] in E.
  rewrite (proj2 (Nat.ltb_ge _ _) Hp), E. by destruct (call_text (fmt, args)).
Qed.

(** The calls after [text] has been printed. *)
Lemma snprintf_all_spec cs sql text z :
  Forall call_ok cs -> cs <> [] -> short sql -> short (text ++ command_text cs) ->
  (length text < length sql)%nat -> (length z <= 1)%nat ->
  snprintf_all (blit sql 0 (text ++ z)) (length text) cs =
    if (length (text ++ command_text (removelast cs)) <? length sql)%nat
    then Some (blit sql 0 (take (length sql - 1) (text ++ command_text cs) ++ [0]))
    else None.
Proof.
  revert text z. induction cs as [|c cs IH]; intros text z Hok Hne Hs Hsh Hlen Hz; [done|].
  apply Forall_cons in Hok as [Hc Hok]. cbn [snprintf_all].
  unfold command_text in Hsh. cbn [map concat] in Hsh.
  assert (short (call_text c)) as Hshc by (unfold short in *; rewrite !length_app in Hsh; lia).
  rewrite (snprintf_at_text sql text z c Hc Hs Hshc Hlen Hz).
  destruct cs as [|c' cs].
  { cbn [removelast snprintf_all]. unfold command_text. cbn [map concat]. rewrite !app_nil_r.
    by rewrite (proj2 (Nat.ltb_lt _ _) Hlen). }
  change (removelast (c :: c' :: cs)) with (c :: removelast (c' :: cs)).
  unfold command_text at 1 2. cbn [map concat]. fold (command_text (removelast (c' :: cs))).
  change (call_text c' ++ concat (map call_text cs)) with (command_text (c' :: cs)) in *.
  rewrite !app_assoc. rewrite !app_assoc in Hsh.
  destruct (Nat.ltb_spec (length (text ++ call_text c)) (length sql)) as [Hfit|Hover].
  - rewrite (take_ge (text ++ call_text c)) by lia. by apply IH.
  - cbn [snprintf_all]. rewrite snprintf_at_out; [|by apply Forall_cons in Hok as [? _]|].
    + rewrite (proj2 (Nat.ltb_ge _ _)); [done|]. rewrite length_app. lia.
    + rewrite length_blit; [done|]. rewrite length_app, length_take. cbn [length]. lia.
Qed.

(** C40: when the translation is safe.  For a recognised command, let [text]
    be what its [snprintf] calls print, and [before] what all but the last
    print.  If [before] is shorter than the caller's buffer, the buffer
    receives [text], cut to fit, with a terminator, and no other cell is
    touched.  If not, a call stores outside the buffer.  An input that is no
    command leaves the buffer alone. *)
Theorem friendly_translate_bounds (input sql : list Z) :
  (0 < length sql)%nat -> short sql ->
  match friendly_calls input with
  | None => friendly_translate input sql = Some (false, sql)
  | Some calls =>
      let text := command_text calls in
      let before := command_text (removelast calls) in
      short text ->
      if (length before <? length sql)%nat
      then friendly_translate input sql = Some (true, blit sql 0 (take (length sql - 1) text ++ [0]))
      else friendly_translate input sql = None
  end.
Proof.
  intros Hl Hs. unfold friendly_translate.
  destruct (friendly_calls input) as [calls|] eqn:E; [|done]. cbv zeta. intros Hsh.
  destruct (friendly_calls_ok input calls E) as [Hok Hne].
  pose proof (snprintf_all_spec calls sql [] [] Hok Hne Hs Hsh Hl (Nat.le_0_l 1)) as H.
  rewrite app_nil_l, blit_nil in H. cbn [length app] in H. rewrite H.
  by destruct (_ <? _)%nat.
Qed.

Fixpoint repeat_text (n : nat) (s : string) : string :=
  match n with O => EmptyString | S n => String.append s (repeat_text n s) end.

(** A line of 251 characters, shorter than the editor's limit, whose query
    does not fit: 60 pairs [a=b]. *)
Definition long_find : list Z := cs (String.append "find procs " (repeat_text 60 "a=b ")).

Lemma friendly_translate_bounds_witness :
  (length long_find < 512)%nat /\ friendly_translate long_find (replicate FRIENDLY_SQL_MAX 0) = None.
Proof.
  split; [apply Nat.ltb_lt; vm_compute; reflexivity|].
  pose proof (friendly_translate_bounds long_find (replicate FRIENDLY_SQL_MAX 0)) as H.
  assert (0 < length (replicate FRIENDLY_SQL_MAX 0%Z))%nat as H1 by (apply Nat.ltb_lt; vm_compute; reflexivity).
  assert (short (replicate FRIENDLY_SQL_MAX 0)) as H2 by (vm_compute; reflexivity).
  specialize (H H1 H2).
  destruct (friendly_calls long_find) as [calls|] eqn:E; [|vm_compute in E; discriminate E].
  vm_compute in E. injection E as <-. cbv zeta in H.
  revert H. vm_compute (_ <? _)%nat. intros H. apply H. vm_compute. reflexivity.
Defined.

(** ** Lexing a text

    The tokenizer works on positions; [lex] is what it does to the text that
    remains, once blanks are skipped. *)

Fixpoint take_ok (ok : Z -> bool) (limit : nat) (s : list Z) : list Z :=
  match limit, s with
  | S limit, c :: r => if ok c then c :: take_ok ok limit r else []
  | _, _ => []
  end.

Definition lex (v r : list Z) : token_type * list Z * nat :=
  let c := chr r in
  if c =? 0 then (TOK_EOF, v, 0%nat)
  else if c =? 42 then (TOK_STAR, [42; 0], 1%nat)
  else if c =? 44 then (TOK_COMMA, v, 1%nat)
  else if c =? 40 then (TOK_LPAREN, v, 1%nat)
  else if c =? 41 then (TOK_RPAREN, v, 1%nat)
  else if c =? 61 then (TOK_EQ, v, 1%nat)
  else if (c =? 33) && (chr (next r) =? 61) then (TOK_NEQ, v, 2%nat)
  else if (c =? 60) && (chr (next r) =? 61) then (TOK_LE, v, 2%nat)
  else if (c =? 62) && (chr (next r) =? 61) then (TOK_GE, v, 2%nat)
  else if c =? 60 then (TOK_LT, v, 1%nat)
  else if c =? 62 then (TOK_GT, v, 1%nat)
  else if c =? 39 then
    let w := take_ok string_char MAX_STR_LEN (next r) in
    let j := (1 + length w)%nat in
    (TOK_STRING, w ++ [0], if r.[j] =? 39 then (j + 1)%nat else j)
  else if isdigit c then
    let w := take_ok isdigit 20 r in (TOK_NUMBER, w ++ [0], length w)
  else if isalpha c || (c =? 95) then
    let w := take_ok ident_char MAX_STR_LEN r in (check_keyword (w ++ [0]), w ++ [0], length w)
  else (TOK_ERROR, v, 1%nat).

Lemma nth_drop_add (s : list Z) i k : s.[i + k] = (drop i s).[k].
Proof. rewrite !nth_lookup_total_0, lookup_drop. done. Qed.

Lemma nth_drop_0 (s : list Z) i : s.[i] = chr (drop i s).
Proof. rewrite <- (Nat.add_0_r i) at 1. rewrite nth_drop_add. by destruct (drop i s). Qed.

Lemma drop_next (s : list Z) i : drop (S i) s = next (drop i s).
Proof. revert i. induction s as [|c s IH]; intros [|i]; try done. cbn [drop]. apply IH. Qed.

Lemma take_chars_ok ok limit s i : ok 0 = false -> take_chars ok limit s i = take_ok ok limit (drop i s).
Proof.
  intros H0. revert i. induction limit as [|limit IH]; intros i; [done|]. cbn [take_chars take_ok].
  rewrite IH, drop_next, nth_drop_0. destruct (drop i s) as [|c r]; cbn [chr hd next tl]; [by rewrite H0|].
  by destruct (ok c).
Qed.

Definition rest (p : parser) : list Z := drop (pos p) (input p).

Lemma skip_ws_blanks fuel s i ws r :
  drop i s = ws ++ r -> Forall (fun c => c <> 0 /\ isspace c = true) ws -> chr r = 0 \/ isspace (chr r) = false ->
  (length ws <= fuel)%nat -> skip_ws fuel s i = (i + length ws)%nat.
Proof.
  revert i ws. induction fuel as [|fuel IH]; intros i ws E Hws Hr Hf.
  { destruct ws; [cbn; lia|cbn in Hf; lia]. }
  cbn [skip_ws]. rewrite nth_drop_0, E. destruct ws as [|c ws]; cbn [app chr hd length].
  - destruct Hr as [Hr|Hr].
    + change (hd 0 r) with (chr r). rewrite Hr. cbn. lia.
    + change (hd 0 r) with (chr r). rewrite Hr, andb_false_r. lia.
  - apply Forall_cons in Hws as [[H1 H2] Hws]. rewrite (proj2 (Z.eqb_neq _ _) H1), H2. cbn [negb andb].
    rewrite (IH (S i) ws); [lia| |done|done|cbn in Hf; lia]. by rewrite drop_next, E.
Qed.

(** [next_token] on a text that starts with blanks. *)
Lemma next_token_lex p ws r :
  rest p = ws ++ r -> Forall (fun c => c <> 0 /\ isspace c = true) ws -> chr r = 0 \/ isspace (chr r) = false ->
  let '(t, v, n) := lex (tok_value p) r in
  next_token p = Parser (input p) (pos p + length ws + n) t v.
Proof.
  intros E Hws Hr. unfold next_token, skip_whitespace. cbn [input pos tok_value].
  unfold rest in E. pose proof (f_equal length E) as Hlen. rewrite length_drop, length_app in Hlen.
  rewrite (skip_ws_blanks _ _ _ ws r) by (done || lia).
  set (i := (pos p + length ws)%nat). assert (drop i (input p) = r) as Ei.
  { unfold i. rewrite <- drop_drop, E. apply drop_app_length. }
  rewrite (nth_drop_0 (input p) i), Ei.
  assert ((input p).[i + 1] = chr (next r)) as -> by (rewrite nth_drop_0, Nat.add_1_r, drop_next, Ei; done).
  rewrite !take_chars_ok by done. rewrite Nat.add_1_r, drop_next, Ei.
  assert (forall k, (input p).[S i + k] = r.[S k]) as Hk.
  { intros k. replace (S i + k)%nat with (i + S k)%nat by lia. by rewrite nth_drop_add, Ei. }
  rewrite Hk. unfold lex. cbv zeta.
  repeat match goal with
  | |- context [if ?b then (?x, _, _) else _] =>
      destruct b; [first [done|f_equal; lia|cbn [Nat.add]; destruct (_ =? 39); f_equal; lia]|]
  end; first [done|f_equal; lia].
Qed.

(** One token, given what [lex] finds behind at most one blank. *)
Lemma token p sp r t v n :
  rest p = sp ++ r -> sp = [] \/ sp = [32] -> chr r = 0 \/ isspace (chr r) = false ->
  lex (tok_value p) r = (t, v, n) ->
  next_token p = Parser (input p) (pos p + length sp + n) t v /\ rest (next_token p) = drop n r.
Proof.
  intros E Hsp Hr Hlex.
  assert (Forall (fun c => c <> 0 /\ isspace c = true) sp) as Hws by (destruct Hsp as [->| ->]; by repeat constructor).
  pose proof (next_token_lex p sp r E Hws Hr) as H. rewrite Hlex in H. split; [done|].
  rewrite H. unfold rest. cbn [pos input]. rewrite <- drop_drop, <- drop_drop. unfold rest in E. rewrite E.
  by rewrite drop_app_length.
Qed.

Lemma take_ok_app ok limit w r :
  Forall (fun c => ok c = true) w -> (length w <= limit)%nat -> ok 0 = false -> ok (chr r) = false ->
  take_ok ok limit (w ++ r) = w.
Proof.
  intros Hw. revert limit. induction Hw as [|c w Hc Hw IH]; intros limit Hl H0 Hr; cbn [app].
  - destruct limit, r as [|c r]; try done. cbn [take_ok chr hd] in *. by rewrite Hr.
  - destruct limit as [|limit]; [cbn in Hl; lia|]. cbn [take_ok]. rewrite Hc, IH; [done|cbn in Hl; lia|done|done].
Qed.

(** Names: identifiers that are no keyword and fit the arrays. *)
Definition is_name (w : list Z) : bool :=
  (isalpha (chr w) || (chr w =? 95)) && forallb ident_char w && (length w <=? 62)%nat &&
  bool_decide (check_keyword (w ++ [0]) = TOK_IDENT).

Lemma ident_char_facts c : ident_char c = true ->
  c <> 0 /\ isspace c = false /\ c <> 61 /\ c <> 39 /\ 48 <= c <= 122.
Proof.
  unfold ident_char, isalnum, isdigit, isalpha, isspace. lia.
Qed.

Lemma is_name_facts w : is_name w = true ->
  exists c r, w = c :: r /\ (isalpha c || (c =? 95)) = true /\ Forall (fun c => ident_char c = true) w /\
    (length w <= 62)%nat /\ check_keyword (w ++ [0]) = TOK_IDENT.
Proof.
  unfold is_name. intros [[[H1 H2]%andb_true_iff H3]%andb_true_iff H4]%andb_true_iff.
  destruct w as [|c r]; [done|]. exists c, r. split; [done|]. split; [done|].
  split; [by apply Forall_forall; intros x Hx; apply (proj1 (forallb_forall _ _) H2), list_elem_of_In|].
  split; [by apply Nat.leb_le|]. by apply bool_decide_eq_true in H4.
Qed.

(** An identifier is not mistaken for an operator, a string or a number. *)
Lemma lex_word v w r :
  isalpha (chr w) || (chr w =? 95) = true -> Forall (fun c => ident_char c = true) w -> w <> [] ->
  (length w <= MAX_STR_LEN)%nat -> ident_char (chr r) = false ->
  lex v (w ++ r) = (check_keyword (w ++ [0]), w ++ [0], length w).
Proof.
  intros Hf Hw Hne Hl Hr. unfold lex. rewrite (take_ok_app ident_char MAX_STR_LEN w r) by done.
  destruct w as [|c w]; [done|]. cbn [app chr hd] in *.
  assert (isdigit c = false /\ c <> 0 /\ c <> 42 /\ c <> 44 /\ c <> 40 /\ c <> 41 /\ c <> 61 /\ c <> 33 /\
          c <> 60 /\ c <> 62 /\ c <> 39) as (Hd & Hc).
  { clear - Hf. unfold isalpha, isdigit in *. lia. }
  rewrite !(proj2 (Z.eqb_neq c _)) by lia. cbn [andb]. by rewrite Hd, Hf.
Qed.

Lemma token_word p sp w r :
  rest p = sp ++ w ++ r -> sp = [] \/ sp = [32] -> (isalpha (chr w) || (chr w =? 95)) = true -> w <> [] ->
  Forall (fun c => ident_char c = true) w -> (length w <= MAX_STR_LEN)%nat -> ident_char (chr r) = false ->
  tok_type (next_token p) = check_keyword (w ++ [0]) /\ tok_value (next_token p) = w ++ [0] /\
  rest (next_token p) = r.
Proof.
  intros E Hsp Hf Hne Hw Hl Hr.
  assert (chr (w ++ r) = 0 \/ isspace (chr (w ++ r)) = false) as Hs.
  { right. destruct w as [|c w]; [done|]. apply Forall_cons in Hw as [Hc _]. by destruct (ident_char_facts c Hc) as (_ & ? & _). }
  destruct (token p sp (w ++ r) _ _ _ E Hsp Hs (lex_word _ w r Hf Hw Hne Hl Hr)) as [H1 H2].
  rewrite H2, drop_app_length, H1. done.
Qed.

Lemma token_name p sp w r :
  is_name w = true -> rest p = sp ++ w ++ r -> sp = [] \/ sp = [32] -> ident_char (chr r) = false ->
  tok_type (next_token p) = TOK_IDENT /\ tok_value (next_token p) = w ++ [0] /\ rest (next_token p) = r.
Proof.
  intros Hn E Hsp Hr. destruct (is_name_facts w Hn) as (c & w' & -> & Hf & Hw & Hl & <-).
  apply (token_word p sp); try done. unfold MAX_STR_LEN. lia.
Qed.

(** A keyword, as the commands print it. *)
Lemma token_keyword p sp k r t :
  rest p = sp ++ cs k ++ r -> sp = [] \/ sp = [32] ->
  (isalpha (chr (cs k)) && forallb ident_char (cs k) && (length (cs k) <=? 62)%nat &&
   bool_decide (check_keyword (cs k ++ [0]) = t)) = true -> ident_char (chr r) = false ->
  tok_type (next_token p) = t /\ rest (next_token p) = r.
Proof.
  intros E Hsp [[[H1 H2]%andb_true_iff H3%Nat.leb_le]%andb_true_iff H4%bool_decide_eq_true]%andb_true_iff Hr.
  destruct (token_word p sp (cs k) r) as (H5 & _ & H6); try done.
  - by rewrite H1.
  - by destruct (cs k).
  - apply Forall_forall. intros x Hx. apply (proj1 (forallb_forall _ _) H2). by apply list_elem_of_In.
  - unfold MAX_STR_LEN. lia.
  - by rewrite H5, H4, H6.
Qed.

Lemma lex_string v val r :
  Forall (fun c => string_char c = true) val -> (length val <= MAX_STR_LEN)%nat ->
  lex v (39 :: val ++ 39 :: r) = (TOK_STRING, val ++ [0], S (S (length val))).
Proof.
  intros Hv Hl. unfold lex. change (chr (39 :: val ++ 39 :: r)) with 39.
  change (next (39 :: val ++ 39 :: r)) with (val ++ 39 :: r).
  rewrite (take_ok_app string_char MAX_STR_LEN val (39 :: r)) by done.
  cbn [Z.eqb Pos.eqb andb Nat.add nth]. rewrite app_nth2, Nat.sub_diag by lia. cbn [nth Z.eqb Pos.eqb].
  do 2 f_equal. lia.
Qed.

Lemma lex_number v ds r :
  Forall (fun c => isdigit c = true) ds -> ds <> [] -> (length ds <= 20)%nat -> isdigit (chr r) = false ->
  lex v (ds ++ r) = (TOK_NUMBER, ds ++ [0], length ds).
Proof.
  intros Hd Hne Hl Hr. unfold lex. rewrite (take_ok_app isdigit 20 ds r) by done.
  destruct ds as [|c ds]; [done|]. cbn [app chr hd]. apply Forall_cons in Hd as [Hc _].
  assert (48 <= c <= 57) by (clear - Hc; unfold isdigit in Hc; lia).
  rewrite !(proj2 (Z.eqb_neq c _)) by lia. cbn [andb]. by rewrite Hc.
Qed.

(** ** Values *)

(** A value without blanks and quotes that fits; numbers have at most the 20
    digits a token holds. *)
Definition plain_value (val : list Z) : bool :=
  negb (length val =? 0)%nat && (length val <=? 254)%nat &&
  forallb (fun c => negb (c =? 0) && negb (isspace c) && negb (c =? 39)) val &&
  (negb (is_numeric val) || (length val <=? 20)%nat).

Inductive value_kind := Number | Text | Dropped.

(** How the query language will see the value: negative numbers and booleans,
    which the translator leaves unquoted, are not values of the language. *)
Definition kind_of (val : list Z) : value_kind :=
  if is_numeric val then if chr val =? 45 then Dropped else Number
  else if (strcasecmp val (cs "true") =? 0) || (strcasecmp val (cs "false") =? 0) then Dropped
  else Text.

Definition value_text (val : list Z) : list Z := call_text (append_value val).

Lemma plain_value_facts val : plain_value val = true ->
  val <> [] /\ (length val <= 254)%nat /\ Forall (fun c => c <> 0 /\ isspace c = false /\ c <> 39) val /\
  (is_numeric val = true -> (length val <= 20)%nat).
Proof.
  unfold plain_value. intros [[[H1 H2]%andb_true_iff H3]%andb_true_iff H4]%andb_true_iff.
  split; [by destruct val|]. split; [by apply Nat.leb_le|]. split.
  - apply Forall_forall. intros c Hc. apply list_elem_of_In in Hc. apply (proj1 (forallb_forall _ _) H3) in Hc.
    by destruct (Z.eqb_spec c 0), (isspace c), (Z.eqb_spec c 39).
  - intros E. rewrite E in H4. by apply Nat.leb_le in H4.
Qed.

Lemma value_text_kind val : plain_value val = true ->
  value_text val = match kind_of val with Text => [39] ++ val ++ [39] | _ => val end.
Proof.
  intros H. apply plain_value_facts in H as (_ & _ & Hv & _). unfold value_text, kind_of.
  rewrite append_value_text, cstr_idemp by (by apply (Forall_impl _ _ _ Hv); intros ? []).
  destruct (is_numeric val); cbn [orb]; [by destruct (chr val =? 45)|]. by destruct (_ || _).
Qed.

Lemma all_digits_Forall s : Forall (fun c => c <> 0) s -> all_digits s = true -> Forall (fun c => isdigit c = true) s.
Proof.
  induction 1 as [|c s Hc Hs IH]; intros E; [done|]. cbn in E. rewrite (proj2 (Z.eqb_neq _ _) Hc) in E.
  destruct (isdigit c) eqn:Ed; [|done]. constructor; auto.
Qed.

Lemma map_toupper_word s l : map toupper s = map toupper l ->
  Forall (fun c => isalpha (toupper c) = true) l -> Forall (fun c => isalpha c = true) s.
Proof.
  revert l.
  induction s as [|c s IH]; intros [|x l] E H; try done. apply Forall_cons in H as [Hx Hl].
  injection E as Ec Es. constructor; [|by eapply IH].
  rewrite <- Ec in Hx. clear - Hx. unfold isalpha, toupper in *.
  destruct ((97 <=? c) && (c <=? 122)) eqn:E; lia.
Qed.

(** An unquoted negative number or boolean is neither a string nor a number. *)
Lemma lex_dropped v val r : plain_value val = true -> kind_of val = Dropped -> ident_char (chr r) = false ->
  exists t v' n, lex v (val ++ r) = (t, v', n) /\ t <> TOK_STRING /\ t <> TOK_NUMBER.
Proof.
  intros Hp Hk Hr. pose proof (plain_value_facts val Hp) as (Hne & Hl & Hv & _).
  unfold kind_of in Hk. destruct (is_numeric val) eqn:En.
  - destruct (Z.eqb_spec (chr val) 45) as [E|]; [|done]. destruct val as [|c val]; [done|]. cbn in E. subst c.
    eexists _, _, _. split; [reflexivity|done].
  - destruct ((strcasecmp val (cs "true") =? 0) || (strcasecmp val (cs "false") =? 0)) eqn:Eb; [|done].
    assert (Forall (fun c => isalpha c = true) val) as Ha.
    { rewrite <- (cstr_idemp val) by (by apply (Forall_impl _ _ _ Hv); intros ? []).
      apply orb_true_iff in Eb as [E|E]; apply Z.eqb_eq, strcasecmp_0 in E;
        (eapply map_toupper_word; [exact E|by_compute]). }
    eexists _, _, _. split.
    + apply lex_word; [|..|done].
      * destruct val as [|c val]; [done|]. change (chr (c :: val)) with c.
        by apply Forall_cons in Ha as [-> _].
      * eapply Forall_impl; [exact Ha|]. intros c Hc. unfold ident_char, isalnum. by rewrite Hc, orb_true_r.
      * done.
      * unfold MAX_STR_LEN. lia.
    + split; apply keyword_in_not; by repeat constructor.
Qed.

(** ** The meaning of a condition *)

Section meaning.
Context (stack : nat -> nat -> list Z).

(** The condition the parser makes of [col = value]. *)
Definition value_conds (col val : list Z) : list where_cond :=
  let column := column_cells stack A_COND_COLUMN 0 (col ++ [0]) in
  match kind_of val with
  | Text => [Cond column CMP_EQ (FStr (strncpy (stack A_COND_STR 0%nat) (val ++ [0]) MAX_STR_LEN)
                                   (u16 (Z.of_nat (strlen (val ++ [0])))))]
  | Number => [Cond column CMP_EQ (FU64 (fst (strtou64 (val ++ [0]) 10)))]
  | Dropped => []
  end.

Lemma token_end p r : rest p = r -> chr r = 0 -> tok_type (next_token p) = TOK_EOF.
Proof.
  intros E Hr. destruct (token p [] r TOK_EOF (tok_value p) 0) as [H _].
  - done.
  - by left.
  - by left.
  - unfold lex. by rewrite Hr.
  - by rewrite H.
Qed.

Lemma where_loop_one n p col val :
  tok_type p = TOK_IDENT -> tok_value p = col ++ [0] -> rest p = cs " = " ++ value_text val ->
  plain_value val = true -> snd (where_loop stack (S n) 0 p) = value_conds col val.
Proof.
  intros Ht Hv Hr Hp. pose proof (plain_value_facts val Hp) as (Hne & Hl & Hok & Hnum).
  cbn [where_loop]. unfold is_tok at 1. rewrite Ht, bool_decide_true by done. cbn [negb].
  destruct (token p [32] ([61; 32] ++ value_text val) TOK_EQ (tok_value p) 1) as [E1 R1];
    [rewrite Hr; by lit|by right|by right|done|].
  unfold parse_op. rewrite E1 at 1. cbn [tok_type]. set (p1 := next_token p) in *.
  change (drop 1 ([61; 32] ++ value_text val)) with ([32] ++ value_text val) in R1.
  rewrite Hv. unfold value_conds. rewrite value_text_kind in R1 by done. destruct (kind_of val) eqn:Ek.
  - assert (Forall (fun c => isdigit c = true) val) as Hd.
    { unfold kind_of in Ek. destruct (is_numeric val) eqn:En; [|by destruct (_ || _)].
      destruct (chr val =? 45) eqn:E45; [done|]. unfold is_numeric in En. rewrite E45 in En.
      destruct (chr val =? 0); [done|]. apply all_digits_Forall; [|done]. by apply (Forall_impl _ _ _ Hok); intros ? []. }
    assert (length val <= 20)%nat as Hlen.
    { apply Hnum. unfold kind_of in Ek. by destruct (is_numeric val); [|destruct (_ || _)]. }
    destruct (token p1 [32] (val ++ []) TOK_NUMBER (val ++ [0]) (length val)) as [E2 R2].
    + by rewrite app_nil_r.
    + by right.
    + right. destruct val as [|c val']; [done|]. apply Forall_cons in Hok as [(_ & ? & _) _]. done.
    + by apply lex_number.
    + apply (f_equal tok_type) in E2 as T2. apply (f_equal tok_value) in E2 as V2. cbn [tok_type tok_value] in T2, V2.
      unfold parse_value. rewrite T2, V2.
      unfold is_tok. rewrite (token_end (next_token p1) []) by (rewrite ?R2, ?app_nil_r, ?drop_all; done).
      done.
  - assert (Forall (fun c => string_char c = true) val) as Hs.
    { apply (Forall_impl _ _ _ Hok). intros c (H0 & _ & H39). unfold string_char. lia. }
    destruct (token p1 [32] (39 :: val ++ 39 :: []) TOK_STRING (val ++ [0]) (S (S (length val)))) as [E2 R2].
    + done.
    + by right.
    + by right.
    + apply lex_string; [done|]. unfold MAX_STR_LEN. lia.
    + apply (f_equal tok_type) in E2 as T2. apply (f_equal tok_value) in E2 as V2. cbn [tok_type tok_value] in T2, V2.
      unfold parse_value. rewrite T2, V2.
      unfold is_tok. rewrite (token_end (next_token p1) []); [done| |done].
      rewrite R2. cbn [drop]. by rewrite drop_ge by (rewrite length_app; cbn; lia).
  - destruct (lex_dropped (tok_value p1) val [] Hp Ek eq_refl) as (t & v' & k & El & H1 & H2).
    destruct (token p1 [32] (val ++ []) t v' k) as [E2 _].
    + by rewrite app_nil_r.
    + by right.
    + right. destruct val as [|c val']; [done|]. apply Forall_cons in Hok as [(_ & ? & _) _]. done.
    + done.
    + unfold parse_value. rewrite E2. cbn [tok_type]. by destruct t.
Qed.

Lemma parse_where_one p col val :
  tok_type p = TOK_WHERE -> rest p = [32] ++ col ++ cs " = " ++ value_text val ->
  is_name col = true -> plain_value val = true -> snd (parse_where stack p) = value_conds col val.
Proof.
  intros Ht Hr Hc Hp. unfold parse_where, is_tok. rewrite Ht, bool_decide_true by done. cbn [negb].
  destruct (token_name p [32] col (cs " = " ++ value_text val) Hc Hr) as (H1 & H2 & H3); [by right|by lit|].
  change MAX_WHERE_CONDS with (S 7). by apply where_loop_one.
Qed.
End meaning.

(** ** The translator on a command with one pair *)

Lemma copy_while_app ok room w r :
  Forall (fun c => c <> 0 /\ ok c = true) w -> (length w <= room)%nat -> chr r = 0 \/ ok (chr r) = false ->
  copy_while ok room (w ++ r) = (w, r).
Proof.
  intros Hw. revert room. induction Hw as [|c w [H0 Hc] Hw IH]; intros room Hl Hr; cbn [app].
  - destruct room, r as [|c r]; try done. cbn [copy_while]. change (chr (c :: r)) with c in Hr.
    destruct Hr as [-> | ->]; [done|]. by rewrite andb_false_r.
  - destruct room as [|room]; [cbn in Hl; lia|]. cbn [copy_while].
    rewrite (proj2 (Z.eqb_neq _ _) H0), Hc. cbn [negb andb]. rewrite IH; [done|cbn in Hl; lia|done].
Qed.

Lemma skip_blanks_none s : chr s = 0 \/ isspace (chr s) = false -> skip_blanks s = s.
Proof.
  destruct s as [|c s]; [done|]. change (chr (c :: s)) with c. cbn [skip_blanks]. intros [->|H]; [done|].
  by rewrite H, andb_false_r.
Qed.

(** Words without blanks. *)
Definition solid (w : list Z) : Prop := w <> [] /\ Forall (fun c => c <> 0 /\ isspace c = false) w.

Lemma solid_head w r : solid w -> chr (w ++ r) <> 0 /\ isspace (chr (w ++ r)) = false.
Proof. intros [Hne Hw]. destruct w as [|c w]; [done|]. by apply Forall_cons in Hw as [? _]. Qed.

Lemma word_token_app sp w r n :
  sp = [] \/ sp = [32] -> solid w -> (length w < n)%nat -> chr r = 0 \/ isspace (chr r) = true ->
  word_token (sp ++ w ++ r) n = (w, r).
Proof.
  intros Hsp Hw Hl Hr. unfold word_token.
  assert (skip_blanks (sp ++ w ++ r) = w ++ r) as ->.
  { assert (skip_blanks (w ++ r) = w ++ r) by (apply skip_blanks_none; right; by apply solid_head).
    by destruct Hsp as [-> | ->]. }
  apply copy_while_app; [|lia|].
  - apply (Forall_impl _ _ _ (proj2 Hw)). intros c [H0 Hc]. by rewrite Hc.
  - destruct Hr as [Hr|Hr]; [by left|right]. by rewrite Hr.
Qed.

Lemma name_solid w : is_name w = true -> solid w.
Proof.
  intros H. destruct (is_name_facts w H) as (c & r & -> & _ & Hw & _). split; [done|].
  apply (Forall_impl _ _ _ Hw). intros x Hx. by destruct (ident_char_facts x Hx) as (? & ? & _).
Qed.

Lemma value_solid val : plain_value val = true -> solid val.
Proof.
  intros H. destruct (plain_value_facts val H) as (Hne & _ & Hv & _). split; [done|].
  apply (Forall_impl _ _ _ Hv). by intros c (? & ? & _).
Qed.

Lemma parse_pair_app col val :
  is_name col = true -> plain_value val = true ->
  parse_pair (col ++ [61] ++ val) MAX_COLUMN_NAME MAX_STR_LEN = Some (col, val, []).
Proof.
  intros Hc Hv. unfold parse_pair.
  destruct (solid_head col ([61] ++ val) (name_solid col Hc)) as [H0 Hs].
  rewrite skip_blanks_none by (by right). rewrite (proj2 (Z.eqb_neq _ _) H0).
  destruct (is_name_facts col Hc) as (c & r & Ec & _ & Hi & Hl & _).
  rewrite copy_while_app; [|apply (Forall_impl _ _ _ Hi)|unfold MAX_COLUMN_NAME; lia|by right].
  2:{ intros x Hx. destruct (ident_char_facts x Hx) as (Hx0 & Hxs & Hx61 & _).
      rewrite Hxs, (proj2 (Z.eqb_neq _ _) Hx61). done. }
  destruct (length col =? 0)%nat eqn:E; [by subst col|]. cbn [app chr hd orb next tl Z.eqb Pos.eqb negb].
  destruct (plain_value_facts val Hv) as (Hne & Hl2 & Hok & _).
  assert (chr val =? 39 = false) as ->.
  { destruct val as [|x val]; [done|]. apply Forall_cons in Hok as [(_ & _ & H39) _].
    by apply Z.eqb_neq in H39. }
  assert (copy_while (fun c => negb (isspace c)) (MAX_STR_LEN - 1) val = (val, [])) as ->; [|done].
  rewrite <- (app_nil_r val) at 1. apply copy_while_app; [|unfold MAX_STR_LEN; lia|by left].
  apply (Forall_impl _ _ _ Hok). intros x (? & Hx & _). by rewrite Hx.
Qed.

Lemma parse_pairs_one n col val :
  is_name col = true -> plain_value val = true -> (1 < n)%nat ->
  parse_pairs n (col ++ [61] ++ val) = ([(col, val)], []).
Proof.
  intros Hc Hv Hn. destruct n as [|[|n]]; [lia|lia|]. cbn [parse_pairs].
  destruct (solid_head col ([61] ++ val) (name_solid col Hc)) as [H0 _].
  rewrite (proj2 (Z.eqb_neq _ _) H0), parse_pair_app by done. done.
Qed.

Lemma resolve_name table : is_name table = true -> is_name (friendly_resolve_alias table) = true.
Proof.
  intros H. unfold friendly_resolve_alias, aliases. cbn [resolve_in].
  repeat match goal with |- context [if ?b then cs _ else _] => destruct b; [vm_compute; reflexivity|] end. done.
Qed.

Lemma name_cstr w : is_name w = true -> cstr w = w.
Proof. intros H. apply cstr_idemp. apply (Forall_impl _ _ _ (proj2 (name_solid w H))). by intros ? []. Qed.

(** The two verbs with conditions. *)
Lemma calls_find r :
  friendly_calls (cs "find" ++ 32 :: r) =
    match table_arg (32 :: r) with
    | None => None
    | Some (table, rest) =>
        let rest := skip_blanks rest in
        if chr rest =? 0 then Some [str "SELECT * FROM %s" [friendly_resolve_alias table]]
        else Some (str "SELECT * FROM %s WHERE " [friendly_resolve_alias table] ::
                   cond_calls true (fst (parse_pairs (length rest) rest)))
    end.
Proof.
  unfold friendly_calls, find_calls, del_calls.
  assert (word_token (cs "find" ++ 32 :: r) 32 = (cs "find", 32 :: r)) as ->.
  { apply (word_token_app [] (cs "find")); [by left|split; [done|by_compute]|by apply Nat.ltb_lt|by right]. }
  change (chr (cs "find") =? 0) with false. cbv iota.
  change (is_verb (cs "find") "tables") with false. change (is_verb (cs "find") "show") with false.
  change (is_verb (cs "find") "info") with false. change (is_verb (cs "find") "count") with false.
  change (is_verb (cs "find") "find") with true. cbv iota. done.
Qed.

Lemma calls_del r :
  friendly_calls (cs "del" ++ 32 :: r) =
    match table_arg (32 :: r) with
    | None => None
    | Some (table, rest) =>
        let rest := skip_blanks rest in
        if chr rest =? 0 then None
        else Some (str "DELETE FROM %s WHERE " [friendly_resolve_alias table] ::
                   cond_calls true (fst (parse_pairs (length rest) rest)))
    end.
Proof.
  unfold friendly_calls, find_calls, del_calls.
  assert (word_token (cs "del" ++ 32 :: r) 32 = (cs "del", 32 :: r)) as ->.
  { apply (word_token_app [] (cs "del")); [by left|split; [done|by_compute]|by apply Nat.ltb_lt|by right]. }
  change (chr (cs "del") =? 0) with false. cbv iota.
  change (is_verb (cs "del") "tables") with false. change (is_verb (cs "del") "show") with false.
  change (is_verb (cs "del") "info") with false. change (is_verb (cs "del") "count") with false.
  change (is_verb (cs "del") "find") with false. change (is_verb (cs "del") "add") with false.
  change (is_verb (cs "del") "del") with true. cbv iota. done.
Qed.

Lemma table_arg_name table r :
  is_name table = true -> chr r = 0 \/ isspace (chr r) = true -> table_arg (32 :: table ++ r) = Some (table, r).
Proof.
  intros Ht Hr. unfold table_arg. destruct (is_name_facts table Ht) as (_ & _ & _ & _ & _ & Hl & _).
  change (32 :: table ++ r) with ([32] ++ table ++ r).
  rewrite (word_token_app [32]); [|by right|by apply name_solid|unfold MAX_TABLE_NAME; lia|done].
  destruct (solid_head table [] (name_solid table Ht)) as [H0 _]. rewrite app_nil_r in H0.
  by rewrite (proj2 (Z.eqb_neq _ _) H0).
Qed.

(** The text of [<verb> <table> <col>=<val>] for the two verbs with conditions. *)
Definition pair_command (verb : string) (table col val : list Z) : list Z :=
  cs verb ++ [32] ++ table ++ [32] ++ col ++ [61] ++ val.

Lemma pair_command_calls verb fmt table col val :
  (verb, fmt) ∈ [("find", "SELECT * FROM %s WHERE "); ("del", "DELETE FROM %s WHERE ")]%string ->
  is_name table = true -> is_name col = true -> plain_value val = true ->
  friendly_calls (pair_command verb table col val) =
    Some [str fmt [friendly_resolve_alias table]; str "%s = " [col]; append_value val].
Proof.
  intros Hv Ht Hc Hp. unfold pair_command.
  destruct (solid_head col ([61] ++ val) (name_solid col Hc)) as [H0 Hs].
  assert (skip_blanks (32 :: col ++ [61] ++ val) = col ++ [61] ++ val) as Eb.
  { change (skip_blanks (32 :: col ++ [61] ++ val)) with (skip_blanks (col ++ [61] ++ val)).
    apply skip_blanks_none. by right. }
  assert (parse_pairs (length (col ++ [61] ++ val)) (col ++ [61] ++ val) = ([(col, val)], [])) as Epairs.
  { apply parse_pairs_one; [done|done|]. rewrite !length_app. cbn [length].
    destruct (value_solid val Hp) as [Hne _], (name_solid col Hc) as [Hne2 _]. destruct val, col; cbn; try done; lia. }
  cbn [app] in Eb, H0, Epairs |- *.
  apply list_elem_of_In in Hv as [[= <- <-]|[[= <- <-]|[]]]; [rewrite calls_find|rewrite calls_del];
    rewrite table_arg_name by (done || by right); cbv zeta; rewrite Eb, (proj2 (Z.eqb_neq _ _) H0), Epairs; done.
Qed.

Lemma digits_terminated base val t acc :
  fst (strtou64_digits base (val ++ 0 :: t) acc) = fst (strtou64_digits base val acc).
Proof.
  revert acc. induction val as [|c val IH]; intros acc; [done|]. cbn [app strtou64_digits].
  destruct (digit_value c); [|done]. by destruct (base <=? _).
Qed.

Lemma strtou64_terminated val t : solid val -> fst (strtou64 (val ++ 0 :: t) 10) = fst (strtou64 val 10).
Proof.
  intros Hs. unfold strtou64. cbn [Z.eqb Pos.eqb andb].
  assert (forall r, skip_spaces (val ++ r) = val ++ r) as Hskip.
  { intros r. destruct (solid_head val r Hs) as [_ H]. destruct (val ++ r) as [|c s]; [done|].
    cbn [skip_spaces]. change (chr (c :: s)) with c in H. by rewrite H. }
  rewrite Hskip, digits_terminated. pose proof (Hskip []) as H0. rewrite app_nil_r in H0. by rewrite H0.
Qed.

(** Which rows the condition [col=val] of a command selects. *)
Definition row_selected (rec : record) (sch : table_schema) (col val : list Z) : bool :=
  match kind_of val, find_column_index sch col with
  | Dropped, _ => true
  | _, None => false
  | Text, Some i =>
      match field rec i with
      | FStr data _ => bool_decide (cstr data = val)
      | FU64 x => x =? fst (strtou64 val 10)
      | _ => false
      end
  | Number, Some i => match field rec i with FU64 x => x =? fst (strtou64 val 10) | _ => false end
  end.

Lemma find_col_cstr cols a b i : cstr a = cstr b -> find_col cols a i = find_col cols b i.
Proof.
  intros E. revert i. induction cols as [|c cols IH]; intros i; cbn [find_col]; [done|]. rewrite IH.
  assert (strcasecmp (col_name c) a =? 0 = (strcasecmp (col_name c) b =? 0)) as ->; [|done].
  apply eq_true_iff_eq. rewrite !Z.eqb_eq, !strcasecmp_0. by rewrite E.
Qed.

Lemma strncpy_short dst w n :
  Forall (fun c => c <> 0) w -> (length w < n)%nat -> exists t, strncpy dst (w ++ [0]) n = w ++ 0 :: t.
Proof.
  intros Hw Hl. rewrite strncpy_spec, strlen_app by done. cbn [strlen Z.eqb].
  rewrite (proj2 (Nat.ltb_lt _ _)) by lia. rewrite cstr_app_0 by done. unfold blit. cbn [take].
  replace (n + 1 - (length w + 0))%nat with (S (n - length w)) by lia. cbn [replicate app].
  rewrite <- app_assoc. eauto.
Qed.

Lemma value_conds_meaning stack col val sch rec :
  is_name col = true -> plain_value val = true ->
  record_matches rec sch (value_conds stack col val) = row_selected rec sch col val.
Proof.
  intros Hc Hv. destruct (is_name_facts col Hc) as (_ & _ & _ & _ & _ & Hl & _).
  destruct (plain_value_facts val Hv) as (_ & Hl2 & _ & _).
  assert (Forall (fun c => c <> 0) col) as Hz by (by apply (Forall_impl _ _ _ (proj2 (name_solid col Hc))); intros ? []).
  assert (Forall (fun c => c <> 0) val) as Hz2 by (by apply (Forall_impl _ _ _ (proj2 (value_solid val Hv))); intros ? []).
  destruct (strncpy_short (stack A_COND_COLUMN 0%nat) col (MAX_COLUMN_NAME - 1) Hz) as [t1 E1];
    [unfold MAX_COLUMN_NAME; lia|].
  assert (find_column_index sch (column_cells stack A_COND_COLUMN 0 (col ++ [0])) = find_column_index sch col) as Hf.
  { unfold find_column_index, column_cells. apply find_col_cstr. rewrite E1, cstr_app_0 by done. by rewrite cstr_idemp. }
  unfold value_conds, row_selected. destruct (kind_of val); [| |done];
    cbn [record_matches cond_column cond_op cond_value]; rewrite Hf; (destruct (find_column_index sch col) as [i|]; [|done]).
  - rewrite strtou64_terminated by (by apply value_solid).
    destruct (field rec i); cbn [match_field compare_with negb]; try done. by destruct (_ =? _).
  - destruct (strncpy_short (stack A_COND_STR 0%nat) val MAX_STR_LEN Hz2) as [t2 E2]; [unfold MAX_STR_LEN; lia|].
    rewrite E2. destruct (field rec i) as [x|x|data n|data n|x|x|x]; cbn [match_field compare_with negb]; try done.
    all: try (rewrite strtou64_terminated by (by apply value_solid); by destruct (_ =? _)).
    assert (strcmp data (val ++ 0 :: t2) =? 0 = bool_decide (cstr data = val)) as ->; [|by case_bool_decide].
    apply eq_true_iff_eq. rewrite Z.eqb_eq, strcmp_0, cstr_app_0, bool_decide_eq_true by done. done.
Qed.

(** ** Claims *)

Section queries.
Context (stack : nat -> nat -> list Z).

#[local] Abbreviation delete_query := (delete_query stack).

Lemma is_tok_eq p t u : tok_type p = t -> is_tok p u = bool_decide (t = u).
Proof. unfold is_tok. by intros ->. Qed.

(** From the table's name on, both statements parse alike. *)
Lemma parse_from p name w :
  is_name name = true -> tok_type p = TOK_FROM -> rest p = [32] ++ name ++ cs " WHERE" ++ w -> ident_char (chr w) = false ->
  exists p', expect p TOK_FROM = Some p' /\ is_tok p' TOK_IDENT = true /\ tok_value p' = name ++ [0] /\
    tok_type (next_token p') = TOK_WHERE /\ rest (next_token p') = w.
Proof.
  intros Hn Ht Hr Hw. unfold expect. rewrite (is_tok_eq p _ _ Ht), bool_decide_true by done. cbn [negb].
  exists (next_token p). split; [done|].
  destruct (token_name p [32] name (cs " WHERE" ++ w) Hn Hr) as (H1 & H2 & H3); [by right|by lit|].
  rewrite (is_tok_eq _ _ _ H1), bool_decide_true by done. split; [done|]. split; [done|].
  apply (token_keyword (next_token p) [32] "WHERE" w TOK_WHERE); [by rewrite H3|by right|by vm_compute|done].
Qed.

Lemma start_rest text t v : rest (Parser text 0 t v) = text.
Proof. done. Qed.

Lemma select_where name w : is_name name = true -> ident_char (chr w) = false ->
  exists p, tok_type p = TOK_WHERE /\ rest p = w /\
    select_query stack (cs "SELECT * FROM " ++ name ++ cs " WHERE" ++ w) = Some (name ++ [0], snd (parse_where stack p)).
Proof.
  intros Hn Hw. unfold select_query. set (p0 := Parser _ _ _ _).
  destruct (token_keyword p0 [] "SELECT" (cs " * FROM " ++ name ++ cs " WHERE" ++ w) TOK_SELECT) as [T1 R1];
    [done|by left|by vm_compute|done|].
  rewrite (is_tok_eq _ _ _ T1), bool_decide_true by done. cbn [negb].
  destruct (token (next_token p0) [32] ([42] ++ cs " FROM " ++ name ++ cs " WHERE" ++ w) TOK_STAR [42; 0] 1)
    as [E2 R2]; [by rewrite R1|by right|by right|done|].
  apply (f_equal tok_type) in E2. cbn [tok_type] in E2.
  rewrite (is_tok_eq _ _ _ E2), bool_decide_true by done.
  destruct (token_keyword (next_token (next_token p0)) [32] "FROM" ([32] ++ name ++ cs " WHERE" ++ w) TOK_FROM)
    as [T3 R3]; [by rewrite R2|by right|by vm_compute|done|].
  destruct (parse_from _ name w Hn T3 R3 Hw) as (p' & -> & -> & -> & T4 & R4).
  exists (next_token p'). split; [exact T4|]. split; [exact R4|reflexivity].
Qed.

Lemma delete_where name w : is_name name = true -> ident_char (chr w) = false ->
  exists p, tok_type p = TOK_WHERE /\ rest p = w /\
    delete_query (cs "DELETE FROM " ++ name ++ cs " WHERE" ++ w) = Some (name ++ [0], snd (parse_where stack p)).
Proof.
  intros Hn Hw. unfold delete_query. set (p0 := Parser _ _ _ _).
  destruct (token_keyword p0 [] "DELETE" (cs " FROM " ++ name ++ cs " WHERE" ++ w) TOK_DELETE) as [T1 R1];
    [done|by left|by vm_compute|done|].
  rewrite (is_tok_eq _ _ _ T1), bool_decide_true by done. cbn [negb].
  destruct (token_keyword (next_token p0) [32] "FROM" ([32] ++ name ++ cs " WHERE" ++ w) TOK_FROM)
    as [T3 R3]; [by rewrite R1|by right|by vm_compute|done|].
  destruct (parse_from _ name w Hn T3 R3 Hw) as (p' & -> & -> & -> & T4 & R4).
  exists (next_token p'). split; [exact T4|]. split; [exact R4|reflexivity].
Qed.

Lemma pair_command_text fmt pre name col val :
  (fmt, pre) ∈ [("SELECT * FROM %s WHERE ", "SELECT * FROM "); ("DELETE FROM %s WHERE ", "DELETE FROM ")]%string ->
  is_name name = true -> is_name col = true ->
  command_text [str fmt [name]; str "%s = " [col]; append_value val] =
    cs pre ++ name ++ cs " WHERE" ++ [32] ++ col ++ cs " = " ++ value_text val.
Proof.
  intros Hf Hn Hc. unfold command_text. cbn [map concat]. rewrite app_nil_r. fold (value_text val).
  rewrite (str_text "%s = " [col]) by done.
  assert (call_text (str fmt [name]) = cs pre ++ name ++ cs " WHERE" ++ [32]) as ->.
  { apply list_elem_of_In in Hf as [[= <- <-]|[[= <- <-]|[]]]; rewrite str_text by done; lit; cbn [fill Z.eqb Pos.eqb app];
      by rewrite (name_cstr name). }
  assert (fill (cs "%s = ") [col] = col ++ cs " = ") as -> by (lit; cbn [fill Z.eqb Pos.eqb app]; by rewrite (name_cstr col)).
  by rewrite <- !app_assoc.
Qed.

(** C39: what [find <table> <col>=<val>] and [del <table> <col>=<val>] mean.
    For names that are identifiers and a value without blanks or quotes, both
    commands become a query on the table the name or its alias denotes, whose
    parser reads back one and the same condition.  A row satisfies it exactly
    when its column holds the value: as a string, or as a number when the
    value is written with digits only.  But a boolean or negative value,
    which the translator leaves unquoted, is not read as a value: the
    condition is dropped, every row satisfies it, and [del] deletes the whole
    table. *)
Theorem pair_command_meaning (table col val : list Z) (sch : table_schema) (rec : record) :
  is_name table = true -> is_name col = true -> plain_value val = true ->
  exists fcalls dcalls conds,
    friendly_calls (pair_command "find" table col val) = Some fcalls /\
    select_query stack (command_text fcalls) = Some (friendly_resolve_alias table ++ [0], conds) /\
    friendly_calls (pair_command "del" table col val) = Some dcalls /\
    delete_query (command_text dcalls) = Some (friendly_resolve_alias table ++ [0], conds) /\
    record_matches rec sch conds = row_selected rec sch col val.
Proof.
  intros Ht Hc Hv. set (name := friendly_resolve_alias table).
  assert (is_name name = true) as Hn by (by apply resolve_name).
  set (w := [32] ++ col ++ cs " = " ++ value_text val).
  destruct (select_where name w Hn eq_refl) as (p & Tp & Rp & Es).
  destruct (delete_where name w Hn eq_refl) as (p2 & Tp2 & Rp2 & Ed).
  rewrite (parse_where_one stack p col val Tp Rp Hc Hv) in Es.
  rewrite (parse_where_one stack p2 col val Tp2 Rp2 Hc Hv) in Ed.
  eexists _, _, (value_conds stack col val).
  split; [apply (pair_command_calls "find" "SELECT * FROM %s WHERE "); [by left|done..]|].
  split; [rewrite (pair_command_text _ "SELECT * FROM "); [exact Es|by left|done..]|].
  split; [apply (pair_command_calls "del" "DELETE FROM %s WHERE "); [by right; left|done..]|].
  split; [rewrite (pair_command_text _ "DELETE FROM "); [exact Ed|by right; left|done..]|].
  by apply value_conds_meaning.
Qed.

Lemma del_word_calls table w : is_name table = true -> is_name w = true ->
  friendly_calls (cs "del " ++ table ++ [32] ++ w) = Some [str "DELETE FROM %s WHERE " [friendly_resolve_alias table]].
Proof.
  intros Ht Hw. change (cs "del " ++ table ++ [32] ++ w) with (cs "del" ++ 32 :: table ++ 32 :: w).
  rewrite calls_del, table_arg_name by (done || by right). cbv zeta.
  destruct (solid_head w [] (name_solid w Hw)) as [H1 H2]. rewrite app_nil_r in H1, H2.
  change (skip_blanks (32 :: w)) with (skip_blanks w). rewrite skip_blanks_none by (by right).
  rewrite (proj2 (Z.eqb_neq _ _) H1).
  destruct (length w) as [|n] eqn:El; [by destruct w|]. cbn [parse_pairs].
  rewrite (proj2 (Z.eqb_neq _ _) H1). unfold parse_pair. rewrite skip_blanks_none by (by right).
  rewrite (proj2 (Z.eqb_neq _ _) H1). destruct (is_name_facts w Hw) as (_ & _ & _ & _ & Hi & Hl & _).
  assert (copy_while (fun c => negb (c =? 61) && negb (isspace c)) (MAX_COLUMN_NAME - 1) w = (w, [])) as ->.
  { rewrite <- (app_nil_r w) at 1. apply copy_while_app; [|unfold MAX_COLUMN_NAME; lia|by left].
    apply (Forall_impl _ _ _ Hi). intros x Hx. destruct (ident_char_facts x Hx) as (? & Hs & H61 & _).
    rewrite Hs, (proj2 (Z.eqb_neq _ _) H61). done. }
  cbn [chr hd Z.eqb negb]. rewrite orb_true_r. done.
Qed.

(** [del <table> <word>] deletes everything.  The comment in the source
    asks for at least one condition, and the command is refused when nothing
    follows the table; but a word that is no [col=val] pair passes, the query
    ends after WHERE, and its parser reads no condition: every row matches. *)
Theorem del_word_deletes_all (table w : list Z) (sch : table_schema) (rec : record) :
  is_name table = true -> is_name w = true ->
  exists calls conds,
    friendly_calls (cs "del " ++ table ++ [32] ++ w) = Some calls /\
    delete_query (command_text calls) = Some (friendly_resolve_alias table ++ [0], conds) /\
    record_matches rec sch conds = true /\
    friendly_calls (cs "del " ++ table) = None.
Proof.
  intros Ht Hw. set (name := friendly_resolve_alias table).
  assert (is_name name = true) as Hn by (by apply resolve_name).
  destruct (delete_where name [32] Hn eq_refl) as (p & Tp & Rp & Ed).
  assert (snd (parse_where stack p) = []) as Ew.
  { unfold parse_where. rewrite (is_tok_eq _ _ _ Tp), bool_decide_true by done. cbn [negb].
    destruct (token p [32] [] TOK_EOF (tok_value p) 0) as [E _]; [done|by right|by left|done|].
    apply (f_equal tok_type) in E. cbn [tok_type] in E. cbn [where_loop].
    unfold MAX_WHERE_CONDS. cbn [where_loop]. by rewrite (is_tok_eq _ _ _ E), bool_decide_false. }
  rewrite Ew in Ed. eexists _, []. split; [by apply del_word_calls|]. split; [|split; [done|]].
  - unfold command_text. cbn [map concat]. rewrite app_nil_r, str_text by done. lit. cbn [fill Z.eqb Pos.eqb app].
    fold name. rewrite (name_cstr name) by done. revert Ed. by lit.
  - change (cs "del " ++ table) with (cs "del" ++ 32 :: table). rewrite calls_del.
    assert (table_arg (32 :: table) = Some (table, [])) as ->; [|reflexivity].
    rewrite <- (app_nil_r table) at 1. apply table_arg_name; [exact Ht|left; reflexivity].
Qed.
End queries.

Definition zero_stack : nat -> nat -> list Z := fun _ _ => replicate 256 0.

Lemma pair_command_meaning_witness :
  exists fcalls dcalls conds,
    friendly_calls (cs "find procs state=ready") = Some fcalls /\
    select_query zero_stack (command_text fcalls) = Some (cs "ProcessTable" ++ [0], conds) /\
    friendly_calls (cs "del procs state=ready") = Some dcalls /\
    delete_query zero_stack (command_text dcalls) = Some (cs "ProcessTable" ++ [0], conds) /\
    record_matches zero_record show_schema conds = row_selected zero_record show_schema (cs "state") (cs "ready").
Proof.
  apply (pair_command_meaning zero_stack (cs "procs") (cs "state") (cs "ready") show_schema zero_record);
    vm_compute; reflexivity.
Defined.

Lemma del_word_deletes_all_witness :
  exists calls conds,
    friendly_calls (cs "del objects everything") = Some calls /\
    delete_query zero_stack (command_text calls) = Some (cs "ObjectTable" ++ [0], conds) /\
    record_matches zero_record show_schema conds = true /\
    friendly_calls (cs "del objects") = None.
Proof.
  apply (del_word_deletes_all zero_stack (cs "objects") (cs "everything") show_schema zero_record);
    vm_compute; reflexivity.
Defined.
