(* ===== verification/Stored.v ===== *)
(** * Texts stored in the object table

    Scripts (src/shell/script.c) and documents (src/gui/desktop.c) keep a text
    as one row of ObjectTable per line, written and read through the query
    language: a DELETE of the old rows, an INSERT per line, a SELECT.  This
    file parses these statements for arbitrary names and lines, and composes
    the theorems on the statements into one on the whole text. *)

From Stdlib Require Import String Sorting.Sorted.
From stdpp Require Import gmap sets sorting.
From S2P Require Import Prelude CLib Errors Random Sha256 Hmac Aes Record Btree BtreeSpec Cap Database DatabaseSpec Printf Query QuerySpec QueryWrites Client Friendly FriendlySpec.

(** ** The statements *)

Definition stored_where (name kind : list Z) : list Z := cs " name = '" ++ name ++ cs "' AND type = '" ++ kind ++ [39].
Definition delete_text (name kind : list Z) : list Z := cs "DELETE FROM " ++ cs "ObjectTable" ++ cs " WHERE" ++ stored_where name kind.
Definition select_text (name kind : list Z) : list Z := cs "SELECT * FROM " ++ cs "ObjectTable" ++ cs " WHERE" ++ stored_where name kind.
Definition insert_text (name kind line : list Z) : list Z :=
  cs "INSERT INTO ObjectTable (name, type, data) VALUES ('" ++ name ++ cs "', '" ++ kind ++ cs "', '" ++ line ++ cs "')".

(** A text that a string literal holds. *)
Definition literal (s : list Z) : Prop := Forall (fun c => string_char c = true) s /\ (length s < MAX_STR_LEN)%nat.

Definition object_table : list Z := cs "ObjectTable" ++ [0].

(** ** Tokens *)

Lemma token_string p sp val r :
  rest p = sp ++ 39 :: val ++ 39 :: r -> sp = [] \/ sp = [32] -> literal val ->
  tok_type (next_token p) = TOK_STRING /\ tok_value (next_token p) = val ++ [0] /\ rest (next_token p) = r.
Proof.
  intros E Hsp [Hv Hl]. destruct (token p sp (39 :: val ++ 39 :: r) TOK_STRING (val ++ [0]) (S (S (length val)))) as [E1 R1];
    [done|done|by right|apply lex_string; [done|lia]|].
  rewrite R1, E1. split; [done|]. split; [done|]. cbn [drop]. change (S (length val)) with (1 + length val)%nat.
  rewrite Nat.add_comm, <- drop_drop, drop_app_length. done.
Qed.

Definition puncts : list (Z * token_type) := [(44, TOK_COMMA); (40, TOK_LPAREN); (41, TOK_RPAREN); (61, TOK_EQ)].

Lemma token_punct p sp c r t :
  rest p = sp ++ c :: r -> sp = [] \/ sp = [32] -> (c, t) ∈ puncts ->
  tok_type (next_token p) = t /\ rest (next_token p) = r.
Proof.
  intros E Hsp Hc.
  assert (exists v, lex (tok_value p) (c :: r) = (t, v, 1%nat) /\ isspace (chr (c :: r)) = false) as (v & Hl & Hs).
  { apply list_elem_of_In in Hc. cbn [puncts In] in Hc. exists (tok_value p). by destruct Hc as [[= <- <-]|[[= <- <-]|[[= <- <-]|[[= <- <-]|[]]]]]. }
  destruct (token p sp (c :: r) t v 1) as [E1 R1]; [done|done|by right|done|]. by rewrite R1, E1.
Qed.

Section parsing.
Context (stack : nat -> nat -> list Z).

(** ** WHERE *)

Definition str_cond (i : nat) (col val : list Z) : where_cond :=
  Cond (column_cells stack A_COND_COLUMN i (col ++ [0])) CMP_EQ
    (FStr (strncpy (stack A_COND_STR i) (val ++ [0]) MAX_STR_LEN) (u16 (Z.of_nat (strlen (val ++ [0]))))).

Lemma where_step room i p col val r :
  tok_type p = TOK_IDENT -> tok_value p = col ++ [0] -> rest p = cs " = '" ++ val ++ 39 :: r -> literal val ->
  exists p1, rest p1 = r /\ where_loop stack (S room) i p =
    if is_tok (next_token p1) TOK_AND
    then let '(p', conds) := where_loop stack room (S i) (next_token (next_token p1)) in (p', str_cond i col val :: conds)
    else (next_token p1, [str_cond i col val]).
Proof.
  intros Ht Hv Hr Hl. cbn [where_loop]. rewrite (is_tok_eq p _ _ Ht), bool_decide_true by done. cbn [negb].
  destruct (token_punct p [32] 61 ([32] ++ 39 :: val ++ 39 :: r) TOK_EQ) as [T1 R1]; [by rewrite Hr|by right|by right; right; right; left|].
  unfold parse_op. rewrite T1.
  destruct (token_string (next_token p) [32] val r) as (T2 & V2 & R2); [by rewrite R1|by right|done|].
  exists (next_token (next_token p)). split; [done|]. unfold parse_value. rewrite T2, V2, Hv. done.
Qed.

Lemma where_two p c1 v1 c2 v2 :
  tok_type p = TOK_WHERE -> rest p = [32] ++ c1 ++ cs " = '" ++ v1 ++ cs "' AND " ++ c2 ++ cs " = '" ++ v2 ++ [39] ->
  is_name c1 = true -> is_name c2 = true -> literal v1 -> literal v2 ->
  snd (parse_where stack p) = [str_cond 0 c1 v1; str_cond 1 c2 v2].
Proof.
  intros Ht Hr H1 H2 Hv1 Hv2. unfold parse_where. rewrite (is_tok_eq p _ _ Ht), bool_decide_true by done. cbn [negb].
  destruct (token_name p [32] c1 _ H1 Hr) as (T1 & V1 & R1); [by right|by lit|]. change MAX_WHERE_CONDS with (S (S 6)).
  destruct (where_step (S 6) 0 (next_token p) c1 v1 (cs " AND " ++ c2 ++ cs " = '" ++ v2 ++ [39]) T1 V1 R1 Hv1) as (p1 & R2 & ->).
  destruct (token_keyword p1 [32] "AND" ([32] ++ c2 ++ cs " = '" ++ v2 ++ [39]) TOK_AND) as [T3 R3]; [by rewrite R2|by right|by vm_compute|done|].
  rewrite (is_tok_eq _ _ _ T3), bool_decide_true by done.
  destruct (token_name (next_token p1) [32] c2 _ H2 R3) as (T4 & V4 & R4); [by right|by lit|].
  destruct (where_step 6 1 (next_token (next_token p1)) c2 v2 [] T4 V4 R4 Hv2) as (p2 & R5 & ->).
  rewrite (is_tok_eq _ _ _ (token_end p2 [] R5 eq_refl)), bool_decide_false by done. done.
Qed.

Definition stored_conds (name kind : list Z) : list where_cond := [str_cond 0 (cs "name") name; str_cond 1 (cs "type") kind].

Lemma stored_where_parse name kind p : tok_type p = TOK_WHERE -> rest p = stored_where name kind -> literal name -> literal kind ->
  snd (parse_where stack p) = stored_conds name kind.
Proof. intros Ht Hr Hn Hk. apply where_two; [done|by rewrite Hr|by vm_compute|by vm_compute|done|done]. Qed.

Lemma select_text_parse name kind : literal name -> literal kind ->
  select_query stack (select_text name kind) = Some (object_table, stored_conds name kind).
Proof.
  intros Hn Hk. destruct (select_where stack (cs "ObjectTable") (stored_where name kind)) as (p & T & R & E); [by vm_compute|by lit|].
  unfold select_text. by rewrite E, (stored_where_parse name kind p).
Qed.

Lemma delete_text_parse name kind : literal name -> literal kind ->
  delete_query stack (delete_text name kind) = Some (object_table, stored_conds name kind).
Proof.
  intros Hn Hk. destruct (delete_where stack (cs "ObjectTable") (stored_where name kind)) as (p & T & R & E); [by vm_compute|by lit|].
  unfold delete_text. by rewrite E, (stored_where_parse name kind p).
Qed.

(** ** INSERT *)

(** One name of the column list, with what follows it. *)
Lemma columns_step room i p name sep r t :
  tok_type p = TOK_IDENT -> tok_value p = name ++ [0] -> rest p = sep :: r -> (sep, t) ∈ puncts ->
  rest (next_token p) = r /\ tok_type (next_token p) = t /\
  insert_columns stack (S room) i p =
    let column := column_cells stack A_COL_NAME i (name ++ [0]) in
    if bool_decide (t = TOK_COMMA)
    then let '(p', names) := insert_columns stack room (S i) (next_token (next_token p)) in (p', column :: names)
    else (next_token p, [column]).
Proof.
  intros Ht Hv Hr Hsep. destruct (token_punct p [] sep r t Hr) as [T R]; [by left|done|]. split; [done|]. split; [done|].
  cbn [insert_columns]. rewrite (is_tok_eq p _ _ Ht), bool_decide_true, Hv by done. cbn [negb].
  by rewrite (is_tok_eq _ _ _ T).
Qed.

Definition insert_names : list (list Z) :=
  [column_cells stack A_COL_NAME 0 (cs "name" ++ [0]); column_cells stack A_COL_NAME 1 (cs "type" ++ [0]); column_cells stack A_COL_NAME 2 (cs "data" ++ [0])].

Lemma expect_tok p t : tok_type p = t -> expect p t = Some (next_token p).
Proof. intros E. unfold expect. by rewrite (is_tok_eq p _ _ E), bool_decide_true. Qed.

Lemma insert_text_parse name kind line : literal name ->
  exists p, insert_query stack (insert_text name kind line) = Some (object_table, insert_names, p) /\
    tok_type p = TOK_STRING /\ tok_value p = name ++ [0] /\
    rest p = cs ", '" ++ kind ++ cs "', '" ++ line ++ cs "')".
Proof.
  intros Hn. set (tail := 39 :: name ++ 39 :: cs ", '" ++ kind ++ cs "', '" ++ line ++ cs "')"). unfold insert_query.
  set (p0 := Parser _ _ _ _).
  destruct (token_keyword p0 [] "INSERT" (cs " INTO ObjectTable (name, type, data) VALUES (" ++ tail) TOK_INSERT) as [T1 R1];
    [done|by left|by vm_compute|done|].
  rewrite (expect_tok _ _ T1).
  destruct (token_keyword (next_token p0) [32] "INTO" (cs " ObjectTable (name, type, data) VALUES (" ++ tail) TOK_INTO) as [T2 R2];
    [by rewrite R1|by right|by vm_compute|done|].
  rewrite (expect_tok _ _ T2). set (p2 := next_token (next_token p0)) in *. clearbody p2.
  destruct (token_name p2 [32] (cs "ObjectTable") (cs " (name, type, data) VALUES (" ++ tail)) as (T3 & V3 & R3);
    [by vm_compute|by rewrite R2|by right|done|].
  rewrite (is_tok_eq _ _ _ T3), bool_decide_true, V3 by done. cbn [negb]. set (p3 := next_token p2) in *. clearbody p3.
  destruct (token_punct p3 [32] 40 (cs "name, type, data) VALUES (" ++ tail) TOK_LPAREN) as [T4 R4]; [by rewrite R3|by right|by right; left|].
  rewrite (expect_tok _ _ T4). set (p4 := next_token p3) in *. clearbody p4.
  destruct (token_name p4 [] (cs "name") (cs ", type, data) VALUES (" ++ tail)) as (T5 & V5 & R5); [by vm_compute|by rewrite R4|by left|done|].
  set (p5 := next_token p4) in *. clearbody p5. change MAX_INSERT_VALS with (S (S (S 13))).
  destruct (columns_step (S (S 13)) 0 p5 (cs "name") 44 (cs " type, data) VALUES (" ++ tail) TOK_COMMA T5 V5 R5) as (R6 & _ & ->); [by left|].
  rewrite bool_decide_true by done. set (p6 := next_token p5) in *. clearbody p6.
  destruct (token_name p6 [32] (cs "type") (cs ", data) VALUES (" ++ tail)) as (T7 & V7 & R7); [by vm_compute|by rewrite R6|by right|done|].
  set (p7 := next_token p6) in *. clearbody p7.
  destruct (columns_step (S 13) 1 p7 (cs "type") 44 (cs " data) VALUES (" ++ tail) TOK_COMMA T7 V7 R7) as (R8 & _ & ->); [by left|].
  rewrite bool_decide_true by done. set (p8 := next_token p7) in *. clearbody p8.
  destruct (token_name p8 [32] (cs "data") (cs ") VALUES (" ++ tail)) as (T9 & V9 & R9); [by vm_compute|by rewrite R8|by right|done|].
  set (p9 := next_token p8) in *. clearbody p9.
  destruct (columns_step 13 2 p9 (cs "data") 41 (cs " VALUES (" ++ tail) TOK_RPAREN T9 V9 R9) as (R10 & T10 & ->); [by right; right; left|].
  rewrite bool_decide_false by done. cbv iota beta zeta. rewrite (expect_tok _ _ T10). set (p10 := next_token p9) in *. clearbody p10.
  destruct (token_keyword p10 [32] "VALUES" (cs " (" ++ tail) TOK_VALUES) as [T11 R11]; [by rewrite R10|by right|by vm_compute|done|].
  rewrite (expect_tok _ _ T11).
  destruct (token_punct (next_token p10) [32] 40 tail TOK_LPAREN) as [T12 R12]; [by rewrite R11|by right|by right; left|].
  rewrite (expect_tok _ _ T12). eexists. split; [reflexivity|].
  apply (token_string (next_token (next_token p10)) [] name (cs ", '" ++ kind ++ cs "', '" ++ line ++ cs "')")); [done|by left|done].
Qed.
End parsing.

(** ** The row of a line *)

Section rows.
Context (stack : nat -> nat -> list Z).

Definition row_values (rid : Z) (name kind line : list Z) : record :=
  record_set_str (record_set_str (record_set_str (blank_record object_schema rid) 1 (name ++ [0])) 2 (kind ++ [0])) 3 (line ++ [0]).

Definition line_row (rid pid now : Z) (name kind line : list Z) : record := fill_columns object_schema (row_values rid name kind line) pid now.

Lemma literal_nonzero s : literal s -> Forall (fun c => c <> 0) s.
Proof. intros [Hs _]. apply (Forall_impl _ _ _ Hs). intros c. unfold string_char. lia. Qed.

Lemma column_cells_find sch a i w : literal w -> (length w < MAX_COLUMN_NAME - 1)%nat ->
  find_column_index sch (column_cells stack a i (w ++ [0])) = find_column_index sch w.
Proof.
  intros Hw Hl. pose proof (literal_nonzero w Hw) as Hz. unfold find_column_index, column_cells. apply find_col_cstr.
  destruct (strncpy_short (stack a i) w (MAX_COLUMN_NAME - 1) Hz Hl) as [t ->]. by rewrite cstr_app_0, cstr_idemp by done.
Qed.

Lemma short_word_literal s : forallb (fun c => string_char c) (cs s) && (length (cs s) <? 60)%nat = true -> literal (cs s) /\ (length (cs s) < MAX_COLUMN_NAME - 1)%nat.
Proof.
  intros [H1 H2%Nat.ltb_lt]%andb_true_iff. unfold literal, MAX_STR_LEN, MAX_COLUMN_NAME. split; [|lia]. split; [|lia].
  apply Forall_forall. intros x Hx. apply (proj1 (forallb_forall _ _) H1). by apply list_elem_of_In.
Qed.

(** One value of the list, with what follows it. *)
Lemma values_step sch name names rec p val sep r t ci :
  tok_type p = TOK_STRING -> tok_value p = val ++ [0] -> rest p = sep :: r -> (sep, t) ∈ puncts -> find_column_index sch name = Some ci ->
  rest (next_token p) = r /\
  insert_values sch (name :: names) rec p =
    if bool_decide (t = TOK_COMMA) then insert_values sch names (record_set_str rec ci (val ++ [0])) (next_token (next_token p))
    else Some (record_set_str rec ci (val ++ [0])).
Proof.
  intros Ht Hv Hr Hsep Hc. destruct (token_punct p [] sep r t Hr) as [T R]; [by left|done|]. split; [done|].
  cbn [insert_values]. rewrite !(is_tok_eq p _ _ Ht), !bool_decide_false by done. cbn [orb]. rewrite Hc. unfold set_value. rewrite Ht, Hv.
  by rewrite (is_tok_eq _ _ _ T).
Qed.

Lemma insert_text_values rid p name kind line :
  tok_type p = TOK_STRING -> tok_value p = name ++ [0] -> rest p = cs ", '" ++ kind ++ cs "', '" ++ line ++ cs "')" ->
  literal kind -> literal line ->
  insert_values object_schema (insert_names stack) (blank_record object_schema rid) p = Some (row_values rid name kind line).
Proof.
  intros Ht Hv Hr Hk Hl. unfold insert_names.
  assert (forall a i s, forallb string_char (cs s) && (length (cs s) <? 60)%nat = true ->
    find_column_index object_schema (column_cells stack a i (cs s ++ [0])) = find_column_index object_schema (cs s)) as Hf
    by (intros a i s [H1 H2]%short_word_literal; by apply column_cells_find).
  destruct (values_step object_schema (column_cells stack A_COL_NAME 0 (cs "name" ++ [0]))
    [column_cells stack A_COL_NAME 1 (cs "type" ++ [0]); column_cells stack A_COL_NAME 2 (cs "data" ++ [0])]
    (blank_record object_schema rid) p name 44 ([32] ++ 39 :: kind ++ 39 :: cs ", '" ++ line ++ cs "')") TOK_COMMA 1 Ht Hv Hr) as [R1 ->];
    [by left|by rewrite Hf|]. rewrite bool_decide_true by done.
  destruct (token_string (next_token p) [32] kind (cs ", '" ++ line ++ cs "')")) as (T2 & V2 & R2); [by rewrite R1|by right|done|].
  destruct (values_step object_schema (column_cells stack A_COL_NAME 1 (cs "type" ++ [0])) [column_cells stack A_COL_NAME 2 (cs "data" ++ [0])]
    (record_set_str (blank_record object_schema rid) 1 (name ++ [0])) (next_token (next_token p)) kind 44 ([32] ++ 39 :: line ++ 39 :: [41]) TOK_COMMA 2 T2 V2 R2) as [R3 ->];
    [by left|by rewrite Hf|]. rewrite bool_decide_true by done. set (p3 := next_token (next_token (next_token p))) in *.
  destruct (token_string p3 [32] line [41]) as (T4 & V4 & R4); [by rewrite R3|by right|done|].
  destruct (values_step object_schema (column_cells stack A_COL_NAME 2 (cs "data" ++ [0])) [] (record_set_str (record_set_str (blank_record object_schema rid) 1 (name ++ [0])) 2 (kind ++ [0]))
    (next_token p3) line 41 [] TOK_RPAREN 3 T4 V4 R4) as [_ ->]; [by right; right; left|by rewrite Hf|]. done.
Qed.

Lemma line_row_fields rid pid now name kind line :
  let rec := line_row rid pid now name kind line in
  row_id rec = rid /\ field rec 1 = str_field (name ++ [0]) /\ field rec 2 = str_field (kind ++ [0]) /\ field rec 3 = str_field (line ++ [0]).
Proof.
  unfold line_row, row_values, record_set_str. generalize (str_field (name ++ [0])) (str_field (kind ++ [0])) (str_field (line ++ [0])).
  intros f1 f2 f3. vm_compute. by split_and!.
Qed.

Lemma str_field_text s : literal s -> exists l, str_field (s ++ [0]) = FStr (s ++ replicate (S MAX_STR_LEN - length s) 0) l.
Proof.
  intros Hs. pose proof (literal_nonzero s Hs) as Hz. rewrite str_field_eq. eexists.
  assert (Record.str_text (s ++ [0]) = s) as ->; [|done].
  unfold Record.str_text. rewrite cstr_app_0 by done. apply take_ge. destruct Hs. lia.
Qed.

Lemma str_field_cstr s l d : literal s -> str_field (s ++ [0]) = FStr d l -> cstr d = s.
Proof.
  intros Hs E. destruct (str_field_text s Hs) as [l' E']. rewrite E' in E. injection E as <- _.
  destruct Hs as [Hs Hl]. change (S MAX_STR_LEN) with (S 255) in *. destruct (S 255 - length s)%nat as [|k] eqn:Ek; [unfold MAX_STR_LEN in Hl; lia|].
  cbn [replicate]. apply cstr_app_0. by apply literal_nonzero.
Qed.

End rows.

(** ** Whose line a row is *)

(** The text a column holds, if it holds one. *)
Definition text_at (rec : record) (j : nat) : option (list Z) :=
  match field rec j with FStr data _ => Some (cstr data) | _ => None end.

(** A row of the text [name] of the kind [kind]. *)
Definition entry (name kind : list Z) (rec : record) : Prop := text_at rec 1 = Some name /\ text_at rec 2 = Some kind.

#[export] Instance entry_dec name kind rec : Decision (entry name kind rec).
Proof. unfold entry. apply _. Defined.

(** Rows whose name and type are texts, as every row that was given both. *)
Definition all_texts (content : gmap Z record) : Prop :=
  forall k rec, content !! k = Some rec -> is_Some (text_at rec 1) /\ is_Some (text_at rec 2).

Lemma text_cond stack rec i col val k : literal val -> forallb string_char (cs col) && (length (cs col) <? 60)%nat = true ->
  find_column_index object_schema (cs col) = Some k -> is_Some (text_at rec k) ->
  find_column_index object_schema (cond_column (str_cond stack i (cs col) val)) = Some k /\
  match_field (field rec k) (cond_op (str_cond stack i (cs col) val)) (cond_value (str_cond stack i (cs col) val)) = bool_decide (text_at rec k = Some val).
Proof.
  intros Hv [Hc1 Hc2]%short_word_literal Hk [d Hd]. unfold str_cond. cbn [cond_column cond_op cond_value]. split; [by rewrite column_cells_find|].
  unfold text_at in *. destruct (field rec k) as [v|v|d' n|d' n|v|v|v]; try discriminate Hd. cbn [match_field compare_with].
  destruct (strncpy_short (stack A_COND_STR i) val MAX_STR_LEN (literal_nonzero _ Hv) (proj2 Hv)) as [t ->].
  destruct (Z.eqb_spec (strcmp d' (val ++ 0 :: t)) 0) as [E|E]; symmetry; [apply bool_decide_eq_true|apply bool_decide_eq_false].
  - apply strcmp_0 in E. rewrite cstr_app_0 in E by (by apply literal_nonzero). by rewrite E.
  - intros [= E']. apply E, strcmp_0. by rewrite cstr_app_0 by (by apply literal_nonzero).
Qed.

(** The conditions select the rows of the text. *)
Lemma stored_conds_entry stack rec name kind : literal name -> literal kind -> is_Some (text_at rec 1) -> is_Some (text_at rec 2) ->
  record_matches rec object_schema (stored_conds stack name kind) = bool_decide (entry name kind rec).
Proof.
  intros Hn Hk H1 H2. unfold stored_conds. cbn [record_matches].
  destruct (text_cond stack rec 0 "name" name 1 Hn) as [-> ->]; [done..|].
  destruct (text_cond stack rec 1 "type" kind 2 Hk) as [-> ->]; [done..|].
  unfold entry. repeat case_bool_decide; tauto.
Qed.

(** A row given no name holds the number 0 there, which the matcher takes to
    equal every text that does not begin with a digit: saving a document
    deletes the unnamed rows of that type. *)
Example unnamed_row_matches :
  let row := fill_columns object_schema (record_set_str (blank_record object_schema 1) 2 (cs "document" ++ [0])) 5 1000 in
  text_at row 1 = None /\ record_matches row object_schema (stored_conds zero_stack (cs "diary") (cs "document")) = true.
Proof. vm_compute. done. Qed.

Lemma line_row_texts rid pid now name kind line : literal name -> literal kind -> literal line ->
  let rec := line_row rid pid now name kind line in entry name kind rec /\ text_at rec 3 = Some line.
Proof.
  intros Hn Hk Hl. destruct (line_row_fields rid pid now name kind line) as (_ & F1 & F2 & F3). unfold entry, text_at. rewrite F1, F2, F3.
  destruct (str_field_text name Hn) as [l1 E1], (str_field_text kind Hk) as [l2 E2], (str_field_text line Hl) as [l3 E3]. rewrite E1, E2, E3.
  by rewrite (str_field_cstr name l1 _ Hn E1), (str_field_cstr kind l2 _ Hk E2), (str_field_cstr line l3 _ Hl E3).
Qed.

(** ** Formatting and reading *)

Lemma cstr_blit_text sql text : Forall (fun c => c <> 0) text -> (length text < length sql)%nat -> cstr (blit sql 0 (text ++ [0])) = text.
Proof. intros Hz Hl. unfold blit. cbn [take app Nat.add]. rewrite <- app_assoc. by apply cstr_app_0. Qed.

Lemma print_to_text sql fmt args q :
  simple (cs fmt) (length args) = true -> Forall (fun c => c <> 0) (fill (cs fmt) args) -> (length (fill (cs fmt) args) < length sql)%nat ->
  Z.of_nat (length sql) < 2 ^ 63 ->
  exists sql', print_to sql fmt (map txt args) q = Done (q, sql') /\ length sql' = length sql /\ cstr sql' = fill (cs fmt) args.
Proof.
  intros Hs Hz Hl H63. unfold print_to, txt.
  erewrite snprintf_bounded; [|lia|lia| |apply kvprintf_fill; exact Hs]; [|lia].
  rewrite take_ge by lia. eexists. split; [reflexivity|]. split; [|by apply cstr_blit_text].
  apply length_blit. rewrite length_app. cbn [length]. lia.
Qed.

Lemma literal_cstr s : literal s -> cstr s = s.
Proof. intros Hs. by apply cstr_idemp, literal_nonzero. Qed.

Lemma literal_strlen s : literal s -> s <> [] -> (strlen s =? 0)%nat = false.
Proof.
  intros Hs Hne. destruct s as [|c s]; [done|]. apply literal_nonzero, Forall_cons in Hs as [Hc _]. cbn [strlen].
  by rewrite (proj2 (Z.eqb_neq _ _) Hc).
Qed.

Lemma cs_nonzero s : forallb (fun c => negb (c =? 0)) (cs s) = true -> Forall (fun c => c <> 0) (cs s).
Proof.
  intros E. apply Forall_forall. intros c Hc. apply list_elem_of_In in Hc. apply (proj1 (forallb_forall _ _) E) in Hc. lia.
Qed.

Lemma insert_text_nonzero name kind line : literal name -> literal kind -> literal line -> Forall (fun c => c <> 0) (insert_text name kind line).
Proof.
  intros Hn Hk Hl. unfold insert_text. repeat (apply Forall_app; split); try (by apply literal_nonzero); by apply cs_nonzero.
Qed.

Lemma stored_where_nonzero name kind : literal name -> literal kind -> Forall (fun c => c <> 0) (stored_where name kind).
Proof.
  intros Hn Hk. unfold stored_where. repeat (apply Forall_app; split); try (by apply literal_nonzero); try (by apply cs_nonzero).
  by repeat constructor.
Qed.

Lemma delete_text_nonzero name kind : literal name -> literal kind -> Forall (fun c => c <> 0) (delete_text name kind).
Proof. intros Hn Hk. unfold delete_text. do 3 (apply Forall_app; split; [by apply cs_nonzero|]). by apply stored_where_nonzero. Qed.

Lemma select_text_nonzero name kind : literal name -> literal kind -> Forall (fun c => c <> 0) (select_text name kind).
Proof. intros Hn Hk. unfold select_text. do 3 (apply Forall_app; split; [by apply cs_nonzero|]). by apply stored_where_nonzero. Qed.

Lemma insert_text_bytes name kind line : bytes name -> bytes kind -> bytes line -> bytes (insert_text name kind line).
Proof. intros Hn Hk Hl. unfold insert_text. repeat (apply Forall_app; split); done || apply bytes_cs. Qed.

(** The commands in the rows of a text are its lines. *)
Lemma rows_commands data_of rows lines : Forall literal lines ->
  map (fun row => field row 3) rows = map (fun line => str_field (line ++ [0])) lines ->
  map (fun row => cstr (str_data data_of row 3)) rows = lines.
Proof.
  intros Hls. revert lines Hls. induction rows as [|row rows IH]; intros [|line lines] Hls E; try done. cbn [map] in *.
  apply Forall_cons in Hls as [Hl Hls]. injection E as E1 E2. rewrite (IH lines) by done. f_equal.
  destruct (str_field_text line Hl) as [l Ef]. unfold str_data. rewrite E1, Ef. by apply (str_field_cstr line l).
Qed.

Lemma word_literal s : forallb string_char (cs s) && (length (cs s) <? 60)%nat = true -> literal (cs s).
Proof. intros Hs. by apply short_word_literal. Qed.

(** ** Rows written with ascending keys are read back in that order *)

Definition put_rows (content : gmap Z record) (l : list (Z * record)) : gmap Z record := foldl (fun m kr => <[kr.1 := kr.2]> m) content l.

Lemma put_rows_lookup l content k r : NoDup l.*1 ->
  put_rows content l !! k = Some r <-> (k, r) ∈ l \/ (k ∉ l.*1 /\ content !! k = Some r).
Proof.
  revert content. induction l as [|[k' r'] l IH]; intros content Hnd; cbn [put_rows foldl fmap list_fmap fst snd].
  { set_solver. }
  apply NoDup_cons in Hnd as [Hk Hnd]. fold (put_rows (<[k' := r']> content) l). rewrite IH, elem_of_cons, not_elem_of_cons by done.
  destruct (decide (k = k')) as [->|Hne].
  - rewrite lookup_insert_eq. split.
    + intros [H|[_ [= ->]]]; [auto|auto].
    + intros [[[= ->]|H]|[[? _] _]]; [right; done|by left|done].
  - rewrite lookup_insert_ne by done. split.
    + intros [H|[H1 H2]]; [auto|right; auto].
    + intros [[[= -> _]|H]|[[_ H1] H2]]; [done|by left|by right].
Qed.

Lemma sorted_fst_unique (l l' : list (Z * record)) :
  StronglySorted Z.lt l.*1 -> StronglySorted Z.lt l'.*1 -> (forall kr, kr ∈ l <-> kr ∈ l') -> l = l'.
Proof.
  intros Hl Hl' Hin.
  assert (forall l : list (Z * record), StronglySorted Z.lt l.*1 -> NoDup l /\ StronglySorted (fun a b => a.1 < b.1) l) as Hs.
  { clear. induction l as [|kr l IH]; intros H; [split; constructor|]. cbn [fmap list_fmap] in H. apply StronglySorted_inv in H as [H1 H2].
    destruct (IH H1) as [Hn Hss]. split.
    - constructor; [|done]. intros Hi. rewrite Forall_forall in H2.
      specialize (H2 kr.1 (list_elem_of_fmap_2 _ _ _ Hi)). lia.
    - constructor; [done|]. rewrite Forall_fmap in H2. exact H2. }
  destruct (Hs l Hl) as [N1 S1], (Hs l' Hl') as [N2 S2].
  apply (StronglySorted_unique_strong (fun a b : Z * record => a.1 < b.1)); [intros; lia|done|done|by apply NoDup_Permutation].
Qed.

Lemma filter_sorted (P : record -> bool) (l : list (Z * record)) :
  StronglySorted Z.lt l.*1 -> StronglySorted Z.lt (List.filter (fun kr => P kr.2) l).*1.
Proof.
  induction l as [|kr l IH]; intros H; cbn [List.filter]; [constructor|]. cbn [fmap list_fmap] in H. apply StronglySorted_inv in H as [H1 H2].
  destruct (P kr.2); [|by apply IH]. cbn [fmap list_fmap]. constructor; [by apply IH|].
  rewrite Forall_fmap in H2. rewrite Forall_fmap. apply Forall_forall. intros x Hx%list_elem_of_In. apply filter_In in Hx as [Hx _].
  apply (proj1 (Forall_forall _ _) H2). by apply list_elem_of_In.
Qed.

Lemma matching_new sch conds content new l :
  StronglySorted Z.lt new.*1 -> Forall (fun kr => record_matches kr.2 sch conds = true) new ->
  (forall k r, content !! k = Some r -> record_matches r sch conds = false) ->
  StronglySorted Z.lt l.*1 -> l ≡ₚ map_to_list (put_rows content new) ->
  matching sch conds l.*2 = new.*2.
Proof.
  intros Hnew Hm Hc Hl Hp.
  assert (NoDup new.*1) as Hnd.
  { clear - Hnew. induction Hnew as [|k l H IH Hf]; constructor; [|done]. intros Hi. rewrite Forall_forall in Hf. specialize (Hf k Hi). lia. }
  assert (matching sch conds l.*2 = (List.filter (fun kr => record_matches kr.2 sch conds) l).*2) as ->.
  { clear. unfold matching. induction l as [|kr l IH]; [done|]. cbn. destruct (record_matches _ _ _); cbn; by rewrite IH. }
  f_equal. apply sorted_fst_unique; [by apply (filter_sorted (fun r => record_matches r sch conds))|done|]. intros [k r].
  rewrite list_elem_of_In, filter_In, <- list_elem_of_In, Hp, elem_of_map_to_list, put_rows_lookup by done. cbn [snd]. split.
  - intros [[H|[_ H]] Hr]; [done|]. by rewrite (Hc k r H) in Hr.
  - intros H. split; [by left|]. by apply (proj1 (Forall_forall _ _) Hm (k, r)).
Qed.

(** ** Saving a text *)

(** Room for [n] rows and their entries in the log, written in turn. *)
Fixpoint rooms (n : nat) (t a : btree encrypted_record) (rid : Z) : Prop :=
  match n with
  | O => True
  | S n => room_for 1 t rid /\ room_for 1 a (u64 (rid + 1)) /\
      forall v t' v' a', btree_insert t rid v = Done t' -> btree_insert a (u64 (rid + 1)) v' = Done a' -> rooms n t' a' (u64 (u64 (rid + 1) + 1))
  end.

Lemma find_schema_same ts ts' name i : map schema ts = map schema ts' -> find_schema ts name i = find_schema ts' name i.
Proof.
  revert ts' i. induction ts as [|t ts IH]; intros [|t' ts'] i E; try done. cbn [map] in E. injection E as E1 E2. cbn [find_schema]. rewrite E1.
  by rewrite (IH ts').
Qed.

Lemma map_schema_insert (ts : list db_table) i t t' : ts !! i = Some t -> schema t' = schema t -> map schema (<[i := t']> ts) = map schema ts.
Proof.
  intros L E. apply list_eq. intros j. rewrite !list_lookup_fmap. destruct (decide (i = j)) as [->|Hne].
  - rewrite list_lookup_insert_eq, L by (by eapply lookup_lt_Some). cbn. by rewrite E.
  - by rewrite list_lookup_insert_ne.
Qed.

#[local] Opaque query_execute line_row insert_text delete_text select_text object_schema global_row_id.

Section store.
Context `{Hw, AesNi, !HwLaws, !AesNiLaws}.
Context (mem : nat -> nat -> bool) (clock : nat -> Z) (stack : nat -> nat -> list Z).
Context (Hmem : forall n m, mem n m = true) (Hclock : forall n, is_u64 (clock n)).

#[local] Abbreviation execute := (query_execute mem clock stack).

(** The object table and the audit log of a state, with their content. *)
Record objects (q : q_state) (t a : db_table) (content log : gmap Z record) : Prop := Objects {
  ob_ok : db_ok (q_db q);
  ob_named : db_get_schema (q_db q) object_table = Some 3%nat;
  ob_at : tables (q_db q) !! 3%nat = Some t;
  ob_schema : schema t = object_schema;
  ob_audit : tables (q_db q) !! TABLE_ID_AUDIT = Some a;
  ob_content : table_is 3 t content;
  ob_log : table_is TABLE_ID_AUDIT a log
}.

Lemma objects_update q q' t a t' a' content log content' log' :
  objects q t a content log -> tables (q_db q') = <[TABLE_ID_AUDIT := a']> (<[3%nat := t']> (tables (q_db q))) ->
  schema t' = schema t -> schema a' = schema a -> db_ok (q_db q') ->
  table_is 3 t' content' -> table_is TABLE_ID_AUDIT a' log' -> objects q' t' a' content' log'.
Proof.
  intros [J1 J2 J3 J4 J5 J6 J7] E Et Ea Hok Ht Ha.
  pose proof (lookup_lt_Some _ _ _ J3). pose proof (lookup_lt_Some _ _ _ J5).
  assert (<[3%nat := t']> (tables (q_db q)) !! TABLE_ID_AUDIT = Some a) as J5' by (by rewrite list_lookup_insert_ne).
  constructor; [done| |rewrite E, list_lookup_insert_ne, list_lookup_insert_eq by done; done|congruence| |done|done].
  - rewrite <- J2. unfold db_get_schema. apply find_schema_same. rewrite E.
    rewrite (map_schema_insert _ _ a) by done. by apply (map_schema_insert _ _ t).
  - rewrite E. by rewrite list_lookup_insert_eq by (by rewrite length_insert).
Qed.

(** What the tables hold is what the state holds. *)
Lemma objects_tables q q' t a content log : objects q t a content log -> tables (q_db q') = tables (q_db q) -> db_ok (q_db q') -> objects q' t a content log.
Proof. intros [J1 J2 J3 J4 J5 J6 J7] E Hok. constructor; rewrite ?E; [exact Hok| |exact J3|exact J4|exact J5|exact J6|exact J7]. unfold db_get_schema in *. by rewrite E. Qed.

Lemma insert_line q t a content log pid name kind line :
  objects q t a content log -> is_u64 pid -> bytes (insert_text name kind line) -> literal name -> literal kind -> literal line ->
  let rid := global_row_id (q_db q) in
  room_for 1 (index t) rid -> room_for 1 (index a) (u64 (rid + 1)) ->
  exists q' r i v i' v' now log', execute (insert_text name kind line) pid q = Done (q', Some r) /\ error_code r = VOS_OK /\
    btree_insert (index t) rid v = Done i /\ btree_insert (index a) (u64 (rid + 1)) v' = Done i' /\
    objects q' (set_index t i) (set_index a i') (<[rid := line_row rid pid now name kind line]> content) log' /\
    global_row_id (q_db q') = u64 (u64 (rid + 1) + 1) /\ q_caps q' = q_caps q.
Proof.
  intros Ho Hp Hb Hn Hk Hl. cbv zeta. intros R1 R2. pose proof Ho as [J1 J2 J3 J4 J5 J6 J7].
  destruct (insert_text_parse stack name kind line Hn) as (p & Eq & Tp & Vp & Rp).
  assert (sch_table_id (schema t) = Z.of_nat 3 /\ (length (columns (schema t)) <= 15)%nat) as [Hid Hcols]
    by (rewrite J4; split; [done|apply Nat.leb_le; reflexivity]).
  pose proof (insert_statement mem clock stack Hmem Hclock (insert_text name kind line) pid q object_table (insert_names stack) p 3 t content a log
    Hb Hp J1 Eq J2 J3 Hid Hcols J5 ltac:(discriminate) ltac:(lia) J6 J7 R1 R2) as Hs.
  cbv zeta in Hs. rewrite J4, (insert_text_values stack _ p name kind line Tp Vp Rp Hk Hl) in Hs.
  destruct Hs as (q' & r & i & v & i' & v' & now & E1 & E2 & Ex & Er & Et & Hc & Ha & Hok & Hcap & Hg).
  exists q', r, i, v, i', v', (clock (q_calls q)). eexists. split; [exact Ex|]. split; [exact Er|]. split; [exact E1|]. split; [exact E2|].
  split; [|split; [exact Hg|exact Hcap] ]. eapply objects_update; [exact Ho|exact Et|reflexivity|reflexivity|exact Hok|exact Hc|exact Ha].
Qed.

(** [db_execute] on a list of texts, the results freed. *)
Fixpoint run_all (texts : list (list Z)) (pid : Z) : M unit :=
  match texts with
  | [] => ret tt
  | text :: texts => bind (execute text pid) (fun _ => run_all texts pid)
  end.

(** The rows of the lines, with every other id from [rid] on. *)
Fixpoint line_rows (rid pid : Z) (name kind : list Z) (lines : list (list Z)) (times : list Z) : list (Z * record) :=
  match lines, times with
  | line :: lines, now :: times => (rid, line_row rid pid now name kind line) :: line_rows (rid + 2) pid name kind lines times
  | _, _ => []
  end.

Lemma run_all_inserts pid name kind : is_u64 pid -> literal name -> literal kind -> forall lines q t a content log,
  Forall (fun line => literal line /\ bytes (insert_text name kind line)) lines -> objects q t a content log ->
  let rid := global_row_id (q_db q) in
  rooms (length lines) (index t) (index a) rid -> 0 <= rid -> rid + 2 * Z.of_nat (length lines) < 2 ^ 64 ->
  exists q' t' a' times log', run_all (map (insert_text name kind) lines) pid q = Done (q', tt) /\ length times = length lines /\
    objects q' t' a' (put_rows content (line_rows rid pid name kind lines times)) log' /\ q_caps q' = q_caps q.
Proof.
  intros Hp Hn Hk. induction lines as [|line lines IH]; intros q t a content log Hls Ho rid Hroom Hz Hw64.
  { exists q, t, a, [], log. by split_and!. }
  apply Forall_cons in Hls as [[Hl Hb] Hls]. cbn [length rooms map run_all] in *. destruct Hroom as (R1 & R2 & Hnext).
  destruct (insert_line q t a content log pid name kind line Ho Hp Hb Hn Hk Hl R1 R2)
    as (q1 & r & i & v & i' & v' & now & log1 & Ex & _ & E1 & E2 & Ho1 & Hg & Hcap).
  unfold bind. rewrite Ex. fold rid in Hg, Ho1, E1, E2. pose proof (Hnext v i v' i' E1 E2) as Hr1. rewrite <- Hg in Hr1.
  assert (global_row_id (q_db q1) = rid + 2) as Eg by (rewrite Hg; unfold wrap; rewrite !Z.mod_small by lia; lia).
  destruct (IH q1 _ _ _ _ Hls Ho1 Hr1) as (q' & t' & a' & times & log' & Er & Hlen & Ho' & Hcap'); [lia|lia|].
  exists q', t', a', (now :: times), log'. rewrite Eg in Ho'. split_and!; [done|cbn; lia|exact Ho'|congruence].
Qed.

Lemma line_rows_spec pid name kind : literal name -> literal kind -> forall lines times rid, Forall literal lines -> length times = length lines ->
  let l := line_rows rid pid name kind lines times in
  StronglySorted Z.lt l.*1 /\ Forall (fun k => rid <= k) l.*1 /\
  Forall2 (fun kr line => entry name kind kr.2 /\ text_at kr.2 3 = Some line) l lines /\
  map (fun r => field r 3) l.*2 = map (fun line => str_field (line ++ [0])) lines.
Proof.
  intros Hn Hk. induction lines as [|line lines IH]; intros [|now times] rid Hls Hlen; try done; [split_and!; constructor|].
  apply Forall_cons in Hls as [Hl Hls].
  cbn [line_rows fmap list_fmap fst snd map]. injection Hlen as Hlen. destruct (IH times (rid + 2) Hls Hlen) as (S1 & S2 & S3 & S4). split_and!.
  - constructor; [done|]. apply (Forall_impl _ _ _ S2). intros; lia.
  - constructor; [lia|]. apply (Forall_impl _ _ _ S2). intros; lia.
  - constructor; [by apply line_row_texts|done].
  - cbn [map]. rewrite S4. by rewrite (proj2 (proj2 (proj2 (line_row_fields rid pid now name kind line)))). 
Qed.

(** The DELETE of the old rows, and an INSERT per line. *)
Definition save_text (name kind : list Z) (lines : list (list Z)) (pid : Z) : M unit :=
  bind (execute (delete_text name kind) pid) (fun _ => run_all (map (insert_text name kind) lines) pid).

(** Room for the lines once the old rows are gone. *)
Definition room_after_delete (q : q_state) (name kind : list Z) (n : nat) (pid : Z) : Prop :=
  forall q1 r t1 a1, execute (delete_text name kind) pid q = Done (q1, r) ->
    tables (q_db q1) !! 3%nat = Some t1 -> tables (q_db q1) !! TABLE_ID_AUDIT = Some a1 ->
    let rid := global_row_id (q_db q1) in
    rooms n (index t1) (index a1) rid /\ 0 <= rid /\ rid + 2 * Z.of_nat n < 2 ^ 64.

(** A saved text is read back line by line; the rows of other texts stay. *)
Lemma save_then_select q t a content log pid pid' name kind lines :
  objects q t a content log -> is_u64 pid -> literal name -> literal kind ->
  Forall (fun line => literal line /\ bytes (insert_text name kind line)) lines ->
  (forall n, (n <= size content)%nat -> room_for n (index a) (global_row_id (q_db q))) ->
  room_after_delete q name kind (length lines) pid -> all_texts content ->
  let others := filter (fun kr => ~ entry name kind kr.2) content in
  exists q1 t1 a1 log1 new, save_text name kind lines pid q = Done (q1, tt) /\
    objects q1 t1 a1 (put_rows others new) log1 /\ q_caps q1 = q_caps q /\
    Forall2 (fun kr line => entry name kind kr.2 /\ text_at kr.2 3 = Some line) new lines /\
    exists q2 r, execute (select_text name kind) pid' q1 = Done (q2, Some r) /\ error_code r = VOS_OK /\
      rows r = new.*2 /\ map (fun row => field row 3) (rows r) = map (fun line => str_field (line ++ [0])) lines /\
      tables (q_db q2) = tables (q_db q1) /\ q_caps q2 = q_caps q1 /\ db_ok (q_db q2).
Proof.
  intros Ho Hp Hn Hk Hls Hroom Hafter Htx others. pose proof Ho as [J1 J2 J3 J4 J5 J6 J7].
  assert (sch_table_id (schema t) = Z.of_nat 3) as Hid by (by rewrite J4).
  destruct (delete_statement mem clock stack Hmem Hclock (delete_text name kind) pid q object_table (stored_conds stack name kind) 3 t content a log
    Hp J1 (delete_text_parse stack name kind Hn Hk) J2 J3 Hid J5 ltac:(discriminate) J6 J7 Hroom)
    as (q0 & r0 & t0 & a0 & l0 & times0 & Ex & _ & Et & Es & Eas & Ht0 & _ & _ & _ & Ha0 & Hok0 & Hcap0 & _).
  assert (objects q0 t0 a0 others (logged pid "DELETE" (global_row_id (q_db q)) (map row_id (matching (schema t) (stored_conds stack name kind) l0.*2)) times0 log)) as Ho0.
  { eapply objects_update; [exact Ho|exact Et|exact Es|exact Eas|exact Hok0| |exact Ha0].
    rewrite J4 in Ht0. match type of Ht0 with table_is _ _ ?m => assert (others = m) as ->; [|exact Ht0] end.
    apply map_filter_ext. intros k rec L. symmetry. destruct (Htx k rec L) as [X1 X2]. cbn [snd].
    rewrite (stored_conds_entry stack rec name kind Hn Hk X1 X2). apply bool_decide_eq_false. }
  assert (Forall literal lines) as Hlit by (apply (Forall_impl _ _ _ Hls); by intros line []).
  destruct (Hafter q0 (Some r0) t0 a0 Ex (ob_at _ _ _ _ _ Ho0) (ob_audit _ _ _ _ _ Ho0)) as (Hr & Hr0 & Hr64).
  destruct (run_all_inserts pid name kind Hp Hn Hk lines q0 t0 a0 others _ Hls Ho0 Hr Hr0 Hr64) as (q1 & t1 & a1 & times & log1 & Er & Hlen & Ho1 & Hcap1).
  destruct (line_rows_spec pid name kind Hn Hk lines times (global_row_id (q_db q0)) Hlit Hlen) as (S1 & _ & S3 & S4).
  set (new := line_rows (global_row_id (q_db q0)) pid name kind lines times) in *.
  exists q1, t1, a1, log1, new. split; [unfold save_text, bind; by rewrite Ex|]. split; [exact Ho1|]. split; [congruence|].
  split; [exact S3|]. pose proof Ho1 as [K1 K2 K3 K4 K5 K6 K7].
  destruct (select_statement mem clock stack (select_text name kind) pid' q1 object_table (stored_conds stack name kind) 3 t1 (put_rows others new)
    Hmem K1 K3 ltac:(by rewrite K4) (proj1 K6) (select_text_parse stack name kind Hn Hk) K2)
    as (q2 & r & l & Ex2 & Ec2 & _ & Erows & Sl & Pl & Et2 & Ec & Hok2 & _).
  rewrite K4 in Erows. rewrite (matching_new object_schema (stored_conds stack name kind) others new l S1) in Erows; [|..|exact Sl|exact Pl].
  2:{ apply (Forall2_Forall_l _ _ _ _ S3), Forall_forall. intros line _ kr [Hent _].
      rewrite (stored_conds_entry stack kr.2 name kind Hn Hk (mk_is_Some _ _ (proj1 Hent)) (mk_is_Some _ _ (proj2 Hent))). by apply bool_decide_eq_true. }
  2:{ intros k rec Hk'. unfold others in Hk'. apply map_lookup_filter_Some in Hk' as [L Hm]. destruct (Htx k rec L) as [X1 X2].
      rewrite (stored_conds_entry stack rec name kind Hn Hk X1 X2). by apply bool_decide_eq_false. }
  exists q2, r. split; [exact Ex2|]. split; [exact Ec2|]. split; [exact Erows|]. split; [rewrite Erows; exact S4|]. split; [exact Et2|]. by split.
Qed.
End store.

(** ** Witnesses: the empty system tables *)

Definition one_entry (k' : Z) (v : encrypted_record) (k : Z) : btree encrypted_record :=
  BTree (BNode (k' :: replicate 62 0) (Some v :: replicate 62 None) (replicate 64 None) 1 true) 1 k.

Lemma insert_init k k' (v : encrypted_record) t' : btree_insert (btree_init k) k' v = Done t' -> t' = one_entry k' v k.
Proof. intros E. vm_compute in E. injection E as <-. reflexivity. Qed.

Lemma room_one (v : encrypted_record) k k' rid : k' <> rid -> is_u64 rid -> room_for 1 (one_entry k' v k) rid.
Proof. intros Hne Hu. split; [exact I|]. split; [|by split]. cbn. rewrite list_elem_of_singleton. congruence. Qed.

Lemma room_init k rid : is_u64 rid -> room_for 1 (btree_init (V := encrypted_record) k) rid.
Proof. intros Hu. split; [exact I|]. split; [apply not_elem_of_nil|by split]. Qed.

Lemma rooms_init : rooms 2 (btree_init 3) (btree_init 5) 1.
Proof.
  assert (is_u64 1 /\ is_u64 2 /\ is_u64 3 /\ is_u64 4) as (U1 & U2 & U3 & U4) by (unfold is_word; lia).
  cbn [rooms]. change (u64 (1 + 1)) with 2. change (u64 (2 + 1)) with 3. change (u64 (3 + 1)) with 4.
  split; [by apply room_init|]. split; [by apply room_init|]. intros v t' v' a' ->%insert_init ->%insert_init.
  split; [by apply room_one|]. split; [by apply room_one|]. done.
Qed.

Definition sys_state : q_state := Q sys_db boot_caps 0.

Lemma sys_named : db_get_schema sys_db object_table = Some 3%nat.
Proof. vm_compute. reflexivity. Qed.

Lemma sys_objects_state : objects sys_state (sys_table 3) (sys_table 5) ∅ ∅.
Proof.
  constructor; cbn [sys_state q_db]; [apply sys_db_ok|apply sys_named|apply sys_table_at; lia|apply sys_objects_schema|apply (sys_table_at 5); lia| |].
  - apply empty_is, (sys_table_index 3). lia.
  - apply empty_is, (sys_table_index 5). lia.
Qed.

Lemma sys_delete_room (n : nat) : (n <= size (∅ : gmap Z record))%nat -> room_for n (index (sys_table 5)) (global_row_id (q_db sys_state)).
Proof. intros Hn. rewrite map_size_empty in Hn. destruct n; [done|lia]. Qed.

Lemma sys_room_after name kind pid : literal name -> literal kind -> is_u64 pid ->
  room_after_delete all_ok noon zero_stack sys_state name kind 2 pid.
Proof.
  intros Hn Hk Hp q1 r t1 a1 Ex L1 L2. pose proof sys_objects_state as [J1 J2 J3 J4 J5 J6 J7].
  destruct (delete_statement all_ok noon zero_stack (fun _ _ => eq_refl) noon_u64 (delete_text name kind) pid sys_state object_table
    (stored_conds zero_stack name kind) 3 (sys_table 3) ∅ (sys_table 5) ∅ Hp J1 (delete_text_parse zero_stack name kind Hn Hk) J2 J3
    ltac:(by rewrite J4) J5 ltac:(discriminate) J6 J7 sys_delete_room)
    as (q' & r' & t' & a' & l & times & Ex' & _ & _ & _ & _ & _ & _ & Hl & _ & _ & _ & _ & Hsame).
  rewrite Ex' in Ex. injection Ex as <- _. rewrite map_to_list_empty in Hl. symmetry in Hl. apply Permutation_nil_l in Hl. subst l.
  destruct (Hsame eq_refl) as [Et Eg]. rewrite Et in L1, L2. rewrite J3 in L1. rewrite J5 in L2. injection L1 as <-. injection L2 as <-.
  rewrite Eg. cbn [sys_state q_db]. rewrite sys_row_id, !sys_table_index by lia. split; [exact rooms_init|lia].
Qed.
