(* ===== verification/SqlSpec.v ===== *)
(** * The meaning of SELECT and INSERT

    Conditions and rows as SQL means them, apart from the parser and the
    matcher: statements are abstract syntax with a text, conditions are
    evaluated on numbers and on the alphabetical order of texts, and the row of
    an INSERT is given column by column. *)

From Stdlib Require Import String Sorted.
From stdpp Require Import gmap.
From S2P Require Import Prelude CLib Errors Random Sha256 Hmac Aes Record Btree BtreeSpec Cap Database DatabaseSpec Printf Query QuerySpec QueryWrites Friendly FriendlySpec Stored.

(** ** Statements *)

Inductive sql_op := IsEq | IsNe | IsLt | IsGt | IsLe | IsGe.

(** Numbers are given by their decimal digits. *)
Inductive sql_lit := LNum (ds : list Z) | LText (s : list Z).

Record sql_cond := SqlCond { c_col : list Z; c_op : sql_op; c_lit : sql_lit }.

Definition op_text (op : sql_op) : list Z :=
  match op with IsEq => cs "=" | IsNe => cs "!=" | IsLt => cs "<" | IsGt => cs ">" | IsLe => cs "<=" | IsGe => cs ">=" end.

Definition lit_text (l : sql_lit) : list Z := match l with LNum ds => dec_chars ds | LText s => 39 :: s ++ [39] end.

Definition cond_text (c : sql_cond) : list Z := c_col c ++ [32] ++ op_text (c_op c) ++ [32] ++ lit_text (c_lit c).

Fixpoint separated (sep : list Z) (l : list (list Z)) : list Z :=
  match l with
  | [] => []
  | x :: l => x ++ match l with [] => [] | _ => sep ++ separated sep l end
  end.

Definition select_sql (table : list Z) (conds : list sql_cond) : list Z :=
  cs "SELECT * FROM " ++ table ++ match conds with [] => [] | _ => cs " WHERE " ++ separated (cs " AND ") (map cond_text conds) end.

Definition insert_sql (table : list Z) (values : list (list Z * sql_lit)) : list Z :=
  cs "INSERT INTO " ++ table ++ cs " (" ++ separated (cs ", ") (map fst values) ++
  cs ") VALUES (" ++ separated (cs ", ") (map (fun v => lit_text (snd v)) values) ++ cs ")".

(** Literals the tokenizer reads whole: numbers below 2^64 of at most 20
    digits, texts of less than 255 characters without apostrophe. *)
Definition lit_ok (l : sql_lit) : Prop :=
  match l with
  | LNum ds => Forall is_digit ds /\ ds <> [] /\ (length ds <= 20)%nat /\ dec_value ds < 2 ^ 64
  | LText s => literal s /\ bytes s
  end.

(** ** What a condition says of a row *)

(** The alphabetical order, by the codes of the characters. *)
Fixpoint text_order (a b : list Z) : comparison :=
  match a, b with
  | [], [] => Eq
  | [], _ => Lt
  | _, [] => Gt
  | x :: a, y :: b => match x ?= y with Eq => text_order a b | o => o end
  end.

Definition op_holds (op : sql_op) (o : comparison) : bool :=
  match op, o with
  | IsEq, Eq | IsNe, Lt | IsNe, Gt | IsLt, Lt | IsGt, Gt | IsLe, Lt | IsLe, Eq | IsGe, Gt | IsGe, Eq => true
  | _, _ => false
  end.

(** The first column of a name, the case of the letters being ignored. *)
Definition column_at (sch : table_schema) (name : list Z) : option nat :=
  fst <$> list_find (fun c => map toupper (cstr (col_name c)) = map toupper name) (columns sch).

(** A condition on a column the table does not have, or with a literal that
    does not fit what the column holds, holds of no row. *)
Definition cond_holds (sch : table_schema) (rec : record) (c : sql_cond) : bool :=
  match column_at sch (c_col c) with
  | None => false
  | Some i =>
      match field rec i, c_lit c with
      | FU64 v, LNum ds => op_holds (c_op c) (v ?= dec_value ds)
      | FStr data _, LText s => op_holds (c_op c) (text_order (cstr data) s)
      | _, _ => false
      end
  end.

(** The one mixture that is left open: a number of the table compared with a
    text. *)
Definition cond_fits (sch : table_schema) (rec : record) (c : sql_cond) : Prop :=
  match column_at sch (c_col c), c_lit c with
  | Some i, LText _ => match field rec i with FU64 _ => False | _ => True end
  | _, _ => True
  end.

Definition cond_ok (c : sql_cond) : Prop := is_name (c_col c) = true /\ lit_ok (c_lit c).

(** The table a name denotes: the first of that name. *)
Definition table_named (ts : list db_table) (name : list Z) (id : nat) (t : db_table) : Prop :=
  let named t' := map toupper (cstr (sch_name (schema t'))) = map toupper name in
  ts !! id = Some t /\ named t /\ forall j t', (j < id)%nat -> ts !! j = Some t' -> ~ named t'.

(** ** Names and orders *)

Lemma find_col_at cols name i :
  find_col cols name i = (fun jc => i + fst jc)%nat <$> list_find (fun c => map toupper (cstr (col_name c)) = map toupper (cstr name)) cols.
Proof.
  revert i. induction cols as [|c cols IH]; intros i; [done|]. cbn [find_col list_find].
  destruct (decide (map toupper (cstr (col_name c)) = map toupper (cstr name))) as [E|E].
  - rewrite (proj2 (Z.eqb_eq _ _) (proj2 (strcasecmp_0 _ _) E)). cbn. by rewrite Nat.add_0_r.
  - destruct (Z.eqb_spec (strcasecmp (col_name c) name) 0) as [E'%strcasecmp_0|_]; [done|]. rewrite IH.
    destruct (list_find _ cols) as [[j d]|]; [|done]. cbn. f_equal. lia.
Qed.

Lemma find_column_at sch name : find_column_index sch name = column_at sch (cstr name).
Proof. unfold find_column_index, column_at. rewrite find_col_at. by destruct (list_find _ _) as [[j d]|]. Qed.

Lemma find_schema_at ts name i : find_schema ts name i =
  (fun jt => i + fst jt)%nat <$> list_find (fun t => map toupper (cstr (sch_name (schema t))) = map toupper (cstr name)) ts.
Proof.
  revert i. induction ts as [|c ts IH]; intros i; [done|]. cbn [find_schema list_find].
  destruct (decide (map toupper (cstr (sch_name (schema c))) = map toupper (cstr name))) as [E|E].
  - rewrite (proj2 (Z.eqb_eq _ _) (proj2 (strcasecmp_0 _ _) E)). cbn. by rewrite Nat.add_0_r.
  - destruct (Z.eqb_spec (strcasecmp (sch_name (schema c)) name) 0) as [E'%strcasecmp_0|_]; [done|]. rewrite IH.
    destruct (list_find _ ts) as [[j d]|]; [|done]. cbn. f_equal. lia.
Qed.

Lemma table_named_get st name id t : is_name name = true -> table_named (tables st) name id t -> db_get_schema st (name ++ [0]) = Some id.
Proof.
  intros Hn (L & E & Hf). unfold db_get_schema. rewrite find_schema_at, cstr_app_0.
  2: { apply (Forall_impl _ _ _ (proj2 (name_solid name Hn))). by intros c []. }
  assert (list_find (fun t => map toupper (cstr (sch_name (schema t))) = map toupper name) (tables st) = Some (id, t)) as ->; [|done].
  apply list_find_Some. split; [done|]. split; [done|]. intros j y Hj Hlt. by eapply Hf.
Qed.

(** [strcmp] orders texts alphabetically. *)
Lemma strcmp_order a b : Forall (fun c => 0 <= c) a -> Forall (fun c => 0 <= c) b -> (strcmp a b ?= 0) = text_order (cstr a) (cstr b).
Proof.
  intros Ha. revert b. induction Ha as [|x a Hx Ha IH]; intros b Hb; cbn [strcmp].
  - destruct Hb as [|y b Hy Hb]; [done|]. cbn [chr hd]. unfold cstr. cbn [strlen take]. destruct (Z.eqb_spec y 0) as [->|Hy0]; [done|].
    cbn [take text_order]. apply Z.compare_lt_iff. lia.
  - unfold cstr at 1. cbn [strlen]. destruct (Z.eqb_spec x 0) as [->|Hx0]; cbn [negb andb take].
    + destruct Hb as [|y b Hy Hb]; [done|]. cbn [chr hd]. unfold cstr. cbn [strlen]. destruct (Z.eqb_spec y 0) as [->|Hy0]; [done|].
      cbn [take text_order]. apply Z.compare_lt_iff. lia.
    + fold (cstr a). destruct Hb as [|y b Hy Hb]; cbn [chr hd next tl].
      * rewrite (proj2 (Z.eqb_neq _ _) Hx0). cbn [text_order]. apply Z.compare_gt_iff. lia.
      * unfold cstr at 2. cbn [strlen]. destruct (Z.eqb_spec y 0) as [->|Hy0].
        -- rewrite (proj2 (Z.eqb_neq _ _) Hx0). cbn [take text_order]. apply Z.compare_gt_iff. lia.
        -- cbn [take text_order]. fold (cstr b). destruct (Z.compare_spec x y) as [->|H|H].
           ++ rewrite Z.eqb_refl. by apply IH.
           ++ rewrite (proj2 (Z.eqb_neq _ _)) by lia. apply Z.compare_lt_iff. lia.
           ++ rewrite (proj2 (Z.eqb_neq _ _)) by lia. apply Z.compare_gt_iff. lia.
Qed.

(** ** Reading the statements back *)

Definition cmp_of (op : sql_op) : cmp_op :=
  match op with IsEq => CMP_EQ | IsNe => CMP_NEQ | IsLt => CMP_LT | IsGt => CMP_GT | IsLe => CMP_LE | IsGe => CMP_GE end.

Lemma compare_op op a b : compare_with (cmp_of op) a b = op_holds op (a ?= b).
Proof.
  destruct op; cbn [cmp_of compare_with]; destruct (Z.compare_spec a b); cbn [op_holds];
    rewrite ?Z.eqb_eq, ?Z.ltb_lt, ?Z.leb_le; lia.
Qed.

Lemma token_op p op r : rest p = [32] ++ op_text op ++ [32] ++ r ->
  rest (next_token p) = [32] ++ r /\ parse_op (next_token p) = (next_token (next_token p), cmp_of op).
Proof.
  intros E. set (n := length (op_text op)).
  assert (exists t v, lex (tok_value p) (op_text op ++ [32] ++ r) = (t, v, n) /\
    forall q, tok_type q = t -> parse_op q = (next_token q, cmp_of op)) as (t & v & Hl & Ho).
  { subst n. destruct op; eexists _, _; (split; [reflexivity|]); intros q Hq; unfold parse_op; by rewrite Hq. }
  destruct (token p [32] (op_text op ++ [32] ++ r) t v n) as [E1 R1]; [done|by right|destruct op; by right|done|].
  split; [|apply Ho; by rewrite E1]. rewrite R1. subst n. apply drop_app_length.
Qed.

Lemma digits_facts ds : Forall is_digit ds -> Forall (fun c => isdigit c = true) (dec_chars ds) /\ Forall (fun c => c <> 0) (dec_chars ds) /\ bytes (dec_chars ds).
Proof.
  intros H. unfold dec_chars. rewrite !Forall_fmap. split_and!; apply (Forall_impl _ _ _ H); intros d; unfold is_digit; cbn;
    [unfold isdigit|..]; try lia. unfold is_word. lia.
Qed.

Lemma token_digits p sp ds r : rest p = sp ++ dec_chars ds ++ r -> sp = [] \/ sp = [32] -> Forall is_digit ds -> ds <> [] -> (length ds <= 20)%nat ->
  isdigit (chr r) = false ->
  tok_type (next_token p) = TOK_NUMBER /\ tok_value (next_token p) = dec_chars ds ++ [0] /\ rest (next_token p) = r.
Proof.
  intros E Hsp Hd Hne Hl Hr. destruct (digits_facts ds Hd) as (Hc & _ & _).
  assert (dec_chars ds <> []) as Hne' by (by destruct ds).
  assert (chr (dec_chars ds ++ r) = 0 \/ isspace (chr (dec_chars ds ++ r)) = false) as Hs.
  { right. destruct ds as [|d ds]; [done|]. apply Forall_cons in Hd as [Hd _]. cbn. unfold is_digit, isspace in *. lia. }
  destruct (token p sp (dec_chars ds ++ r) TOK_NUMBER (dec_chars ds ++ [0]) (length (dec_chars ds))) as [E1 R1];
    [done|done|done|apply lex_number; [done|done|unfold dec_chars; by rewrite length_map|done]|].
  rewrite R1, E1, drop_app_length. done.
Qed.

Section parsing.
Context (stack : nat -> nat -> list Z).

(** The value of a literal in a condition. *)
Definition lit_value (a i : nat) (l : sql_lit) : field_value :=
  match l with
  | LNum ds => FU64 (dec_value ds)
  | LText s => FStr (strncpy (stack a i) (s ++ [0]) MAX_STR_LEN) (u16 (Z.of_nat (strlen (s ++ [0]))))
  end.

Definition cond_of (i : nat) (c : sql_cond) : where_cond :=
  Cond (column_cells stack A_COND_COLUMN i (c_col c ++ [0])) (cmp_of (c_op c)) (lit_value A_COND_STR i (c_lit c)).

Fixpoint conds_of (i : nat) (conds : list sql_cond) : list where_cond :=
  match conds with [] => [] | c :: conds => cond_of i c :: conds_of (S i) conds end.

Lemma strtou64_lit ds : Forall is_digit ds -> ds <> [] -> dec_value ds < 2 ^ 64 -> fst (strtou64 (dec_chars ds ++ [0]) 10) = dec_value ds.
Proof.
  intros Hd Hne Hv. rewrite strtou64_dec by done. cbn [fst]. apply wrap_small. unfold is_word. split; [|done].
  unfold dec_value. assert (forall ds acc, Forall is_digit ds -> 0 <= acc -> 0 <= foldl (fun v d => v * 10 + d) acc ds) as H; [|by apply H].
  intros l. induction l as [|d l IH]; intros acc Hl Ha; [done|]. cbn [foldl]. apply Forall_cons in Hl as [H1 H2]. apply IH; [done|]. unfold is_digit in H1. lia.
Qed.

Lemma lit_token p l r a i : rest p = [32] ++ lit_text l ++ r -> lit_ok l -> isdigit (chr r) = false ->
  parse_value stack a i (next_token p) = Some (lit_value a i l) /\ rest (next_token p) = r.
Proof.
  intros E Hl Hr. unfold parse_value. destruct l as [ds|s]; cbn [lit_text lit_ok lit_value] in *.
  - destruct Hl as (Hd & Hne & Hlen & Hv). destruct (token_digits p [32] ds r E) as (-> & -> & R); [by right|done..|].
    by rewrite strtou64_lit.
  - destruct Hl as [Hl _]. cbn [app] in E. rewrite <- app_assoc in E. destruct (token_string p [32] s r E) as (-> & -> & R); [by right|done|]. done.
Qed.

(** One condition, with what follows it. *)
Lemma cond_step room i p c r :
  tok_type p = TOK_IDENT -> tok_value p = c_col c ++ [0] -> rest p = [32] ++ op_text (c_op c) ++ [32] ++ lit_text (c_lit c) ++ r ->
  lit_ok (c_lit c) -> isdigit (chr r) = false ->
  exists p1, rest p1 = r /\ where_loop stack (S room) i p =
    if is_tok (next_token p1) TOK_AND
    then let '(p', conds) := where_loop stack room (S i) (next_token (next_token p1)) in (p', cond_of i c :: conds)
    else (next_token p1, [cond_of i c]).
Proof.
  intros Ht Hv Hr Hl Hd. cbn [where_loop]. rewrite (is_tok_eq p _ _ Ht), bool_decide_true by done. cbn [negb].
  destruct (token_op p (c_op c) _ Hr) as [R1 ->].
  destruct (lit_token (next_token p) (c_lit c) r A_COND_STR i R1 Hl Hd) as [-> R2].
  exists (next_token (next_token p)). rewrite Hv. done.
Qed.

Lemma where_conds conds : Forall cond_ok conds -> conds <> [] -> forall room i p, (length conds <= room)%nat ->
  rest p = [32] ++ separated (cs " AND ") (map cond_text conds) ->
  snd (where_loop stack room i (next_token p)) = conds_of i conds.
Proof.
  induction 1 as [|c conds [Hc Hl] Hok IH]; intros Hne room i p Hroom Hr; [done|]. destruct room as [|room]; [cbn in Hroom; lia|].
  cbn [map separated] in Hr. unfold cond_text in Hr at 1. rewrite <- !app_assoc in Hr.
  destruct (token_name p [32] (c_col c) _ Hc Hr) as (T1 & V1 & R1); [by right|done|].
  destruct conds as [|c' conds].
  - destruct (cond_step room i (next_token p) c [] T1 V1 R1 Hl eq_refl) as (p1 & R2 & ->).
    by rewrite (is_tok_eq _ _ _ (token_end p1 [] R2 eq_refl)), bool_decide_false.
  - cbn [map] in R1. set (more := separated (cs " AND ") (cond_text c' :: map cond_text conds)) in *.
    destruct (cond_step room i (next_token p) c (cs " AND " ++ more) T1 V1 R1 Hl eq_refl) as (p1 & R2 & ->).
    destruct (token_keyword p1 [32] "AND" ([32] ++ more) TOK_AND) as [T3 R3]; [by rewrite R2|by right|by vm_compute|done|].
    rewrite (is_tok_eq _ _ _ T3), bool_decide_true by done.
    specialize (IH ltac:(done) room (S i) (next_token p1) ltac:(cbn in *; lia) R3). destruct (where_loop stack room (S i) _). cbn [snd conds_of] in *. by rewrite IH.
Qed.

(** A SELECT reads back as its table and its conditions. *)
Lemma select_sql_parse name conds : is_name name = true -> Forall cond_ok conds -> (length conds <= MAX_WHERE_CONDS)%nat ->
  select_query stack (select_sql name conds) = Some (name ++ [0], conds_of 0 conds).
Proof.
  intros Hn Hok Hlen. destruct conds as [|c conds].
  - unfold select_sql. rewrite app_nil_r. unfold select_query. set (p0 := Parser _ _ _ _).
    destruct (token_keyword p0 [] "SELECT" (cs " * FROM " ++ name) TOK_SELECT) as [T1 R1]; [done|by left|by vm_compute|done|].
    rewrite (is_tok_eq _ _ _ T1), bool_decide_true by done. cbn [negb].
    destruct (token (next_token p0) [32] ([42] ++ cs " FROM " ++ name) TOK_STAR [42; 0] 1) as [E2 R2]; [by rewrite R1|by right|by right|done|].
    apply (f_equal tok_type) in E2. cbn [tok_type] in E2. rewrite (is_tok_eq _ _ _ E2), bool_decide_true by done.
    destruct (token_keyword (next_token (next_token p0)) [32] "FROM" ([32] ++ name) TOK_FROM) as [T3 R3]; [by rewrite R2|by right|by vm_compute|done|].
    rewrite (expect_tok _ _ T3).
    destruct (token_name (next_token (next_token (next_token p0))) [32] name [] Hn) as (T4 & V4 & R4); [by rewrite R3, app_nil_r|by right|done|].
    rewrite (is_tok_eq _ _ _ T4), bool_decide_true, V4 by done. unfold parse_where.
    by rewrite (is_tok_eq _ _ _ (token_end _ [] R4 eq_refl)), bool_decide_false.
  - destruct (select_where stack name ([32] ++ separated (cs " AND ") (map cond_text (c :: conds))) Hn eq_refl) as (p & T & R & E).
    unfold select_sql. etransitivity; [exact E|]. unfold parse_where. rewrite (is_tok_eq _ _ _ T), bool_decide_true by done. cbn [negb].
    by rewrite (where_conds (c :: conds)).
Qed.

(** ** The matcher decides the conditions *)

Lemma name_column sch a i w : is_name w = true -> find_column_index sch (column_cells stack a i (w ++ [0])) = column_at sch w.
Proof.
  intros Hw. assert (Forall (fun c => c <> 0) w) as Hz by (apply (Forall_impl _ _ _ (proj2 (name_solid w Hw))); by intros c []).
  destruct (is_name_facts w Hw) as (_ & _ & _ & _ & _ & Hl & _).
  rewrite find_column_at. unfold column_cells. destruct (strncpy_short (stack a i) w (MAX_COLUMN_NAME - 1) Hz) as [t ->]; [unfold MAX_COLUMN_NAME; lia|].
  by rewrite cstr_app_0.
Qed.

Lemma cond_decided sch rec i c : wf_record rec -> cond_ok c -> cond_fits sch rec c ->
  match find_column_index sch (cond_column (cond_of i c)) with
  | Some j => match_field (field rec j) (cond_op (cond_of i c)) (cond_value (cond_of i c))
  | None => false
  end = cond_holds sch rec c.
Proof.
  intros Hw [Hc Hl] Hf. unfold cond_holds, cond_fits in *. cbn [cond_of cond_column cond_op cond_value]. rewrite name_column by done.
  destruct (column_at sch (c_col c)) as [j|]; [|done]. destruct (c_lit c) as [ds|s]; cbn [lit_value].
  - destruct (field rec j); cbn [match_field]; try done. apply compare_op.
  - destruct Hl as [Hl Hb]. pose proof (literal_nonzero s Hl) as Hz.
    destruct (field rec j) as [v|v|d n|d n|v|v|v] eqn:Ef; cbn [match_field]; try done.
    destruct (strncpy_short (stack A_COND_STR i) s MAX_STR_LEN Hz (proj2 Hl)) as [t Et].
    (* only the characters before the terminator are compared *)
    assert (strcmp d (strncpy (stack A_COND_STR i) (s ++ [0]) MAX_STR_LEN) = strcmp d (s ++ [0])) as ->.
    { rewrite Et. clear. revert s. induction d as [|x d IH]; intros s; cbn [strcmp]; [by destruct s|].
      destruct s as [|y s]; cbn [app chr hd next tl]; [|by rewrite IH]. by destruct (x =? 0). }
    rewrite compare_op, strcmp_order, cstr_app_0; [done|done| |].
    + assert (wf_field (field rec j)) as Hwf.
      { assert (Forall wf_field (fields rec)) as Hfs.
        { rewrite (wf_fields _ Hw). apply Forall_app. split; [apply Hw|]. apply Forall_replicate, slim_zero. }
        unfold field. apply (proj1 (List.Forall_nth wf_field (fields rec)) Hfs). destruct (decide (j < length (fields rec))%nat); [done|]. unfold field in Ef. rewrite nth_overflow in Ef by lia. discriminate Ef. }
      rewrite Ef in Hwf. destruct Hwf as (s' & _ & _ & Hs' & ->). apply Forall_app. split; [|by apply Forall_replicate].
      apply (Forall_impl _ _ _ Hs'). unfold is_word. lia.
    + apply Forall_app. split; [|by repeat constructor]. apply (Forall_impl _ _ _ Hb). unfold is_word. lia.
Qed.

Lemma conds_decided sch rec conds : wf_record rec -> Forall cond_ok conds -> Forall (cond_fits sch rec) conds ->
  forall i, record_matches rec sch (conds_of i conds) = forallb (cond_holds sch rec) conds.
Proof.
  intros Hw Hok Hf. induction Hok as [|c conds Hc Hok IH]; intros i; [done|]. apply Forall_cons in Hf as [Hf1 Hf]. cbn [conds_of record_matches forallb].
  rewrite <- (cond_decided sch rec i c Hw Hc Hf1), <- (IH Hf (S i)). destruct (find_column_index _ _); [|done]. by destruct (match_field _ _ _).
Qed.
End parsing.

(** ** SELECT *)

Section select.
Context `{Hw, AesNi, !HwLaws, !AesNiLaws}.
Context (mem : nat -> nat -> bool) (clock : nat -> Z) (stack : nat -> nat -> list Z).

Lemma content_wf id t content k rec : table_holds id t content -> content !! k = Some rec -> wf_record rec.
Proof. intros Hh L. specialize (Hh k). rewrite L in Hh. destruct (abs (index t) !! k); [|done]. by destruct Hh as (? & ? & ? & ? & ? & ? & ?). Qed.

End select.

(** A row selected by two conditions. *)
Definition demo_where : list sql_cond := [SqlCond (cs "obj_id") IsLe (LNum [7]); SqlCond (cs "Name") IsNe (LText (cs "zz"))].

Lemma one_row_named : table_named (tables one_row_db) (cs "objecttable") 3 one_row_table.
Proof.
  split; [apply one_row_at|]. split; [rewrite one_row_schema; vm_compute; reflexivity|]. intros j t' Hj L.
  unfold one_row_db in L. rewrite with_tables_tables, list_lookup_insert_ne in L by lia. rewrite sys_table_at in L by lia. injection L as <-.
  destruct j as [|[|[|j]]]; [vm_compute; discriminate..|lia].
Qed.

Lemma demo_where_ok : Forall cond_ok demo_where.
Proof.
  assert (is_digit 7) by (unfold is_digit; lia).
  repeat constructor; try (vm_compute; reflexivity); try done; try lia; try (cbn; lia); try (unfold is_word; lia).
Qed.

Lemma demo_where_fits k rec : ({[7 := sample_record]} : gmap Z record) !! k = Some rec -> Forall (cond_fits (schema one_row_table) rec) demo_where.
Proof. rewrite one_row_schema. intros [<- <-]%lookup_singleton_Some. repeat constructor. Qed.


(** A ninth condition is dropped without notice. *)
Example ninth_condition_ignored :
  let eight := replicate 8 (SqlCond (cs "obj_id") IsGe (LNum [1])) in
  select_query zero_stack (select_sql (cs "ObjectTable") (eight ++ [SqlCond (cs "name") IsEq (LText (cs "tmp"))])) =
  select_query zero_stack (select_sql (cs "ObjectTable") eight).
Proof. vm_compute. reflexivity. Qed.

(** ** INSERT

    What a column of the new row holds. *)
Inductive cell := Num64 (n : Z) | Num32 (n : Z) | Text (s : list Z) | Blank.

Definition shows (f : field_value) (c : cell) : Prop :=
  match c with
  | Num64 n => f = FU64 n
  | Num32 n => f = FU32 n
  | Text s => exists data, f = FStr data (Z.of_nat (length s)) /\ cstr data = s
  | Blank => f = zero_field
  end.

(** A literal in a column: numbers as the column stores them, or as their
    digits where it does not store numbers. *)
Definition lit_cell (ty : column_type) (l : sql_lit) : cell :=
  match l, ty with
  | LText s, _ => Text s
  | LNum ds, COL_U64 => Num64 (dec_value ds)
  | LNum ds, COL_U32 => Num32 (dec_value ds mod 2 ^ 32)
  | LNum ds, _ => Text (dec_chars ds)
  end.

Definition type_at (sch : table_schema) (j : nat) : column_type := from_option col_type COL_STR (columns sch !! j).

(** The value a statement gives to column [j]: the last one that names it. *)
Definition given (sch : table_schema) (values : list (list Z * sql_lit)) (j : nat) : option sql_lit :=
  foldl (fun acc v => if decide (column_at sch (fst v) = Some j) then Some (snd v) else acc) None values.

(** The columns [owner_pid] and [created] are the process and the time; the
    others are what the statement gives, the row's number in a primary key that
    stands first, and nothing otherwise. *)
Definition stored_cell (sch : table_schema) (values : list (list Z * sql_lit)) (rid pid now : Z) (j : nat) : cell :=
  if decide (column_at sch (cs "created") = Some j) then Num64 now
  else if decide (column_at sch (cs "owner_pid") = Some j) then Num64 pid
  else match given sch values j with
       | Some l => lit_cell (type_at sch j) l
       | None => if (j =? 0)%nat && from_option primary_key false (columns sch !! O) then Num64 rid else Blank
       end.

(** A column [size] is the length of the text in the column [data], where the
    table has both. *)
Definition row_cell (sch : table_schema) (values : list (list Z * sql_lit)) (rid pid now : Z) (j : nat) : cell :=
  match column_at sch (cs "size"), column_at sch (cs "data") with
  | Some i, Some d =>
      if (i =? j)%nat then Num64 (match stored_cell sch values rid pid now d with Text s => Z.of_nat (length s) | _ => 0 end)
      else stored_cell sch values rid pid now j
  | _, _ => stored_cell sch values rid pid now j
  end.

(** ** Building the row *)

Lemma column_at_bound sch name i : column_at sch name = Some i -> (i < length (columns sch))%nat.
Proof.
  unfold column_at. destruct (list_find _ _) as [[j c]|] eqn:E; [|done]. intros [= <-]. apply list_find_Some in E as (L & _).
  by eapply lookup_lt_Some.
Qed.

(** Columns of different names are different. *)
Lemma column_at_name sch a b i : column_at sch a = Some i -> column_at sch b = Some i -> map toupper a = map toupper b.
Proof.
  unfold column_at. intros ([j c] & Ea & ->)%fmap_Some ([k d] & Eb & Ek)%fmap_Some. cbn in Ek. subst k.
  apply list_find_Some in Ea as (La & Ha & _). apply list_find_Some in Eb as (Lb & Hb & _). congruence.
Qed.

Section rows.
Context (sch : table_schema).

(** The field a literal becomes. *)
Definition lit_field (j : nat) (l : sql_lit) : field_value :=
  match l, type_at sch j with
  | LText s, _ => str_field (s ++ [0])
  | LNum ds, COL_U64 => FU64 (dec_value ds)
  | LNum ds, COL_U32 => FU32 (u32 (dec_value ds))
  | LNum ds, _ => str_field (dec_chars ds ++ [0])
  end.

Lemma text_shows s : Forall (fun c => c <> 0) s -> (length s <= MAX_STR_LEN)%nat -> shows (str_field (s ++ [0])) (Text s).
Proof.
  intros Hz Hl. rewrite str_field_eq. assert (Record.str_text (s ++ [0]) = s) as ->.
  { unfold Record.str_text. rewrite cstr_app_0 by done. by apply take_ge. }
  eexists. split; [done|]. destruct (S MAX_STR_LEN - length s)%nat as [|k] eqn:E; [lia|]. cbn [replicate]. by apply cstr_app_0.
Qed.

Lemma lit_field_shows j l : lit_ok l -> shows (lit_field j l) (lit_cell (type_at sch j) l).
Proof.
  intros Hl. destruct l as [ds|s]; cbn [lit_ok] in Hl.
  - destruct Hl as (Hd & _ & Hlen & _). destruct (digits_facts ds Hd) as (_ & Hz & _).
    assert (shows (str_field (dec_chars ds ++ [0])) (Text (dec_chars ds))) as Hs
      by (apply text_shows; [done|unfold dec_chars, MAX_STR_LEN; rewrite length_map; lia]).
    unfold lit_field, lit_cell. by destruct (type_at sch j).
  - destruct Hl as [Hl _]. unfold lit_field, lit_cell. apply text_shows; [by apply literal_nonzero|destruct Hl; lia].
Qed.

Definition full (rec : record) : Prop := length (fields rec) = MAX_COLUMNS.

Lemma field_set rec i f j : full rec -> (i < MAX_COLUMNS)%nat -> field (set_field rec i f) j = if decide (i = j) then f else field rec j.
Proof.
  intros Hf Hi. unfold field, set_field. cbn [fields]. rewrite !nth_lookup. destruct (decide (i = j)) as [->|Hne].
  - rewrite list_lookup_insert_eq by (rewrite Hf; lia). done.
  - by rewrite list_lookup_insert_ne.
Qed.

Lemma set_full rec i f : full rec -> full (set_field rec i f).
Proof. intros Hf. unfold full, set_field. cbn [fields]. by rewrite length_insert. Qed.

Lemma blank_facts rid : let rec := blank_record sch rid in
  full rec /\ row_id rec = rid /\ table_id rec = sch_table_id sch /\
  forall j, shows (field rec j) (if (j =? 0)%nat && from_option primary_key false (columns sch !! O) then Num64 rid else Blank).
Proof.
  unfold blank_record. assert (forall r t n j, field (Rec r t (fields zero_record) n) j = zero_field) as Hz.
  { intros r t n j. unfold field, zero_record. cbn [fields]. rewrite nth_lookup. destruct (replicate _ zero_field !! j) as [f|] eqn:E; [|done].
    by apply lookup_replicate in E as [-> _]. }
  assert (full (Rec rid (sch_table_id sch) (fields zero_record) 0)) as Hf by (unfold full; reflexivity).
  destruct (columns sch) as [|c cols] eqn:Ec.
  { split; [done|]. split; [done|]. split; [done|]. intros j. cbn [lookup list_lookup from_option]. rewrite andb_false_r. apply Hz. }
  assert (find_column_index sch (col_name c) = Some O) as ->.
  { unfold find_column_index. rewrite Ec. cbn [find_col]. by rewrite (proj2 (Z.eqb_eq _ _) (proj2 (strcasecmp_0 _ _) eq_refl)). }
  cbn [lookup list_lookup from_option]. destruct (primary_key c).
  - unfold record_set_u64. cbn [Nat.leb MAX_COLUMNS]. split; [by apply set_full|]. split; [done|]. split; [done|]. intros j. rewrite andb_true_r.
    rewrite field_set by (done || (unfold MAX_COLUMNS; lia)). destruct (decide (0%nat = j)) as [<-|Hne]; [done|].
    rewrite (proj2 (Nat.eqb_neq _ _)) by lia. apply Hz.
  - split; [done|]. split; [done|]. split; [done|]. intros j. rewrite andb_false_r. apply Hz.
Qed.
Context (Hcols : (length (columns sch) <= MAX_COLUMNS)%nat).

(** The values of a statement, one after the other. *)
Fixpoint assign_all (values : list (list Z * sql_lit)) (rec : record) : option record :=
  match values with
  | [] => Some rec
  | (c, l) :: values =>
      match column_at sch c with
      | None => None
      | Some i => assign_all values (set_field rec i (lit_field i l))
      end
  end.

Lemma assign_all_fields values : Forall (fun v => lit_ok (snd v)) values -> forall rec,
  full rec ->
  match assign_all values rec with
  | None => exists v, v ∈ values /\ column_at sch (fst v) = None
  | Some rec' => full rec' /\ row_id rec' = row_id rec /\ table_id rec' = table_id rec /\ Forall (fun v => column_at sch (fst v) <> None) values /\
      forall j, match given sch values j with
                | Some l => shows (field rec' j) (lit_cell (type_at sch j) l)
                | None => field rec' j = field rec j
                end
  end.
Proof using Hcols.
  induction values as [|[c l] values IH] using rev_ind; intros Hok rec Hf; cbn [assign_all].
  { split; [done|]. split; [done|]. split; [done|]. split; [constructor|done]. }
  apply Forall_app in Hok as [Hok Hl]. apply Forall_cons in Hl as [Hl _]. specialize (IH Hok rec Hf).
  assert (forall vs rec, assign_all (vs ++ [(c, l)]) rec = match assign_all vs rec with
    | None => None | Some r => match column_at sch c with None => None | Some i => Some (set_field r i (lit_field i l)) end end) as ->.
  { clear. induction vs as [|[c' l'] vs IH]; intros rec; cbn [assign_all app]; [done|]. destruct (column_at sch c'); [apply IH|done]. }
  destruct (assign_all values rec) as [rec'|].
  2: { destruct IH as (v & Hv & Hc). exists v. split; [|done]. apply elem_of_app. by left. }
  destruct IH as (Hf' & Hr & Ht & Hk & Hj). destruct (column_at sch c) as [i|] eqn:Ec.
  2: { exists (c, l). split; [|done]. apply elem_of_app. right. by left. }
  pose proof (column_at_bound _ _ _ Ec) as Hi. split; [by apply set_full|]. split; [done|]. split; [done|].
  split; [apply Forall_app; split; [done|]; apply Forall_singleton; cbn; congruence|].
  intros j. unfold given. rewrite foldl_app. cbn [foldl fst snd]. fold (given sch values j). rewrite field_set by (done || lia). rewrite Ec.
  destruct (decide (i = j)) as [->|Hne].
  - rewrite decide_True by done. exact (lit_field_shows j l Hl).
  - rewrite decide_False by congruence. apply Hj.
Qed.

End rows.

(** ** The columns the engine fills *)

Section filling.
Context (sch : table_schema) (Hcols : (length (columns sch) <= MAX_COLUMNS)%nat).

Definition set_at (rec : record) (oi : option nat) (v : Z) : record := match oi with Some i => record_set_u64 rec i v | None => rec end.

Lemma set_at_facts rec name v : full rec -> field_count rec = Z.of_nat (length (columns sch)) ->
  let rec' := set_at rec (column_at sch name) v in
  full rec' /\ (row_id rec', table_id rec', field_count rec') = (row_id rec, table_id rec, field_count rec) /\
  forall j, field rec' j = if decide (column_at sch name = Some j) then FU64 v else field rec j.
Proof using Hcols.
  intros Hf Hn. unfold set_at. destruct (column_at sch name) as [i|] eqn:E; [|by split_and!].
  pose proof (column_at_bound _ _ _ E) as Hi. unfold record_set_u64. rewrite (proj2 (Nat.leb_gt _ _)) by lia.
  split; [by apply set_full|]. split; [unfold set_field; cbn; rewrite (proj2 (Z.leb_gt _ _)) by lia; done|]. intros j. rewrite field_set by (done || lia).
  destruct (decide (i = j)) as [->|Hne]; [by rewrite decide_True|by rewrite decide_False by congruence].
Qed.

Lemma fill_shows rec values rid pid now : full rec -> row_id rec = rid -> table_id rec = sch_table_id sch ->
  (forall j, shows (field rec j) (match given sch values j with
     | Some l => lit_cell (type_at sch j) l
     | None => if (j =? 0)%nat && from_option primary_key false (columns sch !! O) then Num64 rid else Blank end)) ->
  let rec' := fill_columns sch rec pid now in
  row_id rec' = rid /\ table_id rec' = sch_table_id sch /\ field_count rec' = Z.of_nat (length (columns sch)) /\
  forall j, shows (field rec' j) (row_cell sch values rid pid now j).
Proof using Hcols.
  intros Hf Hr Ht Hj. set (r0 := Rec (row_id rec) (table_id rec) (fields rec) (Z.of_nat (length (columns sch)))).
  assert (fill_columns sch rec pid now =
    let r2 := set_at (set_at r0 (column_at sch (cs "owner_pid")) pid) (column_at sch (cs "created")) now in
    match column_at sch (cs "size"), column_at sch (cs "data") with
    | Some i, Some d => set_at r2 (Some i) (str_length_of (field r2 d))
    | _, _ => r2
    end) as ->.
  { unfold fill_columns. fold r0. rewrite !find_column_at. reflexivity. }
  destruct (set_at_facts r0 (cs "owner_pid") pid Hf eq_refl) as (F1 & E1 & J1). set (r1 := set_at r0 _ pid) in *. clearbody r1.
  injection E1 as R1 T1 N1. destruct (set_at_facts r1 (cs "created") now F1 ltac:(by rewrite N1)) as (F2 & E2 & J2). set (r2 := set_at r1 _ now) in *. clearbody r2.
  injection E2 as R2 T2 N2. assert (forall j, shows (field r2 j) (stored_cell sch values rid pid now j)) as Hs.
  { intros j. rewrite J2, J1. unfold stored_cell. destruct (decide _); [done|]. destruct (decide _); [done|]. apply Hj. }
  assert (row_id r2 = rid /\ table_id r2 = sch_table_id sch /\ field_count r2 = Z.of_nat (length (columns sch))) as (Hr2 & Ht2 & Hn2)
    by (split_and!; [rewrite R2, R1; exact Hr|rewrite T2, T1; exact Ht|by rewrite N2, N1]).
  cbv zeta. unfold row_cell. destruct (column_at sch (cs "size")) as [i|] eqn:Ei; [|by split_and!].
  destruct (column_at sch (cs "data")) as [d|] eqn:Ed; [|by split_and!].
  set (len := str_length_of (field r2 d)). destruct (set_at_facts r2 (cs "size") len F2 ltac:(by rewrite Hn2)) as (F3 & E3 & J3). rewrite Ei in F3, E3, J3.
  injection E3 as R3 T3 N3. cbn [set_at] in *. split_and!; [by rewrite R3|by rewrite T3|by rewrite N3|]. intros j. rewrite J3.
  destruct (Nat.eqb_spec i j) as [->|Hne]; [|by rewrite decide_False by congruence]. rewrite decide_True by done. cbn [shows]. f_equal. unfold len.
  specialize (Hs d). destruct (stored_cell sch values rid pid now d); cbn [shows] in Hs; [by rewrite Hs..| |by rewrite Hs].
  destruct Hs as (data & -> & _). done.
Qed.
End filling.

(** ** Reading an INSERT *)

Section reading.
Context (stack : nat -> nat -> list Z).

Fixpoint names_of (i : nat) (values : list (list Z * sql_lit)) : list (list Z) :=
  match values with [] => [] | v :: values => column_cells stack A_COL_NAME i (fst v ++ [0]) :: names_of (S i) values end.

Definition value_ok (v : list Z * sql_lit) : Prop := is_name (fst v) = true /\ lit_ok (snd v).

Lemma columns_read values : Forall value_ok values -> values <> [] -> forall room i p sp r, (length values <= room)%nat -> sp = [] \/ sp = [32] ->
  rest p = sp ++ separated (cs ", ") (map fst values) ++ 41 :: r ->
  exists p', insert_columns stack room i (next_token p) = (p', names_of i values) /\ tok_type p' = TOK_RPAREN /\ rest p' = r.
Proof.
  induction 1 as [|[c l] values [Hc _] Hok IH]; intros Hne room i p sp r Hroom Hsp Hr; [done|]. destruct room as [|room]; [cbn in Hroom; lia|].
  cbn [map separated fst] in Hr, Hc. rewrite <- app_assoc in Hr. destruct values as [|v values].
  - destruct (token_name p sp c (41 :: r) Hc Hr Hsp eq_refl) as (T1 & V1 & R1).
    destruct (columns_step stack room i (next_token p) c 41 r TOK_RPAREN T1 V1 R1) as (R2 & T2 & ->); [by right; right; left|].
    rewrite bool_decide_false by done. eexists. split; [reflexivity|]. done.
  - cbn [map] in Hr. set (more := separated (cs ", ") (fst v :: map fst values)) in *.
    destruct (token_name p sp c (cs ", " ++ more ++ 41 :: r) Hc) as (T1 & V1 & R1); [by rewrite Hr, <- app_assoc|done|done|].
    destruct (columns_step stack room i (next_token p) c 44 ([32] ++ more ++ 41 :: r) TOK_COMMA T1 V1 R1) as (R2 & _ & ->); [by left|].
    rewrite bool_decide_true by done.
    destruct (IH ltac:(done) room (S i) (next_token (next_token p)) [32] r ltac:(cbn in *; lia) ltac:(by right) R2) as (p' & -> & H1 & H2).
    exists p'. done.
Qed.

Context (sch : table_schema) (Hcols : (length (columns sch) <= MAX_COLUMNS)%nat).

(** A literal, with what follows it. *)
Lemma lit_read p sp l r rec i : rest p = sp ++ lit_text l ++ r -> sp = [] \/ sp = [32] -> lit_ok l -> isdigit (chr r) = false -> (i < length (columns sch))%nat ->
  set_value sch rec i (next_token p) = Some (set_field rec i (lit_field sch i l)) /\ rest (next_token p) = r /\
  is_tok (next_token p) TOK_RPAREN = false /\ is_tok (next_token p) TOK_EOF = false.
Proof.
  intros E Hsp Hl Hr Hi. assert ((MAX_COLUMNS <=? i)%nat = false) as Hm by (apply Nat.leb_gt; lia). unfold set_value, lit_field.
  destruct l as [ds|s]; cbn [lit_text lit_ok] in *.
  - destruct Hl as (Hd & Hne & Hlen & Hv). destruct (token_digits p sp ds r E Hsp Hd Hne Hlen Hr) as (T & V & R). rewrite T, V, strtou64_lit by done.
    destruct (lookup_lt_is_Some_2 (columns sch) i Hi) as [c Hc]. unfold type_at. rewrite Hc. cbn [from_option].
    split; [|by rewrite R, !(is_tok_eq _ _ _ T), !bool_decide_false].
    unfold record_set_u64, record_set_u32, record_set_str. rewrite Hm. by destruct (col_type c).
  - destruct Hl as [Hl _]. cbn [app] in E. rewrite <- app_assoc in E. destruct (token_string p sp s r E Hsp Hl) as (T & V & R).
    rewrite T, V. split; [|by rewrite R, !(is_tok_eq _ _ _ T), !bool_decide_false]. unfold record_set_str. by rewrite Hm.
Qed.

Lemma values_read values : Forall value_ok values -> values <> [] -> forall i p sp rec, sp = [] \/ sp = [32] ->
  rest p = sp ++ separated (cs ", ") (map (fun v => lit_text (snd v)) values) ++ [41] ->
  insert_values sch (names_of i values) rec (next_token p) = assign_all sch values rec.
Proof.
  induction 1 as [|[c l] values [Hc Hl] Hok IH]; intros Hne i p sp rec Hsp Hr; [done|]. cbn [fst snd map separated] in *. rewrite <- app_assoc in Hr.
  cbn [names_of insert_values assign_all fst]. rewrite name_column by done.
  set (more := match map _ values with [] => [] | _ => _ end ++ [41]) in *.
  assert (isdigit (chr more) = false) as Hd by (unfold more; by destruct values).
  assert (is_tok (next_token p) TOK_RPAREN = false /\ is_tok (next_token p) TOK_EOF = false) as [-> ->].
  { assert (exists t, tok_type (next_token p) = t /\ t <> TOK_RPAREN /\ t <> TOK_EOF) as (t & Ht & H1 & H2).
    { destruct l as [ds|s]; cbn [lit_text lit_ok] in *.
      - destruct Hl as (Hds & Hnds & Hlen & Hv). destruct (token_digits p sp ds more Hr Hsp Hds Hnds Hlen Hd) as (T & _). by eexists.
      - destruct Hl as [Hl _]. cbn [app] in Hr. rewrite <- app_assoc in Hr. destruct (token_string p sp s more Hr Hsp Hl) as (T & _). by eexists. }
    by rewrite !(is_tok_eq _ _ _ Ht), !bool_decide_false. }
  cbn [orb]. destruct (column_at sch c) as [j|] eqn:Ej; [|done].
  destruct (lit_read p sp l more rec j Hr Hsp Hl Hd (column_at_bound _ _ _ Ej)) as (-> & R & _ & _). cbn [orb].
  destruct values as [|v values].
  - destruct (token_punct (next_token p) [] 41 [] TOK_RPAREN) as [T2 _]; [by rewrite R|by left|by right; right; left|].
    by rewrite (is_tok_eq _ _ _ T2), bool_decide_false.
  - cbn [map] in more. destruct (token_punct (next_token p) [] 44 ([32] ++ separated (cs ", ") (lit_text (snd v) :: map (fun v => lit_text (snd v)) values) ++ [41]) TOK_COMMA)
      as [T2 R2]; [rewrite R; unfold more; by rewrite <- app_assoc|by left|by left|].
    rewrite (is_tok_eq _ _ _ T2), bool_decide_true by done. by apply (IH ltac:(done) (S i) (next_token (next_token p)) [32]); [right|].
Qed.
End reading.

Lemma insert_sql_parse stack name values : is_name name = true -> Forall value_ok values -> values <> [] -> (length values <= MAX_INSERT_VALS)%nat ->
  exists p, insert_query stack (insert_sql name values) = Some (name ++ [0], names_of stack 0 values, next_token p) /\
    rest p = separated (cs ", ") (map (fun v => lit_text (snd v)) values) ++ [41].
Proof.
  intros Hn Hok Hne Hlen. set (vals := separated (cs ", ") (map (fun v => lit_text (snd v)) values) ++ [41]).
  set (cols := separated (cs ", ") (map fst values)).
  assert (insert_sql name values = cs "INSERT" ++ cs " INTO " ++ name ++ cs " (" ++ cols ++ cs ") VALUES (" ++ vals) as -> by done.
  unfold insert_query. set (p0 := Parser _ _ _ _).
  destruct (token_keyword p0 [] "INSERT" (cs " INTO " ++ name ++ cs " (" ++ cols ++ cs ") VALUES (" ++ vals) TOK_INSERT) as [T1 R1];
    [done|by left|by vm_compute|done|].
  rewrite (expect_tok _ _ T1).
  destruct (token_keyword (next_token p0) [32] "INTO" ([32] ++ name ++ cs " (" ++ cols ++ cs ") VALUES (" ++ vals) TOK_INTO) as [T2 R2];
    [by rewrite R1|by right|by vm_compute|done|].
  rewrite (expect_tok _ _ T2). set (p2 := next_token (next_token p0)) in *. clearbody p2.
  destruct (token_name p2 [32] name (cs " (" ++ cols ++ cs ") VALUES (" ++ vals) Hn R2) as (T3 & V3 & R3); [by right|done|].
  rewrite (is_tok_eq _ _ _ T3), bool_decide_true, V3 by done. cbn [negb]. set (p3 := next_token p2) in *. clearbody p3.
  destruct (token_punct p3 [32] 40 (cols ++ cs ") VALUES (" ++ vals) TOK_LPAREN) as [T4 R4]; [by rewrite R3|by right|by right; left|].
  rewrite (expect_tok _ _ T4). set (p4 := next_token p3) in *. clearbody p4.
  destruct (columns_read stack values Hok Hne MAX_INSERT_VALS 0 p4 [] (cs " VALUES (" ++ vals) Hlen) as (p5 & -> & T5 & R5); [by left|exact R4|].
  rewrite (expect_tok _ _ T5).
  destruct (token_keyword p5 [32] "VALUES" (cs " (" ++ vals) TOK_VALUES) as [T6 R6]; [by rewrite R5|by right|by vm_compute|done|].
  rewrite (expect_tok _ _ T6).
  destruct (token_punct (next_token p5) [32] 40 vals TOK_LPAREN) as [T7 R7]; [by rewrite R6|by right|by right; left|].
  rewrite (expect_tok _ _ T7). by eexists.
Qed.

Lemma name_bytes w : is_name w = true -> bytes w.
Proof.
  intros Hw. destruct (is_name_facts w Hw) as (_ & _ & _ & _ & H & _). apply (Forall_impl _ _ _ H). intros c Hc.
  destruct (ident_char_facts c Hc) as (_ & _ & _ & _ & ?). unfold is_word. lia.
Qed.

Lemma separated_bytes sep l : bytes sep -> Forall (fun x => bytes x) l -> bytes (separated sep l).
Proof.
  intros Hs. induction 1 as [|x l Hx Hl IH]; [constructor|]. cbn [separated]. apply Forall_app. split; [done|].
  destruct l; [constructor|]. by apply Forall_app.
Qed.

Lemma insert_sql_bytes name values : is_name name = true -> Forall value_ok values -> bytes (insert_sql name values).
Proof.
  intros Hn Hok. unfold insert_sql.
  assert (bytes (separated (cs ", ") (map fst values)) /\ bytes (separated (cs ", ") (map (fun v => lit_text (snd v)) values))) as [H1 H2].
  { split; (apply separated_bytes; [apply bytes_cs|]); rewrite Forall_fmap; apply (Forall_impl _ _ _ Hok); intros [c l] [Hc Hl]; cbn in *.
    - by apply name_bytes.
    - destruct l as [ds|s]; cbn [lit_text lit_ok] in *; [apply digits_facts, Hl|]. destruct Hl as [_ Hl]. assert (is_u8 39) by (unfold is_word; lia).
      constructor; [done|]. apply Forall_app. split; [done|]. by repeat constructor. }
  repeat (apply Forall_app; split); try apply bytes_cs; try done. by apply name_bytes.
Qed.

(** An entry of the audit log. *)
Definition log_entry (rec : record) (rid now pid : Z) (action : list Z) (target : Z) (result : list Z) : Prop :=
  row_id rec = rid /\ field rec 0 = FU64 rid /\ field rec 1 = FU64 now /\ field rec 2 = FU64 pid /\ field rec 4 = FU64 target /\
  exists d l d' l', field rec 3 = FStr d l /\ cstr d = action /\ field rec 5 = FStr d' l' /\ cstr d' = result.

Lemma insert_log_entry rid now pid target : log_entry (audit_record rid now pid (cs "INSERT") target (cs "OK")) rid now pid (cs "INSERT") target (cs "OK").
Proof. split; [reflexivity|]. do 4 (split; [reflexivity|]). eexists _, _, _, _. split; [reflexivity|]. split; [vm_compute; reflexivity|]. split; [reflexivity|]. vm_compute. reflexivity. Qed.

Section insert.
Context `{Hw, AesNi, !HwLaws, !AesNiLaws}.
Context (mem : nat -> nat -> bool) (clock : nat -> Z) (stack : nat -> nat -> list Z).
Context (Hmem : forall n m, mem n m = true) (Hclock : forall n, is_u64 (clock n)).

(** C2: INSERT adds exactly the row it describes.  For the text of any INSERT of
    one to sixteen values, numbers below 2^64 or quoted texts of at most 254
    characters without apostrophes, into the table of that name (of at most 15
    columns, other than the audit log), with memory and room in the trees.  When the statement names a column the table does not have, it
    is an error and no table changes.  Otherwise it succeeds: the table holds
    one row more, under the next row id, each column of which shows the value
    the statement gives it, in the column's type, the process in [owner_pid],
    the time in [created], the length of the data in [size], the row id in a
    primary key that stands first and is not given, and nothing otherwise; the
    audit log has one entry more, which names the process and the row; no other
    table and no capability changes. *)
Theorem insert_correct (name : list Z) (values : list (list Z * sql_lit)) (pid : Z) (q : q_state) id t content a acontent :
  is_name name = true -> Forall value_ok values -> values <> [] -> (length values <= 16)%nat -> is_u64 pid -> db_ok (q_db q) ->
  table_named (tables (q_db q)) name id t -> sch_table_id (schema t) = Z.of_nat id -> (length (columns (schema t)) <= 15)%nat ->
  tables (q_db q) !! TABLE_ID_AUDIT = Some a -> id <> TABLE_ID_AUDIT -> Z.of_nat id < 2 ^ 32 ->
  table_is id t content -> table_is TABLE_ID_AUDIT a acontent ->
  let rid := global_row_id (q_db q) in
  room_for 1 (index t) rid -> room_for 1 (index a) (u64 (rid + 1)) ->
  ((exists v, v ∈ values /\ column_at (schema t) (fst v) = None) ->
   exists q' r, query_execute mem clock stack (insert_sql name values) pid q = Done (q', Some r) /\ error_code r = VOS_ERR_INVAL /\
     tables (q_db q') = tables (q_db q) /\ q_caps q' = q_caps q) /\
  (Forall (fun v => column_at (schema t) (fst v) <> None) values ->
   exists q' r t' a' row entry now,
     query_execute mem clock stack (insert_sql name values) pid q = Done (q', Some r) /\ error_code r = VOS_OK /\
     tables (q_db q') = <[TABLE_ID_AUDIT := a']> (<[id := t']> (tables (q_db q))) /\ schema t' = schema t /\ schema a' = schema a /\
     table_is id t' (<[rid := row]> content) /\ row_id row = rid /\ field_count row = Z.of_nat (length (columns (schema t))) /\
     (forall j, shows (field row j) (row_cell (schema t) values rid pid (clock (q_calls q)) j)) /\
     table_is TABLE_ID_AUDIT a' (<[u64 (rid + 1) := entry]> acontent) /\ log_entry entry (u64 (rid + 1)) now pid (cs "INSERT") rid (cs "OK") /\
     db_ok (q_db q') /\ q_caps q' = q_caps q).
Proof using All.
  intros Hn Hok Hne Hlen Hpid Hdb Ht Hid Hcols La Hia Hi32 Hc Hca rid Hr Hra.
  assert (length (columns (schema t)) <= MAX_COLUMNS)%nat as Hmax by (unfold MAX_COLUMNS; lia).
  destruct (insert_sql_parse stack name values Hn Hok Hne Hlen) as (p & Hp & Rp).
  pose proof (insert_statement mem clock stack Hmem Hclock (insert_sql name values) pid q (name ++ [0]) (names_of stack 0 values) (next_token p) id t content a acontent
    (insert_sql_bytes _ _ Hn Hok) Hpid Hdb Hp (table_named_get _ _ _ _ Hn Ht) (proj1 Ht) Hid Hcols La Hia Hi32 Hc Hca Hr Hra) as Hs. fold rid in Hs.
  rewrite (values_read stack (schema t) Hmax values Hok Hne 0 p []) in Hs by (by left || exact Rp).
  destruct (blank_facts (schema t) rid) as (B1 & B2 & B3 & B4).
  pose proof (assign_all_fields (schema t) Hmax values ltac:(apply (Forall_impl _ _ _ Hok); by intros v []) (blank_record (schema t) rid) B1) as Hv.
  destruct (assign_all (schema t) values (blank_record (schema t) rid)) as [rec|].
  - destruct Hv as (V1 & V2 & V3 & V4 & V5). split.
    { intros (v & Hin & Hnone). destruct (proj1 (Forall_forall _ _) V4 v Hin Hnone). }
    intros _. destruct Hs as (q' & r & i & v & i' & v' & now & _ & _ & E & Er & Et & Hti & Hta & Hok' & Hcap & _).
    destruct (fill_shows (schema t) Hmax rec values rid pid (clock (q_calls q)) V1) as (F1 & F2 & F3 & F4); [congruence|congruence| |].
    { intros j. specialize (V5 j). specialize (B4 j). destruct (given (schema t) values j); [exact V5|]. rewrite V5. exact B4. }
    exists q', r, (set_index t i), (set_index a i'), (fill_columns (schema t) rec pid (clock (q_calls q))), (audit_record (u64 (rid + 1)) now pid (cs "INSERT") rid (cs "OK")), now.
    split; [exact E|]. split; [exact Er|]. split; [exact Et|]. split; [reflexivity|]. split; [reflexivity|]. split; [exact Hti|]. split; [exact F1|]. split; [exact F3|].
    split; [exact F4|]. split; [exact Hta|]. split; [apply insert_log_entry|]. split; [exact Hok'|exact Hcap].
  - split; [intros _; exact Hs|]. intros Hall. destruct Hv as (v & Hin & Hnone). destruct (proj1 (Forall_forall _ _) Hall v Hin Hnone).
Qed.
End insert.

(** A named and an unknown column. *)
Definition demo_given : list (list Z * sql_lit) := [(cs "name", LText (cs "a")); (cs "DATA", LText (cs "find procs")); (cs "type", LNum [4; 2])].

Lemma demo_given_ok : Forall value_ok demo_given.
Proof.
  assert (is_digit 4 /\ is_digit 2) as [? ?] by (unfold is_digit; lia).
  repeat constructor; try (vm_compute; reflexivity); try done; try lia; try (cbn; lia); try (unfold is_word; lia).
Qed.

Lemma demo_given_text : insert_sql (cs "objecttable") demo_given = cs "INSERT INTO objecttable (name, DATA, type) VALUES ('a', 'find procs', 42)".
Proof. vm_compute. reflexivity. Qed.

Lemma demo_given_known : Forall (fun v => column_at object_schema (fst v) <> None) demo_given.
Proof. repeat constructor; vm_compute; discriminate. Qed.

Lemma demo_given_cells : let cell := row_cell object_schema demo_given 1 5 1000 in
  cell 0%nat = Num64 1 /\ cell 1%nat = Text (cs "a") /\ cell 2%nat = Text (cs "42") /\ cell 3%nat = Text (cs "find procs") /\ cell 4%nat = Num64 5.
Proof. vm_compute. repeat split. Qed.

Lemma sys_objects_named : table_named (tables sys_db) (cs "objecttable") 3 (sys_table 3).
Proof.
  split; [apply sys_table_at; lia|]. split; [rewrite sys_objects_schema; vm_compute; reflexivity|]. intros j t' Hj L.
  rewrite sys_table_at in L by lia. injection L as <-. destruct j as [|[|[|j]]]; [vm_compute; discriminate..|lia].
Qed.

#[local] Opaque sys_db sys_table.

Lemma insert_correct_witness :
  exists q' r t' row, query_execute all_ok noon zero_stack (cs "INSERT INTO objecttable (name, DATA, type) VALUES ('a', 'find procs', 42)") 5 (Q sys_db boot_caps 0)
      = Done (q', Some r) /\
    error_code r = VOS_OK /\ tables (q_db q') !! 3%nat = Some t' /\ table_is 3 t' {[1 := row]} /\
    shows (field row 0) (Num64 1) /\ shows (field row 1) (Text (cs "a")) /\ shows (field row 2) (Text (cs "42")) /\
    shows (field row 3) (Text (cs "find procs")) /\ shows (field row 4) (Num64 5).
Proof.
  assert (is_u64 5 /\ is_u64 1 /\ is_u64 (u64 (1 + 1))) as (H5 & H1 & H2) by (unfold is_word, wrap; lia).
  destruct (insert_correct all_ok noon zero_stack (fun _ _ => eq_refl) noon_u64 (cs "objecttable") demo_given 5 (Q sys_db boot_caps 0) 3 (sys_table 3) ∅ (sys_table 5) ∅)
    as [_ T].
  - vm_compute. reflexivity.
  - apply demo_given_ok.
  - discriminate.
  - cbn. lia.
  - exact H5.
  - exact sys_db_ok.
  - exact sys_objects_named.
  - rewrite sys_objects_schema. reflexivity.
  - rewrite sys_objects_schema. apply Nat.leb_le. reflexivity.
  - apply (sys_table_at 5). lia.
  - discriminate.
  - lia.
  - exact (empty_is 3 _ (sys_table_index 3 ltac:(lia))).
  - exact (empty_is 5 _ (sys_table_index 5 ltac:(lia))).
  - cbn [q_db]. rewrite sys_row_id. exact (empty_room (sys_table 3) 1 (ex_intro _ _ (sys_table_index 3 ltac:(lia))) H1).
  - cbn [q_db]. rewrite sys_row_id. exact (empty_room (sys_table 5) (u64 (1 + 1)) (ex_intro _ _ (sys_table_index 5 ltac:(lia))) H2).
  - rewrite sys_objects_schema in T. cbn [q_db q_calls] in T. rewrite sys_row_id in T.
    destruct (T demo_given_known) as (q' & r & t' & a' & row & entry & now & E & Er & Et & _ & _ & Hti & _ & _ & Hj & _).
    rewrite demo_given_text in E. change (noon 0%nat) with 1000 in Hj. destruct demo_given_cells as (E0 & E1 & E2 & E3 & E4).
    exists q', r, t', row. split; [exact E|]. split; [exact Er|]. split.
    { rewrite Et, list_lookup_insert_ne by discriminate. apply list_lookup_insert_eq. eapply lookup_lt_Some, (sys_table_at 3). lia. }
    split; [exact Hti|]. rewrite <- E0, <- E1, <- E2, <- E3, <- E4. split; [apply Hj|]. split; [apply Hj|]. split; [apply Hj|]. split; apply Hj.
Defined.
