(* ===== verification/Complete.v ===== *)
(** * Tab completion (src/shell/complete.c)

    Strings are lists of characters.  A row of [matches] is the string that
    [strncpy] and the terminator leave in it; what lies behind the terminator
    is never read. *)

From Stdlib Require Import String.
From S2P Require Import Prelude CLib Record Printf Database Friendly.

Definition MAX_COMPLETIONS : nat := 32.
Definition MAX_COMPLETION_LEN : nat := 64.

Record completion_result := Completions { matches : list (list Z); common_prefix : list Z }.

Definition count (r : completion_result) : nat := length (matches r).

Definition sql_keywords : list string := [
  "SELECT"; "INSERT"; "INTO"; "DELETE"; "UPDATE"; "FROM"; "WHERE"; "AND"; "SET"; "VALUES";
  "SHOW"; "TABLES"; "DESCRIBE"; "GRANT"; "REVOKE"; "ON"; "TO"; "READ"; "WRITE"; "ALL"]%string.

Definition friendly_verbs : list string := [
  "tables"; "show"; "info"; "find"; "count"; "add"; "del"; "set";
  "create"; "open"; "list"; "rm"; "cat"; "ps"; "kill"; "spawn"; "msg"; "inbox";
  "save"; "run"; "scripts"; "security"; "crypto"; "audit"]%string.

Definition object_types : list string := ["note"; "file"; "config"; "script"; "key"]%string.

Definition is_separator (c : Z) : bool := (c =? 32) || (c =? 40) || (c =? 44).

(** [while (start > 0 && line[start - 1] is no separator) start--] *)
Fixpoint word_start (line : list Z) (start : nat) : nat :=
  match start with
  | O => O
  | S n => if is_separator line.[n] then start else word_start line n
  end.

(** The fragment before the cursor, cut to [word_size - 1] characters. *)
Definition extract_word (line : list Z) (cursor_pos word_size : nat) : list Z :=
  let start := word_start line cursor_pos in
  let len := (cursor_pos - start)%nat in
  let len := if (word_size <=? len)%nat then (word_size - 1)%nat else len in
  take len (drop start line).

(** [while (common_prefix[j] && toupper(...) == toupper(match[j])) j++] *)
Fixpoint common_length (p m : list Z) : nat :=
  match p with
  | [] => O
  | c :: p => if negb (c =? 0) && (toupper c =? toupper (chr m)) then S (common_length p (next m)) else O
  end.

Fixpoint shrink_prefix (p : list Z) (ms : list (list Z)) : list Z :=
  match ms with
  | [] => p
  | m :: ms => shrink_prefix (take (common_length p m) p) ms
  end.

Definition compute_common_prefix (r : completion_result) : completion_result :=
  match matches r with
  | [] => Completions [] []
  | m :: ms => Completions (matches r) (shrink_prefix (take (MAX_COMPLETION_LEN - 1) (cstr m)) ms)
  end.

Definition add_match (r : completion_result) (str : list Z) : completion_result :=
  if (MAX_COMPLETIONS <=? count r)%nat then r
  else Completions (matches r ++ [take (MAX_COMPLETION_LEN - 1) (cstr str)]) (common_prefix r).

(** [while (i < cursor_pos && count < max_tokens)]: at least one character per
    token. *)
Fixpoint tokenize (max_tokens : nat) (line : list Z) : list (list Z) :=
  match max_tokens with
  | O => []
  | S n =>
      let fix skip (s : list Z) := match s with c :: s' => if c =? 32 then skip s' else s | [] => [] end in
      let fix word (s : list Z) := match s with c :: s' => if negb (c =? 32) then c :: word s' else [] | [] => [] end in
      let s := skip line in
      if (length s =? 0)%nat then []
      else
        let w := word s in
        take (MAX_COMPLETION_LEN - 1) w :: tokenize n (drop (length w) s)
  end.

Definition is_friendly_verb (token : list Z) : bool :=
  existsb (fun v => strcasecmp (cs v) token =? 0) friendly_verbs.

Definition resolve_table_schema (st : db_state) (name : list Z) : option table_schema :=
  match db_get_schema st (friendly_resolve_alias name) with
  | Some i => db_get_schema_by_id st i
  | None => None
  end.

(** The loops [if (strncasecmp(candidate, word, wlen) == 0) add_match(...)]. *)
Definition match_all (word : list Z) (candidates : list (list Z)) (r : completion_result) : completion_result :=
  foldl (fun r c => if strncasecmp c word (strlen word) =? 0 then add_match r c else r) r candidates.

(** [snprintf(col_eq, sizeof(col_eq), "%s=", name)] *)
Definition col_eq (name : list Z) : list Z :=
  match snprintf (replicate MAX_COMPLETION_LEN 0) (Z.of_nat MAX_COMPLETION_LEN) (cs "%s=") [AStr (Some name)] with
  | Some (b, _) => b
  | None => []
  end.

Definition match_columns (word : list Z) (sch : table_schema) (r : completion_result) : completion_result :=
  foldl (fun r c => if strncasecmp (col_name c) word (strlen word) =? 0 then add_match r (col_eq (col_name c)) else r)
    r (columns sch).

Definition table_names (st : db_state) : list (list Z) :=
  omap (fun t => sch_name <$> db_get_schema_by_id st t) (seq 0 (db_get_table_count st)).

Definition alias_names : list (list Z) := map (fun a => cs (fst a)) friendly_get_aliases.

Definition token (ts : list (list Z)) (i : nat) : list Z := nth i ts [].
Definition token_is (ts : list (list Z)) (names : list string) : bool :=
  existsb (fun n => strcasecmp (token ts 0) (cs n) =? 0) names.

(** The contexts, in the order of the source; [None]: the next one is tried. *)
Definition complete_columns (st : db_state) (ts : list (list Z)) (word : list Z) : option completion_result :=
  if (2 <=? length ts)%nat && is_friendly_verb (token ts 0) && token_is ts ["find"; "add"; "del"; "set"]%string then
    match resolve_table_schema st (token ts 1) with
    | None => None
    | Some sch =>
        match strchr word 61 with
        | Some _ => None
        | None =>
            let r := match_columns word sch (Completions [] []) in
            if (0 <? count r)%nat then Some (compute_common_prefix r) else None
        end
    end
  else None.

Definition complete_objects (ts : list (list Z)) (word : list Z) : option completion_result :=
  if (length ts =? 1)%nat && token_is ts ["create"]%string then
    let r := match_all word (map cs object_types) (Completions [] []) in
    if (0 <? count r)%nat then Some (compute_common_prefix r) else None
  else None.

Definition complete_programs (ts : list (list Z)) (word : list Z) : option completion_result :=
  if (length ts =? 1)%nat && token_is ts ["spawn"]%string then
    let r := match_all word [cs "monitor"] (Completions [] []) in
    let r := match_all word [cs "script:"] r in
    if (0 <? count r)%nat then Some (compute_common_prefix r) else None
  else None.

Definition complete_tables (st : db_state) (ts : list (list Z)) (word : list Z) : option completion_result :=
  if (length ts =? 1)%nat && is_friendly_verb (token ts 0) &&
     negb (token_is ts ["tables"; "create"; "spawn"; "scripts"; "ps"; "inbox"]%string) then
    let r := match_all word (table_names st) (Completions [] []) in
    let r := match_all word alias_names r in
    if (0 <? count r)%nat then Some (compute_common_prefix r) else None
  else None.

Definition complete_default (st : db_state) (word : list Z) : completion_result :=
  let r := match_all word (map cs sql_keywords) (Completions [] []) in
  let r := match_all word (map cs friendly_verbs) r in
  let r := match_all word (table_names st) r in
  let r := match_all word alias_names r in
  compute_common_prefix r.

(** A context that finds nothing leaves the result empty for the next. *)
Definition complete_find (st : db_state) (line : list Z) (cursor_pos : nat) : completion_result :=
  let word := extract_word line cursor_pos MAX_COMPLETION_LEN in
  if (strlen word =? 0)%nat then Completions [] []
  else
    let ts := tokenize 8 (take (word_start line cursor_pos) line) in
    match complete_columns st ts word with
    | Some r => r
    | None =>
        match complete_objects ts word with
        | Some r => r
        | None =>
            match complete_programs ts word with
            | Some r => r
            | None =>
                match complete_tables st ts word with
                | Some r => r
                | None => complete_default st word
                end
            end
        end
    end.

(** ** What is offered *)

(** [p] is a prefix of [m] when case is ignored. *)
Definition starts_with (p m : list Z) : Prop := map toupper p `prefix_of` map toupper m.

Lemma strncasecmp_prefix c w n :
  strncasecmp c w n = 0 -> n = strlen w -> starts_with (cstr w) (cstr c).
Proof.
  revert c w. induction n as [|n IH]; intros c w E Hn.
  { unfold cstr at 1. rewrite <- Hn. apply prefix_nil. }
  destruct w as [|x w]; [done|]. cbn [strlen] in Hn. destruct (Z.eqb_spec x 0) as [|Hx]; [done|].
  injection Hn as Hn. cbn [strncasecmp] in E. change (chr (x :: w)) with x in E. change (next (x :: w)) with w in E.
  pose proof (toupper_0 x) as Hx0.
  destruct c as [|y c]; [change (chr []) with 0 in E; change (toupper 0) with 0 in E; cbn in E; lia|].
  change (chr (y :: c)) with y in E. change (next (y :: c)) with c in E.
  destruct (Z.eqb_spec y 0) as [->|Hy]; [change (toupper 0) with 0 in E; cbn in E; lia|].
  cbn [negb andb] in E. destruct (Z.eqb_spec (toupper y) (toupper x)) as [Exy|]; [|lia].
  specialize (IH c w E Hn). unfold starts_with, cstr in *. cbn [strlen].
  rewrite (proj2 (Z.eqb_neq _ _) Hx), (proj2 (Z.eqb_neq _ _) Hy). cbn [take map]. rewrite Exy.
  by apply prefix_cons.
Qed.

Lemma starts_with_take p m n : starts_with p m -> (length p <= n)%nat -> starts_with p (take n m).
Proof.
  intros [k Hk] Hl. unfold starts_with. rewrite <- firstn_map, Hk. rewrite take_app_ge by (by rewrite length_map).
  by apply prefix_app_r.
Qed.

Lemma starts_with_app p m k : starts_with p m -> starts_with p (m ++ k).
Proof. intros H. unfold starts_with. rewrite map_app. by apply prefix_app_r. Qed.

Lemma kvprintf_col name : kvprintf_chars (cs "%s=") [AStr (Some name)] = Some (cstr name ++ [61]).
Proof.
  unfold kvprintf_chars. change (cs "%s=") with [37; 115; 61]. cbn -[cstr length].
  rewrite (proj2 (Z.ltb_ge _ _)) by lia. done.
Qed.

Lemma cstr_app_nonzero s t : Forall (fun c => c <> 0) s -> cstr (s ++ t) = s ++ cstr t.
Proof. intros H. unfold cstr. rewrite strlen_app by done. by rewrite take_app_add. Qed.

Lemma col_eq_text name : (length name <= 64)%nat -> cstr (col_eq name) = take 63 (cstr name ++ [61]).
Proof.
  intros Hl. unfold col_eq. pose proof (length_cstr name) as H1. pose proof (strlen_le name) as H2.
  rewrite (snprintf_bounded _ _ _ _ (cstr name ++ [61]));
    [|by vm_compute|by vm_compute|rewrite length_app, H1; cbn [length]; lia|apply kvprintf_col].
  change (Z.to_nat (Z.of_nat MAX_COMPLETION_LEN - 1)) with 63%nat. unfold blit. cbn [take]. rewrite app_nil_l, <- app_assoc.
  apply cstr_app_0, Forall_take, Forall_app. split; [apply cstr_nonzero|by repeat constructor].
Qed.

(** Rows are short strings that continue the word. *)
Definition offers (word : list Z) (r : completion_result) : Prop :=
  (count r <= MAX_COMPLETIONS)%nat /\
  Forall (fun m => starts_with word m /\ (length m <= 63)%nat /\ Forall (fun c => c <> 0) m) (matches r).

Lemma offers_nil word p : offers word (Completions [] p).
Proof. split; [unfold count; cbn; lia|done]. Qed.

Lemma add_match_offers word r s :
  (length word <= 63)%nat -> offers word r -> starts_with word (cstr s) -> offers word (add_match r s).
Proof.
  intros Hl [Hc Hm] Hs. unfold add_match. destruct (Nat.leb_spec MAX_COMPLETIONS (count r)); [done|].
  split; [unfold count in *; cbn [matches]; rewrite length_app; cbn [length]; lia|].
  cbn [matches]. apply Forall_app. split; [done|]. apply Forall_singleton.
  split; [by apply starts_with_take|]. split; [rewrite length_take; unfold MAX_COMPLETION_LEN; lia|].
  apply Forall_take, cstr_nonzero.
Qed.

Lemma foldl_invariant {A B} (P : A -> Prop) (f : A -> B -> A) l a :
  (forall a b, P a -> P (f a b)) -> P a -> P (foldl f a l).
Proof. intros Hf. revert a. induction l; intros; cbn; auto. Qed.

Lemma match_all_offers word cands r :
  (length (cstr word) <= 63)%nat -> offers (cstr word) r -> offers (cstr word) (match_all word cands r).
Proof.
  intros Hl. apply foldl_invariant. intros r' c Hr. destruct (Z.eqb_spec (strncasecmp c word (strlen word)) 0) as [E|]; [|done].
  apply add_match_offers; [done|done|]. by eapply strncasecmp_prefix.
Qed.

Definition schemas_fit (st : db_state) : Prop :=
  Forall (fun t => Forall (fun c => (length (col_name c) <= 64)%nat) (columns (schema t))) (tables st).

Lemma match_columns_offers word sch r :
  (length (cstr word) <= 63)%nat -> Forall (fun c => (length (col_name c) <= 64)%nat) (columns sch) ->
  offers (cstr word) r -> offers (cstr word) (match_columns word sch r).
Proof.
  intros Hl Hc. unfold match_columns. revert r. induction Hc as [|c cols Hc Hcols IH]; intros r Hr; [done|].
  cbn [foldl]. apply IH. destruct (Z.eqb_spec (strncasecmp (col_name c) word (strlen word)) 0) as [E|]; [|done].
  apply add_match_offers; [done|done|]. rewrite col_eq_text by done.
  apply starts_with_take; [|done]. apply starts_with_app. by eapply strncasecmp_prefix.
Qed.

(** ** The common prefix *)

Lemma common_length_le p m : (common_length p m <= length p)%nat.
Proof. revert m. induction p as [|c p IH]; intros m; cbn; [lia|]. destruct (_ && _); [specialize (IH (next m))|]; lia. Qed.

Lemma common_length_prefix p m : starts_with (take (common_length p m) p) m.
Proof.
  revert m. induction p as [|c p IH]; intros m; cbn [common_length]; [apply prefix_nil|].
  destruct (Z.eqb_spec c 0) as [|Hc]; cbn [negb andb]; [apply prefix_nil|].
  destruct (Z.eqb_spec (toupper c) (toupper (chr m))) as [E|]; [|apply prefix_nil].
  destruct m as [|y m].
  { change (toupper (chr [])) with 0 in E. by apply (proj1 (toupper_0 c)) in E. }
  change (chr (y :: m)) with y in E. change (next (y :: m)) with m.
  unfold starts_with. cbn [take map]. rewrite E. apply prefix_cons, IH.
Qed.

(** Nothing longer is common. *)
Lemma common_length_max p m q :
  Forall (fun c => c <> 0) p -> starts_with q p -> starts_with q m -> (length q <= common_length p m)%nat.
Proof.
  revert p m. induction q as [|x q IH]; intros p m Hp Hqp Hqm; cbn [length]; [lia|].
  destruct Hqp as [k1 E1], Hqm as [k2 E2]. cbn [map app] in E1, E2. destruct p as [|c p]; [discriminate E1|]. destruct m as [|y m]; [discriminate E2|].
  cbn [map] in E1, E2. injection E1 as Ec E1. injection E2 as Ey E2. apply Forall_cons in Hp as [Hc Hp].
  cbn [common_length]. change (chr (y :: m)) with y. change (next (y :: m)) with m.
  rewrite (proj2 (Z.eqb_neq _ _) Hc), Ec, Ey, Z.eqb_refl. cbn [negb andb]. apply le_n_S, IH; [done|by exists k1|by exists k2].
Qed.

Lemma starts_with_trans p q m : starts_with p q -> starts_with q m -> starts_with p m.
Proof. apply (transitivity (R := prefix)). Qed.

Lemma starts_with_length p q m : starts_with p m -> starts_with q m -> (length p <= length q)%nat -> starts_with p q.
Proof.
  intros H1 H2 Hl. destruct (prefix_weak_total _ _ _ H1 H2) as [H|H]; [done|].
  unfold starts_with. rewrite (prefix_length_eq _ _ H); [done|]. by rewrite !length_map.
Qed.

Lemma shrink_prefix_spec p ms :
  Forall (fun c => c <> 0) p ->
  Forall (starts_with (shrink_prefix p ms)) (p :: ms) /\
  (forall q, starts_with q p -> Forall (starts_with q) ms -> starts_with q (shrink_prefix p ms)).
Proof.
  revert p. induction ms as [|m ms IH]; intros p Hp; cbn [shrink_prefix].
  { split; [|done]. apply Forall_singleton. unfold starts_with. done. }
  set (p' := take (common_length p m) p).
  assert (starts_with p' p) as Hpp.
  { unfold starts_with, p'. rewrite <- firstn_map. apply prefix_take. }
  destruct (IH p') as [H1 H2]; [by apply Forall_take|].
  apply Forall_cons in H1 as [H1 H3]. split.
  - constructor; [by eapply starts_with_trans|]. constructor; [|done].
    eapply starts_with_trans; [exact H1|]. apply common_length_prefix.
  - intros q Hq Hall. apply Forall_cons in Hall as [Hm Hms]. apply H2; [|done].
    apply (starts_with_length q p' p Hq Hpp).
    unfold p'. rewrite length_take, Nat.min_l by apply common_length_le. by apply common_length_max.
Qed.

(** What each context answers. *)
Lemma picked word r0 r :
  offers word r0 -> (if (0 <? count r0)%nat then Some (compute_common_prefix r0) else None) = Some r ->
  exists r0', offers word r0' /\ r = compute_common_prefix r0'.
Proof. intros H. destruct (0 <? count r0)%nat; [|done]. intros <-%(inj Some). by exists r0. Qed.

(** Completion is sound and inserts as much as it can.  Every string
    offered for the word before the cursor continues that word, letter case
    aside; there are at most 32 of them, each of at most 63 characters.  The
    common prefix begins with the word, begins every string offered, and is
    the longest text that does. *)
Theorem complete_find_sound (st : db_state) (line : list Z) (cursor_pos : nat) :
  schemas_fit st ->
  let word := cstr (extract_word line cursor_pos MAX_COMPLETION_LEN) in
  let r := complete_find st line cursor_pos in
  (count r <= MAX_COMPLETIONS)%nat /\
  Forall (fun m => starts_with word m /\ (length m <= 63)%nat) (matches r) /\
  Forall (starts_with (common_prefix r)) (matches r) /\
  (matches r <> [] -> starts_with word (common_prefix r)) /\
  (forall q, matches r <> [] -> Forall (starts_with q) (matches r) -> starts_with q (common_prefix r)).
Proof.
  intros Hfit word r.
  assert (exists r0, offers word r0 /\ r = compute_common_prefix r0) as (r0 & [Hc Hm] & Er).
  { unfold r, complete_find, word. set (w := extract_word line cursor_pos MAX_COMPLETION_LEN).
    assert (length (cstr w) <= 63)%nat as Hl.
    { rewrite length_cstr. etransitivity; [apply strlen_le|]. unfold w, extract_word. rewrite length_take.
      unfold MAX_COMPLETION_LEN. destruct (Nat.leb_spec 64 (cursor_pos - word_start line cursor_pos)); lia. }
    destruct (strlen w =? 0)%nat; [exists (Completions [] []); split; [apply offers_nil|done]|].
    unfold complete_columns, complete_objects, complete_programs, complete_tables, complete_default.
    set (ts := tokenize 8 _). clearbody ts.
    pose proof (fun cands r => match_all_offers w cands r Hl) as Hall. pose proof (offers_nil (cstr w) []) as H0.
    destruct (if (2 <=? length ts)%nat && _ && _ then _ else _) as [r1|] eqn:E1.
    { destruct (_ && _); [|done]. unfold resolve_table_schema in E1.
      destruct (db_get_schema st _) as [i|]; [|done]. unfold db_get_schema_by_id in E1.
      destruct (tables st !! i) as [t|] eqn:Et; [|done]. destruct (strchr w 61); [done|].
      eapply picked; [|exact E1]. apply match_columns_offers; [done| |done]. exact (Forall_lookup_1 _ _ _ _ Hfit Et). }
    clear E1. destruct (if (length ts =? 1)%nat && token_is ts ["create"%string] then _ else _) as [r1|] eqn:E1.
    { destruct (_ && _); [|done]. eapply picked; [|exact E1]. auto. }
    clear E1. destruct (if (length ts =? 1)%nat && token_is ts ["spawn"%string] then _ else _) as [r1|] eqn:E1.
    { destruct (_ && _); [|done]. eapply picked; [|exact E1]. auto. }
    clear E1. destruct (if (length ts =? 1)%nat && _ && _ then _ else _) as [r1|] eqn:E1.
    { destruct (_ && _); [|done]. eapply picked; [|exact E1]. auto. }
    eexists. split; [|reflexivity]. auto. }
  clearbody r. subst r. unfold compute_common_prefix. destruct (matches r0) as [|m ms] eqn:E.
  { cbn. split; [unfold count; cbn; lia|]. done. }
  unfold count in *. cbn [matches common_prefix]. rewrite E in *. apply Forall_cons in Hm as [(Hwm & Hlm & Hzm) Hms].
  split; [done|].
  assert (take (MAX_COMPLETION_LEN - 1) (cstr m) = m) as ->.
  { rewrite cstr_idemp, take_ge by done. done. }
  destruct (shrink_prefix_spec m ms Hzm) as [H1 H2]. split; [|split; [done|split]].
  - constructor; [done|]. apply (Forall_impl _ _ _ Hms). by intros x (? & ? & _).
  - intros _. apply H2; [done|]. apply (Forall_impl _ _ _ Hms). by intros x (? & _).
  - intros q _ Hq. apply Forall_cons in Hq as [Hq1 Hq2]. by apply H2.
Qed.

(** [se] completed at the start of a line, on a database without tables. *)
Lemma complete_find_sound_witness :
  let r := complete_find boot_db (cs "se") 2 in
  matches r = map cs ["SELECT"; "SET"; "set"; "security"]%string /\ common_prefix r = cs "SE" /\
  Forall (fun m => starts_with (cs "se") m /\ (length m <= 63)%nat) (matches r).
Proof.
  split; [vm_compute; reflexivity|]. split; [vm_compute; reflexivity|].
  apply (complete_find_sound boot_db (cs "se") 2). constructor.
Defined.
