(* ===== verification/Pixels.v ===== *)
(** * Stores into pixel memory

    A drawing function is the sequence of its stores, as pairs of an index and
    a colour; [plot] performs them and [shown] is the colour they leave. *)

From S2P Require Import Prelude CLib.

Definition stores : Type := list (Z * Z).

(** [for (i = a; i < b; i++)] *)
Definition range (a b : Z) : list Z := map (fun i => a + Z.of_nat i) (seq 0 (Z.to_nat (b - a))).

Definition plot (buf : list Z) (s : stores) : list Z := foldl (fun b p => <[Z.to_nat p.1 := p.2]> b) buf s.

Lemma elem_of_range a b i : i ∈ range a b <-> a <= i < b.
Proof.
  unfold range. rewrite list_elem_of_In, in_map_iff. split.
  - intros (k & <- & Hk%in_seq). lia.
  - intros H. exists (Z.to_nat (i - a)). split; [lia|]. apply in_seq. lia.
Qed.

Lemma length_plot s buf : length (plot buf s) = length buf.
Proof. revert buf. induction s as [|p s IH]; intros buf; [done|]. cbn. fold (plot (<[Z.to_nat p.1 := p.2]> buf) s). by rewrite IH, length_insert. Qed.

(** ** The last store to a pixel *)

(** The colour that a sequence of stores leaves at index [i], if any. *)
Fixpoint shown (s : stores) (i : Z) : option Z :=
  match s with
  | [] => None
  | p :: s => match shown s i with Some c => Some c | None => if p.1 =? i then Some p.2 else None end
  end.

Lemma shown_app s t i : shown (s ++ t) i = match shown t i with Some c => Some c | None => shown s i end.
Proof. induction s as [|p s IH]; cbn; [by destruct (shown t i)|]. rewrite IH. by destruct (shown t i). Qed.

Lemma plot_app buf s t : plot buf (s ++ t) = plot (plot buf s) t.
Proof. apply foldl_app. Qed.

Lemma plot_shown s buf i :
  Forall (fun p => 0 <= p.1 < Z.of_nat (length buf)) s -> 0 <= i < Z.of_nat (length buf) ->
  plot buf s !! Z.to_nat i = match shown s i with Some c => Some c | None => buf !! Z.to_nat i end.
Proof.
  revert buf. induction s as [|[j c] s IH]; intros buf Hs Hi; [done|]. apply Forall_cons in Hs as [Hj Hs]. cbn [fst] in Hj.
  cbn [plot foldl fst snd shown]. fold (plot (<[Z.to_nat j := c]> buf) s). rewrite IH by (rewrite length_insert; done).
  destruct (shown s i); [done|]. destruct (Z.eqb_spec j i) as [->|Hne].
  - apply list_lookup_insert_eq. lia.
  - apply list_lookup_insert_ne. lia.
Qed.

Lemma shown_None s i : (forall p, p ∈ s -> p.1 <> i) -> shown s i = None.
Proof.
  induction s as [|p s IH]; intros H; [done|]. cbn. rewrite IH by (intros q Hq; apply H; by right).
  destruct (Z.eqb_spec p.1 i) as [E|]; [|done]. destruct (H p); [left|done].
Qed.

Lemma shown_elem s i c : shown s i = Some c -> (i, c) ∈ s.
Proof.
  induction s as [|[j d] s IH]; cbn; [done|]. destruct (shown s i) as [e|]; [intros [= ->]; right; by apply IH|].
  destruct (Z.eqb_spec j i) as [->|]; [|done]. intros [= ->]. left.
Qed.

Lemma shown_Some s i : (exists c, (i, c) ∈ s) -> is_Some (shown s i).
Proof.
  intros [c Hc]. destruct (shown s i) as [d|] eqn:E; [by exists d|]. exfalso. revert E Hc.
  induction s as [|[j e] s IH]; intros E Hc; [by apply not_elem_of_nil in Hc|]. cbn in E. apply elem_of_cons in Hc as [[= <- <-]|Hc].
  - rewrite Z.eqb_refl in E. by destruct (shown s i).
  - destruct (shown s i); [done|]. by apply IH.
Qed.

(** All the stores to [i] have the colour [c], and there is one. *)
Lemma shown_exactly s i c : (forall d, (i, d) ∈ s -> d = c) -> (i, c) ∈ s -> shown s i = Some c.
Proof. intros Hd Hc. destruct (shown_Some s i) as [d E]; [by exists c|]. by rewrite E, (Hd d (shown_elem _ _ _ E)). Qed.

Lemma elem_of_rows {A} (f : A -> stores) l p : p ∈ concat (map f l) <-> exists a, a ∈ l /\ p ∈ f a.
Proof.
  rewrite list_elem_of_In, in_concat. split.
  - intros (s & Hs & Hp). apply in_map_iff in Hs as (a & <- & Ha). exists a. by rewrite !list_elem_of_In.
  - intros (a & Ha%list_elem_of_In & Hp%list_elem_of_In). exists (f a). split; [by apply in_map|done].
Qed.

Lemma elem_of_pixels {A} (f : A -> Z * Z) l p : p ∈ map f l <-> exists a, a ∈ l /\ p = f a.
Proof. rewrite list_elem_of_In, in_map_iff. setoid_rewrite list_elem_of_In. naive_solver. Qed.

(** ** A screen of [H] rows of [W] pixels *)

Section screen.
Context (W H : Z).

Definition at_pixel (px py : Z) : Z := py * W + px.

Lemma at_pixel_inj px py qx qy : 0 <= px < W -> 0 <= qx < W -> at_pixel px py = at_pixel qx qy -> px = qx /\ py = qy.
Proof. intros H1 H2 E. unfold at_pixel in E. assert (py = qy) by nia. subst. lia. Qed.

(** Every store of [s] is to a pixel of the screen for which [R] holds, with
    a colour that [R] allows there. *)
Definition only (R : Z -> Z -> Z -> Prop) (s : stores) : Prop :=
  forall p, p ∈ s -> exists px py, p.1 = at_pixel px py /\ 0 <= px < W /\ 0 <= py < H /\ R px py p.2.

Lemma only_nil R : only R [].
Proof. intros p Hp. by apply not_elem_of_nil in Hp. Qed.

Lemma only_app R s t : only R s -> only R t -> only R (s ++ t).
Proof. intros Hs Ht p [Hp|Hp]%elem_of_app; auto. Qed.

Lemma only_rows {A} R (f : A -> stores) l : (forall a, a ∈ l -> only R (f a)) -> only R (concat (map f l)).
Proof. intros Hf p (a & Ha & Hp)%elem_of_rows. by apply (Hf a). Qed.

Lemma only_weaken (R R' : Z -> Z -> Z -> Prop) s : (forall px py c, 0 <= px < W -> 0 <= py < H -> R px py c -> R' px py c) -> only R s -> only R' s.
Proof. intros HR Hs p Hp. destruct (Hs p Hp) as (px & py & ? & ? & ? & ?). exists px, py. auto. Qed.

Lemma only_store (R : Z -> Z -> Z -> Prop) px py c : 0 <= px < W -> 0 <= py < H -> R px py c -> only R [(at_pixel px py, c)].
Proof. intros Hx Hy HR p ->%list_elem_of_singleton. exists px, py. done. Qed.

Lemma only_pixels {A} (R : Z -> Z -> Z -> Prop) (f : A -> Z * Z) l : (forall a, a ∈ l -> only R [f a]) -> only R (map f l).
Proof. intros Hf p (a & Ha & ->)%elem_of_pixels. apply (Hf a Ha). by left. Qed.

Lemma shown_outside R s px py : only R s -> 0 <= px < W -> (forall c, ~ R px py c) -> shown s (at_pixel px py) = None.
Proof.
  intros Hs Hx Hn. apply shown_None. intros p Hp E. destruct (Hs p Hp) as (qx & qy & Eq & Hq & _ & HR).
  rewrite Eq in E. destruct (at_pixel_inj qx qy px py) as [-> ->]; try done. by apply (Hn p.2).
Qed.

Lemma shown_colour R s px py c : only R s -> 0 <= px < W -> (forall d, R px py d -> d = c) ->
  (at_pixel px py, c) ∈ s -> shown s (at_pixel px py) = Some c.
Proof.
  intros Hs Hx Hd Hc. apply shown_exactly; [|done]. intros d Hp. destruct (Hs _ Hp) as (qx & qy & Eq & Hq & _ & HR).
  cbn in Eq, HR. destruct (at_pixel_inj px py qx qy) as [<- <-]; auto.
Qed.
End screen.
