(* ===== verification/TextBuf.v ===== *)
(** * Text in a fixed array, with a cursor

    The line editor, the text boxes and the document editor keep a text the
    same way: an array of [size] cells that holds the characters and a
    terminator, and a cursor within the text.  [parts] is the text before and
    after the cursor; the lemmas say what the editors' moves of cells do to
    it. *)

From S2P Require Import Prelude CLib Ring Keyboard.

(** The array holds a terminated text of [n] characters. *)
Definition holds_text (size : nat) (b : list Z) (n : nat) : Prop :=
  length b = size /\ (n < size)%nat /\ strlen b = n.

Definition parts (b : list Z) (n c : nat) : list Z * list Z := (take c (take n b), drop c (take n b)).

Lemma memmove_blit base m d s n :
  (d + n <= length m)%nat -> (s + n <= length m)%nat -> memmove base m d s n = blit m d (take n (drop s m)).
Proof.
  intros Hd Hs. destruct (memmove_moved base m d s n Hd Hs) as [_ H]. apply list_eq. intros i.
  rewrite H, lookup_blit; rewrite length_take, length_drop, Nat.min_l by lia; [|lia].
  case_decide; [|done]. rewrite lookup_take_lt, lookup_drop by lia. done.
Qed.

Lemma strlen_lookup b n : (n < length b)%nat -> strlen b = n -> b !! n = Some 0.
Proof.
  revert n. induction b as [|c b IH]; intros n Hn Hs; [cbn in Hn; lia|].
  cbn [strlen] in Hs. destruct (Z.eqb_spec c 0) as [->|]; [by subst n|]. subst n. cbn in Hn. apply IH; lia.
Qed.

Lemma holds_text_intro size w r n :
  Forall (fun c => c <> 0) w -> length (w ++ 0 :: r) = size -> n = length w -> holds_text size (w ++ 0 :: r) n.
Proof.
  intros Hw Hl ->. split; [done|]. split.
  - rewrite length_app in Hl. cbn in Hl. lia.
  - rewrite strlen_app by done. cbn. lia.
Qed.

(** The parts around the cursor, the terminator and the rest. *)
Lemma text_split size b n c : holds_text size b n -> (c <= n)%nat ->
  exists a z r, b = a ++ z ++ 0 :: r /\ length a = c /\ (length a + length z = n)%nat /\
    parts b n c = (a, z) /\ Forall (fun c => c <> 0) (a ++ z) /\ (length a + length z + S (length r) = size)%nat.
Proof.
  intros (Hl & Hn & Hs) Hc. pose proof (cstr_nonzero b) as Hz. unfold cstr in Hz. rewrite Hs in Hz.
  assert (b = take n b ++ 0 :: drop (S n) b) as Hb.
  { rewrite <- (take_drop n b) at 1. f_equal. apply drop_S, strlen_lookup; [lia|done]. }
  assert (length (take n b) = n) as Ht by len. unfold parts. set (t := take n b) in *.
  exists (take c t), (drop c t), (drop (S n) b).
  rewrite app_assoc, take_drop. split; [done|]. split; [len|]. split; [len|]. split; [done|]. split; [done|].
  rewrite length_take, !length_drop, Ht, Hl. lia.
Qed.

Lemma text_join size a z r n c :
  Forall (fun c => c <> 0) (a ++ z) -> (length a + length z + S (length r) = size)%nat ->
  n = (length a + length z)%nat -> c = length a ->
  holds_text size (a ++ z ++ 0 :: r) n /\ parts (a ++ z ++ 0 :: r) n c = (a, z).
Proof.
  intros Hz HL -> ->. split.
  - rewrite app_assoc. apply holds_text_intro; [done| |by rewrite length_app].
    rewrite !length_app. cbn. lia.
  - unfold parts. rewrite app_assoc, take_app_length' by (by rewrite length_app).
    by rewrite take_app_length, drop_app_length.
Qed.

Lemma cstr_parts size b n c : holds_text size b n -> cstr b = (parts b n c).1 ++ (parts b n c).2.
Proof. intros (_ & _ & Hs). unfold parts. cbn [fst snd]. rewrite take_drop. unfold cstr. by rewrite Hs. Qed.

Lemma length_parts size b n c : holds_text size b n -> (length (parts b n c).1 + length (parts b n c).2)%nat = n.
Proof. intros (Hl & Hn & _). unfold parts. cbn [fst snd]. rewrite length_take, length_drop, length_take. lia. Qed.

(** The cursor moved. *)
Lemma parts_move b n c c' : parts b n c' = (take c' ((parts b n c).1 ++ (parts b n c).2), drop c' ((parts b n c).1 ++ (parts b n c).2)).
Proof. unfold parts. cbn [fst snd]. by rewrite take_drop. Qed.

Lemma parts_start b n : parts b n 0 = ([], take n b).
Proof. done. Qed.

Lemma parts_end size b n : holds_text size b n -> parts b n n = (cstr b, []).
Proof.
  intros (Hl & Hn & Hs). unfold parts, cstr. rewrite take_take, Nat.min_id, Hs. f_equal. apply drop_ge. len.
Qed.

Lemma parts_left size b n c a x z : holds_text size b n -> parts b n c = (a ++ [x], z) -> (c <= n)%nat ->
  parts b n (c - 1) = (a, x :: z).
Proof.
  intros Hh Hp Hc. destruct (text_split size b n c Hh Hc) as (a' & z' & r & _ & Ha & _ & Hp' & _). rewrite Hp in Hp'.
  injection Hp' as <- <-. rewrite length_app in Ha. cbn [length] in Ha.
  rewrite (parts_move b n c), Hp. cbn [fst snd]. rewrite <- app_assoc. replace (c - 1)%nat with (length a) by lia.
  by rewrite take_app_length, drop_app_length.
Qed.

Lemma parts_right size b n c a x z : holds_text size b n -> parts b n c = (a, x :: z) -> (c <= n)%nat ->
  parts b n (c + 1) = (a ++ [x], z).
Proof.
  intros Hh Hp Hc. destruct (text_split size b n c Hh Hc) as (a' & z' & r & _ & Ha & _ & Hp' & _). rewrite Hp in Hp'.
  injection Hp' as <- <-. rewrite (parts_move b n c), Hp. cbn [fst snd].
  change (x :: z) with ([x] ++ z). rewrite app_assoc.
  by rewrite take_app_length', drop_app_length' by (rewrite length_app; cbn [length]; lia).
Qed.

(** ** Cells put in and taken out *)

Section cells.
Context (base : nat).

Lemma insert_cells a z r s :
  (length s <= length r)%nat ->
  let b := memmove base (a ++ z ++ 0 :: r) (length a + length s) (length a) (length z) in
  <[(length a + length z + length s)%nat := 0]> (blit b (length a) s) = a ++ s ++ z ++ 0 :: drop (length s) r.
Proof.
  intros Hs b. unfold b. rewrite memmove_blit by (rewrite !length_app; cbn; lia).
  rewrite drop_app_length, take_app_length.
  destruct (decide (s = [])) as [->|Hne].
  { cbn [length app]. rewrite !Nat.add_0_r, blit_nil, blit_app by done. rewrite drop_0.
    rewrite insert_app_r_alt by lia. rewrite insert_app_r_alt by lia.
    by replace (length a + length z - length a - length z)%nat with 0%nat by lia. }
  apply list_eq. intros i.
  assert (length (blit (a ++ z ++ 0 :: r) (length a + length s) z) = length (a ++ z ++ 0 :: r)) as Hl1
    by (apply length_blit; rewrite !length_app; cbn; lia).
  assert (length (blit (blit (a ++ z ++ 0 :: r) (length a + length s) z) (length a) s) = length (a ++ z ++ 0 :: r)) as Hl2
    by (rewrite length_blit; rewrite Hl1; [done|]; rewrite !length_app; cbn; lia).
  assert (0 < length s)%nat as Hpos by (destruct s; [done|cbn; lia]).
  destruct (decide (i = length a + length z + length s)%nat) as [->|Hi].
  { rewrite list_lookup_insert_eq by (rewrite Hl2, !length_app; cbn; lia).
    rewrite !lookup_app_r by lia. by replace (_ - _ - _ - _)%nat with 0%nat by lia. }
  rewrite list_lookup_insert_ne by done. rewrite lookup_blit by (rewrite Hl1, !length_app; cbn; lia).
  case_decide as H1.
  { rewrite lookup_app_r by lia. rewrite lookup_app_l by lia. done. }
  rewrite lookup_blit by (rewrite !length_app; cbn; lia). case_decide as H2.
  { rewrite !lookup_app_r by lia. rewrite lookup_app_l by lia. f_equal. lia. }
  destruct (decide (i < length a)%nat).
  { by rewrite !lookup_app_l by lia. }
  rewrite !lookup_app_r by lia.
  destruct (i - length a - length z)%nat as [|k] eqn:Ek; [lia|].
  destruct (i - length a - length s - length z)%nat as [|k'] eqn:Ek'; [lia|].
  cbn [lookup list_lookup]. change (r !! k = drop (length s) r !! k'). rewrite lookup_drop. f_equal. lia.
Qed.

Lemma delete_cells a x z r :
  <[(length a + length z)%nat := 0]> (memmove base (a ++ (x :: z) ++ 0 :: r) (length a) (length a + 1) (length z)) =
  a ++ z ++ 0 :: 0 :: r.
Proof.
  rewrite memmove_blit by (rewrite !length_app; cbn; rewrite ?length_app; cbn; lia).
  replace (drop (length a + 1) (a ++ (x :: z) ++ 0 :: r)) with (z ++ 0 :: r).
  2:{ rewrite drop_app_ge by lia. replace (length a + 1 - length a)%nat with 1%nat by lia. done. }
  rewrite take_app_length.
  assert (exists y, (x :: z) = take (length z) (x :: z) ++ [y]) as [y Ey].
  { exists (List.last (x :: z) 0). rewrite (app_removelast_last 0) at 1 by done. f_equal.
    rewrite removelast_firstn_len. cbn [length Nat.pred]. done. }
  rewrite Ey, <- app_assoc, blit_app by (rewrite length_take; cbn; lia).
  rewrite insert_app_r_alt by lia. rewrite insert_app_r_alt by lia.
  by replace (length a + length z - length a - length z)%nat with 0%nat by lia.
Qed.

(** [s] put in at the cursor: move the tail up, copy, terminate. *)
Lemma text_insert size b n c s a z :
  holds_text size b n -> (c <= n)%nat -> Forall (fun c => c <> 0) s -> parts b n c = (a, z) -> (n + length s < size)%nat ->
  let b' := <[(n + length s)%nat := 0]> (blit (memmove base b (c + length s) c (n - c)) c s) in
  holds_text size b' (n + length s) /\ parts b' (n + length s) (c + length s) = (a ++ s, z).
Proof.
  intros Hh Hc Hs Hp Hn. destruct (text_split size b n c Hh Hc) as (a' & z' & r & Hb & Ha & Hl & Hp' & Hnz & HL).
  rewrite Hp in Hp'. injection Hp' as <- <-. rewrite Hb, <- Ha, <- Hl.
  replace (length a + length z - length a)%nat with (length z) by lia. cbv zeta.
  rewrite insert_cells by lia. rewrite app_assoc. apply text_join.
  - apply Forall_app in Hnz as [? ?]. rewrite <- app_assoc. auto using Forall_app_2.
  - rewrite length_app, length_drop. lia.
  - rewrite length_app. lia.
  - by rewrite length_app.
Qed.

(** The same for one character. *)
Lemma text_insert_char size b n c x a z :
  holds_text size b n -> (c <= n)%nat -> x <> 0 -> parts b n c = (a, z) -> (n + 1 < size)%nat ->
  let b' := <[(n + 1)%nat := 0]> (<[c := x]> (memmove base b (c + 1) c (n - c))) in
  holds_text size b' (n + 1) /\ parts b' (n + 1) (c + 1) = (a ++ [x], z).
Proof.
  intros Hh Hc Hx Hp Hn. destruct (text_insert size b n c [x] a z Hh Hc) as [H1 H2]; [by repeat constructor|done|done|].
  cbn [length] in H1, H2. rewrite <- insert_blit in H1, H2; [done| |];
    destruct Hh as (Hl & _ & _); destruct (memmove_moved base b (c + 1) c (n - c)) as [-> _]; lia.
Qed.

(** The character after the cursor taken out. *)
Lemma text_remove size b n c a x z :
  holds_text size b n -> (c <= n)%nat -> parts b n c = (a, x :: z) ->
  let b' := <[(n - 1)%nat := 0]> (memmove base b c (c + 1) (n - c - 1)) in
  holds_text size b' (n - 1) /\ parts b' (n - 1) c = (a, z).
Proof.
  intros Hh Hc Hp. destruct (text_split size b n c Hh Hc) as (a' & z' & r & Hb & Ha & Hl & Hp' & Hnz & HL).
  rewrite Hp in Hp'. injection Hp' as <- <-. cbn [length] in Hl, HL. cbv zeta.
  replace (n - 1)%nat with (length a + length z)%nat by lia. rewrite Hb, <- Ha.
  replace (n - length a - 1)%nat with (length z) by lia. rewrite delete_cells. apply text_join; [|cbn [length]; lia|lia|done].
  apply Forall_app in Hnz as [? [_ ?]%Forall_cons]. by apply Forall_app_2.
Qed.

(** The character before the cursor taken out. *)
Lemma text_backspace size b n c a x z :
  holds_text size b n -> (c <= n)%nat -> parts b n c = (a ++ [x], z) ->
  let b' := <[(n - 1)%nat := 0]> (memmove base b (c - 1) c (n - c)) in
  (0 < c)%nat /\ holds_text size b' (n - 1) /\ parts b' (n - 1) (c - 1) = (a, z).
Proof.
  intros Hh Hc Hp. pose proof (parts_left size b n c a x z Hh Hp Hc) as Hp1.
  destruct (text_split size b n c Hh Hc) as (a' & z' & r & _ & Ha & Hl & Hp' & _).
  rewrite Hp in Hp'. injection Hp' as <- <-. rewrite length_app in Ha. cbn [length] in Ha.
  destruct (text_remove size b n (c - 1) a x z Hh) as [H1 H2]; [lia|done|].
  replace (c - 1 + 1)%nat with c in H1, H2 by lia. replace (n - (c - 1) - 1)%nat with (n - c)%nat in H1, H2 by lia.
  split; [lia|]. done.
Qed.
End cells.

Lemma holds_text_strlcpy size b s : length b = S size ->
  (exists n, holds_text (S size) (strlcpy b s size) n) /\ cstr (strlcpy b s size) = take size (cstr s).
Proof.
  intros Hl. destruct (strlcpy_spec b s size Hl) as [Hlen Hc]. split; [|done].
  eexists. split; [by rewrite Hlen|]. split; [|reflexivity].
  rewrite <- length_cstr, Hc, length_take. lia.
Qed.

(** ** The editing keys

    What a key does to the text before and after the cursor, when at most
    [limit] characters are kept. *)
Definition edit_text (limit : nat) (key : Z) (l : list Z * list Z) : list Z * list Z :=
  let '(a, z) := l in
  if key =? 8 then (removelast a, z)
  else if key =? KEY_DELETE then (a, tl z)
  else if key =? KEY_LEFT then match last a with Some x => (removelast a, x :: z) | None => (a, z) end
  else if key =? KEY_RIGHT then match z with x :: z' => (a ++ [x], z') | [] => (a, z) end
  else if key =? KEY_HOME then ([], a ++ z)
  else if key =? KEY_END then (a ++ z, [])
  else if (0x20 <=? key) && (key <? 0x7F) && (length (a ++ z) <? limit)%nat then (a ++ [key], z)
  else (a, z).
