(* ===== verification/LineEditor.v ===== *)
(** * The line editor (src/shell/line_editor.c)

    [line_read] is a loop over keys; [key_step] is one iteration of it, on
    the editor's static state, the history and the screen.  The screen is the
    sequence of drawing calls, newest last.  [ed_base] is the address of
    [ed.buf] (memmove looks at its alignment), [max_cols], [content_top] and
    [content_bottom] are what [fb_get_cols] and [tui_get_layout] answer, and
    [db] is the database completion looks at.  The periodic refresh of the
    status bar while the loop waits for a key is not modelled. *)

From Stdlib Require Import String.
From S2P Require Import Prelude CLib Ring Keyboard Record Database Friendly History Complete.

Definition LINE_MAX : nat := 512.

Definition COLOR_WHITE : Z := 0xFFFFFFFF.
Definition COLOR_GREEN : Z := 0xFF00FF00.
Definition COLOR_CYAN : Z := 0xFF00FFFF.
Definition COLOR_RED : Z := 0xFFFF0000.
Definition COLOR_YELLOW : Z := 0xFFFFFF00.
Definition COLOR_GRAY : Z := 0xFF808080.
Definition COLOR_DKGRAY : Z := 0xFF404040.
Definition COLOR_VOS_BG : Z := 0xFF0A0A1A.
Definition COLOR_VOS_FG : Z := 0xFF00DDAA.
Definition COLOR_VOS_HL : Z := 0xFFFFCC00.

Definition highlight_keywords : list string := [
  "SELECT"; "INSERT"; "INTO"; "DELETE"; "UPDATE"; "FROM"; "WHERE"; "AND"; "SET"; "VALUES";
  "SHOW"; "TABLES"; "DESCRIBE"; "GRANT"; "REVOKE"; "ON"; "TO"; "READ"; "WRITE"; "ALL"; "OR";
  "INFO"; "FIND"; "COUNT"; "ADD"; "DEL"; "CREATE"; "OPEN"; "LIST"; "RM"; "CAT";
  "PS"; "KILL"; "SPAWN"; "MSG"; "INBOX"; "SAVE"; "RUN"; "SCRIPTS"; "SECURITY"; "CRYPTO"; "AUDIT"]%string.

Definition is_keyword (word : list Z) (wlen : nat) : bool :=
  existsb (fun k => (strlen (cs k) =? wlen)%nat && (strncasecmp (cs k) word wlen =? 0)) highlight_keywords.

Inductive draw :=
  | Cell (col row : nat) (ch fg bg : Z)      (* fb_draw_cell *)
  | ClearRows (first last : nat)             (* fb_clear_rows *)
  | SetCursor (col row : nat)                (* fb_set_cursor *)
  | Putchar (ch : Z).                        (* fb_putchar *)

(** The static structure [ed]. *)
Record editor := Ed {
  buf : list Z;
  len : nat;
  cursor : nat;
  prompt_col : nat;
  prompt_row : nat;
  saved_line : list Z;
  in_history : bool
}.

(** [memset(&ed, 0, sizeof(ed))] and the prompt's position. *)
Definition ed_start (col row : nat) : editor :=
  Ed (replicate LINE_MAX 0) 0 0 col row (replicate LINE_MAX 0) false.

Definition word_char (c : Z) : bool := isalnum c || (c =? 95).

(** [while (ws > 0 && ...) ws--] *)
Fixpoint ident_start (b : list Z) (ws : nat) : nat :=
  match ws with
  | O => O
  | S n => if word_char b.[n] then ident_start b n else ws
  end.

(** [while (we < ed.len && ...) we++] *)
Fixpoint ident_end (b : list Z) (fuel we : nat) : nat :=
  match fuel with
  | O => we
  | S fuel => if word_char b.[we] then ident_end b fuel (S we) else we
  end.

Definition in_string (b : list Z) (pos : nat) : bool :=
  foldl (fun q c => if c =? 39 then negb q else q) false (take pos b).

Definition get_char_color (e : editor) (pos : nat) : Z :=
  let b := buf e in
  let c := b.[pos] in
  if in_string b pos || (c =? 39) then COLOR_GREEN
  else if isdigit c && ((pos =? 0)%nat || is_separator b.[pos - 1]) then COLOR_CYAN
  else
    let operator :=
      if (c =? 61) || (c =? 60) || (c =? 62) || (c =? 33) || (c =? 42) then COLOR_YELLOW else COLOR_VOS_FG in
    if isalpha c || (c =? 95) then
      let ws := ident_start b pos in
      let we := ident_end b (len e - pos) pos in
      let wlen := (we - ws)%nat in
      if is_keyword (drop ws b) wlen then COLOR_VOS_HL
      else if existsb (fun a => (strlen (cs (fst a)) =? wlen)%nat && (strncasecmp (cs (fst a)) (drop ws b) wlen =? 0))
                friendly_get_aliases
      then COLOR_CYAN else operator
    else operator.

Section editor.
Context (ed_base : nat) (max_cols content_top content_bottom : nat) (db : db_state).

Definition redraw_line (e : editor) : list draw :=
  let col := prompt_col e in
  let shown := Nat.min (len e) (max_cols - col) in
  map (fun i => Cell (col + i) (prompt_row e) (buf e).[i] (get_char_color e i) COLOR_VOS_BG) (seq 0 shown) ++
  map (fun c => Cell c (prompt_row e) 32 COLOR_VOS_FG COLOR_VOS_BG) (seq (col + shown) (max_cols - (col + shown))) ++
  let cursor_col := (col + cursor e)%nat in
  if (cursor_col <? max_cols)%nat then
    [Cell cursor_col (prompt_row e) (if (cursor e <? len e)%nat then (buf e).[cursor e] else 32) COLOR_VOS_BG COLOR_VOS_FG]
  else [].

Definition erase_cursor (e : editor) : list draw :=
  let cursor_col := (prompt_col e + cursor e)%nat in
  if (cursor_col <? max_cols)%nat then
    if (cursor e <? len e)%nat
    then [Cell cursor_col (prompt_row e) (buf e).[cursor e] (get_char_color e (cursor e)) COLOR_VOS_BG]
    else [Cell cursor_col (prompt_row e) 32 COLOR_VOS_FG COLOR_VOS_BG]
  else [].

(** One row of the list of completions. *)
Definition show_completion (col row : nat) (m : list Z) : list draw :=
  let m := take (max_cols - col) (cstr m) in
  imap (fun i ch => Cell (col + i) row ch COLOR_CYAN COLOR_DKGRAY) m ++
  let c := (col + length m)%nat in
  map (fun c => Cell c row 32 COLOR_CYAN COLOR_DKGRAY) (seq c (Nat.min (col + 20) max_cols - c)).

Definition show_completions (e : editor) (comp : completion_result) : list draw :=
  let row := (prompt_row e + 1)%nat in
  if (content_bottom <=? row)%nat then []
  else concat (imap (fun i m => show_completion (prompt_col e) (row + i) m)
                 (take (content_bottom - row) (matches comp))).

Definition clear_completions (e : editor) (cnt : nat) : list draw :=
  let row := (prompt_row e + 1)%nat in
  map (fun r => ClearRows r (r + 1)) (seq row (Nat.min cnt (content_bottom - row))).

(** The state of the loop. *)
Record reader := Reader {
  ed : editor;
  hist : history;
  last_comp_count : nat;
  drawn : list draw
}.

Inductive outcome :=
  | Continue (r : reader)
  | Return (line : list Z) (fkey : Z) (r : reader).

Definition with_text (e : editor) (b : list Z) (l c : nat) : editor :=
  Ed b l c (prompt_col e) (prompt_row e) (saved_line e) (in_history e).

Definition set_saved (e : editor) (s : list Z) (h : bool) : editor :=
  Ed (buf e) (len e) (cursor e) (prompt_col e) (prompt_row e) s h.

Definition redraw (r : reader) (e : editor) : outcome :=
  Continue (Reader e (hist r) (last_comp_count r) (drawn r ++ redraw_line e)).

(** [memmove] to open a gap at the cursor, [memcpy] into it; nothing when the
    line would reach [LINE_MAX - 1]. *)
Definition insert_text (e : editor) (s : list Z) : editor :=
  let n := length s in
  if (len e + n <? LINE_MAX - 1)%nat then
    let b := memmove ed_base (buf e) (cursor e + n) (cursor e) (len e - cursor e) in
    let b := blit b (cursor e) s in
    let b := <[(len e + n)%nat := 0]> b in
    with_text e b (len e + n) (cursor e + n)
  else e.

(** [if (cursor == len && len < LINE_MAX - 2)]: a space after a completion. *)
Definition append_space (e : editor) : editor :=
  if (cursor e =? len e)%nat && (len e <? LINE_MAX - 2)%nat then
    with_text e (<[(len e + 1)%nat := 0]> (<[len e := 32]> (buf e))) (len e + 1) (cursor e + 1)
  else e.

Definition tab_key (r : reader) : outcome :=
  let e := ed r in
  let comp := complete_find db (buf e) (cursor e) in
  let word_len := (cursor e - word_start (buf e) (cursor e))%nat in
  if (count comp =? 1)%nat then
    let m := nth 0 (matches comp) [] in
    let e' :=
      if (word_len <? strlen m)%nat then
        let rest := drop word_len (cstr m) in
        if (len e + length rest <? LINE_MAX - 1)%nat then append_space (insert_text e rest) else e
      else e in
    redraw r e'
  else if (1 <? count comp)%nat then
    let p := common_prefix comp in
    let e' := if (word_len <? strlen p)%nat then insert_text e (drop word_len (cstr p)) else e in
    Continue (Reader e' (hist r) (count comp)
                (drawn r ++ redraw_line e' ++ show_completions e' comp))
  else Continue r.

Definition up_key (r : reader) : outcome :=
  let e := ed r in
  let e := if in_history e then e else set_saved e (buf e) true in
  let '(h, prev) := history_prev (hist r) in
  match prev with
  | Some line =>
      let b := strlcpy (buf e) line (LINE_MAX - 1) in
      let e := with_text e b (strlen b) (strlen b) in
      Continue (Reader e h (last_comp_count r) (drawn r ++ redraw_line e))
  | None => Continue (Reader e h (last_comp_count r) (drawn r))
  end.

Definition down_key (r : reader) : outcome :=
  let e := ed r in
  let '(h, nxt) := history_next (hist r) in
  let e :=
    match nxt with
    | Some line => with_text e (strlcpy (buf e) line (LINE_MAX - 1)) (len e) (cursor e)
    | None => set_saved (with_text e (saved_line e) (len e) (cursor e)) (saved_line e) false
    end in
  let e := with_text e (buf e) (strlen (buf e)) (strlen (buf e)) in
  Continue (Reader e h (last_comp_count r) (drawn r ++ redraw_line e)).

Definition enter_key (r : reader) : outcome :=
  let e := ed r in
  let d := drawn r ++ erase_cursor e ++ [SetCursor (prompt_col e + len e) (prompt_row e); Putchar 10] in
  let b := <[len e := 0]> (buf e) in
  let h := if (0 <? len e)%nat then history_add (hist r) (Some b) else hist r in
  Return (take (len e + 1) b) 0 (Reader (with_text e b (len e) (cursor e)) h (last_comp_count r) d).

(** The function keys, Ctrl-L, Escape and the characters. *)
Definition other_key (r : reader) (key : Z) : outcome :=
  let e := ed r in
  if (KEY_F1 <=? key) && (key <=? KEY_F10) then
    Return [0] key (Reader e (hist r) (last_comp_count r) (drawn r ++ erase_cursor e))
  else if key =? 0x0C then
    Return [0] KEY_F5 (Reader e (hist r) (last_comp_count r)
      (drawn r ++ [ClearRows content_top content_bottom; SetCursor 0 content_top] ++ erase_cursor e))
  else if key =? 0x1B then
    let e := set_saved (with_text e (<[0%nat := 0]> (buf e)) 0 0) (saved_line e) false in
    Continue (Reader e (history_reset_nav (hist r)) (last_comp_count r) (drawn r ++ redraw_line e))
  else if (0x20 <=? key) && (key <? 0x7F) && (len e <? LINE_MAX - 1)%nat then
    let b := memmove ed_base (buf e) (cursor e + 1) (cursor e) (len e - cursor e) in
    let b := <[cursor e := key]> b in
    redraw r (with_text e (<[(len e + 1)%nat := 0]> b) (len e + 1) (cursor e + 1))
  else Continue r.

Definition key_step (r : reader) (key : Z) : outcome :=
  let r := if (0 <? last_comp_count r)%nat
           then Reader (ed r) (hist r) 0 (drawn r ++ clear_completions (ed r) (last_comp_count r)) else r in
  let e := ed r in
  if key =? 10 then enter_key r
  else if key =? 8 then
    if (0 <? cursor e)%nat then
      let b := memmove ed_base (buf e) (cursor e - 1) (cursor e) (len e - cursor e) in
      redraw r (with_text e (<[(len e - 1)%nat := 0]> b) (len e - 1) (cursor e - 1))
    else Continue r
  else if key =? KEY_DELETE then
    if (cursor e <? len e)%nat then
      let b := memmove ed_base (buf e) (cursor e) (cursor e + 1) (len e - cursor e - 1) in
      redraw r (with_text e (<[(len e - 1)%nat := 0]> b) (len e - 1) (cursor e))
    else Continue r
  else if key =? KEY_LEFT then
    if (0 <? cursor e)%nat then redraw r (with_text e (buf e) (len e) (cursor e - 1)) else Continue r
  else if key =? KEY_RIGHT then
    if (cursor e <? len e)%nat then redraw r (with_text e (buf e) (len e) (cursor e + 1)) else Continue r
  else if key =? KEY_HOME then redraw r (with_text e (buf e) (len e) 0)
  else if key =? KEY_END then redraw r (with_text e (buf e) (len e) (len e))
  else if key =? KEY_UP then up_key r
  else if key =? KEY_DOWN then down_key r
  else if key =? 9 then tab_key r
  else other_key r key.

(** The loop, on what [keyboard_getchar_nonblock] answers: 0 is no key.
    [Continue]: it waits for more. *)
Fixpoint read_keys (r : reader) (keys : list Z) : outcome :=
  match keys with
  | [] => Continue r
  | k :: keys =>
      if k =? 0 then read_keys r keys
      else
        match key_step r k with
        | Continue r => read_keys r keys
        | ret => ret
        end
  end.

Definition line_read (h : history) (col row : nat) (keys : list Z) : outcome :=
  let e := ed_start col row in
  read_keys (Reader e (history_reset_nav h) 0 (redraw_line e)) keys.
End editor.
