(* ===== verification/LineEditorSpec.v ===== *)
(** * Correctness of the line editor

    A view is what the user sees: the text before and after the cursor, the
    history and the place in it ([line_view]); [respond] is what a key does to
    it.  The array operations of the editor implement that, never leave the
    array, and what is typed is what is returned. *)

From Stdlib Require Import String.
From S2P Require Import Prelude CLib Ring Keyboard Record Database Friendly History Complete TextBuf LineEditor.

Definition text_of (e : editor) : list Z := take (len e) (buf e).
Definition zip (e : editor) : list Z * list Z := parts (buf e) (len e) (cursor e).

Record editor_ok (e : editor) : Prop := {
  eo_line : holds_text LINE_MAX (buf e) (len e);
  eo_cursor : (cursor e <= len e)%nat;
  eo_saved : exists n, holds_text LINE_MAX (saved_line e) n
}.

(** A new text in the buffer. *)
Lemma with_text_ok e b n c : editor_ok e -> holds_text LINE_MAX b n -> (c <= n)%nat ->
  editor_ok (with_text e b n c) /\ zip (with_text e b n c) = parts b n c.
Proof. intros [_ _ H3] Hb Hc. split; [by split|done]. Qed.

Lemma set_nav_ok h n : history_ok h -> history_ok (set_nav h n).
Proof. by intros []. Qed.

(** ** The editor as the user sees it *)

(** The text before and after the cursor, the line set aside when browsing the
    history began and whether it is being browsed, the history, newest line
    first, and the line of it that is shown. *)
Record line_view := View {
  before : list Z;
  after : list Z;
  aside : list Z;
  browsing : bool;
  past : list (list Z);
  place : option nat
}.

Definition set_parts (v : line_view) (l : list Z * list Z) : line_view := View l.1 l.2 (aside v) (browsing v) (past v) (place v).

(** What Up and Down show of line [k]. *)
Definition recall (v : line_view) (k : nat) : list Z := take (LINE_MAX - 1) (nth k (past v) []).

(** Up sets the line aside when it begins to browse, and shows the newest line,
    then older ones. *)
Definition go_up (v : line_view) : line_view :=
  let line := if browsing v then aside v else before v ++ after v in
  match past v with
  | [] => View (before v) (after v) line true [] (place v)
  | _ => let k := match place v with None => O | Some k => older (length (past v)) k end in View (recall v k) [] line true (past v) (Some k)
  end.

(** Down shows newer lines, and past the newest the line set aside.  When none
    is shown it puts the line set aside in place of what has been typed. *)
Definition go_down (v : line_view) : line_view :=
  match place v with
  | Some (S k) => View (recall v k) [] (aside v) (browsing v) (past v) (Some k)
  | _ => View (aside v) [] (aside v) false (past v) None
  end.

(** The word that ends a text. *)
Fixpoint word_of (rev_text : list Z) : list Z :=
  match rev_text with
  | [] => []
  | c :: l => if is_separator c then [] else c :: word_of l
  end.

Definition last_word (text : list Z) : list Z := word_of (rev text).

(** What Tab puts in, given what [complete_find] offers: the rest of the only
    string offered, with a space at the end of the line, or the rest of what
    several have in common; nothing where the line would grow to 511. *)
Definition completion (offered : completion_result) (v : line_view) : list Z :=
  let n := length (before v ++ after v) in
  let rest s := drop (length (last_word (before v))) (cstr s) in
  let room s := (n + length s <? LINE_MAX - 1)%nat in
  match matches offered with
  | [] => []
  | [m] =>
      match rest m with
      | [] => []
      | s => if room s then s ++ (if decide (after v = []) then if (n + length s <? LINE_MAX - 2)%nat then [32] else [] else []) else []
      end
  | _ => let s := rest (common_prefix offered) in if room s then s else []
  end.

(** The history after a line has been entered. *)
Definition remember (line : list Z) (past : list (list Z)) : list (list Z) :=
  if decide (line = [] \/ hd_error past = Some line) then past else take HISTORY_SIZE (line :: past).

Inductive answer := Stay (v : line_view) | Give (line : list Z) (fkey : Z) (past : list (list Z)).

(** What a key does: only Enter, the function keys and Ctrl-L end the reading,
    the last two with an empty line. *)
Definition respond (offered : completion_result) (key : Z) (v : line_view) : answer :=
  if key =? 10 then Give (before v ++ after v) 0 (remember (before v ++ after v) (past v))
  else if (KEY_F1 <=? key) && (key <=? KEY_F10) then Give [] key (past v)
  else if key =? 0x0C then Give [] KEY_F5 (past v)
  else if key =? KEY_UP then Stay (go_up v)
  else if key =? KEY_DOWN then Stay (go_down v)
  else if key =? 9 then Stay (set_parts v (before v ++ completion offered v, after v))
  else if key =? 0x1B then Stay (View [] [] (aside v) false (past v) None)
  else Stay (set_parts v (edit_text (LINE_MAX - 1) key (before v, after v))).

(** The state of the loop that a view is of. *)
Record shows (r : reader) (v : line_view) : Prop := Shows {
  sh_editor : editor_ok (ed r);
  sh_history : history_ok (hist r);
  sh_zip : zip (ed r) = (before v, after v);
  sh_aside : cstr (saved_line (ed r)) = aside v;
  sh_browsing : in_history (ed r) = browsing v;
  sh_past : entries (hist r) = past v;
  sh_place : at_entry (hist r) (place v)
}.

Definition answers (o : outcome) (a : answer) : Prop :=
  match o, a with
  | Continue r, Stay v => shows r v
  | Return line fkey r, Give line' fkey' past' =>
      cstr line = line' /\ fkey = fkey' /\ editor_ok (ed r) /\ history_ok (hist r) /\ entries (hist r) = past'
  | _, _ => False
  end.

(** ** Words *)

Lemma last_word_length b c : (c <= length b)%nat -> length (last_word (take c b)) = (c - word_start b c)%nat.
Proof.
  assert (forall c, word_start b c <= c)%nat as Hle.
  { clear. induction c as [|c IH]; cbn [word_start]; [lia|]. destruct (is_separator _); lia. }
  induction c as [|c IH]; intros Hc; [done|]. cbn [word_start].
  assert (is_Some (b !! c)) as [x Hx] by (apply lookup_lt_is_Some; lia).
  rewrite (take_S_r _ _ x), (nth_lookup_Some _ _ _ x) by done.
  unfold last_word in *. rewrite rev_app_distr. cbn [rev app word_of].
  destruct (is_separator x); cbn [length]; [lia|]. rewrite IH by lia. specialize (Hle c). lia.
Qed.

Section keys.
Context (ed_base : nat) (max_cols content_top content_bottom : nat) (db : db_state).

Local Notation step := (key_step ed_base max_cols content_top content_bottom db).
Local Notation offered r := (complete_find db (buf (ed r)) (cursor (ed r))).

(** A new text in the buffer is a new view of the line. *)
Lemma view_text_shows r v b n c k d : shows r v -> holds_text LINE_MAX b n -> (c <= n)%nat ->
  shows (Reader (with_text (ed r) b n c) (hist r) k d) (set_parts v (parts b n c)).
Proof. intros [H1 H2 H3 H4 H5 H6 H7] Hb Hc. destruct (with_text_ok (ed r) b n c H1 Hb Hc) as [G1 G2]. by split. Qed.

Lemma redraw_shows r v b n c l : shows r v -> holds_text LINE_MAX b n -> (c <= n)%nat -> parts b n c = l ->
  answers (redraw max_cols r (with_text (ed r) b n c)) (Stay (set_parts v l)).
Proof. intros Hs Hb Hc <-. by apply view_text_shows. Qed.

Lemma clear_shows r v n d : shows r v -> shows (Reader (ed r) (hist r) n d) v.
Proof. intros [H1 H2 H3 H4 H5 H6 H7]. by split. Qed.

Lemma set_parts_same v : set_parts v (before v, after v) = v.
Proof. by destruct v. Qed.

Lemma same_shows r v l : shows r v -> (before v, after v) = l -> answers (Continue r) (Stay (set_parts v l)).
Proof. intros Hs <-. by destruct v. Qed.

Lemma insert_text_parts e s : editor_ok e -> Forall (fun c => c <> 0) s -> (len e + length s < LINE_MAX - 1)%nat ->
  exists b, insert_text ed_base e s = with_text e b (len e + length s) (cursor e + length s) /\
    holds_text LINE_MAX b (len e + length s) /\ parts b (len e + length s) (cursor e + length s) = ((zip e).1 ++ s, (zip e).2).
Proof.
  intros [Hl Hc _] Hs H. unfold insert_text. rewrite (proj2 (Nat.ltb_lt _ _)) by done. eexists. split; [reflexivity|].
  apply text_insert; [done|done|done|apply surjective_pairing|lia].
Qed.

Lemma append_space_parts e : editor_ok e -> (cursor e = len e)%nat -> (len e < LINE_MAX - 2)%nat ->
  exists b, append_space e = with_text e b (len e + 1) (cursor e + 1) /\
    holds_text LINE_MAX b (len e + 1) /\ parts b (len e + 1) (cursor e + 1) = ((zip e).1 ++ [32], (zip e).2).
Proof.
  intros [Hl Hc _] E1 E2. unfold append_space. rewrite (proj2 (Nat.eqb_eq _ _)), (proj2 (Nat.ltb_lt _ _)) by done.
  eexists. split; [reflexivity|].
  destruct (text_insert_char 0 LINE_MAX (buf e) (len e) (cursor e) 32 (zip e).1 (zip e).2) as [H1 H2];
    [done|done|done|apply surjective_pairing|lia|].
  rewrite E1, Nat.sub_diag in H1, H2. rewrite memmove_blit in H1, H2 by (destruct Hl as (-> & _ & _); lia).
  rewrite take_0, blit_nil in H1, H2. by rewrite E1.
Qed.

Lemma view_length r v : shows r v -> len (ed r) = length (before v ++ after v) /\ cursor (ed r) = length (before v).
Proof.
  intros [[Hl Hc _] _ Hz _ _ _ _]. pose proof (length_parts _ _ _ (cursor (ed r)) Hl) as H. fold (zip (ed r)) in H.
  rewrite Hz in H. cbn [fst snd] in H. rewrite length_app. split; [lia|].
  apply (f_equal fst) in Hz. cbn [fst] in Hz. rewrite <- Hz. unfold zip, parts. cbn [fst]. rewrite !length_take. destruct Hl as (-> & ? & _). lia.
Qed.

Lemma view_word r v : shows r v ->
  (cursor (ed r) - word_start (buf (ed r)) (cursor (ed r)))%nat = length (last_word (before v)).
Proof.
  intros [[(Hb & Hn & _) Hc _] _ Hz _ _ _ _]. rewrite <- last_word_length by lia. do 2 f_equal.
  apply (f_equal fst) in Hz. cbn [fst] in Hz. rewrite <- Hz. unfold zip, parts. cbn [fst]. rewrite take_take. by replace (cursor (ed r) `min` len (ed r))%nat with (cursor (ed r)) by lia.
Qed.

(** ** Tab *)

Lemma rest_nonzero n (s : list Z) : Forall (fun c => c <> 0) (drop n (cstr s)).
Proof. apply Forall_drop, cstr_nonzero. Qed.

Lemma insert_shows r v s k d : shows r v -> Forall (fun c => c <> 0) s ->
  shows (Reader (insert_text ed_base (ed r) s) (hist r) k d)
    (set_parts v (before v ++ (if (length (before v ++ after v) + length s <? LINE_MAX - 1)%nat then s else []), after v)).
Proof.
  intros Hs Hz. destruct (view_length r v Hs) as [El _]. pose proof (sh_editor _ _ Hs) as Hok. rewrite <- El.
  destruct (Nat.ltb_spec (len (ed r) + length s) (LINE_MAX - 1)) as [H|H].
  - destruct (insert_text_parts (ed r) s Hok Hz H) as (b & -> & Hb & Hp). rewrite (sh_zip _ _ Hs) in Hp. cbn [fst snd] in Hp. rewrite <- Hp.
    apply view_text_shows; [done|done|destruct Hok; lia].
  - rewrite app_nil_r. unfold insert_text. rewrite (proj2 (Nat.ltb_ge _ _)) by done. rewrite set_parts_same. by apply clear_shows.
Qed.

Lemma tab_shows r v : shows r v -> answers (tab_key ed_base max_cols content_bottom db r) (Stay (set_parts v (before v ++ completion (offered r) v, after v))).
Proof.
  intros Hs. destruct (view_length r v Hs) as [El Ec]. unfold tab_key, completion, count. rewrite (view_word r v Hs).
  set (w := length (last_word (before v))). destruct (matches (offered r)) as [|m [|m' ms] ] eqn:Em; cbn [length Nat.eqb nth].
  - change (1 <? 0)%nat with false. apply same_shows; [done|]. by rewrite app_nil_r.
  - pose proof (rest_nonzero w m) as Hz. destruct (Nat.ltb_spec w (strlen m)) as [Hw|Hw].
    2:{ rewrite (drop_ge (cstr m)) by (rewrite length_cstr; lia). rewrite app_nil_r, set_parts_same. by apply clear_shows. }
    destruct (drop w (cstr m)) as [|x s] eqn:Er; [apply (f_equal length) in Er; rewrite length_drop, length_cstr in Er; cbn in Er; lia|].
    cbv iota beta zeta. change (S (length s)) with (length (x :: s)). set (rest := x :: s) in *. clearbody rest. rewrite El. destruct (Nat.ltb_spec (length (before v ++ after v) + length rest) (LINE_MAX - 1)) as [Hr|Hr].
    2:{ rewrite app_nil_r, set_parts_same. by apply clear_shows. }
    destruct (insert_text_parts (ed r) rest (sh_editor _ _ Hs) Hz) as (b & Eb & Hb & Hp); [lia|]. rewrite (sh_zip _ _ Hs) in Hp. cbn [fst snd] in Hp.
    rewrite Eb. set (e := with_text _ _ _ _).
    assert (cursor e = len e <-> after v = []) as Hend.
    { unfold e. cbn [with_text cursor len]. rewrite El, Ec, length_app. split; [|intros ->; cbn; lia]. intros E. apply length_zero_iff_nil. lia. }
    pose proof (view_text_shows r v b _ (cursor (ed r) + length rest) 0 [] Hs Hb ltac:(rewrite El, Ec, length_app; lia)) as Hs'. fold e in Hs'. rewrite Hp in Hs'.
    destruct (with_text_ok (ed r) b _ (cursor (ed r) + length rest) (sh_editor _ _ Hs) Hb ltac:(rewrite El, Ec, length_app; lia)) as [He Hze].
    fold e in He, Hze. rewrite Hp in Hze.
    assert (len e = length (before v ++ after v) + length rest)%nat as Ele by (unfold e; cbn [with_text len]; by rewrite El).
    rewrite <- Ele. destruct (decide (after v = [])) as [Ea|Ea].
    + destruct (Nat.ltb_spec (len e) (LINE_MAX - 2)) as [Hsp|Hsp].
      * destruct (append_space_parts e He (proj2 Hend Ea) Hsp) as (b' & -> & Hb' & Hp'). rewrite Hze in Hp'. cbn [fst snd] in Hp'.
        rewrite <- app_assoc in Hp'. rewrite <- Hp'. apply (view_text_shows (Reader e (hist r) 0 []) _ b' _ _ _ _ Hs' Hb'). rewrite (proj2 Hend Ea). lia.
      * unfold append_space. rewrite (proj2 (Nat.ltb_ge _ _)) by done. rewrite andb_false_r, app_nil_r. by apply (clear_shows (Reader e (hist r) 0 [])).
    + unfold append_space. rewrite (proj2 (Nat.eqb_neq _ _)) by (intros E; by apply Ea, Hend). cbn [andb]. rewrite app_nil_r. by apply (clear_shows (Reader e (hist r) 0 [])).
  - change (1 <? S (S (length ms)))%nat with true. set (p := common_prefix (offered r)). destruct (Nat.ltb_spec w (strlen p)) as [Hw|Hw].
    + apply insert_shows; [done|apply rest_nonzero].
    + rewrite (drop_ge (cstr p)) by (rewrite length_cstr; lia). cbn [length].
      assert ((if (length (before v ++ after v) + 0 <? LINE_MAX - 1)%nat then @nil Z else []) = []) as -> by (by destruct (_ <? _)%nat).
      rewrite app_nil_r, set_parts_same. by apply clear_shows.
Qed.

(** ** The history keys *)

Lemma whole_shows e h n d v b k : editor_ok e -> history_ok h -> (exists n, holds_text LINE_MAX b n) ->
  cstr (saved_line e) = aside v -> in_history e = browsing v -> entries h = past v -> at_entry h k ->
  shows (Reader (with_text e b (strlen b) (strlen b)) h n d) (View (cstr b) [] (aside v) (browsing v) (past v) k).
Proof.
  intros He Hh [m Hb] H1 H2 H3 H4. pose proof Hb as (_ & _ & ->). destruct (with_text_ok e b m m He Hb (le_n m)) as [G1 G2].
  split; [done|done| |done|done|done|done]. cbn [ed before after]. by rewrite G2, (parts_end LINE_MAX b m Hb).
Qed.

Lemma past_entry r v k : shows r v -> (k < history_count (hist r))%nat -> entries (hist r) !! k = Some (nth k (past v) []).
Proof. intros Hs Hk. rewrite <- (sh_past _ _ Hs), entries_lookup by done. f_equal. symmetry. by apply nth_lookup_Some, entries_lookup. Qed.

Lemma up_shows r v : shows r v -> answers (up_key max_cols r) (Stay (go_up v)).
Proof.
  intros Hs. unfold up_key. set (e := if in_history (ed r) then ed r else set_saved (ed r) (buf (ed r)) true).
  pose proof Hs as [Hok Hh Hz Ha Hb Hp Hpl]. pose proof Hok as [Hl Hc Hsv].
  set (line := if browsing v then aside v else before v ++ after v).
  assert (editor_ok e /\ zip e = zip (ed r) /\ cstr (saved_line e) = line /\ in_history e = true) as (He & Hze & Hse & Hie).
  { unfold e, line. rewrite Hb. destruct (browsing v) eqn:Ebr; [done|]. split_and!; [|done| |done].
    - split; [done|done|]. by eexists.
    - cbn [set_saved saved_line]. rewrite (cstr_parts _ _ _ (cursor (ed r)) Hl). fold (zip (ed r)). by rewrite Hz. }
  clearbody e. pose proof (history_navigation (hist r) (place v) Hh Hpl) as Hnav. unfold go_up. fold line.
  destruct (history_prev (hist r)) as [h shown] eqn:Eh, (history_next (hist r)) as [h' shown'].
  destruct Hnav as (H0 & H1 & _). pose proof (length_entries (hist r)) as Elen. rewrite Hp in Elen.
  destruct (past v) as [|p0 ps] eqn:Ep.
  - destruct (H0 (eq_sym Elen)) as [-> ->]. split; cbn [ed hist before after aside browsing past place]; congruence || done.
  - destruct H1 as (G1 & G2 & G3 & G4); [rewrite <- Elen; cbn; lia|]. rewrite <- Ep in *.
    set (k := match place v with None => O | Some k => older (length (past v)) k end).
    assert (match place v with None => O | Some k => older (history_count (hist r)) k end = k) as Ek by (unfold k; by rewrite Elen).
    rewrite Ek in G1, G4. pose proof G1 as [Hk _]. rewrite <- length_entries, G3, length_entries in Hk. rewrite (past_entry r v k Hs Hk) in G4.
    destruct shown as [shown|]; [|discriminate G4]. injection G4 as G4.
    destruct (holds_text_strlcpy (LINE_MAX - 1) (buf e) shown) as [Hb' Hc']; [by destruct He as [(-> & _) _ _]|].
    unfold recall. rewrite <- G4, <- Hc'. apply (whole_shows e h _ _ (View [] [] line true (past v) None)); [done|done|done|done|done|cbn [past]; congruence|done].
Qed.

Lemma down_shows r v : shows r v -> answers (down_key max_cols r) (Stay (go_down v)).
Proof.
  intros Hs. unfold down_key, go_down. pose proof Hs as [Hok Hh Hz Ha Hb Hp Hpl]. pose proof Hok as [Hl Hc Hsv].
  pose proof (history_navigation (hist r) (place v) Hh Hpl) as Hnav.
  destruct (history_prev (hist r)) as [h0 shown0], (history_next (hist r)) as [h shown].
  destruct Hnav as (_ & _ & Hn).
  assert (forall h, history_ok h -> entries h = past v -> at_entry h None -> answers (Continue (Reader
    (let e := set_saved (with_text (ed r) (saved_line (ed r)) (len (ed r)) (cursor (ed r))) (saved_line (ed r)) false in
     with_text e (buf e) (strlen (buf e)) (strlen (buf e))) h (last_comp_count r)
     (drawn r ++ redraw_line max_cols (let e := set_saved (with_text (ed r) (saved_line (ed r)) (len (ed r)) (cursor (ed r))) (saved_line (ed r)) false in
     with_text e (buf e) (strlen (buf e)) (strlen (buf e)))))) (Stay (View (aside v) [] (aside v) false (past v) None))) as Hback.
  { intros h1 K1 K2 K3. cbv zeta. cbn [set_saved with_text buf]. rewrite <- Ha at 1.
    pose proof (whole_shows (set_saved (ed r) (saved_line (ed r)) false) h1 (last_comp_count r)
      (drawn r ++ redraw_line max_cols (with_text (set_saved (ed r) (saved_line (ed r)) false) (saved_line (ed r)) (strlen (saved_line (ed r))) (strlen (saved_line (ed r)))))
      (View [] [] (aside v) false (past v) None) (saved_line (ed r)) None) as W.
    cbn [aside browsing past] in W. apply W; [by split|done|done|done|done|done|done]. }
  destruct (place v) as [ [|k]|] eqn:Epl.
  - destruct Hn as (-> & Hat & ->). apply Hback; [by apply set_nav_ok|done|done].
  - destruct Hn as (G1 & G2 & G3 & G4). pose proof G1 as [Hk _]. rewrite <- length_entries, G3, length_entries in Hk.
    rewrite (past_entry r v k Hs Hk) in G4. destruct shown as [shown|]; [|discriminate G4]. injection G4 as G4.
    destruct (holds_text_strlcpy (LINE_MAX - 1) (buf (ed r)) shown) as [Hb' Hc']; [by destruct Hl|].
    unfold recall. rewrite <- G4, <- Hc'. apply (whole_shows (ed r) h _ _ v); [done|done|done|done|done|congruence|done].
  - destruct Hn as [-> ->]. by apply Hback.
Qed.

(** ** Enter and the editing keys *)

Lemma enter_shows r v : shows r v -> answers (enter_key max_cols r) (Give (before v ++ after v) 0 (remember (before v ++ after v) (past v))).
Proof.
  intros Hs. pose proof Hs as [Hok Hh Hz _ _ Hp _]. pose proof Hok as [Hl Hc _]. unfold enter_key.
  destruct (text_split _ _ _ _ Hl Hc) as (a & z & q & Hb & Ha & Hn & Hz' & Hnz & HL). fold (zip (ed r)) in Hz'. rewrite Hz in Hz'. injection Hz' as Ea Ez.
  assert (<[len (ed r) := 0]> (buf (ed r)) = buf (ed r)) as ->.
  { rewrite Hb, !insert_app_r_alt by lia. by replace (_ - _ - _)%nat with 0%nat by lia. }
  destruct (with_text_ok (ed r) (buf (ed r)) (len (ed r)) (cursor (ed r)) Hok Hl Hc) as [H1 _].
  assert (cstr (buf (ed r)) = before v ++ after v) as Ecs.
  { rewrite Ea, Ez, Hb, app_assoc, cstr_app_nonzero by done. by rewrite app_nil_r. }
  split; [|split; [done|split; [done|]]]; cbn [ed hist].
  - rewrite Ea, Ez, Hb, app_assoc, firstn_app, take_ge, cstr_app_nonzero by (rewrite ?length_app; done || lia).
    replace (len (ed r) + 1 - length (a ++ z))%nat with 1%nat by (rewrite length_app; lia). by rewrite app_nil_r.
  - split; [destruct (0 <? _)%nat; [by apply history_add_ok|done]|]. unfold remember. rewrite <- Hp.
    destruct (Nat.ltb_spec 0 (len (ed r))) as [H0|H0].
    + rewrite entries_history_add, Ecs by done. rewrite (take_ge (before v ++ after v)); [done|].
      destruct (view_length r v Hs) as [<- _]. destruct Hl as (_ & Hlt & _). unfold LINE_MAX in Hlt. lia.
    + rewrite decide_True; [done|]. left. apply length_zero_iff_nil. destruct (view_length r v Hs) as [<- _]. lia.
Qed.

Lemma edit_shows r v key : shows r v -> key <> 10 -> key <> KEY_UP -> key <> KEY_DOWN -> key <> 9 -> key <> 0x0C -> key <> 0x1B ->
  (KEY_F1 <=? key) && (key <=? KEY_F10) = false -> last_comp_count r = 0%nat ->
  answers (step r key) (Stay (set_parts v (edit_text (LINE_MAX - 1) key (before v, after v)))).
Proof.
  intros Hs N1 N2 N3 N4 N5 N6 NF Hlc. unfold key_step, other_key. rewrite Hlc. change (0 <? 0)%nat with false. cbv iota zeta.
  pose proof Hs as [ [Hl Hc _] _ Hz _ _ _ _]. unfold zip in Hz. destruct (view_length r v Hs) as [El Ecur]. rewrite length_app in El.
  rewrite (proj2 (Z.eqb_neq key 10)) by done. unfold edit_text at 1.
  destruct (Z.eqb_spec key 8) as [->|N7].
  { destruct (Nat.ltb_spec 0 (cursor (ed r))) as [Hpos|Hpos].
    - destruct (exists_last (l := before v)) as (a & x & Ea); [intros E; rewrite E in Ecur; cbn in Ecur; lia|]. rewrite Ea in *.
      destruct (text_backspace ed_base _ _ _ _ a x (after v) Hl Hc Hz) as (_ & H1 & H2).
      rewrite removelast_last. apply redraw_shows; [done|done|lia|done].
    - apply same_shows; [done|]. by destruct (before v); [|cbn in Ecur; lia]. }
  destruct (Z.eqb_spec key KEY_DELETE) as [->|N8].
  { destruct (Nat.ltb_spec (cursor (ed r)) (len (ed r))) as [Hlt|Hlt].
    - destruct (after v) as [|x z] eqn:Ez; [cbn in El; lia|].
      destruct (text_remove ed_base _ _ _ _ (before v) x z Hl Hc Hz) as [H1 H2]. apply redraw_shows; [done|done|lia|done].
    - apply same_shows; [done|]. by destruct (after v); [|cbn in El; lia]. }
  destruct (Z.eqb_spec key KEY_LEFT) as [->|N9].
  { destruct (Nat.ltb_spec 0 (cursor (ed r))) as [Hpos|Hpos].
    - destruct (exists_last (l := before v)) as (a & x & Ea); [intros E; rewrite E in Ecur; cbn in Ecur; lia|]. rewrite Ea in *.
      rewrite last_snoc, removelast_last. apply redraw_shows; [done|done|lia|]. by apply (parts_left LINE_MAX _ _ _ a x (after v) Hl).
    - apply same_shows; [done|]. by destruct (before v); [|cbn in Ecur; lia]. }
  destruct (Z.eqb_spec key KEY_RIGHT) as [->|N10].
  { destruct (Nat.ltb_spec (cursor (ed r)) (len (ed r))) as [Hlt|Hlt].
    - destruct (after v) as [|x z] eqn:Ez; [cbn in El; lia|]. apply redraw_shows; [done|done|lia|]. by apply (parts_right LINE_MAX _ _ _ (before v) x z Hl).
    - apply same_shows; [done|]. by destruct (after v); [|cbn in El; lia]. }
  destruct (Z.eqb_spec key KEY_HOME) as [->|N11].
  { apply redraw_shows; [done|done|lia|]. rewrite (parts_move _ _ (cursor (ed r))), Hz. cbn [fst snd]. done. }
  destruct (Z.eqb_spec key KEY_END) as [->|N12].
  { apply redraw_shows; [done|done|lia|]. rewrite (parts_end LINE_MAX _ _ Hl), (cstr_parts _ _ _ (cursor (ed r)) Hl), Hz. done. }
  rewrite (proj2 (Z.eqb_neq key KEY_UP)), (proj2 (Z.eqb_neq key KEY_DOWN)), (proj2 (Z.eqb_neq key 9)), NF by done.
  rewrite (proj2 (Z.eqb_neq key 0x0C)), (proj2 (Z.eqb_neq key 0x1B)) by done. rewrite length_app, <- El.
  destruct ((32 <=? key) && (key <? 127) && (len (ed r) <? LINE_MAX - 1)%nat) eqn:EP.
  - apply andb_true_iff in EP as [[H1%Z.leb_le H2%Z.ltb_lt]%andb_true_iff H3%Nat.ltb_lt].
    destruct (text_insert_char ed_base LINE_MAX (buf (ed r)) (len (ed r)) (cursor (ed r)) key (before v) (after v)) as [G1 G2];
      [done|done|lia|done|lia|]. apply redraw_shows; [done|done|lia|done].
  - by apply same_shows.
Qed.

Lemma key_step_clear r key : step r key =
  step (if (0 <? last_comp_count r)%nat then Reader (ed r) (hist r) 0 (drawn r ++ clear_completions content_bottom (ed r) (last_comp_count r)) else r) key.
Proof. unfold key_step. destruct (0 <? last_comp_count r)%nat eqn:E; [done|]. by rewrite E. Qed.

Lemma key_step_shows r v key : shows r v -> answers (step r key) (respond (offered r) key v).
Proof.
  intros Hs. rewrite key_step_clear. set (r1 := if (0 <? last_comp_count r)%nat then _ else _).
  assert (shows r1 v /\ ed r1 = ed r /\ last_comp_count r1 = 0%nat) as (Hs1 & He & Hn).
  { unfold r1. destruct (Nat.ltb_spec 0 (last_comp_count r)); [by split; [apply clear_shows|]|]. split; [done|]. split; [done|lia]. }
  rewrite <- He. clearbody r1. clear r Hs He. rename r1 into r. unfold respond.
  destruct (Z.eqb_spec key 10) as [->|N1]; [unfold key_step; rewrite Hn; cbn [Nat.ltb Nat.leb]; by apply enter_shows|].
  destruct ((KEY_F1 <=? key) && (key <=? KEY_F10)) eqn:EF.
  { unfold key_step, other_key. rewrite Hn. change (0 <? 0)%nat with false. cbv iota zeta. rewrite EF.
    apply andb_true_iff in EF as [H1%Z.leb_le H2%Z.leb_le]. unfold KEY_F1, KEY_F10 in *.
    unfold KEY_DELETE, KEY_LEFT, KEY_RIGHT, KEY_HOME, KEY_END, KEY_UP, KEY_DOWN. rewrite !(proj2 (Z.eqb_neq _ _)) by lia. by destruct Hs1. }
  destruct (Z.eqb_spec key 0x0C) as [->|N2]; [unfold key_step; rewrite Hn; by destruct Hs1|].
  destruct (Z.eqb_spec key KEY_UP) as [->|N3]; [unfold key_step; rewrite Hn; by apply up_shows|].
  destruct (Z.eqb_spec key KEY_DOWN) as [->|N4]; [unfold key_step; rewrite Hn; by apply down_shows|].
  destruct (Z.eqb_spec key 9) as [->|N5]; [unfold key_step; rewrite Hn; by apply tab_shows|].
  destruct (Z.eqb_spec key 0x1B) as [->|N6]; [|by apply edit_shows].
  unfold key_step. rewrite Hn. change (0 <? 0)%nat with false. cbv iota. destruct Hs1 as [ [ (H1 & _) H2 H3] Hh Hz Ha Hb Hp Hpl].
  split; cbn [ed hist before after aside browsing past place]; [|by apply set_nav_ok|done|done|done|done|done].
  split; cbn [set_saved with_text buf len cursor saved_line]; [|done|done].
  destruct (buf (ed r)) as [|x b] eqn:Eb; [done|]. by apply (holds_text_intro _ [] b).
Qed.

(** A printable key goes in at the cursor. *)
Lemma respond_printable comp c v : 0x20 <= c < 0x7F -> (length (before v ++ after v) < LINE_MAX - 1)%nat ->
  respond comp c v = Stay (set_parts v (before v ++ [c], after v)).
Proof.
  intros Hc Hl. unfold respond, edit_text, KEY_DELETE, KEY_LEFT, KEY_RIGHT, KEY_HOME, KEY_END, KEY_UP, KEY_DOWN, KEY_F1, KEY_F10.
  rewrite !(proj2 (Z.eqb_neq _ _)) by lia. rewrite (proj2 (Z.leb_gt _ _)) by lia. cbn [andb].
  by rewrite (proj2 (Z.leb_le _ _)), (proj2 (Z.ltb_lt _ _)), (proj2 (Nat.ltb_lt _ _)) by lia.
Qed.

Lemma read_text text r v rest :
  shows r v -> Forall (fun c => 0x20 <= c < 0x7F) text -> (length (before v ++ after v) + length text < LINE_MAX)%nat ->
  exists r', read_keys ed_base max_cols content_top content_bottom db r (text ++ rest) =
             read_keys ed_base max_cols content_top content_bottom db r' rest /\
    shows r' (set_parts v (before v ++ text, after v)).
Proof.
  revert r v. induction text as [|c text IH]; intros r v Hs Hp Hl.
  { exists r. rewrite app_nil_r, set_parts_same. done. }
  apply Forall_cons in Hp as [Hc Hp]. cbn [length] in Hl. cbn [app read_keys].
  rewrite (proj2 (Z.eqb_neq c 0)) by lia. pose proof (key_step_shows r v c Hs) as K. rewrite respond_printable in K by (done || lia).
  destruct (step r c) as [r1|l f r1]; [|done]. cbn [answers] in K.
  destruct (IH r1 _ K Hp) as (r' & E & H'); [cbn [set_parts before after fst snd]; rewrite !length_app in *; cbn [length]; lia|].
  exists r'. split; [exact E|]. cbn [set_parts before after aside browsing past place fst snd] in H'. by rewrite <- app_assoc in H'.
Qed.

(** C33: the editor refines a line with a cursor.  With what the user sees as
    the text before and after the cursor, the line set aside by Up, the history
    and the line of it that is shown, every key does what [respond] says:
    Backspace drops the character before the cursor, Delete the one after,
    Left, Right, Home and End move, Escape empties the line, a printable
    character goes in at the cursor while fewer than 511 are there; Tab puts in
    the rest of the only completion offered, with a space at the end of the
    line, or the rest of what several have in common, if the line stays below
    511; Up shows the lines of the history from the newest on, Down goes back
    and past the newest puts back the line set aside, and does so too when no
    line of the history is shown, whatever has been typed since; Enter returns
    the whole line and adds it to the history, the function keys and Ctrl-L
    return an empty line and their key, and nothing else returns.  The text
    stays a terminated string within the 512 cells and the cursor within it. *)
Theorem line_editor_refines (r : reader) (v : line_view) (key : Z) :
  shows r v -> answers (step r key) (respond (offered r) key v).
Proof. apply key_step_shows. Qed.
End keys.

Lemma ed_start_ok col row : editor_ok (ed_start col row).
Proof.
  split; [|done|exists 0%nat]; cbn [ed_start buf saved_line len];
    by (split; [apply length_replicate|split; [unfold LINE_MAX; lia|]]).
Qed.

(** An empty line, with nothing set aside. *)
Lemma start_shows h col row n d : history_ok h ->
  shows (Reader (ed_start col row) (history_reset_nav h) n d) (View [] [] [] false (entries h) None).
Proof. intros Hh. split; [apply ed_start_ok|by apply set_nav_ok|done|done|done|done|done]. Qed.

(** [sel] completed to [SELECT ], from an empty history. *)
Lemma line_editor_refines_witness :
  let r := Reader (with_text (ed_start 0 5) (cs "sel" ++ replicate 509 0) 3 3) history_init 0 [] in
  let v := View (cs "sel") [] [] false [] None in
  exists r', key_step 0 80 2 40 boot_db r 9 = Continue r' /\ shows r' (set_parts v (cs "selECT ", [])).
Proof.
  intros r v.
  assert (shows r v) as Hs.
  { destruct (start_shows history_init 0 5 0 [] history_init_ok) as [ [_ _ H1] H2 _ H3 H4 _ _].
    split; [split; [|apply Nat.leb_le; reflexivity|exact H1]|exact H2|reflexivity|exact H3|exact H4|reflexivity|reflexivity].
    split; [reflexivity|]. split; [apply Nat.ltb_lt; reflexivity|reflexivity]. }
  pose proof (line_editor_refines 0 80 2 40 boot_db r v 9 Hs) as H.
  destruct (key_step 0 80 2 40 boot_db r 9) as [r'|l f r'] eqn:E; [|vm_compute in E; discriminate].
  exists r'. split; [reflexivity|]. exact H.
Defined.

(** C32: what is typed is what the shell gets.  From an idle keyboard with
    nothing waiting, the interrupts of typing a printable text of at most 254
    characters and Enter leave the keys that make [line_read] return exactly
    that text, which becomes the newest entry of the history (unless it is
    empty or the newest entry already). *)
Theorem typed_line_returned (base cols top bottom : nat) (db : db_state) (kb : kb_state) (h : history)
    (col row : nat) (text : list Z) :
  idle kb -> kb_ok kb -> kb_waiting kb = [] -> history_ok h ->
  Forall (fun c => 0x20 <= c < 0x7F) text -> (length text <= 254)%nat ->
  let kb' := interrupts kb (concat (map strokes (text ++ [10]))) in
  exists line r', line_read base cols top bottom db h col row (kb_waiting kb') = Return line 0 r' /\
    cstr line = text /\
    entries (hist r') =
      if decide (text = [] \/ hd_error (entries h) = Some text) then entries h else take HISTORY_SIZE (text :: entries h).
Proof.
  intros Hi Hk Hw Hh Hp Hl kb'.
  assert (kb_waiting kb' = text ++ [10]) as ->.
  { unfold kb'. destruct (type_text (text ++ [10]) kb Hi Hk) as (_ & _ & -> & _); [| |by rewrite Hw].
    - apply Forall_app. split; [|apply Forall_singleton; by apply list_elem_of_In; cbn; auto].
      apply (Forall_impl _ _ _ Hp). intros c Hc. unfold typable. apply elem_of_app. right.
      apply list_elem_of_In, in_map_iff. exists (Z.to_nat c). split; [lia|]. apply in_seq. lia.
    - rewrite Hw, length_app. unfold KB_BUFFER_SIZE. cbn [length]. lia. }
  unfold line_read. set (r0 := Reader _ _ _ _).
  pose proof (start_shows h col row 0 (redraw_line cols (ed_start col row)) Hh) as Hs. fold r0 in Hs.
  destruct (read_text base cols top bottom db text r0 _ [10] Hs Hp) as (r & -> & Hs'); [cbn [before after length app]; unfold LINE_MAX; lia|].
  cbn [set_parts before after aside browsing past place fst snd app] in Hs'. cbn [read_keys Z.eqb].
  pose proof (key_step_shows base cols top bottom db r _ 10 Hs') as K. cbn [respond Z.eqb Pos.eqb before after past] in K. rewrite app_nil_r in K.
  destruct (key_step base cols top bottom db r 10) as [r'|line f r']; [done|]. destruct K as (K1 & -> & _ & _ & K2).
  exists line, r'. split; [done|]. split; [done|exact K2].
Qed.

Lemma typed_line_returned_witness :
  let kb := interrupts kb_boot (concat (map strokes (cs "Ls" ++ [10]))) in
  exists line r', line_read 0 80 2 40 boot_db history_init 2 3 (kb_waiting kb) = Return line 0 r' /\
    cstr line = cs "Ls" /\ entries (hist r') = [cs "Ls"].
Proof.
  intros kb. destruct (typed_line_returned 0 80 2 40 boot_db kb_boot history_init 2 3 (cs "Ls")) as (line & r' & H1 & H2 & H3).
  - repeat split.
  - exact kb_boot_ok.
  - reflexivity.
  - exact history_init_ok.
  - change (cs "Ls") with [76; 115]. apply Forall_cons. split; [lia|]. apply Forall_cons. split; [lia|constructor].
  - apply Nat.leb_le. reflexivity.
  - exists line, r'. split; [exact H1|]. split; [exact H2|]. rewrite H3. reflexivity.
Defined.

(** The finding: Down while the history is not being browsed replaces the text
    typed so far by the saved line, which is still empty. *)
Example down_erases_line :
  match line_read 0 80 2 40 boot_db history_init 0 3 (cs "abc" ++ [KEY_DOWN]) with
  | Continue r => text_of (ed r) = []
  | Return _ _ _ => False
  end.
Proof. vm_compute. reflexivity. Qed.
