(* ===== verification/Script.v ===== *)
(** * Scripts (src/shell/script.c)

    Saving, running, listing and showing scripts, on the state of the database
    and the console.  The console is the list of what was sent to it
    ([Shown] is a call of [display_result], [Cleared] one of [clear_content]); the
    lines the user types are the answers of [line_read] in order, and a save
    that waits for a further line answers [None].  [sql0] and [buf0] are the
    unknown cells of the local arrays; [data_of] reads the union of a field
    that is not a string. *)

From Stdlib Require Import String.
From S2P Require Import LineEditor.
From S2P Require Import Prelude CLib Errors Random Aes Record Btree Cap Database Printf Query Client Friendly.

Definition SCRIPT_MAX_LINES : nat := 64.

(** ** The console and the monad *)

Inductive out :=
  | Color (fg bg : Z)
  | Text (s : list Z)
  | Shown (r : result)
  | Cleared.

Definition IO (A : Type) : Type := q_state -> list out -> outcome (q_state * list out * A).

Definition pure {A} (a : A) : IO A := fun q o => Done (q, o, a).
Definition io_bind {A B} (m : IO A) (k : A -> IO B) : IO B := fun q o =>
  match m q o with
  | Done (q, o, a) => k a q o
  | Fault => Fault
  | NoFuel => NoFuel
  end.

Notation "'let+' x := m 'in' k" := (io_bind m (fun x => k)) (at level 200, x name, m at level 100, k at level 200, right associativity).
Notation "m ;+ k" := (io_bind m (fun _ => k)) (at level 199, k at level 200, right associativity).

Definition emit (x : out) : IO unit := fun q o => Done (q, o ++ [x], tt).
Definition fb_set_color (fg bg : Z) : IO unit := emit (Color fg bg).
Definition kprintf (fmt : list Z) (args : list varg) : IO unit :=
  match kvprintf_chars fmt args with Some s => emit (Text s) | None => fun _ _ => Fault end.

(** A format that ends in a newline. *)
Definition endl (fmt : string) : list Z := cs fmt ++ [10].

Definition sprint (sql : list Z) (fmt : string) (args : list varg) : IO (list Z) := fun q o =>
  match print_to sql fmt args q with
  | Done (q, sql) => Done (q, o, sql)
  | Fault => Fault
  | NoFuel => NoFuel
  end.

Section script.
Context `{Hw, AesNi}.
Context (mem : nat -> nat -> bool) (clock : nat -> Z) (stack : nat -> nat -> list Z).
Context (sql0 buf0 : list Z) (data_of : field_value -> list Z).

(** [db_execute] on the C string in an array. *)
Definition execute (text : list Z) (pid : Z) : IO result := fun q o =>
  match db_execute mem clock stack (cstr text) pid q with
  | Done (q, r) => Done (q, o, r)
  | Fault => Fault
  | NoFuel => NoFuel
  end.

(** ** Saving *)

Fixpoint save_loop (name : list Z) (pid : Z) (inputs : list (list Z * Z)) (sql : list Z) (line_num : nat) : IO (option nat) :=
  if negb (line_num <? SCRIPT_MAX_LINES)%nat then pure (Some line_num)
  else
    fb_set_color COLOR_GRAY COLOR_VOS_BG ;+
    kprintf (cs "  %2d> ") [AInt (Z.of_nat line_num + 1)] ;+
    fb_set_color COLOR_VOS_FG COLOR_VOS_BG ;+
    match inputs with
    | [] => pure None
    | (line, fkey) :: inputs =>
        if negb (fkey =? 0) then save_loop name pid inputs sql line_num
        else if (strlen line =? 0)%nat then save_loop name pid inputs sql line_num
        else if strcasecmp line (cs "end") =? 0 then pure (Some line_num)
        else
          let+ sql := sprint sql "INSERT INTO ObjectTable (name, type, data) VALUES ('%s', 'script', '%s')" [txt name; txt line] in
          execute sql pid ;+
          save_loop name pid inputs sql (S line_num)
    end.

Definition script_save (name : list Z) (pid : Z) (inputs : list (list Z * Z)) : IO (option nat) :=
  let+ sql := sprint sql0 "DELETE FROM ObjectTable WHERE name = '%s' AND type = 'script'" [txt name] in
  execute sql pid ;+
  fb_set_color COLOR_VOS_HL COLOR_VOS_BG ;+
  kprintf (endl "  Script '%s' -- enter commands, type END to finish:") [txt name] ;+
  fb_set_color COLOR_VOS_FG COLOR_VOS_BG ;+
  let+ n := save_loop name pid inputs sql 0 in
  match n with
  | None => pure None
  | Some n =>
      fb_set_color COLOR_VOS_HL COLOR_VOS_BG ;+
      kprintf (endl "  Script '%s' saved (%d lines)") [txt name; AInt (Z.of_nat n)] ;+
      fb_set_color COLOR_VOS_FG COLOR_VOS_BG ;+
      pure (Some n)
  end.

(** ** Running *)

(** The loop over the rows, given their commands. *)
Fixpoint run_loop (cmds : list (list Z)) (pid : Z) (executed : nat) : IO nat :=
  match cmds with
  | [] => pure executed
  | cmd :: cmds =>
      fb_set_color COLOR_GRAY COLOR_VOS_BG ;+
      kprintf (cs "  [%d] ") [AInt (Z.of_nat executed + 1)] ;+
      fb_set_color COLOR_VOS_FG COLOR_VOS_BG ;+
      kprintf (endl "%s") [txt cmd] ;+
      match friendly_translate cmd buf0 with
      | None => fun _ _ => Fault
      | Some (translated, sql_buf) =>
          let+ line_result := execute (if translated then sql_buf else cmd) pid in
          emit (Shown line_result) ;+
          run_loop cmds pid (S executed)
      end
  end.

(** The answer when there is no script; [None] is -1. *)
Definition script_not_found (name : list Z) : IO (option nat) :=
  fb_set_color COLOR_RED COLOR_VOS_BG ;+
  kprintf (endl "  Script '%s' not found") [txt name] ;+
  fb_set_color COLOR_VOS_FG COLOR_VOS_BG ;+
  pure None.

Definition script_complete (name : list Z) (executed : nat) : IO (option nat) :=
  fb_set_color COLOR_VOS_HL COLOR_VOS_BG ;+
  kprintf (endl "  Script '%s' complete (%d lines)") [txt name; AInt (Z.of_nat executed)] ;+
  fb_set_color COLOR_VOS_FG COLOR_VOS_BG ;+
  pure (Some executed).

Definition script_run (name : list Z) (pid : Z) : IO (option nat) :=
  let+ sql := sprint sql0 "SELECT * FROM ObjectTable WHERE name = '%s' AND type = 'script'" [txt name] in
  let+ result := execute sql pid in
  match result with
  | None => script_not_found name
  | Some result =>
      if (row_count result =? 0)%nat then script_not_found name
      else
        let+ executed := run_loop (map (fun row => cstr (str_data data_of row 3)) (rows result)) pid 0 in
        script_complete name executed
  end.

(** ** Listing and showing *)

(** The arrays [names] and [counts]: a new name is entered while fewer than 32
    are there, cut to the array. *)
Fixpoint count_name (n : list Z) (l : list (list Z * Z)) (room : nat) : list (list Z * Z) :=
  match l with
  | [] => if (0 <? room)%nat then [(<[MAX_STR_LEN := 0]> (strncpy (replicate (S MAX_STR_LEN) 0) n MAX_STR_LEN), 1)] else []
  | (m, c) :: l => if strcmp m n =? 0 then (m, c + 1) :: l else (m, c) :: count_name n l (room - 1)
  end.

Definition script_names (names : list (list Z)) : list (list Z * Z) := foldl (fun l n => count_name n l 32) [] names.

Fixpoint print_names (l : list (list Z * Z)) : IO unit :=
  match l with
  | [] => pure tt
  | (m, c) :: l => kprintf (endl "    %-20s (%d lines)") [txt m; AInt c] ;+ print_names l
  end.

Definition script_list (pid : Z) : IO unit :=
  let+ result := execute (cs "SELECT * FROM ObjectTable WHERE type = 'script'") pid in
  match result with
  | None => kprintf (endl "  No scripts found") []
  | Some result =>
      if (row_count result =? 0)%nat then kprintf (endl "  No scripts found") []
      else
        fb_set_color COLOR_VOS_HL COLOR_VOS_BG ;+
        kprintf (10 :: endl "  Scripts:") [] ;+
        fb_set_color COLOR_VOS_FG COLOR_VOS_BG ;+
        print_names (script_names (map (fun row => cstr (str_data data_of row 1)) (rows result))) ;+
        kprintf [10] []
  end.

Fixpoint print_lines (l : list (list Z)) (i : nat) : IO unit :=
  match l with
  | [] => pure tt
  | data :: l =>
      fb_set_color COLOR_GRAY COLOR_VOS_BG ;+
      kprintf (cs "  %2u ") [AInt (Z.of_nat i + 1)] ;+
      fb_set_color COLOR_VOS_FG COLOR_VOS_BG ;+
      kprintf (endl "%s") [txt data] ;+
      print_lines l (S i)
  end.

Fixpoint print_objects (l : list (list Z * list Z)) : IO unit :=
  match l with
  | [] => pure tt
  | (type, data) :: l =>
      fb_set_color COLOR_GRAY COLOR_VOS_BG ;+
      kprintf (cs "  [%s] ") [txt type] ;+
      fb_set_color COLOR_VOS_FG COLOR_VOS_BG ;+
      kprintf (endl "%s") [txt data] ;+
      print_objects l
  end.

(** Not a script: any object of that name. *)
Definition cat_object (name : list Z) (pid : Z) (sql : list Z) : IO unit :=
  let+ sql := sprint sql "SELECT * FROM ObjectTable WHERE name = '%s'" [txt name] in
  let+ result := execute sql pid in
  match result with
  | None => kprintf (endl "  Object '%s' not found") [txt name]
  | Some result =>
      if (row_count result =? 0)%nat then kprintf (endl "  Object '%s' not found") [txt name]
      else print_objects (map (fun row => (cstr (str_data data_of row 2), cstr (str_data data_of row 3))) (rows result))
  end.

Definition script_cat (name : list Z) (pid : Z) : IO unit :=
  let+ sql := sprint sql0 "SELECT * FROM ObjectTable WHERE name = '%s' AND type = 'script'" [txt name] in
  let+ result := execute sql pid in
  match result with
  | None => cat_object name pid sql
  | Some result =>
      if (row_count result =? 0)%nat then cat_object name pid sql
      else
        fb_set_color COLOR_VOS_HL COLOR_VOS_BG ;+
        kprintf (10 :: endl "  Script: %s (%u lines)") [txt name; AInt (Z.of_nat (row_count result))] ;+
        fb_set_color COLOR_VOS_FG COLOR_VOS_BG ;+
        print_lines (map (fun row => cstr (str_data data_of row 3)) (rows result)) 0 ;+
        kprintf [10] []
  end.
End script.
