(* ===== verification/ScriptSpec.v ===== *)
(** * Scripts are run as they were saved

    [script_save] followed by [script_run], through the query language, the
    encrypted table and the audit log, executes the lines that were typed, in
    their order; and what happens to a line that contains an apostrophe. *)

From Stdlib Require Import String Sorting.Sorted.
From stdpp Require Import gmap.
From S2P Require Import LineEditor.
From S2P Require Import Prelude CLib Errors Random Sha256 Hmac Aes Record Btree BtreeSpec Cap CapSpec Database DatabaseSpec Printf Query QuerySpec QueryWrites Client Friendly FriendlySpec Stored Script.

(** ** Formatting into the query buffer *)

Lemma sprint_text sql fmt args q o :
  simple (cs fmt) (length args) = true -> Forall (fun c => c <> 0) (fill (cs fmt) args) -> (length (fill (cs fmt) args) < length sql)%nat ->
  Z.of_nat (length sql) < 2 ^ 63 ->
  exists sql', sprint sql fmt (map txt args) q o = Done (q, o, sql') /\ length sql' = length sql /\ cstr sql' = fill (cs fmt) args.
Proof.
  intros Hs Hz Hl H63. destruct (print_to_text sql fmt args q Hs Hz Hl H63) as (sql' & E & H). exists sql'. unfold sprint. by rewrite E.
Qed.

Definition script_kind : list Z := cs "script".

Lemma script_kind_literal : literal script_kind.
Proof. apply short_word_literal. reflexivity. Qed.

Lemma fill_insert name line : literal name -> literal line ->
  fill (cs "INSERT INTO ObjectTable (name, type, data) VALUES ('%s', 'script', '%s')") [name; line] = insert_text name script_kind line.
Proof. intros Hn Hl. unfold insert_text, script_kind. lit. cbn [fill Z.eqb Pos.eqb app]. by rewrite !literal_cstr by done. Qed.

Lemma fill_delete name : literal name ->
  fill (cs "DELETE FROM ObjectTable WHERE name = '%s' AND type = 'script'") [name] = delete_text name script_kind.
Proof. intros Hn. unfold delete_text, stored_where, script_kind. lit. cbn [fill Z.eqb Pos.eqb app]. by rewrite literal_cstr by done. Qed.

Lemma fill_select name : literal name ->
  fill (cs "SELECT * FROM ObjectTable WHERE name = '%s' AND type = 'script'") [name] = select_text name script_kind.
Proof. intros Hn. unfold select_text, stored_where, script_kind. lit. cbn [fill Z.eqb Pos.eqb app]. by rewrite literal_cstr by done. Qed.

Lemma script_query_fits name : literal name ->
  (length (delete_text name script_kind) < FRIENDLY_SQL_MAX)%nat /\ (length (select_text name script_kind) < FRIENDLY_SQL_MAX)%nat.
Proof.
  intros [_ Hl]. unfold delete_text, select_text, stored_where. rewrite !length_app.
  assert (length script_kind = 6 /\ length (cs " name = '") = 9 /\ length (cs "' AND type = '") = 14 /\ length (cs " WHERE") = 6 /\
    length (cs "ObjectTable") = 11 /\ length (cs "DELETE FROM ") = 12 /\ length (cs "SELECT * FROM ") = 14)%nat as (-> & -> & -> & -> & -> & -> & ->)
    by (split_and!; reflexivity).
  unfold FRIENDLY_SQL_MAX, MAX_STR_LEN in *. cbn [length]. lia.
Qed.

(** ** Messages *)

(** A computation that only writes to the console. *)
Definition says (m : IO unit) : Prop := forall q o, exists o', m q o = Done (q, o', tt).

Lemma say_color fg bg : says (fb_set_color fg bg).
Proof. intros q o. by eexists. Qed.

Lemma say_text fmt args : is_Some (kvprintf_chars fmt args) -> says (kprintf fmt args).
Proof. intros [s E] q o. unfold kprintf. rewrite E. by eexists. Qed.

Lemma says_then {A} (m : IO unit) (k : IO A) q o : says m -> exists o', io_bind m (fun _ => k) q o = k q o'.
Proof. intros Hm. unfold io_bind. destruct (Hm q o) as [o' ->]. by exists o'. Qed.

Ltac say := match goal with
  | |- context [io_bind (fb_set_color ?a ?b) (fun _ => ?k) ?q ?o] => let o' := fresh "o" in destruct (says_then (fb_set_color a b) k q o (say_color a b)) as [o' ->]
  | |- context [io_bind (kprintf ?f ?l) (fun _ => ?k) ?q ?o] => let o' := fresh "o" in
      destruct (says_then (kprintf f l) k q o ltac:(apply say_text; eexists; reflexivity)) as [o' ->]
  end.

(** ** Saving and running *)

Section roundtrip.
Context `{Hw, AesNi, !HwLaws, !AesNiLaws}.
Context (mem : nat -> nat -> bool) (clock : nat -> Z) (stack : nat -> nat -> list Z).
Context (sql0 buf0 : list Z) (data_of : field_value -> list Z).
Context (Hmem : forall n m, mem n m = true) (Hclock : forall n, is_u64 (clock n)) (Hsql : length sql0 = FRIENDLY_SQL_MAX).

(** A line that the editor takes as a line of the script, and that a string
    literal and the query buffer hold. *)
Record script_line (name line : list Z) : Prop := ScriptLine {
  sl_literal : literal line;
  sl_bytes : bytes line;
  sl_nonempty : line <> [];
  sl_not_end : strcasecmp line (cs "end") <> 0;
  sl_fits : (length (insert_text name script_kind line) < FRIENDLY_SQL_MAX)%nat
}.

(** What the user types: the lines, then the word that ends the script. *)
Definition typed (lines : list (list Z)) : list (list Z * Z) := map (fun line => (line, 0)) lines ++ [(cs "end", 0)].

#[local] Opaque query_execute FRIENDLY_SQL_MAX insert_text delete_text select_text.

Lemma fits_int : Z.of_nat FRIENDLY_SQL_MAX < 2 ^ 63.
Proof. reflexivity. Qed.

Lemma save_line sql name line q o q1 r pid : length sql = FRIENDLY_SQL_MAX -> literal name -> script_line name line ->
  query_execute mem clock stack (insert_text name script_kind line) pid q = Done (q1, r) ->
  exists sql', length sql' = FRIENDLY_SQL_MAX /\ forall A (k : list Z -> IO A),
    (let+ sql := sprint sql "INSERT INTO ObjectTable (name, type, data) VALUES ('%s', 'script', '%s')" [txt name; txt line] in
     execute mem clock stack sql pid ;+ k sql) q o = k sql' q1 o.
Proof.
  intros Hs Hn [Hl _ _ _ Hf] Ex. pose proof (fill_insert name line Hn Hl) as Ef.
  destruct (sprint_text sql "INSERT INTO ObjectTable (name, type, data) VALUES ('%s', 'script', '%s')" [name; line] q o) as (sql' & E & El & Ec);
    [reflexivity|rewrite Ef; apply insert_text_nonzero; [exact Hn|apply script_kind_literal|exact Hl]|rewrite Ef, Hs; exact Hf|rewrite Hs; apply fits_int|].
  exists sql'. split; [congruence|]. intros A k. unfold io_bind. change [txt name; txt line] with (map txt [name; line]). rewrite E.
  unfold execute, db_execute. rewrite Ec, Ef, Ex. reflexivity.
Qed.

Lemma save_loop_typed name pid : literal name -> forall lines sql n q o q',
  Forall (script_line name) lines -> length sql = FRIENDLY_SQL_MAX -> (n + length lines <= SCRIPT_MAX_LINES)%nat ->
  run_all mem clock stack (map (insert_text name script_kind) lines) pid q = Done (q', tt) ->
  exists o', save_loop mem clock stack name pid (typed lines) sql n q o = Done (q', o', Some (n + length lines)%nat).
Proof.
  intros Hn. induction lines as [|line lines IH]; intros sql n q o q' Hls Hs Hlen Hr.
  - injection Hr as <-. cbn [typed map app save_loop length]. rewrite Nat.add_0_r.
    destruct (Nat.ltb_spec n SCRIPT_MAX_LINES); cbn [negb]; [|by eexists]. do 3 say. by eexists.
  - apply Forall_cons in Hls as [Hl Hls]. cbn [length map run_all] in *. unfold bind in Hr.
    destruct (query_execute mem clock stack (insert_text name script_kind line) pid q) as [ [q1 r]| | ] eqn:Ex; [|done|done].
    cbn [typed map app save_loop]. fold (typed lines). rewrite (proj2 (Nat.ltb_lt n _)) by lia. cbn [negb]. do 3 say.
    pose proof Hl as [Hll _ Hne Hend _]. cbn [Z.eqb negb].
    rewrite (literal_strlen line Hll Hne).
    rewrite (proj2 (Z.eqb_neq _ _) Hend).
    match goal with |- context [io_bind _ _ q ?o'] => destruct (save_line sql name line q o' q1 r pid Hs Hn Hl Ex) as (sql2 & Hs2 & ->) end.
    match goal with |- context [save_loop _ _ _ _ _ _ sql2 (S n) q1 ?o'] => destruct (IH sql2 (S n) q1 o' q' Hls Hs2) as [oo ->]; [lia|done|] end.
    exists oo. do 2 f_equal. f_equal. lia.
Qed.

Lemma save_typed name pid lines q o q' : literal name -> Forall (script_line name) lines -> (length lines <= SCRIPT_MAX_LINES)%nat ->
  (length (delete_text name script_kind) < FRIENDLY_SQL_MAX)%nat ->
  save_text mem clock stack name script_kind lines pid q = Done (q', tt) ->
  exists o', script_save mem clock stack sql0 name pid (typed lines) q o = Done (q', o', Some (length lines)).
Proof.
  intros Hn Hls Hlen Hfit Hr. pose proof (fill_delete name Hn) as Ef. unfold save_text, bind in Hr.
  destruct (query_execute mem clock stack (delete_text name script_kind) pid q) as [ [q1 r]| | ] eqn:Ex; [|done|done].
  destruct (sprint_text sql0 "DELETE FROM ObjectTable WHERE name = '%s' AND type = 'script'" [name] q o) as (sql & E & El & Ec);
    [reflexivity|rewrite Ef; apply delete_text_nonzero; [exact Hn|apply script_kind_literal]|rewrite Ef, Hsql; exact Hfit|rewrite Hsql; apply fits_int|].
  unfold script_save. unfold io_bind at 1. change [txt name] with (map txt [name]) at 1. rewrite E.
  unfold io_bind at 1. unfold execute at 1, db_execute. rewrite Ec, Ef, Ex. do 3 say.
  unfold io_bind at 1.
  match goal with |- context [save_loop _ _ _ _ _ _ _ _ q1 ?o'] => destruct (save_loop_typed name pid Hn lines sql 0 q1 o' q' Hls) as [oo ->]; [congruence|done|done|] end.
  do 3 say. by eexists.
Qed.

Lemma run_saved name pid q o q1 r : literal name -> (length (select_text name script_kind) < FRIENDLY_SQL_MAX)%nat ->
  query_execute mem clock stack (select_text name script_kind) pid q = Done (q1, Some r) ->
  script_run mem clock stack sql0 buf0 data_of name pid q o =
    if (length (rows r) =? 0)%nat then script_not_found name q1 o
    else (let+ n := run_loop mem clock stack buf0 (map (fun row => cstr (str_data data_of row 3)) (rows r)) pid 0 in script_complete name n) q1 o.
Proof.
  intros Hn Hfit Ex. pose proof (fill_select name Hn) as Ef.
  destruct (sprint_text sql0 "SELECT * FROM ObjectTable WHERE name = '%s' AND type = 'script'" [name] q o) as (sql & E & El & Ec);
    [reflexivity|rewrite Ef; apply select_text_nonzero; [exact Hn|apply script_kind_literal]|rewrite Ef, Hsql; exact Hfit|rewrite Hsql; apply fits_int|].
  unfold script_run. unfold io_bind at 1. change [txt name] with (map txt [name]) at 1. rewrite E.
  unfold io_bind at 1. unfold execute at 1, db_execute. rewrite Ec, Ef, Ex. unfold row_count. by destruct (_ =? _)%nat.
Qed.

(** ** What a run does

    Each command in turn is shown with its number, put into the query language
    where it is a friendly one, executed in the state the commands before it
    left, and its result displayed. *)

(** The query a command stands for. *)
Definition query_of (cmd : list Z) : option (list Z) :=
  match friendly_translate cmd buf0 with
  | Some (true, sql) => Some (cstr sql)
  | Some (false, _) => Some cmd
  | None => None
  end.

Definition printed (fmt : list Z) (args : list varg) : list Z := default [] (kvprintf_chars fmt args).

Definition echo (n : nat) (cmd : list Z) : list out :=
  [Color COLOR_GRAY COLOR_VOS_BG; Text (printed (cs "  [%d] ") [AInt (Z.of_nat n + 1)]); Color COLOR_VOS_FG COLOR_VOS_BG; Text (cmd ++ [10])].

Definition notice (color : Z) (text : list Z) : list out := [Color color COLOR_VOS_BG; Text text; Color COLOR_VOS_FG COLOR_VOS_BG].

Inductive runs (pid : Z) : nat -> list (list Z) -> q_state -> list out -> q_state -> Prop :=
  | runs_end n q : runs pid n [] q [] q
  | runs_line n cmd cmds q query q1 r o q2 :
      query_of cmd = Some query -> query_execute mem clock stack query pid q = Done (q1, r) -> runs pid (S n) cmds q1 o q2 ->
      runs pid n (cmd :: cmds) q (echo n cmd ++ Shown r :: o) q2.

Lemma echo_command n cmd q o : literal cmd -> forall A (k : IO A),
  (fb_set_color COLOR_GRAY COLOR_VOS_BG ;+ kprintf (cs "  [%d] ") [AInt (Z.of_nat n + 1)] ;+ fb_set_color COLOR_VOS_FG COLOR_VOS_BG ;+
   kprintf (endl "%s") [txt cmd] ;+ k) q o = k q (o ++ echo n cmd).
Proof.
  intros Hl A k. assert (kvprintf_chars (endl "%s") [txt cmd] = Some (cmd ++ [10])) as E.
  { rewrite <- (literal_cstr cmd Hl) at 2. exact (kvprintf_fill (endl "%s") [cmd] eq_refl). }
  assert (is_Some (kvprintf_chars (cs "  [%d] ") [AInt (Z.of_nat n + 1)])) as [s Es] by (eexists; reflexivity).
  unfold echo, printed, io_bind, fb_set_color, emit, kprintf. rewrite E, Es. cbn [emit default]. unfold emit. by rewrite <- !app_assoc.
Qed.

Lemma run_loop_runs pid cmds : Forall literal cmds -> forall n q o q' o' m,
  run_loop mem clock stack buf0 cmds pid n q o = Done (q', o', m) <->
  m = (n + length cmds)%nat /\ exists out, o' = o ++ out /\ runs pid n cmds q out q'.
Proof.
  induction 1 as [|cmd cmds Hl Hls IH]; intros n q o q' o' m; cbn [run_loop length].
  - rewrite Nat.add_0_r. split.
    + intros [= -> -> ->]. split; [done|]. exists []. rewrite app_nil_r. split; [done|constructor].
    + intros (-> & out & -> & Hr). inversion Hr; subst. by rewrite app_nil_r.
  - rewrite echo_command by done. replace (n + S (length cmds))%nat with (S n + length cmds)%nat by lia.
    assert (forall query, query_of cmd = Some query -> match friendly_translate cmd buf0 with
      | None => fun _ _ => Fault
      | Some (translated, sql_buf) =>
          let+ line_result := execute mem clock stack (if translated then sql_buf else cmd) pid in
          emit (Shown line_result) ;+ run_loop mem clock stack buf0 cmds pid (S n)
      end q (o ++ echo n cmd) = match query_execute mem clock stack query pid q with
      | Done (q1, r) => run_loop mem clock stack buf0 cmds pid (S n) q1 ((o ++ echo n cmd) ++ [Shown r])
      | Fault => Fault | NoFuel => NoFuel end) as Hq.
    { intros query. unfold query_of. destruct (friendly_translate cmd buf0) as [ [ [] sql]|]; [| |done]; intros [= <-];
        unfold io_bind, execute, db_execute, emit; rewrite ?(literal_cstr cmd Hl); by destruct (query_execute _ _ _ _ _ _) as [ [q1 r]| | ]. }
    split.
    + intros E. destruct (query_of cmd) as [query|] eqn:Eq.
      2:{ unfold query_of in Eq. by destruct (friendly_translate cmd buf0) as [ [ [] sql]|]. }
      rewrite (Hq query eq_refl) in E. destruct (query_execute mem clock stack query pid q) as [ [q1 r]| | ] eqn:Ex; [|done|done].
      apply IH in E as (-> & out & -> & Hr). split; [done|]. eexists. split; [|by eapply runs_line]. by rewrite <- !app_assoc.
    + intros (-> & out & -> & Hr). inversion Hr as [|? ? ? ? query q1 r out1 ? Eq Ex Hr1]; subst. rewrite (Hq query Eq), Ex. apply IH.
      split; [done|]. exists out1. split; [by rewrite <- !app_assoc|done].
Qed.

Lemma not_found_done name q o q3 o3 res :
  script_not_found name q o = Done (q3, o3, res) <->
  q3 = q /\ o3 = o ++ notice COLOR_RED (printed (endl "  Script '%s' not found") [txt name]) /\ res = None.
Proof.
  assert (is_Some (kvprintf_chars (endl "  Script '%s' not found") [txt name])) as [s Es] by (eexists; reflexivity).
  unfold script_not_found, notice, printed, io_bind, fb_set_color, emit, kprintf. rewrite Es. unfold emit, pure. cbn [default]. rewrite <- !app_assoc. cbn [app].
  split; [by intros [= <- <- <-]|by intros (-> & -> & ->)].
Qed.

Lemma complete_done name pid cmds : Forall literal cmds -> forall q o q3 o3 res,
  (let+ n := run_loop mem clock stack buf0 cmds pid 0 in script_complete name n) q o = Done (q3, o3, res) <->
  res = Some (length cmds) /\ exists out, runs pid 0 cmds q out q3 /\
    o3 = o ++ out ++ notice COLOR_VOS_HL (printed (endl "  Script '%s' complete (%d lines)") [txt name; AInt (Z.of_nat (length cmds))]).
Proof.
  intros Hls q o q3 o3 res.
  assert (forall n q o, script_complete name n q o =
    Done (q, o ++ notice COLOR_VOS_HL (printed (endl "  Script '%s' complete (%d lines)") [txt name; AInt (Z.of_nat n)]), Some n)) as Hc.
  { intros n q' o'. assert (is_Some (kvprintf_chars (endl "  Script '%s' complete (%d lines)") [txt name; AInt (Z.of_nat n)])) as [s Es] by (eexists; reflexivity).
    unfold script_complete, notice, printed, io_bind, fb_set_color, emit, kprintf. rewrite Es. unfold emit, pure. cbn [default]. by rewrite <- !app_assoc. }
  unfold io_bind. split.
  - destruct (run_loop _ _ _ _ _ _ _ _ _) as [ [ [q' o'] m]| | ] eqn:E; [|done|done]. apply (run_loop_runs pid cmds Hls) in E as (-> & out & -> & Hr).
    rewrite Hc. intros [= <- <- <-]. split; [done|]. exists out. split; [done|]. by rewrite <- !app_assoc.
  - intros (-> & out & Hr & ->). assert (run_loop mem clock stack buf0 cmds pid 0 q o = Done (q3, o ++ out, length cmds)) as ->.
    { apply (run_loop_runs pid cmds Hls). split; [done|]. by exists out. }
    rewrite Hc. by rewrite <- !app_assoc.
Qed.

(** C23: a saved script runs as it was typed.  Saving a script of at most 64
    lines (non-empty, other than the closing word, without apostrophes, and
    such that the query fits its buffer) stores each line, in order, as an
    encrypted row of the object table with the script's name and the type
    [script]; the rows with another name or type stay, those of an older script
    of that name go.  Running it later reads the lines back, changes no table by
    doing so, and then returns exactly if the commands, executed one after the
    other, each in the state the previous one left, all return: it has then
    shown every command with its number and its result, in order, and reports
    their number; an empty script is reported as not found.  The rows of the
    table are taken to have texts as names and types; room in the trees is
    assumed as for INSERT. *)
Theorem script_save_run (name : list Z) (lines : list (list Z)) (pid pid' : Z) q t a content log o :
  objects q t a content log -> is_u64 pid -> literal name -> bytes name -> Forall (script_line name) lines ->
  (length lines <= SCRIPT_MAX_LINES)%nat ->
  (forall n, (n <= size content)%nat -> room_for n (index a) (global_row_id (q_db q))) ->
  room_after_delete mem clock stack q name script_kind (length lines) pid -> all_texts content ->
  let others := filter (fun kr => ~ entry name script_kind kr.2) content in
  exists q1 o1 t1 a1 log1 new,
    script_save mem clock stack sql0 name pid (typed lines) q o = Done (q1, o1, Some (length lines)) /\
    objects q1 t1 a1 (put_rows others new) log1 /\ q_caps q1 = q_caps q /\
    Forall2 (fun kr line => entry name script_kind kr.2 /\ text_at kr.2 3 = Some line) new lines /\
    exists q2, objects q2 t1 a1 (put_rows others new) log1 /\ tables (q_db q2) = tables (q_db q1) /\ q_caps q2 = q_caps q1 /\
      forall o' q3 o3 res, script_run mem clock stack sql0 buf0 data_of name pid' q1 o' = Done (q3, o3, res) <->
        match lines with
        | [] => q3 = q2 /\ o3 = o' ++ notice COLOR_RED (printed (endl "  Script '%s' not found") [txt name]) /\ res = None
        | _ => res = Some (length lines) /\ exists out, runs pid' 0 lines q2 out q3 /\
            o3 = o' ++ out ++ notice COLOR_VOS_HL (printed (endl "  Script '%s' complete (%d lines)") [txt name; AInt (Z.of_nat (length lines))])
        end.
Proof.
  intros Ho Hp Hn Hnb Hls Hlen Hroom Hafter Htx others. destruct (script_query_fits name Hn) as [F1 F2].
  assert (Forall literal lines) as Hlit by (apply (Forall_impl _ _ _ Hls); intros line Hl; exact (sl_literal _ _ Hl)).
  destruct (save_then_select mem clock stack Hmem Hclock q t a content log pid pid' name script_kind lines Ho Hp Hn script_kind_literal)
    as (q1 & t1 & a1 & log1 & new & Es & Ho1 & Hc1 & Hnew & q2 & r & Ex & _ & Er & Ef & Et & Hc2 & Hok2); [|exact Hroom|exact Hafter|exact Htx|].
  { apply (Forall_impl _ _ _ Hls). intros line Hl. split; [exact (sl_literal _ _ Hl)|].
    apply insert_text_bytes; [exact Hnb|apply bytes_cs|exact (sl_bytes _ _ Hl)]. }
  destruct (save_typed name pid lines q o q1 Hn Hls Hlen F1 Es) as [o1 Esave].
  pose proof (rows_commands data_of (rows r) lines Hlit Ef) as Ecmd.
  exists q1, o1, t1, a1, log1, new. split; [exact Esave|]. split; [exact Ho1|]. split; [exact Hc1|]. split; [exact Hnew|].
  exists q2. split; [exact (objects_tables q1 q2 _ _ _ _ Ho1 Et Hok2)|]. split; [exact Et|]. split; [exact Hc2|].
  intros o' q3 o3 res. rewrite (run_saved name pid' q1 o' q2 r Hn F2 Ex), Ecmd.
  apply (f_equal length) in Ef. rewrite !length_map in Ef. rewrite Ef. destruct lines as [|line lines].
  - exact (not_found_done name q2 o' q3 o3 res).
  - exact (complete_done name pid' (line :: lines) Hlit q2 o' q3 o3 res).
Qed.
End roundtrip.

(** ** Witness *)

Definition demo_script : list (list Z) := [cs "find objects"; cs "hello"].

Lemma demo_script_lines : Forall (script_line (cs "daily")) demo_script.
Proof.
  repeat constructor; try (by apply word_literal); try apply bytes_cs; try done; try (by apply Nat.ltb_lt; vm_compute).
Qed.

(** What is not a statement is answered with an error. *)
Lemma hello_returns `{Hw, AesNi} pid q : exists q' r, query_execute all_ok noon zero_stack (cs "hello") pid q = Done (q', r).
Proof.
  unfold query_execute. assert (tok_type (next_token (Parser (cs "hello") 0 TOK_EOF [0])) = TOK_IDENT) as -> by (vm_compute; reflexivity).
  unfold result_error. eexists _, _. reflexivity.
Qed.

Lemma demo_script_runs q t a content log : objects q t a content log -> exists out q', runs all_ok noon zero_stack (replicate 512 7) 9 0 demo_script q out q'.
Proof.
  intros [J1 J2 J3 J4 J5 J6 J7].
  destruct (select_statement all_ok noon zero_stack (cs "SELECT * FROM ObjectTable") 9 q object_table [] 3 t content (fun _ _ => eq_refl) J1 J3)
    as (q1 & r & _ & E1 & _); [by rewrite J4|apply J6|vm_compute; reflexivity|exact J2|].
  destruct (hello_returns 9 q1) as (q2 & r2 & E2). eexists _, q2.
  eapply runs_line; [vm_compute; reflexivity|exact E1|]. eapply runs_line; [vm_compute; reflexivity|exact E2|]. constructor.
Qed.

#[local] Opaque sys_db sys_table query_execute script_save script_run run_loop.

Lemma script_save_run_witness :
  exists q1 o1 q2 out q3,
    script_save all_ok noon zero_stack (replicate 512 7) (cs "daily") 5 (typed demo_script) sys_state [] = Done (q1, o1, Some 2%nat) /\
    runs all_ok noon zero_stack (replicate 512 7) 9 0 demo_script q2 out q3 /\ tables (q_db q2) = tables (q_db q1) /\
    script_run all_ok noon zero_stack (replicate 512 7) (replicate 512 7) (fun _ => []) (cs "daily") 9 q1 [] =
      Done (q3, out ++ notice COLOR_VOS_HL (printed (endl "  Script '%s' complete (%d lines)") [txt (cs "daily"); AInt 2]), Some 2%nat).
Proof.
  assert (is_u64 5) as H5 by (unfold is_word; lia).
  assert (literal (cs "daily")) as Hn by (apply word_literal; reflexivity).
  assert (all_texts ∅) as Htx by (intros k rec L; rewrite lookup_empty in L; discriminate L).
  destruct (script_save_run all_ok noon zero_stack (replicate 512 7) (replicate 512 7) (fun _ => []) (fun _ _ => eq_refl) noon_u64 eq_refl
    (cs "daily") demo_script 5 9 sys_state (sys_table 3) (sys_table 5) ∅ ∅ [] sys_objects_state H5 Hn (bytes_cs _) demo_script_lines
    ltac:(apply Nat.leb_le; reflexivity) sys_delete_room (sys_room_after _ _ 5 Hn script_kind_literal H5) Htx)
    as (q1 & o1 & t1 & a1 & log1 & new & E & _ & _ & _ & q2 & Ho & Et & _ & Er).
  destruct (demo_script_runs q2 _ _ _ _ Ho) as (out & q3 & Hr).
  exists q1, o1, q2, out, q3. split; [exact E|]. split; [exact Hr|]. split; [exact Et|]. apply (Er [] q3 _ (Some 2%nat)).
  split; [reflexivity|]. exists out. split; [exact Hr|reflexivity].
Defined.

(** ** The finding *)

(** A line with an apostrophe is cut there without notice.  The line
    [DELETE FROM ObjectTable WHERE name = 'tmp'] of a script is stored up to
    the first apostrophe, and what is run later is a DELETE whose condition
    does not parse: it has none, and empties the table. *)
Example script_apostrophe_deletes_all :
  let line := cs "DELETE FROM ObjectTable WHERE name = 'tmp'" in
  let stored := cs "DELETE FROM ObjectTable WHERE name = " in
  (exists names p vals, insert_query zero_stack (insert_text (cs "clean") script_kind line) = Some (object_table, names, p) /\
     insert_values object_schema names (blank_record object_schema 1) p = Some vals /\ cstr (str_data (fun _ => []) vals 3) = stored) /\
  friendly_calls stored = None /\ delete_query zero_stack stored = Some (object_table, []).
Proof.
  split; [|vm_compute; done]. eexists _, _, _. split; [vm_compute; reflexivity|]. split; vm_compute; reflexivity.
Qed.

(** The list of scripts is printed with "%-20s", which the formatter does not
    know: the name's pointer is then taken for the number of lines. *)
Example script_list_misprints name n l q o : print_names ((name, n) :: l) q o = Fault.
Proof. reflexivity. Qed.
