(* ===== verification/Framebuffer.v ===== *)
(** * The text console (src/kernel/drivers/framebuffer.c)

    The frame buffer is the list of its 32-bit pixels; [pitch] is in bytes, as
    the boot loader gives it (four times the pixels per scan line), and
    arithmetic on it is that of [uint32_t]. *)

From S2P Require Import Prelude CLib Font Pixels LineEditor.

Record fb_state := Fb {
  fb_ready : bool;
  fb_mem : list Z;
  width : Z;
  height : Z;
  pitch : Z;
  cursor_x : Z;
  cursor_y : Z;
  cols : Z;
  rows : Z;
  fg_color : Z;
  bg_color : Z;
  pixel_format : Z;
  content_top : Z;
  content_bottom : Z
}.

(** Assignments to the memory and to the cursor. *)
Definition set_mem (mem : list Z) (fb : fb_state) : fb_state :=
  Fb (fb_ready fb) mem (width fb) (height fb) (pitch fb) (cursor_x fb) (cursor_y fb) (cols fb) (rows fb)
    (fg_color fb) (bg_color fb) (pixel_format fb) (content_top fb) (content_bottom fb).

Definition fb_set_cursor (col row : Z) (fb : fb_state) : fb_state :=
  Fb (fb_ready fb) (fb_mem fb) (width fb) (height fb) (pitch fb) col row (cols fb) (rows fb)
    (fg_color fb) (bg_color fb) (pixel_format fb) (content_top fb) (content_bottom fb).

Definition fb_set_color (fg bg : Z) (fb : fb_state) : fb_state :=
  Fb (fb_ready fb) (fb_mem fb) (width fb) (height fb) (pitch fb) (cursor_x fb) (cursor_y fb) (cols fb) (rows fb)
    fg bg (pixel_format fb) (content_top fb) (content_bottom fb).

Definition fb_set_content_region (top bottom : Z) (fb : fb_state) : fb_state :=
  Fb (fb_ready fb) (fb_mem fb) (width fb) (height fb) (pitch fb) (cursor_x fb) (cursor_y fb) (cols fb) (rows fb)
    (fg_color fb) (bg_color fb) (pixel_format fb) top bottom.

Definition fb_get_cursor (fb : fb_state) : Z * Z := (cursor_x fb, cursor_y fb).
Definition fb_get_cols (fb : fb_state) : Z := cols fb.
Definition fb_get_rows (fb : fb_state) : Z := rows fb.
Definition fb_get_raw (fb : fb_state) : list Z * Z * Z * Z := (fb_mem fb, pitch fb, width fb, height fb).

Definition make_pixel (pixel_format argb : Z) : Z :=
  if pixel_format =? 0 then argb
  else
    let a := Z.land (Z.shiftr argb 24) 0xFF in
    let r := Z.land (Z.shiftr argb 16) 0xFF in
    let g := Z.land (Z.shiftr argb 8) 0xFF in
    let b := Z.land argb 0xFF in
    Z.lor (Z.lor (Z.lor (Z.shiftl a 24) (Z.shiftl b 16)) (Z.shiftl g 8)) r.

(** The index of the first pixel of scan line [y]. *)
Definition scanline (fb : fb_state) (y : Z) : Z := u32 (y * pitch fb) / 4.

Definition run (fb : fb_state) (s : stores) : fb_state := set_mem (plot (fb_mem fb) s) fb.

Definition fb_draw_char_internal (fb : fb_state) (col row c fg_pixel bg_pixel : Z) : stores :=
  let x_base := u32 (col * FONT_WIDTH) in
  let y_base := u32 (row * FONT_HEIGHT) in
  concat (map (fun y => map (fun x =>
    (scanline fb (u32 (y_base + y)) + u32 (x_base + x), glyph_pixel c (Z.to_nat y) x fg_pixel bg_pixel))
    (range 0 FONT_WIDTH)) (range 0 FONT_HEIGHT)).

(** The stores that fill [n] scan lines from line [y0] on. *)
Definition fill_lines (fb : fb_state) (y0 n pixel : Z) : stores :=
  concat (map (fun y => map (fun x => (scanline fb (u32 (y0 + y)) + x, pixel)) (range 0 (width fb))) (range 0 n)).

Definition fb_clear (fb : fb_state) : fb_state :=
  fb_set_cursor 0 (content_top fb) (run fb (fill_lines fb 0 (height fb) (make_pixel (pixel_format fb) (bg_color fb)))).

Definition fb_clear_rows (start_row end_row : Z) (fb : fb_state) : fb_state :=
  let bg := make_pixel (pixel_format fb) (bg_color fb) in
  run fb (concat (map (fun r => fill_lines fb (u32 (r * FONT_HEIGHT)) FONT_HEIGHT bg)
    (range start_row (Z.min end_row (rows fb))))).

(** The boot loader's description of the screen; [mem] is what the screen's
    memory holds. *)
Definition fb_init (fb_base fb_width fb_height fb_pitch fb_pixel_format : Z) (mem : list Z) (fb : fb_state) : fb_state :=
  if fb_base =? 0 then fb
  else
    let fb := Fb (fb_ready fb) mem fb_width fb_height fb_pitch 0 0 (fb_width / FONT_WIDTH) (fb_height / FONT_HEIGHT)
                COLOR_VOS_FG COLOR_VOS_BG fb_pixel_format 0 0 in
    let fb := fb_clear fb in
    Fb true (fb_mem fb) (width fb) (height fb) (pitch fb) (cursor_x fb) (cursor_y fb) (cols fb) (rows fb)
      (fg_color fb) (bg_color fb) (pixel_format fb) (content_top fb) (content_bottom fb).

Definition content_end (fb : fb_state) : Z := if content_bottom fb =? 0 then rows fb else content_bottom fb.

(** The [memmove] of whole rows up by one (the destination is below the
    source), and the last row cleared. *)
Definition fb_scroll (fb : fb_state) : fb_state :=
  let top := content_top fb in
  let bot := content_end fb in
  let row_bytes := u32 (pitch fb * FONT_HEIGHT) in
  let dst := u32 (top * row_bytes) in
  let src := dst + row_bytes in
  let move_bytes := u32 (u32 (bot - top - 1) * row_bytes) in
  let mem := fb_mem fb in
  let mem := blit mem (Z.to_nat (dst / 4)) (take (Z.to_nat (move_bytes / 4)) (drop (Z.to_nat (src / 4)) mem)) in
  let last := u32 (u32 (bot - 1) * row_bytes) in
  let bg := make_pixel (pixel_format fb) (bg_color fb) in
  run (set_mem mem fb)
    (concat (map (fun y => map (fun x => ((last + u32 (y * pitch fb)) / 4 + x, bg)) (range 0 (width fb))) (range 0 FONT_HEIGHT))).

(** The line wrap and the scroll at the end of [fb_putchar]. *)
Definition fb_wrap (fb : fb_state) : fb_state :=
  let fb := if cols fb <=? cursor_x fb then fb_set_cursor 0 (u32 (cursor_y fb + 1)) fb else fb in
  if content_end fb <=? cursor_y fb then
    let fb := fb_scroll fb in fb_set_cursor (cursor_x fb) (u32 (content_end fb - 1)) fb
  else fb.

Definition fb_putchar (fb : fb_state) (c : Z) : fb_state :=
  if negb (fb_ready fb) then fb
  else
    let fg := make_pixel (pixel_format fb) (fg_color fb) in
    let bg := make_pixel (pixel_format fb) (bg_color fb) in
    let cx := cursor_x fb in
    let cy := cursor_y fb in
    fb_wrap
      (if c =? 10 then fb_set_cursor 0 (u32 (cy + 1)) fb
       else if c =? 13 then fb_set_cursor 0 cy fb
       else if c =? 9 then fb_set_cursor (Z.land (u32 (cx + 4)) (u32 (Z.lnot 3))) cy fb
       else if c =? 8 then
         if 0 <? cx then
           let fb := fb_set_cursor (cx - 1) cy fb in run fb (fb_draw_char_internal fb (cx - 1) cy 32 fg bg)
         else fb
       else if 0x20 <=? u8 c then fb_set_cursor (u32 (cx + 1)) cy (run fb (fb_draw_char_internal fb cx cy c fg bg))
       else fb).

Definition fb_write (fb : fb_state) (str : list Z) : fb_state := foldl fb_putchar fb (cstr str).

Definition fb_draw_cell (fb : fb_state) (col row ch fg bg : Z) : fb_state :=
  if negb (fb_ready fb) || (cols fb <=? col) || (rows fb <=? row) then fb
  else run fb (fb_draw_char_internal fb col row ch (make_pixel (pixel_format fb) fg) (make_pixel (pixel_format fb) bg)).
