(* ===== verification/FramebufferSpec.v ===== *)
(** * The text console refines a grid of characters

    [term] is what the user sees: a grid of cells and a cursor.  [refines]
    relates it to the pixels; every output function of the driver implements
    the one of the grid. *)

From Stdlib Require Import String.
From S2P Require Import Prelude CLib Font Pixels LineEditor Framebuffer.

Record cell := Cell { glyph : Z; ink : Z; paper : Z }.

Record term := Term { cells : Z -> Z -> cell; tx : Z; ty : Z }.

(** ** The specification *)

Section terminal.
Context (ncols top bot fg bg : Z).

Definition blank : cell := Cell 32 fg bg.

Definition t_cell (row col : Z) (c : cell) (t : term) : term :=
  Term (fun r k => if (r =? row) && (k =? col) then c else cells t r k) (tx t) (ty t).

Definition t_at (col row : Z) (t : term) : term := Term (cells t) col row.

(** The rows of the content region move up; the last one is cleared. *)
Definition t_scroll (t : term) : term :=
  Term (fun r k => if (top <=? r) && (r <? bot - 1) then cells t (r + 1) k
                   else if r =? bot - 1 then blank else cells t r k) (tx t) (ty t).

Definition t_wrap (t : term) : term :=
  let t := if ncols <=? tx t then t_at 0 (ty t + 1) t else t in
  if bot <=? ty t then t_at (tx t) (bot - 1) (t_scroll t) else t.

Definition t_put (t : term) (c : Z) : term :=
  t_wrap
    (if c =? 10 then t_at 0 (ty t + 1) t
     else if c =? 13 then t_at 0 (ty t) t
     else if c =? 9 then t_at (4 * (tx t / 4 + 1)) (ty t) t
     else if c =? 8 then
       if 0 <? tx t then t_cell (ty t) (tx t - 1) blank (t_at (tx t - 1) (ty t) t) else t
     else if 0x20 <=? u8 c then t_at (tx t + 1) (ty t) (t_cell (ty t) (tx t) (Cell c fg bg) t)
     else t).

Definition t_write (t : term) (str : list Z) : term := foldl t_put t (cstr str).
End terminal.

(** ** The abstraction *)

Record fb_ok (fb : fb_state) : Prop := FbOk {
  fo_ready : fb_ready fb = true;
  fo_cols : cols fb = width fb / 8;
  fo_rows : rows fb = height fb / 16;
  fo_width : 8 <= width fb;
  fo_pitch : 4 * width fb <= pitch fb /\ pitch fb mod 4 = 0;
  fo_size : 16 <= height fb /\ pitch fb * height fb < 2 ^ 32;
  fo_mem : Z.of_nat (length (fb_mem fb)) = pitch fb / 4 * height fb;
  fo_region : 0 <= content_top fb < content_end fb /\ content_end fb <= rows fb
}.

Abbreviation ppl fb := (pitch fb / 4).
Abbreviation ink_of fb := (make_pixel (pixel_format fb)).

(** The pixels of a cell. *)
Definition cell_pixel (fb : fb_state) (c : cell) (gx gy : Z) : Z :=
  glyph_pixel (glyph c) (Z.to_nat gy) gx (ink_of fb (ink c)) (ink_of fb (paper c)).

Definition shows (fb : fb_state) (g : Z -> Z -> cell) : Prop :=
  forall row col gx gy, 0 <= row < rows fb -> 0 <= col < cols fb -> 0 <= gx < 8 -> 0 <= gy < 16 ->
    fb_mem fb !! Z.to_nat (at_pixel (ppl fb) (8 * col + gx) (16 * row + gy)) = Some (cell_pixel fb (g row col) gx gy).

Record refines (fb : fb_state) (t : term) : Prop := Refines {
  re_ok : fb_ok fb;
  re_shows : shows fb (cells t);
  re_x : cursor_x fb = tx t /\ 0 <= tx t < cols fb;
  re_y : cursor_y fb = ty t /\ 0 <= ty t < content_end fb
}.

(** Everything but the pixels and the cursor. *)
Definition settings (fb : fb_state) : Z * Z * Z * Z * Z * Z * Z * Z * Z * Z * bool :=
  (width fb, height fb, pitch fb, cols fb, rows fb, fg_color fb, bg_color fb, pixel_format fb,
   content_top fb, content_bottom fb, fb_ready fb).

Lemma settings_fields f g : settings f = settings g ->
  cols f = cols g /\ content_top f = content_top g /\ content_end f = content_end g /\ fg_color f = fg_color g /\ bg_color f = bg_color g.
Proof.
  unfold settings, content_end. intros H. injection H as _ _ _ Hc Hr Hf Hb _ Ht Hcb _. rewrite Hc, Hr, Hf, Hb, Ht, Hcb. done.
Qed.

(** ** Geometry *)

Section geometry.
Context (fb : fb_state) (Hok : fb_ok fb).

Lemma pitch_words : pitch fb = 4 * ppl fb.
Proof. destruct (fo_pitch fb Hok). lia. Qed.

Lemma width_ppl : 8 <= width fb <= ppl fb.
Proof. destruct (fo_pitch fb Hok). pose proof (fo_width fb Hok). lia. Qed.

Lemma height_small : 16 <= height fb < 2 ^ 27.
Proof. pose proof width_ppl. pose proof pitch_words. destruct (fo_size fb Hok). nia. Qed.

Lemma ppl_height : ppl fb * height fb < 2 ^ 30.
Proof. pose proof pitch_words. destruct (fo_size fb Hok). nia. Qed.

Lemma cols_bounds : 0 < cols fb /\ 8 * cols fb <= width fb.
Proof. rewrite (fo_cols fb Hok). pose proof (fo_width fb Hok). lia. Qed.

Lemma rows_bounds : 0 < rows fb /\ 16 * rows fb <= height fb.
Proof. rewrite (fo_rows fb Hok). pose proof height_small. lia. Qed.

Lemma scanline_words y : 0 <= y < height fb -> scanline fb y = y * ppl fb.
Proof.
  intros Hy. pose proof pitch_words as Hp. pose proof ppl_height. pose proof width_ppl. unfold scanline, wrap. rewrite Hp at 1.
  rewrite Z.mod_small by nia. replace (y * (4 * ppl fb)) with (y * ppl fb * 4) by lia. apply Z.div_mul. lia.
Qed.

Lemma width_small : width fb < 2 ^ 26.
Proof. pose proof ppl_height. pose proof width_ppl. pose proof height_small. nia. Qed.

(** A pixel of the screen is a word of the memory. *)
Lemma at_pixel_bounds px py : 0 <= px < ppl fb -> 0 <= py < height fb ->
  0 <= at_pixel (ppl fb) px py < Z.of_nat (length (fb_mem fb)).
Proof. intros Hx Hy. rewrite (fo_mem fb Hok). unfold at_pixel. nia. Qed.

Lemma cell_bounds row col gx gy : 0 <= row < rows fb -> 0 <= col < cols fb -> 0 <= gx < 8 -> 0 <= gy < 16 ->
  0 <= 8 * col + gx < ppl fb /\ 0 <= 16 * row + gy < height fb.
Proof. intros. pose proof cols_bounds. pose proof rows_bounds. pose proof width_ppl. lia. Qed.

Abbreviation only := (only (ppl fb) (height fb)).

(** Stores to the screen: the pixels after. *)
Lemma run_lookup R s px py : only R s -> 0 <= px < ppl fb -> 0 <= py < height fb ->
  fb_mem (run fb s) !! Z.to_nat (at_pixel (ppl fb) px py) =
  match shown s (at_pixel (ppl fb) px py) with
  | Some c => Some c
  | None => fb_mem fb !! Z.to_nat (at_pixel (ppl fb) px py)
  end.
Proof.
  intros Hs Hx Hy. apply plot_shown; [|by apply at_pixel_bounds]. apply Forall_forall. intros p Hp.
  destruct (Hs p Hp) as (qx & qy & -> & Hqx & Hqy & _). by apply at_pixel_bounds.
Qed.

(** ** The stores *)

Lemma only_draw_char col row c fg bg : 0 <= row < rows fb -> 0 <= col < cols fb ->
  only (fun px py d => (8 * col <= px < 8 * col + 8 /\ 16 * row <= py < 16 * row + 16) /\
                       d = glyph_pixel c (Z.to_nat (py - 16 * row)) (px - 8 * col) fg bg)
    (fb_draw_char_internal fb col row c fg bg).
Proof.
  intros Hr Hc. pose proof width_small. pose proof height_small. unfold fb_draw_char_internal, FONT_WIDTH, FONT_HEIGHT, wrap.
  apply only_rows. intros y Hy%elem_of_range. apply only_pixels. intros x Hx%elem_of_range.
  destruct (cell_bounds row col x y) as [Hpx Hpy]; [done..|]. pose proof cols_bounds.
  rewrite !Z.mod_small by (rewrite ?Z.mod_small by lia; lia). rewrite scanline_words by lia.
  replace ((row * 16 + y) * ppl fb + (col * 8 + x)) with (at_pixel (ppl fb) (8 * col + x) (16 * row + y)) by (unfold at_pixel; lia).
  apply only_store; [done|done|]. split; [lia|]. f_equal; lia.
Qed.

Lemma draw_char_draws col row c fg bg gx gy : 0 <= row < rows fb -> 0 <= col < cols fb -> 0 <= gx < 8 -> 0 <= gy < 16 ->
  (at_pixel (ppl fb) (8 * col + gx) (16 * row + gy), glyph_pixel c (Z.to_nat gy) gx fg bg) ∈ fb_draw_char_internal fb col row c fg bg.
Proof.
  intros Hr Hc Hx Hy. pose proof width_small. pose proof height_small. unfold fb_draw_char_internal, FONT_WIDTH, FONT_HEIGHT, wrap.
  destruct (cell_bounds row col gx gy) as [Hpx Hpy]; [done..|]. pose proof cols_bounds.
  apply elem_of_rows. exists gy. rewrite elem_of_range. split; [done|]. apply elem_of_pixels. exists gx. rewrite elem_of_range. split; [done|].
  rewrite !Z.mod_small by (rewrite ?Z.mod_small by lia; lia). rewrite scanline_words by lia. f_equal. unfold at_pixel. lia.
Qed.

(** Drawing a character sets its cell. *)
Lemma draw_char_shows g col row c fg bg : shows fb g -> 0 <= row < rows fb -> 0 <= col < cols fb ->
  shows (run fb (fb_draw_char_internal fb col row c (ink_of fb fg) (ink_of fb bg)))
    (fun r k => if (r =? row) && (k =? col) then Cell c fg bg else g r k).
Proof.
  intros Hs Hr Hc r k gx gy Hr' Hk Hgx Hgy. cbn [run set_mem rows cols pitch] in Hr', Hk |- *.
  destruct (cell_bounds r k gx gy) as [Hpx Hpy]; [done..|].
  change (pitch (run fb _)) with (pitch fb). pose proof (only_draw_char col row c (ink_of fb fg) (ink_of fb bg) Hr Hc) as Ho.
  change (fb_mem (set_mem ?m fb)) with (fb_mem (run fb (fb_draw_char_internal fb col row c (ink_of fb fg) (ink_of fb bg)))).
  rewrite (run_lookup _ _ _ _ Ho Hpx Hpy). change (cell_pixel (run fb _)) with (cell_pixel fb).
  destruct ((r =? row) && (k =? col)) eqn:E.
  - apply andb_true_iff in E as [->%Z.eqb_eq ->%Z.eqb_eq].
    erewrite shown_colour; [reflexivity|exact Ho|done| |by apply draw_char_draws].
    cbn. intros d [_ ->]. unfold cell_pixel. cbn. f_equal; lia.
  - erewrite shown_outside; [by apply Hs|exact Ho|done|]. cbn. lia.
Qed.

(** ** Blank rows *)

Lemma glyph_space gy gx fg bg : glyph_pixel 32 gy gx fg bg = bg.
Proof.
  unfold glyph_pixel, glyph_row. change (nth _ font_8x16 []) with (replicate 16 0).
  do 16 (destruct gy as [|gy]; [reflexivity|]). destruct gy; reflexivity.
Qed.

Abbreviation lines_filled y0 n c := (fun px py d => (0 <= px < width fb /\ y0 <= py < y0 + n) /\ d = c).

Lemma only_fill_lines y0 n c : 0 <= y0 -> y0 + n <= height fb -> only (lines_filled y0 n c) (fill_lines fb y0 n c).
Proof.
  intros H0 Hn. pose proof height_small. pose proof width_ppl. apply only_rows. intros y Hy%elem_of_range.
  apply only_pixels. intros x Hx%elem_of_range. unfold wrap. rewrite Z.mod_small, scanline_words by lia.
  apply only_store; lia.
Qed.

Lemma fill_lines_draws y0 n c px py : 0 <= y0 -> y0 + n <= height fb -> 0 <= px < width fb -> y0 <= py < y0 + n ->
  (at_pixel (ppl fb) px py, c) ∈ fill_lines fb y0 n c.
Proof.
  intros H0 Hn Hx Hy. pose proof height_small. apply elem_of_rows. exists (py - y0). rewrite elem_of_range. split; [lia|].
  apply elem_of_pixels. exists px. rewrite elem_of_range. split; [done|]. unfold wrap. rewrite Z.mod_small, scanline_words by lia.
  unfold at_pixel. f_equal. f_equal. f_equal. lia.
Qed.

(** Filling whole rows with the background blanks them. *)
Lemma fill_lines_shown n y0 c px py : 0 <= y0 -> y0 + n <= height fb -> 0 <= px < width fb ->
  shown (fill_lines fb y0 n c) (at_pixel (ppl fb) px py) = if (y0 <=? py) && (py <? y0 + n) then Some c else None.
Proof.
  intros H0 Hn Hx. pose proof width_ppl. pose proof (only_fill_lines y0 n c H0 Hn) as Ho.
  destruct (_ && _) eqn:E.
  - eapply shown_colour; [exact Ho|lia|cbn; tauto|apply fill_lines_draws; lia].
  - eapply shown_outside; [exact Ho|lia|]. cbn. lia.
Qed.

(** ** Scrolling *)

Lemma content_small : 0 <= content_top fb < content_end fb /\ 16 * content_end fb <= height fb /\ content_end fb < 2 ^ 27.
Proof. destruct (fo_region fb Hok). pose proof rows_bounds. pose proof height_small. lia. Qed.

Lemma row_bytes_words : u32 (pitch fb * FONT_HEIGHT) = 4 * (16 * ppl fb).
Proof.
  pose proof pitch_words as Hp. pose proof ppl_height. pose proof height_small. pose proof width_ppl.
  unfold FONT_HEIGHT, wrap. rewrite Hp at 1. rewrite Z.mod_small by nia. lia.
Qed.

(** [n] rows are [64 * n * ppl] bytes, in 32 bits. *)
Lemma rows_bytes n : 0 <= n <= content_end fb -> u32 (n * (4 * (16 * ppl fb))) = 4 * (n * (16 * ppl fb)).
Proof.
  intros Hn. pose proof content_small. pose proof ppl_height. pose proof height_small. pose proof width_ppl.
  unfold wrap. rewrite Z.mod_small; [lia|]. nia.
Qed.

Definition moved : list Z :=
  let rw := 16 * ppl fb in
  blit (fb_mem fb) (Z.to_nat (content_top fb * rw))
    (take (Z.to_nat ((content_end fb - content_top fb - 1) * rw)) (drop (Z.to_nat (content_top fb * rw + rw)) (fb_mem fb))).

Lemma fb_scroll_eq :
  fb_scroll fb = run (set_mem moved fb) (fill_lines fb (16 * (content_end fb - 1)) 16 (ink_of fb (bg_color fb))).
Proof.
  destruct content_small as (Ht & Hh & Hs). pose proof height_small. pose proof ppl_height. pose proof width_ppl.
  unfold fb_scroll. rewrite row_bytes_words. unfold wrap at 3 5. rewrite !(Z.mod_small (_ - 1)) by lia.
  rewrite !rows_bytes by lia. f_equal; [unfold moved; do 2 f_equal|].
  - rewrite Z.mul_comm, Z.div_mul by lia. done.
  - do 2 f_equal.
    + rewrite Z.mul_comm, Z.div_mul by lia. lia.
    + rewrite <- Z.mul_add_distr_l, Z.mul_comm, Z.div_mul by lia. done.
  - unfold fill_lines, FONT_HEIGHT. f_equal. apply map_ext_in. intros y Hy%list_elem_of_In%elem_of_range.
    apply map_ext. intros x. f_equal. f_equal. unfold wrap. rewrite (Z.mod_small (16 * _ + y)) by lia. rewrite scanline_words by lia.
    pose proof pitch_words as Hp. assert (y * pitch fb = y * ppl fb * 4) as -> by nia. rewrite (Z.mod_small (y * ppl fb * 4)) by nia.
    rewrite (Z.mod_small (content_end fb - 1)) by lia.
    pose proof (rows_bytes (content_end fb - 1) ltac:(lia)) as E. unfold wrap in E. rewrite E.
    replace (_ + y * ppl fb * 4) with ((16 * (content_end fb - 1) + y) * ppl fb * 4) by lia. apply Z.div_mul. lia.
Qed.

(** Word [i] is on one of the scan lines from [a] to [b]. *)
Lemma line_range a b px py : 0 <= px < ppl fb -> a * ppl fb <= at_pixel (ppl fb) px py < b * ppl fb <-> a <= py < b.
Proof. intros Hx. unfold at_pixel. split; nia. Qed.

Lemma length_moved : length moved = length (fb_mem fb).
Proof.
  destruct content_small as (Ht & Hh & Hs). pose proof width_ppl. pose proof (fo_mem fb Hok) as Hl.
  assert (content_end fb * (16 * ppl fb) <= Z.of_nat (length (fb_mem fb))) by nia.
  unfold moved. apply length_blit. rewrite length_take, length_drop. nia.
Qed.

Lemma moved_lookup px py : 0 <= px < ppl fb -> 0 <= py < height fb ->
  moved !! Z.to_nat (at_pixel (ppl fb) px py) =
  fb_mem fb !! Z.to_nat (at_pixel (ppl fb) px
    (if (16 * content_top fb <=? py) && (py <? 16 * (content_end fb - 1)) then py + 16 else py)).
Proof.
  intros Hx Hy. destruct content_small as (Ht & Hh & Hs). pose proof width_ppl. pose proof (fo_mem fb Hok) as Hl.
  assert (content_end fb * (16 * ppl fb) <= Z.of_nat (length (fb_mem fb))) by nia.
  set (rw := 16 * ppl fb) in *. unfold moved. fold rw.
  set (n := (content_end fb - content_top fb - 1) * rw). set (d := content_top fb * rw).
  assert (length (take (Z.to_nat n) (drop (Z.to_nat (d + rw)) (fb_mem fb))) = Z.to_nat n) as Hn.
  { rewrite length_take, length_drop. subst n d. nia. }
  rewrite lookup_blit by (rewrite Hn; subst n d; nia). rewrite Hn.
  pose proof (line_range (16 * content_top fb) (16 * (content_end fb - 1)) px py Hx) as Hr.
  assert (0 <= n /\ 0 <= d /\ 0 <= rw) as (Hn0 & Hd0 & Hrw) by (subst n d rw; nia).
  assert (d = 16 * content_top fb * ppl fb /\ d + n = 16 * (content_end fb - 1) * ppl fb) as [Ed Edn] by (subst n d rw; lia).
  assert (0 <= at_pixel (ppl fb) px py) as Hp0 by (unfold at_pixel; nia).
  rewrite <- Ed, <- Edn in Hr. destruct (_ && _) eqn:E.
  - assert (d <= at_pixel (ppl fb) px py < d + n) as Hi by (apply Hr; lia).
    rewrite decide_True by lia. rewrite lookup_take_lt, lookup_drop by lia. f_equal.
    unfold at_pixel in *. subst rw. lia.
  - rewrite decide_False; [done|]. intros Hi. assert (d <= at_pixel (ppl fb) px py < d + n) as Hi'%Hr by lia. lia.
Qed.
End geometry.

Lemma fb_ok_set_mem mem fb : length mem = length (fb_mem fb) -> fb_ok fb -> fb_ok (set_mem mem fb).
Proof. intros Hl [? ? ? ? ? ? Hm ?]. constructor; cbn; try done. by rewrite Hl. Qed.

Lemma fb_ok_run s fb : fb_ok fb -> fb_ok (run fb s).
Proof. apply fb_ok_set_mem, length_plot. Qed.

Lemma fb_ok_cursor x y fb : fb_ok fb -> fb_ok (fb_set_cursor x y fb).
Proof. intros []. by constructor. Qed.

Lemma fb_ok_scroll fb : fb_ok fb -> fb_ok (fb_scroll fb).
Proof. intros Hok. rewrite fb_scroll_eq by done. apply fb_ok_run, fb_ok_set_mem; [by apply length_moved|done]. Qed.

(** Scrolling moves the cells of the content region. *)
Lemma scroll_shows fb t fg : fb_ok fb -> shows fb (cells t) ->
  shows (fb_scroll fb) (cells (t_scroll (content_top fb) (content_end fb) fg (bg_color fb) t)).
Proof.
  intros Hok Hs. rewrite fb_scroll_eq by done. destruct (content_small fb Hok) as (Ht & Hh & _).
  set (fb1 := set_mem (moved fb) fb). assert (fb_ok fb1) as Hok1 by (apply fb_ok_set_mem; [by apply length_moved|done]).
  intros row col gx gy Hr Hc Hgx Hgy. change (rows (run fb1 _)) with (rows fb) in Hr. change (cols (run fb1 _)) with (cols fb) in Hc.
  destruct (cell_bounds fb Hok row col gx gy) as [Hpx Hpy]; [done..|].
  pose proof (cols_bounds fb Hok). destruct (fo_region fb Hok) as [_ Hce].
  assert (0 <= 8 * col + gx < width fb) as Hpw by lia. change (pitch (run fb1 _)) with (pitch fb1).
  change (fill_lines fb) with (fill_lines fb1).
  pose proof (only_fill_lines fb1 Hok1 (16 * (content_end fb - 1)) 16 (ink_of fb (bg_color fb)) ltac:(lia) ltac:(cbn; lia)) as Ho.
  rewrite (run_lookup fb1 Hok1 _ _ _ _ Ho) by done.
  rewrite (fill_lines_shown fb1 Hok1) by (cbn; lia || done). change (cell_pixel (run fb1 _)) with (cell_pixel fb).
  change (fb_mem fb1) with (moved fb). change (ppl fb1) with (ppl fb). rewrite moved_lookup by done.
  cbn [t_scroll cells].
  destruct (decide (row = content_end fb - 1)) as [->|Hne].
  - replace (_ && _) with true by lia. rewrite Z.eqb_refl. replace ((_ <=? _) && _) with false by lia.
    unfold cell_pixel, blank. cbn. by rewrite glyph_space.
  - replace ((16 * (content_end fb - 1) <=? _) && _) with false by lia. replace (row =? _) with false by lia.
    destruct ((content_top fb <=? row) && _) eqn:E.
    + replace (_ && _) with true by lia. replace (16 * row + gy + 16) with (16 * (row + 1) + gy) by lia. apply Hs; lia.
    + replace (_ && _) with false by lia. by apply Hs.
Qed.

(** ** The output functions *)

(** The operations of the terminal with the settings of the driver. *)
Definition put_of (fb : fb_state) : term -> Z -> term := t_put (cols fb) (content_top fb) (content_end fb) (fg_color fb) (bg_color fb).
Definition write_of (fb : fb_state) : term -> list Z -> term := t_write (cols fb) (content_top fb) (content_end fb) (fg_color fb) (bg_color fb).

Lemma wrap_refines fb t : fb_ok fb -> shows fb (cells t) ->
  cursor_x fb = tx t -> 0 <= tx t -> cursor_y fb = ty t -> 0 <= ty t <= content_end fb ->
  refines (fb_wrap fb) (t_wrap (cols fb) (content_top fb) (content_end fb) (fg_color fb) (bg_color fb) t) /\
  settings (fb_wrap fb) = settings fb.
Proof.
  intros Hok Hs Hx Hx0 Hy Hy0. destruct (content_small fb Hok) as (Ht & _ & Hb). pose proof (cols_bounds fb Hok).
  unfold fb_wrap, t_wrap, wrap. rewrite Hx, Hy.
  set (fb1 := if cols fb <=? tx t then fb_set_cursor 0 ((ty t + 1) mod 2 ^ 32) fb else fb).
  set (t1 := if cols fb <=? tx t then t_at 0 (ty t + 1) t else t).
  assert (fb_ok fb1 /\ shows fb1 (cells t1) /\ cursor_x fb1 = tx t1 /\ 0 <= tx t1 < cols fb /\ cursor_y fb1 = ty t1 /\ 0 <= ty t1 /\
    settings fb1 = settings fb /\ content_end fb1 = content_end fb) as (Hok1 & Hs1 & Hx1 & Hc1 & Hy1 & Hr1 & Hse & Hce).
  { subst fb1 t1. destruct (Z.leb_spec (cols fb) (tx t)) as [Hw|Hw].
    - rewrite Z.mod_small by lia. split; [by apply fb_ok_cursor|]. cbn [t_at tx ty cells fb_set_cursor cursor_x cursor_y]. split_and!; done || lia.
    - split_and!; done || lia. }
  clearbody fb1 t1. rewrite Hy1, Hce. destruct (Z.leb_spec (content_end fb) (ty t1)) as [Hw|Hw].
  - cbv zeta. rewrite (Z.mod_small (_ - 1)) by (change (content_end (fb_scroll fb1)) with (content_end fb1); lia).
    change (content_end (fb_scroll fb1)) with (content_end fb1). rewrite Hce. split; [|done].
    destruct (settings_fields _ _ Hse) as (Ec & Et & _ & Ef & Eb). constructor.
    + by apply fb_ok_cursor, fb_ok_scroll.
    + pose proof (scroll_shows fb1 t1 (fg_color fb) Hok1 Hs1) as Hsc. rewrite Hce in Hsc.
      rewrite Et, Eb in Hsc. exact Hsc.
    + change (cursor_x (fb_set_cursor ?a ?b ?f)) with a. change (cols (fb_set_cursor ?a ?b ?f)) with (cols fb1).
      cbn [t_at t_scroll tx]. change (cursor_x (fb_scroll fb1)) with (cursor_x fb1). split; [done|]. congruence.
    + change (cursor_y (fb_set_cursor ?a ?b ?f)) with b. change (content_end (fb_set_cursor ?a ?b (fb_scroll fb1))) with (content_end fb1).
      rewrite Hce. cbn [t_at t_scroll ty]. lia.
  - split; [|done]. constructor; [done|done| |rewrite Hce; lia]. split; [done|].
    by rewrite (proj1 (settings_fields _ _ Hse)).
Qed.

(** [(x + 4) & ~3] is the next multiple of 4. *)
Lemma next_tab x : 0 <= x < 2 ^ 31 -> Z.land (u32 (x + 4)) (u32 (Z.lnot 3)) = 4 * (x / 4 + 1).
Proof.
  intros Hx. unfold wrap. rewrite Z.mod_small by lia. change (Z.lnot 3 mod 2 ^ 32) with (Z.ldiff (Z.ones 32) (Z.ones 2)).
  replace (Z.land (x + 4) _) with (Z.ldiff (Z.land (x + 4) (Z.ones 32)) (Z.ones 2)).
  2:{ apply Z.bits_inj'. intros n Hn. rewrite Z.ldiff_spec, !Z.land_spec, Z.ldiff_spec. btauto. }
  rewrite Z.land_ones by lia. rewrite (Z.mod_small (x + 4)) by lia.
  rewrite Z.ldiff_ones_r, Z.shiftl_mul_pow2, Z.shiftr_div_pow2 by lia. change (2 ^ 2) with 4. lia.
Qed.

Lemma putchar_step fb t c : refines fb t ->
  refines (fb_putchar fb c) (put_of fb t c) /\ settings (fb_putchar fb c) = settings fb.
Proof.
  intros [Hok Hs [Hx Hx0] [Hy Hy0]]. destruct (content_small fb Hok) as (Ht & Hh & Hb). destruct (fo_region fb Hok) as [_ Hce].
  pose proof (cols_bounds fb Hok). pose proof (width_small fb Hok).
  unfold fb_putchar, put_of, t_put. rewrite (fo_ready fb Hok). cbn [negb]. rewrite Hx, Hy.
  assert (forall f, fb_ok f -> settings f = settings fb -> forall u, shows f (cells u) -> cursor_x f = tx u -> 0 <= tx u ->
    cursor_y f = ty u -> 0 <= ty u <= content_end fb ->
    refines (fb_wrap f) (t_wrap (cols fb) (content_top fb) (content_end fb) (fg_color fb) (bg_color fb) u) /\
    settings (fb_wrap f) = settings fb) as Hw.
  { intros f Hf Hse u H1 H2 H3 H4 H5. destruct (settings_fields _ _ Hse) as (Ec & Et & Ee & Ef & Eb).
    rewrite <- Hse, <- Ec, <- Et, <- Ee, <- Ef, <- Eb in *. by apply wrap_refines. }
  destruct (c =? 10); [apply Hw; [by apply fb_ok_cursor|done|done|done|done|cbn; unfold wrap; rewrite Z.mod_small by lia; done|cbn; lia]|].
  destruct (c =? 13); [apply Hw; [by apply fb_ok_cursor|done|done|done|done|done|cbn; lia]|].
  destruct (c =? 9); [apply Hw; [by apply fb_ok_cursor|done|done|cbn; apply next_tab; lia|cbn; lia|done|cbn; lia]|].
  destruct (c =? 8).
  { destruct (Z.ltb_spec 0 (tx t)); [|apply Hw; done || lia]. apply Hw; [by apply fb_ok_run, fb_ok_cursor|done| |done|cbn; lia|done|cbn; lia].
    apply (draw_char_shows (fb_set_cursor (tx t - 1) (ty t) fb)); [by apply fb_ok_cursor|exact Hs|cbn; lia|cbn; lia]. }
  destruct (0x20 <=? u8 c); [|apply Hw; done || lia].
  apply Hw; [by apply fb_ok_cursor, fb_ok_run|done| |cbn; unfold wrap; rewrite Z.mod_small by lia; done|cbn; lia|done|cbn; lia].
  apply (draw_char_shows fb); [done|exact Hs|lia|lia].
Qed.

Lemma put_of_settings f g : settings f = settings g -> put_of f = put_of g.
Proof. intros Hs. unfold put_of. by destruct (settings_fields _ _ Hs) as (-> & -> & -> & -> & ->). Qed.

Lemma puts_step text fb t : refines fb t ->
  refines (foldl fb_putchar fb text) (foldl (put_of fb) t text) /\ settings (foldl fb_putchar fb text) = settings fb.
Proof.
  revert fb t. induction text as [|c text IH]; intros fb t Hr; [done|]. cbn [foldl].
  destruct (putchar_step fb t c Hr) as [Hr1 Hs1]. destruct (IH _ _ Hr1) as [Hr2 Hs2].
  rewrite (put_of_settings _ _ Hs1) in Hr2. split; [done|]. by rewrite Hs2.
Qed.

(** Printable text that fits the row. *)
Lemma t_write_text ncols top bot fg bg text t :
  Forall (fun c => 32 <= c < 256) text -> 0 <= tx t -> tx t + Z.of_nat (length text) < ncols -> ty t < bot ->
  let t' := foldl (t_put ncols top bot fg bg) t text in
  tx t' = tx t + Z.of_nat (length text) /\ ty t' = ty t /\
  forall row col, cells t' row col =
    if (row =? ty t) && (tx t <=? col) && (col <? tx t + Z.of_nat (length text))
    then Cell (text.[Z.to_nat (col - tx t)]) fg bg else cells t row col.
Proof.
  revert t. induction text as [|c text IH]; intros t Hp H0 Hl Hy; cbn [foldl length] in *.
  { split; [lia|]. split; [done|]. intros row col. replace (_ && _) with false by lia. done. }
  apply Forall_cons in Hp as [Hc Hp].
  assert (t_put ncols top bot fg bg t c = t_at (tx t + 1) (ty t) (t_cell (ty t) (tx t) (Cell c fg bg) t)) as ->.
  { unfold t_put. replace (c =? 10) with false by lia. replace (c =? 13) with false by lia. replace (c =? 9) with false by lia.
    replace (c =? 8) with false by lia. unfold wrap. rewrite Z.mod_small by lia. replace (0x20 <=? c) with true by lia.
    unfold t_wrap. cbn [t_at t_cell tx ty]. replace (ncols <=? tx t + 1) with false by lia. cbn [t_at t_cell tx ty]. by replace (bot <=? ty t) with false by lia. }
  destruct (IH (t_at (tx t + 1) (ty t) (t_cell (ty t) (tx t) (Cell c fg bg) t))) as (E1 & E2 & E3); [done|cbn; lia|cbn; lia|done|].
  cbn [t_at t_cell tx ty cells] in E1, E2, E3. split; [lia|]. split; [done|]. intros row col. rewrite E3.
  destruct (Z.eqb_spec row (ty t)) as [->|Hr]; [|done]. cbn [andb].
  destruct (Z.eqb_spec col (tx t)) as [->|Hk].
  - replace ((tx t + 1 <=? tx t) && _) with false by lia. replace ((tx t <=? tx t) && _) with true by lia. by rewrite Z.sub_diag.
  - destruct ((tx t + 1 <=? col) && _) eqn:E.
    + replace ((tx t <=? col) && _) with true by lia. f_equal.
      replace (Z.to_nat (col - tx t)) with (S (Z.to_nat (col - (tx t + 1)))) by lia. done.
    + replace ((tx t <=? col) && _) with false by lia. done.
Qed.

Lemma cstr_text text : Forall (fun c => 32 <= c < 256) text -> cstr (text ++ [0]) = text.
Proof.
  intros Ht. unfold cstr. assert (strlen (text ++ [0]) = length text) as ->; [|by rewrite take_app_length].
  induction text as [|c text IH]; [done|]. apply Forall_cons in Ht as [Hc Ht]. cbn. replace (c =? 0) with false by lia. by rewrite IH.
Qed.

(** ** Initialisation *)

Lemma clear_refines fb : fb_ok fb -> refines (fb_clear fb) (Term (fun _ _ => blank (fg_color fb) (bg_color fb)) 0 (content_top fb)).
Proof.
  intros Hok. destruct (fo_region fb Hok) as [Ht Hce]. pose proof (cols_bounds fb Hok).
  constructor; [by apply fb_ok_cursor, fb_ok_run| |split; [done|cbn; lia]|split; [done|done]].
  intros row col gx gy Hr Hc Hgx Hgy. change (rows (fb_clear fb)) with (rows fb) in Hr. change (cols (fb_clear fb)) with (cols fb) in Hc.
  destruct (cell_bounds fb Hok row col gx gy) as [Hpx Hpy]; [done..|].
  pose proof (only_fill_lines fb Hok 0 (height fb) (ink_of fb (bg_color fb)) ltac:(lia) ltac:(lia)) as Ho.
  change (fb_mem (fb_clear fb)) with (fb_mem (run fb (fill_lines fb 0 (height fb) (ink_of fb (bg_color fb))))).
  change (pitch (fb_clear fb)) with (pitch fb). rewrite (run_lookup fb Hok _ _ _ _ Ho) by done.
  rewrite (fill_lines_shown fb Hok) by lia. replace (_ && _) with true by lia.
  unfold cell_pixel. cbn. by rewrite glyph_space.
Qed.

Lemma init_refines base w h pf mem fb : base <> 0 -> 8 <= w -> 16 <= h -> 4 * w * h < 2 ^ 32 -> Z.of_nat (length mem) = w * h ->
  let fb' := fb_init base w h (4 * w) pf mem fb in
  refines fb' (Term (fun _ _ => blank (fg_color fb') (bg_color fb')) 0 0).
Proof.
  intros Hb Hw Hh Hs Hm. unfold fb_init. rewrite (proj2 (Z.eqb_neq _ _) Hb). cbv zeta.
  set (f := Fb true mem w h (4 * w) 0 0 (w / FONT_WIDTH) (h / FONT_HEIGHT) LineEditor.COLOR_VOS_FG LineEditor.COLOR_VOS_BG pf 0 0).
  assert (fb_ok f) as Hf; [|by apply (clear_refines f Hf)].
  constructor; cbn -[Z.mul Z.div Z.modulo]; try done; try lia.
  unfold FONT_HEIGHT. lia.
Qed.

(** C31: the console shows a grid of characters.  While the pixels show a grid
    of cells (in a driver whose memory and content region are as [fb_init] and
    [fb_set_content_region] make them, the cursor in the region), writing any
    string makes them show the grid that the terminal's rules give: each
    character in its cell with the current colours, the cursor advancing and
    wrapping at the right edge, tabs going to the next multiple of four, a
    backspace blanking the cell before, and at the end of the content region
    its rows moving up by one and the last one blank, the rows outside the
    region untouched.  Nothing but the pixels and the cursor changes, and the
    cursor stays in the region.  A printable text that fits the row is shown
    from the cursor on and changes no other cell. *)
Theorem fb_write_refines (fb : fb_state) (t : term) :
  refines fb t ->
  (forall str, refines (fb_write fb str) (write_of fb t str) /\ settings (fb_write fb str) = settings fb) /\
  (forall text, Forall (fun c => 32 <= c < 256) text -> tx t + Z.of_nat (length text) < cols fb ->
     exists t', refines (fb_write fb (text ++ [0])) t' /\ tx t' = tx t + Z.of_nat (length text) /\ ty t' = ty t /\
       forall row col, cells t' row col =
         if (row =? ty t) && (tx t <=? col) && (col <? tx t + Z.of_nat (length text))
         then Cell (text.[Z.to_nat (col - tx t)]) (fg_color fb) (bg_color fb) else cells t row col).
Proof.
  intros Hr. split; [intros str; by apply puts_step|]. intros text Hp Hl. unfold fb_write. rewrite cstr_text by done.
  eexists. split; [by apply puts_step|]. destruct Hr as [Hok _ [_ Hx] [_ Hy]]. apply t_write_text; [done|lia|done|lia].
Qed.

(** A screen of 24 x 32 pixels: two rows of three characters. *)
Lemma fb_write_refines_witness :
  let fb := fb_init 1 24 32 96 0 (replicate 768 0) (Fb false [] 0 0 0 0 0 0 0 0 0 0 0 0) in
  exists t, refines (fb_write fb (cs "ab" ++ [0])) t /\ cells t 0 1 = Cell 98 (fg_color fb) (bg_color fb) /\ tx t = 2.
Proof.
  intros fb.
  assert (refines fb (Term (fun _ _ => blank (fg_color fb) (bg_color fb)) 0 0)) as Hr
    by (apply (init_refines 1 24 32 0 (replicate 768 0)); [lia|lia|lia|lia|reflexivity]).
  destruct (fb_write_refines fb _ Hr) as [_ H]. destruct (H (cs "ab")) as (t & Ht & Hx & _ & Hc).
  - apply (bool_decide_unpack _). vm_compute. exact I.
  - reflexivity.
  - exists t. split; [exact Ht|]. rewrite Hc. split; [reflexivity|]. rewrite Hx. reflexivity.
Defined.

(** A cell drawn out of turn, as the status bars do: it is clipped to the grid
    and leaves the cursor alone. *)
Lemma draw_cell_refines fb t col row ch fg bg : refines fb t -> 0 <= col -> 0 <= row ->
  refines (fb_draw_cell fb col row ch fg bg) (if (col <? cols fb) && (row <? rows fb) then t_cell row col (Cell ch fg bg) t else t).
Proof.
  intros [Hok Hs Hx Hy] Hc Hr. unfold fb_draw_cell. rewrite (fo_ready fb Hok). cbn [negb orb].
  destruct (Z.leb_spec (cols fb) col), (Z.leb_spec (rows fb) row); cbn [orb];
    [replace (_ && _) with false by lia; by constructor..|].
  replace (_ && _) with true by lia. constructor; [by apply fb_ok_run| |done|done].
  by apply draw_char_shows.
Qed.
