(* ===== verification/Console.v ===== *)
(** * The serial line, console output and system calls

    The driver of the serial port (src/kernel/drivers/serial.c) on the
    registers of a 16550 UART, by its data sheet: the divisor latch hides the
    data and interrupt registers while bit 7 of the line control register is
    set.  [status n] is what the [n]-th read of the line status register
    delivers.  Then [kprintf] (src/kernel/lib/printf.c), which writes to the
    serial line and to the text console, and the system calls
    (src/kernel/arch/x86_64/syscall.c, src/kernel/main.c) with user memory as
    a function from addresses.  [None]: still waiting for the transmitter, or
    for a key. *)

From Stdlib Require Import String.
From S2P Require Import Prelude CLib Errors Printf Ring Keyboard Framebuffer.

(** ** The serial port *)

Definition COM1_PORT : Z := 0x3F8.

Record uart := Uart { polls : nat; ier : Z; lcr : Z; fcr : Z; mcr : Z; dll : Z; dlm : Z; sent : list Z }.

(** A write to one of the registers. *)
Definition uart_out (u : uart) (port v : Z) : uart :=
  let dlab := Z.testbit (lcr u) 7 in
  let r := port - COM1_PORT in
  if r =? 0 then
    if dlab then Uart (polls u) (ier u) (lcr u) (fcr u) (mcr u) v (dlm u) (sent u)
    else Uart (polls u) (ier u) (lcr u) (fcr u) (mcr u) (dll u) (dlm u) (sent u ++ [v])
  else if r =? 1 then
    if dlab then Uart (polls u) (ier u) (lcr u) (fcr u) (mcr u) (dll u) v (sent u)
    else Uart (polls u) v (lcr u) (fcr u) (mcr u) (dll u) (dlm u) (sent u)
  else if r =? 2 then Uart (polls u) (ier u) (lcr u) v (mcr u) (dll u) (dlm u) (sent u)
  else if r =? 3 then Uart (polls u) (ier u) v (fcr u) (mcr u) (dll u) (dlm u) (sent u)
  else if r =? 4 then Uart (polls u) (ier u) (lcr u) (fcr u) v (dll u) (dlm u) (sent u)
  else u.

Definition serial_init (u : uart) : uart :=
  foldl (fun u pv => uart_out u (fst pv) (snd pv)) u
    [(COM1_PORT + 1, 0x00); (COM1_PORT + 3, 0x80); (COM1_PORT + 0, 0x01); (COM1_PORT + 1, 0x00);
     (COM1_PORT + 3, 0x03); (COM1_PORT + 2, 0xC7); (COM1_PORT + 4, 0x0B)].

Section serial.
Context (status : nat -> Z).

Definition serial_transmit_empty (u : uart) : Z * uart :=
  (Z.land (status (polls u)) 0x20, Uart (S (polls u)) (ier u) (lcr u) (fcr u) (mcr u) (dll u) (dlm u) (sent u)).

(** [while (!serial_transmit_empty());] *)
Fixpoint serial_wait (fuel : nat) (u : uart) : option uart :=
  match fuel with
  | O => None
  | S fuel => let '(v, u) := serial_transmit_empty u in if v =? 0 then serial_wait fuel u else Some u
  end.

Definition serial_putchar (fuel : nat) (u : uart) (c : Z) : option uart :=
  match serial_wait fuel u with
  | None => None
  | Some u =>
      let u := uart_out u COM1_PORT (u8 c) in
      if c =? 10 then
        match serial_wait fuel u with
        | None => None
        | Some u => Some (uart_out u COM1_PORT 13)
        end
      else Some u
  end.

Fixpoint serial_write (fuel : nat) (u : uart) (str : list Z) : option uart :=
  match str with
  | [] => Some u
  | c :: str =>
      if c =? 0 then Some u
      else match serial_putchar fuel u c with Some u => serial_write fuel u str | None => None end
  end.

(** ** Console output *)

Record console := Console { c_uart : uart; c_fb : fb_state }.

Definition kprintf_putchar (fuel : nat) (con : option console) (c : Z) : option console :=
  match con with
  | None => None
  | Some con =>
      match serial_putchar fuel (c_uart con) c with
      | None => None
      | Some u => Some (Console u (if fb_ready (c_fb con) then fb_putchar (c_fb con) c else c_fb con))
      end
  end.

(** The console afterwards and the number of characters. *)
Definition kprintf (fuel : nat) (con : console) (fmt : list Z) (args : list varg) : option (console * Z) :=
  match kvprintf (kprintf_putchar fuel) (Some con) fmt args with
  | Some (Some con, n) => Some (con, n)
  | _ => None
  end.

(** ** System calls *)

Definition SYS_DB_QUERY : Z := 0.
Definition SYS_DB_INSERT : Z := 1.
Definition SYS_DB_DELETE : Z := 2.
Definition SYS_DB_UPDATE : Z := 3.
Definition SYS_PROC_EXIT : Z := 21.
Definition SYS_IO_READ : Z := 40.
Definition SYS_IO_WRITE : Z := 41.
Definition SYS_INFO : Z := 50.

Record io := Io { io_console : console; io_keys : kb_state; io_mem : Z -> Z }.

Definition sys_db_query (query_str result_buf buf_size : Z) : Z := VOS_ERR_NOSYS.
Definition sys_db_insert (table_id record_ptr : Z) : Z := VOS_ERR_NOSYS.
Definition sys_db_delete (table_id row_id : Z) : Z := VOS_ERR_NOSYS.
Definition sys_db_update (table_id row_id record_ptr : Z) : Z := VOS_ERR_NOSYS.

(** [str[i]] for [i] from [a] on, [n] of them. *)
Fixpoint write_loop (fuel n : nat) (a : Z) (mem : Z -> Z) (con : console) : option console :=
  match n with
  | O => Some con
  | S n =>
      let c := mem (u64 a) in
      match serial_putchar fuel (c_uart con) c with
      | None => None
      | Some u => write_loop fuel n (a + 1) mem (Console u (fb_putchar (c_fb con) c))
      end
  end.

Definition sys_io_write (fuel : nat) (st : io) (buf len : Z) : option (io * Z) :=
  match write_loop fuel (Z.to_nat len) buf (io_mem st) (io_console st) with
  | None => None
  | Some con => Some (Io con (io_keys st) (io_mem st), i64 len)
  end.

Definition store (mem : Z -> Z) (a v : Z) : Z -> Z := fun x => if x =? a then v else mem x.

Fixpoint read_loop (n : nat) (a : Z) (kb : kb_state) (mem : Z -> Z) : option (kb_state * (Z -> Z)) :=
  match n with
  | O => Some (kb, mem)
  | S n =>
      match keyboard_getchar kb with
      | None => None
      | Some (c, kb) => read_loop n (a + 1) kb (store mem (u64 a) c)
      end
  end.

Definition sys_io_read (st : io) (buf len : Z) : option (io * Z) :=
  match read_loop (Z.to_nat len) buf (io_keys st) (io_mem st) with
  | None => None
  | Some (kb, mem) => Some (Io (io_console st) kb mem, i64 len)
  end.

Definition syscall_dispatch (fuel : nat) (st : io) (num arg1 arg2 arg3 arg4 arg5 : Z) : option (io * Z) :=
  if num =? SYS_DB_QUERY then Some (st, sys_db_query arg1 arg2 arg3)
  else if num =? SYS_DB_INSERT then Some (st, sys_db_insert arg1 arg2)
  else if num =? SYS_DB_DELETE then Some (st, sys_db_delete arg1 arg2)
  else if num =? SYS_DB_UPDATE then Some (st, sys_db_update arg1 arg2 arg3)
  else if num =? SYS_IO_WRITE then sys_io_write fuel st arg1 arg2
  else if num =? SYS_IO_READ then sys_io_read st arg1 arg2
  else if num =? SYS_PROC_EXIT then Some (st, VOS_OK)
  else if num =? SYS_INFO then Some (st, VOS_OK)
  else
    match kprintf fuel (io_console st) (cs "[SYSCALL] Unknown syscall %llu" ++ [10]) [AInt num] with
    | None => None
    | Some (con, _) => Some (Io con (io_keys st) (io_mem st), VOS_ERR_NOSYS)
    end.
End serial.

(** ** The line *)

(** 115200 baud, eight bits, no parity, one stop bit, queues on; nothing has
    been sent. *)
Theorem serial_init_line (u : uart) : Z.testbit (lcr u) 7 = false ->
  let u' := serial_init u in
  (dll u', dlm u', lcr u', ier u', fcr u', mcr u') = (1, 0, 3, 0, 0xC7, 0x0B) /\ sent u' = sent u /\ polls u' = polls u.
Proof.
  intros Hd. unfold serial_init. cbn [foldl fst snd].
  assert (uart_out u (COM1_PORT + 1) 0 = Uart (polls u) 0 (lcr u) (fcr u) (mcr u) (dll u) (dlm u) (sent u)) as -> by (unfold uart_out; by rewrite Hd).
  split_and!; reflexivity.
Qed.

Section sending.
Context (status : nat -> Z) (k : nat).
(** The transmitter is ready at one of any [k] reads in a row. *)
Context (Hready : forall n, exists m, (n <= m < n + k)%nat /\ Z.land (status m) 0x20 <> 0).

Definition same_line (u u' : uart) : Prop :=
  (dll u', dlm u', lcr u', ier u', fcr u', mcr u') = (dll u, dlm u, lcr u, ier u, fcr u, mcr u).

Lemma wait_ends u : exists u', serial_wait status k u = Some u' /\ same_line u u' /\ sent u' = sent u.
Proof.
  destruct (Hready (polls u)) as (m & Hm & Hs). clear Hready.
  assert (forall fuel u, (polls u <= m < polls u + fuel)%nat -> exists u', serial_wait status fuel u = Some u' /\ same_line u u' /\ sent u' = sent u) as Hw; [|by apply Hw].
  induction fuel as [|fuel IH]; intros v Hv; [lia|]. cbn [serial_wait serial_transmit_empty].
  destruct (Z.eqb_spec (Z.land (status (polls v)) 0x20) 0) as [E|E]; [|by eexists].
  apply (IH (Uart _ _ _ _ _ _ _ _)). cbn [polls]. assert (polls v <> m) by congruence. lia.
Qed.

(** What the line carries for a text: a return after each line feed. *)
Definition wire (s : list Z) : list Z := concat (map (fun c => if c =? 10 then [10; 13] else [u8 c]) s).

Definition open_line (u : uart) : Prop := Z.testbit (lcr u) 7 = false.

Lemma out_data u v : open_line u -> same_line u (uart_out u COM1_PORT v) /\ sent (uart_out u COM1_PORT v) = sent u ++ [v].
Proof. intros Hd. unfold uart_out. rewrite Hd, Z.sub_diag. by split. Qed.

Lemma same_line_open u u' : same_line u u' -> open_line u -> open_line u'.
Proof. unfold same_line, open_line. intros E. assert (lcr u' = lcr u) as -> by congruence. done. Qed.

Lemma putchar_sends u c : open_line u -> exists u', serial_putchar status k u c = Some u' /\ same_line u u' /\ sent u' = sent u ++ wire [c].
Proof.
  intros Ho. destruct (wait_ends u) as (u1 & E1 & L1 & S1). pose proof (same_line_open _ _ L1 Ho) as O1.
  destruct (out_data u1 (u8 c) O1) as [L2 S2]. pose proof (same_line_open _ _ L2 O1) as O2. unfold serial_putchar. rewrite E1. unfold wire. cbn [map concat].
  destruct (Z.eqb_spec c 10) as [->|Hne].
  - destruct (wait_ends (uart_out u1 COM1_PORT (u8 10))) as (u3 & -> & L3 & S3). pose proof (same_line_open _ _ L3 O2) as O3.
    destruct (out_data u3 13 O3) as [L4 S4]. eexists. split; [reflexivity|]. unfold same_line in *. split; [congruence|].
    rewrite S4, S3, S2, S1, <- app_assoc. reflexivity.
  - eexists. split; [reflexivity|]. unfold same_line in *. split; [congruence|]. by rewrite S2, S1.
Qed.

Lemma wire_app s t : wire (s ++ t) = wire s ++ wire t.
Proof. unfold wire. by rewrite map_app, concat_app. Qed.

(** Writing a string sends its characters, with a return after each line
    feed; the parameters of the line stay. *)
Theorem serial_write_sends (str : list Z) : forall u, open_line u ->
  exists u', serial_write status k u str = Some u' /\ same_line u u' /\ sent u' = sent u ++ wire (cstr str).
Proof.
  induction str as [|c str IH]; intros u Ho; cbn [serial_write].
  { exists u. unfold cstr. cbn. by rewrite app_nil_r. }
  assert (cstr (c :: str) = if c =? 0 then [] else c :: cstr str) as -> by (unfold cstr; cbn [strlen]; by destruct (c =? 0)).
  destruct (c =? 0); [exists u; cbn; by rewrite app_nil_r|].
  destruct (putchar_sends u c Ho) as (u1 & -> & L1 & S1). destruct (IH u1 (same_line_open _ _ L1 Ho)) as (u2 & -> & L2 & S2).
  exists u2. split; [done|]. unfold same_line in *. split; [congruence|]. rewrite S2, S1, <- app_assoc, <- wire_app. reflexivity.
Qed.

(** ** Console output *)

Lemma putchars_print out : forall con, open_line (c_uart con) ->
  exists u, foldl (kprintf_putchar status k) (Some con) out = Some (Console u (foldl fb_putchar (c_fb con) out)) /\
    same_line (c_uart con) u /\ sent u = sent (c_uart con) ++ wire out.
Proof.
  induction out as [|c out IH]; intros con Ho; cbn [foldl].
  { exists (c_uart con). rewrite app_nil_r. by destruct con. }
  destruct (putchar_sends (c_uart con) c Ho) as (u1 & E1 & L1 & S1). unfold kprintf_putchar at 2. rewrite E1.
  assert ((if fb_ready (c_fb con) then fb_putchar (c_fb con) c else c_fb con) = fb_putchar (c_fb con) c) as ->
    by (unfold fb_putchar; by destruct (fb_ready (c_fb con))).
  destruct (IH (Console u1 (fb_putchar (c_fb con) c)) (same_line_open _ _ L1 Ho)) as (u2 & -> & L2 & S2). cbn [c_uart c_fb] in *.
  exists u2. split; [done|]. unfold same_line in *. split; [congruence|]. rewrite S2, S1, <- app_assoc, <- wire_app. reflexivity.
Qed.

(** A formatted message reaches the serial line and the screen. *)
Theorem kprintf_prints con fmt args out : open_line (c_uart con) -> kvprintf_chars fmt args = Some out ->
  exists u, kprintf status k con fmt args = Some (Console u (foldl fb_putchar (c_fb con) out), Z.of_nat (length out)) /\
    same_line (c_uart con) u /\ sent u = sent (c_uart con) ++ wire out.
Proof.
  intros Ho E. destruct (putchars_print out con Ho) as (u & Eu & H). exists u. split; [|done].
  unfold kprintf, kvprintf. by rewrite E, Eu.
Qed.

(** ** System calls *)

(** The bytes of user memory from [a] on. *)
Definition user_bytes (mem : Z -> Z) (a : Z) (n : nat) : list Z := map (fun i => mem (u64 (a + Z.of_nat i))) (seq 0 n).

Lemma user_bytes_S mem a n : user_bytes mem a (S n) = mem (u64 a) :: user_bytes mem (a + 1) n.
Proof.
  unfold user_bytes. cbn [seq map]. rewrite Z.add_0_r. f_equal. rewrite <- seq_shift, map_map.
  apply map_ext. intros i. do 2 f_equal. lia.
Qed.

Lemma write_loop_prints mem : forall n a con, open_line (c_uart con) ->
  exists u, write_loop status k n a mem con = Some (Console u (foldl fb_putchar (c_fb con) (user_bytes mem a n))) /\
    same_line (c_uart con) u /\ sent u = sent (c_uart con) ++ wire (user_bytes mem a n).
Proof.
  induction n as [|n IH]; intros a con Ho; cbn [write_loop].
  { exists (c_uart con). rewrite app_nil_r. by destruct con. }
  rewrite user_bytes_S. destruct (putchar_sends (c_uart con) (mem (u64 a)) Ho) as (u1 & -> & L1 & S1).
  destruct (IH (a + 1) (Console u1 (fb_putchar (c_fb con) (mem (u64 a)))) (same_line_open _ _ L1 Ho)) as (u2 & -> & L2 & S2). cbn [c_uart c_fb foldl] in *.
  exists u2. split; [done|]. unfold same_line in *. split; [congruence|]. rewrite S2, S1, <- app_assoc, <- wire_app. reflexivity.
Qed.

(** What each system call does, every number included: only the input and
    output calls act. *)
Theorem syscall_effect st num a1 a2 a3 a4 a5 : open_line (c_uart (io_console st)) ->
  num <> SYS_IO_READ ->
  exists con r, syscall_dispatch status k st num a1 a2 a3 a4 a5 = Some (Io con (io_keys st) (io_mem st), r) /\
    same_line (c_uart (io_console st)) (c_uart con) /\
    (num = SYS_IO_WRITE -> r = i64 a2 /\
       let text := user_bytes (io_mem st) a1 (Z.to_nat a2) in
       c_fb con = foldl fb_putchar (c_fb (io_console st)) text /\ sent (c_uart con) = sent (c_uart (io_console st)) ++ wire text) /\
    (num = SYS_PROC_EXIT \/ num = SYS_INFO -> r = VOS_OK /\ con = io_console st) /\
    (num <> SYS_IO_WRITE -> num <> SYS_PROC_EXIT -> num <> SYS_INFO -> r = VOS_ERR_NOSYS /\ (0 <= num <= 3 -> con = io_console st)).
Proof.
  intros Ho Hr. unfold syscall_dispatch, SYS_DB_QUERY, SYS_DB_INSERT, SYS_DB_DELETE, SYS_DB_UPDATE, SYS_IO_WRITE, SYS_PROC_EXIT, SYS_INFO in *.
  rewrite (proj2 (Z.eqb_neq num SYS_IO_READ) Hr). unfold sys_io_write, sys_db_query, sys_db_insert, sys_db_delete, sys_db_update.
  destruct (Z.eqb_spec num 0); [exists (io_console st), VOS_ERR_NOSYS; destruct st; split_and!; done || lia|].
  destruct (Z.eqb_spec num 1); [exists (io_console st), VOS_ERR_NOSYS; destruct st; split_and!; done || lia|].
  destruct (Z.eqb_spec num 2); [exists (io_console st), VOS_ERR_NOSYS; destruct st; split_and!; done || lia|].
  destruct (Z.eqb_spec num 3); [exists (io_console st), VOS_ERR_NOSYS; destruct st; split_and!; done || lia|].
  destruct (Z.eqb_spec num 41).
  { destruct (write_loop_prints (io_mem st) (Z.to_nat a2) a1 (io_console st) Ho) as (u & -> & L & S).
    eexists _, _. split; [reflexivity|]. split; [exact L|]. split_and!; [done|lia|lia]. }
  destruct (Z.eqb_spec num 21); [exists (io_console st), VOS_OK; destruct st; split_and!; done || lia|].
  destruct (Z.eqb_spec num 50); [exists (io_console st), VOS_OK; destruct st; split_and!; done || lia|].
  destruct (kvprintf_chars (cs "[SYSCALL] Unknown syscall %llu" ++ [10]) [AInt num]) as [out|] eqn:E; [|discriminate E].
  destruct (kprintf_prints (io_console st) _ _ _ Ho E) as (u & -> & L & S).
  eexists _, _. split; [reflexivity|]. split; [exact L|]. split_and!; done || lia.
Qed.

(** Reading takes the keys waiting, in order, and stores them from [a1] on. *)
Lemma read_loop_reads : forall keys rest a kb mem, wf_ring KB_BUFFER_SIZE (kb_buffer kb) -> kb_waiting kb = keys ++ rest ->
  0 <= a -> a + Z.of_nat (length keys) <= 2 ^ 64 ->
  exists kb' mem', read_loop (length keys) a kb mem = Some (kb', mem') /\ wf_ring KB_BUFFER_SIZE (kb_buffer kb') /\ kb_waiting kb' = rest /\
    user_bytes mem' a (length keys) = keys /\ (forall x, x < a \/ a + Z.of_nat (length keys) <= x -> mem' x = mem x).
Proof.
  induction keys as [|c keys IH]; intros rest a kb mem Hw Hk Ha Hl; cbn [length read_loop] in *; [by exists kb, mem|].
  pose proof (getchar_spec kb Hw) as Hg. rewrite Hk in Hg. cbn [Datatypes.app] in Hg. destruct Hg as (-> & _ & Hn).
  assert (u64 a = a) as Ea by (unfold wrap; lia). rewrite Ea.
  destruct (IH rest (a + 1) (with_buffer kb (ring_advance KB_BUFFER_SIZE (kb_buffer kb))) (store mem a c) (ring_advance_wf _ _ Hw) Hn) as (kb' & mem' & -> & Hw' & Hk' & Hb & Hx); [lia|lia|].
  exists kb', mem'. split_and!; [done..| |].
  - rewrite user_bytes_S, Hb, Ea, Hx by lia. unfold store. by rewrite Z.eqb_refl.
  - intros x Hx'. rewrite Hx by lia. unfold store. destruct (Z.eqb_spec x a); [lia|done].
Qed.

Theorem syscall_read st buf keys rest a3 a4 a5 : wf_ring KB_BUFFER_SIZE (kb_buffer (io_keys st)) -> kb_waiting (io_keys st) = keys ++ rest ->
  0 <= buf -> buf + Z.of_nat (length keys) <= 2 ^ 64 ->
  exists kb' mem', syscall_dispatch status k st SYS_IO_READ buf (Z.of_nat (length keys)) a3 a4 a5 =
      Some (Io (io_console st) kb' mem', Z.of_nat (length keys)) /\ kb_waiting kb' = rest /\
    user_bytes mem' buf (length keys) = keys /\ (forall x, x < buf \/ buf + Z.of_nat (length keys) <= x -> mem' x = io_mem st x).
Proof.
  intros Hw Hk Hb Hl. assert (length keys < KB_BUFFER_SIZE)%nat as Hn.
  { pose proof (ring_used_lt _ _ Hw) as Hi. rewrite <- (length_ring_items 0) in Hi.
    change (ring_items 0 KB_BUFFER_SIZE (kb_buffer (io_keys st))) with (kb_waiting (io_keys st)) in Hi. rewrite Hk, length_app in Hi. lia. }
  destruct (read_loop_reads keys rest buf (io_keys st) (io_mem st) Hw Hk Hb Hl) as (kb' & mem' & E & _ & H).
  exists kb', mem'. split; [|done]. change (syscall_dispatch status k st SYS_IO_READ buf (Z.of_nat (length keys)) a3 a4 a5) with (sys_io_read st buf (Z.of_nat (length keys))).
  unfold sys_io_read. rewrite Nat2Z.id, E. do 2 f_equal. change KB_BUFFER_SIZE with 256%nat in Hn. unfold i64. lia.
Qed.
End sending.
