(* ===== verification/Tui.v ===== *)
(** * The frame of the text screen (src/shell/tui.c)

    Two status rows above and one row of function keys below the content
    region of the console.  A function that draws is the list of its calls of
    [fb_draw_cell]; what it reads of the other components is [readings]. *)

From Stdlib Require Import String.
From S2P Require Import Prelude CLib LineEditor Printf Client Framebuffer.

Definition TUI_STATUS_ROWS : nat := 2.
Definition TUI_FKEY_ROWS : nat := 1.

Record tui_layout := Layout {
  total_cols : nat;
  total_rows : nat;
  content_top : nat;
  content_bottom : nat;
  content_rows : nat
}.

(** What the status bar asks: [pit_get_uptime_ms], [process_get_current] (pid
    and name), [cap_table_count], [heap_used], [heap_free],
    [pmm_get_free_pages], [pmm_get_total_pages], [db_get_table_count] and
    [random_hw_available]. *)
Record readings := Readings {
  uptime_ms : Z;
  current : option (Z * list Z);
  cap_count : Z;
  used_mem : Z;
  free_mem : Z;
  pmm_free : Z;
  pmm_total : Z;
  table_count : Z;
  rng_hw : bool
}.

(** One call of [fb_draw_cell]. *)
Record draw := Draw { d_col : nat; d_row : nat; d_ch : Z; d_fg : Z; d_bg : Z }.

Definition draw_cell (fb : fb_state) (d : draw) : fb_state :=
  fb_draw_cell fb (Z.of_nat (d_col d)) (Z.of_nat (d_row d)) (d_ch d) (d_fg d) (d_bg d).

Fixpoint draw_chars (cols : nat) (col row : nat) (str : list Z) (fg bg : Z) : list draw :=
  match str with
  | [] => []
  | c :: str => if (col <? cols)%nat then Draw col row c fg bg :: draw_chars cols (S col) row str fg bg else []
  end.

Definition tui_draw_string (layout : tui_layout) (col row : nat) (str : list Z) (fg bg : Z) : list draw :=
  draw_chars (total_cols layout) col row (cstr str) fg bg.

Definition tui_fill_row (layout : tui_layout) (col row : nat) (fg bg : Z) : list draw :=
  map (fun c => Draw c row 32 fg bg) (seq col (total_cols layout - col)).

(** ** The status bar *)

(** A text drawn at the column, and the column after it. *)
Definition piece (layout : tui_layout) (row : nat) (str : list Z) (fg bg : Z) (d : list draw * nat) : list draw * nat :=
  (d.1 ++ tui_draw_string layout d.2 row str fg bg, d.2 + strlen str)%nat.

Definition bar_cell (row : nat) (ch fg bg : Z) (d : list draw * nat) : list draw * nat :=
  (d.1 ++ [Draw d.2 row ch fg bg], S d.2).

Definition finish (layout : tui_layout) (row : nat) (fg bg : Z) (d : list draw * nat) : list draw :=
  d.1 ++ tui_fill_row layout d.2 row fg bg.

(** [if (strlen(buf) > 20) { buf[19] = ' '; buf[20] = '\0'; }] *)
Definition shorten (buf : list Z) : list Z :=
  if (20 <? strlen buf)%nat then <[20%nat := 0]> (<[19%nat := 32]> buf) else buf.

Definition process_text (buf : list Z) (pid : Z) (name : list Z) : list Z :=
  shorten (print_buf buf " PID:%llu %s " [AInt pid; txt name]).

(** Row 0; the second result is the array [buf] afterwards. *)
Definition status_row0 (layout : tui_layout) (r : readings) (buf : list Z) : list draw * list Z :=
  let bg := COLOR_DKGRAY in
  let d := (tui_draw_string layout 0 0 (cs " VaultOS v0.1.0") COLOR_WHITE bg, 16%nat) in
  let d := bar_cell 0 0xB3 COLOR_GRAY bg d in
  let secs := uptime_ms r / 1000 in
  let mins := secs / 60 in
  let secs := secs mod 60 in
  let buf := print_buf buf " Up: %llu:%02llu " [AInt mins; AInt secs] in
  let d := piece layout 0 buf COLOR_VOS_HL bg d in
  let d := bar_cell 0 0xB3 COLOR_GRAY bg d in
  let '(d, buf) :=
    match current r with
    | Some (pid, name) =>
        let buf := process_text buf pid name in (piece layout 0 buf COLOR_CYAN bg d, buf)
    | None => (d, buf)
    end in
  let d := bar_cell 0 0xB3 COLOR_GRAY bg d in
  let buf := print_buf buf " Caps: %llu " [AInt (cap_count r)] in
  let d := piece layout 0 buf COLOR_VOS_HL bg d in
  (finish layout 0 COLOR_GRAY bg d, buf).

Definition used_text (buf : list Z) (used : Z) : list Z :=
  if 1024 * 1024 <=? used then print_buf buf "%lluMB" [AInt (used / (1024 * 1024))]
  else if 1024 <=? used then print_buf buf "%lluKB" [AInt (used / 1024)]
  else print_buf buf "%lluB" [AInt used].

Definition total_text (buf : list Z) (total : Z) : list Z :=
  if 1024 * 1024 <=? total then print_buf buf "%lluMB " [AInt (total / (1024 * 1024))]
  else print_buf buf "%lluKB " [AInt (total / 1024)].

Definition status_row1 (layout : tui_layout) (r : readings) (buf : list Z) : list draw :=
  let bg := COLOR_DKGRAY in
  let d := (tui_draw_string layout 0 1 (cs " Heap:") COLOR_GRAY bg, 6%nat) in
  let buf := used_text buf (used_mem r) in
  let d := piece layout 1 buf COLOR_VOS_HL bg d in
  let d := piece layout 1 (cs "/") COLOR_GRAY bg d in
  let buf := total_text buf (u64 (used_mem r + free_mem r)) in
  let d := piece layout 1 buf COLOR_VOS_HL bg d in
  let d := bar_cell 1 0xB3 COLOR_GRAY bg d in
  let buf := print_buf buf " PMM:%llu/%llu " [AInt (pmm_free r); AInt (pmm_total r)] in
  let d := piece layout 1 buf COLOR_VOS_HL bg d in
  let d := bar_cell 1 0xB3 COLOR_GRAY bg d in
  let buf := print_buf buf " Tabs:%u " [AInt (table_count r)] in
  let d := piece layout 1 buf COLOR_VOS_HL bg d in
  let d := bar_cell 1 0xB3 COLOR_GRAY bg d in
  let d := piece layout 1 (cs (if rng_hw r then " RNG:HW" else " RNG:SW")) (if rng_hw r then COLOR_GREEN else COLOR_YELLOW) bg d in
  let d := piece layout 1 (cs " AES-128 ") COLOR_GREEN bg d in
  finish layout 1 COLOR_GRAY bg d.

Definition tui_draw_status_bar (layout : tui_layout) (r : readings) (buf : list Z) : list draw :=
  let '(d, buf) := status_row0 layout r buf in d ++ status_row1 layout r buf.

(** ** The function keys *)

Definition fkeys : list (string * string) :=
  [("F1", "Help"); ("F2", "Tables"); ("F3", "Status"); ("F4", "Security"); ("F5", "Clear"); ("F6", "Audit")]%string.

Definition fkey_piece (layout : tui_layout) (row : nat) (bg : Z) (d : list draw * nat) (k : string * string) : list draw * nat :=
  let d := piece layout row (cs k.1) COLOR_VOS_HL bg d in
  let d := piece layout row (cs ":") COLOR_GRAY bg d in
  let d := piece layout row (cs k.2) COLOR_WHITE bg d in
  piece layout row (cs "  ") COLOR_WHITE bg d.

Definition tui_draw_fkey_bar (layout : tui_layout) : list draw :=
  let bg := COLOR_DKGRAY in
  let row := (total_rows layout - 1)%nat in
  finish layout row COLOR_WHITE bg (foldl (fkey_piece layout row bg) (bar_cell row 32 COLOR_WHITE bg ([], 0%nat)) fkeys).

(** ** Initialisation *)

Definition tui_layout_of (fb : fb_state) : tui_layout :=
  let cols := Z.to_nat (fb_get_cols fb) in
  let rows := Z.to_nat (fb_get_rows fb) in
  let '(top, bottom) := if (rows <? 10)%nat then (0, rows)%nat else (TUI_STATUS_ROWS, rows - TUI_FKEY_ROWS)%nat in
  Layout cols rows top bottom (bottom - top).

Definition tui_init (fb : fb_state) (r : readings) (buf : list Z) : fb_state * tui_layout :=
  let layout := tui_layout_of fb in
  let top := Z.of_nat (content_top layout) in
  let bottom := Z.of_nat (content_bottom layout) in
  let fb := fb_set_content_region top bottom fb in
  let fb := fb_clear_rows top bottom fb in
  let fb := fb_set_cursor 0 top fb in
  let fb := foldl draw_cell fb (tui_draw_status_bar layout r buf) in
  let fb := foldl draw_cell fb (tui_draw_fkey_bar layout) in
  (fb, layout).

Definition tui_refresh_status (fb : fb_state) (layout : tui_layout) (r : readings) (buf : list Z) : fb_state :=
  foldl draw_cell fb (tui_draw_status_bar layout r buf).
