(* ===== verification/TuiSpec.v ===== *)
(** * The frame of the text screen stands

    The status rows and the row of function keys show their texts cell by
    cell, the content region between them is blank after [tui_init], and
    nothing that is printed afterwards touches them. *)

From Stdlib Require Import String.
From S2P Require Import Prelude CLib LineEditor Printf Client Font Pixels Tui Framebuffer FramebufferSpec.

(** ** Clearing rows *)

Lemma clear_rows_shows fb g a b : fb_ok fb -> shows fb g -> 0 <= a -> b <= rows fb ->
  shows (fb_clear_rows a b fb) (fun r k => if (a <=? r) && (r <? b) then blank (fg_color fb) (bg_color fb) else g r k).
Proof.
  intros Hok Hs Ha Hb row col gx gy Hr Hc Hgx Hgy. change (rows (fb_clear_rows a b fb)) with (rows fb) in Hr.
  change (cols (fb_clear_rows a b fb)) with (cols fb) in Hc. destruct (cell_bounds fb Hok row col gx gy) as [Hpx Hpy]; [done..|].
  pose proof (rows_bounds fb Hok) as Hrb. pose proof (cols_bounds fb Hok). pose proof (height_small fb Hok). unfold fb_clear_rows, FONT_HEIGHT. rewrite Z.min_l by lia.
  set (c := make_pixel _ _). set (s := concat _). change (pitch (run fb s)) with (pitch fb). change (cell_pixel (run fb s)) with (cell_pixel fb).
  assert (forall r, a <= r < b -> u32 (r * 16) = 16 * r) as Hu by (intros r Hab; unfold wrap; rewrite Z.mod_small by lia; lia).
  assert (only (ppl fb) (height fb) (fun px py d => (0 <= px < width fb /\ 16 * a <= py < 16 * b) /\ d = c) s) as Ho.
  { apply only_rows. intros r Hab%elem_of_range. rewrite Hu by done. eapply only_weaken; [|apply only_fill_lines; [done|lia|lia]].
    cbn. intros ? ? ? ? ? [? ?]. split; [lia|done]. }
  rewrite (run_lookup fb Hok _ _ _ _ Ho) by done. destruct ((a <=? row) && (row <? b)) eqn:E.
  - rewrite (shown_colour _ _ _ _ _ _ c Ho); [|done|cbn; tauto|].
    + unfold cell_pixel, blank. cbn. by rewrite glyph_space.
    + apply elem_of_rows. exists row. rewrite elem_of_range. split; [lia|]. rewrite Hu by lia. apply fill_lines_draws; [done|lia|lia|lia|lia].
  - rewrite (shown_outside _ _ _ _ _ _ Ho); [by apply Hs|done|]. intros d [[_ ?] _]. lia.
Qed.

(** ** Drawing *)

Section bars.
Context (ncols nrows : Z).

Definition t_draw (t : term) (d : draw) : term :=
  let col := Z.of_nat (d_col d) in
  let row := Z.of_nat (d_row d) in
  if (col <? ncols) && (row <? nrows) then t_cell row col (Cell (d_ch d) (d_fg d) (d_bg d)) t else t.

(** The cells of a row from its left end on; [None] is a cell that is not
    drawn. *)
Abbreviation strip := (list (option (Z * Z))).
Definition paint (text : list Z) (fg : Z) : strip := map (fun c => Some (c, fg)) text.

Definition strip_cell (s : strip) (bg k : Z) (old : cell) : cell :=
  match s !! Z.to_nat k with Some (Some (c, fg)) => Cell c fg bg | _ => old end.

Definition paints (row : nat) (bg : Z) (ds : list draw) (s : strip) : Prop :=
  forall t, let t' := foldl t_draw t ds in
  tx t' = tx t /\ ty t' = ty t /\
  forall r k, 0 <= k < ncols -> cells t' r k = if r =? Z.of_nat row then strip_cell s bg k (cells t r k) else cells t r k.

(** The calls so far and the next column. *)
Definition bar (row : nat) (bg : Z) (d : list draw * nat) (s : strip) : Prop := paints row bg d.1 s /\ d.2 = length s.

Context (row : nat) (Hrow : Z.of_nat row < nrows) (bg : Z).

Lemma t_draw_cells t col ch fg r k : 0 <= k < ncols ->
  cells (t_draw t (Draw col row ch fg bg)) r k =
  if (r =? Z.of_nat row) && (k =? Z.of_nat col) then Cell ch fg bg else cells t r k.
Proof.
  intros Hk. unfold t_draw. cbn [d_col d_row d_ch d_fg d_bg].
  destruct (Z.ltb_spec (Z.of_nat col) ncols); cbn [andb].
  - rewrite (proj2 (Z.ltb_lt _ _) Hrow). done.
  - by replace (k =? Z.of_nat col) with false by lia; rewrite andb_false_r.
Qed.

Lemma t_draw_cursor t d : tx (t_draw t d) = tx t /\ ty (t_draw t d) = ty t.
Proof. unfold t_draw. by destruct (_ && _). Qed.

Lemma paints_nil : paints row bg [] [].
Proof. intros t. split_and!; [done..|]. intros r k Hk. cbn. by destruct (r =? _). Qed.

(** One cell after the others. *)
Lemma paints_snoc ds s ch fg : paints row bg ds s -> paints row bg (ds ++ [Draw (length s) row ch fg bg]) (s ++ [Some (ch, fg)]).
Proof.
  intros Hp t. rewrite foldl_app. cbn [foldl]. destruct (Hp t) as (Hx & Hy & Hc). set (u := foldl t_draw t ds) in *.
  destruct (t_draw_cursor u (Draw (length s) row ch fg bg)) as [-> ->]. split_and!; [done..|]. intros r k Hk. rewrite t_draw_cells by done.
  rewrite Hc by done. destruct (Z.eqb_spec r (Z.of_nat row)); cbn [andb]; [|done]. unfold strip_cell.
  destruct (Z.eqb_spec k (Z.of_nat (length s))) as [->|Hne].
  - by rewrite Nat2Z.id, list_lookup_middle.
  - destruct (Nat.lt_ge_cases (Z.to_nat k) (length s)); [by rewrite lookup_app_l|].
    rewrite (lookup_ge_None_2 s) by lia. rewrite lookup_ge_None_2; [done|]. rewrite length_app. cbn. lia.
Qed.

(** Cells beyond the right end are not drawn. *)
Lemma paints_beyond ds s s' : paints row bg ds s -> ncols <= Z.of_nat (length s) -> paints row bg ds (s ++ s').
Proof.
  intros Hp Hl t. destruct (Hp t) as (Hx & Hy & Hc). split_and!; [done..|]. intros r k Hk. rewrite Hc by done. unfold strip_cell.
  by rewrite lookup_app_l by lia.
Qed.

Lemma paints_skip ds s : paints row bg ds s -> paints row bg ds (s ++ [None]).
Proof.
  intros Hp t. destruct (Hp t) as (Hx & Hy & Hc). split_and!; [done..|]. intros r k Hk. rewrite Hc by done. unfold strip_cell.
  destruct (Nat.lt_ge_cases (Z.to_nat k) (length s)) as [Hl|Hl]; [by rewrite lookup_app_l|].
  rewrite lookup_app_r, (lookup_ge_None_2 s) by lia. by destruct (Z.to_nat k - length s)%nat.
Qed.

Lemma bar_cell_paints ch fg d s : bar row bg d s -> bar row bg (bar_cell row ch fg bg d) (s ++ [Some (ch, fg)]).
Proof. intros [Hp Hl]. unfold bar, bar_cell. cbn [fst snd]. rewrite Hl. split; [by apply paints_snoc|]. rewrite length_app. cbn. lia. Qed.

Context (layout : tui_layout) (Hcols : Z.of_nat (total_cols layout) = ncols).

Lemma draw_chars_paints text fg ds s : paints row bg ds s ->
  paints row bg (ds ++ draw_chars (total_cols layout) (length s) row text fg bg) (s ++ paint text fg).
Proof.
  revert ds s. induction text as [|c text IH]; intros ds s Hp; cbn [draw_chars paint map]; [by rewrite !app_nil_r|].
  destruct (Nat.ltb_spec (length s) (total_cols layout)) as [Hl|Hl]; [|by rewrite app_nil_r; apply paints_beyond; [|lia]].
  pose proof (IH _ _ (paints_snoc ds s c fg Hp)) as H. rewrite length_app in H. cbn [length] in H. rewrite Nat.add_1_r in H.
  by rewrite <- !app_assoc in H.
Qed.

Lemma piece_paints str fg d s : bar row bg d s -> bar row bg (piece layout row str fg bg d) (s ++ paint (cstr str) fg).
Proof.
  intros [Hp Hl]. unfold bar, piece, tui_draw_string. cbn [fst snd]. rewrite Hl. split; [by apply draw_chars_paints|].
  unfold paint. by rewrite length_app, length_map, length_cstr.
Qed.

(** The rest of the row is filled. *)
Lemma finish_paints fg d s : bar row bg d s ->
  paints row bg (finish layout row fg bg d) (s ++ replicate (total_cols layout - length s) (Some (32, fg))).
Proof.
  intros [Hp Hl]. unfold finish, tui_fill_row. rewrite Hl.
  assert (forall n ds s, paints row bg ds s ->
    paints row bg (ds ++ map (fun c => Draw c row 32 fg bg) (seq (length s) n)) (s ++ replicate n (Some (32, fg)))) as H; [|by apply H].
  clear d s Hp Hl. induction n as [|n IH]; intros ds s Hp; cbn [seq map replicate]; [by rewrite !app_nil_r|].
  pose proof (IH _ _ (paints_snoc ds s 32 fg Hp)) as H. rewrite length_app in H. cbn [length] in H. rewrite Nat.add_1_r in H.
  by rewrite <- !app_assoc in H.
Qed.
End bars.

(** ** The texts *)

(** What [snprintf] leaves in an array of 64 characters. *)
Definition put_text (fmt : string) (args : list varg) : list Z :=
  match kvprintf_chars (cs fmt) args with Some s => take 63 s | None => [] end.

Definition short_text (t : list Z) : list Z := if (20 <? length t)%nat then take 19 t ++ [32] else t.

Lemma print64 buf fmt args out : kvprintf_chars (cs fmt) args = Some out -> 99 ∉ cs fmt -> length buf = 64%nat -> Z.of_nat (length out) < 2 ^ 63 ->
  cstr (print_buf buf fmt args) = put_text fmt args /\ length (print_buf buf fmt args) = 64%nat.
Proof.
  intros E H99 Hb Ho. unfold put_text. rewrite E. destruct (print_buf_text buf fmt args out) as [-> ->]; [done|done|lia|rewrite Hb; done|done|].
  by rewrite Hb.
Qed.

Ltac short_length :=
  repeat (progress cbn [length] || rewrite length_app || rewrite length_replicate || rewrite length_cstr);
  repeat match goal with |- context [length (print_num ?n ?b ?s ?u ?w ?p)] =>
    let v := eval vm_compute in w in
    change (length (print_num n b s u w p)) with (length (print_num n b s u v p));
    let H := fresh in pose proof (print_num_short n b s u v p) as H; revert H; generalize (length (print_num n b s u v p)); intros end;
  repeat match goal with |- context [if ?b then _ else _] => destruct b end; lia.

Ltac prints := eapply print64; [reflexivity|apply (bool_decide_unpack _); vm_compute; exact I|assumption|short_length].

Lemma cstr_shorten buf : length buf = 64%nat -> cstr (shorten buf) = short_text (cstr buf) /\ length (shorten buf) = 64%nat.
Proof.
  intros Hb. unfold shorten, short_text. rewrite length_cstr. destruct (Nat.ltb_spec 20 (strlen buf)) as [Hl|]; [|done].
  rewrite !length_insert. split; [|done].
  assert (take 19 (cstr buf) = take 19 buf) as -> by (unfold cstr; rewrite take_take; f_equal; lia).
  pose proof (Forall_take _ 19 _ (cstr_nonzero buf)) as Hz. unfold cstr in Hz. rewrite take_take, Nat.min_l in Hz by lia.
  rewrite <- (take_drop 19 buf) at 1. assert (length (drop 19 buf) = 45%nat) as Hd by (rewrite length_drop; lia).
  destruct (drop 19 buf) as [|x [|y rest]]; [done|done|]. assert (length (take 19 buf) = 19%nat) as Ha by (rewrite length_take; lia).
  rewrite (insert_app_r_alt _ _ 19), Ha by lia. cbn [Nat.sub insert list_insert]. rewrite (insert_app_r_alt _ _ 20), Ha by lia.
  cbn [Nat.sub insert list_insert]. change (32 :: 0 :: rest) with ([32] ++ 0 :: rest). rewrite app_assoc.
  apply cstr_app_0, Forall_app. split; [done|nonzero].
Qed.

(** ** The rows *)

Definition sep : list (option (Z * Z)) := [Some (0xB3, COLOR_GRAY)].

Definition title_strip (r : readings) : list (option (Z * Z)) :=
  paint (cs " VaultOS v0.1.0") COLOR_WHITE ++ [None] ++ sep ++
  paint (put_text " Up: %llu:%02llu " [AInt (uptime_ms r / 60000); AInt (uptime_ms r / 1000 mod 60)]) COLOR_VOS_HL ++ sep ++
  match current r with
  | Some (pid, name) => paint (short_text (put_text " PID:%llu %s " [AInt pid; txt name])) COLOR_CYAN
  | None => []
  end ++ sep ++
  paint (put_text " Caps: %llu " [AInt (cap_count r)]) COLOR_VOS_HL.

Definition used_size (used : Z) : list Z :=
  if 1024 * 1024 <=? used then put_text "%lluMB" [AInt (used / (1024 * 1024))]
  else if 1024 <=? used then put_text "%lluKB" [AInt (used / 1024)]
  else put_text "%lluB" [AInt used].

Definition total_size (total : Z) : list Z :=
  if 1024 * 1024 <=? total then put_text "%lluMB " [AInt (total / (1024 * 1024))]
  else put_text "%lluKB " [AInt (total / 1024)].

Definition memory_strip (r : readings) : list (option (Z * Z)) :=
  paint (cs " Heap:") COLOR_GRAY ++ paint (used_size (used_mem r)) COLOR_VOS_HL ++ paint (cs "/") COLOR_GRAY ++
  paint (total_size (u64 (used_mem r + free_mem r))) COLOR_VOS_HL ++ sep ++
  paint (put_text " PMM:%llu/%llu " [AInt (pmm_free r); AInt (pmm_total r)]) COLOR_VOS_HL ++ sep ++
  paint (put_text " Tabs:%u " [AInt (table_count r)]) COLOR_VOS_HL ++ sep ++
  (if rng_hw r then paint (cs " RNG:HW") COLOR_GREEN else paint (cs " RNG:SW") COLOR_YELLOW) ++ paint (cs " AES-128 ") COLOR_GREEN.

Definition fkey_strip : list (option (Z * Z)) :=
  [Some (32, COLOR_WHITE)] ++
  concat (map (fun k => paint (cs k.1) COLOR_VOS_HL ++ paint (cs ":") COLOR_GRAY ++ paint (cs k.2) COLOR_WHITE ++ paint (cs "  ") COLOR_WHITE) fkeys).

Section rows.
Context (ncols nrows : Z) (layout : tui_layout) (Hcols : Z.of_nat (total_cols layout) = ncols).
Context (r : readings).

Definition filled (s : list (option (Z * Z))) (fg : Z) : list (option (Z * Z)) := s ++ replicate (total_cols layout - length s) (Some (32, fg)).

Lemma title_paints buf : 0 < nrows -> length buf = 64%nat -> (forall pid name, current r = Some (pid, name) -> Z.of_nat (length name) < 2 ^ 32) ->
  paints ncols nrows 0 COLOR_DKGRAY (status_row0 layout r buf).1 (filled (title_strip r) COLOR_GRAY) /\
  length (status_row0 layout r buf).2 = 64%nat.
Proof.
  intros Hr Hb Hn. unfold status_row0, filled. cbv zeta.
  set (buf1 := print_buf buf _ _). assert (cstr buf1 = put_text " Up: %llu:%02llu " [AInt (uptime_ms r / 60000); AInt (uptime_ms r / 1000 mod 60)] /\ length buf1 = 64%nat) as [T1 L1].
  { replace (uptime_ms r / 60000) with (uptime_ms r / 1000 / 60) by (rewrite Z.div_div by lia; done). unfold buf1. prints. }
  assert (bar ncols nrows 0 COLOR_DKGRAY (tui_draw_string layout 0 0 (cs " VaultOS v0.1.0") COLOR_WHITE COLOR_DKGRAY, 16%nat)
            (paint (cs " VaultOS v0.1.0") COLOR_WHITE ++ [None])) as H0.
  { split; [|done]. apply paints_skip. apply (draw_chars_paints ncols nrows 0 Hr COLOR_DKGRAY layout Hcols (cs " VaultOS v0.1.0") COLOR_WHITE [] []). by apply paints_nil. }
  apply (bar_cell_paints ncols nrows 0 Hr COLOR_DKGRAY 0xB3 COLOR_GRAY) in H0. apply (piece_paints ncols nrows 0 Hr COLOR_DKGRAY layout Hcols buf1 COLOR_VOS_HL) in H0.
  apply (bar_cell_paints ncols nrows 0 Hr COLOR_DKGRAY 0xB3 COLOR_GRAY) in H0. rewrite T1 in H0. revert H0.
  generalize (bar_cell 0 179 COLOR_GRAY COLOR_DKGRAY (piece layout 0 buf1 COLOR_VOS_HL COLOR_DKGRAY
     (bar_cell 0 179 COLOR_GRAY COLOR_DKGRAY (tui_draw_string layout 0 0 (cs " VaultOS v0.1.0") COLOR_WHITE COLOR_DKGRAY, 16%nat)))) as d. intros d H0.
  set (pr := match current r with Some (pid, name) => (piece layout 0 (process_text buf1 pid name) COLOR_CYAN COLOR_DKGRAY d, process_text buf1 pid name) | None => (d, buf1) end).
  assert (exists s, bar ncols nrows 0 COLOR_DKGRAY pr.1 s /\ length pr.2 = 64%nat /\ title_strip r = (s ++ sep) ++ paint (put_text " Caps: %llu " [AInt (cap_count r)]) COLOR_VOS_HL) as (s & Hs & L2 & Es).
  { unfold title_strip. destruct (current r) as [[pid name]|] eqn:Ec; unfold pr; cbn [fst snd].
    - specialize (Hn pid name eq_refl). unfold process_text.
      assert (cstr (print_buf buf1 " PID:%llu %s " [AInt pid; txt name]) = put_text " PID:%llu %s " [AInt pid; txt name] /\
              length (print_buf buf1 " PID:%llu %s " [AInt pid; txt name]) = 64%nat) as [T2 L2].
      { pose proof (strlen_le name). prints. }
      destruct (cstr_shorten _ L2) as [T3 L3]. eexists. split; [apply (piece_paints ncols nrows 0 Hr COLOR_DKGRAY layout Hcols); exact H0|]. split; [exact L3|].
      rewrite T3, T2. by rewrite <- !app_assoc.
    - eexists. split; [exact H0|]. split; [exact L1|]. rewrite <- !app_assoc. done. }
  destruct pr as [d2 buf2]. cbn [fst snd] in Hs, L2 |- *.
  apply (bar_cell_paints ncols nrows 0 Hr COLOR_DKGRAY 0xB3 COLOR_GRAY) in Hs.
  apply (piece_paints ncols nrows 0 Hr COLOR_DKGRAY layout Hcols (print_buf buf2 " Caps: %llu " [AInt (cap_count r)]) COLOR_VOS_HL) in Hs.
  assert (cstr (print_buf buf2 " Caps: %llu " [AInt (cap_count r)]) = put_text " Caps: %llu " [AInt (cap_count r)] /\
          length (print_buf buf2 " Caps: %llu " [AInt (cap_count r)]) = 64%nat) as [T4 L4] by prints.
  split; [|exact L4]. rewrite T4 in Hs. rewrite Es. by apply (finish_paints ncols nrows 0 Hr).
Qed.
Lemma used_text_size buf n : length buf = 64%nat -> cstr (used_text buf n) = used_size n /\ length (used_text buf n) = 64%nat.
Proof. intros Hb. unfold used_text, used_size. destruct (_ <=? n); [prints|]. destruct (_ <=? n); prints. Qed.

Lemma total_text_size buf n : length buf = 64%nat -> cstr (total_text buf n) = total_size n /\ length (total_text buf n) = 64%nat.
Proof. intros Hb. unfold total_text, total_size. destruct (_ <=? n); prints. Qed.

Lemma memory_paints buf : 1 < nrows -> length buf = 64%nat ->
  paints ncols nrows 1 COLOR_DKGRAY (status_row1 layout r buf) (filled (memory_strip r) COLOR_GRAY).
Proof.
  intros Hr Hb. unfold status_row1, filled. cbv zeta.
  set (b1 := used_text buf _). destruct (used_text_size buf (used_mem r) Hb) as [T1 L1]. fold b1 in T1, L1. clearbody b1.
  set (b2 := total_text b1 _). destruct (total_text_size b1 (u64 (used_mem r + free_mem r)) L1) as [T2 L2]. fold b2 in T2, L2. clearbody b2.
  set (b3 := print_buf b2 _ _).
  assert (cstr b3 = put_text " PMM:%llu/%llu " [AInt (pmm_free r); AInt (pmm_total r)] /\ length b3 = 64%nat) as [T3 L3] by (unfold b3; prints).
  clearbody b3. set (b4 := print_buf b3 _ _). assert (cstr b4 = put_text " Tabs:%u " [AInt (table_count r)] /\ length b4 = 64%nat) as [T4 L4] by (unfold b4; prints).
  clearbody b4.
  assert (bar ncols nrows 1 COLOR_DKGRAY (tui_draw_string layout 0 1 (cs " Heap:") COLOR_GRAY COLOR_DKGRAY, 6%nat) (paint (cs " Heap:") COLOR_GRAY)) as H0.
  { split; [|done]. apply (draw_chars_paints ncols nrows 1 Hr COLOR_DKGRAY layout Hcols (cs " Heap:") COLOR_GRAY [] []). by apply paints_nil. }
  pose proof (fun str fg d s => piece_paints ncols nrows 1 Hr COLOR_DKGRAY layout Hcols str fg d s) as Hp.
  pose proof (fun ch fg d s => bar_cell_paints ncols nrows 1 Hr COLOR_DKGRAY ch fg d s) as Hc.
  apply (Hp b1 COLOR_VOS_HL), (Hp (cs "/") COLOR_GRAY), (Hp b2 COLOR_VOS_HL), (Hc 0xB3 COLOR_GRAY), (Hp b3 COLOR_VOS_HL), (Hc 0xB3 COLOR_GRAY),
    (Hp b4 COLOR_VOS_HL), (Hc 0xB3 COLOR_GRAY),
    (Hp (cs (if rng_hw r then " RNG:HW" else " RNG:SW")) (if rng_hw r then COLOR_GREEN else COLOR_YELLOW)), (Hp (cs " AES-128 ") COLOR_GREEN) in H0.
  rewrite T1, T2, T3, T4 in H0.
  match type of H0 with bar _ _ _ _ _ ?s => assert (s = memory_strip r) as E by (unfold memory_strip; rewrite <- !app_assoc; by destruct (rng_hw r)) end.
  rewrite E in H0. by apply (finish_paints ncols nrows 1 Hr).
Qed.

Lemma fkey_paints row : Z.of_nat row < nrows -> (total_rows layout - 1)%nat = row ->
  paints ncols nrows row COLOR_DKGRAY (tui_draw_fkey_bar layout) (filled fkey_strip COLOR_WHITE).
Proof.
  intros Hr El. unfold tui_draw_fkey_bar, filled. rewrite El. apply (finish_paints ncols nrows row Hr). unfold fkey_strip.
  assert (forall l d s, Forall (fun k => cstr (cs k.1) = cs k.1 /\ cstr (cs k.2) = cs k.2) l -> bar ncols nrows row COLOR_DKGRAY d s ->
    bar ncols nrows row COLOR_DKGRAY (foldl (fkey_piece layout row COLOR_DKGRAY) d l)
    (s ++ concat (map (fun k => paint (cs k.1) COLOR_VOS_HL ++ paint (cs ":") COLOR_GRAY ++ paint (cs k.2) COLOR_WHITE ++ paint (cs "  ") COLOR_WHITE) l))) as H.
  { induction l as [|k l IH]; intros d s Hl Hd; cbn [foldl map concat]; [by rewrite app_nil_r|]. apply Forall_cons in Hl as [[E1 E2] Hl].
    pose proof (fun str fg d s => piece_paints ncols nrows row Hr COLOR_DKGRAY layout Hcols str fg d s) as Hp.
    apply (Hp (cs k.1) COLOR_VOS_HL), (Hp (cs ":") COLOR_GRAY), (Hp (cs k.2) COLOR_WHITE), (Hp (cs "  ") COLOR_WHITE), (IH _ _ Hl) in Hd.
    rewrite E1, E2 in Hd. rewrite <- !app_assoc in Hd. rewrite <- !app_assoc. exact Hd. }
  apply H; [by repeat constructor|].
  apply (bar_cell_paints ncols nrows row Hr COLOR_DKGRAY 32 COLOR_WHITE ([], 0%nat) []). split; [by apply paints_nil|done].
Qed.
End rows.

(** ** Printing stays in the content region *)

Lemma t_wrap_outside ncols top bot fg bg t : top < bot -> top <= ty t <= bot ->
  let t' := t_wrap ncols top bot fg bg t in
  top <= ty t' < bot /\ forall r k, r < top \/ bot <= r -> cells t' r k = cells t r k.
Proof.
  intros Hb Hy. unfold t_wrap. set (u := if ncols <=? tx t then _ else _).
  assert (top <= ty u <= bot + 1 /\ cells u = cells t) as [Hu Ec] by (subst u; destruct (_ <=? _); cbn; split; done || lia).
  destruct (Z.leb_spec bot (ty u)); cbn; (split; [lia|]); intros r k Hr; rewrite Ec; [|done].
  by replace ((top <=? r) && (r <? bot - 1)) with false by lia; replace (r =? bot - 1) with false by lia.
Qed.

Lemma t_put_outside ncols top bot fg bg t c : top < bot -> top <= ty t < bot ->
  let t' := t_put ncols top bot fg bg t c in
  top <= ty t' < bot /\ forall r k, r < top \/ bot <= r -> cells t' r k = cells t r k.
Proof.
  intros Hb Hy. unfold t_put.
  set (u := if c =? 10 then _ else _).
  assert (top <= ty u <= bot /\ forall r k, r < top \/ bot <= r -> cells u r k = cells t r k) as [Hu Hc].
  { subst u. repeat case_match; cbn; (split; [lia|]); intros r k Hr; try done; by replace (r =? ty t) with false by lia. }
  destruct (t_wrap_outside ncols top bot fg bg u Hb Hu) as [H1 H2]. split; [done|]. intros r k Hr. by rewrite H2, Hc.
Qed.

Lemma write_outside fb t str : content_top fb < content_end fb -> content_top fb <= ty t < content_end fb ->
  content_top fb <= ty (write_of fb t str) < content_end fb /\
  forall r k, r < content_top fb \/ content_end fb <= r -> cells (write_of fb t str) r k = cells t r k.
Proof.
  intros Hb. unfold write_of, t_write. revert t. induction (cstr str) as [|c l IH]; intros t Hy; [done|]. cbn [foldl].
  destruct (t_put_outside (cols fb) _ _ (fg_color fb) (bg_color fb) t c Hb Hy) as [H1 H2]. destruct (IH _ H1) as [H3 H4].
  split; [done|]. intros r k Hr. by rewrite H4, H2.
Qed.

(** A text in its colours. *)
Definition say (fb : fb_state) (x : Z * Z * list Z) : fb_state := fb_write (fb_set_color x.1.1 x.1.2 fb) x.2.

Lemma says_outside l fb t : refines fb t -> content_top fb <= ty t ->
  exists t', refines (foldl say fb l) t' /\ forall r k, r < content_top fb \/ content_end fb <= r -> cells t' r k = cells t r k.
Proof.
  revert fb t. induction l as [|[[fg bg] str] l IH]; intros fb t Hr Ht; [by exists t|]. cbn [foldl].
  set (fb1 := fb_set_color fg bg fb). assert (refines fb1 t) as Hr1 by (destruct Hr as [[] ? ? ?]; by constructor; [constructor|..]).
  change (say fb (fg, bg, str)) with (fb_write fb1 str). destruct (puts_step (cstr str) fb1 t Hr1) as [Hr2 Hs2].
  change (foldl fb_putchar fb1 (cstr str)) with (fb_write fb1 str) in *. change (foldl (put_of fb1) t (cstr str)) with (write_of fb1 t str) in Hr2.
  destruct (settings_fields _ _ Hs2) as (_ & Et & Ee & _). change (content_top fb1) with (content_top fb) in Et. change (content_end fb1) with (content_end fb) in Ee.
  destruct (fo_region fb1 (re_ok _ _ Hr1)) as [Hreg _]. destruct (re_y _ _ Hr1) as [_ Hy].
  destruct (write_outside fb1 t str) as [Hy2 Hc2]; [apply Hreg|split; [done|apply Hy]|].
  destruct (IH _ _ Hr2) as (t' & Hr' & Hc'); [rewrite Et; apply Hy2|]. exists t'. split; [done|]. intros r k Hrk.
  rewrite Et, Ee in Hc'. by rewrite Hc', Hc2.
Qed.

Lemma draws_refine ds fb t : refines fb t ->
  refines (foldl draw_cell fb ds) (foldl (t_draw (cols fb) (rows fb)) t ds) /\ settings (foldl draw_cell fb ds) = settings fb.
Proof.
  revert fb t. induction ds as [|d ds IH]; intros fb t Hr; [done|]. cbn [foldl].
  pose proof (draw_cell_refines fb t (Z.of_nat (d_col d)) (Z.of_nat (d_row d)) (d_ch d) (d_fg d) (d_bg d) Hr ltac:(lia) ltac:(lia)) as Hd.
  fold (draw_cell fb d) in Hd. assert (settings (draw_cell fb d) = settings fb) as Es by (unfold draw_cell, fb_draw_cell; by destruct (_ || _)).
  destruct (IH _ _ Hd) as [H1 H2]. rewrite Es in H2. split; [|done].
  unfold settings in Es. injection Es as _ _ _ Ec Er _ _ _ _ _ _. rewrite Ec, Er in H1. exact H1.
Qed.

(** ** The screen after [tui_init] *)

(** The cells of the whole screen; [g] is what it showed before. *)
Definition framed (nrows : Z) (layout : tui_layout) (r : readings) (ink paper : Z) (g : Z -> Z -> cell) (row k : Z) : cell :=
  if row =? 0 then strip_cell (filled layout (title_strip r) COLOR_GRAY) COLOR_DKGRAY k (g 0 k)
  else if row =? 1 then strip_cell (filled layout (memory_strip r) COLOR_GRAY) COLOR_DKGRAY k (g 1 k)
  else if row =? nrows - 1 then strip_cell (filled layout fkey_strip COLOR_WHITE) COLOR_DKGRAY k (g (nrows - 1) k)
  else blank ink paper.

Lemma layout_of_tall fb : 10 <= rows fb ->
  tui_layout_of fb = Layout (Z.to_nat (cols fb)) (Z.to_nat (rows fb)) 2 (Z.to_nat (rows fb) - 1) (Z.to_nat (rows fb) - 3).
Proof.
  intros Hr. unfold tui_layout_of, fb_get_rows, fb_get_cols, TUI_STATUS_ROWS, TUI_FKEY_ROWS.
  destruct (Nat.ltb_spec (Z.to_nat (rows fb)) 10); [lia|]. f_equal. lia.
Qed.

(** The region is set, its rows are blank and the cursor is at its start. *)
Lemma content_cleared fb g bottom : fb_ok fb -> shows fb g -> 10 <= rows fb -> bottom = rows fb - 1 ->
  refines (fb_set_cursor 0 2 (fb_clear_rows 2 bottom (fb_set_content_region 2 bottom fb)))
    (Term (fun r k => if (2 <=? r) && (r <? bottom) then blank (fg_color fb) (bg_color fb) else g r k) 0 2).
Proof.
  intros Hok Hs Hr Hb. set (fb1 := fb_set_content_region 2 bottom fb).
  assert (content_end fb1 = bottom) as Ee by (unfold content_end; cbn; by replace (bottom =? 0) with false by lia).
  assert (fb_ok fb1) as Hok1.
  { destruct Hok. constructor; try assumption. rewrite Ee. cbn. lia. }
  pose proof (cols_bounds fb Hok). constructor.
  - by apply fb_ok_cursor, fb_ok_run.
  - apply (clear_rows_shows fb1 g 2 bottom Hok1); [exact Hs|lia|cbn; lia].
  - cbn. lia.
  - split; [done|]. change (content_end _) with (content_end fb1). rewrite Ee. cbn. lia.
Qed.

(** The frame of the text screen is drawn and stays.  On a screen of at
    least ten rows, [tui_init] leaves the two status rows and the row of
    function keys showing their texts, each with its colour and filled to the
    right end, the rows between them blank and the cursor at the first of
    them (column 15 of the first row, which is not drawn, shows what it did
    before).  Whatever is printed afterwards, in any colours and however far
    it scrolls, leaves the three rows as they are. *)
Theorem tui_init_frames (fb : fb_state) (g : Z -> Z -> cell) (r : readings) (buf : list Z) :
  fb_ok fb -> shows fb g -> 10 <= rows fb -> length buf = 64%nat ->
  (forall pid name, current r = Some (pid, name) -> Z.of_nat (length name) < 2 ^ 32) ->
  let '(fb', layout) := tui_init fb r buf in
  Z.of_nat (content_rows layout) = rows fb - 3 /\
  exists t, refines fb' t /\ tx t = 0 /\ ty t = 2 /\ content_top fb' = 2 /\ content_end fb' = rows fb - 1 /\
    (forall row k, 0 <= row < rows fb -> 0 <= k < cols fb ->
       cells t row k = framed (rows fb) layout r (fg_color fb) (bg_color fb) g row k) /\
    forall printed, exists t', refines (foldl say fb' printed) t' /\
      forall row k, row < 2 \/ row = rows fb - 1 -> cells t' row k = cells t row k.
Proof.
  intros Hok Hs Hr Hb Hn. unfold tui_init. rewrite layout_of_tall by done. cbv zeta. cbn [Tui.content_top Tui.content_bottom content_rows].
  pose proof (cols_bounds fb Hok) as Hcb.
  set (layout := Layout _ _ _ _ _). set (bottom := Z.of_nat (Z.to_nat (rows fb) - 1)). assert (bottom = rows fb - 1) as Eb by lia.
  change (Z.of_nat 2) with 2. split; [lia|].
  pose proof (content_cleared fb g bottom Hok Hs Hr Eb) as H0. set (fb0 := fb_set_cursor 0 2 _) in *. set (t0 := Term _ 0 2) in *.
  assert (cols fb0 = cols fb /\ rows fb0 = rows fb) as [Ec Er] by done.
  set (bars := tui_draw_status_bar layout r buf). set (keys := tui_draw_fkey_bar layout).
  rewrite <- foldl_app. destruct (draws_refine (bars ++ keys) fb0 t0 H0) as [H1 S1]. rewrite Ec, Er in H1.
  set (fb1 := foldl draw_cell fb0 _) in *. set (t1 := foldl _ t0 _) in *.
  assert (Z.of_nat (total_cols layout) = cols fb) as Hl by (cbn; lia).
  destruct (settings_fields _ _ S1) as (_ & Et & Ee & _). change (content_top fb0) with 2 in Et.
  assert (content_end fb0 = rows fb - 1) as Ee0 by (unfold content_end; cbn -[Z.of_nat Z.sub]; fold bottom; rewrite Eb; by replace (rows fb - 1 =? 0) with false by lia).
  rewrite Ee0 in Ee.
  assert (tx t1 = 0 /\ ty t1 = 2 /\ forall row k, 0 <= row < rows fb -> 0 <= k < cols fb ->
    cells t1 row k = framed (rows fb) layout r (fg_color fb) (bg_color fb) g row k) as (Hx & Hy & Hc).
  { unfold t1, bars, tui_draw_status_bar. destruct (title_paints (cols fb) (rows fb) layout Hl r buf) as [P0 L0]; [lia|done|done|].
    destruct (status_row0 layout r buf) as [d0 buf0]. cbn [fst snd] in P0, L0.
    pose proof (memory_paints (cols fb) (rows fb) layout Hl r buf0 ltac:(lia) L0) as P1.
    pose proof (fkey_paints (cols fb) (rows fb) layout Hl (Z.to_nat (rows fb) - 1) ltac:(lia) eq_refl) as P2. fold keys in P2.
    rewrite !foldl_app. destruct (P0 t0) as (X0 & Y0 & C0). set (u0 := foldl _ t0 d0) in *. destruct (P1 u0) as (X1 & Y1 & C1).
    set (u1 := foldl _ u0 _) in *. destruct (P2 u1) as (X2 & Y2 & C2). split; [by rewrite X2, X1, X0|]. split; [by rewrite Y2, Y1, Y0|].
    intros row k Hrow Hk. rewrite C2, C1, C0 by done. unfold framed. change (Z.of_nat 0) with 0. change (Z.of_nat 1) with 1. fold bottom. rewrite Eb.
    unfold t0. cbn [cells].
    destruct (Z.eqb_spec row 0) as [->|]; [by replace (0 =? rows fb - 1) with false by lia|].
    destruct (Z.eqb_spec row 1) as [->|]; [by replace (1 =? rows fb - 1) with false by lia|].
    rewrite Eb. destruct (Z.eqb_spec row (rows fb - 1)) as [->|].
    - replace ((2 <=? rows fb - 1) && _) with false by lia. done.
    - by replace ((2 <=? row) && _) with true by lia. }
  exists t1. split_and!; [exact H1|done|done|done|done|exact Hc|]. intros printed.
  destruct (says_outside printed fb1 t1 H1) as (t' & Hr' & Ho); [rewrite Et, Hy; lia|]. exists t'. split; [done|].
  intros row k Hrow. apply Ho. rewrite Et, Ee. lia.
Qed.

(** A cell of the first row is never drawn. *)
Example title_gap r : title_strip r !! 15%nat = Some None.
Proof. reflexivity. Qed.

#[local] Opaque tui_init.

(** A screen of 20 columns and 10 rows. *)
Lemma tui_init_frames_witness :
  let fb := fb_init 1 160 160 640 0 (replicate (Z.to_nat (160 * 160)) 0) (Fb false [] 0 0 0 0 0 0 0 0 0 0 0 0) in
  let r := Readings 61000 (Some (1, cs "shell")) 8 4096 8192 100 200 6 true in
  exists t, refines (tui_init fb r (replicate 64 0)).1 t /\ ty t = 2 /\
    cells t 0 1 = Cell 86 COLOR_WHITE COLOR_DKGRAY /\ cells t 5 3 = blank COLOR_VOS_FG COLOR_VOS_BG.
Proof.
  intros fb r.
  assert (refines fb (Term (fun _ _ => blank (fg_color fb) (bg_color fb)) 0 0)) as Hr.
  { apply (init_refines 1 160 160 0 (replicate (Z.to_nat (160 * 160)) 0)); [lia|lia|lia|lia|]. by rewrite length_replicate. }
  pose proof (tui_init_frames fb _ r (replicate 64 0) (re_ok _ _ Hr) (re_shows _ _ Hr)) as H.
  destruct (tui_init fb r (replicate 64 0)) as [fb' layout].
  destruct H as (_ & t & Ht & _ & Hy & _ & _ & Hc & _);
    [change (rows fb) with 10; lia|reflexivity|intros ? ? [= _ <-]; reflexivity|].
  exists t. change (rows fb) with 10 in Hc. change (cols fb) with 20 in Hc.
  split; [exact Ht|]. split; [exact Hy|]. split; rewrite Hc by lia; reflexivity.
Defined.
