(* ===== verification/Display.v ===== *)
(** * Display of query results (src/shell/display.c)

    A result is an error, a message or a table.  Tables are drawn with CP437
    box characters, printed when they fit the content rows and shown in the
    pager otherwise.  Lines are built into arrays of 256 cells; a line here is
    the C string in its array. *)

From Stdlib Require Import String.
From S2P Require Import LineEditor Script.
From S2P Require Import Prelude CLib Errors Random Aes Record Btree Cap Database Printf Query Client Keyboard Tui.

Definition MAX_COL_WIDTH : nat := 30.
Definition VIEWER_MAX_LINES : nat := 512.
Definition VIEWER_LINE_LEN : nat := 256.

Definition BOX_H : Z := 0xC4.
Definition BOX_V : Z := 0xB3.
Definition BOX_TL : Z := 0xDA.
Definition BOX_TR : Z := 0xBF.
Definition BOX_BL : Z := 0xC0.
Definition BOX_BR : Z := 0xD9.
Definition BOX_LT : Z := 0xC3.
Definition BOX_RT : Z := 0xB4.
Definition BOX_TT : Z := 0xC2.
Definition BOX_BT : Z := 0xC1.
Definition BOX_CROSS : Z := 0xC5.

(** ** Cells *)

Definition field_to_str (f : field_value) (buf : list Z) : list Z :=
  let n := (length buf - 1)%nat in
  match f with
  | FU64 v => print_buf buf "%llu" [AInt v]
  | FI64 v => print_buf buf "%lld" [AInt (u64 v)]
  | FU32 v => print_buf buf "%u" [AInt v]
  | FU8 v => print_buf buf "%u" [AInt v]
  | FStr data _ => <[n := 0]> (strncpy buf data n)
  | FBool b => strncpy buf (cs (if b then "true" else "false")) n
  | FBlob _ len => print_buf buf "<blob %u bytes>" [AInt len]
  end.

(** ** Lines *)

(** [if (pos < out_size - 1) out[pos++] = c] *)
Definition put (limit : nat) (out : list Z) (c : Z) : list Z := if (length out <? limit)%nat then out ++ [c] else out.

(** [for (...; i < n && pos < out_size - 1; i++) out[pos++] = ...] *)
Fixpoint put_run (limit : nat) (out : list Z) (l : list Z) : list Z :=
  match l with
  | [] => out
  | c :: l => if (length out <? limit)%nat then put_run limit (out ++ [c]) l else out
  end.

Fixpoint hline_loop (limit : nat) (widths : list nat) (first : bool) (left mid : Z) (out : list Z) : list Z :=
  match widths with
  | [] => out
  | w :: widths =>
      let out := put limit out (if first then left else mid) in
      let out := put_run limit out (replicate (w + 2) BOX_H) in
      hline_loop limit widths false left mid out
  end.

Definition build_hline (out_size : nat) (widths : list nat) (left mid right : Z) : list Z :=
  put (out_size - 1) (hline_loop (out_size - 1) widths true left mid []) right.

Fixpoint data_loop (limit : nat) (fields : list (list Z)) (widths : list nat) (out : list Z) : list Z :=
  match widths, fields with
  | w :: widths, f :: fields =>
      let out := put limit out BOX_V in
      let out := put limit out 32 in
      let out := put_run limit out (cstr f) in
      let out := put_run limit out (replicate (w - strlen f) 32) in
      let out := put limit out 32 in
      data_loop limit fields widths out
  | _, _ => out
  end.

Definition build_data_row (out_size : nat) (fields : list (list Z)) (widths : list nat) : list Z :=
  put (out_size - 1) (data_loop (out_size - 1) fields widths []) BOX_V.

(** ** The table *)

(** The text of a field, in an array whose cells are [cell0] before. *)
Definition cell0 : list Z := replicate (MAX_COL_WIDTH + 1) 0.
Definition shown_field (f : field_value) : list Z := field_to_str f cell0.

Definition header_width (c : column_def) : nat := let w := strlen (col_name c) in if (w <? 4)%nat then 4%nat else w.

(** One field: [if (w > widths[c]) widths[c] = w; if (widths[c] > 30) ...] *)
Definition widen (w : nat) (f : field_value) : nat :=
  let l := strlen (shown_field f) in
  let w := if (w <? l)%nat then l else w in
  if (MAX_COL_WIDTH <? w)%nat then MAX_COL_WIDTH else w.

(** The fields of a row in the columns of the schema. *)
Definition row_fields (ncols : nat) (row : record) : list field_value := map (field row) (seq 0 ncols).

Definition column_widths (cols : list column_def) (rs : list record) : list nat :=
  foldl (fun ws row => zip_with widen ws (row_fields (length cols) row)) (map header_width cols) rs.

Definition header_fields (cols : list column_def) : list (list Z) :=
  map (fun c => <[MAX_COL_WIDTH := 0]> (strncpy cell0 (col_name c) MAX_COL_WIDTH)) cols.

(** The lines above and below the rows, and the rows. *)
Definition table_lines (cols : list column_def) (rs : list record) : list (list Z) :=
  let ws := column_widths cols rs in
  let hline := build_hline VIEWER_LINE_LEN ws in
  let row fs := build_data_row VIEWER_LINE_LEN fs ws in
  [hline BOX_TL BOX_TT BOX_TR; row (header_fields cols); hline BOX_LT BOX_CROSS BOX_RT] ++
  map (fun r => row (map shown_field (row_fields (length cols) r))) rs ++
  [hline BOX_BL BOX_BT BOX_BR].

Definition row_total (n : nat) : list Z := match kvprintf_chars (cs "%u row(s) returned") [AInt (Z.of_nat n)] with Some s => s | None => [] end.

(** ** The pager *)

(** The layout is that of tui.c; there is at least one content row. *)

(** [viewer_add_line]: at most 512 lines of 255 characters. *)
Definition viewer_add_line (lines : list (list Z)) (l : list Z) : list (list Z) :=
  if (VIEWER_MAX_LINES <=? length lines)%nat then lines else lines ++ [take (VIEWER_LINE_LEN - 1) l].

Definition viewer_lines (cols : list column_def) (rs : list record) : list (list Z) :=
  foldl viewer_add_line [] (table_lines cols rs ++ [row_total (length rs)]).

Definition pager_visible (lay : tui_layout) : nat :=
  let v := (content_rows lay - 1)%nat in if (v =? 0)%nat then 1%nat else v.

Definition pager_max (lay : tui_layout) (count : nat) : nat :=
  if (pager_visible lay <? count)%nat then (count - pager_visible lay)%nat else 0%nat.

(** The text cells of one row of the screen: a line, cut or filled with
    blanks. *)
Definition screen_row (width : nat) (l : list Z) : list Z := take width l ++ replicate (width - length l) 32.

(** The rows drawn from [content_top] on, then the status row. *)
Definition pager_screen (lay : tui_layout) (lines : list (list Z)) (offset : nat) : list (nat * list Z) :=
  let visible := pager_visible lay in
  let n := (visible `min` (content_bottom lay - 1 - content_top lay))%nat in
  let status := match kvprintf_chars (cs " Lines %u-%u of %u (Up/Down/PgUp/PgDn to scroll, Q to exit) ")
                        [AInt (Z.of_nat offset + 1);
                         AInt (Z.of_nat (if (offset + visible <? length lines)%nat then offset + visible else length lines)%nat);
                         AInt (Z.of_nat (length lines))]
                with Some s => take 127 s | None => [] end in
  map (fun i => ((content_top lay + i)%nat, screen_row (total_cols lay) (nth (offset + i) lines []))) (seq 0 n) ++
  [((content_bottom lay - 1)%nat, screen_row (total_cols lay) status)].

(** One key; [None]: the pager is left. *)
Definition pager_key (visible max_offset offset : nat) (k : Z) : option nat :=
  if k =? KEY_UP then Some (if (0 <? offset)%nat then (offset - 1)%nat else offset)
  else if k =? KEY_DOWN then Some (if (offset <? max_offset)%nat then (offset + 1)%nat else offset)
  else if k =? KEY_PGUP then Some (if (visible <=? offset)%nat then (offset - visible)%nat else 0%nat)
  else if k =? KEY_PGDN then Some (if (offset + visible <=? max_offset)%nat then (offset + visible)%nat else max_offset)
  else if k =? KEY_HOME then Some 0%nat
  else if k =? KEY_END then Some max_offset
  else if (k =? 113) || (k =? 81) || (k =? 0x1B) then None
  else Some offset.

(** The offsets shown while the keys are typed; the second result says whether
    the pager was left. *)
Fixpoint pager (visible max_offset offset : nat) (keys : list Z) : list nat * bool :=
  match keys with
  | [] => ([offset], false)
  | k :: keys =>
      match pager_key visible max_offset offset k with
      | None => ([offset], true)
      | Some o => let '(l, gone) := pager visible max_offset o keys in (offset :: l, gone)
      end
  end.

(** ** [display_result] *)

Inductive display := Printed (o : list out) | Paged (lines : list (list Z)).

Definition say (fmt : list Z) (args : list varg) : list out :=
  match kvprintf_chars fmt args with Some s => [Text s] | None => [] end.

Definition hint (code : Z) : list out :=
  if code =? VOS_ERR_PERM then say (endl "  Hint: Check capabilities with 'security' or 'show caps'") []
  else if code =? VOS_ERR_SYNTAX then say (endl "  Hint: Use 'help' or Tab for command completion") []
  else if code =? VOS_ERR_NOTFOUND then say (endl "  Hint: Use 'tables' to list available tables") []
  else if code =? VOS_ERR_CAP_REVOKED then say (endl "  Hint: Capability was revoked. Request new grant.") []
  else [].

Definition mentions (msg : list Z) (ws : list string) : bool := existsb (fun w => match strstr msg (cs w) with Some _ => true | None => false end) ws.

Definition status_message (msg : list Z) : list out :=
  let styled c := [Color c COLOR_VOS_BG] ++ say (cs "  " ++ [0xFE; 32]) [] ++ say (endl "%s") [txt msg] in
  (if mentions msg ["GRANT"; "grant"]%string then styled COLOR_VOS_HL
   else if mentions msg ["REVOKE"; "revoke"]%string then styled COLOR_VOS_HL
   else if mentions msg ["DELETE"; "delete"; "Deleted"]%string then styled COLOR_CYAN
   else if mentions msg ["INSERT"; "insert"; "Inserted"]%string then styled COLOR_GREEN
   else if mentions msg ["UPDATE"; "update"; "Updated"]%string then styled COLOR_GREEN
   else [Color COLOR_VOS_HL COLOR_VOS_BG] ++ say (endl "  %s") [txt msg]) ++
  [Color COLOR_VOS_FG COLOR_VOS_BG].

Definition print_table (cols : list column_def) (rs : list record) : list out :=
  let lines := table_lines cols rs in
  let print l := say (endl "%s") [txt l] in
  [Color COLOR_VOS_HL COLOR_VOS_BG] ++ concat (map print (take 3 lines)) ++ [Color COLOR_VOS_FG COLOR_VOS_BG] ++
  concat (map print (drop 3 lines)) ++ say (endl "%u row(s) returned") [AInt (Z.of_nat (length rs))].

Definition display_result (lay : tui_layout) (r : result) : display :=
  match r with
  | None => Printed (say (endl "Error: NULL result") [])
  | Some r =>
      let n := row_count r in
      if negb (error_code r =? 0) && (n =? 0)%nat then
        Printed ([Color COLOR_RED COLOR_VOS_BG] ++ say (cs "  ERROR") [] ++ [Color COLOR_GRAY COLOR_VOS_BG] ++
                 say (cs " [%s] ") [txt (cs (vos_strerror (error_code r)))] ++ [Color COLOR_VOS_FG COLOR_VOS_BG] ++
                 say (endl "%s") [txt (error_msg r)] ++ [Color COLOR_CYAN COLOR_VOS_BG] ++ hint (error_code r) ++
                 [Color COLOR_VOS_FG COLOR_VOS_BG])
      else if (n =? 0)%nat && negb (chr (error_msg r) =? 0) then Printed (status_message (error_msg r))
      else if (n =? 0)%nat then Printed (say (endl "0 rows returned") [])
      else
        match res_schema r with
        | None => Printed (say (endl "(%u rows, no schema for display)") [AInt (Z.of_nat n)])
        | Some sch =>
            let cols := take MAX_COLUMNS (columns sch) in
            if (content_rows lay <? 3 + n + 1 + 1)%nat then Paged (viewer_lines cols (rows r))
            else Printed (print_table cols (rows r))
        end
  end.
