(* ===== verification/DisplaySpec.v ===== *)
(** * Tables are drawn straight, and the pager shows all of them

    The lines that display.c builds cell by cell are those of a grid of padded
    texts, cut at 255 characters; all have the same length, with the column
    lines one below the other.  The pager stays inside the lines and reaches
    each of them. *)

From Stdlib Require Import String.
From S2P Require Import LineEditor Script.
From S2P Require Import Prelude CLib Errors Random Aes Record Btree Cap Database Printf Query Client Keyboard Tui Display.

(** ** The grid *)

Fixpoint border_from (ws : list nat) (first mid : Z) : list Z :=
  match ws with
  | [] => []
  | w :: ws => first :: replicate (w + 2) BOX_H ++ border_from ws mid mid
  end.

(** A horizontal line over columns of the given widths. *)
Definition border (ws : list nat) (left mid right : Z) : list Z := border_from ws left mid ++ [right].

(** A text padded to its column. *)
Definition padded (t : list Z) (w : nat) : list Z := t ++ replicate (w - length t) 32.

Definition grid_row (texts : list (list Z)) (ws : list nat) : list Z :=
  concat (zip_with (fun t w => [BOX_V; 32] ++ padded t w ++ [32]) texts ws) ++ [BOX_V].

Definition grid_width (ws : list nat) : nat := S (sum_list_with (fun w => w + 3)%nat ws).

(** ** Building with a limit *)

Lemma put_run_spec limit out l : (length out <= limit)%nat -> put_run limit out l = take limit (out ++ l).
Proof.
  revert out. induction l as [|c l IH]; intros out Ho; cbn [put_run]; [by rewrite app_nil_r, take_ge|].
  destruct (Nat.ltb_spec (length out) limit).
  - rewrite IH by (rewrite length_app; cbn; lia). by rewrite <- app_assoc.
  - rewrite take_app_le, take_ge by lia. done.
Qed.

Lemma put_spec limit out c : (length out <= limit)%nat -> put limit out c = take limit (out ++ [c]).
Proof. intros Ho. rewrite <- (put_run_spec limit out [c]) by done. unfold put. cbn [put_run]. by destruct (length out <? limit)%nat. Qed.

Lemma take_app_take {A} n (a b : list A) : take n (take n a ++ b) = take n (a ++ b).
Proof. rewrite !take_app, take_take, length_take, Nat.min_id. destruct (Nat.le_gt_cases n (length a)); do 2 f_equal; lia. Qed.

(** The line so far is the beginning of the line without a limit. *)
Lemma put_take limit out c : put limit (take limit out) c = take limit (out ++ [c]).
Proof. by rewrite put_spec, take_app_take by (rewrite length_take; lia). Qed.

Lemma put_run_take limit out l : put_run limit (take limit out) l = take limit (out ++ l).
Proof. by rewrite put_run_spec, take_app_take by (rewrite length_take; lia). Qed.

Ltac build := repeat first [rewrite put_take | rewrite put_run_take]; rewrite <- ?app_assoc.

Lemma hline_loop_spec limit ws first left mid out :
  hline_loop limit ws first left mid (take limit out) = take limit (out ++ border_from ws (if first then left else mid) mid).
Proof.
  revert first out. induction ws as [|w ws IH]; intros first out; cbn [hline_loop border_from]; [by rewrite app_nil_r|].
  build. rewrite IH. by rewrite <- !app_assoc.
Qed.

Lemma build_hline_spec size ws left mid right : build_hline size ws left mid right = take (size - 1) (border ws left mid right).
Proof.
  unfold build_hline. pose proof (hline_loop_spec (size - 1) ws true left mid []) as E. rewrite take_nil in E. rewrite E. cbn [app].
  build. done.
Qed.

Lemma data_loop_spec limit fields ws out :
  data_loop limit fields ws (take limit out) =
  take limit (out ++ concat (zip_with (fun t w => [BOX_V; 32] ++ padded t w ++ [32]) (map cstr fields) ws)).
Proof.
  revert fields out. induction ws as [|w ws IH]; intros fields out; [destruct fields; cbn; by rewrite app_nil_r|].
  destruct fields as [|f fields]; cbn [data_loop map zip_with concat]; [by rewrite app_nil_r|].
  build. rewrite IH. f_equal. unfold padded. rewrite length_cstr. rewrite <- !app_assoc. done.
Qed.

Lemma build_data_row_spec size fields ws : build_data_row size fields ws = take (size - 1) (grid_row (map cstr fields) ws).
Proof.
  unfold build_data_row. pose proof (data_loop_spec (size - 1) fields ws []) as E. rewrite take_nil in E. rewrite E. cbn [app]. build. done.
Qed.

(** ** Widths *)

Lemma length_border ws l m r : length (border ws l m r) = grid_width ws.
Proof.
  unfold border, grid_width. rewrite length_app. cbn [length]. enough (forall a, length (border_from ws a m) = sum_list_with (fun w => w + 3) ws)%nat as -> by lia.
  induction ws as [|w ws IH]; intros a; cbn; [done|]. rewrite length_app, length_replicate, IH. lia.
Qed.

Lemma length_grid_row texts ws : Forall2 (fun t w => length t <= w)%nat texts ws -> length (grid_row texts ws) = grid_width ws.
Proof.
  intros Hf. unfold grid_row, grid_width. rewrite length_app. cbn [length]. rewrite Nat.add_1_r. f_equal.
  induction Hf as [|t w texts ws Ht Hf IH]; cbn [zip_with concat sum_list_with]; [done|]. rewrite length_app, IH. unfold padded.
  rewrite !length_app, length_replicate. cbn [length]. lia.
Qed.

(** A shown field is a terminated text of at most 30 characters. *)
Lemma print_cell_short fmt v out : kvprintf_chars (cs fmt) [AInt v] = Some out -> 99 ∉ cs fmt -> (length out <= 100)%nat ->
  (strlen (print_buf cell0 fmt [AInt v]) <= MAX_COL_WIDTH)%nat.
Proof.
  intros E H99 Ho. rewrite <- length_cstr. assert (Z.of_nat (length out) < 2 ^ 63) as Hz by (change (2 ^ 63) with 9223372036854775808; lia).
  destruct (print_buf_text cell0 fmt [AInt v] out E H99) as [-> _]; [cbn; lia|reflexivity|exact Hz|]. rewrite length_take.
  change (length cell0 - 1)%nat with MAX_COL_WIDTH. lia.
Qed.

Lemma shown_field_short f : (strlen (shown_field f) <= MAX_COL_WIDTH)%nat.
Proof.
  unfold shown_field, field_to_str. change (length cell0 - 1)%nat with MAX_COL_WIDTH. destruct f as [v|v|data l|data l|b|v|v].
  1,2,4,6,7: eapply print_cell_short; [reflexivity|apply (bool_decide_unpack _); vm_compute; exact I|cbn [length]; rewrite ?length_app; cbn [length];
    match goal with |- context [print_num ?n ?b ?s ?u 0 ?p] => pose proof (print_num_short n b s u 0 p) end; lia].
  - change (<[_ := 0]> _) with (strlcpy cell0 data MAX_COL_WIDTH). rewrite <- length_cstr.
    destruct (strlcpy_spec cell0 data MAX_COL_WIDTH eq_refl) as [_ ->]. rewrite length_take. lia.
  - destruct b; apply Nat.leb_le; reflexivity.
Qed.

(** ** The columns are wide enough *)

Lemma widen_spec w f : (4 <= w)%nat -> (4 <= widen w f <= MAX_COL_WIDTH)%nat /\ (strlen (shown_field f) <= widen w f)%nat /\ (w `min` MAX_COL_WIDTH <= widen w f)%nat.
Proof.
  intros Hw. pose proof (shown_field_short f) as Hs. unfold widen. unfold MAX_COL_WIDTH in *.
  destruct (Nat.ltb_spec w (strlen (shown_field f))), (Nat.ltb_spec 30 (strlen (shown_field f))), (Nat.ltb_spec 30 w); lia.
Qed.

Definition wide_enough (ws : list nat) (row : record) : Prop :=
  Forall2 (fun w f => strlen (shown_field f) <= w)%nat ws (row_fields (length ws) row).

Lemma length_row_fields n row : length (row_fields n row) = n.
Proof. unfold row_fields. by rewrite length_map, length_seq. Qed.

(** One row more. *)
Lemma widen_row n ws row : length ws = n -> Forall (fun w => 4 <= w)%nat ws ->
  let ws' := zip_with widen ws (row_fields n row) in
  length ws' = n /\ Forall (fun w => 4 <= w <= MAX_COL_WIDTH)%nat ws' /\ wide_enough ws' row /\
  Forall2 (fun w w' => w `min` MAX_COL_WIDTH <= w')%nat ws ws'.
Proof.
  intros Hn Hw ws'. assert (length ws' = n) as Hl by (unfold ws'; rewrite length_zip_with, length_row_fields; lia). split; [done|].
  unfold wide_enough. rewrite Hl. unfold ws'. pose proof (length_row_fields n row) as Hr. clear Hl ws'. revert Hn Hr. generalize (row_fields n row) as fs. clear row.
  intros fs. revert n fs. induction Hw as [|w ws Hw Hws IH]; intros n [|f fs] Hn Hr; cbn [length] in *; try lia; [by split_and!; constructor|].
  destruct n as [|n]; [lia|]. destruct (IH n fs) as (I1 & I2 & I3); [lia|lia|]. destruct (widen_spec w f Hw) as (W1 & W2 & W3).
  cbn [zip_with]. split_and!; by constructor.
Qed.

Lemma Forall2_min_trans ws ws1 ws2 : Forall2 (fun w w' => w `min` MAX_COL_WIDTH <= w')%nat ws ws1 ->
  Forall2 (fun w w' => w `min` MAX_COL_WIDTH <= w')%nat ws1 ws2 -> Forall2 (fun w w' => w `min` MAX_COL_WIDTH <= w')%nat ws ws2.
Proof. intros H. revert ws2. induction H; inversion 1; subst; constructor; [lia|]. by apply IHForall2. Qed.

Lemma wide_enough_mono ws ws' row : Forall (fun w => w <= MAX_COL_WIDTH)%nat ws -> wide_enough ws row -> Forall2 (fun w w' => w `min` MAX_COL_WIDTH <= w')%nat ws ws' -> wide_enough ws' row.
Proof.
  intros Hb Hw Hm. pose proof (Forall2_length _ _ _ Hm) as El. unfold wide_enough in *. rewrite <- El. clear El.
  revert Hb Hw. generalize (row_fields (length ws) row). induction Hm as [|w w' ws ws' Hww Hm IH]; intros fs Hb Hw; inversion Hw; subst; constructor.
  - apply Forall_cons in Hb as [Hb _]. lia.
  - apply IH; [by apply Forall_cons in Hb as [_ Hb]|done].
Qed.

Lemma column_widths_spec cols rs : rs <> [] ->
  let ws := column_widths cols rs in
  length ws = length cols /\ Forall (fun w => 4 <= w <= MAX_COL_WIDTH)%nat ws /\ Forall (wide_enough ws) rs /\
  Forall2 (fun c w => strlen (col_name c) `min` MAX_COL_WIDTH <= w)%nat cols ws.
Proof.
  intros Hne. set (P ws := length ws = length cols /\ Forall (fun w => 4 <= w)%nat ws).
  assert (forall rs ws, P ws -> Forall (fun w => w <= MAX_COL_WIDTH)%nat ws \/ rs <> [] ->
    let ws' := foldl (fun ws row => zip_with widen ws (row_fields (length cols) row)) ws rs in
    length ws' = length cols /\ Forall (fun w => 4 <= w <= MAX_COL_WIDTH)%nat ws' /\ Forall (wide_enough ws') rs /\
    Forall2 (fun w w' => w `min` MAX_COL_WIDTH <= w')%nat ws ws') as Hmain.
  { clear rs Hne. induction rs as [|row rs IH]; intros ws [Hl H4] Hb; cbn [foldl].
    - destruct Hb as [Hb|Hb]; [|done]. split_and!; [done| |constructor|].
      + rewrite Forall_forall in *. intros w Hw. split; [by apply H4|by apply Hb].
      + clear -Hb. induction Hb; constructor; [lia|done].
    - destruct (widen_row (length cols) ws row Hl H4) as (R1 & R2 & R3 & R4).
      destruct (IH (zip_with widen ws (row_fields (length cols) row))) as (I1 & I2 & I3 & I4).
      { split; [done|]. eapply Forall_impl; [exact R2|]. cbn. lia. }
      { left. eapply Forall_impl; [exact R2|]. cbn. lia. }
      split_and!; [done|done| |by eapply Forall2_min_trans]. constructor; [|done].
      eapply wide_enough_mono; [|exact R3|exact I4]. eapply Forall_impl; [exact R2|]. cbn. lia. }
  assert (P (map header_width cols)) as H0.
  { split; [apply length_map|]. apply Forall_map, Forall_true. intros c. unfold header_width. destruct (Nat.ltb_spec (strlen (col_name c)) 4); lia. }
  destruct (Hmain rs (map header_width cols) H0) as (I1 & I2 & I3 & I4); [by right|]. unfold column_widths. split_and!; [done|done|done|].
  rewrite Forall2_fmap_l in I4. eapply Forall2_impl; [exact I4|]. intros c w Hc. unfold compose, header_width in Hc. cbv zeta beta in Hc.
  destruct (Nat.ltb_spec (strlen (col_name c)) 4); lia.
Qed.

(** The texts a table shows. *)
Definition header_texts (cols : list column_def) : list (list Z) := map (fun c => take MAX_COL_WIDTH (cstr (col_name c))) cols.
Definition row_texts (n : nat) (row : record) : list (list Z) := map (fun f => cstr (shown_field f)) (row_fields n row).

Lemma header_fields_texts cols : map cstr (header_fields cols) = header_texts cols.
Proof.
  unfold header_fields, header_texts. rewrite map_map. apply map_ext. intros c.
  change (<[_ := 0]> _) with (strlcpy cell0 (col_name c) MAX_COL_WIDTH). by apply strlcpy_spec.
Qed.

(** Tables are drawn straight.  For a result with rows, every column is as
    wide as its header and its widest value (from 4 to 30 characters); the
    lines that are built cell by cell into 256-byte arrays are exactly the
    borders and the rows of a grid of these texts, padded to their columns,
    each cut at 255 characters; and all of them have the same length, so that
    the column lines stand one below the other. *)
Theorem display_table_aligned (cols : list column_def) (rs : list record) :
  rs <> [] ->
  let ws := column_widths cols rs in
  length ws = length cols /\ Forall (fun w => 4 <= w <= MAX_COL_WIDTH)%nat ws /\
  Forall2 (fun t w => length t <= w)%nat (header_texts cols) ws /\
  Forall (fun r => Forall2 (fun t w => length t <= w)%nat (row_texts (length cols) r) ws) rs /\
  table_lines cols rs =
    map (take 255) ([border ws BOX_TL BOX_TT BOX_TR; grid_row (header_texts cols) ws; border ws BOX_LT BOX_CROSS BOX_RT] ++
                    map (fun r => grid_row (row_texts (length cols) r) ws) rs ++ [border ws BOX_BL BOX_BT BOX_BR]) /\
  Forall (fun l => length l = 255 `min` grid_width ws)%nat (table_lines cols rs).
Proof.
  intros Hne ws. destruct (column_widths_spec cols rs Hne) as (H1 & H2 & H3 & H4). fold ws in H1, H2, H3, H4.
  assert (Forall2 (fun t w => length t <= w)%nat (header_texts cols) ws) as Hh.
  { unfold header_texts. apply Forall2_fmap_l. eapply Forall2_impl; [exact H4|]. intros c w Hc. unfold compose. cbn beta in *. rewrite length_take, length_cstr. lia. }
  assert (Forall (fun r => Forall2 (fun t w => length t <= w)%nat (row_texts (length cols) r) ws) rs) as Hr.
  { eapply Forall_impl; [exact H3|]. intros r Hw. unfold wide_enough in Hw. rewrite H1 in Hw. unfold row_texts. apply Forall2_fmap_l.
    apply Forall2_flip in Hw. eapply Forall2_impl; [exact Hw|]. intros f w Hf. unfold compose. cbn in *. by rewrite length_cstr. }
  assert (table_lines cols rs =
    map (take 255) ([border ws BOX_TL BOX_TT BOX_TR; grid_row (header_texts cols) ws; border ws BOX_LT BOX_CROSS BOX_RT] ++
                    map (fun r => grid_row (row_texts (length cols) r) ws) rs ++ [border ws BOX_BL BOX_BT BOX_BR])) as E.
  { unfold table_lines. fold ws. rewrite !build_hline_spec, build_data_row_spec, header_fields_texts. cbn [app map].
    do 3 f_equal. rewrite map_app. cbn [map]. f_equal. rewrite map_map. apply map_ext. intros r. rewrite build_data_row_spec. unfold row_texts. by rewrite map_map. }
  split_and!; [done|done|done|done|exact E|]. rewrite E. apply Forall_map.
  assert (forall l : list Z, length l = grid_width ws -> length (take 255 l) = 255 `min` grid_width ws)%nat as Hlen by (intros l Hl; rewrite length_take; lia).
  cbn [app]. repeat (apply Forall_cons; split; [apply Hlen; first [apply length_border|by apply length_grid_row]|]).
  apply Forall_app. split; [|repeat constructor; apply Hlen, length_border]. apply Forall_map. eapply Forall_impl; [exact Hr|].
  intros r Hf. by apply Hlen, length_grid_row.
Qed.

Lemma display_table_aligned_witness :
  let rs := [show_row 0 show_schema; show_row 1 desc_schema] in
  length (column_widths (columns show_schema) rs) = 3%nat /\
  Forall (fun l => length l = 255 `min` grid_width (column_widths (columns show_schema) rs))%nat (table_lines (columns show_schema) rs).
Proof.
  intros rs. destruct (display_table_aligned (columns show_schema) rs) as (H1 & _ & _ & _ & _ & H2); [discriminate|]. split; [exact H1|exact H2].
Defined.

(** ** The pager *)

Definition leaves (k : Z) : Prop := k = 113 \/ k = 81 \/ k = 0x1B.

Lemma pager_key_spec v m o k : (o <= m)%nat ->
  match pager_key v m o k with Some o' => (o' <= m)%nat /\ ~ leaves k | None => leaves k end.
Proof.
  intros Ho. unfold pager_key, leaves, KEY_UP, KEY_DOWN, KEY_PGUP, KEY_PGDN, KEY_HOME, KEY_END.
  repeat case_match; simplify_eq; lia.
Qed.

Lemma pager_offsets v m keys : forall o, (o <= m)%nat -> Forall (fun o => o <= m)%nat (pager v m o keys).1.
Proof.
  induction keys as [|k keys IH]; intros o Ho; cbn; [by repeat constructor|]. pose proof (pager_key_spec v m o k Ho) as Hk.
  destruct (pager_key v m o k) as [o'|]; [|by repeat constructor]. specialize (IH o' (proj1 Hk)).
  destruct (pager v m o' keys). by constructor.
Qed.

Lemma pager_left v m keys : forall o, (o <= m)%nat -> (pager v m o keys).2 = true <-> Exists leaves keys.
Proof.
  induction keys as [|k keys IH]; intros o Ho; cbn; [by rewrite Exists_nil|]. pose proof (pager_key_spec v m o k Ho) as Hk.
  rewrite Exists_cons. destruct (pager_key v m o k) as [o'|]; [|by split; [left|]]. specialize (IH o' (proj1 Hk)).
  destruct (pager v m o' keys). cbn in *. rewrite IH. tauto.
Qed.

Lemma pager_down v m n : forall o, (o + n <= m)%nat -> last (pager v m o (replicate n KEY_DOWN)).1 = Some (o + n)%nat.
Proof.
  induction n as [|n IH]; intros o Ho; cbn [replicate pager]; [by rewrite Nat.add_0_r|].
  assert (pager_key v m o KEY_DOWN = Some (o + 1)%nat) as -> by (unfold pager_key; cbn [Z.eqb KEY_UP KEY_DOWN Pos.eqb]; destruct (Nat.ltb_spec o m); [done|lia]).
  specialize (IH (o + 1)%nat ltac:(lia)). destruct (pager v m (o + 1) (replicate n KEY_DOWN)) as [l gone]. cbn [fst] in *.
  replace (o + S n)%nat with (o + 1 + n)%nat by lia. destruct l; [done|]. done.
Qed.

(** The pager shows all of a long result.  On a screen with a content
    region of at least two rows, whatever keys are pressed the first line
    shown never passes the last page; the pager is left exactly when q, Q or
    Escape is pressed; and every line of the result can be brought to the
    screen, cut or filled to the width of its row. *)
Theorem pager_shows_all (lay : tui_layout) (lines : list (list Z)) :
  (2 <= content_rows lay)%nat -> content_bottom lay = (content_top lay + content_rows lay)%nat ->
  let v := pager_visible lay in let m := pager_max lay (length lines) in
  (forall keys, Forall (fun o => o <= m)%nat (pager v m 0 keys).1) /\
  (forall keys, (pager v m 0 keys).2 = true <-> Exists leaves keys) /\
  forall i l, lines !! i = Some l -> exists keys o row, last (pager v m 0 keys).1 = Some o /\
    (content_top lay <= row < content_bottom lay - 1)%nat /\ (row, screen_row (total_cols lay) l) ∈ pager_screen lay lines o.
Proof.
  intros Hr Hb v m. split; [intros; apply pager_offsets; lia|]. split; [intros; apply pager_left; lia|]. intros i l Hi.
  assert (v = content_rows lay - 1)%nat as Hv by (subst v; unfold pager_visible; destruct (Nat.eqb_spec (content_rows lay - 1) 0); lia).
  pose proof (lookup_lt_Some _ _ _ Hi) as Hlt.
  assert (i < m + v)%nat as Hm by (subst m; unfold pager_max; fold v; destruct (Nat.ltb_spec v (length lines)); lia).
  exists (replicate (i `min` m) KEY_DOWN), (i `min` m)%nat, (content_top lay + (i - i `min` m))%nat.
  split; [apply (pager_down v m (i `min` m) 0); lia|]. split; [lia|].
  unfold pager_screen. apply elem_of_app. left. fold v. apply list_elem_of_In, in_map_iff. exists (i - i `min` m)%nat. split.
  - f_equal. f_equal. replace (i `min` m + (i - i `min` m))%nat with i by lia. by apply nth_lookup_Some.
  - apply in_seq. lia.
Qed.

Lemma pager_shows_all_witness :
  let lay := Layout 80 25 2 24 22 in let lines := replicate 30 (cs "row") in
  (pager (pager_visible lay) (pager_max lay 30) 0 [KEY_END; 113]).2 = true /\
  exists keys o row, last (pager (pager_visible lay) (pager_max lay 30) 0 keys).1 = Some o /\ (2 <= row < 23)%nat /\
    (row, screen_row 80 (cs "row")) ∈ pager_screen lay lines o.
Proof.
  intros lay lines. destruct (pager_shows_all lay lines) as (_ & Hq & Hl); [cbn; lia|reflexivity|].
  split; [apply Hq; right; left; left; reflexivity|]. apply (Hl 29%nat). reflexivity.
Defined.

(** The buffer of the pager has 512 lines: of a result of 508 rows or more the
    last lines are left out. *)
Example viewer_truncates cols r : length (viewer_lines cols (replicate 600 r)) = 512%nat.
Proof.
  unfold viewer_lines. set (ls := table_lines cols (replicate 600 r) ++ _). assert (512 <= length ls)%nat as Hl.
  { unfold ls, table_lines. rewrite !length_app, length_map, length_replicate. cbn [length]. lia. }
  clearbody ls. assert (forall ls acc, (length acc <= 512)%nat -> length (foldl viewer_add_line acc ls) = (512 `min` (length acc + length ls))%nat) as H.
  { clear. induction ls as [|l ls IH]; intros acc Ha; cbn [foldl length]; [lia|]. rewrite IH; unfold viewer_add_line, VIEWER_MAX_LINES;
      destruct (Nat.leb_spec 512 (length acc)); rewrite ?length_app; cbn [length]; lia. }
  rewrite H; cbn [length]; lia.
Qed.

(** The message of a GRANT, "Granted rights ...", is not among those shown in
    the colour of security operations. *)
Example grant_message_unstyled : mentions (cs "Granted rights 0x1 on object 3 to pid 2 (cap_id=9)") ["GRANT"; "grant"]%string = false.
Proof. reflexivity. Qed.
