(* ===== verification/Messages.v ===== *)
(** * Messages between processes (src/shell/shell_main.c, "msg" and "inbox")

    [msg] formats an INSERT into MessageTable, [inbox] a SELECT from it: this
    file parses both statements for arbitrary process ids and texts, and shows
    that what one process sends is what the other reads. *)

From Stdlib Require Import String Sorting.Sorted.
From stdpp Require Import gmap sets sorting.
From S2P Require Import Prelude CLib Errors Random Sha256 Hmac Aes Record Btree BtreeSpec Cap Database DatabaseSpec Printf Query QuerySpec QueryWrites Client Friendly FriendlySpec Stored.

(** ** Numbers *)

(** "%llu" *)
Definition num (v : Z) : list Z := print_num v 10 false false 0 32.

Lemma num_spec v : is_u64 v -> exists ds, num v = dec_chars ds /\ Forall is_digit ds /\ ds <> [] /\ dec_value ds = v /\ (length ds <= 20)%nat.
Proof.
  intros Hv. assert (0 <= v < 10 ^ Z.of_nat 20) as Hv20 by (change (10 ^ Z.of_nat 20) with 100000000000000000000; unfold is_word in Hv; lia).
  unfold num, print_num. cbn [andb]. rewrite andb_false_r. set (buf := if v =? 0 then [48] else _).
  rewrite (proj2 (Z.ltb_ge _ _)) by lia. cbn [Z.to_nat replicate app]. change (_ ++ _ ++ rev buf) with (rev buf).
  destruct (Z.eqb_spec v 0) as [->|Hne]; subst buf.
  - exists [0]. split_and!; [done|by repeat constructor|done|done|cbn; lia].
  - destruct (num_digits_dec 64 v) as (ds & E & Hd & Hval & Hn); [unfold is_word in Hv; lia|]. exists ds. rewrite E.
    split_and!; [done|done|apply Hn; lia|done|]. rewrite <- (length_map (fun d => 48 + d)). change (map _ ds) with (dec_chars ds). rewrite <- E, length_rev.
    by apply num_digits_length.
Qed.

Lemma num_all_digits v : is_u64 v -> Forall (fun c => isdigit c = true) (num v) /\ num v <> [] /\ (length (num v) <= 20)%nat.
Proof.
  intros Hv. destruct (num_spec v Hv) as (ds & -> & Hd & Hne & _ & Hl). unfold dec_chars. rewrite length_map. split_and!; [|by destruct ds|done].
  apply Forall_map. apply (Forall_impl _ _ _ Hd). intros d Hdd. unfold isdigit, is_digit in *. lia.
Qed.

Lemma strtou64_num v r : is_u64 v -> digit_value (chr r) = None -> strtou64 (num v ++ r) 10 = (v, r).
Proof.
  intros Hv Hr. destruct (num_spec v Hv) as (ds & -> & Hd & Hne & Hval & _). rewrite strtou64_dec; [|done|done|by rewrite Hr]. by rewrite Hval, wrap_small.
Qed.

Lemma token_number p sp v r :
  rest p = sp ++ num v ++ r -> sp = [] \/ sp = [32] -> is_u64 v -> isdigit (chr r) = false ->
  tok_type (next_token p) = TOK_NUMBER /\ tok_value (next_token p) = num v ++ [0] /\ rest (next_token p) = r.
Proof.
  intros E Hsp Hv Hr. destruct (num_all_digits v Hv) as (Hd & Hne & Hl).
  destruct (token p sp (num v ++ r) TOK_NUMBER (num v ++ [0]) (length (num v))) as [E1 R1]; [done|done| |by apply lex_number|].
  - right. destruct (num v) as [|c w]; [done|]. apply Forall_cons in Hd as [Hc _]. cbn. unfold isdigit, isspace in *. lia.
  - rewrite R1, E1. split; [done|]. split; [done|]. apply drop_app_length.
Qed.

(** ** The statements *)

Definition message_table : list Z := cs "MessageTable" ++ [0].

Definition send_text (src dst : Z) (text : list Z) : list Z :=
  cs "INSERT INTO MessageTable (src_pid, dst_pid, type, payload, delivered) VALUES (" ++ num src ++ cs ", " ++ num dst ++ cs ", 'user', '" ++ text ++ cs "', false)".

Definition inbox_text (pid : Z) : list Z := cs "SELECT * FROM " ++ cs "MessageTable" ++ cs " WHERE" ++ cs " dst_pid = " ++ num pid.

(** The names of a column list, with the parenthesis that ends it. *)
Fixpoint cols_text (n : list Z) (ns : list (list Z)) : list Z :=
  match ns with
  | [] => n ++ [41]
  | n' :: ns => n ++ 44 :: 32 :: cols_text n' ns
  end.

Section parsing.
Context (stack : nat -> nat -> list Z).

Fixpoint col_cells (i : nat) (ns : list (list Z)) : list (list Z) :=
  match ns with
  | [] => []
  | n :: ns => column_cells stack A_COL_NAME i (n ++ [0]) :: col_cells (S i) ns
  end.

Lemma columns_all ns : forall n room i p sp r,
  (length ns < room)%nat -> is_name n = true -> Forall (fun n => is_name n = true) ns ->
  rest p = sp ++ cols_text n ns ++ r -> sp = [] \/ sp = [32] ->
  exists p', insert_columns stack room i (next_token p) = (p', col_cells i (n :: ns)) /\ tok_type p' = TOK_RPAREN /\ rest p' = r.
Proof.
  induction ns as [|n' ns IH]; intros n room i p sp r Hl Hn Hns Hr Hsp; (destruct room as [|room]; [cbn in Hl; lia|]); cbn [cols_text] in Hr.
  - rewrite <- app_assoc in Hr. destruct (token_name p sp n _ Hn Hr Hsp) as (T & V & R); [done|].
    destruct (columns_step stack room i (next_token p) n 41 r TOK_RPAREN T V R) as (R1 & T1 & ->); [by right; right; left|].
    rewrite bool_decide_false by done. by exists (next_token (next_token p)).
  - rewrite <- app_assoc in Hr. destruct (token_name p sp n _ Hn Hr Hsp) as (T & V & R); [done|]. apply Forall_cons in Hns as [Hn' Hns].
    destruct (columns_step stack room i (next_token p) n 44 (32 :: cols_text n' ns ++ r) TOK_COMMA T V R) as (R1 & T1 & ->); [by left|].
    rewrite bool_decide_true by done.
    destruct (IH n' room (S i) (next_token (next_token p)) [32] r) as (p' & -> & T' & R'); [cbn in Hl; lia|done|done|by rewrite R1|by right|].
    by exists p'.
Qed.

Definition message_names : list (list Z) := map cs ["src_pid"; "dst_pid"; "type"; "payload"; "delivered"]%string.

Lemma send_text_parse src dst text : is_u64 src ->
  exists p, insert_query stack (send_text src dst text) = Some (message_table, col_cells 0 message_names, p) /\
    tok_type p = TOK_NUMBER /\ tok_value p = num src ++ [0] /\
    rest p = cs ", " ++ num dst ++ cs ", 'user', '" ++ text ++ cs "', false)".
Proof.
  intros Hs. set (tail := num src ++ cs ", " ++ num dst ++ cs ", 'user', '" ++ text ++ cs "', false)"). unfold insert_query.
  set (p0 := Parser _ _ _ _). set (names := cols_text (cs "src_pid") (tl message_names)).
  destruct (token_keyword p0 [] "INSERT" (cs " INTO MessageTable (" ++ names ++ cs " VALUES (" ++ tail) TOK_INSERT) as [T1 R1];
    [done|by left|by vm_compute|done|].
  rewrite (expect_tok _ _ T1).
  destruct (token_keyword (next_token p0) [32] "INTO" (cs " MessageTable (" ++ names ++ cs " VALUES (" ++ tail) TOK_INTO) as [T2 R2];
    [by rewrite R1|by right|by vm_compute|done|].
  rewrite (expect_tok _ _ T2). set (p2 := next_token (next_token p0)) in *. clearbody p2.
  destruct (token_name p2 [32] (cs "MessageTable") (cs " (" ++ names ++ cs " VALUES (" ++ tail)) as (T3 & V3 & R3);
    [by vm_compute|by rewrite R2|by right|done|].
  rewrite (is_tok_eq _ _ _ T3), bool_decide_true, V3 by done. cbn [negb]. set (p3 := next_token p2) in *. clearbody p3.
  destruct (token_punct p3 [32] 40 (names ++ cs " VALUES (" ++ tail) TOK_LPAREN) as [T4 R4]; [by rewrite R3|by right|by right; left|].
  rewrite (expect_tok _ _ T4). set (p4 := next_token p3) in *. clearbody p4.
  destruct (columns_all (tl message_names) (cs "src_pid") MAX_INSERT_VALS 0 p4 [] (cs " VALUES (" ++ tail)) as (p5 & E5 & T5 & R5);
    [apply Nat.ltb_lt; reflexivity|by vm_compute|by repeat constructor|by rewrite R4|by left|].
  rewrite E5. rewrite (expect_tok _ _ T5).
  destruct (token_keyword p5 [32] "VALUES" (cs " (" ++ tail) TOK_VALUES) as [T6 R6]; [by rewrite R5|by right|by vm_compute|done|].
  rewrite (expect_tok _ _ T6).
  destruct (token_punct (next_token p5) [32] 40 tail TOK_LPAREN) as [T7 R7]; [by rewrite R6|by right|by right; left|].
  rewrite (expect_tok _ _ T7). eexists. split; [reflexivity|]. by apply (token_number _ [] src); [rewrite R7|left| |].
Qed.

Definition pid_cond (pid : Z) : where_cond := Cond (column_cells stack A_COND_COLUMN 0 (cs "dst_pid" ++ [0])) CMP_EQ (FU64 pid).

Lemma inbox_text_parse pid : is_u64 pid -> select_query stack (inbox_text pid) = Some (message_table, [pid_cond pid]).
Proof.
  intros Hp. destruct (select_where stack (cs "MessageTable") (cs " dst_pid = " ++ num pid)) as (p & T & R & E); [by vm_compute|by lit|].
  unfold inbox_text. rewrite E. do 2 f_equal. unfold parse_where. rewrite (is_tok_eq p _ _ T), bool_decide_true by done. cbn [negb].
  destruct (token_name p [32] (cs "dst_pid") (cs " = " ++ num pid)) as (T1 & V1 & R1); [by vm_compute|by rewrite R|by right|done|].
  change MAX_WHERE_CONDS with (S 7). cbn [where_loop]. rewrite (is_tok_eq _ _ _ T1), bool_decide_true, V1 by done. cbn [negb].
  destruct (token_punct (next_token p) [32] 61 ([32] ++ num pid) TOK_EQ) as [T2 R2]; [by rewrite R1|by right|by right; right; right; left|].
  unfold parse_op. rewrite T2. set (p2 := next_token (next_token p)) in *.
  destruct (token_number p2 [32] pid []) as (T3 & V3 & R3); [by rewrite R2, app_nil_r|by right|done|done|].
  unfold parse_value. rewrite T3, V3, strtou64_num by done. cbn [fst].
  by rewrite (is_tok_eq _ _ _ (token_end (next_token p2) [] R3 eq_refl)), bool_decide_false.
Qed.
End parsing.

(** ** The row of a message *)

Definition message_schema : table_schema :=
  let s := nth 4 system_schemas show_schema in Schema (sch_name s) 4 (columns s) (encrypted s) (system_table s).

Definition message_values (rid src dst : Z) (text : list Z) : record :=
  record_set_str (record_set_str (record_set_u64 (record_set_u64 (blank_record message_schema rid) 1 src) 2 dst) 3 (cs "user" ++ [0])) 4 (text ++ [0]).

Definition message_row (rid src dst : Z) (text : list Z) (pid now : Z) : record :=
  fill_columns message_schema (message_values rid src dst text) pid now.

Lemma message_row_fields rid src dst text pid now :
  let rec := message_row rid src dst text pid now in
  row_id rec = rid /\ field rec 0 = FU64 rid /\ field rec 1 = FU64 src /\ field rec 2 = FU64 dst /\
  field rec 3 = str_field (cs "user" ++ [0]) /\ field rec 4 = str_field (text ++ [0]).
Proof.
  unfold message_row, message_values, record_set_str. generalize (str_field (cs "user" ++ [0])) (str_field (text ++ [0])).
  intros f3 f4. vm_compute. by split_and!.
Qed.

Section rows.
Context (stack : nat -> nat -> list Z).

Lemma number_step sch name names rec p v r ci c :
  tok_type p = TOK_NUMBER -> tok_value p = num v ++ [0] -> rest p = 44 :: r -> is_u64 v ->
  find_column_index sch name = Some ci -> columns sch !! ci = Some c -> col_type c = COL_U64 ->
  rest (next_token p) = r /\
  insert_values sch (name :: names) rec p = insert_values sch names (record_set_u64 rec ci v) (next_token (next_token p)).
Proof.
  intros Ht Hv Hr Hu Hc Hcol Hty. destruct (token_punct p [] 44 r TOK_COMMA Hr) as [T R]; [by left|by left|]. split; [done|].
  cbn [insert_values]. rewrite !(is_tok_eq p _ _ Ht), !bool_decide_false by done. cbn [orb]. rewrite Hc. unfold set_value.
  rewrite Ht, Hv, strtou64_num, Hcol, Hty by done. by rewrite (is_tok_eq _ _ _ T), bool_decide_true.
Qed.

Lemma send_text_values rid p src dst text :
  tok_type p = TOK_NUMBER -> tok_value p = num src ++ [0] -> rest p = cs ", " ++ num dst ++ cs ", 'user', '" ++ text ++ cs "', false)" ->
  is_u64 src -> is_u64 dst -> literal text ->
  insert_values message_schema (col_cells stack 0 message_names) (blank_record message_schema rid) p = Some (message_values rid src dst text).
Proof.
  intros Ht Hv Hr Hs Hd Hl. unfold message_names. cbn [map col_cells].
  assert (forall i s, forallb string_char (cs s) && (length (cs s) <? 60)%nat = true ->
    find_column_index message_schema (column_cells stack A_COL_NAME i (cs s ++ [0])) = find_column_index message_schema (cs s)) as Hf
    by (intros i s [H1 H2]%short_word_literal; by apply column_cells_find).
  destruct (number_step message_schema (column_cells stack A_COL_NAME 0 (cs "src_pid" ++ [0]))
    [column_cells stack A_COL_NAME 1 (cs "dst_pid" ++ [0]); column_cells stack A_COL_NAME 2 (cs "type" ++ [0]); column_cells stack A_COL_NAME 3 (cs "payload" ++ [0]); column_cells stack A_COL_NAME 4 (cs "delivered" ++ [0])]
    (blank_record message_schema rid) p src ([32] ++ num dst ++ cs ", 'user', '" ++ text ++ cs "', false)") 1 (nth 1 (columns message_schema) (nth 0 (columns message_schema) (col "" COL_U64 true true))) Ht Hv Hr Hs) as [R1 ->];
    [by rewrite Hf|done|done|].
  destruct (token_number (next_token p) [32] dst (cs ", 'user', '" ++ text ++ cs "', false)")) as (T2 & V2 & R2); [by rewrite R1|by right|done|done|].
  set (p2 := next_token (next_token p)) in *. clearbody p2.
  destruct (number_step message_schema (column_cells stack A_COL_NAME 1 (cs "dst_pid" ++ [0]))
    [column_cells stack A_COL_NAME 2 (cs "type" ++ [0]); column_cells stack A_COL_NAME 3 (cs "payload" ++ [0]); column_cells stack A_COL_NAME 4 (cs "delivered" ++ [0])]
    (record_set_u64 (blank_record message_schema rid) 1 src) p2 dst ([32] ++ 39 :: cs "user" ++ 39 :: cs ", '" ++ text ++ cs "', false)") 2 (nth 2 (columns message_schema) (nth 0 (columns message_schema) (col "" COL_U64 true true))) T2 V2 R2 Hd) as [R3 ->];
    [by rewrite Hf|done|done|].
  destruct (token_string (next_token p2) [32] (cs "user") (cs ", '" ++ text ++ cs "', false)")) as (T4 & V4 & R4); [by rewrite R3|by right|by apply word_literal|].
  set (p4 := next_token (next_token p2)) in *. clearbody p4.
  destruct (values_step message_schema (column_cells stack A_COL_NAME 2 (cs "type" ++ [0])) [column_cells stack A_COL_NAME 3 (cs "payload" ++ [0]); column_cells stack A_COL_NAME 4 (cs "delivered" ++ [0])]
    (record_set_u64 (record_set_u64 (blank_record message_schema rid) 1 src) 2 dst) p4 (cs "user") 44 ([32] ++ 39 :: text ++ 39 :: cs ", false)") TOK_COMMA 3 T4 V4 R4) as [R5 ->];
    [by left|by rewrite Hf|]. rewrite bool_decide_true by done.
  destruct (token_string (next_token p4) [32] text (cs ", false)")) as (T6 & V6 & R6); [by rewrite R5|by right|done|].
  set (p6 := next_token (next_token p4)) in *. clearbody p6.
  destruct (values_step message_schema (column_cells stack A_COL_NAME 3 (cs "payload" ++ [0])) [column_cells stack A_COL_NAME 4 (cs "delivered" ++ [0])]
    (record_set_str (record_set_u64 (record_set_u64 (blank_record message_schema rid) 1 src) 2 dst) 3 (cs "user" ++ [0])) p6 text 44 (cs " false)") TOK_COMMA 4 T6 V6 R6) as [R7 ->];
    [by left|by rewrite Hf|]. rewrite bool_decide_true by done.
  destruct (token_name (next_token p6) [32] (cs "false") [41]) as (T8 & _ & _); [by vm_compute|by rewrite R7|by right|done|].
  cbn [insert_values]. rewrite !(is_tok_eq _ _ _ T8), !bool_decide_false by done. cbn [orb]. rewrite Hf by done. unfold set_value. by rewrite T8.
Qed.
End rows.

(** ** The formats *)

Lemma convert_string s args : convert 115 0 0 32 (txt s :: args) = Some (cstr s, args).
Proof. unfold convert, txt. cbv zeta. by rewrite (proj2 (Z.ltb_ge (Z.of_nat (length (cstr s))) 0)) by lia. Qed.

Lemma loop_string fuel fmt s args : kvprintf_loop (S fuel) (37 :: 115 :: fmt) (txt s :: args) = app (cstr s) <$> kvprintf_loop fuel fmt args.
Proof.
  change (kvprintf_loop (S fuel) (37 :: 115 :: fmt) (txt s :: args)) with
    (match convert 115 0 0 32 (txt s :: args) with Some (o, rest) => app o <$> kvprintf_loop fuel fmt rest | None => None end).
  by rewrite convert_string.
Qed.

Lemma loop_number fuel fmt v args : kvprintf_loop (S fuel) (37 :: 108 :: 108 :: 117 :: fmt) (AInt v :: args) = app (num v) <$> kvprintf_loop fuel fmt args.
Proof. reflexivity. Qed.

Lemma loop_text w : forallb (fun c => negb (c =? 0) && negb (c =? 37)) w = true -> forall fuel fmt args,
  kvprintf_loop (length w + fuel) (w ++ fmt) args = app w <$> kvprintf_loop fuel fmt args.
Proof.
  induction w as [|c w IH]; intros Hw fuel fmt args; cbn [length app Nat.add]; [by destruct (kvprintf_loop _ _ _)|].
  cbn [forallb] in Hw. apply andb_true_iff in Hw as [[H0 H37]%andb_true_iff Hw]. cbn [kvprintf_loop chr hd next tl].
  destruct (c =? 0); [done|]. destruct (c =? 37); [done|]. cbn [negb]. rewrite IH by done. by destruct (kvprintf_loop _ _ _).
Qed.

Lemma format_send src dst text :
  kvprintf_chars (cs "INSERT INTO MessageTable (src_pid, dst_pid, type, payload, delivered) VALUES (%llu, %llu, 'user', '%s', false)")
    [AInt src; AInt dst; txt text] = Some (send_text src dst (cstr text)).
Proof.
  set (w1 := cs "INSERT INTO MessageTable (src_pid, dst_pid, type, payload, delivered) VALUES ("). set (w2 := cs ", "). set (w3 := cs ", 'user', '"). set (w4 := cs "', false)").
  change (kvprintf_chars _ _) with (kvprintf_loop (length w1 + S (length w2 + S (length w3 + S (length w4 + 9))))
    (w1 ++ 37 :: 108 :: 108 :: 117 :: w2 ++ 37 :: 108 :: 108 :: 117 :: w3 ++ 37 :: 115 :: w4 ++ []) [AInt src; AInt dst; txt text]).
  rewrite loop_text, loop_number, loop_text, loop_number, loop_text, loop_string, loop_text by reflexivity. reflexivity.
Qed.

Lemma format_inbox pid : kvprintf_chars (cs "SELECT * FROM MessageTable WHERE dst_pid = %llu") [AInt pid] = Some (inbox_text pid).
Proof.
  set (w1 := cs "SELECT * FROM MessageTable WHERE dst_pid = ").
  change (kvprintf_chars _ _) with (kvprintf_loop (length w1 + S 4) (w1 ++ 37 :: 108 :: 108 :: 117 :: []) [AInt pid]).
  rewrite loop_text, loop_number by reflexivity. cbn [fmap option_fmap option_map kvprintf_loop chr hd Z.eqb]. by rewrite app_nil_r.
Qed.

Lemma print_to_chars sql fmt args out q :
  kvprintf_chars (cs fmt) args = Some out -> Forall (fun c => c <> 0) out -> (length out < length sql)%nat -> Z.of_nat (length sql) < 2 ^ 63 ->
  exists sql', print_to sql fmt args q = Done (q, sql') /\ cstr sql' = out.
Proof.
  intros E Hz Hl H63. unfold print_to. erewrite snprintf_bounded; [|lia|lia| |exact E]; [|lia].
  eexists. split; [reflexivity|]. rewrite take_ge by lia. by apply cstr_blit_text.
Qed.

(** ** Sending and reading *)

#[local] Opaque query_execute message_row send_text inbox_text message_schema global_row_id.

(** The rows that pass a test, up to order. *)
#[export] Instance filter_perm {A} (f : A -> bool) : Proper ((≡ₚ) ==> (≡ₚ)) (List.filter f).
Proof. induction 1; cbn; [done| |repeat case_match; done || constructor|by etransitivity]. by case_match; [constructor|]. Qed.

Section mail.
Context `{Hw, AesNi, !HwLaws, !AesNiLaws}.
Context (mem : nat -> nat -> bool) (clock : nat -> Z) (stack : nat -> nat -> list Z).
Context (Hmem : forall n m, mem n m = true) (Hclock : forall n, is_u64 (clock n)).

#[local] Abbreviation execute := (query_execute mem clock stack).

(** The message table and the audit log of a state, with their content. *)
Record mailbox (q : q_state) (t a : db_table) (content log : gmap Z record) : Prop := Mailbox {
  mb_ok : db_ok (q_db q);
  mb_named : db_get_schema (q_db q) message_table = Some 4%nat;
  mb_at : tables (q_db q) !! 4%nat = Some t;
  mb_schema : schema t = message_schema;
  mb_audit : tables (q_db q) !! TABLE_ID_AUDIT = Some a;
  mb_content : table_is 4 t content;
  mb_log : table_is TABLE_ID_AUDIT a log
}.

Lemma send_message q t a content log src dst text :
  mailbox q t a content log -> is_u64 src -> is_u64 dst -> bytes (send_text src dst text) -> literal text ->
  let rid := global_row_id (q_db q) in
  room_for 1 (index t) rid -> room_for 1 (index a) (u64 (rid + 1)) ->
  exists q' r t' a' log', execute (send_text src dst text) src q = Done (q', Some r) /\ error_code r = VOS_OK /\
    mailbox q' t' a' (<[rid := message_row rid src dst text src (clock (q_calls q))]> content) log' /\ q_caps q' = q_caps q.
Proof.
  intros [J1 J2 J3 J4 J5 J6 J7] Hs Hd Hb Hl. cbv zeta. intros R1 R2.
  destruct (send_text_parse stack src dst text Hs) as (p & Eq & Tp & Vp & Rp).
  assert (sch_table_id (schema t) = Z.of_nat 4 /\ (length (columns (schema t)) <= 15)%nat) as [Hid Hcols]
    by (rewrite J4; split; [done|apply Nat.leb_le; reflexivity]).
  pose proof (insert_statement mem clock stack Hmem Hclock (send_text src dst text) src q message_table (col_cells stack 0 message_names) p 4 t content a log
    Hb Hs J1 Eq J2 J3 Hid Hcols J5 ltac:(discriminate) ltac:(lia) J6 J7 R1 R2) as Hst.
  cbv zeta in Hst. rewrite J4, (send_text_values stack _ p src dst text Tp Vp Rp Hs Hd Hl) in Hst.
  destruct Hst as (q' & r & i & v & i' & v' & now & _ & _ & Ex & Er & Et & Hc & Ha & Hok & Hcap & _).
  exists q', r, (set_index t i), (set_index a i'). eexists. split; [exact Ex|]. split; [exact Er|]. split; [|exact Hcap].
  assert (<[4%nat := set_index t i]> (tables (q_db q)) !! TABLE_ID_AUDIT = Some a) as J5' by (by rewrite list_lookup_insert_ne).
  pose proof (lookup_lt_Some _ _ _ J3). pose proof (lookup_lt_Some _ _ _ J5).
  constructor; [exact Hok| |rewrite Et, list_lookup_insert_ne, list_lookup_insert_eq by done; done|exact J4| |exact Hc|exact Ha].
  - rewrite <- J2. unfold db_get_schema. apply find_schema_same. rewrite Et.
    rewrite (map_schema_insert _ _ a) by done. by apply (map_schema_insert _ _ t).
  - rewrite Et. by rewrite list_lookup_insert_eq by (by rewrite length_insert).
Qed.

(** The messages of a process. *)
Definition addressed_to (pid : Z) (row : record) : bool := match field row 2 with FU64 dst => dst =? pid | _ => false end.

Lemma matches_addressed pid row : record_matches row message_schema [pid_cond stack pid] = addressed_to pid row.
Proof.
  unfold pid_cond. cbn [record_matches cond_column]. 
  destruct (short_word_literal "dst_pid" eq_refl) as [L1 L2]. rewrite (column_cells_find stack message_schema A_COND_COLUMN 0 (cs "dst_pid") L1 L2).
  change (find_column_index message_schema (cs "dst_pid")) with (Some 2%nat). cbn [cond_op cond_value]. unfold addressed_to.
  destruct (field row 2); cbn [match_field compare_with]; [|done..]. by destruct (_ =? pid).
Qed.

(** What is in the mailbox of a process, for a content of the table. *)
Definition mail_of (pid : Z) (content : gmap Z record) : list record := List.filter (addressed_to pid) (map_to_list content).*2.

Lemma read_inbox q t a content log pid caller : mailbox q t a content log -> is_u64 pid ->
  exists q' r, execute (inbox_text pid) caller q = Done (q', Some r) /\ error_code r = VOS_OK /\
    rows r ≡ₚ mail_of pid content /\ tables (q_db q') = tables (q_db q).
Proof.
  intros [J1 J2 J3 J4 J5 J6 J7] Hp.
  destruct (select_statement mem clock stack (inbox_text pid) caller q message_table [pid_cond stack pid] 4 t content
    Hmem J1 J3 ltac:(by rewrite J4) (proj1 J6) (inbox_text_parse stack pid Hp) J2) as (q' & r & l & Ex & Er & _ & Erows & _ & Pl & Et & _).
  exists q', r. split; [exact Ex|]. split; [exact Er|]. split; [|exact Et]. rewrite Erows, J4. unfold matching, mail_of. rewrite Pl.
  erewrite filter_ext; [reflexivity|]. intros row. apply matches_addressed.
Qed.

(** A message arrives in the mailbox of its receiver and in no other. *)
Lemma mail_of_insert pid rid src dst text caller now content : content !! rid = None ->
  let row := message_row rid src dst text caller now in
  mail_of pid (<[rid := row]> content) ≡ₚ (if dst =? pid then [row] else []) ++ mail_of pid content.
Proof.
  intros Hn row. unfold mail_of. rewrite map_to_list_insert by done. cbn [fmap list_fmap snd List.filter].
  assert (addressed_to pid row = (dst =? pid)) as ->
    by (unfold addressed_to, row; by destruct (message_row_fields rid src dst text caller now) as (_ & _ & _ & -> & _)).
  by destruct (dst =? pid).
Qed.
End mail.
