(* ===== verification/Shell.v ===== *)
(** * The shell (src/shell/shell_main.c)

    One line or function key at a time: the built-in commands, the commands on
    scripts and processes, messages, and everything else as a query.  The
    state is that of the database and the capabilities with the scheduler and
    the heap; the console is the list of what was sent to it, as for scripts.
    [r] holds the clock and the heap's figures; [EnterGui] hands over to the
    desktop. *)

From Stdlib Require Import String.
From S2P Require Import LineEditor Tui.
From S2P Require Import Prelude CLib Errors Random Aes Record Btree Cap Database Printf Heap Klist Sched Query Client Keyboard Friendly Script.

Record shell := Shell { sh_q : q_state; sh_sched : sched; sh_heap : heap_state }.

Inductive answer := Prompt | EnterGui.

Definition machine_of (s : shell) : machine := Machine (sh_sched s) (sh_heap s) (q_caps (sh_q s)).

Definition with_machine (s : shell) (k : machine) : shell :=
  Shell (Q (q_db (sh_q s)) (m_caps k) (q_calls (sh_q s))) (m_sched k) (m_heap k).

(** [process_get_current()->pid], 0 without a process. *)
Definition my_pid (s : shell) : Z :=
  match process_get_current (sh_sched s) with Some i => p_pid (proc (sh_sched s) i) | None => 0 end.

(** ** Text *)

Definition heading (s : string) : IO unit :=
  fb_set_color COLOR_VOS_HL COLOR_VOS_BG ;+ kprintf (endl s) [] ;+ fb_set_color COLOR_VOS_FG COLOR_VOS_BG.

(** A line in a colour. *)
Definition notice (color : Z) (fmt : string) (args : list varg) : IO unit :=
  fb_set_color color COLOR_VOS_BG ;+ kprintf (endl fmt) args ;+ fb_set_color COLOR_VOS_FG COLOR_VOS_BG.

Definition print_in (color : Z) (fmt : list Z) (args : list varg) : IO unit :=
  fb_set_color color COLOR_VOS_BG ;+ kprintf fmt args.

Fixpoint print_each (l : list string) : IO unit :=
  match l with
  | [] => pure tt
  | s :: l => kprintf (endl s) [] ;+ print_each l
  end.

Fixpoint line_of (n : nat) : IO unit :=
  match n with
  | O => kprintf [10] []
  | S n => kprintf [0xC4] [] ;+ line_of n
  end.

Definition help_sections : list (string * list string) := [
  ("  Quick Commands", [
    "  tables                          List all tables";
    "  show <table>                    View all rows";
    "  info <table>                    Show table structure";
    "  find <table> col=value          Search rows";
    "  add <table> col=val col=val     Insert a row";
    "  del <table> col=value           Delete matching rows";
    "  set <table> col=val where k=v   Update rows";
    "  count <table>                   Count rows"]);
  ("  Objects", [
    "  create <type> <name> [content]  Create an object";
    "  open <name>                     View an object";
    "  list [type]                     List objects";
    "  rm <name>                       Delete an object";
    "  cat <name>                      Display object/script"]);
  ("  Scripts", [
    "  save <name>                     Record a script";
    "  run <name>                      Execute a script";
    "  scripts                         List all scripts"]);
  ("  Processes", [
    "  ps                              List processes";
    "  spawn <program>                 Launch a process";
    "  kill <pid>                      Terminate a process";
    "  msg <pid> <text>                Send a message";
    "  inbox                           View received messages"]);
  ("  Table Aliases", [
    "  procs=ProcessTable  caps=CapabilityTable  objects=ObjectTable";
    "  msgs=MessageTable   audit=AuditTable      sys=SystemTable"]);
  ("  SQL Commands", [
    "  SELECT * FROM <table> [WHERE ...]     Query data";
    "  INSERT INTO <table> (cols) VALUES ...  Insert data";
    "  DELETE FROM <table> [WHERE ...]        Delete data";
    "  UPDATE <table> SET col=val [WHERE ...] Update data";
    "  GRANT <rights> ON <obj> TO <pid>       Grant capability";
    "  REVOKE <cap_id>                        Revoke capability"]);
  ("  Editing", [
    "  Left/Right   Move cursor         Up/Down   Command history";
    "  Home/End     Jump to start/end   Tab       Auto-complete";
    "  Escape       Clear line           Ctrl+L   Clear screen"]);
  ("  GUI Mode", [
    "  GUI                                   Launch graphical desktop"])]%string.

Fixpoint print_sections (l : list (string * list string)) : IO unit :=
  match l with
  | [] => pure tt
  | (title, texts) :: l => heading title ;+ print_each texts ;+ kprintf [10] [] ;+ print_sections l
  end.

Definition cmd_help : IO unit := kprintf [10] [] ;+ print_sections help_sections.

(** [while ( *s == ' ') s++] *)
Fixpoint past_spaces (s : list Z) : list Z :=
  match s with
  | 32 :: s => past_spaces s
  | _ => s
  end.

(** The digits as a 64-bit number, and what follows. *)
Fixpoint read_pid (s : list Z) (v : Z) : Z * list Z :=
  match s with
  | c :: s' => if (48 <=? c) && (c <=? 57) then read_pid s' (u64 (v * 10 + (c - 48))) else (v, s)
  | [] => (v, [])
  end.

(** The digits as an [int]; [None]: the value overflows. *)
Fixpoint read_int (s : list Z) (v : Z) : option Z :=
  match s with
  | c :: s' => if (48 <=? c) && (c <=? 57)
               then let v := v * 10 + (c - 48) in if v <? 2 ^ 31 then read_int s' v else None
               else Some v
  | [] => Some v
  end.

Section shell.
Context `{Hw, AesNi}.
Context (mem : nat -> nat -> bool) (clock : nat -> Z) (stack : nat -> nat -> list Z).
Context (sql0 buf0 : list Z) (data_of : field_value -> list Z) (num_of : field_value -> Z).
Context (pml4 now : Z) (monitor_entry_addr script_entry_addr : Z).

#[local] Abbreviation execute := (execute mem clock stack).

Definition get_state : IO q_state := fun q o => Done (q, o, q).

(** ** Queries *)

Definition handle_query (line : list Z) (pid : Z) : IO unit :=
  let+ result := execute line pid in emit (Shown result).

(** One round of the monitor process; it then waits five seconds. *)
Definition monitor_round (r : readings) (pid : Z) : IO unit :=
  let+ sql := sprint sql0 "INSERT INTO AuditTable (event, actor_pid, detail) VALUES ('monitor', %llu, 'up=%llus heap=%llu/%llu')"
    [AInt pid; AInt (uptime_ms r / 1000); AInt (used_mem r); AInt (u64 (used_mem r + free_mem r))] in
  execute sql pid ;+ pure tt.

Definition cmd_status (r : readings) : IO unit :=
  kprintf [10] [] ;+ heading "  VaultOS System Status" ;+
  kprintf (endl "  Uptime:    %llu.%llus") [AInt (uptime_ms r / 1000); AInt (uptime_ms r mod 1000 / 100)] ;+
  kprintf (endl "  Heap used: %llu bytes") [AInt (used_mem r)] ;+
  kprintf (endl "  Heap free: %llu bytes") [AInt (free_mem r)] ;+
  let+ q := get_state in
  kprintf (endl "  Tables:    %u" ++ [10]) [AInt (Z.of_nat (db_get_table_count (q_db q)))].

(** The names of the tables; the format has no left-justified field. *)
Fixpoint print_sealed (ids : list nat) : IO unit :=
  match ids with
  | [] => pure tt
  | i :: ids =>
      let+ q := get_state in
      match db_get_schema_by_id (q_db q) i with
      | None => print_sealed ids
      | Some s =>
          print_in COLOR_VOS_FG (cs "    %-20s ") [txt (sch_name s)] ;+
          print_in COLOR_GREEN (endl "SEALED") [] ;+
          print_sealed ids
      end
  end.

Definition cmd_security (pid : Z) : IO unit :=
  kprintf [10] [] ;+
  print_in COLOR_VOS_HL (endl "  VaultOS Security Status") [] ;+
  print_in COLOR_GRAY (cs "  ") [] ;+ line_of 40 ;+
  print_in COLOR_VOS_FG (cs "  Encryption:     ") [] ;+ print_in COLOR_GREEN (endl "AES-128-CBC (all tables)") [] ;+
  print_in COLOR_VOS_FG (cs "  Key Derivation: ") [] ;+ print_in COLOR_GREEN (endl "HMAC-SHA256 (domain-separated)") [] ;+
  print_in COLOR_VOS_FG (cs "  RNG Source:     ") [] ;+
  let+ q := get_state in
  (if random_hw_available (gen (q_db q)) then print_in COLOR_GREEN (endl "Hardware (RDRAND)") []
   else print_in COLOR_YELLOW (endl "Software (xorshift128+ / RDTSC)") []) ;+
  print_in COLOR_VOS_FG (cs "  Capabilities:   ") [] ;+
  print_in COLOR_VOS_HL (endl "%llu active tokens") [AInt (cap_table_count (q_caps q))] ;+
  let+ ar := execute (cs "SELECT * FROM AuditTable") pid in
  let audit_count := match ar with Some ar => row_count ar | None => 0%nat end in
  print_in COLOR_VOS_FG (cs "  Audit Events:   ") [] ;+
  print_in COLOR_VOS_HL (endl "%u logged") [AInt (Z.of_nat audit_count)] ;+
  kprintf [10] [] ;+
  print_in COLOR_VOS_HL (endl "  Table Encryption") [] ;+
  print_in COLOR_GRAY (cs "  ") [] ;+ line_of 40 ;+
  let+ q := get_state in
  print_sealed (seq 0 (db_get_table_count (q_db q))) ;+
  print_in COLOR_VOS_FG [10] [].

(** ** The audit log *)

Definition starts_with (s : list Z) (w : string) : bool := strncasecmp s (cs w) (length (cs w)) =? 0.

Definition action_color (action : list Z) : Z :=
  if starts_with action "GRANT" || starts_with action "REVOKE" then COLOR_VOS_HL
  else if starts_with action "monitor" then COLOR_GRAY
  else if starts_with action "ERROR" || starts_with action "FAIL" then COLOR_RED
  else if starts_with action "INSERT" || starts_with action "DELETE" || starts_with action "UPDATE" then COLOR_CYAN
  else COLOR_VOS_FG.

Fixpoint print_events (l : list record) : IO unit :=
  match l with
  | [] => pure tt
  | row :: l =>
      let secs := u64_data num_of row 1 / 1000 in
      let action := str_data data_of row 3 in
      print_in COLOR_GRAY (cs "  [%02llu:%02llu] ") [AInt (secs / 60); AInt (secs mod 60)] ;+
      print_in (action_color action) (cs "%-10s ") [txt action] ;+
      print_in COLOR_CYAN (cs "PID:%llu ") [AInt (u64_data num_of row 2)] ;+
      print_in COLOR_VOS_FG (endl "%s") [txt (str_data data_of row 5)] ;+
      print_events l
  end.

(** The last [limit] entries. *)
Definition last_rows (limit : nat) (l : list record) : list record := drop (length l - limit) l.

Definition cmd_audit (limit : nat) (pid : Z) : IO unit :=
  let+ ar := execute (cs "SELECT * FROM AuditTable") pid in
  match ar with
  | None => kprintf (endl "  No audit events recorded.") []
  | Some ar =>
      let n := row_count ar in
      if (n =? 0)%nat then kprintf (endl "  No audit events recorded.") []
      else
        kprintf [10] [] ;+
        print_in COLOR_VOS_HL (cs "  Audit Log") [] ;+
        print_in COLOR_GRAY (endl " (last %u of %u events)") [AInt (Z.of_nat (if (n <? limit)%nat then n else limit)); AInt (Z.of_nat n)] ;+
        kprintf (cs "  ") [] ;+ line_of 50 ;+
        print_events (last_rows limit (rows ar)) ;+
        print_in COLOR_VOS_FG [10] []
  end.

(** ** Banner and prompt *)

Definition print_banner : IO unit :=
  let+ q := get_state in
  let hw := random_hw_available (gen (q_db q)) in
  print_in COLOR_VOS_HL [10] [] ;+
  kprintf (endl "  \    /  /\  | | |  |_ /\  /__ ") [] ;+
  kprintf (endl "   \  /  /--\ | | |  |  /--\ __/ ") [] ;+
  kprintf (endl "    \/                            ") [] ;+
  kprintf [10] [] ;+
  print_in COLOR_CYAN (cs "  " ++ [34] ++ cs "Everything is a database. All data is confidential." ++ [34; 10]) [] ;+
  print_in COLOR_GRAY (endl "  Type HELP or press F1 for commands. Tab for auto-complete.") [] ;+
  kprintf (10 :: cs "  ") [] ;+ line_of 48 ;+
  print_in COLOR_VOS_FG (cs "  %u tables encrypted") [AInt (Z.of_nat (db_get_table_count (q_db q)))] ;+
  print_in COLOR_GRAY [32; 0xB3; 32] [] ;+
  print_in (if hw then COLOR_GREEN else COLOR_YELLOW) (cs "RNG: %s") [txt (cs (if hw then "Hardware" else "Software"))] ;+
  print_in COLOR_GRAY [32; 0xB3; 32] [] ;+
  print_in COLOR_VOS_FG (endl "Caps: %llu" ++ [10]) [AInt (cap_table_count (q_caps q))] ;+
  fb_set_color COLOR_VOS_FG COLOR_VOS_BG.

Definition print_prompt (pid : Z) : IO unit :=
  print_in COLOR_VOS_HL (cs "vaultos") [] ;+
  print_in COLOR_GRAY (cs "[") [] ;+
  print_in COLOR_CYAN (cs "%llu") [AInt pid] ;+
  print_in COLOR_GRAY (cs "]> ") [] ;+
  fb_set_color COLOR_VOS_FG COLOR_VOS_BG.

(** ** Commands on the database *)

Definition msg_usage : IO unit := kprintf (endl "  Usage: msg <pid> <text>") [].

Definition msg_send (dst_pid : Z) (text : list Z) (src_pid : Z) : IO unit :=
  let+ sql := sprint sql0 "INSERT INTO MessageTable (src_pid, dst_pid, type, payload, delivered) VALUES (%llu, %llu, 'user', '%s', false)"
    [AInt src_pid; AInt dst_pid; txt text] in
  let+ r := execute sql src_pid in
  match r with
  | Some r => if error_code r =? 0 then notice COLOR_VOS_HL "  Message sent to PID %llu" [AInt dst_pid]
              else notice COLOR_RED "  Failed to send message" []
  | None => notice COLOR_RED "  Failed to send message" []
  end.

Definition cmd_msg (rest : list Z) (pid : Z) : IO unit :=
  let '(dst_pid, s) := read_pid (past_spaces rest) 0 in
  let s := past_spaces s in
  if (dst_pid =? 0) || (chr s =? 0) then msg_usage else msg_send dst_pid s pid.

Definition cmd_inbox (pid : Z) : IO unit :=
  let+ sql := sprint sql0 "SELECT * FROM MessageTable WHERE dst_pid = %llu" [AInt pid] in
  let+ r := execute sql pid in emit (Shown r).

(** A line that is no command: friendly syntax or a query as it stands. *)
Definition cmd_query (line : list Z) (pid : Z) : IO unit :=
  match friendly_translate line buf0 with
  | None => fun _ _ => Fault
  | Some (translated, sql_buf) => handle_query (if translated then sql_buf else line) pid
  end.

(** ** Commands on processes *)

Definition S_ (A : Type) : Type := shell -> list out -> outcome (shell * list out * A).

Definition on_q {A} (m : IO A) : S_ A := fun s o =>
  match m (sh_q s) o with
  | Done (q, o, a) => Done (Shell q (sh_sched s) (sh_heap s), o, a)
  | Fault => Fault
  | NoFuel => NoFuel
  end.

Definition builtin_programs : list (string * Z) := [("monitor"%string, monitor_entry_addr)].

Definition spawned (name : list Z) (p : option nat) : S_ unit := fun s o =>
  match p with
  | Some i =>
      let s := Shell (sh_q s) (scheduler_add (sh_sched s) i) (sh_heap s) in
      on_q (notice COLOR_VOS_HL "  Spawned '%s' (PID %llu)" [txt name; AInt (p_pid (proc (sh_sched s) i))]) s o
  | None => on_q (notice COLOR_RED "  Failed to spawn '%s'" [txt name]) s o
  end.

(** [Fault]: the stack could not be allocated, which [process_create]
    asserts. *)
Definition spawn (name : list Z) (entry : Z) : S_ unit := fun s o =>
  match process_create pml4 now (machine_of s) name entry with
  | None => Fault
  | Some (k, p) => spawned name p (with_machine s k) o
  end.

Fixpoint find_program (l : list (string * Z)) (prog : list Z) : option (string * Z) :=
  match l with
  | [] => None
  | (name, entry) :: l => if strcasecmp prog (cs name) =? 0 then Some (name, entry) else find_program l prog
  end.

Definition cmd_spawn (rest : list Z) : S_ unit :=
  let prog := past_spaces rest in
  if chr prog =? 0 then
    on_q (kprintf (endl "  Usage: spawn <program>") [] ;+ kprintf (cs "  Programs: monitor") [] ;+ kprintf [10] [])
  else if strncmp prog (cs "script:") 7 =? 0 then spawn prog script_entry_addr
  else
    match find_program builtin_programs prog with
    | Some (name, entry) => spawn (cs name) entry
    | None => on_q (notice COLOR_RED "  Unknown program '%s'" [txt prog])
    end.

(** [Fault]: [kfree] failed an assertion. *)
Definition cmd_kill (rest : list Z) : S_ unit := fun s o =>
  let '(target_pid, _) := read_pid (past_spaces rest) 0 in
  if target_pid =? 0 then on_q (kprintf (endl "  Usage: kill <pid>") []) s o
  else if match process_get_current (sh_sched s) with Some i => target_pid =? p_pid (proc (sh_sched s) i) | None => false end then
    on_q (notice COLOR_RED "  Cannot kill the shell process" []) s o
  else
    match process_get_by_pid (sh_sched s) target_pid with
    | None => on_q (notice COLOR_RED "  Process %llu not found" [AInt target_pid]) s o
    | Some i =>
        match process_exit (machine_of s) i with
        | None => Fault
        | Some k =>
            on_q (notice COLOR_VOS_HL "  Killed process %llu (%s)" [AInt target_pid; txt (p_name (proc (m_sched k) i))]) (with_machine s k) o
        end
    end.

(** The body of a process that runs a script; it then halts. *)
Definition script_process_entry (self : nat) : S_ unit := fun s o =>
  let name := drop 7 (p_name (proc (sh_sched s) self)) in
  match on_q (script_run mem clock stack sql0 buf0 data_of name (my_pid s)) s o with
  | Done (s, o, _) =>
      match process_exit (machine_of s) self with
      | None => Fault
      | Some k => Done (with_machine s k, o, tt)
      end
  | Fault => Fault
  | NoFuel => NoFuel
  end.

(** ** The dispatcher *)

(** A command with an argument that is a name. *)
Definition named (rest : list Z) (usage : string) (m : list Z -> IO unit) : S_ unit :=
  let name := past_spaces rest in
  on_q (if chr name =? 0 then kprintf (endl usage) [] else m name).

Definition and_then {A} (m : S_ A) (a : answer) : S_ answer := fun s o =>
  match m s o with
  | Done (s, o, _) => Done (s, o, a)
  | Fault => Fault
  | NoFuel => NoFuel
  end.

Definition is_command (line : list Z) (w : string) : bool := strcasecmp line (cs w) =? 0.

Definition quiet (m : IO (option nat)) : IO unit := m ;+ pure tt.

Definition shell_line (r : readings) (line : list Z) (inputs : list (list Z * Z)) : S_ answer := fun s =>
  let pid := my_pid s in
  let prompt m := and_then m Prompt s in
  if is_command line "clear" then prompt (on_q (emit Cleared))
  else if is_command line "help" then prompt (on_q cmd_help)
  else if is_command line "status" then prompt (on_q (cmd_status r))
  else if is_command line "gui" then and_then (on_q (pure tt)) EnterGui s
  else if is_command line "security" || is_command line "crypto" then prompt (on_q (cmd_security pid))
  else if is_command line "audit" then prompt (on_q (cmd_audit 20 pid))
  else if starts_with line "audit " then
    match read_int (past_spaces (drop 6 line)) 0 with
    | Some n => prompt (on_q (cmd_audit (if 0 <? n then Z.to_nat n else 20%nat) pid))
    | None => fun _ => Fault
    end
  else if starts_with line "save " then
    prompt (named (drop 5 line) "  Usage: save <name>" (fun name => quiet (script_save mem clock stack sql0 name pid inputs)))
  else if starts_with line "run " then
    prompt (named (drop 4 line) "  Usage: run <name>" (fun name => quiet (script_run mem clock stack sql0 buf0 data_of name pid)))
  else if is_command line "scripts" then prompt (on_q (script_list mem clock stack data_of pid))
  else if starts_with line "cat " then
    prompt (named (drop 4 line) "  Usage: cat <name>" (fun name => script_cat mem clock stack sql0 data_of name pid))
  else if starts_with line "spawn " then prompt (cmd_spawn (drop 6 line))
  else if starts_with line "kill " then prompt (cmd_kill (drop 5 line))
  else if starts_with line "msg " then prompt (on_q (cmd_msg (drop 4 line) pid))
  else if is_command line "inbox" then prompt (on_q (cmd_inbox pid))
  else prompt (on_q (cmd_query line pid)).

Definition shell_fkey (r : readings) (fkey : Z) : S_ unit := fun s =>
  let pid := my_pid s in
  if fkey =? KEY_F1 then on_q cmd_help s
  else if fkey =? KEY_F2 then on_q (handle_query (cs "SHOW TABLES") pid) s
  else if fkey =? KEY_F3 then on_q (cmd_status r) s
  else if fkey =? KEY_F4 then on_q (cmd_security pid) s
  else if fkey =? KEY_F5 then on_q (emit Cleared) s
  else if fkey =? KEY_F6 then on_q (handle_query (cs "SELECT * FROM AuditTable") pid) s
  else on_q (pure tt) s.

(** One turn of the loop of [shell_main], given what [line_read] answers. *)
Definition shell_turn (r : readings) (line : list Z) (fkey : Z) (inputs : list (list Z * Z)) : S_ answer := fun s o =>
  match on_q (print_prompt (my_pid s)) s o with
  | Done (s, o, _) =>
      if negb (fkey =? 0) then and_then (shell_fkey r fkey) Prompt s o
      else if (strlen line =? 0)%nat then Done (s, o, Prompt)
      else shell_line r (cstr line) inputs s o
  | Fault => Fault
  | NoFuel => NoFuel
  end.
End shell.
