(* ===== verification/ShellSpec.v ===== *)
(** * What the shell's commands do

    A message sent with [msg] is what [inbox] shows its receiver; [kill] ends
    the process it names and never the shell itself. *)

From Stdlib Require Import String.
From stdpp Require Import gmap sets sorting functions.
From S2P Require Import LineEditor Tui.
From S2P Require Import Prelude CLib Errors Random Sha256 Hmac Aes Record Btree BtreeSpec Cap Database DatabaseSpec Printf Heap Klist Sched Query QuerySpec QueryWrites Client Keyboard Friendly FriendlySpec Stored Script Shell Messages.

(** ** Arguments *)

Lemma read_pid_digits ds r acc : Forall is_digit ds -> isdigit (chr r) = false ->
  read_pid (dec_chars ds ++ r) acc = (foldl (fun v d => u64 (v * 10 + d)) acc ds, r).
Proof.
  intros Hd Hr. revert acc. induction Hd as [|d ds Hd Hds IH]; intros acc; cbn [dec_chars map app foldl].
  - destruct r as [|c r]; [done|]. cbn [read_pid]. cbn in Hr. unfold isdigit in Hr. by rewrite Hr.
  - cbn [read_pid]. unfold is_digit in Hd. replace ((48 <=? 48 + d) && (48 + d <=? 57)) with true by lia.
    replace (acc * 10 + (48 + d - 48)) with (acc * 10 + d) by lia. apply IH.
Qed.

(** A process id is read as it is printed. *)
Lemma read_pid_num v r : is_u64 v -> isdigit (chr r) = false -> read_pid (past_spaces (num v ++ r)) 0 = (v, r).
Proof.
  intros Hv Hr. destruct (num_spec v Hv) as (ds & -> & Hd & Hne & Hval & _).
  assert (past_spaces (dec_chars ds ++ r) = dec_chars ds ++ r) as ->.
  { destruct Hd as [|d ds Hd _]; [done|]. unfold is_digit in Hd.
    assert (d = 0 \/ d = 1 \/ d = 2 \/ d = 3 \/ d = 4 \/ d = 5 \/ d = 6 \/ d = 7 \/ d = 8 \/ d = 9) as Hc by lia.
    by repeat destruct Hc as [->|Hc]; [..|subst d]. }
  rewrite read_pid_digits by done. f_equal. change 0 with (u64 0). rewrite foldl_dec_wrap. fold (dec_value ds). by rewrite Hval, wrap_small.
Qed.

Lemma past_one_space text : chr text <> 32 -> past_spaces (32 :: text) = text.
Proof.
  intros Hc. cbn [past_spaces]. destruct text as [|c text]; [done|]. cbn in Hc. cbn [past_spaces].
  destruct c as [|p|p]; [done| |done]. do 6 (destruct p as [p|p|]; try done).
Qed.

(** ** Messages *)

#[local] Opaque query_execute message_row.

Section delivery.
Context `{Hw, AesNi, !HwLaws, !AesNiLaws}.
Context (mem : nat -> nat -> bool) (clock : nat -> Z) (stack : nat -> nat -> list Z).
Context (Hmem : forall n m, mem n m = true) (Hclock : forall n, is_u64 (clock n)).
Context (sql0 buf0 : list Z) (data_of : field_value -> list Z) (num_of : field_value -> Z).
Context (pml4 now monitor_addr script_addr : Z).
Context (Hsql : length sql0 = FRIENDLY_SQL_MAX).

#[local] Abbreviation line := (shell_line mem clock stack sql0 buf0 data_of num_of pml4 now monitor_addr script_addr).

Definition msg_line (dst : Z) (text : list Z) : list Z := cs "msg " ++ num dst ++ 32 :: text.

Lemma format_sent dst : kvprintf_chars (endl "  Message sent to PID %llu") [AInt dst] = Some (cs "  Message sent to PID " ++ num dst ++ [10]).
Proof.
  set (w := cs "  Message sent to PID ").
  change (kvprintf_chars _ _) with (kvprintf_loop (length w + S (length [10] + 4)) (w ++ 37 :: 108 :: 108 :: 117 :: [10] ++ []) [AInt dst]).
  rewrite loop_text, loop_number, loop_text by reflexivity. reflexivity.
Qed.

Lemma send_text_nonzero src dst text : is_u64 src -> is_u64 dst -> literal text -> Forall (fun c => c <> 0) (send_text src dst text).
Proof.
  intros Hs Hd Hl. assert (forall v, is_u64 v -> Forall (fun c => c <> 0) (num v)) as Hn.
  { intros v Hv. apply (Forall_impl _ _ _ (proj1 (num_all_digits v Hv))). intros c. unfold isdigit. lia. }
  unfold send_text. rewrite !Forall_app. split_and!; first [by apply Hn|by apply literal_nonzero|by apply cs_nonzero].
Qed.

Lemma send_text_bytes src dst text : is_u64 src -> is_u64 dst -> bytes text -> bytes (send_text src dst text).
Proof.
  intros Hs Hd Hb. assert (forall v, is_u64 v -> bytes (num v)) as Hn.
  { intros v Hv. apply (Forall_impl _ _ _ (proj1 (num_all_digits v Hv))). intros c. unfold isdigit, is_word. lia. }
  unfold send_text. rewrite !Forall_app. split_and!; first [by apply Hn|exact Hb|apply bytes_cs].
Qed.

Lemma length_send_text src dst text : is_u64 src -> is_u64 dst -> (length text < MAX_STR_LEN)%nat -> (length (send_text src dst text) < FRIENDLY_SQL_MAX)%nat.
Proof.
  intros Hs Hd Hl. destruct (num_all_digits src Hs) as (_ & _ & L1). destruct (num_all_digits dst Hd) as (_ & _ & L2).
  unfold send_text. rewrite !length_app.
  change (length (cs "INSERT INTO MessageTable (src_pid, dst_pid, type, payload, delivered) VALUES (")) with 78%nat.
  change (length (cs ", ")) with 2%nat. change (length (cs ", 'user', '")) with 11%nat. change (length (cs "', false)")) with 9%nat.
  unfold FRIENDLY_SQL_MAX, MAX_STR_LEN in *. lia.
Qed.

Definition sent_note (dst : Z) : list out :=
  [Color COLOR_VOS_HL COLOR_VOS_BG; Text (cs "  Message sent to PID " ++ num dst ++ [10]); Color COLOR_VOS_FG COLOR_VOS_BG].

Lemma cmd_msg_sends q q' r o dst text src :
  is_u64 src -> is_u64 dst -> dst <> 0 -> literal text -> chr text <> 0 -> chr text <> 32 ->
  query_execute mem clock stack (send_text src dst text) src q = Done (q', Some r) -> error_code r = VOS_OK ->
  cmd_msg mem clock stack sql0 (num dst ++ 32 :: text) src q o = Done (q', o ++ sent_note dst, tt).
Proof.
  intros Hs Hd Hd0 Hl Hc0 Hc32 Ex Er. unfold cmd_msg. rewrite read_pid_num by done. cbv iota beta zeta. rewrite past_one_space by done.
  rewrite !(proj2 (Z.eqb_neq _ _)) by done. cbn [orb]. unfold msg_send, io_bind, sprint.
  destruct (print_to_chars sql0 _ _ _ q (format_send src dst text)) as (sql & -> & Es).
  - rewrite literal_cstr by done. by apply send_text_nonzero.
  - rewrite literal_cstr, Hsql by done. apply length_send_text; [exact Hs|exact Hd|apply Hl].
  - by rewrite Hsql.
  - unfold Script.execute, db_execute. rewrite Es, literal_cstr, Ex, Er by done. change (VOS_OK =? 0) with true. cbv iota.
    unfold notice, io_bind, fb_set_color, kprintf, emit. rewrite format_sent. rewrite <- !app_assoc. reflexivity.
Qed.

Lemma cmd_inbox_shows q q' r o pid : is_u64 pid -> query_execute mem clock stack (inbox_text pid) pid q = Done (q', Some r) ->
  cmd_inbox mem clock stack sql0 pid q o = Done (q', o ++ [Shown (Some r)], tt).
Proof.
  intros Hp Ex. unfold cmd_inbox, io_bind, sprint. destruct (num_all_digits pid Hp) as (Hd & _ & Hl).
  destruct (print_to_chars sql0 _ _ _ q (format_inbox pid)) as (sql & -> & Es).
  - unfold inbox_text. rewrite !Forall_app. split_and!; try (by apply cs_nonzero). apply (Forall_impl _ _ _ Hd). intros c. unfold isdigit. lia.
  - unfold inbox_text. rewrite !length_app, Hsql. cbn [length cs map list_ascii_of_string]. unfold FRIENDLY_SQL_MAX. lia.
  - by rewrite Hsql.
  - unfold Script.execute, db_execute, emit. rewrite Es, Ex. reflexivity.
Qed.

(** C25: a message without apostrophes is delivered.  With the message table
    and the audit log as the engine keeps them and room for one row in each,
    the line [msg <pid> <text>] typed in the shell of a process (the text not
    starting with a blank, of at most 254 characters, none of them an
    apostrophe) is answered with "Message sent" and adds one row; and [inbox],
    in the shell of whatever process, then shows exactly the rows addressed to
    it, the new one among them precisely when it is the receiver.  The row
    holds the sender, the receiver and the text.  (With an apostrophe the text
    arrives cut there: [message_apostrophe_cut].) *)
Theorem message_delivered (s : shell) (r : readings) t a content log (dst : Z) (text : list Z) (inputs : list (list Z * Z)) (o : list out) :
  let rid := global_row_id (q_db (sh_q s)) in
  mailbox (sh_q s) t a content log -> content !! rid = None ->
  room_for 1 (index t) rid -> room_for 1 (index a) (u64 (rid + 1)) ->
  is_u64 (my_pid s) -> is_u64 dst -> dst <> 0 -> literal text -> bytes text -> chr text <> 0 -> chr text <> 32 ->
  exists q' row, line r (msg_line dst text) inputs s o = Done (Shell q' (sh_sched s) (sh_heap s), o ++ sent_note dst, Prompt) /\
    field row 1 = FU64 (my_pid s) /\ field row 2 = FU64 dst /\ cstr (str_data data_of row 4) = text /\
    forall sc h o', let receiver := Shell q' sc h in is_u64 (my_pid receiver) ->
      exists q'' res, line r (cs "inbox") inputs receiver o' = Done (Shell q'' sc h, o' ++ [Shown (Some res)], Prompt) /\
        error_code res = VOS_OK /\
        rows res ≡ₚ (if dst =? my_pid receiver then [row] else []) ++ mail_of (my_pid receiver) content.
Proof.
  intros rid Hm Hn R1 R2 Hs Hd Hd0 Hl Hb Hc0 Hc32. set (src := my_pid s) in *.
  destruct (send_message mem clock stack Hmem Hclock (sh_q s) t a content log src dst text Hm Hs Hd (send_text_bytes _ _ _ Hs Hd Hb) Hl R1 R2)
    as (q' & res & t' & a' & log' & Ex & Er & Hm' & Hcap).
  fold rid in Hm'. set (row := message_row rid src dst text src (clock (q_calls (sh_q s)))) in *.
  exists q', row. destruct (message_row_fields rid src dst text src (clock (q_calls (sh_q s)))) as (_ & _ & F1 & F2 & _ & F4). fold row in F1, F2, F4.
  split; [|split; [exact F1|split; [exact F2|split; [|] ] ] ].
  - change (line r (msg_line dst text) inputs s o) with (and_then (on_q (cmd_msg mem clock stack sql0 (num dst ++ 32 :: text) src)) Prompt s o).
    unfold and_then, on_q. by rewrite (cmd_msg_sends _ _ _ o dst text src Hs Hd Hd0 Hl Hc0 Hc32 Ex Er).
  - unfold str_data. rewrite F4. destruct (str_field_text text Hl) as [l E]. rewrite E. by eapply str_field_cstr.
  - intros sc h o' receiver Hp. set (pid := my_pid receiver) in *.
    destruct (read_inbox mem clock stack Hmem q' t' a' _ log' pid pid Hm' Hp) as (q'' & res' & Ex' & Er' & Pr & _).
    exists q'', res'. split; [|split; [exact Er'|] ].
    + change (line r (cs "inbox") inputs receiver o') with (and_then (on_q (cmd_inbox mem clock stack sql0 pid)) Prompt receiver o').
      unfold and_then, on_q. change (sh_q receiver) with q'. by rewrite (cmd_inbox_shows _ _ _ o' pid Hp Ex').
    + rewrite Pr. unfold row. by apply mail_of_insert.
Qed.
End delivery.

(** ** Ending processes *)

(** The nodes of the two lists are apart. *)
Definition ready_node (n : node) : bool := match n with ReadyHead | SchedNode _ => true | _ => false end.

Lemma ready_nodes q x : x ∈ ReadyHead :: map SchedNode q -> ready_node x = true.
Proof. by intros [->|(j & -> & _)%list_elem_of_fmap]%elem_of_cons. Qed.

Lemma all_nodes q x : x ∈ AllHead :: map AllNode q -> ready_node x = false.
Proof. by intros [->|(j & -> & _)%list_elem_of_fmap]%elem_of_cons. Qed.

(** The links after a process has left both lists. *)
Lemma unlink_process (m : links node) i q1 q2 a1 a2 :
  dlist m ReadyHead (map SchedNode (q1 ++ i :: q2)) -> dlist m AllHead (map AllNode (a1 ++ i :: a2)) ->
  let m' := list_del (list_init (list_del m (SchedNode i)) (SchedNode i)) (AllNode i) in
  dlist m' ReadyHead (map SchedNode (q1 ++ q2)) /\ dlist m' AllHead (map AllNode (a1 ++ a2)).
Proof.
  intros Hr Ha. pose proof (ready_nodes (q1 ++ i :: q2)) as Nr. pose proof (all_nodes (a1 ++ i :: a2)) as Na. pose proof (ready_nodes (q1 ++ q2)) as Nr'.
  rewrite !map_app in *. cbn [map] in *. set (m1 := list_del m (SchedNode i)).
  destruct (list_del_spec m ReadyHead _ _ _ Hr) as [Hr1 _]. fold m1 in Hr1.
  assert (SchedNode i ∉ ReadyHead :: map SchedNode q1 ++ map SchedNode q2) as Hi.
  { destruct Hr as [_ Hnd]. apply NoDup_cons in Hnd as [_ Hnd]. apply NoDup_app in Hnd as (_ & H1 & Hnd). apply NoDup_cons in Hnd as [H2 _].
    rewrite elem_of_cons, elem_of_app. intros [?|[?|?]]; [done| |done]. by eapply H1; [|left]. }
  assert (dlist (list_init m1 (SchedNode i)) ReadyHead (map SchedNode q1 ++ map SchedNode q2)) as Hr2.
  { eapply dlist_ext; [|exact Hr1]. intros x Hx. apply list_init_frame. by intros ->. }
  assert (dlist (list_init m1 (SchedNode i)) AllHead (map AllNode a1 ++ AllNode i :: map AllNode a2)) as Ha2.
  { eapply dlist_ext; [|exact Ha]. intros x Hx%Na. destruct (list_init_frame m1 (SchedNode i) x) as [-> ->]; [by intros ->|].
    eapply list_del_frame; [exact Hr|]. intros Hy%Nr. congruence. }
  split; [|by apply list_del_spec]. eapply dlist_ext; [|exact Hr2]. intros x Hx%Nr'.
  eapply list_del_frame; [exact Ha2|]. intros Hy%Na. congruence.
Qed.

Lemma alloc_nonzero h p sz : wf_heap h -> (p, sz) ∈ allocs (blocks h) -> (p =? 0) = false.
Proof.
  intros [Ht _ _ _ _ _] (b & Hb & _ & -> & _)%allocs_elem. destruct (tiles_in _ _ _ _ Ht Hb) as [Hb1 _].
  apply Z.eqb_neq. unfold KERNEL_HEAP_BASE, HDR in *. lia.
Qed.

Lemma process_exit_spec k i q1 q2 a1 a2 sz :
  queue_is (m_sched k) (q1 ++ i :: q2) -> dlist (ls (m_sched k)) AllHead (map AllNode (a1 ++ i :: a2)) ->
  wf_heap (m_heap k) -> (stack_base (proc (m_sched k) i), sz) ∈ allocs (blocks (m_heap k)) ->
  exists k', process_exit k i = Some k' /\ m_caps k' = m_caps k /\ current (m_sched k') = current (m_sched k) /\
    queue_is (m_sched k') (q1 ++ q2) /\ dlist (ls (m_sched k')) AllHead (map AllNode (a1 ++ a2)) /\
    proc (m_sched k') i = set_pid (set_pstate (proc (m_sched k) i) PROC_TERMINATED) 0 /\
    (forall j, j <> i -> proc (m_sched k') j = proc (m_sched k) j) /\
    wf_heap (m_heap k') /\ allocs (blocks (m_heap k)) ≡ₚ (stack_base (proc (m_sched k) i), sz) :: allocs (blocks (m_heap k')).
Proof.
  intros [Hq Hs] Ha Hh Hst. pose proof (alloc_nonzero _ _ _ Hh Hst) as Hnz.
  destruct (kfree_allocated (m_heap k) _ sz Hh Hst) as (h' & Ef & Hh' & _ & Hal & _).
  assert (i < length (processes (m_sched k)))%nat as Hi by (apply Forall_app in Hs as [_ Hs]; by apply Forall_cons in Hs as [? _]).
  assert (forall j, proc (set_state (m_sched k) i PROC_TERMINATED) j = if decide (i = j) then set_pstate (proc (m_sched k) i) PROC_TERMINATED else proc (m_sched k) j) as Hp
    by (intros j; by apply proc_set_state).
  destruct (unlink_process _ i q1 q2 a1 a2 Hq Ha) as [Hq' Ha'].
  unfold process_exit, scheduler_remove. cbn [ls with_links set_state with_procs].
  set (s1 := with_links _ _). assert (forall j, proc s1 j = proc (set_state (m_sched k) i PROC_TERMINATED) j) as Hp1 by done.
  rewrite Hp1, Hp, decide_True by done. cbn [stack_base set_pstate]. rewrite Hnz, Ef. eexists. split; [reflexivity|].
  split; [done|]. split; [done|]. split; [split; [exact Hq'|]|]; [|split; [exact Ha'|split; [|split; [|by split]]]].
  - cbn [processes with_procs m_sched]. rewrite length_insert. change (processes s1) with (processes (set_state (m_sched k) i PROC_TERMINATED)).
    rewrite length_set_state. apply Forall_app in Hs as [? Hs]. apply Forall_cons in Hs as [_ ?]. by apply Forall_app.
  - unfold proc at 1. cbn [processes with_procs m_sched]. rewrite nth_lookup, list_lookup_insert_eq; [|change (processes s1) with (processes (set_state (m_sched k) i PROC_TERMINATED)); by rewrite length_set_state].
    done.
  - intros j Hj. unfold proc at 1. cbn [processes with_procs m_sched]. rewrite nth_lookup, list_lookup_insert_ne by done.
    rewrite <- nth_lookup. change (nth j (processes s1) zero_process) with (proc s1 j). by rewrite Hp1, Hp, decide_False.
Qed.

Section killing.
Context `{Hw, AesNi}.
Context (mem : nat -> nat -> bool) (clock : nat -> Z) (stack : nat -> nat -> list Z).
Context (sql0 buf0 : list Z) (data_of : field_value -> list Z) (num_of : field_value -> Z).
Context (pml4 now monitor_addr script_addr : Z).

#[local] Abbreviation line := (shell_line mem clock stack sql0 buf0 data_of num_of pml4 now monitor_addr script_addr).

Definition kill_line (pid : Z) : list Z := cs "kill " ++ num pid.

Lemma notice_runs color fmt args text q o : kvprintf_chars (endl fmt) args = Some text ->
  notice color fmt args q o = Done (q, o ++ [Color color COLOR_VOS_BG; Text text; Color COLOR_VOS_FG COLOR_VOS_BG], tt).
Proof. intros E. unfold notice, io_bind, fb_set_color, kprintf, emit. rewrite E, <- !app_assoc. reflexivity. Qed.

(** C26: [kill <pid>] ends the process and nothing else.  For a queued process
    with that pid, other than the shell's own, the line is answered; the
    process is out of the ready queue and out of the list of all processes,
    its slot is free and its stack is given back, while every other process,
    the process that runs, the other allocations, the database and the
    capabilities are as they were.  The shell's own process is refused and
    nothing changes. *)
Theorem kill_ends_process (s : shell) (r : readings) (pid : Z) (inputs : list (list Z * Z)) (o : list out) :
  is_u64 pid -> pid <> 0 ->
  (my_pid s = pid -> exists o', line r (kill_line pid) inputs s o = Done (s, o', Prompt)) /\
  (forall i q1 q2 a1 a2 sz, my_pid s <> pid -> process_get_by_pid (sh_sched s) pid = Some i ->
     queue_is (sh_sched s) (q1 ++ i :: q2) -> dlist (ls (sh_sched s)) AllHead (map AllNode (a1 ++ i :: a2)) ->
     wf_heap (sh_heap s) -> (stack_base (proc (sh_sched s) i), sz) ∈ allocs (blocks (sh_heap s)) ->
     exists s' o', line r (kill_line pid) inputs s o = Done (s', o', Prompt) /\ sh_q s' = sh_q s /\
       process_get_current (sh_sched s') = process_get_current (sh_sched s) /\
       queue_is (sh_sched s') (q1 ++ q2) /\ dlist (ls (sh_sched s')) AllHead (map AllNode (a1 ++ a2)) /\
       proc (sh_sched s') i = set_pid (set_pstate (proc (sh_sched s) i) PROC_TERMINATED) 0 /\
       (forall j, j <> i -> proc (sh_sched s') j = proc (sh_sched s) j) /\
       wf_heap (sh_heap s') /\ allocs (blocks (sh_heap s)) ≡ₚ (stack_base (proc (sh_sched s) i), sz) :: allocs (blocks (sh_heap s'))).
Proof.
  intros Hp Hp0.
  change (line r (kill_line pid) inputs s o) with (and_then (cmd_kill (num pid)) Prompt s o). unfold and_then, cmd_kill.
  assert (read_pid (past_spaces (num pid)) 0 = (pid, [])) as -> by (rewrite <- (app_nil_r (num pid)) at 1; by apply read_pid_num).
  rewrite (proj2 (Z.eqb_neq _ _) Hp0). unfold my_pid, on_q. split.
  - destruct (process_get_current (sh_sched s)) as [c|] eqn:Ec; [|intros; lia]. intros ->. rewrite Z.eqb_refl.
    erewrite notice_runs by reflexivity. eexists. by destruct s.
  - intros i q1 q2 a1 a2 sz Hne Hi Hq Ha Hh Hst.
    assert (match process_get_current (sh_sched s) with Some i => pid =? p_pid (proc (sh_sched s) i) | None => false end = false) as ->
      by (destruct (process_get_current (sh_sched s)); [by apply Z.eqb_neq|done]).
    rewrite Hi. destruct (process_exit_spec (machine_of s) i q1 q2 a1 a2 sz Hq Ha Hh Hst) as (k & -> & Hcap & Hcur & H1 & H2 & H3 & H4 & H5 & H6).
    assert (exists t, kvprintf_chars (endl "  Killed process %llu (%s)") [AInt pid; txt (p_name (proc (m_sched k) i))] = Some t) as [t Et]
      by (eexists; reflexivity).
    rewrite (notice_runs _ _ _ t _ _ Et). do 2 eexists. split; [reflexivity|]. cbn [sh_q sh_sched sh_heap with_machine] in *.
    split; [|by split_and!]. rewrite Hcap. destruct s as [ [] ? ?]. reflexivity.
Qed.
End killing.

(** ** Witnesses *)

Lemma sys_mailbox : mailbox sys_state (sys_table 4) (sys_table 5) ∅ ∅.
Proof.
  constructor; cbn [sys_state q_db]; [apply sys_db_ok|vm_compute; reflexivity|apply sys_table_at; lia|vm_compute; reflexivity|apply (sys_table_at 5); lia| |].
  - apply empty_is, (sys_table_index 4). lia.
  - apply empty_is, (sys_table_index 5). lia.
Qed.

(** The shell of one process. *)
Definition solo (pid : Z) : sched :=
  Sched [Proc pid (cs "shell" ++ replicate 59 0) PROC_RUNNING 1 zero_context 0 0 0 0] (pid + 1) demo_links (Some 0%nat) 0 true 0 [].

Definition calm : readings := Readings 0 None 0 0 0 0 0 0 false.

Lemma fresh_room k rid : is_u64 rid -> room_for 1 (btree_init k) rid.
Proof. intros Hu. split; [exact I|]. split; [apply not_elem_of_nil|by split]. Qed.

#[local] Opaque sys_db sys_table query_execute shell_line.

Lemma message_delivered_witness :
  let line := shell_line all_ok noon zero_stack (replicate 512 7) (replicate 512 7) (fun _ => []) (fun _ => 0) 0 0 0 0 calm in
  exists q' row, line (msg_line 3 (cs "hello")) [] (Shell sys_state (solo 2) heap_init) [] =
      Done (Shell q' (solo 2) heap_init, sent_note 3, Prompt) /\ field row 1 = FU64 2 /\ cstr (str_data (fun _ => []) row 4) = cs "hello" /\
    exists q'' res, line (cs "inbox") [] (Shell q' (solo 3) heap_init) [] = Done (Shell q'' (solo 3) heap_init, [Shown (Some res)], Prompt) /\
      rows res ≡ₚ [row].
Proof.
  assert (is_u64 1 /\ is_u64 2 /\ is_u64 3) as (U1 & U2 & U3) by (unfold is_word; lia).
  destruct (message_delivered all_ok noon zero_stack (fun _ _ => eq_refl) noon_u64 (replicate 512 7) (replicate 512 7) (fun _ => []) (fun _ => 0) 0 0 0 0 eq_refl
    (Shell sys_state (solo 2) heap_init) calm (sys_table 4) (sys_table 5) ∅ ∅ 3 (cs "hello") [] []) as (q' & row & E1 & F1 & _ & F3 & Hr).
  - exact sys_mailbox.
  - apply lookup_empty.
  - cbn [sh_q sys_state q_db]. rewrite sys_row_id, sys_table_index by lia. by apply fresh_room.
  - cbn [sh_q sys_state q_db]. rewrite sys_row_id, sys_table_index by lia. by apply fresh_room.
  - exact U2.
  - exact U3.
  - lia.
  - apply word_literal. reflexivity.
  - apply bytes_cs.
  - discriminate.
  - discriminate.
  - exists q', row. split; [exact E1|]. split; [exact F1|]. split; [exact F3|].
    destruct (Hr (solo 3) heap_init [] U3) as (q'' & res & E2 & _ & P). exists q'', res. split; [exact E2|].
    unfold mail_of in P. rewrite map_to_list_empty in P. exact P.
Defined.

(** The shell's process 1 and another one, 2, whose stack is the area
    allocated in [demo_heap]. *)
Definition pair_sched : sched :=
  let p := Proc 1 (cs "shell" ++ replicate 59 0) PROC_RUNNING 1 zero_context 0 0 0 0 in
  let p2 := Proc 2 (cs "monitor" ++ replicate 57 0) PROC_READY 1 zero_context 0 (KERNEL_HEAP_BASE + HDR) 0 0 in
  let m := list_init (list_init (Links (fun n => n) (fun n => n)) ReadyHead) AllHead in
  let m := list_add_tail (list_add_tail m ReadyHead (SchedNode 0)) ReadyHead (SchedNode 1) in
  let m := list_add_tail (list_add_tail m AllHead (AllNode 0)) AllHead (AllNode 1) in
  Sched [p; p2] 3 m (Some 0%nat) 0 true 0 [].

Lemma pair_lists : queue_is pair_sched ([0%nat] ++ 1%nat :: []) /\ dlist (ls pair_sched) AllHead (map AllNode ([0%nat] ++ 1%nat :: [])).
Proof.
  split; [split|]; [split| |split]; try (apply (bool_decide_unpack _); vm_compute; exact I); cbn; repeat split; reflexivity.
Qed.

Lemma kill_ends_process_witness :
  let line := shell_line all_ok noon zero_stack [] [] (fun _ => []) (fun _ => 0) 0 0 0 0 calm in
  exists s' o', line (kill_line 2) [] (Shell sys_state pair_sched demo_heap) [] = Done (s', o', Prompt) /\
    queue_is (sh_sched s') [0%nat] /\ wf_heap (sh_heap s').
Proof.
  assert (is_u64 2) as U2 by (unfold is_word; lia). destruct pair_lists as [Hq Ha].
  destruct (kill_ends_process all_ok noon zero_stack [] [] (fun _ => []) (fun _ => 0) 0 0 0 0 (Shell sys_state pair_sched demo_heap) calm 2 [] [] U2 ltac:(lia)) as [_ Hk].
  destruct (Hk 1%nat [0%nat] [] [0%nat] [] 112) as (s' & o' & E & _ & _ & Hq' & _ & _ & _ & Hh & _).
  - discriminate.
  - reflexivity.
  - exact Hq.
  - exact Ha.
  - exact demo_heap_wf.
  - vm_compute. left.
  - exists s', o'. split; [exact E|]. split; [exact Hq'|exact Hh].
Defined.

(** ** Findings *)

(** [msg 3 don't go] is accepted, and what arrives is [don]. *)
Example message_apostrophe_cut :
  exists names p row, insert_query zero_stack (send_text 2 3 (cs "don't go")) = Some (message_table, names, p) /\
    insert_values message_schema names (blank_record message_schema 1) p = Some row /\ cstr (str_data (fun _ => []) row 4) = cs "don".
Proof. eexists _, _, _. split; [vm_compute; reflexivity|]. split; vm_compute; reflexivity. Qed.

(** The monitor process inserts into columns that AuditTable does not have:
    every round is refused and nothing is logged. *)
Example monitor_logs_nothing :
  let text := cs "INSERT INTO AuditTable (event, actor_pid, detail) VALUES ('monitor', 5, 'up=0s heap=0/0')" in
  match query_execute all_ok noon zero_stack text 5 sys_state with
  | Done (q, Some r) => error_code r = VOS_ERR_INVAL /\ tables (q_db q) = tables (q_db sys_state)
  | _ => False
  end /\
  match monitor_round all_ok noon zero_stack (replicate 512 7) calm 5 sys_state [] with
  | Done (q, _, _) => tables (q_db q) = tables (q_db sys_state)
  | _ => False
  end.
Proof. vm_compute. by split_and!. Qed.

(** [security] shows the format in place of the names of the tables. *)
Example security_shows_format : match print_sealed [3%nat] sys_state [] with
  | Done (_, o, _) => o = [Color COLOR_VOS_FG COLOR_VOS_BG; Text (cs "    %-20s "); Color COLOR_GREEN COLOR_VOS_BG; Text (cs "SEALED" ++ [10])]
  | _ => False
  end.
Proof. vm_compute. reflexivity. Qed.
