(* ===== verification/Window.v ===== *)
(** * The window manager (src/gui/window.c)

    The array of 16 window slots and the stacking order, as the list of slot
    numbers from the backmost to the topmost window (the part of [z_order]
    below [win_count]).  A pointer to a window is its slot number.  The event
    callback of a window is the last thing [wm_dispatch_event] does, so the
    call is part of its answer: the slot and the event it gets.  Whether
    [kmalloc] finds memory for a canvas is an argument. *)

From Stdlib Require Import String.
From S2P Require Import Prelude CLib Ring Keyboard Mouse Event.

Definition MAX_WINDOWS : nat := 16.
Definition TITLEBAR_HEIGHT : Z := 20.
Definition BORDER_WIDTH : Z := 1.
Definition WIN_TITLE_MAX : nat := 64.
Definition WIN_CLIENT_BG : Z := 0xFF1A1A2E.

Record window := Window {
  id : Z;
  title : list Z;
  x : Z;
  y : Z;
  width : Z;
  height : Z;
  client_w : Z;
  client_h : Z;
  canvas : option (list Z);
  visible : bool;
  focused : bool;
  dragging : bool;
  drag_ox : Z;
  drag_oy : Z;
  close_hovered : bool;
  minimized : bool;
  minimize_hovered : bool;
  on_event : option nat;
  on_paint : option nat
}.

(** [memset(win, 0, sizeof(window_t))] *)
Definition no_window : window :=
  Window 0 (replicate WIN_TITLE_MAX 0) 0 0 0 0 0 0 None false false false 0 0 false false false None None.

Record wm := Wm { windows : list window; z_order : list nat; next_id : Z }.

Definition win_count (st : wm) : nat := length (z_order st).
Definition win (st : wm) (i : nat) : window := nth i (windows st) no_window.

Definition wm_init : wm := Wm (replicate MAX_WINDOWS no_window) [] 1.

(** ** Assignments to the fields of a window *)

Definition set_focused (b : bool) (w : window) : window :=
  Window (id w) (title w) (x w) (y w) (width w) (height w) (client_w w) (client_h w) (canvas w) (visible w) b
    (dragging w) (drag_ox w) (drag_oy w) (close_hovered w) (minimized w) (minimize_hovered w) (on_event w) (on_paint w).

Definition set_shown (v m : bool) (w : window) : window :=
  Window (id w) (title w) (x w) (y w) (width w) (height w) (client_w w) (client_h w) (canvas w) v (focused w)
    (dragging w) (drag_ox w) (drag_oy w) (close_hovered w) m (minimize_hovered w) (on_event w) (on_paint w).

Definition set_position (px py : Z) (w : window) : window :=
  Window (id w) (title w) px py (width w) (height w) (client_w w) (client_h w) (canvas w) (visible w) (focused w)
    (dragging w) (drag_ox w) (drag_oy w) (close_hovered w) (minimized w) (minimize_hovered w) (on_event w) (on_paint w).

Definition set_dragging (b : bool) (ox oy : Z) (w : window) : window :=
  Window (id w) (title w) (x w) (y w) (width w) (height w) (client_w w) (client_h w) (canvas w) (visible w) (focused w)
    b ox oy (close_hovered w) (minimized w) (minimize_hovered w) (on_event w) (on_paint w).

Definition set_hover (c m : bool) (w : window) : window :=
  Window (id w) (title w) (x w) (y w) (width w) (height w) (client_w w) (client_h w) (canvas w) (visible w) (focused w)
    (dragging w) (drag_ox w) (drag_oy w) c (minimized w) m (on_event w) (on_paint w).

Definition set_canvas (c : option (list Z)) (w : window) : window :=
  Window (id w) (title w) (x w) (y w) (width w) (height w) (client_w w) (client_h w) c (visible w) (focused w)
    (dragging w) (drag_ox w) (drag_oy w) (close_hovered w) (minimized w) (minimize_hovered w) (on_event w) (on_paint w).

Definition on_win (f : window -> window) (i : nat) (st : wm) : wm := Wm (alter f i (windows st)) (z_order st) (next_id st).
Definition on_all (f : window -> window) (st : wm) : wm := foldl (fun st i => on_win f i st) st (z_order st).
Definition restack (z : list nat) (st : wm) : wm := Wm (windows st) z (next_id st).

(** ** Operations *)

Fixpoint free_slot (ws : list window) : option nat :=
  match ws with
  | [] => None
  | w :: ws => if id w =? 0 then Some 0%nat else S <$> free_slot ws
  end.

Definition wm_create_window (st : wm) (t : list Z) (px py w h : Z) (ev paint : option nat) (kmalloc_ok : bool)
    : wm * option nat :=
  if (MAX_WINDOWS <=? win_count st)%nat then (st, None)
  else
    match free_slot (windows st) with
    | None => (st, None)
    | Some i =>
        let old := win st i in
        let cw := u16 (w - 2 * BORDER_WIDTH) in
        let ch := u16 (h - TITLEBAR_HEIGHT - 2 * BORDER_WIDTH) in
        let new :=
          Window (next_id st) (strlcpy (title old) t (WIN_TITLE_MAX - 1)) px py w h cw ch
            (if kmalloc_ok then Some (replicate (Z.to_nat (cw * ch)) WIN_CLIENT_BG) else None)
            true false false (drag_ox old) (drag_oy old) false (minimized old) (minimize_hovered old) ev paint in
        let st := Wm (<[i := new]> (windows st)) (z_order st ++ [i]) (u32 (next_id st + 1)) in
        let st := on_all (set_focused false) st in
        (on_win (set_focused true) i st, Some i)
    end.

(** The position in the stacking order of the window with this [id]. *)
Fixpoint z_index (st : wm) (i : Z) (z : list nat) : option nat :=
  match z with
  | [] => None
  | s :: z => if id (win st s) =? i then Some 0%nat else S <$> z_index st i z
  end.

Definition focus_top (st : wm) : wm :=
  match last (z_order st) with Some top => on_win (set_focused true) top st | None => st end.

Definition wm_destroy_window (st : wm) (i : Z) : wm :=
  match z_index st i (z_order st) with
  | None => st
  | Some idx =>
      let s := nth idx (z_order st) 0%nat in
      let st := restack (delete idx (z_order st)) st in
      focus_top (on_win (fun _ => no_window) s st)
  end.

Definition wm_bring_to_front (st : wm) (i : Z) : wm :=
  match z_index st i (z_order st) with
  | None => st
  | Some idx =>
      if (idx =? win_count st - 1)%nat then st
      else
        let s := nth idx (z_order st) 0%nat in
        let st := restack (delete idx (z_order st) ++ [s]) st in
        on_win (set_focused true) s (on_all (set_focused false) st)
  end.

Definition hit_close_button (w : window) (px py : Z) : bool :=
  let btn_x := i16 (x w + width w - TITLEBAR_HEIGHT) in
  (btn_x <=? px) && (px <? x w + width w) && (y w <=? py) && (py <? y w + TITLEBAR_HEIGHT).

Definition hit_minimize_button (w : window) (px py : Z) : bool :=
  let btn_x := i16 (x w + width w - 2 * TITLEBAR_HEIGHT) in
  (btn_x <=? px) && (px <? btn_x + TITLEBAR_HEIGHT) && (y w <=? py) && (py <? y w + TITLEBAR_HEIGHT).

Definition hit_titlebar (w : window) (px py : Z) : bool :=
  (x w <=? px) && (px <? x w + width w - 2 * TITLEBAR_HEIGHT) && (y w <=? py) && (py <? y w + TITLEBAR_HEIGHT).

Definition hit_window (w : window) (px py : Z) : bool :=
  (x w <=? px) && (px <? x w + width w) && (y w <=? py) && (py <? y w + height w).

(** The loops from the topmost window down. *)
Definition from_top (p : window -> bool) (st : wm) : option nat :=
  List.find (fun s => p (win st s)) (rev (z_order st)).

Definition wm_get_focused (st : wm) : option nat := from_top focused st.

(** The loop of a mouse move, which ends at a window that is being dragged. *)
Fixpoint mouse_move (mx my : Z) (z : list nat) (st : wm) : wm :=
  match z with
  | [] => st
  | s :: z =>
      let w := win st s in
      if dragging w then on_win (set_position (i16 (mx - drag_ox w)) (i16 (my - drag_oy w))) s st
      else
        let h := if hit_window w mx my then set_hover (hit_close_button w mx my) (hit_minimize_button w mx my)
                 else set_hover false false in
        mouse_move mx my z (on_win h s st)
  end.

Definition close_event (i : Z) : gui_event := GuiEv EVT_CLOSE 0 0 0 0 0 i.

Definition deliver (st : wm) (s : nat) (ev : gui_event) : wm * option (nat * gui_event) :=
  (st, match on_event (win st s) with Some _ => Some (s, ev) | None => None end).

Definition wm_minimize (st : wm) (s : nat) : wm :=
  let st := on_win (fun w => set_focused false (set_shown false true w)) s st in
  match from_top visible st with Some j => on_win (set_focused true) j st | None => st end.

Definition mouse_down (st : wm) (ev : gui_event) : wm * option (nat * gui_event) :=
  let mx := mouse_x ev in
  let my := mouse_y ev in
  match from_top (fun w => visible w && hit_window w mx my) st with
  | None => (st, None)
  | Some s =>
      let st := wm_bring_to_front st (id (win st s)) in
      let w := win st s in
      if hit_close_button w mx my then deliver st s (close_event (id w))
      else if hit_minimize_button w mx my then (wm_minimize st s, None)
      else if hit_titlebar w mx my then (on_win (set_dragging true (i16 (mx - x w)) (i16 (my - y w))) s st, None)
      else
        let local_x := i16 (mx - x w - BORDER_WIDTH) in
        let local_y := i16 (my - y w - TITLEBAR_HEIGHT - BORDER_WIDTH) in
        if (0 <=? local_x) && (0 <=? local_y) && (local_x <? client_w w) && (local_y <? client_h w) then
          deliver st s (GuiEv (ev_type ev) local_x local_y (mouse_button ev) (mouse_buttons ev) (key ev) (id w))
        else (st, None)
  end.

Definition wm_dispatch_event (st : wm) (ev : gui_event) : wm * option (nat * gui_event) :=
  match ev_type ev with
  | EVT_MOUSE_MOVE => (mouse_move (mouse_x ev) (mouse_y ev) (z_order st) st, None)
  | EVT_MOUSE_UP => (on_all (fun w => set_dragging false (drag_ox w) (drag_oy w) w) st, None)
  | EVT_MOUSE_DOWN => mouse_down st ev
  | EVT_KEY_DOWN =>
      match wm_get_focused st with
      | None => (st, None)
      | Some s => deliver st s (GuiEv (ev_type ev) (mouse_x ev) (mouse_y ev) (mouse_button ev) (mouse_buttons ev)
                                  (key ev) (id (win st s)))
      end
  | _ => (st, None)
  end.

Definition wm_get_window (st : wm) (i : Z) : option nat :=
  (fix go (ws : list window) (n : nat) :=
     match ws with
     | [] => None
     | w :: ws => if id w =? i then Some n else go ws (S n)
     end) (windows st) 0%nat.

Definition wm_get_window_list (st : wm) : list nat := z_order st.

Definition wm_clear_canvas (st : wm) (s : option nat) (color : Z) : wm :=
  match s with
  | None => st
  | Some s =>
      match canvas (win st s) with
      | None => st
      | Some _ => on_win (fun w => set_canvas (Some (replicate (Z.to_nat (client_w w * client_h w)) color)) w) s st
      end
  end.

(** A click on the [k]-th button of the taskbar (src/gui/desktop.c). *)
Definition taskbar_click (st : wm) (k : nat) : wm :=
  match z_order st !! k with
  | None => st
  | Some s =>
      let st := if minimized (win st s) then on_win (set_shown true false) s st else st in
      wm_bring_to_front st (id (win st s))
  end.
