(* ===== verification/WindowSpec.v ===== *)
(** * Correctness of the window manager

    [wm_ok] is the shape of the window table, [focus_ok] says that the one
    window with the focus is the topmost visible one.  Every operation keeps
    the first; the second is kept by every operation but two, which are
    singled out by [keeps_focus]. *)

From Stdlib Require Import String.
From stdpp Require Import sets.
From S2P Require Import Prelude CLib Ring Keyboard Mouse Event Window.

Record wm_ok (st : wm) : Prop := {
  wo_len : length (windows st) = MAX_WINDOWS;
  wo_nodup : NoDup (z_order st);
  wo_slots : Forall (fun s => (s < MAX_WINDOWS)%nat) (z_order st);
  wo_free : forall s, (s < MAX_WINDOWS)%nat -> s ∉ z_order st -> win st s = no_window;
  wo_id : forall s, s ∈ z_order st -> 0 < id (win st s) < next_id st;
  wo_ids : forall s t, s ∈ z_order st -> t ∈ z_order st -> id (win st s) = id (win st t) -> s = t;
  wo_shown : forall s, s ∈ z_order st -> minimized (win st s) = negb (visible (win st s))
}.

Definition focus_ok (st : wm) : Prop :=
  forall s, s ∈ z_order st -> focused (win st s) = true <-> from_top visible st = Some s.

(** ** Reading a window after an assignment *)

Lemma win_on_win f i st s : (i < length (windows st))%nat ->
  win (on_win f i st) s = if decide (s = i) then f (win st s) else win st s.
Proof.
  intros Hi. unfold win, on_win. cbn [windows]. rewrite !nth_lookup. case_decide as E.
  - subst s. rewrite list_lookup_alter_eq. destruct (windows st !! i) eqn:El; [done|].
    apply lookup_ge_None in El. lia.
  - by rewrite list_lookup_alter_ne.
Qed.

Lemma length_on_win f i st : length (windows (on_win f i st)) = length (windows st).
Proof. apply length_alter. Qed.

Lemma foldl_on_win f z st : let st' := foldl (fun st i => on_win f i st) st z in
  z_order st' = z_order st /\ next_id st' = next_id st /\ length (windows st') = length (windows st).
Proof.
  revert st. induction z as [|i z IH]; intros st; [done|]. cbn [foldl].
  destruct (IH (on_win f i st)) as (-> & -> & ->). by rewrite length_on_win.
Qed.

Lemma win_foldl f z st s : NoDup z -> Forall (fun i => (i < length (windows st))%nat) z ->
  win (foldl (fun st i => on_win f i st) st z) s = if decide (s ∈ z) then f (win st s) else win st s.
Proof.
  revert st. induction z as [|i z IH]; intros st Hn Hf; [done|].
  apply NoDup_cons in Hn as [Hi Hn]. apply Forall_cons in Hf as [Hl Hf]. cbn [foldl].
  rewrite IH by (rewrite ?length_on_win; done). rewrite win_on_win by done.
  destruct (decide (s = i)) as [->|Hne].
  - rewrite decide_False by done. rewrite decide_True by (left). done.
  - destruct (decide (s ∈ z)).
    + rewrite decide_True by (by right). done.
    + rewrite decide_False by (rewrite elem_of_cons; tauto). done.
Qed.

Lemma win_on_all f st s : wm_ok st ->
  win (on_all f st) s = if decide (s ∈ z_order st) then f (win st s) else win st s.
Proof. intros H. apply win_foldl; [apply H|]. rewrite (wo_len _ H). apply H. Qed.

Lemma win_slot_lt st s : wm_ok st -> s ∈ z_order st -> (s < MAX_WINDOWS)%nat.
Proof. intros H. apply (proj1 (Forall_forall _ _) (wo_slots _ H)). Qed.

Lemma slot_lt_len st s : wm_ok st -> s ∈ z_order st -> (s < length (windows st))%nat.
Proof. intros H. rewrite (wo_len _ H). by apply win_slot_lt. Qed.

(** ** Changes that keep the shape *)

(** [st'] has the windows of [st], with other attributes. *)
Record same_shape (st st' : wm) : Prop := {
  sh_z : z_order st' ≡ₚ z_order st;
  sh_next : next_id st' = next_id st;
  sh_len : length (windows st') = length (windows st);
  sh_free : forall s, s ∉ z_order st -> win st' s = win st s;
  sh_id : forall s, s ∈ z_order st -> id (win st' s) = id (win st s);
  sh_shown : forall s, s ∈ z_order st -> minimized (win st s) = negb (visible (win st s)) ->
    minimized (win st' s) = negb (visible (win st' s))
}.

Lemma same_shape_ok st st' : same_shape st st' -> wm_ok st -> wm_ok st'.
Proof.
  intros [Hz Hn Hl Hf Hi Hs] [H1 H2 H3 H4 H5 H6 H7]. split.
  - by rewrite Hl.
  - by rewrite Hz.
  - by rewrite Hz.
  - intros s Hs1 Hs2. rewrite Hz in Hs2. rewrite Hf; auto.
  - intros s Hs1. rewrite Hz in Hs1. rewrite Hi, Hn; auto.
  - intros s t Hs1 Ht. rewrite Hz in Hs1, Ht. rewrite !Hi; auto.
  - intros s Hs1. rewrite Hz in Hs1. auto.
Qed.

#[global] Instance same_shape_trans : Transitive same_shape.
Proof.
  intros a b c [A1 A2 A3 A4 A5 A6] [B1 B2 B3 B4 B5 B6]. split.
  - by rewrite B1.
  - by rewrite B2.
  - by rewrite B3.
  - intros s Hs. rewrite B4, A4; [done|done|by rewrite A1].
  - intros s Hs. rewrite B5, A5; [done|done|by rewrite A1].
  - intros s Hs Hm. apply B6; [by rewrite A1|]. by apply A6.
Qed.

#[global] Instance same_shape_refl : Reflexive same_shape.
Proof. by intros st. Qed.

(** Assignments to attributes other than the id and the visibility. *)
Definition plain (f : window -> window) : Prop :=
  forall w, id (f w) = id w /\ visible (f w) = visible w /\ minimized (f w) = minimized w.

Lemma on_win_shape st f s : wm_ok st -> s ∈ z_order st ->
  (forall w, id (f w) = id w /\ (minimized w = negb (visible w) -> minimized (f w) = negb (visible (f w)))) ->
  same_shape st (on_win f s st).
Proof.
  intros Hok Hs Hf. pose proof (slot_lt_len _ _ Hok Hs) as Hl. split; try done.
  - apply length_on_win.
  - intros t Ht. rewrite win_on_win by done. by rewrite decide_False by (intros ->; done).
  - intros t _. rewrite win_on_win by done. case_decide; [apply Hf|done].
  - intros t _ Hm. rewrite win_on_win by done. case_decide; [by apply Hf|done].
Qed.

Lemma plain_shape f : plain f ->
  forall w, id (f w) = id w /\ (minimized w = negb (visible w) -> minimized (f w) = negb (visible (f w))).
Proof. intros Hf w. destruct (Hf w) as (-> & -> & ->). done. Qed.

Lemma on_all_shape st f : wm_ok st -> plain f -> same_shape st (on_all f st).
Proof.
  intros Hok Hf. destruct (foldl_on_win f (z_order st) st) as (E1 & E2 & E3). unfold on_all in *.
  split; [by rewrite E1|done|done| | |].
  - intros s Hs. fold (on_all f st). rewrite win_on_all by done. by rewrite decide_False.
  - intros s Hs. fold (on_all f st). rewrite win_on_all by done. rewrite decide_True by done. apply Hf.
  - intros s Hs Hm. fold (on_all f st). rewrite win_on_all by done. rewrite decide_True by done. by apply plain_shape.
Qed.

Lemma restack_shape st z : z ≡ₚ z_order st -> same_shape st (restack z st).
Proof. intros Hz. by split. Qed.

Lemma plain_focused b : plain (set_focused b).
Proof. done. Qed.
Lemma plain_hover a b : plain (set_hover a b).
Proof. done. Qed.
Lemma plain_position a b : plain (set_position a b).
Proof. done. Qed.
Lemma plain_dragging b p q : plain (fun w => set_dragging b (p w) (q w) w).
Proof. done. Qed.

Create HintDb wm.
#[export] Hint Resolve plain_focused plain_hover plain_position plain_dragging plain_shape on_win_shape on_all_shape : wm.

(** ** Searching *)

Lemma find_rev_last {A} (p : A -> bool) l : List.find p (rev l) = last (List.filter p l).
Proof.
  induction l as [|a l IH] using rev_ind; [done|].
  rewrite rev_app_distr, List.filter_app. cbn [rev app List.find List.filter]. destruct (p a).
  - by rewrite last_snoc.
  - by rewrite app_nil_r, IH.
Qed.

Definition shown (st : wm) : list nat := List.filter (fun s => visible (win st s)) (z_order st).

Lemma from_top_visible st : from_top visible st = last (shown st).
Proof. apply find_rev_last. Qed.

Lemma from_top_Some p st s : from_top p st = Some s -> s ∈ z_order st /\ p (win st s) = true.
Proof.
  intros H. apply find_some in H as [H1 H2]. split; [|done]. apply list_elem_of_In. by apply in_rev.
Qed.

Lemma elem_of_shown st s : s ∈ shown st <-> s ∈ z_order st /\ visible (win st s) = true.
Proof. unfold shown. by rewrite !list_elem_of_In, filter_In. Qed.

Lemma shown_ext st st' : z_order st' = z_order st ->
  (forall s, s ∈ z_order st -> visible (win st' s) = visible (win st s)) -> shown st' = shown st.
Proof.
  intros Hz Hv. unfold shown. rewrite Hz. apply filter_ext_in. intros s Hs. apply Hv. by apply list_elem_of_In.
Qed.

Lemma z_index_Some st i z k : z_index st i z = Some k ->
  exists l1 s l2, z = l1 ++ s :: l2 /\ length l1 = k /\ id (win st s) = i.
Proof.
  revert k. induction z as [|s z IH]; intros k; [done|]. cbn [z_index].
  destruct (Z.eqb_spec (id (win st s)) i) as [E|E].
  - intros <-%(inj Some). by exists [], s, z.
  - destruct (z_index st i z) as [k'|]; [|done]. intros <-%(inj Some).
    destruct (IH k' eq_refl) as (l1 & t & l2 & -> & <- & Ht). by exists (s :: l1), t, l2.
Qed.

Lemma z_index_None st i z : z_index st i z = None -> forall s, s ∈ z -> id (win st s) <> i.
Proof.
  induction z as [|s z IH]; [intros _ s Hs; by apply not_elem_of_nil in Hs|]. cbn [z_index].
  destruct (Z.eqb_spec (id (win st s)) i) as [E|E]; [done|].
  destruct (z_index st i z); [done|]. intros _ t Ht. apply elem_of_cons in Ht as [->|Ht]; auto.
Qed.

(** The window of an id, and its place in the stack. *)
Lemma z_index_self st s : wm_ok st -> s ∈ z_order st ->
  exists l1 l2, z_order st = l1 ++ s :: l2 /\ z_index st (id (win st s)) (z_order st) = Some (length l1).
Proof.
  intros Hok Hs. destruct (z_index st (id (win st s)) (z_order st)) as [k|] eqn:E.
  - destruct (z_index_Some _ _ _ _ E) as (l1 & t & l2 & Hz & Hk & Ht).
    assert (t = s) as -> by (apply (wo_ids _ Hok); [rewrite Hz; set_solver|done|done]).
    exists l1, l2. by rewrite Hk.
  - by destruct (z_index_None _ _ _ E s Hs).
Qed.

(** ** Bringing a window to the front *)

Lemma delete_nth {A} (l1 l2 : list A) s d : delete (length l1) (l1 ++ s :: l2) = l1 ++ l2 /\ nth (length l1) (l1 ++ s :: l2) d = s.
Proof.
  split.
  - induction l1; cbn; [done|]. f_equal. done.
  - rewrite app_nth2, Nat.sub_diag by lia. done.
Qed.

Lemma bring_to_front_shape st i : wm_ok st -> same_shape st (wm_bring_to_front st i).
Proof.
  intros Hok. unfold wm_bring_to_front. destruct (z_index st i (z_order st)) as [k|] eqn:E; [|done].
  destruct (z_index_Some _ _ _ _ E) as (l1 & s & l2 & Hz & <- & Hi). case_match; [done|].
  destruct (delete_nth l1 l2 s 0%nat) as [D1 D2]. rewrite Hz, D1, D2.
  assert (same_shape st (restack ((l1 ++ l2) ++ [s]) st)) as S1.
  { apply restack_shape. rewrite Hz. rewrite <- app_assoc. apply Permutation_app_head. symmetry. apply Permutation_cons_append. }
  pose proof (same_shape_ok _ _ S1 Hok) as Hok1.
  assert (same_shape st (on_all (set_focused false) (restack ((l1 ++ l2) ++ [s]) st))) as S2 by (etransitivity; eauto with wm).
  etransitivity; [exact S2|]. apply on_win_shape; [by eapply same_shape_ok| |eauto with wm].
  destruct (foldl_on_win (set_focused false) ((l1 ++ l2) ++ [s]) (restack ((l1 ++ l2) ++ [s]) st)) as [Ez _].
  unfold on_all. cbn [z_order restack] in *. rewrite Ez. set_solver.
Qed.

(** A window of the stack that is not on top becomes the top one, and the only
    one with the focus. *)
Lemma bring_to_front_spec st s l1 l2 : wm_ok st -> z_order st = l1 ++ s :: l2 -> l2 <> [] ->
  let st' := wm_bring_to_front st (id (win st s)) in
  z_order st' = l1 ++ l2 ++ [s] /\
  forall t, t ∈ z_order st -> win st' t = set_focused (bool_decide (t = s)) (win st t).
Proof.
  intros Hok Hz Hne. assert (s ∈ z_order st) as Hs by (rewrite Hz; set_solver).
  destruct (z_index_self st s Hok Hs) as (l1' & l2' & Hz' & E).
  assert (l1' = l1 /\ l2' = l2) as [-> ->].
  { rewrite Hz in Hz'. pose proof (wo_nodup _ Hok) as Hnd. rewrite Hz in Hnd. apply NoDup_app in Hnd as (_ & Hd & Hnd).
    apply NoDup_cons in Hnd as [Hn _].
    assert (s ∉ l1) as Hn1 by (intros H; apply (Hd s H); left).
    clear - Hz' Hn Hn1. revert l1' Hz'. induction l1 as [|a l1 IH]; intros [|b l1']; cbn; intros H.
    - by simplify_eq.
    - simplify_eq. destruct Hn. set_solver.
    - simplify_eq. destruct Hn1. left.
    - injection H as <- H. destruct (IH ltac:(set_solver) l1' H) as [-> ->]. done. }
  unfold wm_bring_to_front. rewrite E. unfold win_count. rewrite Hz, length_app. cbn [length].
  rewrite (proj2 (Nat.eqb_neq _ _)) by (destruct l2; [done|cbn [length]; lia]).
  destruct (delete_nth l1 l2 s 0%nat) as [-> ->]. rewrite <- app_assoc.
  set (st1 := restack (l1 ++ l2 ++ [s]) st).
  assert (same_shape st st1) as S1.
  { apply restack_shape. rewrite Hz. apply Permutation_app_head. symmetry. apply Permutation_cons_append. }
  pose proof (same_shape_ok _ _ S1 Hok) as Hok1.
  pose proof (same_shape_ok _ _ (on_all_shape st1 (set_focused false) Hok1 (plain_focused false)) Hok1) as Hok2.
  destruct (foldl_on_win (set_focused false) (z_order st1) st1) as (Ez & _ & _). cbv zeta. split; [exact Ez|].
  intros t Ht. assert (s ∈ l1 ++ l2 ++ [s]) as Hs1 by set_solver.
  assert (t ∈ l1 ++ l2 ++ [s]) as Ht1 by set_solver.
  rewrite win_on_win by (apply slot_lt_len; [exact Hok2|]; unfold on_all; rewrite Ez; exact Hs1).
  rewrite win_on_all by done. destruct (decide (t ∈ z_order st1)) as [_|Hno]; [|by destruct Hno].
  case_decide as Et.
  - by rewrite bool_decide_eq_true_2.
  - by rewrite bool_decide_eq_false_2.
Qed.

(** After that the window is on top in any case. *)
Lemma bring_to_front_top st s : wm_ok st -> s ∈ z_order st ->
  exists l, z_order (wm_bring_to_front st (id (win st s))) = l ++ [s].
Proof.
  intros Hok Hs. destruct (z_index_self st s Hok Hs) as (l1 & l2 & Hz & E).
  destruct (decide (l2 = [])) as [->|Hne].
  - exists l1. unfold wm_bring_to_front. rewrite E. unfold win_count. rewrite Hz, length_app. cbn [length].
    replace (_ =? _)%nat with true by (symmetry; apply Nat.eqb_eq; lia). done.
  - destruct (bring_to_front_spec st s l1 l2 Hok Hz Hne) as [-> _]. exists (l1 ++ l2). by rewrite app_assoc.
Qed.

(** ** Creating a window *)

Lemma free_slot_Some ws i : free_slot ws = Some i -> (i < length ws)%nat /\ id (nth i ws no_window) = 0.
Proof.
  revert i. induction ws as [|w ws IH]; intros i; [done|]. cbn [free_slot].
  destruct (Z.eqb_spec (id w) 0) as [E|E].
  - intros <-%(inj Some). cbn. split; [lia|done].
  - destruct (free_slot ws) as [k|]; [|done]. intros <-%(inj Some). destruct (IH k eq_refl). cbn. split; [lia|done].
Qed.

(** The state after the new window is entered, before the focus is moved. *)
Lemma wm_enter_ok st i new : wm_ok st -> (i < MAX_WINDOWS)%nat -> i ∉ z_order st -> next_id st < 2 ^ 32 - 1 ->
  id new = next_id st -> 0 < next_id st -> minimized new = negb (visible new) ->
  wm_ok (Wm (<[i := new]> (windows st)) (z_order st ++ [i]) (u32 (next_id st + 1))).
Proof.
  intros Hok Hi Hz Hn Hid Hpos Hsh. set (st1 := Wm _ _ _).
  assert (win st1 i = new) as Ei.
  { unfold win, st1. cbn [windows]. rewrite nth_lookup, list_lookup_insert_eq; [done|]. by rewrite (wo_len _ Hok). }
  assert (forall s, s <> i -> win st1 s = win st s) as En.
  { intros s Hs. unfold win, st1. cbn [windows]. by rewrite !nth_lookup, list_lookup_insert_ne by done. }
  assert (next_id st1 = next_id st + 1) as Enext by (unfold st1; cbn; apply wrap_small; unfold is_word; lia).
  assert (forall s, s ∈ z_order st -> s <> i) as Hne by (intros s Hs ->; done).
  destruct Hok as [H1 H2 H3 H4 H5 H6 H7]. split.
  - unfold st1. cbn. by rewrite length_insert.
  - apply NoDup_app. split; [done|]. split; [set_solver|apply NoDup_singleton].
  - apply Forall_app. split; [done|by apply Forall_singleton].
  - intros s Hs Hs'. unfold st1 in Hs'. cbn in Hs'. rewrite En by set_solver. apply H4; [done|set_solver].
  - intros s [Hs|Hs%list_elem_of_singleton]%elem_of_app; [|subst s].
    + rewrite En by auto. rewrite Enext. specialize (H5 s Hs). lia.
    + rewrite Ei, Enext. lia.
  - intros s t [Hs|Hs%list_elem_of_singleton]%elem_of_app [Ht|Ht%list_elem_of_singleton]%elem_of_app.
    + rewrite !En by auto. auto.
    + rewrite Ht, En, Ei by auto. specialize (H5 s Hs). lia.
    + rewrite Hs, Ei, En by auto. specialize (H5 t Ht). lia.
    + by rewrite Hs, Ht.
  - intros s [Hs|Hs%list_elem_of_singleton]%elem_of_app; [rewrite En by auto; auto|by rewrite Hs, Ei].
Qed.

(** The focus moves to the topmost window [i] of the stack. *)
Lemma focus_moves st i : wm_ok st -> i ∈ z_order st ->
  let st' := on_win (set_focused true) i (on_all (set_focused false) st) in
  same_shape st st' /\ z_order st' = z_order st /\
  forall t, t ∈ z_order st -> win st' t = set_focused (bool_decide (t = i)) (win st t).
Proof.
  intros Hok Hi. cbv zeta. pose proof (on_all_shape st (set_focused false) Hok (plain_focused false)) as S1.
  pose proof (same_shape_ok _ _ S1 Hok) as Hok1.
  destruct (foldl_on_win (set_focused false) (z_order st) st) as (Ez & _ & _).
  assert (i ∈ z_order (on_all (set_focused false) st)) as Hi1 by (unfold on_all; by rewrite Ez).
  split; [etransitivity; [exact S1|]; by apply on_win_shape; [..|apply plain_shape, plain_focused]|].
  split; [exact Ez|]. intros t Ht. rewrite win_on_win by (by apply slot_lt_len).
  rewrite win_on_all by done. destruct (decide (t ∈ z_order st)) as [_|Hno]; [|by destruct Hno].
  case_decide; [by rewrite bool_decide_eq_true_2|by rewrite bool_decide_eq_false_2].
Qed.

Lemma create_spec st t px py w h ev pt ok : wm_ok st -> 0 < next_id st < 2 ^ 32 - 1 ->
  let '(st', r) := wm_create_window st t px py w h ev pt ok in
  wm_ok st' /\ 0 < next_id st' /\
  match r with
  | None => st' = st
  | Some i =>
      i ∉ z_order st /\ z_order st' = z_order st ++ [i] /\ id (win st' i) = next_id st /\ visible (win st' i) = true /\
      (forall s, s ∈ z_order st' -> focused (win st' s) = bool_decide (s = i)) /\
      (forall s, s ∈ z_order st -> visible (win st' s) = visible (win st s))
  end.
Proof.
  intros Hok Hn. unfold wm_create_window. destruct (_ <=? _)%nat; [split_and!; [done|lia|done]|].
  destruct (free_slot (windows st)) as [i|] eqn:E; [|split_and!; [done|lia|done]].
  destruct (free_slot_Some _ _ E) as [Hi Hid]. rewrite (wo_len _ Hok) in Hi. fold (win st i) in Hid.
  assert (i ∉ z_order st) as Hz by (intros H; pose proof (wo_id _ Hok i H); lia).
  rewrite (wo_free _ Hok i Hi Hz). set (new := Window _ _ _ _ _ _ _ _ _ _ _ _ _ _ _ _ _ _ _).
  pose proof (wm_enter_ok st i new Hok Hi Hz (proj2 Hn) eq_refl (proj1 Hn) eq_refl) as Hok1. cbv zeta.
  set (st1 := Wm _ _ _) in *.
  assert (i ∈ z_order st1) as Hi1 by (apply elem_of_app; right; by apply list_elem_of_singleton).
  destruct (focus_moves st1 i Hok1 Hi1) as (S & Ez & Hw). set (st2 := on_win _ _ _) in *.
  split; [by eapply same_shape_ok|].
  assert (next_id st1 = next_id st + 1) as En1 by (apply wrap_small; unfold is_word; lia).
  assert (win st1 i = new) as Ei.
  { unfold win, st1. cbn [windows]. rewrite nth_lookup, list_lookup_insert_eq; [done|]. by rewrite (wo_len _ Hok). }
  split; [rewrite (sh_next _ _ S); lia|]. split; [done|]. split; [done|].
  rewrite (Hw i Hi1), Ei. split; [done|]. split; [done|]. split.
  - intros s Hs. rewrite Ez in Hs. by rewrite Hw.
  - intros s Hs. rewrite Hw by (apply elem_of_app; by left). cbn [set_focused visible].
    unfold win, st1. cbn [windows]. rewrite !nth_lookup, list_lookup_insert_ne; [done|]. intros ->. done.
Qed.

(** ** Destroying a window *)

Lemma destroy_spec st i : wm_ok st ->
  let st' := wm_destroy_window st i in
  wm_ok st' /\ next_id st' = next_id st /\
  ((forall s, s ∈ z_order st -> id (win st s) <> i) /\ st' = st \/
   exists l1 s l2, z_order st = l1 ++ s :: l2 /\ id (win st s) = i /\ z_order st' = l1 ++ l2 /\
     (forall t, t ∈ l1 ++ l2 -> win st' t =
        if decide (last (l1 ++ l2) = Some t) then set_focused true (win st t) else win st t)).
Proof.
  intros Hok. cbv zeta. unfold wm_destroy_window. destruct (z_index st i (z_order st)) as [k|] eqn:E.
  2:{ split; [done|]. split; [done|]. left. split; [by apply z_index_None|done]. }
  destruct (z_index_Some _ _ _ _ E) as (l1 & s & l2 & Hz & <- & Hi).
  destruct (delete_nth l1 l2 s 0%nat) as [D1 D2]. rewrite Hz, D1, D2.
  set (st1 := on_win (fun _ => no_window) s (restack (l1 ++ l2) st)).
  assert (s < length (windows (restack (l1 ++ l2) st)))%nat as Hs by (apply (slot_lt_len st s); [done|]; rewrite Hz; set_solver).
  assert (forall t, win st1 t = if decide (t = s) then no_window else win st t) as Hw.
  { intros t. unfold st1. rewrite win_on_win by done. done. }
  pose proof (wo_nodup _ Hok) as Hnd. rewrite Hz in Hnd.
  assert (NoDup (l1 ++ l2) /\ s ∉ l1 ++ l2) as [Hnd' Hns].
  { apply NoDup_app in Hnd as (A & B & C). apply NoDup_cons in C as [C D]. split; [apply NoDup_app; set_solver|set_solver]. }
  assert (forall t, t ∈ l1 ++ l2 -> win st1 t = win st t /\ t ∈ z_order st) as Hin.
  { intros t Ht. rewrite Hw, decide_False by (intros ->; done). split; [done|]. rewrite Hz. set_solver. }
  assert (wm_ok st1) as Hok1.
  { pose proof Hok as [H1 H2 H3 H4 H5 H6 H7]. split.
    - unfold st1. by rewrite length_on_win.
    - done.
    - rewrite Hz in H3. apply Forall_app in H3 as [? [_ ?]%Forall_cons]. by apply Forall_app_2.
    - intros t Ht Ht'. change (t ∉ l1 ++ l2) in Ht'. rewrite Hw. case_decide; [done|]. apply H4; [done|]. rewrite Hz. set_solver.
    - intros t Ht. destruct (Hin t Ht) as [-> Ht2]. by apply H5.
    - intros t u Ht Hu. destruct (Hin t Ht) as [-> Ht2], (Hin u Hu) as [-> Hu2]. by apply H6.
    - intros t Ht. destruct (Hin t Ht) as [-> Ht2]. by apply H7. }
  assert (z_order st1 = l1 ++ l2) as Ez1 by done.
  assert (same_shape st1 (focus_top st1) /\ z_order (focus_top st1) = l1 ++ l2 /\
    forall t, t ∈ l1 ++ l2 -> win (focus_top st1) t =
      if decide (last (l1 ++ l2) = Some t) then set_focused true (win st1 t) else win st1 t) as (S & Ez & Hw2).
  { unfold focus_top. rewrite Ez1. destruct (last (l1 ++ l2)) as [top|] eqn:El.
    - assert (top ∈ z_order st1) as Ht by (rewrite Ez1; by apply last_Some_elem_of).
      split; [apply on_win_shape; [done|done|]; apply plain_shape, plain_focused|]. split; [done|].
      intros t _. rewrite win_on_win by (by apply slot_lt_len).
      destruct (decide (t = top)) as [->|]; [by rewrite decide_True|]. rewrite decide_False; [done|]. intros H. by simplify_eq.
    - split; [done|]. split; [done|]. intros t _. by rewrite decide_False by done. }
  split; [by eapply same_shape_ok|]. split; [by rewrite (sh_next _ _ S)|]. right. exists l1, s, l2.
  split; [done|]. split; [done|]. split; [done|]. intros t Ht. rewrite Hw2 by done. by destruct (Hin t Ht) as [-> _].
Qed.

(** ** Events *)

(** Only attributes that matter to neither the stack nor the focus changed. *)
Definition quiet (st st' : wm) : Prop :=
  same_shape st st' /\ z_order st' = z_order st /\
  forall s, s ∈ z_order st -> visible (win st' s) = visible (win st s) /\ focused (win st' s) = focused (win st s).

#[global] Instance quiet_refl : Reflexive quiet.
Proof. intros st. split; [done|]. by split. Qed.

#[global] Instance quiet_trans : Transitive quiet.
Proof.
  intros a b c (S1 & Z1 & H1) (S2 & Z2 & H2). split; [by etransitivity|]. split; [by rewrite Z2|].
  intros s Hs. destruct (H1 s Hs) as [<- <-]. apply H2. by rewrite Z1.
Qed.

Lemma quiet_on_win st f s : wm_ok st -> s ∈ z_order st -> plain f -> (forall w, focused (f w) = focused w) -> quiet st (on_win f s st).
Proof.
  intros Hok Hs Hf Hg. split; [apply on_win_shape; [done|done|by apply plain_shape]|]. split; [done|].
  intros t Ht. rewrite win_on_win by (by apply slot_lt_len). case_decide; [|done]. split; [apply Hf|apply Hg].
Qed.

Lemma quiet_on_all st f : wm_ok st -> plain f -> (forall w, focused (f w) = focused w) -> quiet st (on_all f st).
Proof.
  intros Hok Hf Hg. split; [by apply on_all_shape|]. split; [apply foldl_on_win|].
  intros t Ht. rewrite win_on_all, decide_True by done. split; [apply Hf|apply Hg].
Qed.

Lemma quiet_focus st st' : quiet st st' -> focus_ok st -> focus_ok st'.
Proof.
  intros (_ & Hz & H) Hf s Hs. rewrite Hz in Hs. destruct (H s Hs) as [_ ->].
  rewrite from_top_visible, (shown_ext st st'), <- from_top_visible; [by apply Hf|done|]. intros t Ht. by apply H.
Qed.

Lemma mouse_move_quiet mx my z st : wm_ok st -> (forall s, s ∈ z -> s ∈ z_order st) -> quiet st (mouse_move mx my z st).
Proof.
  revert st. induction z as [|s z IH]; intros st Hok Hz; [done|]. cbn [mouse_move]. cbv zeta.
  assert (s ∈ z_order st) as Hs by (apply Hz; left). case_match; [by apply quiet_on_win|].
  set (st1 := on_win _ s st). assert (quiet st st1) as Q by (by unfold st1; case_match; apply quiet_on_win).
  etransitivity; [exact Q|]. destruct Q as (S & Ez & _). apply IH; [by eapply same_shape_ok|].
  intros t Ht. rewrite Ez. apply Hz. by right.
Qed.

Lemma last_filter_snoc (p : nat -> bool) l s : p s = true -> last (List.filter p (l ++ [s])) = Some s.
Proof. intros H. rewrite List.filter_app. cbn. rewrite H. by rewrite last_snoc. Qed.

(** The only window with the focus is the topmost one, which is visible. *)
Lemma top_focus st l s : z_order st = l ++ [s] -> visible (win st s) = true ->
  (forall t, t ∈ z_order st -> focused (win st t) = bool_decide (t = s)) -> focus_ok st.
Proof.
  intros Hz Hv Hf t Ht. rewrite from_top_visible. unfold shown. rewrite Hz, last_filter_snoc by done.
  rewrite Hf by done. rewrite bool_decide_eq_true. split; [by intros ->|intros H; by simplify_eq].
Qed.

Lemma front_focus st s : wm_ok st -> s ∈ z_order st -> visible (win st s) = true ->
  focus_ok st \/ last (z_order st) <> Some s -> focus_ok (wm_bring_to_front st (id (win st s))).
Proof.
  intros Hok Hs Hv Hor. destruct (z_index_self st s Hok Hs) as (l1 & l2 & Hz & E).
  destruct (decide (l2 = [])) as [->|Hne].
  - destruct Hor as [Hf|Hl]; [|by rewrite Hz, last_snoc in Hl].
    unfold wm_bring_to_front. rewrite E. unfold win_count. rewrite Hz, length_app. cbn [length].
    replace (_ =? _)%nat with true by (symmetry; apply Nat.eqb_eq; lia). done.
  - destruct (bring_to_front_spec st s l1 l2 Hok Hz Hne) as [Ez Hw].
    apply (top_focus _ (l1 ++ l2) s).
    + by rewrite Ez, app_assoc.
    + by rewrite Hw.
    + intros t Ht. rewrite Hw; [done|]. rewrite Ez in Ht. rewrite Hz. set_solver.
Qed.

Lemma minimize_ok st l s : wm_ok st -> z_order st = l ++ [s] ->
  same_shape st (wm_minimize st s) /\ (visible (win st s) = true -> focus_ok st -> focus_ok (wm_minimize st s)).
Proof.
  intros Hok Hz. unfold wm_minimize. set (hide := fun w => set_focused false (set_shown false true w)).
  assert (s ∈ z_order st) as Hs by (rewrite Hz; set_solver).
  assert (same_shape st (on_win hide s st)) as S1 by (by apply on_win_shape).
  pose proof (same_shape_ok _ _ S1 Hok) as Hok1. set (st1 := on_win hide s st) in *.
  assert (z_order st1 = z_order st) as Ez by done.
  destruct (from_top visible st1) as [j|] eqn:Ej.
  - destruct (from_top_Some _ _ _ Ej) as [Hj Hvj].
    split; [etransitivity; [exact S1|]; apply on_win_shape; [done|done|apply plain_shape, plain_focused]|].
    intros Hv Hf t Ht. change (t ∈ z_order st) in Ht.
    rewrite from_top_visible, (shown_ext st1), <- from_top_visible, Ej; [|done|].
    2:{ intros u Hu. rewrite win_on_win by (by apply slot_lt_len). by case_decide. }
    rewrite win_on_win by (by apply slot_lt_len). case_decide as Etj; [subst t; done|].
    split; [|intros H; by simplify_eq]. unfold st1. rewrite win_on_win by (by apply slot_lt_len).
    case_decide; [done|]. intros Hft%Hf; [|done].
    rewrite from_top_visible in Hft. unfold shown in Hft. rewrite Hz, last_filter_snoc in Hft by done. by simplify_eq.
  - split; [done|]. intros Hv Hf t Ht. change (t ∈ z_order st) in Ht. rewrite Ej. split; [|done].
    unfold st1. rewrite win_on_win by (by apply slot_lt_len). case_decide; [done|]. intros Hft%Hf; [|done].
    rewrite from_top_visible in Hft. unfold shown in Hft. rewrite Hz, last_filter_snoc in Hft by done. by simplify_eq.
Qed.

Lemma front_win st s t : wm_ok st -> s ∈ z_order st -> t ∈ z_order st ->
  exists b, win (wm_bring_to_front st (id (win st s))) t = set_focused b (win st t).
Proof.
  intros Hok Hs Ht. destruct (z_index_self st s Hok Hs) as (l1 & l2 & Hz & E).
  destruct (decide (l2 = [])) as [->|Hne].
  - exists (focused (win st t)). unfold wm_bring_to_front. rewrite E. unfold win_count. rewrite Hz, length_app. cbn [length].
    replace (_ =? _)%nat with true by (symmetry; apply Nat.eqb_eq; lia). by destruct (win st t).
  - destruct (bring_to_front_spec st s l1 l2 Hok Hz Hne) as [_ Hw]. eauto.
Qed.

(** What a step owes: the shape, and the focus when [b] says so. *)
Definition step_ok (b : bool) (st st' : wm) : Prop :=
  wm_ok st' /\ 0 < next_id st' /\ (b = true -> focus_ok st -> focus_ok st').

Lemma step_shape b st st' : wm_ok st -> 0 < next_id st -> same_shape st st' ->
  (b = true -> focus_ok st -> focus_ok st') -> step_ok b st st'.
Proof. intros Hok Hn S Hf. split; [by eapply same_shape_ok|]. split; [by rewrite (sh_next _ _ S)|done]. Qed.

Lemma step_quiet b st st' : wm_ok st -> 0 < next_id st -> quiet st st' -> step_ok b st st'.
Proof. intros Hok Hn Q. apply step_shape; [done|done|apply Q|]. intros _. by apply quiet_focus. Qed.

Lemma mouse_down_ok st ev : wm_ok st -> 0 < next_id st -> step_ok true st (mouse_down st ev).1.
Proof.
  intros Hok Hn. unfold mouse_down. destruct (from_top _ st) as [s|] eqn:E; [|by apply step_quiet].
  destruct (from_top_Some _ _ _ E) as [Hs [Hv Hh]%andb_true_iff].
  pose proof (bring_to_front_shape st (id (win st s)) Hok) as S1.
  pose proof (same_shape_ok _ _ S1 Hok) as Hok1.
  destruct (bring_to_front_top st s Hok Hs) as [l Ez].
  destruct (front_win st s s Hok Hs Hs) as [b Hw].
  pose proof (fun Hf => front_focus st s Hok Hs Hv (or_introl Hf)) as Hfocus.
  cbv zeta. set (st1 := wm_bring_to_front st (id (win st s))) in *.
  assert (s ∈ z_order st1) as Hs1 by (rewrite Ez; set_solver).
  assert (step_ok true st st1) as H1 by (apply step_shape; auto).
  assert (forall st2, quiet st1 st2 -> step_ok true st st2) as Hq.
  { intros st2 Q. apply step_shape; [done|done|etransitivity; [exact S1|apply Q]|].
    intros _ Hf. apply (quiet_focus st1); auto. }
  case_match; [exact H1|]. case_match.
  { destruct (minimize_ok st1 l s Hok1 Ez) as [S2 Hf2]. apply step_shape; [done|done|by etransitivity|].
    intros _ Hf. apply Hf2; [by rewrite Hw|auto]. }
  case_match; [apply Hq; by apply quiet_on_win|]. case_match; exact H1.
Qed.

Lemma dispatch_ok st ev : wm_ok st -> 0 < next_id st -> step_ok true st (wm_dispatch_event st ev).1.
Proof.
  intros Hok Hn. unfold wm_dispatch_event. destruct (ev_type ev); try (by apply step_quiet).
  - apply step_quiet; [done|done|]. by apply mouse_move_quiet.
  - by apply mouse_down_ok.
  - apply step_quiet; [done|done|]. by apply quiet_on_all.
  - destruct (wm_get_focused st); by apply step_quiet.
Qed.

(** ** The operations, and which keep the focus where it belongs *)

Inductive wm_op :=
  | Create (t : list Z) (px py w h : Z) (ev pt : option nat) (ok : bool)
  | Destroy (i : Z)
  | ToFront (i : Z)
  | Dispatch (ev : gui_event)
  | Taskbar (k : nat)
  | Clear (s : nat) (color : Z).

Definition apply_op (st : wm) (op : wm_op) : wm :=
  match op with
  | Create t px py w h ev pt ok => (wm_create_window st t px py w h ev pt ok).1
  | Destroy i => wm_destroy_window st i
  | ToFront i => wm_bring_to_front st i
  | Dispatch ev => (wm_dispatch_event st ev).1
  | Taskbar k => taskbar_click st k
  | Clear s color => wm_clear_canvas st (Some s) color
  end.

Definition is_top (st : wm) (p : window -> bool) : bool :=
  match last (z_order st) with Some t => p (win st t) | None => true end.

(** Not kept: destroying a window so that a minimised one is left on top, and
    restoring from the taskbar the minimised window that is on top. *)
Definition keeps_focus (st : wm) (op : wm_op) : bool :=
  match op with
  | Destroy i => is_top (wm_destroy_window st i) visible
  | ToFront i => forallb (fun s => negb (id (win st s) =? i) || visible (win st s)) (z_order st)
  | Taskbar k => negb (k =? win_count st - 1)%nat || is_top st visible
  | _ => true
  end.

Definition ids_left (st : wm) : Prop := next_id st < 2 ^ 32 - 1.

Lemma destroy_focus st i : wm_ok st -> is_top (wm_destroy_window st i) visible = true -> focus_ok st ->
  focus_ok (wm_destroy_window st i).
Proof.
  intros Hok Ht Hf. destruct (destroy_spec st i Hok) as (Hok' & _ & [[_ ->]|(l1 & s & l2 & Hz & Hi & Ez & Hw)]); [done|].
  cbv zeta in *. set (st' := wm_destroy_window st i) in *. unfold is_top in Ht. rewrite Ez in Ht.
  destruct (last (l1 ++ l2)) as [top|] eqn:El.
  2:{ apply last_None in El. intros t Hin. rewrite Ez, El in Hin. by apply not_elem_of_nil in Hin. }
  assert (top ∈ l1 ++ l2) as Htop by (by apply last_Some_elem_of).
  assert (visible (win st top) = true) as Hv by (rewrite Hw, decide_True in Ht by done; done).
  apply last_Some in El as [l El]. apply (top_focus st' l top); [by rewrite Ez|done|].
  intros t Hin. rewrite Ez in Hin. rewrite Hw by done.
  destruct (decide (t = top)) as [->|Hne].
  { rewrite decide_True, bool_decide_eq_true_2 by done. done. }
  rewrite decide_False, bool_decide_eq_false_2 by (done || by intros [=]).
  apply not_true_is_false. intros Hft%Hf; [|rewrite Hz; set_solver].
  rewrite from_top_visible in Hft. unfold shown in Hft. rewrite Hz in Hft. apply Hne.
  pose proof (wo_nodup _ Hok) as Hnd. rewrite Hz in Hnd. apply NoDup_app in Hnd as (_ & Hd & [Hns _]%NoDup_cons).
  destruct (decide (l2 = [])) as [->|Hl2].
  - rewrite app_nil_r in El. subst l1. rewrite List.filter_app in Hft. cbn [List.filter] in Hft.
    destruct (visible (win st s)).
    + rewrite last_snoc in Hft. simplify_eq. rewrite app_nil_r in Hin. exfalso. apply (Hd t Hin). left.
    + rewrite app_nil_r, last_filter_snoc in Hft by done. by simplify_eq.
  - destruct (exists_last Hl2) as (l3 & x & ->). rewrite app_assoc in El. apply app_inj_tail in El as [_ ->].
    change (s :: l3 ++ [top]) with ((s :: l3) ++ [top]) in Hft. rewrite app_assoc, last_filter_snoc in Hft by done. by simplify_eq.
Qed.

Lemma front_ok st i : wm_ok st -> 0 < next_id st -> step_ok (keeps_focus st (ToFront i)) st (wm_bring_to_front st i).
Proof.
  intros Hok Hn. apply step_shape; [done|done|by apply bring_to_front_shape|]. cbn [keeps_focus]. intros Hk Hf.
  destruct (z_index st i (z_order st)) as [k|] eqn:E.
  - destruct (z_index_Some _ _ _ _ E) as (l1 & s & l2 & Hz & _ & <-).
    assert (s ∈ z_order st) as Hs by (rewrite Hz; set_solver). apply front_focus; [done|done| |by left].
    rewrite forallb_forall in Hk. specialize (Hk s). rewrite <- list_elem_of_In in Hk. specialize (Hk Hs).
    by rewrite Z.eqb_refl in Hk.
  - unfold wm_bring_to_front. by rewrite E.
Qed.

Lemma last_index (z : list nat) k s : NoDup z -> z !! k = Some s -> last z = Some s -> k = (length z - 1)%nat.
Proof.
  intros Hnd Hk Hl. rewrite last_lookup in Hl. replace (length z - 1)%nat with (Nat.pred (length z)) by lia.
  by apply (NoDup_lookup z k (Nat.pred (length z)) s).
Qed.

Lemma taskbar_ok st k : wm_ok st -> 0 < next_id st -> step_ok (keeps_focus st (Taskbar k)) st (taskbar_click st k).
Proof.
  intros Hok Hn. unfold taskbar_click. destruct (z_order st !! k) as [s|] eqn:Ek; [|by apply step_quiet].
  assert (s ∈ z_order st) as Hs by (by eapply list_elem_of_lookup_2).
  cbv zeta. destruct (minimized (win st s)) eqn:Em.
  - assert (same_shape st (on_win (set_shown true false) s st)) as S1 by (by apply on_win_shape).
    pose proof (same_shape_ok _ _ S1 Hok) as Hok1. set (st1 := on_win (set_shown true false) s st) in *.
    apply step_shape; [done|done|etransitivity; [exact S1|by apply bring_to_front_shape]|].
    intros Hk Hf. apply front_focus; [done|done| |right].
    { unfold st1. rewrite win_on_win by (by apply slot_lt_len). by rewrite decide_True. }
    change (last (z_order st) <> Some s). intros Hl.
    cbn [keeps_focus] in Hk. unfold is_top in Hk. rewrite Hl in Hk.
    rewrite (proj2 (Nat.eqb_eq k _)) in Hk by (by apply (last_index _ _ s); [apply Hok|..]).
    cbn [negb orb] in Hk. rewrite (wo_shown _ Hok s Hs), Hk in Em. done.
  - apply step_shape; [done|done|by apply bring_to_front_shape|]. intros _ Hf.
    apply front_focus; [done|done| |by left]. rewrite (wo_shown _ Hok s Hs) in Em. by apply negb_false_iff.
Qed.

(** A clear never reaches a slot without a window: its canvas is null. *)
Lemma clear_ok st s color : wm_ok st -> 0 < next_id st -> step_ok true st (wm_clear_canvas st (Some s) color).
Proof.
  intros Hok Hn. cbn [wm_clear_canvas]. destruct (canvas (win st s)) eqn:Ec; [|by apply step_quiet].
  apply step_quiet; [done|done|]. apply quiet_on_win; [done| |done|done].
  destruct (decide (s ∈ z_order st)) as [|Hs]; [done|]. destruct (decide (s < MAX_WINDOWS)%nat) as [Hl|Hl].
  - by rewrite (wo_free _ Hok s Hl Hs) in Ec.
  - unfold win in Ec. rewrite nth_overflow in Ec by (rewrite (wo_len _ Hok); lia). done.
Qed.

Lemma apply_op_ok st op : wm_ok st -> 0 < next_id st -> ids_left st -> step_ok (keeps_focus st op) st (apply_op st op).
Proof.
  intros Hok Hn Hids. destruct op as [t px py w h ev pt ok|i|i|ev|k|s color]; cbn [apply_op].
  - pose proof (create_spec st t px py w h ev pt ok Hok (conj Hn Hids)) as H.
    destruct (wm_create_window _ _ _ _ _ _ _ _ _) as [st' [i|]]; cbn [fst].
    + destruct H as (H1 & H2 & H3 & Hz & _ & Hv & Hf & _). split; [done|]. split; [done|]. intros _ _.
      by apply (top_focus st' (z_order st) i).
    + destruct H as (H1 & H2 & ->). by split.
  - destruct (destroy_spec st i Hok) as (H1 & H2 & _). split; [done|]. split; [by rewrite H2|]. by apply destroy_focus.
  - by apply front_ok.
  - by apply dispatch_ok.
  - by apply taskbar_ok.
  - by apply clear_ok.
Qed.

(** The states the window manager reaches; the flag: every operation so far
    keeps the focus. *)
Inductive reached : wm -> bool -> Prop :=
  | reached_init : reached wm_init true
  | reached_op st b op : reached st b -> ids_left st -> reached (apply_op st op) (b && keeps_focus st op).

Lemma wm_init_ok : wm_ok wm_init.
Proof.
  split; [done|by apply NoDup_nil|done| |by intros s Hs%not_elem_of_nil
    |by intros s t Hs%not_elem_of_nil|by intros s Hs%not_elem_of_nil].
  intros s Hs _. unfold win, wm_init. cbn [windows]. by rewrite nth_lookup, lookup_replicate_2.
Qed.

Lemma reached_ok st b : reached st b -> wm_ok st /\ 0 < next_id st /\ (b = true -> focus_ok st).
Proof.
  induction 1 as [|st b op _ (IH1 & IH2 & IH3) Hids].
  - split; [apply wm_init_ok|]. split; [done|]. by intros _ s Hs%not_elem_of_nil.
  - destruct (apply_op_ok st op IH1 IH2 Hids) as (H1 & H2 & H3). split; [done|]. split; [done|].
    intros [Hb Hk]%andb_true_iff. auto.
Qed.

Lemma get_focused_visible st : wm_ok st -> focus_ok st -> wm_get_focused st = from_top visible st.
Proof.
  intros Hok Hf. unfold wm_get_focused. destruct (from_top focused st) as [s|] eqn:E.
  - destruct (from_top_Some _ _ _ E) as [Hs Hfs]. symmetry. by apply Hf.
  - destruct (from_top visible st) as [s|] eqn:Ev; [|done]. destruct (from_top_Some _ _ _ Ev) as [Hs _].
    assert (focused (win st s) = false) as Hn.
    { apply (find_none _ _ E). apply in_rev. rewrite rev_involutive. by apply list_elem_of_In. }
    by rewrite (proj2 (Hf s Hs) Ev) in Hn.
Qed.

(** C29: the window table stays well formed, and the focus is where the user
    sees it.  In every state the window manager reaches by creating,
    destroying, raising, restoring and clearing windows and dispatching any
    events (fewer than 2^32 - 2 windows being created), the stack lists each
    live window once, ids are distinct and nonzero, every other slot is clear
    and a window is minimised exactly when it is hidden.  As long as no
    minimised window was left on top by a destruction or restored while on
    top, at most one window has the focus, it is the topmost visible one, and
    it is the one that gets the keys. *)
Theorem wm_focus_invariant (st : wm) (b : bool) :
  reached st b ->
  wm_ok st /\
  (b = true ->
    (forall s, s ∈ z_order st -> focused (win st s) = true <-> from_top visible st = Some s) /\
    wm_get_focused st = from_top visible st /\
    forall ev s ev', ev_type ev = EVT_KEY_DOWN -> (wm_dispatch_event st ev).2 = Some (s, ev') ->
      from_top visible st = Some s /\ key ev' = key ev /\ target_window ev' = id (win st s)).
Proof.
  intros H. destruct (reached_ok st b H) as (Hok & _ & Hf). split; [done|]. intros Hb. specialize (Hf Hb).
  pose proof (get_focused_visible st Hok Hf) as Hg. split; [done|]. split; [done|].
  intros ev s ev' Hk. unfold wm_dispatch_event, deliver. rewrite Hk, Hg.
  destruct (from_top visible st) as [t|]; [|done]. cbn [snd]. destruct (on_event (win st t)); [|done].
  intros E%(inj Some). by simplify_eq.
Qed.

Definition open (st : wm) (px : Z) : wm := apply_op st (Create (cs "w") px 50 200 100 (Some 0%nat) None true).
Definition press (px py : Z) : gui_event := GuiEv EVT_MOUSE_DOWN px py 1 1 0 0.
Definition typed_key (c : Z) : gui_event := GuiEv EVT_KEY_DOWN 0 0 0 0 c 0.

(** Two windows; the lower one is clicked and gets the next key. *)
Lemma wm_focus_invariant_witness :
  let st := apply_op (open (open wm_init 10) 100) (Dispatch (press 20 120)) in
  reached st true /\ wm_ok st /\ wm_get_focused st = Some 0%nat /\ from_top visible st = Some 0%nat.
Proof.
  intros st.
  assert (reached st true) as Hr.
  { apply (reached_op (open (open wm_init 10) 100) true); [|reflexivity].
    apply (reached_op (open wm_init 10) true); [|reflexivity].
    apply (reached_op wm_init true); [constructor|reflexivity]. }
  destruct (wm_focus_invariant st true Hr) as (Hok & _). split; [exact Hr|]. split; [exact Hok|].
  split; vm_compute; reflexivity.
Defined.

Lemma i16_local v : -1 <= v <= 65534 -> 0 <= i16 v -> i16 v = v.
Proof. unfold i16. lia. Qed.

(** A click goes to what is seen under the pointer.  A press outside every
    visible window changes nothing.  Otherwise the topmost visible window that
    contains the point is raised to the top; if a callback is called it is the
    one of that window, either to ask it to close or with the press at the
    point's coordinates in the client area, which are within it. *)
Theorem wm_click_correct (st : wm) (ev : gui_event) :
  wm_ok st -> ev_type ev = EVT_MOUSE_DOWN ->
  (forall s, s ∈ z_order st -> is_u16 (width (win st s)) /\ is_u16 (height (win st s))) ->
  let under w := visible w && hit_window w (mouse_x ev) (mouse_y ev) in
  match from_top under st with
  | None => wm_dispatch_event st ev = (st, None)
  | Some s =>
      let w := win st s in
      (exists l, z_order (wm_dispatch_event st ev).1 = l ++ [s]) /\
      forall t ev', (wm_dispatch_event st ev).2 = Some (t, ev') ->
        t = s /\ target_window ev' = id w /\
        (ev_type ev' = EVT_CLOSE \/
         ev_type ev' = EVT_MOUSE_DOWN /\
         mouse_x ev' = mouse_x ev - x w - BORDER_WIDTH /\ 0 <= mouse_x ev' < client_w w /\
         mouse_y ev' = mouse_y ev - y w - TITLEBAR_HEIGHT - BORDER_WIDTH /\ 0 <= mouse_y ev' < client_h w)
  end.
Proof.
  intros Hok Hty Hsz under. unfold wm_dispatch_event. rewrite Hty. unfold mouse_down. fold under.
  destruct (from_top under st) as [s|] eqn:E; [|done].
  destruct (from_top_Some _ _ _ E) as [Hs [Hv Hh]%andb_true_iff]. destruct (Hsz s Hs) as [Hw Hht].
  destruct (bring_to_front_top st s Hok Hs) as [l Ez]. destruct (front_win st s s Hok Hs Hs) as [b Ew].
  pose proof (bring_to_front_shape st (id (win st s)) Hok) as S1. pose proof (same_shape_ok _ _ S1 Hok) as Hok1.
  cbv zeta. set (st1 := wm_bring_to_front st (id (win st s))) in *. rewrite Ew.
  set (w := win st s) in *. change (hit_close_button (set_focused b w)) with (hit_close_button w).
  change (hit_minimize_button (set_focused b w)) with (hit_minimize_button w).
  change (hit_titlebar (set_focused b w)) with (hit_titlebar w). cbn [set_focused id x y client_w client_h].
  destruct (hit_close_button w _ _).
  { unfold deliver. cbn [fst snd]. split; [by exists l|]. destruct (on_event (win st1 s)); [|done].
    intros t ev' H. simplify_eq. split; [done|]. split; [done|by left]. }
  destruct (hit_minimize_button w _ _).
  { cbn [fst snd]. split; [|done]. exists l. unfold wm_minimize. by destruct (from_top visible _). }
  destruct (hit_titlebar w _ _); [by split; [exists l|]|].
  destruct (_ && _) eqn:Eb; [|by split; [exists l|]].
  unfold deliver. cbn [fst snd]. split; [by exists l|]. destruct (on_event (win st1 s)); [|done].
  intros t ev' H. simplify_eq. cbn [target_window ev_type mouse_x mouse_y]. split; [done|]. split; [done|]. right.
  unfold hit_window in Hh. unfold is_word in *. unfold TITLEBAR_HEIGHT, BORDER_WIDTH in *.
  repeat match goal with H : _ && _ = true |- _ => apply andb_true_iff in H as [? ?] end.
  repeat match goal with H : (_ <=? _) = true |- _ => apply Z.leb_le in H | H : (_ <? _) = true |- _ => apply Z.ltb_lt in H end.
  assert (i16 (mouse_x ev - x w - 1) = mouse_x ev - x w - 1) as Ex by (apply i16_local; lia).
  assert (i16 (mouse_y ev - y w - 20 - 1) = mouse_y ev - y w - 20 - 1) as Ey by (unfold i16 in *; lia).
  rewrite Ex, Ey in *. split_and!; done || lia.
Qed.

(** A press in the client area of the lower of two windows. *)
Lemma wm_click_correct_witness :
  let st := open (open wm_init 10) 100 in
  exists l ev', z_order (wm_dispatch_event st (press 20 120)).1 = l ++ [0%nat] /\
    (wm_dispatch_event st (press 20 120)).2 = Some (0%nat, ev') /\ mouse_x ev' = 9 /\ mouse_y ev' = 49.
Proof.
  intros st.
  assert (reached st true) as Hr.
  { apply (reached_op (open wm_init 10) true); [|reflexivity]. apply (reached_op wm_init true); [constructor|reflexivity]. }
  destruct (reached_ok st true Hr) as (Hok & _ & _).
  assert (forall s, s ∈ z_order st -> is_u16 (width (win st s)) /\ is_u16 (height (win st s))) as Hsz.
  { intros s Hs. assert (z_order st = [0; 1]%nat) as Ez by reflexivity. rewrite Ez in Hs.
    apply elem_of_cons in Hs as [->|Hs]; [split; vm_compute; split; congruence|].
    apply list_elem_of_singleton in Hs as ->. split; vm_compute; split; congruence. }
  pose proof (wm_click_correct st (press 20 120) Hok eq_refl Hsz) as H. cbv zeta in H.
  destruct (from_top _ st) as [s|] eqn:E; [|vm_compute in E; discriminate E].
  assert (s = 0%nat) as -> by (vm_compute in E; congruence).
  destruct H as ([l Hl] & H). exists l. eexists. split; [exact Hl|]. split; [reflexivity|]. split; reflexivity.
Defined.

(** Two findings.  A window that is minimised while on top and restored from
    the taskbar is visible but never gets the focus, not even by a click,
    since it is already on top. *)
Example restored_window_unfocusable :
  let st := apply_op (apply_op (open wm_init 10) (Dispatch (press 175 55))) (Taskbar 0) in
  let st := apply_op st (Dispatch (press 50 100)) in
  visible (win st 0) = true /\ wm_get_focused st = None /\ (wm_dispatch_event st (typed_key 97)).2 = None.
Proof. vm_compute. repeat split. Qed.

(** With the top window minimised, destroying another one gives the hidden
    window the focus, and the keys. *)
Example hidden_window_gets_keys :
  let st := apply_op (open (open (open wm_init 10) 300) 600) (Dispatch (press 765 55)) in
  let st := apply_op st (Destroy 1) in
  visible (win st 2) = false /\ wm_get_focused st = Some 2%nat /\ focused (win st 1) = true.
Proof. vm_compute. repeat split. Qed.
