(* ===== verification/Widgets.v ===== *)
(** * Widgets (src/gui/widgets.c)

    The static pool of widgets; a pointer to a widget is its number in the
    pool.  The chain of a window (the [next] pointers from [user_data]) is the
    list of these numbers, the most recently added first.  A callback is the
    last thing [widget_dispatch] does, so the call is part of its answer.
    Drawing is the sequence of the stores into the canvas, as pairs of an
    index and a colour.  [text_base] is the address of a text array, at whose
    alignment memmove looks. *)

From Stdlib Require Import String.
From S2P Require Import Prelude CLib Ring Keyboard Mouse Event Font Pixels TextBuf Window.

Definition WIDGET_TEXT_MAX : nat := 128.
Definition LISTVIEW_MAX_ITEMS : nat := 256.
Definition LISTVIEW_ITEM_MAX : nat := 128.
Definition MAX_WIDGETS : nat := 128.

Definition BTN_NORMAL : Z := 0xFF2A2A4A.
Definition BTN_HOVER : Z := 0xFF3A3A6A.
Definition BTN_PRESSED : Z := 0xFF1A1A3A.
Definition BTN_TEXT : Z := 0xFFFFFFFF.
Definition BTN_BORDER : Z := 0xFF555577.
Definition TB_BG : Z := 0xFF0A0A1A.
Definition TB_BORDER : Z := 0xFF444466.
Definition TB_FOCUSED : Z := 0xFF6666AA.
Definition TB_TEXT : Z := 0xFF00DDAA.
Definition TB_CURSOR : Z := 0xFFFFCC00.
Definition LV_BG : Z := 0xFF0A0A1A.
Definition LV_BORDER : Z := 0xFF444466.
Definition LV_ITEM_BG : Z := 0xFF0A0A1A.
Definition LV_ITEM_BG_ALT : Z := 0xFF10102A.
Definition LV_ITEM_SEL : Z := 0xFF1A3366.
Definition LV_ITEM_TEXT : Z := 0xFF00DDAA.
Definition LV_ITEM_H : Z := 18.

Inductive widget_type := W_LABEL | W_BUTTON | W_TEXTBOX | W_LISTVIEW.

#[global] Instance widget_type_eq_dec : EqDecision widget_type.
Proof. solve_decision. Defined.

Record widget := Widget {
  wtype : widget_type;
  wx : Z;
  wy : Z;
  ww : Z;
  wh : Z;
  wtext : list Z;
  wfocused : bool;
  hovered : bool;
  pressed : bool;
  wfg : Z;
  wbg : Z;
  on_click : option nat;
  cursor_pos : nat;
  text_len : nat;
  lv_items : option (list (list Z));
  lv_count : nat;
  lv_selected : Z;
  lv_scroll : Z;
  on_select : option nat
}.

(** [memset(w, 0, sizeof(widget_t))] *)
Definition no_widget : widget :=
  Widget W_LABEL 0 0 0 0 (replicate WIDGET_TEXT_MAX 0) false false false 0 0 None 0 0 None 0 0 0 None.

Record widgets := Pool { widget_pool : list widget; widget_count : nat }.

Definition widget_at (p : widgets) (i : nat) : widget := nth i (widget_pool p) no_widget.

(** Assignments to the fields. *)
Definition set_text (t : list Z) (n c : nat) (w : widget) : widget :=
  Widget (wtype w) (wx w) (wy w) (ww w) (wh w) t (wfocused w) (hovered w) (pressed w) (wfg w) (wbg w) (on_click w)
    c n (lv_items w) (lv_count w) (lv_selected w) (lv_scroll w) (on_select w).

Definition set_flags (f h p : bool) (w : widget) : widget :=
  Widget (wtype w) (wx w) (wy w) (ww w) (wh w) (wtext w) f h p (wfg w) (wbg w) (on_click w)
    (cursor_pos w) (text_len w) (lv_items w) (lv_count w) (lv_selected w) (lv_scroll w) (on_select w).

Definition set_list (items : option (list (list Z))) (n : nat) (sel scroll : Z) (w : widget) : widget :=
  Widget (wtype w) (wx w) (wy w) (ww w) (wh w) (wtext w) (wfocused w) (hovered w) (pressed w) (wfg w) (wbg w) (on_click w)
    (cursor_pos w) (text_len w) items n sel scroll (on_select w).

Definition on_widget (f : widget -> widget) (i : nat) (p : widgets) : widgets :=
  Pool (alter f i (widget_pool p)) (widget_count p).

(** ** Creation *)

Definition alloc_widget (p : widgets) (w : widget) : widgets * option nat :=
  if (MAX_WIDGETS <=? widget_count p)%nat then (p, None)
  else (Pool (<[widget_count p := w]> (widget_pool p)) (S (widget_count p)), Some (widget_count p)).

Definition widget_create_label (p : widgets) (x y : Z) (text : list Z) (fg bg : Z) : widgets * option nat :=
  alloc_widget p
    (Widget W_LABEL x y (i16 (Z.of_nat (strlen text) * FONT_WIDTH)) FONT_HEIGHT
       (strncpy (wtext no_widget) text (WIDGET_TEXT_MAX - 1)) false false false fg bg None 0 0 None 0 0 0 None).

Definition widget_create_button (p : widgets) (x y w h : Z) (text : list Z) (click : option nat) : widgets * option nat :=
  alloc_widget p
    (Widget W_BUTTON x y w h (strncpy (wtext no_widget) text (WIDGET_TEXT_MAX - 1)) false false false
       BTN_TEXT BTN_NORMAL click 0 0 None 0 0 0 None).

Definition widget_create_textbox (p : widgets) (x y w h : Z) : widgets * option nat :=
  alloc_widget p
    (Widget W_TEXTBOX x y w h (<[0%nat := 0]> (wtext no_widget)) false false false TB_TEXT TB_BG None 0 0 None 0 0 0 None).

Definition widget_create_listview (p : widgets) (x y w h : Z) : widgets * option nat :=
  alloc_widget p
    (Widget W_LISTVIEW x y w h (wtext no_widget) false false false LV_ITEM_TEXT LV_BG None 0 0 None 0 (-1) 0 None).

Definition widget_add (chain : list nat) (w : option nat) : list nat :=
  match w with None => chain | Some w => w :: chain end.

(** ** Drawing *)

Section draw.
Context (cw ch : Z).

Definition CPIX (px py color : Z) : stores :=
  if (0 <=? px) && (px <? cw) && (0 <=? py) && (py <? ch) then [(py * cw + px, color)] else [].

(** [for (i = 0; i < n; i++)] *)
Definition upto (n : Z) : list Z := map Z.of_nat (seq 0 (Z.to_nat n)).

Definition CHLINE (x0 y0 width color : Z) : stores :=
  concat (map (fun i => CPIX (x0 + i) y0 color) (upto width)).

Definition CFILL (rx ry rw rh color : Z) : stores :=
  concat (map (fun r => CHLINE rx (ry + r) rw color) (upto rh)).

Definition CCHAR (tx ty c fg bg : Z) : stores :=
  concat (map (fun gy => concat (map (fun gx =>
    CPIX (tx + gx) (ty + gy) (glyph_pixel c (Z.to_nat gy) gx fg bg)) (upto FONT_WIDTH))) (upto FONT_HEIGHT)).

Fixpoint CTEXT (tx ty : Z) (str : list Z) (fg bg : Z) : stores :=
  match str with
  | [] => []
  | c :: str => if c =? 0 then [] else CCHAR tx ty c fg bg ++ CTEXT (i16 (tx + FONT_WIDTH)) ty str fg bg
  end.

(** The two vertical borders. *)
Definition vborders (x y w h color : Z) : stores :=
  concat (map (fun r => CPIX x (y + r) color ++ CPIX (x + w - 1) (y + r) color) (upto h)).

Definition frame (x y w h color : Z) : stores :=
  CHLINE x y w color ++ CHLINE x (y + h - 1) w color ++ vborders x y w h color.

Definition draw_button (w : widget) : stores :=
  let bg := if pressed w then BTN_PRESSED else if hovered w then BTN_HOVER else BTN_NORMAL in
  let tw := i16 (Z.of_nat (strlen (wtext w)) * FONT_WIDTH) in
  let tx := i16 (wx w + Z.quot (ww w - tw) 2) in
  let ty := i16 (wy w + Z.quot (wh w - FONT_HEIGHT) 2) in
  CFILL (wx w) (wy w) (ww w) (wh w) bg ++ frame (wx w) (wy w) (ww w) (wh w) BTN_BORDER ++
  CTEXT tx ty (wtext w) (wfg w) bg.

Definition draw_textbox (w : widget) : stores :=
  let border := if wfocused w then TB_FOCUSED else TB_BORDER in
  let ty := i16 (wy w + Z.quot (wh w - FONT_HEIGHT) 2) in
  let cx := i16 (wx w + 4 + Z.of_nat (cursor_pos w) * FONT_WIDTH) in
  CFILL (wx w) (wy w) (ww w) (wh w) (wbg w) ++ frame (wx w) (wy w) (ww w) (wh w) border ++
  CTEXT (i16 (wx w + 4)) ty (wtext w) (wfg w) (wbg w) ++
  if wfocused w then concat (map (fun r => CPIX cx (ty + r) TB_CURSOR) (upto FONT_HEIGHT)) else [].

Definition draw_item (w : widget) (items : list (list Z)) (i : Z) : stores :=
  let idx := i16 (i + lv_scroll w) in
  let iy := i16 (wy w + 1 + i * LV_ITEM_H) in
  let item_bg := if idx =? lv_selected w then LV_ITEM_SEL
                 else if Z.land idx 1 =? 0 then LV_ITEM_BG else LV_ITEM_BG_ALT in
  CFILL (wx w + 1) iy (ww w - 2) LV_ITEM_H item_bg ++
  CTEXT (i16 (wx w + 4)) (iy + 1) (nth (Z.to_nat idx) items []) (wfg w) item_bg.

Definition draw_listview (w : widget) : stores :=
  let vis := Z.quot (wh w - 2) LV_ITEM_H in
  CFILL (wx w) (wy w) (ww w) (wh w) (wbg w) ++ frame (wx w) (wy w) (ww w) (wh w) LV_BORDER ++
  match lv_items w with
  | None => []
  | Some items =>
      concat (map (draw_item w items) (upto (Z.min vis (Z.of_nat (lv_count w) - lv_scroll w))))
  end.

Definition draw_widget (w : widget) : stores :=
  match wtype w with
  | W_LABEL => CTEXT (wx w) (wy w) (wtext w) (wfg w) (wbg w)
  | W_BUTTON => draw_button w
  | W_TEXTBOX => draw_textbox w
  | W_LISTVIEW => draw_listview w
  end.

(** Nothing is drawn without a canvas. *)
Definition widget_draw_all (has_canvas : bool) (p : widgets) (chain : list nat) : stores :=
  concat (map (fun i => if has_canvas then draw_widget (widget_at p i) else []) chain).
End draw.

(** ** Events *)

Definition widget_hit (w : widget) (px py : Z) : bool :=
  (wx w <=? px) && (px <? wx w + ww w) && (wy w <=? py) && (py <? wy w + wh w).

Inductive call :=
  | Click (w : nat)                   (* on_click(w, win) *)
  | Select (w : nat) (index : Z).     (* on_select(w, win, index) *)

Definition find_widget (q : widget -> bool) (p : widgets) (chain : list nat) : option nat :=
  List.find (fun i => q (widget_at p i)) chain.

Definition unfocus (w : widget) : widget :=
  if decide (wtype w = W_TEXTBOX) then set_flags false (hovered w) (pressed w) w else w.

Definition on_chain (f : widget -> widget) (p : widgets) (chain : list nat) : widgets :=
  foldl (fun p i => on_widget f i p) p chain.

Definition widget_press (p : widgets) (chain : list nat) (mx my : Z) : widgets * option call :=
  let p := on_chain unfocus p chain in
  match find_widget (fun w => widget_hit w mx my) p chain with
  | None => (p, None)
  | Some i =>
      let w := widget_at p i in
      match wtype w with
      | W_BUTTON =>
          (on_widget (fun w => set_flags (wfocused w) (hovered w) true w) i p,
           match on_click w with Some _ => Some (Click i) | None => None end)
      | W_TEXTBOX => (on_widget (fun w => set_flags true (hovered w) (pressed w) w) i p, None)
      | W_LISTVIEW =>
          match lv_items w with
          | None => (p, None)
          | Some items =>
              let item_y := i16 (my - wy w - 1) in
              let idx := i16 (Z.quot item_y LV_ITEM_H + lv_scroll w) in
              if (0 <=? idx) && (idx <? Z.of_nat (lv_count w)) then
                (on_widget (fun w => set_list (lv_items w) (lv_count w) idx (lv_scroll w) w) i p,
                 match on_select w with Some _ => Some (Select i idx) | None => None end)
              else (p, None)
          end
      | W_LABEL => (p, None)
      end
  end.

Section text.
Context (text_base : nat).

(** A key for the focused text box. *)
Definition textbox_key (key : Z) (w : widget) : widget :=
  let t := wtext w in
  let n := text_len w in
  let c := cursor_pos w in
  if key =? 8 then
    if (0 <? c)%nat then set_text (<[(n - 1)%nat := 0]> (memmove text_base t (c - 1) c (n - c))) (n - 1) (c - 1) w else w
  else if key =? KEY_LEFT then (if (0 <? c)%nat then set_text t n (c - 1) w else w)
  else if key =? KEY_RIGHT then (if (c <? n)%nat then set_text t n (c + 1) w else w)
  else if key =? KEY_HOME then set_text t n 0 w
  else if key =? KEY_END then set_text t n n w
  else if key =? KEY_DELETE then
    if (c <? n)%nat then set_text (<[(n - 1)%nat := 0]> (memmove text_base t c (c + 1) (n - c - 1))) (n - 1) c w else w
  else if (0x20 <=? key) && (key <? 0x7F) then
    if (n <? WIDGET_TEXT_MAX - 1)%nat then
      set_text (<[(n + 1)%nat := 0]> (<[c := key]> (memmove text_base t (c + 1) c (n - c)))) (n + 1) (c + 1) w
    else w
  else w.

(** A key for the list view. *)
Definition listview_key (key : Z) (w : widget) : widget :=
  if (key =? KEY_UP) && (0 <? lv_selected w) then
    let sel := lv_selected w - 1 in
    set_list (lv_items w) (lv_count w) sel (if sel <? lv_scroll w then sel else lv_scroll w) w
  else if (key =? KEY_DOWN) && (lv_selected w <? Z.of_nat (lv_count w) - 1) then
    let sel := lv_selected w + 1 in
    let vis := i16 (Z.quot (wh w - 2) LV_ITEM_H) in
    set_list (lv_items w) (lv_count w) sel
      (if lv_scroll w + vis <=? sel then i16 (sel - vis + 1) else lv_scroll w) w
  else w.

Definition widget_key (p : widgets) (chain : list nat) (key : Z) : widgets :=
  match find_widget (fun w => bool_decide (wtype w = W_TEXTBOX) && wfocused w) p chain with
  | Some i => on_widget (textbox_key key) i p
  | None =>
      match find_widget (fun w => bool_decide (wtype w = W_LISTVIEW) && match lv_items w with Some _ => true | None => false end)
              p chain with
      | Some i => on_widget (listview_key key) i p
      | None => p
      end
  end.

Definition widget_dispatch (p : widgets) (chain : list nat) (ev : gui_event) : widgets * option call :=
  match ev_type ev with
  | EVT_MOUSE_DOWN => widget_press p chain (mouse_x ev) (mouse_y ev)
  | EVT_MOUSE_UP => (on_chain (fun w => set_flags (wfocused w) (hovered w) false w) p chain, None)
  | EVT_MOUSE_MOVE =>
      (on_chain (fun w => set_flags (wfocused w) (widget_hit w (mouse_x ev) (mouse_y ev)) (pressed w) w) p chain, None)
  | EVT_KEY_DOWN => (widget_key p chain (key ev), None)
  | _ => (p, None)
  end.
End text.

(** ** Helpers *)

Definition listview_clear (w : widget) : widget := set_list (lv_items w) 0 (-1) 0 w.

Definition listview_add_item (text : list Z) (w : widget) : widget :=
  match lv_items w with
  | None => w
  | Some items =>
      if (LISTVIEW_MAX_ITEMS <=? lv_count w)%nat then w
      else
        let row := strlcpy (nth (lv_count w) items []) text (LISTVIEW_ITEM_MAX - 1) in
        set_list (Some (<[lv_count w := row]> items)) (S (lv_count w)) (lv_selected w) (lv_scroll w) w
  end.

Definition listview_get_selected (w : widget) : Z := lv_selected w.
Definition textbox_get_text (w : widget) : list Z := wtext w.

Definition textbox_set_text (text : list Z) (w : widget) : widget :=
  let t := strlcpy (wtext w) text (WIDGET_TEXT_MAX - 1) in
  set_text t (strlen t) (strlen t) w.

Definition textbox_clear (w : widget) : widget := set_text (<[0%nat := 0]> (wtext w)) 0 0 w.
