(* ===== verification/WidgetsSpec.v ===== *)
(** * Correctness of the widgets

    The text box is a text with a cursor (TextBuf.v), the list view keeps its
    selection on the screen, a press focuses the text box under the pointer
    and no other, and drawing stays within the canvas. *)

From Stdlib Require Import String.
From S2P Require Import Prelude CLib Ring Keyboard Mouse Event Font Pixels TextBuf Window Widgets.

(** ** Text boxes *)

Record textbox_ok (w : widget) : Prop := {
  to_text : holds_text WIDGET_TEXT_MAX (wtext w) (text_len w);
  to_cursor : (cursor_pos w <= text_len w)%nat
}.

Definition box_parts (w : widget) : list Z * list Z := parts (wtext w) (text_len w) (cursor_pos w).

Lemma set_text_ok w t n c : holds_text WIDGET_TEXT_MAX t n -> (c <= n)%nat ->
  textbox_ok (set_text t n c w) /\ box_parts (set_text t n c w) = parts t n c.
Proof. intros H1 H2. by split. Qed.

(** A text box edits its text as it should.  Whatever the key, the text of
    a focused text box stays a terminated string of at most 127 characters
    with the cursor within it, and the parts before and after the cursor
    change as [edit_text] says: Backspace, Delete, Left, Right, Home, End and
    the printable characters do what they are for, other keys nothing. *)
Theorem textbox_refines (base : nat) (w : widget) (key : Z) :
  textbox_ok w ->
  let w' := textbox_key base key w in
  textbox_ok w' /\ box_parts w' = edit_text (WIDGET_TEXT_MAX - 1) key (box_parts w).
Proof.
  intros Hok. cbv zeta. pose proof Hok as [Ht Hc].
  destruct (text_split _ _ _ _ Ht Hc) as (a & z & q & _ & Ha & Hn & Hp & _). fold (box_parts w) in Hp.
  unfold textbox_key. rewrite Hp.
  destruct (Z.eqb_spec key 8) as [->|N1].
  { change (edit_text (WIDGET_TEXT_MAX - 1) 8 (a, z)) with (removelast a, z).
    destruct (Nat.ltb_spec 0 (cursor_pos w)) as [H|H].
    - destruct (exists_last (l := a)) as (a' & x & ->); [intros ->; cbn in Ha; lia|].
      destruct (text_backspace base _ _ _ _ a' x z Ht Hc Hp) as (_ & H1 & H2).
      rewrite removelast_last, <- H2. apply set_text_ok; [done|lia].
    - destruct a; [done|cbn in Ha; lia]. }
  destruct (Z.eqb_spec key KEY_LEFT) as [->|N2].
  { change (edit_text (WIDGET_TEXT_MAX - 1) KEY_LEFT (a, z)) with
      (match last a with Some x => (removelast a, x :: z) | None => (a, z) end).
    destruct (Nat.ltb_spec 0 (cursor_pos w)) as [H|H].
    - destruct (exists_last (l := a)) as (a' & x & ->); [intros ->; cbn in Ha; lia|].
      rewrite last_snoc, removelast_last, <- (parts_left _ _ _ _ a' x z Ht Hp Hc). apply set_text_ok; [done|lia].
    - destruct a; [done|cbn in Ha; lia]. }
  destruct (Z.eqb_spec key KEY_RIGHT) as [->|N3].
  { change (edit_text (WIDGET_TEXT_MAX - 1) KEY_RIGHT (a, z)) with
      (match z with x :: z' => (a ++ [x], z') | [] => (a, z) end).
    destruct (Nat.ltb_spec (cursor_pos w) (text_len w)) as [H|H].
    - destruct z as [|x z]; [cbn in Hn; lia|].
      rewrite <- (parts_right _ _ _ _ a x z Ht Hp Hc). apply set_text_ok; [done|lia].
    - destruct z; [done|cbn in Hn; lia]. }
  pose proof (cstr_parts _ _ _ (cursor_pos w) Ht) as Hs. fold (box_parts w) in Hs. rewrite Hp in Hs. cbn [fst snd] in Hs.
  destruct (Z.eqb_spec key KEY_HOME) as [->|N4].
  { change (edit_text (WIDGET_TEXT_MAX - 1) KEY_HOME (a, z)) with (@nil Z, a ++ z). rewrite <- Hs.
    replace ([], cstr (wtext w)) with (parts (wtext w) (text_len w) 0); [apply set_text_ok; [done|lia]|].
    rewrite parts_start. unfold cstr. by destruct Ht as (_ & _ & ->). }
  destruct (Z.eqb_spec key KEY_END) as [->|N5].
  { change (edit_text (WIDGET_TEXT_MAX - 1) KEY_END (a, z)) with (a ++ z, @nil Z). rewrite <- Hs, <- (parts_end _ _ _ Ht).
    apply set_text_ok; [done|lia]. }
  destruct (Z.eqb_spec key KEY_DELETE) as [->|N6].
  { change (edit_text (WIDGET_TEXT_MAX - 1) KEY_DELETE (a, z)) with (a, tl z).
    destruct (Nat.ltb_spec (cursor_pos w) (text_len w)) as [H|H].
    - destruct z as [|x z]; [cbn in Hn; lia|]. destruct (text_remove base _ _ _ _ a x z Ht Hc Hp) as [H1 H2].
      cbn [tl]. rewrite <- H2. apply set_text_ok; [done|lia].
    - destruct z; [done|cbn in Hn; lia]. }
  unfold edit_text. rewrite !(proj2 (Z.eqb_neq _ _)) by done. rewrite length_app, Hn.
  destruct ((0x20 <=? key) && (key <? 0x7F)) eqn:Ek; [|done]. cbn [andb].
  apply andb_true_iff in Ek as [K1%Z.leb_le K2%Z.ltb_lt].
  destruct (Nat.ltb_spec (text_len w) (WIDGET_TEXT_MAX - 1)) as [H|H]; [|done].
  destruct (text_insert_char base _ _ _ _ key a z Ht Hc) as [H1 H2]; [lia|done|lia|].
  rewrite <- H2. apply set_text_ok; [done|lia].
Qed.

Definition box : widget := textbox_set_text (cs "ab") (widget_at (widget_create_textbox (Pool (replicate MAX_WIDGETS no_widget) 0) 4 4 280 22).1 0).

Lemma textbox_refines_witness :
  let w := textbox_key 0 99 (textbox_key 0 KEY_LEFT box) in
  textbox_ok w /\ box_parts w = (cs "ac", cs "b").
Proof.
  intros w.
  assert (textbox_ok box) as Hok by (split; [split; [reflexivity|split; [apply Nat.ltb_lt; reflexivity|reflexivity]]|apply Nat.leb_le; reflexivity]).
  destruct (textbox_refines 0 box KEY_LEFT Hok) as [H1 E1].
  destruct (textbox_refines 0 _ 99 H1) as [H2 E2]. split; [exact H2|]. unfold w. rewrite E2, E1. vm_compute. reflexivity.
Defined.

(** ** List views *)

Definition vis (w : widget) : Z := Z.quot (wh w - 2) LV_ITEM_H.

(** The selection is an item (or none) and not above the rows shown, nor more
    than the one row that may be cut off below them. *)
Record listview_ok (w : widget) : Prop := {
  lo_height : 20 <= wh w < 2 ^ 15;
  lo_count : (lv_count w <= LISTVIEW_MAX_ITEMS)%nat;
  lo_selected : lv_selected w < Z.of_nat (lv_count w);
  lo_scroll : lv_selected w = -1 /\ lv_scroll w = 0 \/ 0 <= lv_scroll w <= lv_selected w /\ lv_selected w <= lv_scroll w + vis w
}.

Definition in_view (w : widget) : Prop := lv_scroll w <= lv_selected w < lv_scroll w + vis w.

Lemma vis_pos w : 20 <= wh w < 2 ^ 15 -> 1 <= vis w <= 2000 /\ i16 (vis w) = vis w.
Proof.
  intros H. assert (1 <= vis w <= 2000); [|split; [done|apply i16_small; lia]].
  unfold vis, LV_ITEM_H. rewrite Z.quot_div_nonneg by lia. lia.
Qed.

(** The selection of a list view stays on the screen.  Clearing and
    filling the list, clicking an item and the arrow keys keep the selection
    an existing item (or none) that is shown; an arrow key moves it by one
    item, stops at both ends, and scrolls just enough for the selected item to
    be shown in full. *)
Theorem listview_selection (w : widget) :
  listview_ok w ->
  listview_ok (listview_clear w) /\
  (forall text, listview_ok (listview_add_item text w)) /\
  (forall key, listview_ok (listview_key key w)) /\
  (lv_selected (listview_key KEY_UP w) = Z.max (lv_selected w - 1) (Z.min 0 (lv_selected w)) /\
   (0 < lv_selected w -> in_view (listview_key KEY_UP w))) /\
  (lv_selected (listview_key KEY_DOWN w) = Z.min (lv_selected w + 1) (Z.max (lv_selected w) (Z.of_nat (lv_count w) - 1)) /\
   (lv_selected w < Z.of_nat (lv_count w) - 1 -> in_view (listview_key KEY_DOWN w))) /\
  (forall my, wy w <= my < wy w + wh w -> - 2 ^ 15 <= wy w < 2 ^ 15 ->
    let idx := i16 (Z.quot (i16 (my - wy w - 1)) LV_ITEM_H + lv_scroll w) in
    0 <= idx -> idx < Z.of_nat (lv_count w) -> listview_ok (set_list (lv_items w) (lv_count w) idx (lv_scroll w) w)).
Proof.
  intros Hok. pose proof Hok as [Hh Hc Hs Hv]. destruct (vis_pos w Hh) as [Hvis Ei]. unfold LISTVIEW_MAX_ITEMS in *.
  assert (forall items n sel scroll, vis (set_list items n sel scroll w) = vis w) as Ev by done.
  split; [|split; [|split; [|split; [|split]]]].
  - split; cbn [listview_clear set_list wh lv_count lv_selected lv_scroll]; [done|lia|lia|by left].
  - intros text. unfold listview_add_item. destruct (lv_items w); [|exact Hok].
    destruct (Nat.leb_spec LISTVIEW_MAX_ITEMS (lv_count w)) as [|Hlt]; [exact Hok|]. unfold LISTVIEW_MAX_ITEMS in Hlt.
    split; rewrite ?Ev; cbn [set_list wh lv_count lv_selected lv_scroll]; unfold LISTVIEW_MAX_ITEMS; lia.
  - intros key. unfold listview_key. fold (vis w). rewrite Ei.
    destruct ((key =? KEY_UP) && _) eqn:E1.
    { apply andb_true_iff in E1 as [_ E1%Z.ltb_lt].
      split; rewrite ?Ev; cbn [set_list wh lv_count lv_selected lv_scroll]; unfold LISTVIEW_MAX_ITEMS; try lia.
      destruct (Z.ltb_spec (lv_selected w - 1) (lv_scroll w)); lia. }
    destruct ((key =? KEY_DOWN) && _) eqn:E2; [|exact Hok].
    apply andb_true_iff in E2 as [_ E2%Z.ltb_lt].
    split; rewrite ?Ev; cbn [set_list wh lv_count lv_selected lv_scroll]; unfold LISTVIEW_MAX_ITEMS; try lia.
    rewrite i16_small by lia. destruct (Z.leb_spec (lv_scroll w + vis w) (lv_selected w + 1)); lia.
  - unfold listview_key, in_view. cbn [Z.eqb Pos.eqb KEY_UP andb]. destruct (Z.ltb_spec 0 (lv_selected w)) as [H|H].
    + rewrite Ev. cbn [set_list lv_selected lv_scroll]. split; [lia|]. intros _.
      destruct (Z.ltb_spec (lv_selected w - 1) (lv_scroll w)); lia.
    + cbn [Z.eqb Pos.eqb KEY_DOWN andb]. lia.
  - unfold listview_key, in_view. cbn [Z.eqb Pos.eqb KEY_DOWN KEY_UP andb]. fold (vis w). rewrite Ei.
    destruct (Z.ltb_spec (lv_selected w) (Z.of_nat (lv_count w) - 1)) as [H|H]; [|lia].
    rewrite Ev. cbn [set_list lv_selected lv_scroll]. split; [lia|]. intros _. rewrite i16_small by lia.
    destruct (Z.leb_spec (lv_scroll w + vis w) (lv_selected w + 1)); lia.
  - intros my Hmy Hy Hi0 Hi1. rewrite (i16_small (my - wy w - 1)) in * by lia.
    assert (0 <= Z.quot (my - wy w - 1) LV_ITEM_H <= vis w) as Hq.
    { unfold vis, LV_ITEM_H. split; [|apply Z.quot_le_mono; lia].
      destruct (decide (my = wy w)) as [->|]; [by replace (wy w - wy w - 1) with (-1) by lia|].
      rewrite Z.quot_div_nonneg by lia. lia. }
    rewrite i16_small in * by lia.
    split; rewrite ?Ev; cbn [set_list wh lv_count lv_selected lv_scroll]; unfold LISTVIEW_MAX_ITEMS; lia.
Qed.

Definition list20 : widget :=
  Nat.iter 20 (listview_add_item (cs "x")) (set_list (Some (replicate 256 (replicate 128 0))) 0 (-1) 0
    (widget_at (widget_create_listview (Pool (replicate MAX_WIDGETS no_widget) 0) 4 28 100 56).1 0)).

Lemma listview_selection_witness :
  let w := Nat.iter 5 (listview_key KEY_DOWN) list20 in
  listview_ok w /\ lv_selected w = 4 /\ lv_scroll w = 2 /\ in_view (listview_key KEY_DOWN w).
Proof.
  intros w.
  assert (listview_ok list20) as H0.
  { split; [vm_compute; split; congruence|apply Nat.leb_le; reflexivity|reflexivity|left; split; reflexivity]. }
  destruct (listview_selection list20 H0) as (_ & _ & H1 & _). specialize (H1 KEY_DOWN).
  destruct (listview_selection _ H1) as (_ & _ & H2 & _). specialize (H2 KEY_DOWN).
  destruct (listview_selection _ H2) as (_ & _ & H3 & _). specialize (H3 KEY_DOWN).
  destruct (listview_selection _ H3) as (_ & _ & H4 & _). specialize (H4 KEY_DOWN).
  destruct (listview_selection _ H4) as (_ & _ & H5 & _). specialize (H5 KEY_DOWN).
  destruct (listview_selection _ H5) as (_ & _ & _ & _ & (_ & H6) & _).
  split; [exact H5|]. split; [reflexivity|]. split; [reflexivity|]. apply H6. reflexivity.
Defined.

(** ** Drawing *)

Section draw.
Context (cw ch : Z).

(** Every store is into one of the [cw * ch] pixels. *)
Definition in_canvas (s : stores) : Prop := Forall (fun p => 0 <= p.1 < cw * ch) s.

Lemma in_canvas_nil : in_canvas [].
Proof. constructor. Qed.

Lemma in_canvas_app s t : in_canvas s -> in_canvas t -> in_canvas (s ++ t).
Proof. apply Forall_app_2. Qed.

Lemma in_canvas_concat {A} (f : A -> stores) l : (forall a, in_canvas (f a)) -> in_canvas (concat (map f l)).
Proof. intros H. induction l; [apply in_canvas_nil|]. cbn. by apply in_canvas_app. Qed.

Lemma in_canvas_CPIX px py color : in_canvas (CPIX cw ch px py color).
Proof.
  unfold CPIX. destruct (_ && _) eqn:E; [|apply in_canvas_nil]. apply Forall_singleton. cbn [fst].
  repeat match goal with H : _ && _ = true |- _ => apply andb_true_iff in H as [? ?] end.
  repeat match goal with H : (_ <=? _) = true |- _ => apply Z.leb_le in H | H : (_ <? _) = true |- _ => apply Z.ltb_lt in H end.
  nia.
Qed.

Create HintDb canvas.
#[local] Hint Resolve in_canvas_nil in_canvas_app in_canvas_concat in_canvas_CPIX : canvas.

Lemma in_canvas_CHLINE x y w c : in_canvas (CHLINE cw ch x y w c).
Proof. unfold CHLINE. auto with canvas. Qed.
#[local] Hint Resolve in_canvas_CHLINE : canvas.

Lemma in_canvas_CFILL x y w h c : in_canvas (CFILL cw ch x y w h c).
Proof. unfold CFILL. auto with canvas. Qed.

Lemma in_canvas_frame x y w h c : in_canvas (frame cw ch x y w h c).
Proof. unfold frame, vborders. auto 6 with canvas. Qed.

Lemma in_canvas_CTEXT x y s fg bg : in_canvas (CTEXT cw ch x y s fg bg).
Proof.
  revert x. induction s as [|c s IH]; intros x; [apply in_canvas_nil|]. cbn [CTEXT]. destruct (c =? 0); [apply in_canvas_nil|].
  unfold CCHAR. auto 6 with canvas.
Qed.
#[local] Hint Resolve in_canvas_CFILL in_canvas_frame in_canvas_CTEXT : canvas.

Lemma in_canvas_widget w : in_canvas (draw_widget cw ch w).
Proof.
  unfold draw_widget, draw_button, draw_textbox, draw_listview, draw_item. destruct (wtype w); auto 8 with canvas.
  - destruct (wfocused w); auto 8 with canvas.
  - destruct (lv_items w); auto 12 with canvas.
Qed.

(** Drawing stays within the canvas.  Whatever the positions, sizes, texts
    and list contents of the widgets of a window, every store of
    [widget_draw_all] is into one of the [client_w * client_h] pixels of the
    canvas. *)
Theorem widget_draw_bounds (has_canvas : bool) (p : widgets) (chain : list nat) :
  Forall (fun store => 0 <= store.1 < cw * ch) (widget_draw_all cw ch has_canvas p chain).
Proof. apply in_canvas_concat. intros i. destruct has_canvas; [apply in_canvas_widget|apply in_canvas_nil]. Qed.
End draw.
