(* ===== verification/Calculator.v ===== *)
(** * The calculator (src/gui/desktop.c, "Calculator Application")

    The static variables of the application and its event handler.  [None] is
    undefined behaviour in C: the overflow of an [int] in [atoi] or of an
    [int64_t], and the quotient of the smallest [int64_t] by -1. *)

From Stdlib Require Import String.
From S2P Require Import Prelude CLib Printf Ring Keyboard Mouse Event.

Definition CALC_BTN_W : Z := 48.
Definition CALC_BTN_H : Z := 36.
Definition CALC_BTN_PAD : Z := 4.
Definition CALC_ROWS : Z := 5.
Definition CALC_COLS : Z := 4.

Record calc := Calc {
  calc_display : list Z;
  calc_value : Z;
  calc_operand : Z;
  calc_op : Z;
  calc_new_input : bool;
  calc_input : list Z;
  calc_input_len : nat
}.

Definition calc_buttons : list (list Z) := map cs ["C/*<"; "789-"; "456+"; "123="; "0  ="]%string.

Definition int64 (x : Z) : option Z := if (- 2 ^ 63 <=? x) && (x <? 2 ^ 63) then Some x else None.

(** [(int64_t)atoi(calc_input)] *)
Definition atoi_int (s : list Z) : option Z :=
  let v := atoi s in if (- 2 ^ 31 <? v) && (v <? 2 ^ 31) then Some v else None.

Definition set_display (d : list Z) (c : calc) : calc :=
  Calc d (calc_value c) (calc_operand c) (calc_op c) (calc_new_input c) (calc_input c) (calc_input_len c).

Definition set_value (v : Z) (c : calc) : calc :=
  Calc (calc_display c) v (calc_operand c) (calc_op c) (calc_new_input c) (calc_input c) (calc_input_len c).

Definition set_operand (v : Z) (c : calc) : calc :=
  Calc (calc_display c) (calc_value c) v (calc_op c) (calc_new_input c) (calc_input c) (calc_input_len c).

Definition set_op (op : Z) (c : calc) : calc :=
  Calc (calc_display c) (calc_value c) (calc_operand c) op true (calc_input c) (calc_input_len c).

(** [snprintf(calc_display, sizeof(calc_display), "%lld", calc_value)] *)
Definition show_value (c : calc) : option calc :=
  match snprintf (calc_display c) 32 (cs "%lld") [AInt (u64 (calc_value c))] with
  | Some (d, _) => Some (set_display d c)
  | None => None
  end.

Definition calc_execute_pending (c : calc) : option calc :=
  let v := calc_value c in
  let o := calc_operand c in
  let go r := match int64 r with Some r => show_value (set_value r c) | None => None end in
  if calc_op c =? 43 then go (v + o)
  else if calc_op c =? 45 then go (v - o)
  else if calc_op c =? 42 then go (v * o)
  else if calc_op c =? 47 then
    if negb (o =? 0) then go (Z.quot v o)
    else Some (set_display (strcpy (calc_display c) (cs "Error: /0")) c)
  else show_value c.

Definition calc_digit (c : calc) (btn : Z) : calc :=
  let n := if calc_new_input c then 0%nat else calc_input_len c in
  let '(input, n) :=
    if (n <? 18)%nat then (<[S n := 0]> (<[n := btn]> (calc_input c)), S n) else (calc_input c, n) in
  Calc (strncpy (calc_display c) input 31) (calc_value c) (calc_operand c) (calc_op c) false input n.

Definition calc_clear (c : calc) : calc :=
  Calc (strcpy (calc_display c) (cs "0")) 0 0 0 true (<[0%nat := 0]> (calc_input c)) 0.

Definition calc_erase (c : calc) : calc :=
  match calc_input_len c with
  | O => c
  | S n =>
      let input := <[n := 0]> (calc_input c) in
      Calc (if (n =? 0)%nat then strcpy (calc_display c) (cs "0") else strncpy (calc_display c) input 31)
        (calc_value c) (calc_operand c) (calc_op c) (calc_new_input c) input n
  end.

Definition calc_operator (c : calc) (btn : Z) : option calc :=
  match atoi_int (calc_input c) with
  | None => None
  | Some val =>
      if negb (calc_op c =? 0) then set_op btn <$> calc_execute_pending (set_operand val c)
      else Some (set_op btn (set_value val c))
  end.

Definition calc_equals (c : calc) : option calc :=
  match atoi_int (calc_input c) with
  | None => None
  | Some val =>
      let c := set_operand val c in
      match (if negb (calc_op c =? 0) then calc_execute_pending c else Some (set_value val c)) with
      | None => None
      | Some c =>
          match show_value (set_op 0 c) with
          | None => None
          | Some c =>
              let input := strncpy (calc_input c) (calc_display c) 19 in
              Some (Calc (calc_display c) (calc_value c) (calc_operand c) (calc_op c) (calc_new_input c) input (strlen input))
          end
      end
  end.

Definition calc_handle_button (c : calc) (btn : Z) : option calc :=
  if (48 <=? btn) && (btn <=? 57) then Some (calc_digit c btn)
  else if btn =? 67 then Some (calc_clear c)
  else if btn =? 60 then Some (calc_erase c)
  else if (btn =? 43) || (btn =? 45) || (btn =? 42) || (btn =? 47) then calc_operator c btn
  else if btn =? 61 then calc_equals c
  else Some c.

(** The button a key stands for. *)
Definition calc_key (key : Z) : option Z :=
  if (48 <=? key) && (key <=? 57) then Some key
  else if (key =? 43) || (key =? 45) || (key =? 42) || (key =? 47) then Some key
  else if (key =? 10) || (key =? 61) then Some 61
  else if key =? 8 then Some 60
  else if (key =? 99) || (key =? 67) then Some 67
  else None.

(** The button under a press, in C's division. *)
Definition calc_button_at (mx my : Z) : option Z :=
  let row := Z.quot (my - (8 + 44 + CALC_BTN_PAD + 4)) (CALC_BTN_H + CALC_BTN_PAD) in
  let col := Z.quot (mx - 8) (CALC_BTN_W + CALC_BTN_PAD) in
  if (0 <=? row) && (row <? CALC_ROWS) && (0 <=? col) && (col <? CALC_COLS) then
    let btn := (nth (Z.to_nat row) calc_buttons []).[Z.to_nat col] in
    if btn =? 32 then None else Some btn
  else None.

(** [None] in the first result: the window is destroyed (EVT_CLOSE). *)
Definition calc_event (c : calc) (ev : gui_event) : option calc :=
  match ev_type ev with
  | EVT_KEY_DOWN => match calc_key (key ev) with Some b => calc_handle_button c b | None => Some c end
  | EVT_MOUSE_DOWN => match calc_button_at (mouse_x ev) (mouse_y ev) with Some b => calc_handle_button c b | None => Some c end
  | _ => Some c
  end.

Definition open_calculator (c : calc) : calc := calc_clear c.

(** A sequence of buttons. *)
Fixpoint calc_run (c : calc) (btns : list Z) : option calc :=
  match btns with
  | [] => Some c
  | b :: btns => match calc_handle_button c b with Some c => calc_run c btns | None => None end
  end.

(** The application before it is first opened: static storage is zero. *)
Definition calc_static : calc := Calc (replicate 32 0) 0 0 0 false (replicate 20 0) 0.

Definition calc_shows (btns : string) : option (list Z) :=
  (fun c => cstr (calc_display c)) <$> calc_run (open_calculator calc_static) (cs btns).

Example calc_sample : calc_shows "12+30*2=" = Some (cs "84") /\ calc_shows "7-9=*3=" = Some (cs "-6").
Proof. split; reflexivity. Qed.

(** ** Evaluation from left to right *)

Definition shapes (c : calc) : Prop := length (calc_display c) = 32%nat /\ length (calc_input c) = 20%nat.

(** The decimal text of a number, as [%lld] prints it. *)
Definition decimal (v : Z) : list Z := print_num (u64 v) 10 true false 0 32.

Inductive operator := Add | Sub | Mul | Div.
Definition op_char (o : operator) : Z := match o with Add => 43 | Sub => 45 | Mul => 42 | Div => 47 end.

(** One operation, when it is defined. *)
Definition apply_op (o : operator) (a b : Z) : option Z :=
  match o with
  | Add => int64 (a + b)
  | Sub => int64 (a - b)
  | Mul => int64 (a * b)
  | Div => if b =? 0 then None else int64 (Z.quot a b)
  end.

Fixpoint eval_left (a : Z) (rest : list (operator * list Z)) : option Z :=
  match rest with
  | [] => Some a
  | (o, ds) :: rest => match apply_op o a (dec_value ds) with Some v => eval_left v rest | None => None end
  end.

(** The buttons of a number, and of an expression. *)
Definition keys_of (rest : list (operator * list Z)) : list Z :=
  concat (map (fun t => op_char (fst t) :: dec_chars (snd t)) rest).

(** A number that can be typed and fits an [int]. *)
Definition typed_number (ds : list Z) : Prop :=
  Forall is_digit ds /\ (0 < length ds <= 18)%nat /\ dec_value ds < 2 ^ 31.


(** At most 20 characters: a sign and 19 digits, none of them a terminator. *)
Lemma decimal_text v : - 2 ^ 63 <= v < 2 ^ 63 -> (length (decimal v) <= 21)%nat /\ Forall (fun c => c <> 0) (decimal v).
Proof.
  intros Hv. unfold decimal, print_num.
  assert (i64 (u64 v) = v) as -> by (unfold i64, wrap; lia). cbn [andb].
  set (neg := v <? 0). set (num := if neg then _ else _).
  assert (0 <= num < 2 ^ 64) as Hn by (unfold num; destruct neg; apply Z.mod_pos_bound; lia).
  set (b := if num =? 0 then [48] else _).
  assert (length b <= 20)%nat as Hb.
  { unfold b. destruct (num =? 0); [cbn; lia|]. apply num_digits_length; [lia|]. lia. }
  assert (Forall (fun c => c <> 0) b) as Hz by (unfold b; destruct (num =? 0); [by repeat constructor|by apply num_digits_nonzero]).
  change (32 =? 48) with false. rewrite (proj2 (Z.ltb_ge _ 0)) by (destruct neg; lia).
  change (replicate (Z.to_nat 0) 32) with (@nil Z). cbn [negb andb app].
  assert (Forall (fun c => c <> 0) (rev b)) as Hr by (by apply Forall_rev).
  destruct neg; cbn [app length]; rewrite ?length_rev; (split; [lia|]); [by constructor|done].
Qed.

Lemma calc_run_app c s t : calc_run c (s ++ t) = match calc_run c s with Some c => calc_run c t | None => None end.
Proof. revert c. induction s as [|b s IH]; intros c; [done|]. cbn. destruct (calc_handle_button c b); [apply IH|done]. Qed.

Lemma atoi_digits_dec ds r acc : Forall is_digit ds -> isdigit (chr r) = false ->
  atoi_digits (dec_chars ds ++ r) acc = foldl (fun v d => v * 10 + d) acc ds.
Proof.
  intros H Hr. revert acc. induction H as [|d ds Hd Hds IH]; intros acc.
  - cbn. destruct r as [|c r]; [done|]. cbn in *. by rewrite Hr.
  - cbn [dec_chars map app atoi_digits foldl]. unfold is_digit in Hd.
    assert (isdigit (48 + d) = true) as -> by (unfold isdigit; lia).
    replace (acc * 10 + (48 + d - 48)) with (acc * 10 + d) by lia. apply IH.
Qed.

Lemma atoi_dec ds r : Forall is_digit ds -> ds <> [] -> atoi (dec_chars ds ++ 0 :: r) = dec_value ds.
Proof.
  intros H Hne. unfold atoi. destruct H as [|d ds Hd Hds]; [done|]. unfold is_digit in Hd.
  change (dec_chars (d :: ds) ++ 0 :: r) with ((48 + d) :: dec_chars ds ++ 0 :: r). cbn [skip_spaces].
  assert (isspace (48 + d) = false) as -> by (unfold isspace; lia). cbn [chr hd].
  rewrite !(proj2 (Z.eqb_neq _ _)) by lia. change ((48 + d) :: dec_chars ds ++ 0 :: r) with (dec_chars (d :: ds) ++ 0 :: r).
  apply atoi_digits_dec; [|done]. by constructor.
Qed.

(** One digit after the digits [ds]. *)
Lemma digit_step c ds d r :
  shapes c -> is_digit d -> (length ds < 18)%nat ->
  (ds = [] /\ calc_new_input c = true \/
   calc_new_input c = false /\ calc_input_len c = length ds /\ calc_input c = dec_chars ds ++ r /\ Forall is_digit ds) ->
  exists r' disp, calc_handle_button c (48 + d) =
    Some (Calc disp (calc_value c) (calc_operand c) (calc_op c) false (dec_chars (ds ++ [d]) ++ 0 :: r') (length (ds ++ [d]))) /\
    length disp = 32%nat /\ length (dec_chars (ds ++ [d]) ++ 0 :: r') = 20%nat.
Proof.
  intros [Hd Hi] Hdig Hn Hcase. unfold is_digit in Hdig. unfold calc_handle_button.
  rewrite (proj2 (Z.leb_le _ _)), (proj2 (Z.leb_le _ _)) by lia. cbn [andb]. unfold calc_digit.
  assert ((if calc_new_input c then 0%nat else calc_input_len c) = length ds /\
          exists q, calc_input c = dec_chars ds ++ q /\ length q = (20 - length ds)%nat) as [-> (q & Eq & Hq)].
  { destruct Hcase as [[-> ->]|(-> & -> & E & _)].
    - split; [done|]. exists (calc_input c). split; [done|]. cbn. lia.
    - split; [done|]. exists r. split; [done|]. apply (f_equal length) in E. rewrite length_app in E.
      unfold dec_chars in E. rewrite length_map in E. lia. }
  rewrite (proj2 (Nat.ltb_lt _ _)) by done.
  assert (length (dec_chars ds) = length ds) as Hld by apply length_map.
  destruct q as [|q0 [|q1 q]]; [cbn in Hq; lia|cbn in Hq; lia|].
  assert (<[S (length ds) := 0]> (<[length ds := 48 + d]> (calc_input c)) = dec_chars (ds ++ [d]) ++ 0 :: q) as ->.
  { rewrite Eq, !insert_app_r_alt, Hld by lia. rewrite Nat.sub_diag. replace (S (length ds) - length ds)%nat with 1%nat by lia.
    unfold dec_chars. rewrite map_app, <- app_assoc. done. }
  eexists _, _. rewrite length_app, Nat.add_1_r. split; [reflexivity|].
  assert (length (dec_chars (ds ++ [d]) ++ 0 :: q) = 20%nat) as Hl20.
  { rewrite length_app. unfold dec_chars. rewrite length_map, length_app. cbn [length] in *. lia. }
  split; [|done]. rewrite strncpy_spec.
  pose proof (strlen_le (dec_chars (ds ++ [d]) ++ 0 :: q)) as Hle. rewrite (proj2 (Nat.ltb_lt _ _)) by lia.
  rewrite length_blit; [done|].
  rewrite length_app, length_replicate, length_cstr, Hd. lia.
Qed.

Lemma type_number ds c : shapes c -> calc_new_input c = true -> typed_number ds ->
  exists disp r, calc_run c (dec_chars ds) =
    Some (Calc disp (calc_value c) (calc_operand c) (calc_op c) false (dec_chars ds ++ 0 :: r) (length ds)) /\
    length disp = 32%nat /\ length (dec_chars ds ++ 0 :: r) = 20%nat.
Proof.
  intros Hsh Hnew (Hd & Hl & _). assert (length ds <= 18)%nat as Hl18 by lia. assert (ds <> []) as Hne by (intros ->; cbn in Hl; lia).
  clear Hl. induction ds as [|d ds IH] using rev_ind; [done|]. clear Hne.
  apply Forall_app in Hd as [Hds [Hd1 _]%Forall_cons]. rewrite length_app in Hl18. cbn [length] in Hl18.
  unfold dec_chars at 1. rewrite map_app, calc_run_app. fold (dec_chars ds). cbn [map].
  destruct (decide (ds = [])) as [->|Hne].
  - cbn [dec_chars map calc_run].
    destruct (digit_step c [] d [] Hsh Hd1) as (r' & disp & -> & H1 & H2); [cbn; lia|by left|]. by exists disp, r'.
  - destruct (IH Hds ltac:(lia) Hne) as (disp & r & -> & H1 & H2). cbn [calc_run].
    edestruct (digit_step (Calc disp (calc_value c) (calc_operand c) (calc_op c) false (dec_chars ds ++ 0 :: r) (length ds))
                ds d (0 :: r)) as (r' & disp' & -> & H3 & H4); [by split|done|lia|by right|].
    by exists disp', r'.
Qed.

Lemma snprintf_decimal buf v : length buf = 32%nat -> - 2 ^ 63 <= v < 2 ^ 63 ->
  exists d n, snprintf buf 32 (cs "%lld") [AInt (u64 v)] = Some (d, n) /\ length d = 32%nat /\ cstr d = decimal v.
Proof.
  intros Hl Hv.
  assert (kvprintf_chars (cs "%lld") [AInt (u64 v)] = Some (decimal v)) as E.
  { change (kvprintf_chars (cs "%lld") [AInt (u64 v)]) with (Some (decimal v ++ [])). by rewrite app_nil_r. }
  destruct (decimal_text v Hv) as [Hlen Hnz].
  rewrite (snprintf_bounded buf 32 _ _ (decimal v)) by (done || lia).
  rewrite take_ge by lia. eexists _, _. split; [reflexivity|].
  rewrite length_blit by (rewrite length_app; cbn [length]; lia). split; [done|].
  unfold blit. rewrite take_0, app_nil_l, <- app_assoc. by apply cstr_app_0.
Qed.

Lemma int64_Some x r : int64 x = Some r -> r = x /\ - 2 ^ 63 <= x < 2 ^ 63.
Proof.
  unfold int64. destruct (_ && _) eqn:E; [|done]. intros <-%(inj Some).
  apply andb_true_iff in E as [?%Z.leb_le ?%Z.ltb_lt]. lia.
Qed.

Lemma show_value_ok c : shapes c -> - 2 ^ 63 <= calc_value c < 2 ^ 63 ->
  exists d, show_value c = Some (set_display d c) /\ length d = 32%nat /\ cstr d = decimal (calc_value c).
Proof.
  intros [Hd _] Hv. unfold show_value. destruct (snprintf_decimal (calc_display c) (calc_value c) Hd Hv) as (d & n & -> & H1 & H2).
  by exists d.
Qed.

Lemma dec_value_nonneg ds : Forall is_digit ds -> 0 <= dec_value ds.
Proof.
  intros Hd. enough (forall a, 0 <= a -> 0 <= foldl (fun v d => v * 10 + d) a ds) as H by (by apply H).
  induction Hd as [|d ds Hd _ IH]; intros a Ha; [by cbn|]. cbn. apply IH. unfold is_digit in Hd. lia.
Qed.

Lemma atoi_int_typed ds r : typed_number ds -> atoi_int (dec_chars ds ++ 0 :: r) = Some (dec_value ds).
Proof.
  intros (Hd & Hl & Hv). unfold atoi_int. rewrite atoi_dec; [|done|by destruct ds; [cbn in Hl; lia|]].
  pose proof (dec_value_nonneg ds Hd).
  by rewrite (proj2 (Z.ltb_lt _ _)), (proj2 (Z.ltb_lt _ _)) by lia.
Qed.

(** The pending operation, applied to the number typed. *)
Lemma pending_ok c o v : shapes c -> calc_op c = op_char o -> apply_op o (calc_value c) (calc_operand c) = Some v ->
  exists d, calc_execute_pending c = Some (set_display d (set_value v c)) /\ length d = 32%nat.
Proof.
  intros Hsh Hop Hv.
  assert (forall r, int64 r = Some v -> exists d, (match int64 r with Some r => show_value (set_value r c) | None => None end)
            = Some (set_display d (set_value v c)) /\ length d = 32%nat) as Hgo.
  { intros r Hr. rewrite Hr. apply int64_Some in Hr as [-> Hr].
    destruct (show_value_ok (set_value r c) Hsh Hr) as (d & -> & H1 & _). by exists d. }
  unfold calc_execute_pending. rewrite Hop. destruct o; cbn [op_char apply_op Z.eqb Pos.eqb] in *; auto.
  destruct (calc_operand c =? 0); [done|]. cbn [negb]. auto.
Qed.

(** After an operator: the value so far, the operator, and a new number next. *)
Definition waiting (c : calc) (v : Z) (o : operator) : Prop :=
  shapes c /\ calc_value c = v /\ calc_op c = op_char o /\ calc_new_input c = true.

Lemma op_char_button o c : calc_handle_button c (op_char o) = calc_operator c (op_char o).
Proof. by destruct o. Qed.

Lemma first_operator c ds o : shapes c -> calc_new_input c = true -> calc_op c = 0 -> typed_number ds ->
  exists c', calc_run c (dec_chars ds ++ [op_char o]) = Some c' /\ waiting c' (dec_value ds) o.
Proof.
  intros Hsh Hnew Hop Hds. rewrite calc_run_app.
  destruct (type_number ds c Hsh Hnew Hds) as (disp & r & -> & H1 & H2). cbn [calc_run].
  rewrite op_char_button. unfold calc_operator. cbn [calc_input calc_op]. rewrite atoi_int_typed, Hop by done.
  eexists. split; [reflexivity|]. by repeat split.
Qed.

Lemma next_operator c v o ds v' o' : waiting c v o -> typed_number ds -> apply_op o v (dec_value ds) = Some v' ->
  exists c', calc_run c (dec_chars ds ++ [op_char o']) = Some c' /\ waiting c' v' o'.
Proof.
  intros (Hsh & Hv & Hop & Hnew) Hds Hap. rewrite calc_run_app.
  destruct (type_number ds c Hsh Hnew Hds) as (disp & r & -> & H1 & H2). cbn [calc_run].
  rewrite op_char_button. unfold calc_operator. cbn [calc_input calc_op]. rewrite atoi_int_typed by done.
  replace (calc_op c =? 0) with false by (rewrite Hop; by destruct o). cbn [negb].
  edestruct (pending_ok (set_operand (dec_value ds) (Calc disp (calc_value c) (calc_operand c) (calc_op c) false
    (dec_chars ds ++ 0 :: r) (length ds)))) as (d & -> & Hd); [by split|exact Hop|by rewrite <- Hv in Hap|].
  eexists. split; [reflexivity|]. by repeat split.
Qed.

Lemma equals_ok c v o ds v' : waiting c v o -> typed_number ds -> apply_op o v (dec_value ds) = Some v' ->
  - 2 ^ 63 <= v' < 2 ^ 63 ->
  exists c', calc_run c (dec_chars ds ++ [61]) = Some c' /\ calc_value c' = v' /\ cstr (calc_display c') = decimal v'.
Proof.
  intros (Hsh & Hv & Hop & Hnew) Hds Hap Hr. rewrite calc_run_app.
  destruct (type_number ds c Hsh Hnew Hds) as (disp & r & -> & H1 & H2). cbn [calc_run].
  change (calc_handle_button ?c 61) with (calc_equals c).
  unfold calc_equals. cbn [calc_input]. rewrite atoi_int_typed by done.
  set (c1 := set_operand _ _). cbv zeta. change (calc_op c1) with (calc_op c).
  replace (calc_op c =? 0) with false by (rewrite Hop; by destruct o). cbn [negb].
  destruct (pending_ok c1 o v') as (d & -> & Hd); [by split|exact Hop|by rewrite <- Hv in Hap|].
  destruct (show_value_ok (set_op 0 (set_display d (set_value v' c1)))) as (d' & -> & _ & Hd'); [by split|done|].
  eexists. split; [reflexivity|]. by split.
Qed.

(** The calculator evaluates from left to right.  Opened afresh, after the
    buttons of a number, any operators and numbers (each of at most 18 digits
    and below 2^31) and [=], it shows the decimal text of the value of the
    expression read from left to right, division truncating toward zero,
    provided every intermediate value fits 64 bits and no divisor is zero. *)
Theorem calc_left_to_right (c : calc) (ds : list Z) (o : operator) (ds1 : list Z) (rest : list (operator * list Z)) (v : Z) :
  shapes c -> typed_number ds -> typed_number ds1 -> Forall (fun t => typed_number (snd t)) rest ->
  eval_left (dec_value ds) ((o, ds1) :: rest) = Some v ->
  exists c', calc_run (open_calculator c) (dec_chars ds ++ keys_of ((o, ds1) :: rest) ++ [61]) = Some c' /\
    calc_value c' = v /\ cstr (calc_display c') = decimal v.
Proof.
  intros Hsh Hds Hds1 Hrest Hev.
  assert (shapes (open_calculator c)) as Hsh0.
  { destruct Hsh as [H1 H2]. split; cbn [open_calculator calc_clear calc_display calc_input].
    - unfold strcpy. rewrite length_blit; [done|]. rewrite H1. apply Nat.leb_le. reflexivity.
    - by rewrite length_insert. }
  destruct (first_operator (open_calculator c) ds o Hsh0 eq_refl eq_refl Hds) as (c1 & E1 & Hw).
  unfold keys_of. cbn [map concat fst snd]. fold (keys_of rest).
  replace (dec_chars ds ++ ((op_char o :: dec_chars ds1) ++ keys_of rest) ++ [61])
    with ((dec_chars ds ++ [op_char o]) ++ dec_chars ds1 ++ keys_of rest ++ [61]) by (by rewrite <- !app_assoc).
  rewrite calc_run_app, E1. clear E1 Hsh Hsh0 Hds. generalize (dec_value ds) as a, Hev, Hw. clear ds Hev Hw c.
  revert o ds1 c1 Hds1 Hrest. induction rest as [|[o2 ds2] rest IH]; intros o ds1 c1 Hds1 Hrest a Hev Hw.
  - cbn [eval_left] in Hev. destruct (apply_op o a (dec_value ds1)) as [v1|] eqn:Eo; [|done]. injection Hev as <-.
    cbn [keys_of map concat app]. apply (equals_ok c1 a o); [done|done|done|].
    destruct o; cbn [apply_op] in Eo; try (destruct (_ =? 0); [done|]); apply int64_Some in Eo as [-> ?]; done.
  - apply Forall_cons in Hrest as [Hds2 Hrest]. cbn [snd] in Hds2. cbn [eval_left] in Hev.
    destruct (apply_op o a (dec_value ds1)) as [v1|] eqn:Eo; [|done].
    destruct (next_operator c1 a o ds1 v1 o2 Hw Hds1 Eo) as (c2 & E2 & Hw2).
    unfold keys_of. cbn [map concat fst snd]. fold (keys_of rest).
    replace (dec_chars ds1 ++ ((op_char o2 :: dec_chars ds2) ++ keys_of rest) ++ [61])
      with ((dec_chars ds1 ++ [op_char o2]) ++ dec_chars ds2 ++ keys_of rest ++ [61]) by (by rewrite <- !app_assoc).
    rewrite calc_run_app, E2. by apply (IH o2 ds2 c2 Hds2 Hrest v1).
Qed.

(** 12 + 30 * 2 = *)
Lemma calc_left_to_right_witness :
  exists c', calc_run (open_calculator calc_static) (cs "12+30*2=") = Some c' /\
    calc_value c' = 84 /\ cstr (calc_display c') = cs "84".
Proof.
  assert (forall ds, ds ∈ [[1; 2]; [3; 0]; [2]] -> typed_number ds) as Ht.
  { apply Forall_forall. repeat (constructor; [split; [repeat constructor; lia|split; [cbn; lia|reflexivity]]|]). constructor. }
  destruct (calc_left_to_right calc_static [1; 2] Add [3; 0] [(Mul, [2])] 84) as (c' & H1 & H2 & H3).
  - split; reflexivity.
  - apply Ht. left.
  - apply Ht. right. left.
  - constructor; [|constructor]. apply Ht. right. right. left.
  - reflexivity.
  - exists c'. split; [exact H1|]. split; [exact H2|]. rewrite H3. reflexivity.
Defined.

(** Findings: the division by zero that [=] computes is not reported, the
    message being overwritten at once by the dividend; and a number typed with
    more than ten digits is beyond what [atoi] can read. *)
Example division_by_zero_shows_dividend : calc_shows "8/0=" = Some (cs "8") /\ calc_shows "8/0+" = Some (cs "Error: /0").
Proof. split; reflexivity. Qed.

Example typed_number_overflows_atoi : calc_shows "3000000000=" = None.
Proof. reflexivity. Qed.
