(* ===== verification/VaultPad.v ===== *)
(** * The document editor (src/gui/desktop.c, "VaultPad Text Editor")

    The static array of 128 rows of 256 cells with its cursor, and the keys
    and clicks of the event handler.  What a key asks for beyond the text
    (saving, closing, a new document) is the second result.  [base] is the
    address of a row, at whose alignment memmove looks. *)

From Stdlib Require Import String.
From S2P Require Import Prelude CLib Ring Keyboard Mouse Event Font TextBuf.

Definition VP_MAX_LINES : nat := 128.
Definition VP_LINE_MAX : nat := 255.
Definition VP_GUTTER_W : Z := 40.
Definition VP_TOOLBAR_H : Z := 28.
Definition VP_STATUS_H : Z := 20.

Record vp := Vp {
  vp_lines : list (list Z);
  vp_line_count : nat;
  vp_cursor_row : nat;
  vp_cursor_col : nat;
  vp_scroll_row : Z;
  vp_modified : bool
}.

Definition line (st : vp) (i : nat) : list Z := nth i (vp_lines st) [].
Definition vp_len (st : vp) (i : nat) : nat := strlen (line st i).

Definition at_cursor (row col : nat) (st : vp) : vp :=
  Vp (vp_lines st) (vp_line_count st) row col (vp_scroll_row st) (vp_modified st).

(** The array, its line count and the cursor after an edit. *)
Definition edited (ls : list (list Z)) (n row col : nat) (st : vp) : vp := Vp ls n row col (vp_scroll_row st) true.

(** [memset(vp_lines, 0, sizeof(vp_lines))] and one empty line. *)
Definition vp_new_doc : vp := Vp (replicate VP_MAX_LINES (replicate (VP_LINE_MAX + 1) 0)) 1 0 0 0 false.

Definition vp_ensure_visible (st : vp) (visible_rows : Z) : vp :=
  let row := Z.of_nat (vp_cursor_row st) in
  let s := if row <? vp_scroll_row st then row else vp_scroll_row st in
  let s := if s + visible_rows <=? row then row - visible_rows + 1 else s in
  Vp (vp_lines st) (vp_line_count st) (vp_cursor_row st) (vp_cursor_col st) (if s <? 0 then 0 else s) (vp_modified st).

(** [for (i = top; i > row + 1; i--) memcpy(vp_lines[i], vp_lines[i - 1])] *)
Fixpoint shift_down (k i : nat) (ls : list (list Z)) : list (list Z) :=
  match k with
  | O => ls
  | S k => shift_down k (i - 1) (<[i := nth (i - 1) ls []]> ls)
  end.

(** [for (i = row; i < count - 1; i++) memcpy(vp_lines[i], vp_lines[i + 1])] *)
Fixpoint shift_up (k i : nat) (ls : list (list Z)) : list (list Z) :=
  match k with
  | O => ls
  | S k => shift_up k (i + 1) (<[i := nth (i + 1) ls []]> ls)
  end.

Section vaultpad.
Context (base : nat).

Definition vp_insert_char (st : vp) (ch : Z) : vp :=
  let row := vp_cursor_row st in
  let col := vp_cursor_col st in
  let len := vp_len st row in
  if (VP_LINE_MAX - 1 <=? len)%nat then st
  else
    let l := <[col := ch]> (memmove base (line st row) (col + 1) col (len - col + 1)) in
    edited (<[row := l]> (vp_lines st)) (vp_line_count st) row (col + 1) st.

Definition vp_insert_newline (st : vp) : vp :=
  let row := vp_cursor_row st in
  let col := vp_cursor_col st in
  let n := vp_line_count st in
  if (VP_MAX_LINES <=? n)%nat then st
  else
    let ls := shift_down (n - (row + 1)) n (vp_lines st) in
    let cur := nth row ls [] in
    let ls := <[(row + 1)%nat := strcpy (nth (row + 1) ls []) (drop col cur)]> ls in
    let ls := <[row := <[col := 0]> cur]> ls in
    edited ls (n + 1) (row + 1) 0 st.

Definition vp_backspace (st : vp) : vp :=
  let row := vp_cursor_row st in
  let col := vp_cursor_col st in
  let n := vp_line_count st in
  if (0 <? col)%nat then
    let l := memmove base (line st row) (col - 1) col (vp_len st row - col + 1) in
    edited (<[row := l]> (vp_lines st)) n row (col - 1) st
  else if (0 <? row)%nat then
    let prev_len := vp_len st (row - 1) in
    if (prev_len + vp_len st row <? VP_LINE_MAX)%nat then
      let ls := <[(row - 1)%nat := strcat (line st (row - 1)) (line st row)]> (vp_lines st) in
      edited (shift_up (n - 1 - row) row ls) (n - 1) (row - 1) prev_len st
    else st
  else st.

Definition vp_delete_forward (st : vp) : vp :=
  let row := vp_cursor_row st in
  let col := vp_cursor_col st in
  let n := vp_line_count st in
  let len := vp_len st row in
  if (col <? len)%nat then
    let l := memmove base (line st row) col (col + 1) (len - col) in
    edited (<[row := l]> (vp_lines st)) n row col st
  else if (row <? n - 1)%nat then
    if (len + vp_len st (row + 1) <? VP_LINE_MAX)%nat then
      let ls := <[row := strcat (line st row) (line st (row + 1))]> (vp_lines st) in
      edited (shift_up (n - 1 - (row + 1)) (row + 1) ls) (n - 1) row col st
    else st
  else st.

(** The column, kept within the line. *)
Definition to_row (row : nat) (st : vp) : vp := at_cursor row (Nat.min (vp_cursor_col st) (vp_len st row)) st.

Inductive request := Nothing | Save | Close | New.

Definition vp_shortcut (key : Z) : request :=
  if (key =? 115) || (key =? 83) then Save
  else if (key =? 113) || (key =? 81) then Close
  else if (key =? 110) || (key =? 78) then New
  else Nothing.

(** The keys, when neither the dialog nor Ctrl is active. *)
Definition vp_key (st : vp) (visible_rows : Z) (key : Z) : vp :=
  let row := vp_cursor_row st in
  let col := vp_cursor_col st in
  let n := vp_line_count st in
  if key =? KEY_UP then (if (0 <? row)%nat then to_row (row - 1) st else st)
  else if key =? KEY_DOWN then (if (row <? n - 1)%nat then to_row (row + 1) st else st)
  else if key =? KEY_LEFT then
    if (0 <? col)%nat then at_cursor row (col - 1) st
    else if (0 <? row)%nat then at_cursor (row - 1) (vp_len st (row - 1)) st else st
  else if key =? KEY_RIGHT then
    if (col <? vp_len st row)%nat then at_cursor row (col + 1) st
    else if (row <? n - 1)%nat then at_cursor (row + 1) 0 st else st
  else if key =? KEY_HOME then at_cursor row 0 st
  else if key =? KEY_END then at_cursor row (vp_len st row) st
  else if key =? KEY_PGUP then
    let r := Z.of_nat row - visible_rows in to_row (Z.to_nat (if r <? 0 then 0 else r)) st
  else if key =? KEY_PGDN then
    let r := Z.of_nat row + visible_rows in
    to_row (Z.to_nat (if Z.of_nat n <=? r then Z.of_nat n - 1 else r)) st
  else if key =? 10 then vp_insert_newline st
  else if key =? 8 then vp_backspace st
  else if key =? KEY_DELETE then vp_delete_forward st
  else if key =? 9 then Nat.iter 4 (fun st => vp_insert_char st 32) st
  else if (0x20 <=? key) && (key <? 0x7F) then vp_insert_char st key
  else st.

Definition vp_visible_rows (client_h : Z) : Z := Z.quot (client_h - VP_TOOLBAR_H - VP_STATUS_H - 4) FONT_HEIGHT.

(** A press in the text, in C's division; [None]: it goes to the widgets. *)
Definition vp_click (st : vp) (client_h mx my : Z) : option vp :=
  if (VP_TOOLBAR_H <? my) && (my <? i16 (client_h - VP_STATUS_H)) then
    let row := Z.quot (my - VP_TOOLBAR_H - 2) FONT_HEIGHT + vp_scroll_row st in
    let col := Z.quot (mx - VP_GUTTER_W) FONT_WIDTH in
    Some (if (0 <=? row) && (row <? Z.of_nat (vp_line_count st)) then
            let r := Z.to_nat row in
            let len := Z.of_nat (vp_len st r) in
            at_cursor r (Z.to_nat (if col <? 0 then 0 else if len <? col then len else col)) st
          else st)
  else None.
End vaultpad.

(** [vp_escape_sql]: the copy, up to [dst_size - 2] cells. *)
Fixpoint escape_sql (room : nat) (src : list Z) : list Z :=
  match src with
  | [] => []
  | c :: src =>
      if c =? 0 then []
      else match room with
           | O => []
           | S r => if c =? 39 then 39 :: 39 :: escape_sql (r - 1) src else c :: escape_sql r src
           end
  end.

Definition vp_escape_sql (src : list Z) (dst_size : nat) : list Z := escape_sql (dst_size - 2) src ++ [0].
