(* ===== verification/VaultPadSpec.v ===== *)
(** * Correctness of the document editor

    The abstract document is the lines above the cursor, the current line
    before and after it, and the lines below.  Every key acts on it as its
    name says, and the array is never left. *)

From Stdlib Require Import String.
From S2P Require Import Prelude CLib Ring Keyboard Mouse Event Font TextBuf VaultPad.

Definition ROW : nat := VP_LINE_MAX + 1.

Record doc := Doc {
  above : list (list Z);
  before : list Z;
  after : list Z;
  below : list (list Z)
}.

Definition row_ok (r : list Z) : Prop := exists n, holds_text ROW r n.

Record vp_ok (st : vp) : Prop := {
  vo_lines : length (vp_lines st) = VP_MAX_LINES;
  vo_rows : Forall row_ok (vp_lines st);
  vo_count : (vp_line_count st <= VP_MAX_LINES)%nat;
  vo_row : (vp_cursor_row st < vp_line_count st)%nat;
  vo_col : (vp_cursor_col st <= vp_len st (vp_cursor_row st))%nat
}.

Definition view (st : vp) : doc :=
  let L := map cstr (take (vp_line_count st) (vp_lines st)) in
  let l := cstr (line st (vp_cursor_row st)) in
  Doc (take (vp_cursor_row st) L) (take (vp_cursor_col st) l) (drop (vp_cursor_col st) l) (drop (vp_cursor_row st + 1) L).

(** The array cut at the cursor. *)
Record cut (ls : list (list Z)) (n row : nat) (A : list (list Z)) (cur : list Z) (B R : list (list Z)) : Prop := {
  cut_lines : ls = A ++ cur :: B ++ R;
  cut_row : length A = row;
  cut_count : (row + S (length B))%nat = n;
  cut_size : (n + length R)%nat = VP_MAX_LINES;
  cut_ok : Forall row_ok A /\ row_ok cur /\ Forall row_ok B /\ Forall row_ok R
}.

Lemma vp_cut st : vp_ok st ->
  exists A cur B R, cut (vp_lines st) (vp_line_count st) (vp_cursor_row st) A cur B R /\ line st (vp_cursor_row st) = cur.
Proof.
  intros [H1 H2 H3 H4 H5]. set (row := vp_cursor_row st) in *. set (n := vp_line_count st) in *.
  destruct (vp_lines st !! row) as [cur|] eqn:Ec; [|apply lookup_ge_None in Ec; lia].
  assert (vp_lines st = take row (vp_lines st) ++ cur :: drop (S row) (vp_lines st)) as E by (symmetry; by apply take_drop_middle).
  exists (take row (vp_lines st)), cur, (take (n - S row) (drop (S row) (vp_lines st))), (drop (n - S row) (drop (S row) (vp_lines st))).
  assert (line st row = cur) as El by (unfold line; by rewrite nth_lookup, Ec).
  split; [|done]. split.
  - by rewrite take_drop.
  - rewrite length_take. lia.
  - rewrite length_take, length_drop. lia.
  - rewrite !length_drop. lia.
  - rewrite E in H2. apply Forall_app in H2 as [HA [Hc HB]%Forall_cons]. split_and!; auto using Forall_take, Forall_drop.
Qed.

(** An array put together. *)
Lemma vp_join ls n row col sc m A cur B R a z :
  cut ls n row A cur B R -> cstr cur = a ++ z -> length a = col ->
  vp_ok (Vp ls n row col sc m) /\ view (Vp ls n row col sc m) = Doc (map cstr A) a z (map cstr B).
Proof.
  intros [-> Hr Hn Hsz (HA & Hc & HB & HR)] Ec Ea.
  assert (forall st, vp_lines st = A ++ cur :: B ++ R -> line st row = cur) as El.
  { intros st E. unfold line. rewrite E, app_nth2, Hr, Nat.sub_diag by lia. done. }
  split.
  - split; cbn [vp_lines vp_line_count vp_cursor_row vp_cursor_col].
    + rewrite length_app. cbn [length]. rewrite length_app. unfold VP_MAX_LINES in *. lia.
    + apply Forall_app. split; [done|]. constructor; [done|by apply Forall_app].
    + unfold VP_MAX_LINES in *. lia.
    + lia.
    + unfold vp_len. rewrite El by done. rewrite <- length_cstr, Ec, length_app. lia.
  - unfold view. cbn [vp_lines vp_line_count vp_cursor_row vp_cursor_col]. rewrite El by done. rewrite Ec, <- Ea.
    rewrite take_app_length, drop_app_length.
    assert (take n (A ++ cur :: B ++ R) = A ++ cur :: B) as ->.
    { change (cur :: B ++ R) with ((cur :: B) ++ R). rewrite app_assoc. apply take_app_length'.
      rewrite length_app. cbn [length]. lia. }
    rewrite map_app. cbn [map]. rewrite take_app_length' by (by rewrite length_map).
    replace (row + 1)%nat with (length (map cstr A ++ [cstr cur])) by (rewrite length_app, length_map; cbn [length]; lia).
    change (map cstr A ++ cstr cur :: map cstr B) with (map cstr A ++ [cstr cur] ++ map cstr B).
    by rewrite app_assoc, drop_app_length.
Qed.

(** The current line of a state and its parts. *)
Lemma vp_current st : vp_ok st ->
  exists A cur B R a z, cut (vp_lines st) (vp_line_count st) (vp_cursor_row st) A cur B R /\
    line st (vp_cursor_row st) = cur /\ view st = Doc (map cstr A) a z (map cstr B) /\
    holds_text ROW cur (length a + length z) /\ parts cur (length a + length z) (vp_cursor_col st) = (a, z) /\
    length a = vp_cursor_col st /\ vp_len st (vp_cursor_row st) = (length a + length z)%nat /\ cstr cur = a ++ z.
Proof.
  intros Hok. destruct (vp_cut st Hok) as (A & cur & B & R & Hcut & El).
  pose proof (cut_ok _ _ _ _ _ _ _ Hcut) as (_ & [n Hn] & _ & _). pose proof (vo_col _ Hok) as Hc.
  unfold vp_len in *. rewrite El in *. pose proof Hn as (_ & _ & Hs). rewrite Hs in Hc.
  destruct (text_split _ _ _ _ Hn Hc) as (a & z & r & _ & Ha & Hl & Hp & _ & _).
  pose proof (cstr_parts _ _ _ (vp_cursor_col st) Hn) as Et. rewrite Hp in Et. cbn [fst snd] in Et.
  exists A, cur, B, R, a, z. subst n.
  destruct st as [ls n row col sc m]. cbn [vp_lines vp_line_count vp_cursor_row vp_cursor_col] in *.
  destruct (vp_join ls n row col sc m A cur B R a z Hcut Et Ha) as [_ Hv]. rewrite Hl. by split_and!.
Qed.

(** A new current line. *)
Lemma cut_insert ls n row A cur B R cur' : cut ls n row A cur B R -> row_ok cur' ->
  cut (<[row := cur']> ls) n row A cur' B R.
Proof.
  intros [-> Hr Hn Hsz (HA & Hc & HB & HR)] Hc'. split; try done.
  rewrite insert_app_r_alt, Hr, Nat.sub_diag by lia. done.
Qed.

Definition same_line (d : doc) (l : list Z * list Z) : doc := Doc (above d) l.1 l.2 (below d).

(** An edit within the current line. *)
Lemma edit_line st A cur B R b n' col' l :
  cut (vp_lines st) (vp_line_count st) (vp_cursor_row st) A cur B R ->
  holds_text ROW b n' -> (col' <= n')%nat -> parts b n' col' = l ->
  let st' := edited (<[vp_cursor_row st := b]> (vp_lines st)) (vp_line_count st) (vp_cursor_row st) col' st in
  vp_ok st' /\ view st' = Doc (map cstr A) l.1 l.2 (map cstr B).
Proof.
  intros Hcut Hb Hc Hp. destruct (text_split _ _ _ _ Hb Hc) as (a & z & r & _ & Ha & _ & Hp' & _).
  pose proof (cstr_parts _ _ _ col' Hb) as Et. rewrite Hp' in Hp, Et. subst l. cbn [fst snd] in *.
  apply (vp_join _ _ _ _ _ _ A b B R a z); [|done|done]. apply cut_insert with cur; [done|by exists n'].
Qed.

(** [memmove] carrying the terminator along. *)
Lemma memmove_terminator base b d s k : (d + k < length b)%nat -> b !! (s + k)%nat = Some 0 ->
  memmove base b d s (k + 1) = <[(d + k)%nat := 0]> (memmove base b d s k).
Proof.
  intros Hd Hs. pose proof (lookup_lt_Some _ _ _ Hs).
  destruct (memmove_moved base b d s (k + 1)) as [L1 H1]; [lia|lia|].
  destruct (memmove_moved base b d s k) as [L2 H2]; [lia|lia|].
  apply list_eq. intros i. rewrite H1. destruct (decide (i = d + k)%nat) as [->|Hne].
  - rewrite list_lookup_insert_eq by lia. rewrite decide_True by lia. rewrite <- Hs. f_equal. lia.
  - rewrite list_lookup_insert_ne, H2 by done.
    destruct (decide (d <= i < d + k)%nat); [by rewrite decide_True by lia|by rewrite decide_False by lia].
Qed.

Lemma text_end size b n : holds_text size b n -> b !! n = Some 0.
Proof. intros (H1 & H2 & H3). apply strlen_lookup; [lia|done]. Qed.

(** ** The abstract editor *)

Definition lines_of (d : doc) : nat := length (above d) + 1 + length (below d).

Definition type_char (c : Z) (d : doc) : doc :=
  if (length (before d ++ after d) <? VP_LINE_MAX - 1)%nat then Doc (above d) (before d ++ [c]) (after d) (below d) else d.

Definition new_line (d : doc) : doc :=
  if (lines_of d <? VP_MAX_LINES)%nat then Doc (above d ++ [before d]) [] (after d) (below d) else d.

Definition rub_out (d : doc) : doc :=
  match last (before d) with
  | Some _ => Doc (above d) (removelast (before d)) (after d) (below d)
  | None =>
      match last (above d) with
      | Some p => if (length p + length (after d) <? VP_LINE_MAX)%nat
                  then Doc (removelast (above d)) p (after d) (below d) else d
      | None => d
      end
  end.

Definition delete_next (d : doc) : doc :=
  match after d with
  | _ :: z => Doc (above d) (before d) z (below d)
  | [] =>
      match below d with
      | l :: rest => if (length (before d) + length l <? VP_LINE_MAX)%nat then Doc (above d) (before d) l rest else d
      | [] => d
      end
  end.

Section ops.
Context (base : nat).

Lemma insert_char_ok st c : vp_ok st -> c <> 0 ->
  let st' := vp_insert_char base st c in vp_ok st' /\ view st' = type_char c (view st).
Proof.
  intros Hok Hc. destruct (vp_current st Hok) as (A & cur & B & R & a & z & Hcut & El & Hv & Ht & Hp & Ha & Hlen & _).
  cbv zeta. unfold vp_insert_char, type_char. rewrite Hv, Hlen, El. cbn [above before after below]. rewrite length_app.
  destruct (Nat.leb_spec (VP_LINE_MAX - 1) (length a + length z)) as [H|H].
  { rewrite (proj2 (Nat.ltb_ge _ _)) by lia. by rewrite Hv. }
  rewrite (proj2 (Nat.ltb_lt _ _)) by lia. pose proof Ht as (HL & _ & _).
  destruct (text_insert_char base _ _ _ (vp_cursor_col st) c a z Ht) as [H1 H2]; [lia|done|done|unfold ROW; lia|].
  replace (<[vp_cursor_col st := c]> (memmove base cur (vp_cursor_col st + 1) (vp_cursor_col st) (length a + length z - vp_cursor_col st + 1)))
    with (<[(length a + length z + 1)%nat := 0]> (<[vp_cursor_col st := c]>
           (memmove base cur (vp_cursor_col st + 1) (vp_cursor_col st) (length a + length z - vp_cursor_col st)))).
  2:{ rewrite memmove_terminator.
      - rewrite list_insert_insert_ne by lia. f_equal. f_equal. lia.
      - rewrite HL. unfold ROW. lia.
      - replace (vp_cursor_col st + _)%nat with (length a + length z)%nat by lia. by apply (text_end ROW). }
  destruct (edit_line st A cur B R _ _ (vp_cursor_col st + 1) (a ++ [c], z) Hcut H1) as [H3 H4]; [lia|exact H2|].
  split; [done|]. rewrite H4. done.
Qed.

(** ** Rows moved *)

Lemma shift_down_spec B y A R : shift_down (length B) (length A + length B) (A ++ B ++ y :: R) =
  A ++ hd y B :: B ++ R.
Proof.
  revert y R. induction B as [|b B IH] using rev_ind; intros y R; [done|].
  rewrite length_app. cbn [length]. rewrite Nat.add_1_r. cbn [shift_down].
  replace (length A + S (length B) - 1)%nat with (length A + length B)%nat by lia.
  assert (nth (length A + length B) (A ++ (B ++ [b]) ++ y :: R) [] = b) as ->.
  { rewrite app_nth2 by lia. replace (length A + length B - length A)%nat with (length B) by lia.
    rewrite <- app_assoc, app_nth2, Nat.sub_diag by lia. done. }
  assert (<[(length A + S (length B))%nat := b]> (A ++ (B ++ [b]) ++ y :: R) = A ++ B ++ b :: b :: R) as ->.
  { rewrite insert_app_r_alt by lia. rewrite insert_app_r_alt by (rewrite length_app; cbn; lia).
    rewrite length_app. cbn [length]. replace (length A + S (length B) - length A - (length B + 1))%nat with 0%nat by lia.
    by rewrite <- app_assoc. }
  rewrite IH. destruct B; cbn; rewrite <- ?app_assoc; done.
Qed.

Lemma vp_shift_up_spec B y A R : shift_up (length B) (length A) (A ++ y :: B ++ R) = A ++ B ++ List.last (y :: B) [] :: R.
Proof.
  revert y A. induction B as [|b B IH]; intros y A; [done|]. cbn [length shift_up].
  assert (nth (length A + 1) (A ++ y :: (b :: B) ++ R) [] = b) as ->.
  { rewrite app_nth2 by lia. by replace (length A + 1 - length A)%nat with 1%nat by lia. }
  assert (<[length A := b]> (A ++ y :: (b :: B) ++ R) = (A ++ [b]) ++ b :: B ++ R) as ->.
  { rewrite insert_app_r_alt, Nat.sub_diag by lia. by rewrite <- app_assoc. }
  replace (length A + 1)%nat with (length (A ++ [b])) by (rewrite length_app; cbn; lia).
  rewrite IH, <- app_assoc. done.
Qed.

Lemma strcpy_row y s : row_ok y -> (strlen s < ROW)%nat -> row_ok (strcpy y s) /\ cstr (strcpy y s) = cstr s.
Proof.
  intros [n (Hl & _ & _)] Hs. unfold strcpy, blit. rewrite take_0, app_nil_l, <- app_assoc. cbn [app].
  pose proof (cstr_nonzero s) as Hz. rewrite cstr_app_0 by done. split; [|done].
  exists (strlen s). apply holds_text_intro; [done| |by rewrite length_cstr].
  rewrite length_app. cbn [length]. rewrite length_drop, length_app, length_cstr. cbn [length]. lia.
Qed.

Lemma strcat_row p s : row_ok p -> (strlen p + strlen s < ROW)%nat -> row_ok (strcat p s) /\ cstr (strcat p s) = cstr p ++ cstr s.
Proof.
  intros [n (Hl & Hn & Hp)] Hs. unfold strcat, blit. rewrite <- app_assoc. fold (cstr p).
  pose proof (cstr_nonzero s) as Hz. pose proof (cstr_nonzero p) as Hz'. rewrite app_assoc. cbn [app].
  rewrite cstr_app_0 by (by apply Forall_app_2). split; [|done].
  exists (strlen p + strlen s)%nat. apply holds_text_intro; [by apply Forall_app_2| |by rewrite length_app, !length_cstr].
  rewrite !length_app. cbn [length]. rewrite length_drop, !length_cstr. cbn [length]. lia.
Qed.

Lemma drop_cstr s k : (k <= strlen s)%nat -> cstr (drop k s) = drop k (cstr s).
Proof.
  revert k. induction s as [|c s IH]; intros [|k] Hk; try done.
  cbn [strlen] in Hk. unfold cstr at 2. cbn [strlen]. destruct (Z.eqb_spec c 0); [lia|]. cbn [take drop]. apply IH. lia.
Qed.

Lemma cut_text cur a z col : holds_text ROW cur (length a + length z) -> cstr cur = a ++ z -> length a = col ->
  row_ok (<[col := 0]> cur) /\ cstr (<[col := 0]> cur) = a /\ cstr (drop col cur) = z.
Proof.
  intros Ht Et Ha. destruct (text_split _ _ _ col Ht) as (a' & z' & r & Hb & Ha' & Hl & _ & Hnz & HL); [lia|].
  assert (a' = a /\ z' = z) as [-> ->].
  { apply app_inj_1; [lia|]. rewrite <- Et, Hb, app_assoc. symmetry. by apply cstr_app_0. }
  apply Forall_app in Hnz as [Hna _]. destruct Ht as (_ & _ & Hs).
  assert (exists r', <[col := 0]> cur = a ++ 0 :: r' /\ length (a ++ 0 :: r') = ROW) as (r' & Er & Hr').
  { rewrite Hb. destruct (z ++ 0 :: r) as [|x q] eqn:Eq; [by destruct z|]. exists q.
    rewrite insert_app_r_alt, Ha, Nat.sub_diag by lia. split; [done|].
    apply (f_equal length) in Eq. rewrite length_app in Eq. rewrite length_app. cbn [length] in *. lia. }
  rewrite Er. split; [exists (length a); by apply holds_text_intro|]. split; [by apply cstr_app_0|].
  rewrite drop_cstr by lia. by rewrite Et, <- Ha, drop_app_length.
Qed.

Lemma newline_ok st : vp_ok st -> let st' := vp_insert_newline st in vp_ok st' /\ view st' = new_line (view st).
Proof.
  intros Hok. destruct (vp_current st Hok) as (A & cur & B & R & a & z & Hcut & El & Hv & Ht & Hp & Ha & Hlen & Et).
  cbv zeta. unfold vp_insert_newline, new_line, lines_of. rewrite Hv. cbn [above before after below]. rewrite !length_map.
  pose proof Hcut as [HL Hr Hn Hsz (HA & Hc & HB & HR)].
  destruct (Nat.leb_spec VP_MAX_LINES (vp_line_count st)) as [H|H].
  { rewrite (proj2 (Nat.ltb_ge _ _)) by lia. by rewrite Hv. }
  rewrite (proj2 (Nat.ltb_lt _ _)) by lia.
  destruct R as [|y R]; [cbn in Hsz; lia|]. apply Forall_cons in HR as [Hy HR].
  set (row := vp_cursor_row st) in *. set (col := vp_cursor_col st) in *. set (n := vp_line_count st) in *.
  assert (shift_down (n - (row + 1)) n (vp_lines st) = A ++ cur :: hd y B :: B ++ R) as ->.
  { rewrite HL. change (A ++ cur :: B ++ y :: R) with (A ++ [cur] ++ B ++ y :: R). rewrite app_assoc.
    replace (n - (row + 1))%nat with (length B) by lia. replace n with (length (A ++ [cur]) + length B)%nat by (rewrite length_app; cbn [length]; lia).
    rewrite shift_down_spec, <- app_assoc. done. }
  assert (nth row (A ++ cur :: hd y B :: B ++ R) [] = cur) as -> by (rewrite app_nth2, Hr, Nat.sub_diag by lia; done).
  assert (nth (row + 1) (A ++ cur :: hd y B :: B ++ R) [] = hd y B) as ->.
  { rewrite app_nth2, Hr by lia. by replace (row + 1 - row)%nat with 1%nat by lia. }
  destruct (cut_text cur a z col Ht Et Ha) as (C1 & C2 & C3).
  destruct (strcpy_row (hd y B) (drop col cur)) as [N1 N2].
  { destruct B; [done|]. by apply Forall_cons in HB as [? _]. }
  { rewrite <- length_cstr, C3. destruct Ht as (_ & ? & _). lia. }
  set (new := strcpy (hd y B) (drop col cur)) in *.
  assert (<[row := <[col := 0]> cur]> (<[(row + 1)%nat := new]> (A ++ cur :: hd y B :: B ++ R)) =
    (A ++ [<[col := 0]> cur]) ++ new :: B ++ R) as ->.
  { rewrite !insert_app_r_alt, Hr by lia. replace (row + 1 - row)%nat with 1%nat by lia. rewrite Nat.sub_diag. by rewrite <- app_assoc. }
  unfold edited. replace (map cstr A ++ [a]) with (map cstr (A ++ [<[col := 0]> cur])) by (by rewrite map_app; cbn [map]; rewrite C2).
  apply (vp_join _ _ _ _ _ _ _ new B R [] z); [|by rewrite N2, C3|done]. split; [done| | | |].
  - rewrite length_app. cbn [length]. lia.
  - lia.
  - cbn [length] in Hsz. lia.
  - split_and!; [apply Forall_app_2; [done|by repeat constructor]|done|done|done].
Qed.

(** The row after the merged one goes, and the rows below move up. *)
Lemma merge_cut A p cur B R n : cut (A ++ p :: cur :: B ++ R) n (length A) A p (cur :: B) R -> row_ok (strcat p cur) ->
  cut (shift_up (length B) (length A + 1) (<[length A := strcat p cur]> (A ++ p :: cur :: B ++ R))) (n - 1) (length A)
    A (strcat p cur) B (List.last (cur :: B) [] :: R).
Proof.
  intros [_ _ Hn Hsz (HA & _ & HB & HR)] Hs. cbn [length] in Hn. apply Forall_cons in HB as [Hc HB]. split.
  - rewrite insert_app_r_alt, Nat.sub_diag by lia.
    change (<[0%nat := strcat p cur]> (p :: cur :: B ++ R)) with ([strcat p cur] ++ cur :: B ++ R). rewrite app_assoc.
    replace (length A + 1)%nat with (length (A ++ [strcat p cur])) by (rewrite length_app; done).
    rewrite vp_shift_up_spec, <- app_assoc. done.
  - done.
  - lia.
  - cbn [length]. lia.
  - split_and!; [done|done|done|]. constructor; [|done].
    assert (Forall row_ok (cur :: B)) as HF by (by constructor).
    apply (proj1 (Forall_forall _ _) HF). apply list_elem_of_In.
    destruct (exists_last (l := cur :: B)) as (l & x & ->); [done|]. rewrite List.last_last. apply in_or_app. right. by left.
Qed.

Lemma vp_backspace_ok st : vp_ok st -> let st' := vp_backspace base st in vp_ok st' /\ view st' = rub_out (view st).
Proof.
  intros Hok. destruct (vp_current st Hok) as (A & cur & B & R & a & z & Hcut & El & Hv & Ht & Hp & Ha & Hlen & Et).
  cbv zeta. unfold vp_backspace, rub_out. rewrite Hv. cbn [above before after below].
  destruct (Nat.ltb_spec 0 (vp_cursor_col st)) as [Hc|Hc].
  - destruct (exists_last (l := a)) as (a' & x & ->); [intros ->; cbn in Ha; lia|]. rewrite last_snoc, removelast_last.
    rewrite El, Hlen. destruct (text_backspace base _ _ _ (vp_cursor_col st) a' x z Ht) as (_ & H1 & H2); [lia|done|].
    pose proof Ht as (HL & HN & _).
    rewrite memmove_terminator; [|lia|].
    2:{ replace (vp_cursor_col st + _)%nat with (length (a' ++ [x]) + length z)%nat by lia. by apply (text_end ROW). }
    replace (vp_cursor_col st - 1 + (length (a' ++ [x]) + length z - vp_cursor_col st))%nat
      with (length (a' ++ [x]) + length z - 1)%nat by lia.
    destruct (edit_line st A cur B R _ _ (vp_cursor_col st - 1) (a', z) Hcut H1) as [H3 H4]; [lia|exact H2|]. done.
  - destruct a as [|? ?]; [|cbn in Ha; lia]. cbn [last]. cbn [length app Nat.add] in *.
    pose proof Hcut as [HL Hr Hn Hsz (HA & Hcur & HB & HR)].
    destruct (Nat.ltb_spec 0 (vp_cursor_row st)) as [Hrow|Hrow].
    2:{ destruct A; [|cbn in Hr; lia]. by rewrite Hv. }
    destruct (exists_last (l := A)) as (A' & p & ->); [intros ->; cbn in Hr; lia|].
    rewrite map_app. cbn [map]. rewrite last_snoc, removelast_last. rewrite length_app in Hr. cbn [length] in Hr.
    apply Forall_app in HA as [HA' [Hp' _]%Forall_cons].
    assert (line st (vp_cursor_row st - 1) = p) as Ep.
    { unfold line. rewrite HL, <- app_assoc, app_nth2 by lia. by replace (vp_cursor_row st - 1 - length A')%nat with 0%nat by lia. }
    unfold vp_len. rewrite Ep, El, <- !length_cstr, Et.
    destruct (Nat.ltb_spec (length (cstr p) + length z) VP_LINE_MAX) as [Hfit|Hfit]; [|by rewrite Hv, map_app].
    destruct (strcat_row p cur Hp') as [S1 S2]; [rewrite <- !length_cstr, Et; unfold ROW; lia|].
    rewrite HL, <- app_assoc. cbn [app].
    replace (vp_cursor_row st - 1)%nat with (length A') by lia. replace (vp_line_count st - 1 - vp_cursor_row st)%nat with (length B) by lia.
    unfold edited. apply (vp_join _ _ _ _ _ _ A' (strcat p cur) B (List.last (cur :: B) [] :: R) (cstr p) z);
      [|by rewrite S2, Et|done].
    rewrite <- Hr. apply merge_cut; [|done]. split; [done|done|cbn [length]; lia|done|]. split_and!; [done|done|by constructor|done].
Qed.

Lemma vp_delete_ok st : vp_ok st -> let st' := vp_delete_forward base st in vp_ok st' /\ view st' = delete_next (view st).
Proof.
  intros Hok. destruct (vp_current st Hok) as (A & cur & B & R & a & z & Hcut & El & Hv & Ht & Hp & Ha & Hlen & Et).
  cbv zeta. unfold vp_delete_forward, delete_next. rewrite Hv, Hlen. cbn [above before after below].
  destruct (Nat.ltb_spec (vp_cursor_col st) (length a + length z)) as [Hc|Hc].
  - destruct z as [|x z]; [cbn in Hc; lia|]. rewrite El.
    destruct (text_remove base _ _ _ (vp_cursor_col st) a x z Ht) as (H1 & H2); [lia|done|].
    pose proof Ht as (HL & HN & _). cbn [length] in *.
    replace (length a + S (length z) - vp_cursor_col st)%nat with (length a + S (length z) - vp_cursor_col st - 1 + 1)%nat by lia.
    rewrite memmove_terminator; [|lia|].
    2:{ replace (vp_cursor_col st + 1 + _)%nat with (length a + S (length z))%nat by lia. by apply (text_end ROW). }
    replace (vp_cursor_col st + (length a + S (length z) - vp_cursor_col st - 1))%nat with (length a + S (length z) - 1)%nat by lia.
    destruct (edit_line st A cur B R _ _ (vp_cursor_col st) (a, z) Hcut H1) as [H3 H4]; [lia|exact H2|]. done.
  - destruct z as [|? ?]; [|cbn in Hc; lia]. rewrite app_nil_r in Et. cbn [length] in *. rewrite Nat.add_0_r in *.
    pose proof Hcut as [HL Hr Hn Hsz (HA & Hcur & HB & HR)].
    destruct (Nat.ltb_spec (vp_cursor_row st) (vp_line_count st - 1)) as [Hrow|Hrow].
    2:{ destruct B; [|cbn in Hn; lia]. by rewrite Hv. }
    destruct B as [|b B]; [cbn in Hn; lia|]. cbn [map length] in *. apply Forall_cons in HB as [Hb HB].
    assert (line st (vp_cursor_row st + 1) = b) as Ep.
    { unfold line. rewrite HL, app_nth2 by lia. by replace (vp_cursor_row st + 1 - length A)%nat with 1%nat by lia. }
    unfold vp_len. rewrite Ep, El, <- length_cstr.
    destruct (Nat.ltb_spec (length a + length (cstr b)) VP_LINE_MAX) as [Hfit|Hfit]; [|by rewrite Hv].
    destruct (strcat_row cur b Hcur) as [S1 S2]; [rewrite <- !length_cstr, Et; unfold ROW; lia|].
    rewrite HL. cbn [app]. replace (vp_line_count st - 1 - (vp_cursor_row st + 1))%nat with (length B) by lia.
    rewrite <- Hr. unfold edited. apply (vp_join _ _ _ _ _ _ A (strcat cur b) B (List.last (b :: B) [] :: R) a (cstr b));
      [|by rewrite S2, Et|done].
    apply merge_cut; [|done]. split; [done|done|cbn [length]; lia|done|]. split_and!; [done|done|by constructor|done].
Qed.
End ops.

(** ** Moving the cursor *)

(** The lines of the document. *)
Definition doc_text (d : doc) : list (list Z) := above d ++ (before d ++ after d) :: below d.

Lemma view_text st : vp_ok st -> doc_text (view st) = map cstr (take (vp_line_count st) (vp_lines st)).
Proof.
  intros Hok. destruct (vp_current st Hok) as (A & cur & B & R & a & z & [-> Hr Hn _ _] & _ & -> & _ & _ & _ & _ & Et).
  unfold doc_text. cbn [above before after below]. rewrite <- Et.
  change (cur :: B ++ R) with ((cur :: B) ++ R). rewrite app_assoc, take_app_length' by (rewrite length_app; cbn [length]; lia).
  by rewrite map_app.
Qed.

Lemma move_ok st row col : vp_ok st -> (row < vp_line_count st)%nat -> (col <= vp_len st row)%nat ->
  vp_ok (at_cursor row col st) /\ doc_text (view (at_cursor row col st)) = doc_text (view st).
Proof.
  intros Hok Hr Hc. assert (vp_ok (at_cursor row col st)) as Hok' by (destruct Hok; by split).
  split; [done|]. by rewrite !view_text.
Qed.

Lemma to_row_ok st row : vp_ok st -> (row < vp_line_count st)%nat ->
  vp_ok (to_row row st) /\ doc_text (view (to_row row st)) = doc_text (view st).
Proof. intros Hok Hr. apply move_ok; [done|done|]. lia. Qed.

(** The keys that change the text. *)
Definition vp_edit (key : Z) (d : doc) : option doc :=
  if key =? 10 then Some (new_line d)
  else if key =? 8 then Some (rub_out d)
  else if key =? KEY_DELETE then Some (delete_next d)
  else if key =? 9 then Some (Nat.iter 4 (type_char 32) d)
  else if (0x20 <=? key) && (key <? 0x7F) then Some (type_char key d)
  else None.

Lemma insert_spaces base k st : vp_ok st ->
  let st' := Nat.iter k (fun st => vp_insert_char base st 32) st in
  vp_ok st' /\ view st' = Nat.iter k (type_char 32) (view st).
Proof.
  intros Hok. cbv zeta. induction k as [|k [IH1 IH2]]; [done|]. rewrite !Nat.iter_succ.
  destruct (insert_char_ok base _ 32 IH1) as [H1 H2]; [done|]. split; [done|]. by rewrite H2, IH2.
Qed.

(** C34: the document editor edits the document.  Whatever the key, the array
    keeps its rows terminated and the cursor within a line of the document.
    Enter splits the line at the cursor (up to 128 lines), Backspace and
    Delete take out a character or join two lines (when the result fits 254
    characters), Tab puts in four spaces, a printable character goes in at the
    cursor (up to 254 characters); any other key leaves the text as it is. *)
Theorem vaultpad_refines (base : nat) (st : vp) (visible_rows : Z) (key : Z) :
  vp_ok st -> 0 <= visible_rows ->
  let st' := vp_key base st visible_rows key in
  vp_ok st' /\
  match vp_edit key (view st) with
  | Some d => view st' = d
  | None => doc_text (view st') = doc_text (view st)
  end.
Proof.
  intros Hok Hvis. cbv zeta. pose proof Hok as [_ _ _ Hrow Hcol]. unfold vp_key, vp_edit.
  destruct (Z.eqb_spec key KEY_UP) as [->|N1].
  { cbn [Z.eqb Pos.eqb KEY_UP KEY_DELETE Z.leb Z.ltb Z.compare andb]. case_match; [apply to_row_ok; [done|lia]|done]. }
  destruct (Z.eqb_spec key KEY_DOWN) as [->|N2].
  { cbn [Z.eqb Pos.eqb KEY_DOWN KEY_DELETE Z.leb Z.ltb Z.compare andb].
    destruct (Nat.ltb_spec (vp_cursor_row st) (vp_line_count st - 1)); [apply to_row_ok; [done|lia]|done]. }
  destruct (Z.eqb_spec key KEY_LEFT) as [->|N3].
  { change (vp_ok ?x /\ _) with (vp_ok x /\ doc_text (view x) = doc_text (view st)).
    destruct (0 <? vp_cursor_col st)%nat; [apply move_ok; [done|done|lia]|].
    destruct (0 <? vp_cursor_row st)%nat; [apply move_ok; [done|lia|lia]|done]. }
  destruct (Z.eqb_spec key KEY_RIGHT) as [->|N4].
  { change (vp_ok ?x /\ _) with (vp_ok x /\ doc_text (view x) = doc_text (view st)).
    destruct (Nat.ltb_spec (vp_cursor_col st) (vp_len st (vp_cursor_row st))); [apply move_ok; [done|done|lia]|].
    destruct (Nat.ltb_spec (vp_cursor_row st) (vp_line_count st - 1)); [apply move_ok; [done|lia|lia]|done]. }
  destruct (Z.eqb_spec key KEY_HOME) as [->|N5]; [apply move_ok; [done|done|lia]|].
  destruct (Z.eqb_spec key KEY_END) as [->|N6]; [apply move_ok; [done|done|lia]|].
  destruct (Z.eqb_spec key KEY_PGUP) as [->|N7].
  { apply to_row_ok; [done|]. destruct (Z.ltb_spec (Z.of_nat (vp_cursor_row st) - visible_rows) 0); lia. }
  destruct (Z.eqb_spec key KEY_PGDN) as [->|N8].
  { apply to_row_ok; [done|].
    destruct (Z.leb_spec (Z.of_nat (vp_line_count st)) (Z.of_nat (vp_cursor_row st) + visible_rows)); lia. }
  destruct (Z.eqb_spec key 10) as [->|N9]; [by apply newline_ok|].
  destruct (Z.eqb_spec key 8) as [->|N10]; [by apply vp_backspace_ok|].
  destruct (Z.eqb_spec key KEY_DELETE) as [->|N11]; [by apply vp_delete_ok|].
  destruct (Z.eqb_spec key 9) as [->|N12]; [by apply insert_spaces|].
  destruct ((0x20 <=? key) && (key <? 0x7F)) eqn:Ek; [|done].
  apply andb_true_iff in Ek as [K1%Z.leb_le K2%Z.ltb_lt]. apply insert_char_ok; [done|lia].
Qed.

Lemma vp_new_doc_ok : vp_ok vp_new_doc.
Proof.
  split; [reflexivity| |apply Nat.leb_le; reflexivity|apply Nat.ltb_lt; reflexivity|apply Nat.leb_le; reflexivity].
  apply Forall_replicate. exists 0%nat. split; [reflexivity|]. split; [apply Nat.ltb_lt; reflexivity|reflexivity].
Qed.

(** "ab", Left, Enter on a new document. *)
Lemma vaultpad_refines_witness :
  let st := fold_left (fun st k => vp_key 0 st 20 k) [97; 98; KEY_LEFT; 10] vp_new_doc in
  vp_ok st /\ view st = Doc [cs "a"] [] (cs "b") [].
Proof.
  intros st.
  destruct (vaultpad_refines 0 vp_new_doc 20 97 vp_new_doc_ok ltac:(lia)) as [H1 _].
  destruct (vaultpad_refines 0 _ 20 98 H1 ltac:(lia)) as [H2 _].
  destruct (vaultpad_refines 0 _ 20 KEY_LEFT H2 ltac:(lia)) as [H3 _].
  destruct (vaultpad_refines 0 _ 20 10 H3 ltac:(lia)) as [H4 E]. split; [exact H4|].
  vm_compute. reflexivity.
Defined.

(** The finding: the handler expects a letter while Ctrl is held, but the
    keyboard then delivers a control character, so that Ctrl-S, Ctrl-Q and
    Ctrl-N are never recognised. *)
Theorem ctrl_shortcuts_dead (kb : kb_state) (sc c : Z) :
  0 <= sc -> ctrl_pressed kb = true -> produced kb sc = Some c -> vp_shortcut c = Nothing.
Proof.
  intros Hsc Hctrl. unfold produced. destruct (_ || _); [done|]. cbv zeta. destruct (_ =? 0) eqn:E0; [done|].
  intros <-%(inj Some). unfold key_char. destruct (e0_prefix kb).
  - set (i := Z.to_nat _).
    assert (forall v, v ∈ e0_scancode_to_key -> vp_shortcut v = Nothing) as H by (by apply Forall_forall; vm_compute; repeat constructor).
    destruct (decide (i < length e0_scancode_to_key)%nat) as [Hi|Hi].
    + apply H, list_elem_of_In, nth_In. done.
    + rewrite nth_overflow by lia. done.
  - cbn [set_e0 ctrl_pressed caps_lock shift_pressed]. rewrite Hctrl. cbn [andb].
    set (x := if caps_lock kb && _ then _ else _). clearbody x. unfold vp_shortcut, is_lower, is_upper.
    destruct ((97 <=? x) && (x <=? 122)) eqn:E1; [|destruct ((65 <=? x) && (x <=? 90)) eqn:E2].
    all: repeat match goal with |- context [?a =? ?b] => destruct (Z.eqb_spec a b); try (exfalso; lia) end; done.
Qed.

Lemma ctrl_shortcuts_dead_witness :
  let kb := Kb (Ring (replicate KB_BUFFER_SIZE 0) 0 0) false true false false 0 in
  produced kb 0x1F = Some 19 /\ vp_shortcut 19 = Nothing.
Proof.
  split; [reflexivity|].
  apply (ctrl_shortcuts_dead (Kb (Ring (replicate KB_BUFFER_SIZE 0) 0 0) false true false false 0) 0x1F 19);
    [lia|reflexivity|reflexivity].
Defined.
