(* ===== verification/Document.v ===== *)
(** * Documents in the database (src/gui/desktop.c, "VaultPad Text Editor")

    Saving, loading and choosing documents: the buttons of the editor of
    VaultPad.v on the state of the database.  [sql0] and [sql1] are the
    unknown cells of the local query buffers; [data_of] reads the union of a
    field that is not a string. *)

From Stdlib Require Import String.
From S2P Require Import Widgets.
From S2P Require Import VaultPad.
From S2P Require Import Prelude CLib Errors Random Aes Record Btree Cap Database Printf Query Client.

(** The static variables beside those of the text. *)
Record pad := Pad {
  text : vp;
  vp_doc_name : list Z;
  vp_name_box : widget;
  vp_file_list : widget;
  vp_show_open : bool
}.

Definition DOC_NAME_SIZE : nat := 64.

Section document.
Context `{Hw, AesNi}.
Context (mem : nat -> nat -> bool) (clock : nat -> Z) (stack : nat -> nat -> list Z).
Context (sql0 sql1 : list Z) (data_of : field_value -> list Z).

(** The loop over the lines. *)
Fixpoint save_lines (lines : list (list Z)) (doc_name sql : list Z) (pid : Z) : M unit :=
  match lines with
  | [] => ret tt
  | l :: lines =>
      let escaped := vp_escape_sql l (VP_LINE_MAX * 2 + 1) in
      bind (print_to sql "INSERT INTO ObjectTable (name, type, data) VALUES ('%s', 'document', '%s')" [txt doc_name; txt escaped]) (fun sql =>
      bind (db_execute mem clock stack (cstr sql) pid) (fun _ =>
      save_lines lines doc_name sql pid))
  end.

Definition unmodified (e : vp) : vp :=
  Vp (vp_lines e) (vp_line_count e) (vp_cursor_row e) (vp_cursor_col e) (vp_scroll_row e) false.

Definition vp_save_doc (pid : Z) (st : pad) : M pad :=
  let name := textbox_get_text (vp_name_box st) in
  if (strlen name =? 0)%nat then ret st
  else
    let doc_name := strncpy (vp_doc_name st) name (DOC_NAME_SIZE - 1) in
    bind (print_to sql0 "DELETE FROM ObjectTable WHERE name = '%s' AND type = 'document'" [txt doc_name]) (fun sql =>
    bind (db_execute mem clock stack (cstr sql) pid) (fun _ =>
    bind (save_lines (take (vp_line_count (text st)) (vp_lines (text st))) doc_name sql pid) (fun _ =>
    ret (Pad (unmodified (text st)) doc_name (vp_name_box st) (vp_file_list st) (vp_show_open st))))).

(** [for (i = 0; i < row_count && i < VP_MAX_LINES; i++)], over the data of the
    rows. *)
Fixpoint load_lines (data : list (list Z)) (i : nat) (ls : list (list Z)) : list (list Z) * nat :=
  match data with
  | [] => (ls, i)
  | d :: data =>
      if (VP_MAX_LINES <=? i)%nat then (ls, i)
      else load_lines data (S i) (<[i := strncpy (nth i ls []) d VP_LINE_MAX]> ls)
  end.

Definition blank_lines : list (list Z) := replicate VP_MAX_LINES (replicate (VP_LINE_MAX + 1) 0).

Definition vp_load_doc (name : list Z) (pid : Z) (st : pad) : M pad :=
  bind (print_to sql1 "SELECT * FROM ObjectTable WHERE name = '%s' AND type = 'document'" [txt name]) (fun sql =>
  bind (db_execute mem clock stack (cstr sql) pid) (fun result =>
  let '(ls, n) :=
    match result with
    | Some r =>
        if (error_code r =? 0) && (0 <? row_count r)%nat
        then load_lines (map (fun row => str_data data_of row 3) (rows r)) 0 blank_lines else (blank_lines, 0%nat)
    | None => (blank_lines, 0%nat)
    end in
  let '(ls, n) := if (n =? 0)%nat then (<[0%nat := <[0%nat := 0]> (nth 0 ls [])]> ls, 1%nat) else (ls, n) in
  let doc_name := strncpy (vp_doc_name st) name (DOC_NAME_SIZE - 1) in
  ret (Pad (Vp ls n 0 0 0 false) doc_name (textbox_set_text doc_name (vp_name_box st)) (vp_file_list st) (vp_show_open st)))).

Definition vp_new_document (st : pad) : pad :=
  Pad vp_new_doc (<[0%nat := 0]> (vp_doc_name st)) (textbox_set_text (cs "untitled") (vp_name_box st)) (vp_file_list st) false.

(** The loop of [vp_open_dialog]: a name not seen before, of at most 64, is
    entered in the list. *)
Fixpoint list_names (names : list (list Z)) (seen : list (list Z)) (w : widget) : widget :=
  match names with
  | [] => w
  | n :: names =>
      if existsb (fun s => strcmp s n =? 0) seen then list_names names seen w
      else if (length seen <? 64)%nat then
        list_names names (seen ++ [<[63%nat := 0]> (strncpy (replicate 64 0) n 63)]) (listview_add_item n w)
      else list_names names seen w
  end.

Definition vp_open_dialog (pid : Z) (st : pad) : M pad :=
  bind (db_execute mem clock stack (cs "SELECT * FROM ObjectTable WHERE type = 'document'") pid) (fun result =>
  let w := listview_clear (vp_file_list st) in
  let w := match result with
           | Some r => if (0 <? row_count r)%nat then list_names (map (fun row => str_data data_of row 1) (rows r)) [] w else w
           | None => w
           end in
  ret (Pad (text st) (vp_doc_name st) (vp_name_box st) w true)).

Definition vp_file_selected (index : Z) (pid : Z) (st : pad) : M pad :=
  if (index <? 0) || (Z.of_nat (lv_count (vp_file_list st)) <=? index) then ret st
  else
    match lv_items (vp_file_list st) with
    | None => fault
    | Some items =>
        bind (vp_load_doc (cstr (nth (Z.to_nat index) items [])) pid st) (fun st =>
        ret (Pad (text st) (vp_doc_name st) (vp_name_box st) (vp_file_list st) false))
    end.
End document.
