(* ===== verification/DocumentSpec.v ===== *)
(** * A saved document is loaded as it was

    [vp_save_doc] followed by [vp_load_doc], through the query language and
    the encrypted table, gives back every line of the document. *)

From Stdlib Require Import String Sorting.Sorted.
From stdpp Require Import gmap.
From S2P Require Import TextBuf VaultPad VaultPadSpec Widgets.
From S2P Require Import Prelude CLib Errors Random Sha256 Hmac Aes Record Btree BtreeSpec Cap CapSpec Database DatabaseSpec Printf Query QuerySpec QueryWrites Client Friendly FriendlySpec Stored Document.

Definition doc_kind : list Z := cs "document".

Lemma doc_kind_literal : literal doc_kind.
Proof. apply word_literal. reflexivity. Qed.

(** ** Formatting *)

Lemma escape_cons room c src : escape_sql room (c :: src) =
  if c =? 0 then [] else match room with O => [] | S r => if c =? 39 then 39 :: 39 :: escape_sql (r - 1) src else c :: escape_sql r src end.
Proof. by destruct room. Qed.

Lemma escape_plain room src : Forall (fun c => c <> 39) (cstr src) -> escape_sql room src = take room (cstr src).
Proof.
  revert room. induction src as [|c src IH]; intros room Hs; [by destruct room|].
  assert (cstr (c :: src) = if c =? 0 then [] else c :: cstr src) as E by (unfold cstr; cbn [strlen]; by destruct (c =? 0)).
  rewrite E in Hs |- *. destruct (c =? 0) eqn:E0; rewrite escape_cons, E0; [by destruct room|]. apply Forall_cons in Hs as [Hc Hs].
  destruct room as [|room]; [done|]. rewrite (proj2 (Z.eqb_neq _ _) Hc). cbn [take]. by rewrite IH.
Qed.

Lemma literal_no_quote s : literal s -> Forall (fun c => c <> 39) s.
Proof. intros [Hs _]. apply (Forall_impl _ _ _ Hs). intros c. unfold string_char. lia. Qed.

Lemma escape_literal row : literal (cstr row) -> vp_escape_sql row (VP_LINE_MAX * 2 + 1) = cstr row ++ [0].
Proof.
  intros Hl. unfold vp_escape_sql. rewrite escape_plain by (by apply literal_no_quote).
  rewrite take_ge; [done|]. destruct Hl as [_ Hl]. unfold MAX_STR_LEN, VP_LINE_MAX in *. lia.
Qed.

Lemma fill_insert_doc name e line : cstr name = line -> forall data, cstr e = data ->
  fill (cs "INSERT INTO ObjectTable (name, type, data) VALUES ('%s', 'document', '%s')") [name; e] = insert_text line doc_kind data.
Proof. intros En data Ed. unfold insert_text, doc_kind. lit. cbn [fill Z.eqb Pos.eqb app]. by rewrite En, Ed. Qed.

Lemma fill_delete_doc cells name : cstr cells = name ->
  fill (cs "DELETE FROM ObjectTable WHERE name = '%s' AND type = 'document'") [cells] = delete_text name doc_kind.
Proof. intros En. unfold delete_text, stored_where, doc_kind. lit. cbn [fill Z.eqb Pos.eqb app]. by rewrite En. Qed.

Lemma fill_select_doc cells name : cstr cells = name ->
  fill (cs "SELECT * FROM ObjectTable WHERE name = '%s' AND type = 'document'") [cells] = select_text name doc_kind.
Proof. intros En. unfold select_text, stored_where, doc_kind. lit. cbn [fill Z.eqb Pos.eqb app]. by rewrite En. Qed.

(** The queries fit their buffers of 600 and 512 cells. *)
Lemma doc_query_fits name line : (length name < DOC_NAME_SIZE)%nat -> literal line ->
  (length (delete_text name doc_kind) < 600 /\ length (select_text name doc_kind) < 512 /\ length (insert_text name doc_kind line) < 600)%nat.
Proof.
  intros Hn [_ Hl]. unfold delete_text, select_text, stored_where, insert_text. rewrite !length_app.
  assert (length doc_kind = 8 /\ length (cs " name = '") = 9 /\ length (cs "' AND type = '") = 14 /\ length (cs " WHERE") = 6 /\
    length (cs "ObjectTable") = 11 /\ length (cs "DELETE FROM ") = 12 /\ length (cs "SELECT * FROM ") = 14 /\
    length (cs "INSERT INTO ObjectTable (name, type, data) VALUES ('") = 52 /\ length (cs "', '") = 4 /\ length (cs "')") = 2)%nat
    as (-> & -> & -> & -> & -> & -> & -> & -> & -> & ->) by (split_and!; reflexivity).
  unfold DOC_NAME_SIZE, MAX_STR_LEN in *. cbn [length]. lia.
Qed.

(** ** Loading lines into the array *)

Lemma strncpy_row r d n : length r = S n -> (strlen d < n)%nat ->
  length (strncpy r d n) = S n /\ cstr (strncpy r d n) = cstr d.
Proof.
  intros Hr Hd. rewrite strncpy_spec, (proj2 (Nat.ltb_lt _ _) Hd).
  assert (length (cstr d ++ replicate (n + 1 - strlen d) 0) = length r) as El by (rewrite length_app, length_cstr, length_replicate; lia).
  assert (blit r 0 (cstr d ++ replicate (n + 1 - strlen d) 0) = cstr d ++ replicate (n + 1 - strlen d) 0) as ->.
  { unfold blit. cbn [take app Nat.add]. rewrite El, drop_all. apply app_nil_r. }
  split; [congruence|]. replace (n + 1 - strlen d)%nat with (S (n - strlen d)) by lia. cbn [replicate]. apply cstr_app_0, cstr_nonzero.
Qed.

Lemma load_lines_spec data : forall i ls,
  length ls = VP_MAX_LINES -> Forall row_ok ls -> Forall (fun d => (strlen d < VP_LINE_MAX)%nat) data -> (i + length data <= VP_MAX_LINES)%nat ->
  exists ls', load_lines data i ls = (ls', (i + length data)%nat) /\ length ls' = VP_MAX_LINES /\ Forall row_ok ls' /\
    map cstr (take (i + length data) ls') = map cstr (take i ls) ++ map cstr data.
Proof.
  induction data as [|d data IH]; intros i ls Hl Hr Hd Hi; cbn [load_lines length map].
  { exists ls. rewrite Nat.add_0_r, app_nil_r. by split_and!. }
  apply Forall_cons in Hd as [Hd Hds]. cbn [length] in Hi. rewrite (proj2 (Nat.leb_gt _ _)) by lia.
  destruct (ls !! i) as [r|] eqn:Er; [|apply lookup_ge_None in Er; lia].
  assert (nth i ls [] = r) as -> by (by rewrite nth_lookup, Er).
  pose proof (proj1 (Forall_lookup _ _) Hr i r Er) as (k & Hk1 & Hk2 & Hk3).
  destruct (strncpy_row r d VP_LINE_MAX Hk1 Hd) as [L1 C1].
  destruct (IH (S i) (<[i := strncpy r d VP_LINE_MAX]> ls)) as (ls' & E & H1 & H2 & H3).
  - by rewrite length_insert.
  - apply Forall_insert; [done|]. exists (strlen d). split; [exact L1|]. split; [unfold ROW; lia|].
    rewrite <- (length_cstr (strncpy r d VP_LINE_MAX)), C1. apply length_cstr.
  - done.
  - lia.
  - exists ls'. rewrite E. replace (S i + length data)%nat with (i + S (length data))%nat in * by lia. split; [done|]. split; [done|]. split; [done|].
    rewrite H3. rewrite (take_S_r _ i (strncpy r d VP_LINE_MAX)) by (apply list_lookup_insert_eq; lia).
    rewrite take_insert_ge by lia. by rewrite map_app, <- app_assoc; cbn [map app]; rewrite C1.
Qed.

Lemma blank_lines_ok : length blank_lines = VP_MAX_LINES /\ Forall row_ok blank_lines.
Proof.
  split; [apply length_replicate|]. apply Forall_replicate. exists 0%nat. split; [reflexivity|]. split; [unfold ROW; lia|reflexivity].
Qed.

(** ** Saving and loading *)

Section roundtrip.
Context `{Hw, AesNi, !HwLaws, !AesNiLaws}.
Context (mem : nat -> nat -> bool) (clock : nat -> Z) (stack : nat -> nat -> list Z).
Context (sql0 sql1 : list Z) (data_of : field_value -> list Z).
Context (Hmem : forall n m, mem n m = true) (Hclock : forall n, is_u64 (clock n)).
Context (Hsql0 : length sql0 = 600%nat) (Hsql1 : length sql1 = 512%nat).

#[local] Opaque query_execute insert_text delete_text select_text.

Lemma save_lines_run cells name pid : cstr cells = name -> literal name -> (length name < DOC_NAME_SIZE)%nat -> forall rows sql q q',
  length sql = 600%nat -> Forall (fun row => literal (cstr row)) rows ->
  run_all mem clock stack (map (insert_text name doc_kind) (map cstr rows)) pid q = Done (q', tt) ->
  save_lines mem clock stack rows cells sql pid q = Done (q', tt).
Proof.
  intros En Hn Hlen. induction rows as [|row rows IH]; intros sql q q' Hs Hrows Hr; [exact Hr|].
  apply Forall_cons in Hrows as [Hl Hrows]. cbn [map run_all save_lines] in *. unfold bind in Hr |- *.
  destruct (query_execute mem clock stack (insert_text name doc_kind (cstr row)) pid q) as [ [q1 r]| | ] eqn:Ex; [|discriminate Hr|discriminate Hr].
  rewrite (escape_literal row Hl).
  assert (cstr (cstr row ++ [0]) = cstr row) as Ed by (apply cstr_app_0, literal_nonzero, Hl).
  pose proof (fill_insert_doc cells (cstr row ++ [0]) name En (cstr row) Ed) as Ef.
  destruct (doc_query_fits name (cstr row) Hlen Hl) as (_ & _ & F).
  destruct (print_to_text sql "INSERT INTO ObjectTable (name, type, data) VALUES ('%s', 'document', '%s')" [cells; cstr row ++ [0] ] q) as (sql' & E & El & Ec);
    [reflexivity|rewrite Ef; apply insert_text_nonzero; [exact Hn|apply doc_kind_literal|exact Hl]|rewrite Ef, Hs; exact F|rewrite Hs; reflexivity|].
  change [txt cells; txt (cstr row ++ [0])] with (map txt [cells; cstr row ++ [0] ]). rewrite E. unfold db_execute. rewrite Ec, Ef, Ex.
  apply IH; [congruence|exact Hrows|exact Hr].
Qed.

Lemma save_doc_run st pid q q' :
  let name := cstr (wtext (vp_name_box st)) in
  let rows := take (vp_line_count (text st)) (vp_lines (text st)) in
  length (vp_doc_name st) = DOC_NAME_SIZE -> literal name -> name <> [] -> (length name < DOC_NAME_SIZE - 1)%nat ->
  Forall (fun row => literal (cstr row)) rows ->
  save_text mem clock stack name doc_kind (map cstr rows) pid q = Done (q', tt) ->
  exists st1, vp_save_doc mem clock stack sql0 pid st q = Done (q', st1) /\
    text st1 = unmodified (text st) /\ cstr (vp_doc_name st1) = name /\ vp_name_box st1 = vp_name_box st.
Proof.
  intros name rows Hd Hn Hne Hlen Hrows Hr. unfold save_text, bind in Hr.
  destruct (query_execute mem clock stack (delete_text name doc_kind) pid q) as [ [q1 r]| | ] eqn:Ex; [|discriminate Hr|discriminate Hr].
  assert (strlen (wtext (vp_name_box st)) = length name) as Esl by (unfold name; by rewrite length_cstr).
  destruct (strncpy_row (vp_doc_name st) (wtext (vp_name_box st)) (DOC_NAME_SIZE - 1) Hd) as [L C]; [rewrite Esl; exact Hlen|].
  set (cells := strncpy (vp_doc_name st) (wtext (vp_name_box st)) (DOC_NAME_SIZE - 1)) in *.
  change (cstr (wtext (vp_name_box st))) with name in C. pose proof (fill_delete_doc cells name C) as Ef.
  assert (length name < DOC_NAME_SIZE)%nat as Hlt by lia.
  destruct (doc_query_fits name [] Hlt) as (F & _ & _); [split; [constructor|unfold MAX_STR_LEN; cbn; lia]|].
  destruct (print_to_text sql0 "DELETE FROM ObjectTable WHERE name = '%s' AND type = 'document'" [cells] q) as (sql' & E & El & Ec);
    [reflexivity|rewrite Ef; apply delete_text_nonzero; [exact Hn|apply doc_kind_literal]|rewrite Ef, Hsql0; exact F|rewrite Hsql0; reflexivity|].
  eexists. split.
  { unfold vp_save_doc, textbox_get_text. rewrite Esl. destruct (Nat.eqb_spec (length name) 0) as [E0|_]; [destruct Hne; apply length_zero_iff_nil; exact E0|].
    fold cells. unfold bind. change [txt cells] with (map txt [cells]). rewrite E. unfold db_execute. rewrite Ec, Ef, Ex.
    fold rows. rewrite (save_lines_run cells name pid C Hn Hlt rows sql' q1 q'); [reflexivity|congruence|exact Hrows|exact Hr]. }
  split; [reflexivity|]. split; [exact C|reflexivity].
Qed.

Lemma load_doc_run name cells st pid q q' r :
  cstr cells = name -> literal name -> (length name < DOC_NAME_SIZE - 1)%nat -> length (vp_doc_name st) = DOC_NAME_SIZE ->
  length (wtext (vp_name_box st)) = WIDGET_TEXT_MAX ->
  query_execute mem clock stack (select_text name doc_kind) pid q = Done (q', Some r) -> error_code r = VOS_OK ->
  (0 < length (rows r) <= VP_MAX_LINES)%nat -> Forall (fun row => (strlen (str_data data_of row 3) < VP_LINE_MAX)%nat) (rows r) ->
  exists st2, vp_load_doc mem clock stack sql1 data_of cells pid st q = Done (q', st2) /\ vp_ok (text st2) /\
    vp_line_count (text st2) = length (rows r) /\ vp_cursor_row (text st2) = 0%nat /\ vp_cursor_col (text st2) = 0%nat /\ vp_modified (text st2) = false /\
    map cstr (take (vp_line_count (text st2)) (vp_lines (text st2))) = map (fun row => cstr (str_data data_of row 3)) (rows r) /\
    cstr (vp_doc_name st2) = name /\ cstr (wtext (vp_name_box st2)) = name.
Proof.
  intros Hc Hn Hlen Hd Hb Ex Ec Hrows Hdata. pose proof (fill_select_doc cells name Hc) as Ef.
  destruct (doc_query_fits name [] ltac:(lia)) as (_ & F & _); [split; [constructor|unfold MAX_STR_LEN; cbn; lia]|].
  destruct (print_to_text sql1 "SELECT * FROM ObjectTable WHERE name = '%s' AND type = 'document'" [cells] q) as (sql' & E & El & Es);
    [reflexivity|rewrite Ef; apply select_text_nonzero; [exact Hn|apply doc_kind_literal]|rewrite Ef, Hsql1; exact F|rewrite Hsql1; reflexivity|].
  destruct blank_lines_ok as [Lb Rb].
  destruct (load_lines_spec (map (fun row => str_data data_of row 3) (rows r)) 0 blank_lines Lb Rb) as (ls & E1 & L1 & R1 & C1);
    [by rewrite Forall_map|rewrite length_map; lia|].
  rewrite length_map in E1, C1. cbn [Nat.add take map app] in E1, C1.
  assert (strlen cells = length name) as Esl by (rewrite <- Hc; by rewrite length_cstr).
  destruct (strncpy_row (vp_doc_name st) cells (DOC_NAME_SIZE - 1) Hd) as [Ln Cn]; [lia|]. rewrite Hc in Cn.
  set (doc := strncpy (vp_doc_name st) cells (DOC_NAME_SIZE - 1)) in *.
  eexists. split.
  { unfold vp_load_doc, bind. change [txt cells] with (map txt [cells]). rewrite E. unfold db_execute. rewrite Es, Ef, Ex, Ec.
    unfold row_count. rewrite (proj2 (Nat.ltb_lt 0 _)) by lia. change (VOS_OK =? 0) with true. cbn [andb]. rewrite E1.
    destruct (Nat.eqb_spec (length (rows r)) 0); [lia|]. fold doc. reflexivity. }
  cbn [text vp_doc_name vp_name_box vp_line_count vp_cursor_row vp_cursor_col vp_modified vp_lines].
  split. { split; cbn [vp_lines vp_line_count vp_cursor_row vp_cursor_col]; [exact L1|exact R1|lia|lia|lia]. }
  do 4 (split; [reflexivity|]). split; [rewrite C1; apply map_map|]. split; [exact Cn|].
  unfold textbox_set_text. cbn [set_text wtext].
  destruct (strlcpy_spec (wtext (vp_name_box st)) doc (WIDGET_TEXT_MAX - 1) Hb) as [_ ->]. rewrite Cn.
  apply take_ge. unfold DOC_NAME_SIZE, WIDGET_TEXT_MAX in *. lia.
Qed.

(** C24: a saved document without apostrophes is loaded as it was.  Saving the
    document of the editor under the name in the box (1 to 62 characters), when
    neither the name nor a line contains an apostrophe, stores its lines, in
    order, as rows of the object table with that name and the type [document];
    the rows with another name or type stay, those of an older document of that
    name go; and it marks the document unmodified.  Loading that name later,
    into any state of the editor, gives the same lines with the cursor at the
    first character, and changes no table.  (A line with an apostrophe is cut
    there.)  The rows of the table are taken to have texts as names and types;
    room in the trees is assumed as for INSERT. *)
Theorem document_save_load (st st' : pad) (cells : list Z) (pid pid' : Z) q t a content log :
  let name := cstr (wtext (vp_name_box st)) in
  let lines := map cstr (take (vp_line_count (text st)) (vp_lines (text st))) in
  objects q t a content log -> is_u64 pid -> vp_ok (text st) ->
  length (vp_doc_name st) = DOC_NAME_SIZE -> length (vp_doc_name st') = DOC_NAME_SIZE -> length (wtext (vp_name_box st')) = WIDGET_TEXT_MAX ->
  literal name -> bytes name -> name <> [] -> (length name < DOC_NAME_SIZE - 1)%nat -> cstr cells = name ->
  Forall (fun line => literal line /\ bytes line) lines ->
  (forall n, (n <= size content)%nat -> room_for n (index a) (global_row_id (q_db q))) ->
  room_after_delete mem clock stack q name doc_kind (length lines) pid -> all_texts content ->
  let others := filter (fun kr => ~ entry name doc_kind kr.2) content in
  exists q1 st1 t1 a1 log1 new,
    vp_save_doc mem clock stack sql0 pid st q = Done (q1, st1) /\ text st1 = unmodified (text st) /\ cstr (vp_doc_name st1) = name /\
    objects q1 t1 a1 (put_rows others new) log1 /\ q_caps q1 = q_caps q /\
    Forall2 (fun kr line => entry name doc_kind kr.2 /\ text_at kr.2 3 = Some line) new lines /\
    exists q2 st2, vp_load_doc mem clock stack sql1 data_of cells pid' st' q1 = Done (q2, st2) /\
      vp_ok (text st2) /\ view (text st2) = Doc [] [] (hd [] lines) (tl lines) /\ vp_modified (text st2) = false /\
      cstr (vp_doc_name st2) = name /\ cstr (wtext (vp_name_box st2)) = name /\
      tables (q_db q2) = tables (q_db q1) /\ q_caps q2 = q_caps q1.
Proof.
  intros name lines Ho Hp Hvp Hd Hd' Hb Hn Hnb Hne Hlen Hc Hls Hroom Hafter Htx others.
  assert (Forall literal lines) as Hlit by (apply (Forall_impl _ _ _ Hls); intros l Hl; exact (proj1 Hl)).
  destruct (save_then_select mem clock stack Hmem Hclock q t a content log pid pid' name doc_kind lines Ho Hp Hn doc_kind_literal)
    as (q1 & t1 & a1 & log1 & new & Es & Ho1 & Hc1 & Hnew & q2 & r & Ex & Ec & _ & Ef & Et & Hc2 & _); [|exact Hroom|exact Hafter|exact Htx|].
  { apply (Forall_impl _ _ _ Hls). intros l [Hl Hlb]. split; [exact Hl|]. apply insert_text_bytes; [exact Hnb|apply bytes_cs|exact Hlb]. }
  destruct (save_doc_run st pid q q1 Hd Hn Hne Hlen) as (st1 & E1 & E2 & E3 & _); [unfold lines in Hlit; rewrite Forall_map in Hlit; exact Hlit|exact Es|].
  pose proof (rows_commands data_of (rows r) lines Hlit Ef) as Ecmd.
  assert (length (rows r) = length lines) as El by (rewrite <- Ecmd; by rewrite length_map).
  assert (0 < length lines <= VP_MAX_LINES)%nat as Hcount.
  { destruct Hvp as [V1 _ V3 V4 _]. unfold lines. rewrite length_map, length_take. lia. }
  destruct (load_doc_run name cells st' pid' q1 q2 r Hc Hn Hlen Hd' Hb Ex Ec) as (st2 & L1 & L2 & L3 & L4 & L5 & L6 & L7 & L8 & L9); [lia| |].
  { assert (Forall (fun d => (length d < VP_LINE_MAX)%nat) (map (fun row => cstr (str_data data_of row 3)) (rows r))) as Hdl.
    { rewrite Ecmd. apply (Forall_impl _ _ _ Hlit). intros l [_ Hl]. exact Hl. }
    rewrite Forall_map in Hdl. apply (Forall_impl _ _ _ Hdl). intros row Hr. by rewrite length_cstr in Hr. }
  exists q1, st1, t1, a1, log1, new. split; [exact E1|]. split; [exact E2|]. split; [exact E3|]. split; [exact Ho1|]. split; [exact Hc1|]. split; [exact Hnew|].
  exists q2, st2. split; [exact L1|]. split; [exact L2|]. split; [|split; [exact L6|]; split; [exact L8|]; split; [exact L9|]; split; [exact Et|exact Hc2] ].
  rewrite Ecmd in L7. unfold view. rewrite L7, L4, L5. cbn [take drop Nat.add]. f_equal.
  destruct (vp_lines (text st2)) as [|row rest] eqn:Ev; [destruct L2 as [V1 _ _ _ _]; rewrite Ev in V1; discriminate V1|].
  unfold line. rewrite Ev. rewrite L3, El in L7. destruct (length lines) as [|n]; [lia|]. cbn [take map] in L7. by rewrite <- L7.
Qed.
End roundtrip.

(** ** Witness *)

Definition demo_cells (s : string) (n : nat) : list Z := cs s ++ replicate (n - length (cs s)) 0.

Definition demo_text : vp :=
  Vp (demo_cells "Dear diary," ROW :: demo_cells "all is well." ROW :: replicate 126 (replicate ROW 0)) 2 1 3 0 true.
Definition demo_box : widget := set_text (demo_cells "diary" WIDGET_TEXT_MAX) 5 5 no_widget.
Definition demo_pad : pad := Pad demo_text (replicate DOC_NAME_SIZE 0) demo_box no_widget false.
Definition fresh_pad : pad := Pad vp_new_doc (replicate DOC_NAME_SIZE 0) no_widget no_widget true.

Lemma demo_text_ok : vp_ok demo_text.
Proof.
  assert (forall s, (length (cs s) <? ROW)%nat = true -> forallb (fun c => negb (c =? 0)) (cs s) = true -> row_ok (demo_cells s ROW)) as Hr.
  { intros s Hl Hz. apply Nat.ltb_lt in Hl. exists (length (cs s)). unfold demo_cells.
    destruct (ROW - length (cs s))%nat as [|k] eqn:Ek; [lia|]. cbn [replicate].
    apply holds_text_intro; [by apply cs_nonzero| |done]. rewrite length_app. cbn [length]. rewrite length_replicate. lia. }
  split; [reflexivity| |unfold VP_MAX_LINES; cbn; lia|cbn; lia|apply Nat.leb_le; reflexivity]. constructor; [by apply Hr|]. constructor; [by apply Hr|].
  apply Forall_replicate. exists 0%nat. split; [reflexivity|]. split; [unfold ROW; lia|reflexivity].
Qed.

Lemma demo_lines : map cstr (take (vp_line_count (text demo_pad)) (vp_lines (text demo_pad))) = [cs "Dear diary,"; cs "all is well."].
Proof. vm_compute. reflexivity. Qed.

Lemma demo_name : cstr (wtext (vp_name_box demo_pad)) = cs "diary".
Proof. vm_compute. reflexivity. Qed.

#[local] Opaque sys_db sys_table query_execute vp_save_doc vp_load_doc.

Lemma document_save_load_witness :
  exists q1 st1 q2 st2, vp_save_doc all_ok noon zero_stack (replicate 600 7) 5 demo_pad sys_state = Done (q1, st1) /\
    vp_load_doc all_ok noon zero_stack (replicate 512 7) (fun _ => []) (cs "diary") 9 fresh_pad q1 = Done (q2, st2) /\
    view (text st2) = Doc [] [] (cs "Dear diary,") [cs "all is well."].
Proof.
  assert (is_u64 5) as H5 by (unfold is_word; lia).
  pose proof (document_save_load all_ok noon zero_stack (replicate 600 7) (replicate 512 7) (fun _ => []) (fun _ _ => eq_refl) noon_u64 eq_refl eq_refl
    demo_pad fresh_pad (cs "diary") 5 9 sys_state (sys_table 3) (sys_table 5) ∅ ∅) as T.
  rewrite demo_lines, demo_name in T. cbv zeta in T.
  destruct (T sys_objects_state H5 demo_text_ok eq_refl eq_refl eq_refl) as (q1 & st1 & t1 & a1 & log1 & new & E & _ & _ & _ & _ & _ & q2 & st2 & L & _ & V & _).
  - apply word_literal. reflexivity.
  - apply bytes_cs.
  - discriminate.
  - apply Nat.ltb_lt. reflexivity.
  - reflexivity.
  - do 2 (apply Forall_cons; split; [split; [apply word_literal; reflexivity|apply bytes_cs]|]). constructor.
  - exact sys_delete_room.
  - apply sys_room_after; [apply word_literal; reflexivity|apply doc_kind_literal|exact H5].
  - intros k rec L. rewrite lookup_empty in L. discriminate L.
  - exists q1, st1, q2, st2. split; [exact E|]. split; [exact L|exact V].
Defined.
