(* ===== verification/DataWindows.v ===== *)
(** * The windows on the database (src/gui/desktop.c)

    The handlers behind the buttons and lists of the query console, the table
    browser, the process manager, the audit log, the capability and object
    managers, the data grid and the object inspector, on the state of the
    database and the widgets they fill.  [val0], [line0], [sum0] and [sql0] are
    the unknown cells of local arrays of 48, 128, 64 and as many characters as
    the code declares; [data_of], [num_of], [word_of] and [flag_of] read the union
    of a field of another type.  A null result that the code dereferences and
    a conversion that meets an argument of another type are [Fault]. *)

From Stdlib Require Import String.
From S2P Require Import Widgets.
From S2P Require Import Prelude CLib Errors Random Aes Record Btree Cap Database Printf Query Client Keyboard Shell.

#[local] Notation "'let*' x := m 'in' k" := (bind m (fun x => k))
  (at level 200, x name, m at level 100, k at level 200, right associativity).

(** [snprintf(buf, sizeof(buf), ...)] into an array of the given cells; a
    conversion of the wrong type has no meaning. *)
Definition format (buf : list Z) (fmt : string) (args : list varg) : M (list Z) := print_to buf fmt args.

(** [strncat(line, s, sizeof(line) - strlen(line) - 1)] *)
Definition append (line s : list Z) : list Z := strncat line s (length line - strlen line - 1).

Definition blank_line : list Z := replicate LISTVIEW_ITEM_MAX 0.

Section windows.
Context `{Hw, AesNi}.
Context (mem : nat -> nat -> bool) (clock : nat -> Z) (stack : nat -> nat -> list Z).
Context (val0 line0 sql0 sum0 : list Z).
Context (data_of : field_value -> list Z) (num_of word_of : field_value -> Z) (flag_of : field_value -> bool).

#[local] Abbreviation execute := (db_execute mem clock stack).

(** ** Rows as lines *)

(** One value, in the array [val]. *)
Definition value_text (val : list Z) (f : field_value) : M (list Z) :=
  match f with
  | FU64 v => format val "%llu" [AInt v]
  | FI64 v => format val "%lld" [AInt (u64 v)]
  | FU32 v => format val "%u" [AInt v]
  | FBool b => format val "%s" [txt (cs (if b then "true" else "false"))]
  | FStr data _ => format val "%.40s" [txt data]
  | FU8 _ | FBlob _ _ => format val "..." []
  end.

Fixpoint row_loop (fs : list field_value) (first : bool) (val line : list Z) : M (list Z) :=
  match fs with
  | [] => ret line
  | f :: fs =>
      let* val := value_text val f in
      let line := if first then line else append line (cs " | ") in
      row_loop fs false val (append line val)
  end.

(** At most six fields. *)
Definition row_line (row : record) : M (list Z) :=
  row_loop (map (field row) (seq 0 (Z.to_nat (field_count row) `min` 6))) true val0 blank_line.

Fixpoint add_rows (l : list record) (lv : widget) : M widget :=
  match l with
  | [] => ret lv
  | row :: l => let* line := row_line row in add_rows l (listview_add_item line lv)
  end.

Definition add_summary (fmt : string) (n : Z) (lv : widget) : M widget :=
  let* summary := format sum0 fmt [AInt n] in ret (listview_add_item summary lv).

Definition populate_listview_from_result (r : result) (lv : widget) : M widget :=
  let lv := listview_clear lv in
  match r with
  | None => fault
  | Some r =>
      if negb (error_code r =? 0) then ret (listview_add_item (error_msg r) lv)
      else let* lv := add_rows (rows r) lv in add_summary "-- %u row(s) --" (Z.of_nat (row_count r)) lv
  end.

Definition column_type_name (t : column_type) : string :=
  match t with
  | COL_U64 => "U64" | COL_I64 => "I64" | COL_STR => "STR" | COL_BLOB => "BLOB" | COL_BOOL => "BOOL" | COL_U32 => "U32" | COL_U8 => "U8"
  end.

(** ** Query console *)

Definition qc_templates : list string := [
  "SHOW TABLES"; "SELECT * FROM SystemTable"; "SELECT * FROM ProcessTable"; "SELECT * FROM CapabilityTable";
  "DESCRIBE SystemTable"; "DESCRIBE ProcessTable"]%string.

(** The text box and the index of the next template. *)
Definition qc_template_btn (box : widget) (idx : nat) : widget * nat :=
  let idx := if (idx <? length qc_templates)%nat then idx else 0%nat in
  let box := textbox_set_text (cs (nth idx qc_templates ""%string)) box in
  let idx := S idx in
  (box, if (idx <? length qc_templates)%nat then idx else 0%nat).

Fixpoint describe_lines (cols : list column_def) (line : list Z) (lv : widget) : M widget :=
  match cols with
  | [] => ret lv
  | c :: cols =>
      let* line := format line "%-20s %s%s"
        [txt (col_name c); txt (cs (column_type_name (col_type c))); txt (cs (if primary_key c then " PK" else ""))] in
      describe_lines cols line (listview_add_item line lv)
  end.

Definition qc_execute_btn (box lv : widget) (pid : Z) : M widget :=
  let sql := textbox_get_text box in
  if (strlen sql =? 0)%nat then ret lv
  else
    let* r := execute (cstr sql) pid in
    let lv := listview_clear lv in
    match r with
    | None => fault
    | Some r =>
        if negb (error_code r =? 0) then ret (listview_add_item (error_msg r) lv)
        else
          let describe := match res_schema r with Some s => (row_count r =? 0)%nat && (0 <? length (columns s))%nat | None => false end in
          match res_schema r with
          | Some s => if describe then describe_lines (columns s) line0 lv
                      else let* lv := add_rows (rows r) lv in add_summary "-- %u row(s) --" (Z.of_nat (row_count r)) lv
          | None => let* lv := add_rows (rows r) lv in add_summary "-- %u row(s) --" (Z.of_nat (row_count r)) lv
          end
    end.

(** ** Table browser *)

Fixpoint column_lines (cols : list column_def) (line : list Z) (lv : widget) : M widget :=
  match cols with
  | [] => ret lv
  | c :: cols =>
      let* line := format line "  %-20s %-6s%s%s"
        [txt (col_name c); txt (cs (column_type_name (col_type c))); txt (cs (if primary_key c then " PK" else "")); txt (cs (if not_null c then " NOT NULL" else ""))] in
      column_lines cols line (listview_add_item line lv)
  end.

(** The schema of the row [index]. *)
Definition schema_at (index : Z) : M (option table_schema) :=
  let* st := get_db in ret (if index <? 0 then None else db_get_schema_by_id st (Z.to_nat index)).

Definition tb_on_table_select (index : Z) (detail : widget) : M widget :=
  let* s := schema_at index in
  match s with
  | None => ret detail
  | Some s =>
      let lv := listview_clear detail in
      let* line := format line0 "Table: %s (%u columns)%s"
        [txt (sch_name s); AInt (Z.of_nat (length (columns s))); txt (cs (if encrypted s then " [ENCRYPTED]" else ""))] in
      let lv := listview_add_item (cs "---") (listview_add_item line lv) in
      column_lines (columns s) line lv
  end.

(** The names of the tables. *)
Definition table_names : M (list (list Z)) := let* st := get_db in ret (map (fun t => sch_name (schema t)) (tables st)).

Definition add_items (l : list (list Z)) (lv : widget) : widget := foldl (fun lv s => listview_add_item s lv) lv l.

Definition tb_refresh_btn (lv : widget) : M widget := let* l := table_names in ret (add_items l (listview_clear lv)).

Definition tb_view_all_btn (tlist detail : widget) (pid : Z) : M widget :=
  let* s := schema_at (listview_get_selected tlist) in
  match s with
  | None => ret detail
  | Some s =>
      let* sql := format sql0 "SELECT * FROM %s" [txt (sch_name s)] in
      let* r := execute (cstr sql) pid in
      populate_listview_from_result r detail
  end.

Definition is_number (val : list Z) : bool :=
  let v := if chr val =? 45 then next val else val in
  negb (chr v =? 0) && forallb isdigit (cstr v).

Definition tb_search_btn_cb (tlist box detail : widget) (pid : Z) : M widget :=
  let* s := schema_at (listview_get_selected tlist) in
  match s with
  | None => ret detail
  | Some s =>
      let query := cstr (textbox_get_text box) in
      if (length query =? 0)%nat then ret detail
      else
        match strchr query 61 with
        | None => ret (listview_add_item (cs "Search format: column=value") (listview_clear detail))
        | Some eq =>
            let col := take (eq `min` 63) query in
            let val := take 127 (drop (S eq) query) in
            let* sql := if is_number val then format sql0 "SELECT * FROM %s WHERE %s = %s" [txt (sch_name s); txt col; txt val]
                        else format sql0 "SELECT * FROM %s WHERE %s = '%s'" [txt (sch_name s); txt col; txt val] in
            let* r := execute (cstr sql) pid in
            populate_listview_from_result r detail
        end
  end.

(** ** Process manager *)

Definition pm_refresh (lv : widget) (pid : Z) : M widget :=
  let* r := execute (cs "SELECT * FROM ProcessTable") pid in populate_listview_from_result r lv.

(** The process chosen by the selected row; [None]: nothing is to be done. *)
Definition pm_target (lv : widget) (pid : Z) : M (option Z) :=
  let sel := listview_get_selected lv in
  if sel <? 0 then ret None
  else
    let* r := execute (cs "SELECT * FROM ProcessTable") pid in
    match r with
    | None => ret None
    | Some r =>
        match rows r !! Z.to_nat sel with
        | None => ret None
        | Some row => let t := u64_data num_of row 0 in ret (if t =? pid then None else Some t)
        end
    end.

(** ** Audit log *)

Definition event_text (line : list Z) (row : record) : M (list Z) :=
  let secs := u64_data num_of row 1 / 1000 in
  format line "[%02llu:%02llu] %-10s PID:%llu %s"
    [AInt (secs / 60); AInt (secs mod 60); txt (str_data data_of row 3); AInt (u64_data num_of row 2); txt (str_data data_of row 5)].

(** A row passes when its action or its result starts with the filter. *)
Definition passes (filter : list Z) (a b : list Z) : bool :=
  let n := strlen filter in
  (n =? 0)%nat || (strncasecmp a filter n =? 0) || (strncasecmp b filter n =? 0).

Fixpoint event_lines (l : list record) (filter : list Z) (lv : widget) : M widget :=
  match l with
  | [] => ret lv
  | row :: l =>
      if passes filter (str_data data_of row 3) (str_data data_of row 5)
      then let* line := event_text line0 row in event_lines l filter (listview_add_item line lv)
      else event_lines l filter lv
  end.

Definition al_refresh (box lv : widget) (pid : Z) : M widget :=
  let* r := execute (cs "SELECT * FROM AuditTable") pid in
  let lv := listview_clear lv in
  match r with
  | None => ret (listview_add_item (cs "No audit events.") lv)
  | Some r =>
      if (row_count r =? 0)%nat then ret (listview_add_item (cs "No audit events.") lv)
      else
        let* lv := event_lines (rows r) (textbox_get_text box) lv in
        add_summary "-- %d entries --" (Z.of_nat (lv_count lv)) lv
  end.

(** ** Capability manager *)

Definition decode_rights (rights : Z) (buf : list Z) : list Z :=
  let add bit s buf := if Z.land rights bit =? 0 then buf else append buf (cs s) in
  let buf := add 0x20 "V"%string (add 0x10 "G"%string (add 0x08 "D"%string (add 0x04 "X"%string (add 0x02 "W"%string
    (add 0x01 "R"%string (<[0%nat := 0]> buf)))))) in
  if chr buf =? 0 then strncpy buf (cs "NONE") (length buf - 1) else buf.

Definition word_data (row : record) (i : nat) : Z := match field row i with FU32 v => v | f => word_of f end.
Definition flag_data (row : record) (i : nat) : bool := match field row i with FBool b => b | f => flag_of f end.

Fixpoint cap_lines (l : list record) (lv : widget) : M widget :=
  match l with
  | [] => ret lv
  | row :: l =>
      let rights_str := decode_rights (word_data row 3) (replicate 16 0) in
      let* line := format line0 "  %-8llu %-7llu %-6llu %-7s %s"
        [AInt (u64_data num_of row 0); AInt (u64_data num_of row 1); AInt (u64_data num_of row 2); txt rights_str;
         txt (cs (if flag_data row 5 then "REVOKED" else "ACTIVE"))] in
      cap_lines l (listview_add_item line lv)
  end.

Definition cm_refresh (lv : widget) (pid : Z) : M widget :=
  let* r := execute (cs "SELECT * FROM CapabilityTable") pid in
  let lv := listview_clear lv in
  match r with
  | None => ret (listview_add_item (cs "No capabilities found.") lv)
  | Some r =>
      if (row_count r =? 0)%nat then ret (listview_add_item (cs "No capabilities found.") lv)
      else
        let lv := listview_add_item (cs "  CAP_ID  OBJ_ID  PID    RIGHTS  STATUS") lv in
        let* lv := cap_lines (rows r) lv in
        add_summary "-- %u capability(s) --" (Z.of_nat (row_count r)) lv
  end.

(** The row behind the selected item, below a header. *)
Definition selected_row (query : string) (lv : widget) (pid : Z) : M (option record) :=
  let sel := listview_get_selected lv in
  if sel <=? 0 then ret None
  else
    let* r := execute (cs query) pid in
    match r with
    | None => ret None
    | Some r => ret (rows r !! Z.to_nat (sel - 1))
    end.

Definition cm_revoke_btn (lv : widget) (pid : Z) : M widget :=
  let* row := selected_row "SELECT * FROM CapabilityTable" lv pid in
  match row with
  | None => ret lv
  | Some row =>
      let* sql := format sql0 "REVOKE %llu" [AInt (u64_data num_of row 0)] in
      let* _ := execute (cstr sql) pid in
      cm_refresh lv pid
  end.

(** ** Object manager *)

(** [char preview[32]] *)
Definition preview_of (data : list Z) : list Z :=
  let preview := <[28%nat := 0]> (strncpy (replicate 32 0) data 28) in
  if (28 <? strlen data)%nat then append preview (cs "...") else preview.

Fixpoint object_lines (l : list record) (line : list Z) (lv : widget) : M widget :=
  match l with
  | [] => ret lv
  | row :: l =>
      let* line := format line "  %-10s %-16s %s"
        [txt (str_data data_of row 2); txt (str_data data_of row 1); txt (preview_of (str_data data_of row 3))] in
      object_lines l line (listview_add_item line lv)
  end.

Definition om_refresh (lv : widget) (pid : Z) : M widget :=
  let* r := execute (cs "SELECT * FROM ObjectTable") pid in
  let lv := listview_clear lv in
  match r with
  | None => ret (listview_add_item (cs "No objects found.") lv)
  | Some r =>
      if (row_count r =? 0)%nat then ret (listview_add_item (cs "No objects found.") lv)
      else
        let lv := listview_add_item (cs "  TYPE       NAME             DATA") lv in
        let* lv := object_lines (rows r) line0 lv in
        add_summary "-- %u object(s) --" (Z.of_nat (row_count r)) lv
  end.

Definition om_delete_btn (lv : widget) (pid : Z) : M widget :=
  let* row := selected_row "SELECT * FROM ObjectTable" lv pid in
  match row with
  | None => ret lv
  | Some row =>
      let* sql := format sql0 "DELETE FROM ObjectTable WHERE name = '%s'" [txt (str_data data_of row 1)] in
      let* _ := execute (cstr sql) pid in
      om_refresh lv pid
  end.

(** ** Object inspector *)

Record inspector := Inspector {
  oi_obj_name : list Z;
  oi_obj_type : list Z;
  oi_obj_data : list Z;
  oi_obj_id : Z;
  oi_obj_owner : Z;
  oi_obj_created : Z;
  oi_hex_scroll : Z;
  oi_has_selection : bool
}.

Fixpoint item_lines (l : list record) (filter : list Z) (lv : widget) : M widget :=
  match l with
  | [] => ret lv
  | row :: l =>
      if passes filter (str_data data_of row 1) (str_data data_of row 2)
      then let* item := format line0 "[%s] %s" [txt (str_data data_of row 2); txt (str_data data_of row 1)] in
           item_lines l filter (listview_add_item item lv)
      else item_lines l filter lv
  end.

Definition oi_refresh (box lv : widget) (pid : Z) : M widget :=
  let* r := execute (cs "SELECT * FROM ObjectTable") pid in
  let lv := listview_clear lv in
  match r with
  | None => ret lv
  | Some r => item_lines (rows r) (textbox_get_text box) lv
  end.

(** A shown object: the first row of its name. *)
Definition shown_object (st : inspector) (row : record) : inspector :=
  Inspector (strncpy (oi_obj_name st) (str_data data_of row 1) MAX_STR_LEN) (strncpy (oi_obj_type st) (str_data data_of row 2) MAX_STR_LEN)
    (strncpy (oi_obj_data st) (str_data data_of row 3) MAX_STR_LEN) (u64_data num_of row 0) (u64_data num_of row 4) (u64_data num_of row 6) 0 true.

Definition oi_on_select (lv : widget) (index : Z) (pid : Z) (st : inspector) : M inspector :=
  if (index <? 0) || (Z.of_nat (lv_count lv) <=? index) then ret st
  else
    match lv_items lv with
    | None => fault
    | Some items =>
        let item := nth (Z.to_nat index) items [] in
        match strchr item 93 with
        | None => ret st
        | Some bracket =>
            let* sql := format sql0 "SELECT * FROM ObjectTable WHERE name = '%s'" [txt (drop (bracket + 2) item)] in
            let* r := execute (cstr sql) pid in
            match r with
            | None => ret st
            | Some r => match rows r with row :: _ => ret (shown_object st row) | [] => ret st end
            end
        end
    end.
End windows.

(** The keys of the hex dump. *)
Definition with_scroll (st : inspector) (s : Z) : inspector :=
  Inspector (oi_obj_name st) (oi_obj_type st) (oi_obj_data st) (oi_obj_id st) (oi_obj_owner st) (oi_obj_created st) s (oi_has_selection st).

Definition oi_key (client_h key : Z) (st : inspector) : option inspector :=
  let total_rows := (Z.of_nat (strlen (oi_obj_data st)) + 7) ÷ 8 in
  let visible_rows := (client_h - 200) ÷ 16 in
  let clamp s := if s <? 0 then 0 else s in
  if (key =? KEY_DOWN) || (key =? KEY_PGDN) then
    let s := oi_hex_scroll st + (if key =? KEY_PGDN then visible_rows else 1) in
    let s := if total_rows - visible_rows <? s then total_rows - visible_rows else s in
    Some (with_scroll st (clamp s))
  else if (key =? KEY_UP) || (key =? KEY_PGUP) then
    Some (with_scroll st (clamp (oi_hex_scroll st - (if key =? KEY_PGUP then visible_rows else 1))))
  else None.

(** ** Data grid *)

Definition DG_MAX_COLS : nat := 8.
Definition DG_MAX_ROWS : nat := 128.
Definition DG_CELL_MAX : nat := 32.
Definition DG_TABLE_LIST_W : Z := 140.

Record grid := Grid {
  dg_cells : list (list (list Z));
  dg_cols : list (list Z * column_type * Z);    (* name, type and width in pixels *)
  dg_row_count : Z;
  dg_col_count : Z;
  dg_scroll_row : Z;
  dg_sel_row : Z;
  dg_table_name : list Z;
  dg_status : list Z
}.

Definition blank_cell : list Z := replicate DG_CELL_MAX 0.

(** One cell of the cleared table. *)
Definition grid_cell (f : field_value) : list Z :=
  match f with
  | FU64 v => print_buf blank_cell "%llu" [AInt v]
  | FI64 v => print_buf blank_cell "%lld" [AInt (u64 v)]
  | FU32 v => print_buf blank_cell "%u" [AInt v]
  | FStr data _ => strncpy blank_cell data (DG_CELL_MAX - 1)
  | FBool b => strcpy blank_cell (cs (if b then "true" else "false") ++ [0])
  | FU8 _ | FBlob _ _ => strcpy blank_cell (cs "..." ++ [0])
  end.

Definition grid_column (c : column_def) : list Z * column_type * Z :=
  let name := strncpy (replicate MAX_COLUMN_NAME 0) (col_name c) (MAX_COLUMN_NAME - 1) in
  let n := Z.of_nat (strlen name) in
  (name, col_type c, (if 6 <? n then n else 6) * 8 + 12).

Section grid.
Context `{Hw, AesNi}.
Context (mem : nat -> nat -> bool) (clock : nat -> Z) (stack : nat -> nat -> list Z).
Context (sql0 status0 : list Z).

Definition dg_load_table (table_id : Z) (pid : Z) (g : grid) : M grid :=
  let* s := schema_at table_id in
  match s with
  | None => ret g
  | Some s =>
      let name := strncpy (dg_table_name g) (sch_name s) (MAX_TABLE_NAME - 1) in
      let ncols := (length (columns s) `min` DG_MAX_COLS)%nat in
      let* sql := format sql0 "SELECT * FROM %s" [txt (sch_name s)] in
      let* r := db_execute mem clock stack (cstr sql) pid in
      let cells := match r with
        | Some r => if error_code r =? 0 then map (fun row => map (fun c => grid_cell (field row c)) (seq 0 ncols)) (take DG_MAX_ROWS (rows r)) else []
        | None => []
        end in
      let* status := format status0 "%s | %d rows, %d cols" [txt name; AInt (Z.of_nat (length cells)); AInt (Z.of_nat ncols)] in
      ret (Grid cells (map grid_column (take ncols (columns s))) (Z.of_nat (length cells)) (Z.of_nat ncols) 0 (-1) name
             (strncpy (dg_status g) status (WIDGET_TEXT_MAX - 1)))
  end.

Definition dg_table_selected (index : Z) (pid : Z) (g : grid) : M grid :=
  let* st := get_db in
  if (0 <=? index) && (index <? Z.of_nat (db_get_table_count st)) then dg_load_table index pid g else ret g.

(** The first table of the name shown. *)
Definition dg_refresh (pid : Z) (g : grid) : M grid :=
  let* l := table_names in
  match list_find (fun n => strcmp n (dg_table_name g) = 0) l with
  | Some (i, _) => dg_load_table (Z.of_nat i) pid g
  | None => ret g
  end.
End grid.

Definition with_view (g : grid) (scroll sel : Z) : grid :=
  Grid (dg_cells g) (dg_cols g) (dg_row_count g) (dg_col_count g) scroll sel (dg_table_name g) (dg_status g).

Definition dg_visible (client_h : Z) : Z := (client_h - 28 - 20 - 1 - 24) ÷ 20.

Definition dg_key (client_h key : Z) (g : grid) : grid :=
  let visible := dg_visible client_h in
  let sel := dg_sel_row g in
  let scroll := dg_scroll_row g in
  if key =? KEY_UP then
    let sel := if 0 <? sel then sel - 1 else sel in
    with_view g (if sel <? scroll then sel else scroll) sel
  else if key =? KEY_DOWN then
    let sel := if sel <? dg_row_count g - 1 then sel + 1 else sel in
    with_view g (if scroll + visible <=? sel then sel - visible + 1 else scroll) sel
  else if key =? KEY_PGUP then
    let sel := if sel - visible <? 0 then 0 else sel - visible in
    with_view g sel sel
  else if key =? KEY_PGDN then
    let sel := if dg_row_count g <=? sel + visible then dg_row_count g - 1 else sel + visible in
    with_view g (if scroll + visible <=? sel then sel - visible + 1 else scroll) sel
  else g.

(** A click at row [mouse_y] of the grid; [None]: it is not in the rows. *)
Definition dg_click (mouse_x mouse_y : Z) (g : grid) : option grid :=
  if (DG_TABLE_LIST_W <? mouse_x) && (49 <=? mouse_y) then
    let row := (mouse_y - 49) ÷ 20 + dg_scroll_row g in
    Some (if (0 <=? row) && (row <? dg_row_count g) then with_view g (dg_scroll_row g) row else g)
  else None.

(** The rows that [dg_paint] reads, as indices into the table. *)
Definition dg_painted (client_h : Z) (g : grid) : list Z :=
  let visible := (client_h - 49 - 24) ÷ 20 in
  List.filter (fun i => i <? dg_row_count g) (map (fun r => Z.of_nat r + dg_scroll_row g) (seq 0 (Z.to_nat visible))).
