(* ===== verification/DataWindowsSpec.v ===== *)
(** * The delete button of the object manager, and what the windows show

    The button removes, through a SELECT and a DELETE, the objects that have
    the name of the chosen one and no others; examples of what the windows
    display otherwise than meant close the file. *)

From Stdlib Require Import String Sorting.Sorted.
From stdpp Require Import gmap.
From S2P Require Import Widgets.
From S2P Require Import Prelude CLib Errors Random Sha256 Hmac Aes Record Btree BtreeSpec Cap CapSpec Database DatabaseSpec Printf Query QuerySpec QueryWrites Client Friendly FriendlySpec Stored Keyboard DataWindows.

Definition all_objects : list Z := cs "SELECT * FROM ObjectTable".
Definition named_where (name : list Z) : list Z := cs " name = '" ++ name ++ [39].
Definition delete_named (name : list Z) : list Z := cs "DELETE FROM " ++ cs "ObjectTable" ++ cs " WHERE" ++ named_where name.

Section parsing.
Context (stack : nat -> nat -> list Z).

Lemma all_objects_parse : select_query stack all_objects = Some (object_table, []).
Proof. vm_compute. reflexivity. Qed.

Definition named_conds (name : list Z) : list where_cond := [str_cond stack 0 (cs "name") name].

Lemma delete_named_parse name : literal name -> delete_query stack (delete_named name) = Some (object_table, named_conds name).
Proof.
  intros Hn. destruct (delete_where stack (cs "ObjectTable") (named_where name)) as (p & T & R & E); [by vm_compute|by lit|].
  unfold delete_named. rewrite E. do 2 f_equal. unfold parse_where. rewrite (is_tok_eq p _ _ T), bool_decide_true by done. cbn [negb].
  destruct (token_name p [32] (cs "name") (cs " = '" ++ name ++ [39])) as (T1 & V1 & R1); [by vm_compute|by rewrite R|by right|done|].
  change MAX_WHERE_CONDS with (S 7).
  destruct (where_step stack 7 0 (next_token p) (cs "name") name [] T1 V1 R1 Hn) as (p1 & R2 & ->).
  by rewrite (is_tok_eq _ _ _ (token_end p1 [] R2 eq_refl)), bool_decide_false.
Qed.

(** Rows with a string in the column match when it is the name. *)
Lemma named_matches row name d n : literal name -> field row 1 = FStr d n ->
  record_matches row object_schema (named_conds name) = bool_decide (cstr d = name).
Proof.
  intros Hn Hf. unfold named_conds, str_cond. cbn [record_matches cond_column cond_op cond_value].
  destruct (short_word_literal "name") as [Hc1 Hc2]; [reflexivity|]. rewrite column_cells_find by done.
  change (find_column_index object_schema (cs "name")) with (Some 1%nat). cbv iota. rewrite Hf. cbn [match_field compare_with].
  destruct (strncpy_short (stack A_COND_STR 0) name MAX_STR_LEN (literal_nonzero _ Hn) (proj2 Hn)) as [t ->].
  assert (cstr (name ++ 0 :: t) = name) as Ec by (by apply cstr_app_0, literal_nonzero).
  destruct (Z.eqb_spec (strcmp d (name ++ 0 :: t)) 0) as [E|E]; cbn [negb].
  - apply strcmp_0 in E. rewrite Ec in E. by rewrite bool_decide_true.
  - rewrite bool_decide_false; [done|]. intros Ed. apply E, strcmp_0. by rewrite Ec.
Qed.
End parsing.

(** ** The display always succeeds *)

Lemma format_done buf fmt args q : is_Some (kvprintf_chars (cs fmt) args) -> exists b, format buf fmt args q = Done (q, b).
Proof.
  intros [out E]. unfold format, print_to, snprintf, vsnprintf, kvprintf. rewrite E. eexists. reflexivity.
Qed.

Lemma object_format a b c : is_Some (kvprintf_chars (cs "  %-10s %-16s %s") [txt a; txt b; txt c]).
Proof. vm_compute. by eexists. Qed.

Section display.
Context `{Hw, AesNi}.
Context (mem : nat -> nat -> bool) (clock : nat -> Z) (stack : nat -> nat -> list Z).
Context (sql0 sum0 line0 : list Z) (data_of : field_value -> list Z).

Lemma object_lines_done l q : forall line lv, exists lv', object_lines data_of l line lv q = Done (q, lv').
Proof.
  induction l as [|row l IH]; intros line lv; [by exists lv|]. cbn [object_lines]. unfold bind.
  destruct (format_done line "  %-10s %-16s %s" [txt (str_data data_of row 2); txt (str_data data_of row 1); txt (preview_of (str_data data_of row 3))] q)
    as [b ->]; [apply object_format|apply IH].
Qed.

Lemma add_summary_done n lv q : exists lv', add_summary sum0 "-- %u object(s) --" n lv q = Done (q, lv').
Proof.
  unfold add_summary, bind. destruct (format_done sum0 "-- %u object(s) --" [AInt n] q) as [b ->]; [by eexists|]. by eexists.
Qed.

Lemma om_refresh_done lv pid q q' r : query_execute mem clock stack all_objects pid q = Done (q', r) ->
  exists lv', om_refresh mem clock stack line0 sum0 data_of lv pid q = Done (q', lv').
Proof.
  intros Ex. unfold om_refresh, bind, db_execute. change (cs "SELECT * FROM ObjectTable") with all_objects. rewrite Ex.
  destruct r as [r|]; [|by eexists]. destruct (row_count r =? 0)%nat; [by eexists|].
  destruct (object_lines_done (rows r) q' line0 (listview_add_item (cs "  TYPE       NAME             DATA") (listview_clear lv))) as [lv1 ->].
  destruct (add_summary_done (Z.of_nat (row_count r)) lv1 q') as [lv2 ->]. by eexists.
Qed.
End display.

(** ** Deleting *)

Lemma fill_delete_named d : fill (cs "DELETE FROM ObjectTable WHERE name = '%s'") [d] = delete_named (cstr d).
Proof. unfold delete_named, named_where. lit. reflexivity. Qed.

Lemma delete_named_nonzero name : literal name -> Forall (fun c => c <> 0) (delete_named name).
Proof.
  intros Hn. unfold delete_named, named_where. repeat (apply Forall_app; split); try (by apply literal_nonzero); try (by apply cs_nonzero).
  by repeat constructor.
Qed.

Lemma delete_named_fits name : (length name <= 200)%nat -> (length (delete_named name) < 256)%nat.
Proof.
  intros Hl. unfold delete_named, named_where. rewrite !length_app. cbn [length].
  assert (length (cs "DELETE FROM ") = 12 /\ length (cs "ObjectTable") = 11 /\ length (cs " WHERE") = 6 /\ length (cs " name = '") = 9)%nat
    as (-> & -> & -> & ->) by (split_and!; reflexivity). lia.
Qed.

Lemma objects_same `{Hw, AesNi} q q' t a content log : objects q t a content log -> tables (q_db q') = tables (q_db q) -> db_ok (q_db q') ->
  objects q' t a content log.
Proof.
  intros [J1 J2 J3 J4 J5 J6 J7] E Hok. constructor; rewrite ?E; try assumption. rewrite <- J2. unfold db_get_schema. by rewrite E.
Qed.

Lemma sorted_content_unique (l l' : list (Z * record)) content :
  StronglySorted Z.lt l.*1 -> StronglySorted Z.lt l'.*1 -> l ≡ₚ map_to_list content -> l' ≡ₚ map_to_list content -> l = l'.
Proof. intros S1 S2 P1 P2. apply sorted_fst_unique; [exact S1|exact S2|]. intros kr. by rewrite P1, P2. Qed.

Lemma matching_all sch l : matching sch [] l = l.
Proof. unfold matching. induction l as [|r l IH]; [reflexivity|]. cbn [List.filter record_matches]. by f_equal. Qed.

Section deleting.
Context `{Hw, AesNi, !HwLaws, !AesNiLaws}.
Context (mem : nat -> nat -> bool) (clock : nat -> Z) (stack : nat -> nat -> list Z).
Context (sql0 sum0 line0 : list Z) (data_of : field_value -> list Z).
Context (Hmem : forall n m, mem n m = true) (Hclock : forall n, is_u64 (clock n)).
Context (Hsql0 : length sql0 = 256%nat).

#[local] Opaque query_execute delete_named all_objects object_schema global_row_id om_refresh.

Lemma select_objects q t a content log pid : objects q t a content log ->
  exists q' r l, query_execute mem clock stack all_objects pid q = Done (q', Some r) /\ rows r = l.*2 /\
    StronglySorted Z.lt l.*1 /\ l ≡ₚ map_to_list content /\
    objects q' t a content log /\ q_caps q' = q_caps q /\ global_row_id (q_db q') = global_row_id (q_db q).
Proof.
  intros Ho. pose proof Ho as [J1 J2 J3 J4 J5 J6 J7].
  destruct (select_statement mem clock stack all_objects pid q object_table [] 3 t content Hmem J1 J3 ltac:(by rewrite J4) (proj1 J6)
    (all_objects_parse stack) J2) as (q' & r & l & Ex & _ & _ & Er & Sl & Pl & Et & Ec & Hok & Hg).
  rewrite matching_all in Er. exists q', r, l. split; [exact Ex|]. split; [exact Er|]. split; [exact Sl|]. split; [exact Pl|].
  split; [by apply (objects_same q)|]. split; [exact Ec|exact Hg].
Qed.

Lemma delete_objects q t a content log pid name : objects q t a content log -> is_u64 pid -> literal name ->
  (forall n, (n <= size content)%nat -> room_for n (index a) (global_row_id (q_db q))) ->
  exists q' r t' a' log', query_execute mem clock stack (delete_named name) pid q = Done (q', r) /\
    objects q' t' a' (filter (fun kr => record_matches kr.2 object_schema (named_conds stack name) = false) content) log' /\ q_caps q' = q_caps q.
Proof.
  intros Ho Hp Hn Hroom. pose proof Ho as [J1 J2 J3 J4 J5 J6 J7].
  assert (sch_table_id (schema t) = Z.of_nat 3) as Hid by (by rewrite J4).
  destruct (delete_statement mem clock stack Hmem Hclock (delete_named name) pid q object_table (named_conds stack name) 3 t content a log
    Hp J1 (delete_named_parse stack name Hn) J2 J3 Hid J5 ltac:(discriminate) J6 J7 Hroom)
    as (q0 & r0 & t0 & a0 & l0 & times0 & Ex & _ & Et & Es & Eas & Ht0 & _ & _ & _ & Ha0 & Hok0 & Hcap0 & _).
  eexists q0, (Some r0), t0, a0, _. split; [exact Ex|]. split; [|exact Hcap0].
  eapply objects_update; [exact Ho|exact Et|exact Es|exact Eas|exact Hok0| |exact Ha0]. by rewrite J4 in Ht0.
Qed.

(** The delete button of the object manager.  With the item below the
    header that shows the [i]-th object chosen, in the order of the keys, whose
    name is a text without apostrophes of at most 200 characters, the button
    returns, and removes that object and with it exactly the objects whose
    name is the same; the other objects stay as they are, and so do the
    capabilities.  Room for the entries in the log is assumed as for DELETE. *)
Theorem om_delete_correct (lv : widget) (pid : Z) q t a content log l (i : nat) k row d n :
  objects q t a content log -> is_u64 pid ->
  StronglySorted Z.lt l.*1 -> l ≡ₚ map_to_list content -> l !! i = Some (k, row) ->
  listview_get_selected lv = Z.of_nat (S i) ->
  field row 1 = FStr d n -> literal (cstr d) -> (length (cstr d) <= 200)%nat ->
  (forall n, (n <= size content)%nat -> room_for n (index a) (global_row_id (q_db q))) ->
  exists q' lv' t' a' content' log',
    om_delete_btn mem clock stack line0 sql0 sum0 data_of lv pid q = Done (q', lv') /\
    objects q' t' a' content' log' /\ q_caps q' = q_caps q /\
    content' !! k = None /\ content' ⊆ content /\
    forall k' row' d' n', content !! k' = Some row' -> field row' 1 = FStr d' n' ->
      content' !! k' = (if bool_decide (cstr d' = cstr d) then None else Some row').
Proof.
  intros Ho Hp Sl Pl Hi Hsel Hf Hn Hlen Hroom.
  destruct (select_objects q t a content log pid Ho) as (q1 & r & l1 & Ex1 & Er & Sl1 & Pl1 & Ho1 & Ec1 & Hg1).
  assert (l1 = l) as -> by (by apply (sorted_content_unique _ _ content)).
  rewrite <- Hg1 in Hroom.
  destruct (delete_objects q1 t a content log pid (cstr d) Ho1 Hp Hn Hroom) as (q2 & r2 & t2 & a2 & log2 & Ex2 & Ho2 & Ec2).
  destruct (select_objects q2 t2 a2 _ log2 pid Ho2) as (q3 & r3 & l3 & Ex3 & _ & _ & _ & Ho3 & Ec3 & _).
  destruct (om_refresh_done mem clock stack sum0 line0 data_of lv pid q2 q3 (Some r3) Ex3) as [lv' Eref].
  pose proof (fill_delete_named d) as Ef.
  pose proof (delete_named_fits (cstr d) Hlen) as Hfit.
  destruct (print_to_text sql0 "DELETE FROM ObjectTable WHERE name = '%s'" [d] q1) as (sql' & E & _ & Ec);
    [reflexivity|rewrite Ef; by apply delete_named_nonzero|rewrite Ef, Hsql0; exact Hfit|rewrite Hsql0; reflexivity|].
  assert (k ∈ l.*1 /\ content !! k = Some row) as [_ Hk].
  { apply list_elem_of_lookup_2 in Hi. split; [by apply (list_elem_of_fmap_2 fst l (k, row))|]. apply elem_of_map_to_list. by rewrite <- Pl. }
  assert (forall k' row' d' n', content !! k' = Some row' -> field row' 1 = FStr d' n' ->
    filter (fun kr => record_matches kr.2 object_schema (named_conds stack (cstr d)) = false) content !! k' =
    (if bool_decide (cstr d' = cstr d) then None else Some row')) as Hall.
  { intros k' row' d' n' Hk' Hf'. pose proof (named_matches stack row' (cstr d) d' n' Hn Hf') as Hm.
    destruct (bool_decide (cstr d' = cstr d)).
    - apply map_lookup_filter_None. right. intros x Hx. rewrite Hk' in Hx. injection Hx as <-. cbn [snd]. congruence.
    - apply map_lookup_filter_Some. split; [exact Hk'|exact Hm]. }
  eexists q3, lv', t2, a2, _, log2. split; [|split; [exact Ho3|split; [congruence|split; [|split; [|exact Hall]]]]].
  - unfold om_delete_btn, selected_row, bind. rewrite Hsel, (proj2 (Z.leb_gt _ _)) by lia. unfold db_execute at 1.
    change (cs "SELECT * FROM ObjectTable") with all_objects. rewrite Ex1, Er. unfold ret.
    replace (Z.to_nat (Z.of_nat (S i) - 1)) with i by lia. rewrite list_lookup_fmap, Hi. cbn [fmap option_fmap option_map snd].
    unfold format, str_data. rewrite Hf. change [txt d] with (map txt [d]). rewrite E. unfold db_execute. rewrite Ec, Ef, Ex2. exact Eref.
  - rewrite (Hall k row d n Hk Hf). by rewrite bool_decide_true.
  - apply map_filter_subseteq.
Qed.
End deleting.

(** ** Witness *)

Definition chosen : widget := set_list None 2 1 0 no_widget.

#[local] Opaque sys_db sys_table query_execute om_delete_btn.

Lemma om_delete_correct_witness :
  exists q1 r q2 lv', query_execute all_ok noon zero_stack (insert_text (cs "old") (cs "note") (cs "x")) 5 sys_state = Done (q1, Some r) /\
    om_delete_btn all_ok noon zero_stack (replicate 128 7) (replicate 256 7) (replicate 64 7) (fun _ => []) chosen 5 q1 = Done (q2, lv') /\
    exists t a log, objects q2 t a ∅ log.
Proof.
  assert (is_u64 5) as H5 by (unfold is_word; lia).
  assert (literal (cs "old") /\ literal (cs "note") /\ literal (cs "x")) as (Ln & Lk & Lx) by (split_and!; apply word_literal; reflexivity).
  assert (global_row_id (q_db sys_state) = 1) as Eg by exact sys_row_id.
  destruct (insert_line all_ok noon zero_stack (fun _ _ => eq_refl) noon_u64 sys_state (sys_table 3) (sys_table 5) ∅ ∅ 5 (cs "old") (cs "note") (cs "x")
    sys_objects_state H5) as (q1 & r & i & v & i' & v' & now & log1 & Ex & _ & E1 & E2 & Ho & Hg & _);
    [apply insert_text_bytes; apply bytes_cs|exact Ln|exact Lk|exact Lx|rewrite Eg, sys_table_index by lia; by apply room_init|
     rewrite Eg, sys_table_index by lia; by apply room_init|].
  rewrite Eg in Hg, Ho, E2. rewrite sys_table_index in E2 by lia. apply insert_init in E2.
  destruct (line_row_fields 1 5 now (cs "old") (cs "note") (cs "x")) as (_ & F1 & _). destruct (str_field_text (cs "old") Ln) as [n F].
  pose proof (str_field_cstr (cs "old") n _ Ln F) as Ed. rewrite F in F1.
  rewrite insert_empty in Ho. set (row := line_row 1 5 now (cs "old") (cs "note") (cs "x")) in *. clearbody row.
  destruct (om_delete_correct all_ok noon zero_stack (replicate 256 7) (replicate 64 7) (replicate 128 7) (fun _ => []) (fun _ _ => eq_refl) noon_u64 eq_refl
    chosen 5 q1 _ _ _ _ [(1, row)] 0 1 row
    (cs "old" ++ replicate (S MAX_STR_LEN - length (cs "old")) 0) n Ho H5) as (q2 & lv' & t & a & content' & log' & Eb & Ho' & _ & Hk & Hsub & _).
  - repeat constructor.
  - by rewrite map_to_list_singleton.
  - reflexivity.
  - reflexivity.
  - exact F1.
  - rewrite Ed. exact Ln.
  - rewrite Ed. apply Nat.leb_le. reflexivity.
  - intros m Hm. rewrite map_size_singleton in Hm. rewrite Hg. cbn [set_index index]. rewrite E2.
    destruct m as [|[|m]]; [done|by apply room_one|lia].
  - exists q1, r, q2, lv'. split; [exact Ex|]. split; [exact Eb|]. exists t, a, log'.
    assert (content' = ∅) as <-; [|exact Ho']. apply map_empty. intros k. destruct (content' !! k) as [x|] eqn:E; [|reflexivity].
    pose proof (lookup_weaken _ _ _ _ E Hsub) as Hx. apply lookup_singleton_Some in Hx as [<- _]. congruence.
Defined.

(** ** What the windows show otherwise *)

(** The formatter has no precision, so a string of a result is not shown:
    the line has the conversion itself. *)
Example string_shown_as_format data n q : exists val, value_text (replicate 48 0) (FStr data n) q = Done (q, val) /\ cstr val = cs "%.40s".
Proof. eexists. split; reflexivity. Qed.

(** Nor has it left-justified fields: the line of an audit event takes the
    address of the action's name for the process id and the process id for the
    address of a text, which has no meaning. *)
Example audit_window_faults data_of num_of row q : event_text data_of num_of (replicate 128 0) row q = Fault.
Proof. reflexivity. Qed.

(** The same in the list of capabilities, for any capability. *)
Example capability_window_faults num_of word_of flag_of row l lv q : cap_lines (replicate 128 0) num_of word_of flag_of (row :: l) lv q = Fault.
Proof. reflexivity. Qed.

(** The object manager prints the type of an object, and neither its name nor
    its data. *)
Example object_window_shows_type : kvprintf_chars (cs "  %-10s %-16s %s") [txt (cs "note"); txt (cs "diary"); txt (cs "all is well")] =
  Some (cs "  %-10s %-16s note").
Proof. reflexivity. Qed.

(** Cursor-up in a grid just loaded (no row selected) scrolls to row -1, and
    the next painting reads the cells before the first. *)
Example grid_scrolls_before_first : let g := Grid [[blank_cell]; [blank_cell]] [] 2 1 0 (-1) [] [] in
  dg_scroll_row (dg_key 400 KEY_UP g) = -1 /\ hd_error (dg_painted 400 (dg_key 400 KEY_UP g)) = Some (-1).
Proof. split; reflexivity. Qed.

(** A column never given a value holds the number zero, which equals every
    text that is not a number: such rows match any name. *)
Example unset_matches_any_text : match_field (FU64 0) CMP_EQ (FStr (cs "abc" ++ [0]) 3) = true.
Proof. reflexivity. Qed.
