(* ===== verification/Paint.v ===== *)
(** * The contents of the windows (src/gui/desktop.c, the paint functions)

    Each function clears the canvas, has the widgets drawn and adds its own
    stores, which are listed here after those of the widgets, through the
    macros CPIX, CHLINE, CFILL and CTEXT of widgets.c, which desktop.c repeats.
    [cw] and [ch] are the sizes of the client area, [cells n] a local array of
    [n] characters. *)

From Stdlib Require Import String.
From S2P Require Import Prelude CLib Record Database Printf Query Client Ring Keyboard Mouse Event Font Pixels TextBuf Window Widgets Calculator VaultPad Document DataWindows.

Section paint.
Context (cw ch : Z).
Context (cells : nat -> list Z).

#[local] Abbreviation pix := (CPIX cw ch).
#[local] Abbreviation hline := (CHLINE cw ch).
#[local] Abbreviation fill := (CFILL cw ch).
#[local] Abbreviation text := (CTEXT cw ch).

(** [for (i = 0; i < h; i++) CPIX(x, y + i, color)] *)
Definition vline (x y h color : Z) : stores := concat (map (fun r => pix x (y + r) color) (upto h)).

(** The canvas cleared, the widgets drawn and the window's own stores done; a
    window has a canvas from its creation on. *)
Definition repaint (st : wm) (s : nat) (p : widgets) (chain : list nat) (own : stores) : wm :=
  let st := wm_clear_canvas st (Some s) 0xFF1A1A2E in
  match canvas (win st s) with
  | None => st
  | Some c => on_win (set_canvas (Some (plot c (widget_draw_all cw ch true p chain ++ own)))) s st
  end.

(** ** The calculator *)

(** Character, column and width of the buttons of row [r], from column [bx]. *)
Fixpoint calc_row (r c : nat) (bx : Z) (l : list Z) : list (Z * Z * Z) :=
  match l with
  | [] => []
  | b :: l =>
      if b =? 32 then calc_row r (S c) (i16 (bx + CALC_BTN_W + CALC_BTN_PAD)) l
      else
        let bw := if (r =? 4)%nat && (c =? 0)%nat then CALC_BTN_W * 3 + CALC_BTN_PAD * 2 else CALC_BTN_W in
        (b, bx, bw) :: calc_row r (S c) (i16 (bx + bw + CALC_BTN_PAD)) l
  end.

(** The row at which the buttons of row [r] start. *)
Definition calc_grid_y (r : nat) : Z := 8 + 44 + CALC_BTN_PAD + 4 + Z.of_nat r * (CALC_BTN_H + CALC_BTN_PAD).

Definition calc_colors (b : Z) : Z * Z :=
  if (48 <=? b) && (b <=? 57) then (0xFF2A2A4A, 0xFFFFFFFF)
  else if b =? 67 then (0xFF663333, 0xFFFFAAAA)
  else if b =? 61 then (0xFF1A4444, 0xFF00DDAA)
  else if b =? 60 then (0xFF333355, 0xFFCCCCCC)
  else (0xFF333355, 0xFFFFCC00).

Definition calc_button (y : Z) (p : Z * Z * Z) : stores :=
  let '(b, bx, bw) := p in
  let '(bg, fg) := calc_colors b in
  fill bx y bw CALC_BTN_H bg ++ hline bx y bw 0xFF555577 ++ hline bx (y + CALC_BTN_H - 1) bw 0xFF555577 ++
  vborders cw ch bx y bw CALC_BTN_H 0xFF555577 ++
  text (i16 (bx + (bw - FONT_WIDTH) ÷ 2)) (i16 (y + (CALC_BTN_H - FONT_HEIGHT) ÷ 2)) [b; 0] fg bg.

Definition calc_paint (c : calc) : stores :=
  let disp_w := i16 (cw - 16) in
  let text_w := i16 (Z.of_nat (strlen (calc_display c)) * FONT_WIDTH) in
  let text_x := i16 (8 + disp_w - text_w - 8) in
  let text_y := 8 + (44 - FONT_HEIGHT) ÷ 2 in
  fill 8 8 disp_w 44 0xFF0A0A1A ++ hline 8 8 disp_w 0xFF555577 ++ hline 8 (8 + 44 - 1) disp_w 0xFF555577 ++
  vborders cw ch 8 8 disp_w 44 0xFF555577 ++
  text text_x text_y (calc_display c) 0xFFFFCC00 0xFF0A0A1A ++
  (if negb (calc_op c =? 0) then text (8 + 6) text_y [calc_op c; 0] 0xFF808080 0xFF0A0A1A else []) ++
  concat (imap (fun r l => concat (map (calc_button (calc_grid_y r)) (calc_row r 0 8 l))) calc_buttons).

(** ** The document editor *)

Definition vp_paint_line (st : vp) (edit_y i : Z) : stores :=
  let line_idx := Z.to_nat (vp_scroll_row st + i) in
  let ly := i16 (edit_y + i * FONT_HEIGHT) in
  let l := line st line_idx in
  let draw_len := Z.min (Z.of_nat (strlen l)) ((cw - VP_GUTTER_W) ÷ FONT_WIDTH) in
  let cx := i16 (VP_GUTTER_W + Z.of_nat (vp_cursor_col st) * FONT_WIDTH) in
  text 2 ly (print_buf (cells 6) "%3d" [AInt (Z.of_nat line_idx + 1)]) 0xFF666688 0xFF1A1A2E ++
  vline (VP_GUTTER_W - 2) ly FONT_HEIGHT 0xFF333355 ++
  concat (map (fun c => text (i16 (VP_GUTTER_W + c * FONT_WIDTH)) ly [l.[Z.to_nat c]; 0] 0xFFCCCCCC 0xFF1A1A2E) (upto draw_len)) ++
  (if (line_idx =? vp_cursor_row st)%nat
   then concat (map (fun cy => pix cx (ly + cy) 0xFFFFCC00 ++ pix (cx + 1) (ly + cy) 0xFFFFCC00) (upto FONT_HEIGHT)) else []).

Definition vp_dialog : stores :=
  let dw := i16 (cw - 160) in
  let dh := i16 (ch - 120) in
  fill 80 60 dw dh 0xFF0A0A1A ++ hline 80 60 dw 0xFF555577 ++ hline 80 (60 + dh - 1) dw 0xFF555577 ++
  vborders cw ch 80 60 dw dh 0xFF555577 ++ text (80 + 8) (60 + 4) (cs "Open Document (click to select)") 0xFFFFCC00 0xFF0A0A1A.

(** The first line shown moves to keep the cursor in view. *)
Definition vp_paint (show_open : bool) (st : vp) : vp * stores :=
  let edit_y := VP_TOOLBAR_H + 2 in
  let visible_rows := i16 (ch - VP_TOOLBAR_H - VP_STATUS_H - 4) ÷ FONT_HEIGHT in
  let st := vp_ensure_visible st visible_rows in
  let status := print_buf (cells 80) " Ln %d, Col %d | %s | %d lines | Ctrl+S Save"
    [AInt (Z.of_nat (vp_cursor_row st) + 1); AInt (Z.of_nat (vp_cursor_col st) + 1);
     AStr (Some (cs (if vp_modified st then "Modified" else "Saved") ++ [0])); AInt (Z.of_nat (vp_line_count st))] in
  (st,
   hline 0 VP_TOOLBAR_H cw 0xFF555577 ++
   concat (map (vp_paint_line st edit_y) (upto (Z.min visible_rows (Z.of_nat (vp_line_count st) - vp_scroll_row st)))) ++
   hline 0 (ch - VP_STATUS_H) cw 0xFF555577 ++
   text 4 (ch - VP_STATUS_H + 2) status 0xFF808080 0xFF1A1A2E ++
   (if show_open then vp_dialog else [])).

(** ** The data grid *)

Definition ROW_H : Z := FONT_HEIGHT + 4.

(** Columns from [cx] on, until one starts beyond the right edge. *)
Fixpoint dg_columns (draw : nat -> Z -> list Z * column_type * Z -> stores) (c : nat) (cx : Z) (l : list (list Z * column_type * Z)) : stores :=
  match l with
  | [] => []
  | col :: l =>
      if cw - 4 <=? cx then []
      else draw c cx col ++ dg_columns draw (S c) (i16 (cx + i16 (snd col))) l
  end.

Definition dg_header (_ : nat) (cx : Z) (col : list Z * column_type * Z) : stores :=
  let '(name, _, w) := col in
  let col_w := i16 w in
  fill cx 28 col_w ROW_H 0xFF1A2244 ++ text (i16 (cx + 4)) (28 + 2) name 0xFFFFCC00 0xFF1A2244 ++ vline (cx + col_w - 1) 28 ROW_H 0xFF444466.

Definition cell_color (t : column_type) : Z :=
  match t with
  | COL_U64 | COL_I64 | COL_U32 | COL_U8 => 0xFF66CCFF
  | COL_STR => 0xFF00DDAA
  | COL_BOOL => 0xFFFFCC00
  | COL_BLOB => 0xFFCCCCCC
  end.

(** The text of a cell, cut to the column. *)
Definition cell_text (value : list Z) (col_w : Z) : list Z :=
  let cell := <[(DG_CELL_MAX - 1)%nat := 0]> (strncpy (cells DG_CELL_MAX) value (DG_CELL_MAX - 1)) in
  let max_chars := (col_w - 8) ÷ FONT_WIDTH in
  if (max_chars <? Z.of_nat (strlen cell)) && (2 <? max_chars)
  then <[Z.to_nat max_chars := 0]> (<[Z.to_nat (max_chars - 1) := 46]> cell) else cell.

Definition dg_cell (row : list (list Z)) (ry row_bg : Z) (c : nat) (cx : Z) (col : list Z * column_type * Z) : stores :=
  let '(_, t, w) := col in
  let col_w := i16 w in
  fill cx ry col_w ROW_H row_bg ++ text (i16 (cx + 4)) (ry + 2) (cell_text (nth c row []) col_w) (cell_color t) row_bg ++
  vline (cx + col_w - 1) ry ROW_H 0xFF333344.

Definition dg_row (g : grid) (grid_x r : Z) : stores :=
  let data_row := r + dg_scroll_row g in
  let ry := i16 (49 + r * ROW_H) in
  let row_bg := if data_row =? dg_sel_row g then 0xFF1A3366 else if Z.land data_row 1 =? 0 then 0xFF0A0A1A else 0xFF10102A in
  let rnum := print_buf (cells 6) "%d" [AInt (u64 (data_row + 1))] in
  fill grid_x ry 32 ROW_H row_bg ++ text (i16 (grid_x + 4)) (ry + 2) rnum 0xFF666688 row_bg ++
  dg_columns (dg_cell (nth (Z.to_nat data_row) (dg_cells g) []) ry row_bg) 0 (i16 (grid_x + 32)) (take (Z.to_nat (dg_col_count g)) (dg_cols g)) ++
  hline grid_x (ry + ROW_H - 1) (cw - grid_x - 4) 0xFF222233.

Definition dg_paint (g : grid) : stores :=
  if dg_col_count g =? 0 then text (DG_TABLE_LIST_W + 20) 40 (cs "Select a table") 0xFF808080 0xFF1A1A2E
  else
    let grid_x := DG_TABLE_LIST_W + 4 in
    let visible_rows := (ch - 49 - 24) ÷ ROW_H in
    dg_columns dg_header 0 (grid_x + 32) (take (Z.to_nat (dg_col_count g)) (dg_cols g)) ++
    hline grid_x (28 + ROW_H) (cw - grid_x - 4) 0xFF555577 ++
    fill grid_x 28 32 ROW_H 0xFF1A2244 ++ text (grid_x + 4) (28 + 2) (cs "#") 0xFFFFCC00 0xFF1A2244 ++
    concat (map (dg_row g grid_x) (List.filter (fun r => r + dg_scroll_row g <? dg_row_count g) (upto visible_rows))).

(** ** The object inspector *)

Definition OI_LIST_W : Z := 160.
Definition OI_X : Z := OI_LIST_W + 8.

Definition oi_text (y : Z) (s : list Z) : stores := text OI_X y s 0xFF00DDAA 0xFF1A1A2E.

(** One line of the dump of [data], [len] characters of it. *)
Definition oi_hex_row (data : list Z) (len scroll r : Z) : stores :=
  let offset := (r + scroll) * 8 in
  let ry := i16 (174 + r * FONT_HEIGHT) in
  let hx b := OI_X + 5 * FONT_WIDTH + 4 + b * (3 * FONT_WIDTH) + (if 3 <? b then FONT_WIDTH else 0) in
  let shown := upto (Z.min 8 (len - offset)) in
  let ax := hx 8 + FONT_WIDTH in
  let printable c := (0x20 <=? c) && (c <? 0x7F) in
  text OI_X ry (print_buf (cells 128) "%04X " [AInt offset]) 0xFFFFCC00 0xFF1A1A2E ++
  concat (map (fun b =>
    if offset + b <? len then text (hx b) ry (print_buf (cells 4) "%02X " [AInt (u8 (data.[Z.to_nat (offset + b)]))]) 0xFF00DDAA 0xFF1A1A2E
    else text (hx b) ry (cs "   ") 0xFF333344 0xFF1A1A2E) (upto 8)) ++
  text ax ry (cs "|") 0xFF555577 0xFF1A1A2E ++
  concat (map (fun b =>
    let c := data.[Z.to_nat (offset + b)] in
    text (ax + FONT_WIDTH + b * FONT_WIDTH) ry [if printable c then c else 46; 0] (if printable c then 0xFFCCCCCC else 0xFF555555) 0xFF1A1A2E) shown) ++
  text (ax + FONT_WIDTH + Z.of_nat (length shown) * FONT_WIDTH) ry (cs "|") 0xFF555577 0xFF1A1A2E.

Definition oi_paint (i : inspector) : stores :=
  if negb (oi_has_selection i) then []
  else
    let secs := oi_obj_created i / 1000 in
    let data := oi_obj_data i in
    let len := Z.of_nat (strlen data) in
    let total_rows := if len =? 0 then 1 else (len + 8 - 1) / 8 in
    let visible_rows := (ch - 174 - 4) ÷ FONT_HEIGHT in
    text OI_X 28 (cs "METADATA") 0xFFFFCC00 0xFF1A1A2E ++
    oi_text 50 (print_buf (cells 128) "ID:      %llu" [AInt (oi_obj_id i)]) ++
    oi_text 68 (print_buf (cells 128) "Name:    %s" [AStr (Some (oi_obj_name i))]) ++
    oi_text 86 (print_buf (cells 128) "Type:    %s" [AStr (Some (oi_obj_type i))]) ++
    oi_text 104 (print_buf (cells 128) "Owner:   PID %llu" [AInt (oi_obj_owner i)]) ++
    oi_text 122 (print_buf (cells 128) "Created: %02llu:%02llu" [AInt (secs / 60); AInt (secs mod 60)]) ++
    hline OI_X 144 (cw - OI_X - 8) 0xFF555577 ++
    text OI_X 152 (cs "HEX DUMP") 0xFFFFCC00 0xFF1A1A2E ++
    concat (map (oi_hex_row data len (oi_hex_scroll i)) (List.filter (fun r => r + oi_hex_scroll i <? total_rows) (upto visible_rows))) ++
    (if len =? 0 then text OI_X 174 (cs "(empty)") 0xFF666666 0xFF1A1A2E else []).
End paint.
