(* ===== verification/PaintSpec.v ===== *)
(** * Painting stays on the canvas, and presses act on what is drawn *)

From Stdlib Require Import String.
From stdpp Require Import sets.
From S2P Require Import Prelude CLib Record Database Printf Query Client Ring Keyboard Mouse Event Font Pixels TextBuf Window Widgets WidgetsSpec Calculator VaultPad Document DataWindows Paint.

(** ** Bounds *)

Create HintDb paint.

Section bounds.
Context (cw ch : Z) (cells : nat -> list Z).

#[local] Hint Resolve in_canvas_nil in_canvas_app in_canvas_CPIX in_canvas_CHLINE in_canvas_CFILL in_canvas_CTEXT : paint.
#[local] Hint Extern 1 (in_canvas _ _ (concat (map _ _))) => apply in_canvas_concat; intros : paint.

Lemma vline_inside x y h c : in_canvas cw ch (vline cw ch x y h c).
Proof. unfold vline. auto with paint. Qed.
Lemma vborders_inside x y w h c : in_canvas cw ch (vborders cw ch x y w h c).
Proof. unfold vborders. auto with paint. Qed.
#[local] Hint Resolve vline_inside vborders_inside : paint.

Lemma calc_button_inside y p : in_canvas cw ch (calc_button cw ch y p).
Proof. destruct p as [[b bx] bw]. unfold calc_button. destruct (calc_colors b). auto 8 with paint. Qed.
#[local] Hint Resolve calc_button_inside : paint.

Lemma imap_inside {A} (f : nat -> A -> stores) l : (forall i a, in_canvas cw ch (f i a)) -> in_canvas cw ch (concat (imap f l)).
Proof. revert f. induction l as [|a l IH]; intros f Hf; cbn; [auto with paint|]. apply in_canvas_app; [done|]. apply IH. intros i b. apply Hf. Qed.

Lemma dg_columns_inside draw l : (forall c cx col, in_canvas cw ch (draw c cx col)) -> forall c cx, in_canvas cw ch (dg_columns cw draw c cx l).
Proof. intros Hd. induction l as [|col l IH]; intros c cx; cbn [dg_columns]; [auto with paint|]. destruct (_ <=? cx); auto with paint. Qed.

Lemma dg_header_inside c cx col : in_canvas cw ch (dg_header cw ch c cx col).
Proof. destruct col as [[name t] w]. unfold dg_header. auto 6 with paint. Qed.

Lemma dg_row_inside g x r : in_canvas cw ch (dg_row cw ch cells g x r).
Proof.
  unfold dg_row. assert (forall row y bg c cx col, in_canvas cw ch (dg_cell cw ch cells row y bg c cx col)) as Hc.
  { intros row y bg c cx [[name t] w]. unfold dg_cell. auto 6 with paint. }
  pose proof dg_columns_inside. auto 8 with paint.
Qed.
#[local] Hint Resolve dg_header_inside dg_row_inside : paint.

(** Whatever the state of the calculator, the editor, the grid and the
    inspector, and whatever the size of the window, every store of their
    paint functions is into one of the pixels of the canvas. *)
Theorem windows_paint_inside (c : calc) (show_open : bool) (st : vp) (g : grid) (i : inspector) :
  in_canvas cw ch (calc_paint cw ch c) /\ in_canvas cw ch (snd (vp_paint cw ch cells show_open st)) /\
  in_canvas cw ch (dg_paint cw ch cells g) /\ in_canvas cw ch (oi_paint cw ch cells i).
Proof.
  split_and!.
  - unfold calc_paint. assert (forall r l, in_canvas cw ch (concat (map (calc_button cw ch (calc_grid_y r)) (calc_row r 0 8 l)))) by auto with paint.
    pose proof (imap_inside (fun r l => concat (map (calc_button cw ch (calc_grid_y r)) (calc_row r 0 8 l))) calc_buttons).
    destruct (negb _); auto 12 with paint.
  - unfold vp_paint. cbn [snd]. assert (forall s y j, in_canvas cw ch (vp_paint_line cw ch cells s y j)) as Hl.
    { intros s y j. unfold vp_paint_line. destruct (_ =? _)%nat; auto 12 with paint. }
    assert (in_canvas cw ch (vp_dialog cw ch)) by (unfold vp_dialog; auto 8 with paint). destruct show_open; auto 12 with paint.
  - unfold dg_paint. pose proof (dg_columns_inside (dg_header cw ch)). destruct (_ =? 0); auto 12 with paint.
  - unfold oi_paint. assert (forall data len scroll r, in_canvas cw ch (oi_hex_row cw ch cells data len scroll r)) as Hr.
    { intros data len scroll r. unfold oi_hex_row. apply in_canvas_app; [auto with paint|]. apply in_canvas_app; [|auto 8 with paint].
      apply in_canvas_concat. intros b. destruct (_ <? len); auto with paint. }
    destruct (negb _); [auto with paint|]. unfold oi_text. destruct (_ =? 0); auto 16 with paint.
Qed.
End bounds.

(** ** Presses *)

(** In the first four rows of the calculator a press anywhere on a drawn
    button is that button. *)
Theorem calculator_press (r : nat) (l : list Z) (b bx bw mx my : Z) : (r < 4)%nat -> calc_buttons !! r = Some l ->
  (b, bx, bw) ∈ calc_row r 0 8 l -> bx <= mx < bx + bw -> calc_grid_y r <= my < calc_grid_y r + CALC_BTN_H ->
  calc_button_at mx my = Some b.
Proof.
  intros Hr Hl Hb Hx Hy.
  assert (exists c : nat, (c < 4)%nat /\ bx = 8 + Z.of_nat c * 52 /\ bw = 48 /\ l.[c] = b /\ b <> 32) as (c & Hc & -> & -> & El & Hne).
  { assert (Forall (fun p : Z * Z * Z => exists c : nat, (c < 4)%nat /\ p.1.2 = 8 + Z.of_nat c * 52 /\ p.2 = 48 /\ l.[c] = p.1.1 /\ p.1.1 <> 32) (calc_row r 0 8 l)) as Hf.
    { destruct r as [|[|[|[|r]]]]; [..|lia]; injection Hl as <-; vm_compute; repeat constructor;
        first [exists 0%nat; split_and!; (lia || reflexivity || discriminate)|exists 1%nat; split_and!; (lia || reflexivity || discriminate)
              |exists 2%nat; split_and!; (lia || reflexivity || discriminate)|exists 3%nat; split_and!; (lia || reflexivity || discriminate)]. }
    rewrite Forall_forall in Hf. exact (Hf _ Hb). }
  unfold calc_grid_y, CALC_BTN_H, CALC_BTN_PAD in *. unfold calc_button_at, CALC_BTN_H, CALC_BTN_W, CALC_BTN_PAD, CALC_ROWS, CALC_COLS.
  assert (Z.quot (my - (8 + 44 + 4 + 4)) (36 + 4) = Z.of_nat r) as -> by (rewrite Z.quot_div_nonneg by lia; lia).
  assert (Z.quot (mx - 8) (48 + 4) = Z.of_nat c) as -> by (rewrite Z.quot_div_nonneg by lia; lia).
  rewrite (proj2 (Z.leb_le 0 (Z.of_nat r))), (proj2 (Z.ltb_lt (Z.of_nat r) 5)), (proj2 (Z.leb_le 0 (Z.of_nat c))), (proj2 (Z.ltb_lt (Z.of_nat c) 4)) by lia.
  cbn [andb]. rewrite !Nat2Z.id. rewrite (nth_lookup_Some _ _ _ _ Hl), El. by rewrite (proj2 (Z.eqb_neq _ _) Hne).
Qed.

(** A press on a character of the document moves the cursor there: the press
    is on the cell in which line [scroll + i] and column [c] are drawn. *)
Theorem editor_press (st : vp) (ch i c mx my : Z) : 0 <= vp_scroll_row st -> 48 < ch < 2 ^ 15 ->
  0 <= i < vp_visible_rows ch -> vp_scroll_row st + i < Z.of_nat (vp_line_count st) ->
  let r := Z.to_nat (vp_scroll_row st + i) in
  0 <= c < Z.of_nat (vp_len st r) ->
  VP_GUTTER_W + c * FONT_WIDTH <= mx < VP_GUTTER_W + (c + 1) * FONT_WIDTH ->
  VP_TOOLBAR_H + 2 + i * FONT_HEIGHT <= my < VP_TOOLBAR_H + 2 + (i + 1) * FONT_HEIGHT ->
  vp_click st ch mx my = Some (at_cursor r (Z.to_nat c) st).
Proof.
  intros Hs Hch Hi Hl r Hc Hx Hy. unfold vp_visible_rows, vp_click, VP_TOOLBAR_H, VP_STATUS_H, VP_GUTTER_W in *.
  change FONT_HEIGHT with 16 in *. change FONT_WIDTH with 8 in *.
  assert (i < (ch - 52) / 16) as Hi'.
  { replace (ch - 28 - 20 - 4) with (ch - 52) in Hi by lia. destruct (Z.leb_spec 52 ch); [rewrite Z.quot_div_nonneg in Hi by lia; apply Hi|].
    pose proof (Z.quot_opp_l (52 - ch) 16 ltac:(lia)) as Hq. replace (- (52 - ch)) with (ch - 52) in Hq by lia. rewrite Z.quot_div_nonneg in Hq by lia. lia. }
  assert (i16 (ch - 20) = ch - 20) as -> by (unfold i16; lia).
  rewrite (proj2 (Z.ltb_lt 28 my)), (proj2 (Z.ltb_lt my (ch - 20))) by lia. cbn [andb].
  assert (Z.quot (my - 28 - 2) 16 + vp_scroll_row st = vp_scroll_row st + i) as -> by (rewrite Z.quot_div_nonneg by lia; lia).
  assert (Z.quot (mx - 40) 8 = c) as -> by (rewrite Z.quot_div_nonneg by lia; lia).
  rewrite (proj2 (Z.leb_le 0 (vp_scroll_row st + i))), (proj2 (Z.ltb_lt (vp_scroll_row st + i) (Z.of_nat (vp_line_count st)))) by lia. cbn [andb].
  fold r. rewrite (proj2 (Z.ltb_ge c 0)), (proj2 (Z.ltb_ge (Z.of_nat (vp_len st r)) c)) by lia. done.
Qed.

(** The last row of the calculator is drawn with a wide 0, which moves the
    button = out of the window (258 pixels wide), while the press is looked up
    in columns of equal width: the right part of the wide 0 does nothing, and
    an empty spot computes the result. *)
Example calculator_last_row :
  calc_row 4 0 8 (nth 4 calc_buttons []) = [(48, 8, 152); (61, 268, 48)] /\
  calc_button_at 100 (calc_grid_y 4 + 10) = None /\ calc_button_at 170 (calc_grid_y 4 + 10) = Some 61.
Proof. by vm_compute. Qed.
