(* ===== verification/Graphics.v ===== *)
(** * Drawing on the back buffer (src/gui/graphics.c)

    A drawing function is the sequence of its stores into the back buffer, as
    pairs of an index and a colour ([stores] of Pixels.v).  Coordinates are [int16_t], sizes [uint16_t], as in the source. *)

From Stdlib Require Import String.
From S2P Require Import Prelude CLib Ring Keyboard Mouse Event Font Pixels TextBuf Window Widgets WidgetsSpec.

Section graphics.
Context (fb_width fb_height : Z).

(** The back buffer has no padding: [bb_pitch] is [fb_width]. *)
Definition bb_pitch : Z := fb_width.
Definition pixel (px py color : Z) : Z * Z := (py * bb_pitch + px, color).

Definition on_screen (px py : Z) : bool := (0 <=? px) && (0 <=? py) && (px <? fb_width) && (py <? fb_height).

Definition gfx_set_pixel (x y color : Z) : stores := if on_screen x y then [pixel x y color] else [].

Definition gfx_fill_rect (x y w h color : Z) : stores :=
  let x0 := if x <? 0 then 0 else x in
  let y0 := if y <? 0 then 0 else y in
  let x1 := i16 (x + w) in
  let y1 := i16 (y + h) in
  let x1 := if i16 fb_width <? x1 then i16 fb_width else x1 in
  let y1 := if i16 fb_height <? y1 then i16 fb_height else y1 in
  if (x1 <=? x0) || (y1 <=? y0) then []
  else concat (map (fun row => map (fun col => pixel col row color) (range x0 x1)) (range y0 y1)).

Definition gfx_draw_hline (x y w color : Z) : stores :=
  if (y <? 0) || (fb_height <=? y) then []
  else
    let x0 := if x <? 0 then 0 else x in
    let x1 := i16 (x + w) in
    let x1 := if i16 fb_width <? x1 then i16 fb_width else x1 in
    if x1 <=? x0 then [] else map (fun i => pixel i y color) (range x0 x1).

Definition gfx_draw_vline (x y h color : Z) : stores :=
  if (x <? 0) || (fb_width <=? x) then []
  else
    let y0 := if y <? 0 then 0 else y in
    let y1 := i16 (y + h) in
    let y1 := if i16 fb_height <? y1 then i16 fb_height else y1 in
    if y1 <=? y0 then [] else map (fun row => pixel x row color) (range y0 y1).

Definition gfx_draw_rect (x y w h color : Z) : stores :=
  gfx_draw_hline x y w color ++ gfx_draw_hline x (i16 (y + h - 1)) w color ++
  gfx_draw_vline x y h color ++ gfx_draw_vline (i16 (x + w - 1)) y h color.

Definition gfx_draw_char (x y ch fg bg : Z) : stores :=
  concat (map (fun gy =>
    let py := i16 (y + gy) in
    if (py <? 0) || (fb_height <=? py) then []
    else concat (map (fun gx =>
      let px := i16 (x + gx) in
      if (px <? 0) || (fb_width <=? px) then []
      else [pixel px py (glyph_pixel ch (Z.to_nat gy) gx fg bg)]) (range 0 FONT_WIDTH))) (range 0 FONT_HEIGHT)).

Fixpoint gfx_draw_text (x y : Z) (str : list Z) (fg bg : Z) : stores :=
  match str with
  | [] => []
  | c :: str => if c =? 0 then [] else gfx_draw_char x y c fg bg ++ gfx_draw_text (i16 (x + FONT_WIDTH)) y str fg bg
  end.

Definition gfx_text_width (str : list Z) : Z := Z.of_nat (strlen str) * FONT_WIDTH.

(** The pixel read is [pixels[row * w + col]]; [keep] says which are copied. *)
Definition blit_with (keep : Z -> bool) (x y w h : Z) (pixels : list Z) : stores :=
  concat (map (fun row =>
    let py := i16 (y + row) in
    if (py <? 0) || (fb_height <=? py) then []
    else concat (map (fun col =>
      let px := i16 (x + col) in
      let v := pixels.[Z.to_nat (row * w + col)] in
      if (0 <=? px) && (px <? fb_width) && keep v then [pixel px py v] else []) (range 0 w))) (range 0 h)).

Definition gfx_blit : Z -> Z -> Z -> Z -> list Z -> stores := blit_with (fun _ => true).
Definition gfx_blit_masked (x y w h : Z) (pixels : list Z) (mask_color : Z) : stores :=
  blit_with (fun v => negb (v =? mask_color)) x y w h pixels.

(** The copies to the screen: the offset in the frame buffer (in bytes), the
    offset in the back buffer (in pixels) and the number of pixels. *)
Definition gfx_flip (pitch_bytes : Z) : list (Z * Z * Z) :=
  map (fun y => (y * pitch_bytes, y * bb_pitch, fb_width)) (range 0 fb_height).

Definition gfx_flip_rect (pitch_bytes x y w h : Z) : list (Z * Z * Z) :=
  let '(w, x) := if x <? 0 then (u16 (w + x), 0) else (w, x) in
  let '(h, y) := if y <? 0 then (u16 (h + y), 0) else (h, y) in
  let w := if i16 fb_width <? x + w then u16 (fb_width - x) else w in
  let h := if i16 fb_height <? y + h then u16 (fb_height - y) else h in
  if (w =? 0) || (h =? 0) then []
  else map (fun row => ((y + row) * pitch_bytes + 4 * x, (y + row) * bb_pitch + x, w)) (range 0 h).
End graphics.

(** ** Bounds *)

Section bounds.
Context (W H : Z) (HW : 0 <= W < 2 ^ 15) (HH : 0 <= H < 2 ^ 15).

Abbreviation ok := (in_canvas W H).

Lemma in_canvas_pixel px py color : 0 <= px < W -> 0 <= py < H -> in_canvas W H [pixel W px py color].
Proof. intros Hx Hy. apply Forall_singleton. cbn. unfold bb_pitch. nia. Qed.

Lemma in_canvas_range {A} (f : A -> Z * Z) l : (forall a, a ∈ l -> ok [f a]) -> ok (map f l).
Proof.
  intros Hf. induction l as [|a l IH]; [apply in_canvas_nil|]. cbn [map].
  apply (in_canvas_app _ _ [f a]); [apply Hf; left|]. apply IH. intros b Hb. apply Hf. by right.
Qed.

Lemma in_canvas_rows {A} (f : A -> stores) l : (forall a, a ∈ l -> ok (f a)) -> ok (concat (map f l)).
Proof.
  intros Hf. induction l as [|a l IH]; [apply in_canvas_nil|]. cbn [map concat].
  apply in_canvas_app; [apply Hf; left|]. apply IH. intros b Hb. apply Hf. by right.
Qed.

Lemma clip_low x : x < 0 -> 0 <= (if x <? 0 then 0 else x).
Proof. intros Hx. destruct (Z.ltb_spec x 0); lia. Qed.

(** The clipped interval of an axis of [n] pixels. *)
Lemma clipped x w n i : 0 <= n < 2 ^ 15 ->
  (if x <? 0 then 0 else x) <= i < (if i16 n <? i16 (x + w) then i16 n else i16 (x + w)) -> 0 <= i < n.
Proof.
  intros Hn. rewrite (i16_small n) by lia. destruct (Z.ltb_spec x 0), (Z.ltb_spec n (i16 (x + w))); lia.
Qed.

Lemma fill_rect_bounds x y w h color : ok (gfx_fill_rect W H x y w h color).
Proof.
  unfold gfx_fill_rect. destruct (_ || _); [apply in_canvas_nil|].
  apply in_canvas_rows. intros row Hr%elem_of_range. apply in_canvas_range. intros col Hc%elem_of_range.
  apply in_canvas_pixel; [by apply (clipped x w)|by apply (clipped y h)].
Qed.

Lemma hline_bounds x y w color : ok (gfx_draw_hline W H x y w color).
Proof.
  unfold gfx_draw_hline. destruct (_ || _) eqn:E; [apply in_canvas_nil|]. apply orb_false_iff in E as [E1%Z.ltb_ge E2%Z.leb_gt].
  cbv zeta. destruct (_ <=? _); [apply in_canvas_nil|]. apply in_canvas_range. intros col Hc%elem_of_range.
  apply in_canvas_pixel; [by apply (clipped x w)|lia].
Qed.

Lemma vline_bounds x y h color : ok (gfx_draw_vline W H x y h color).
Proof.
  unfold gfx_draw_vline. destruct (_ || _) eqn:E; [apply in_canvas_nil|]. apply orb_false_iff in E as [E1%Z.ltb_ge E2%Z.leb_gt].
  cbv zeta. destruct (_ <=? _); [apply in_canvas_nil|]. apply in_canvas_range. intros row Hr%elem_of_range.
  apply in_canvas_pixel; [lia|by apply (clipped y h)].
Qed.

Lemma rect_bounds x y w h color : ok (gfx_draw_rect W H x y w h color).
Proof.
  unfold gfx_draw_rect. repeat apply in_canvas_app; (apply hline_bounds || apply vline_bounds).
Qed.

Lemma char_bounds x y c fg bg : ok (gfx_draw_char W H x y c fg bg).
Proof.
  unfold gfx_draw_char. apply in_canvas_rows. intros gy _. cbv zeta. destruct (_ || _) eqn:E; [apply in_canvas_nil|].
  apply orb_false_iff in E as [E1%Z.ltb_ge E2%Z.leb_gt]. apply in_canvas_rows. intros gx _.
  destruct ((i16 (x + gx) <? 0) || _) eqn:E'; [apply in_canvas_nil|].
  apply orb_false_iff in E' as [E1'%Z.ltb_ge E2'%Z.leb_gt]. apply in_canvas_pixel; lia.
Qed.

Lemma text_bounds x y s fg bg : ok (gfx_draw_text W H x y s fg bg).
Proof.
  revert x. induction s as [|c s IH]; intros x; [apply in_canvas_nil|]. cbn [gfx_draw_text].
  destruct (c =? 0); [apply in_canvas_nil|]. apply in_canvas_app; [apply char_bounds|apply IH].
Qed.

Lemma blit_bounds keep x y w h pixels : ok (blit_with W H keep x y w h pixels).
Proof.
  unfold blit_with. apply in_canvas_rows. intros row _. cbv zeta. destruct (_ || _) eqn:E; [apply in_canvas_nil|].
  apply orb_false_iff in E as [E1%Z.ltb_ge E2%Z.leb_gt]. apply in_canvas_rows. intros col _.
  destruct (_ && _ && _) eqn:E'; [|apply in_canvas_nil].
  apply andb_true_iff in E' as [[E1'%Z.leb_le E2'%Z.ltb_lt]%andb_true_iff _]. apply in_canvas_pixel; lia.
Qed.

Lemma set_pixel_bounds x y color : ok (gfx_set_pixel W H x y color).
Proof.
  unfold gfx_set_pixel, on_screen. destruct (_ && _) eqn:E; [|apply in_canvas_nil].
  apply andb_true_iff in E as [[[E1%Z.leb_le E2%Z.leb_le]%andb_true_iff E3%Z.ltb_lt]%andb_true_iff E4%Z.ltb_lt].
  apply in_canvas_pixel; lia.
Qed.
End bounds.

(** ** The rectangle is filled, and nothing else *)

(** Stores of one colour, each inside the buffer. *)
Lemma plot_lookup s buf color (i : nat) :
  Forall (fun p => p.2 = color /\ 0 <= p.1 < Z.of_nat (length buf)) s -> (i < length buf)%nat ->
  plot buf s !! i = if decide (Z.of_nat i ∈ map fst s) then Some color else buf !! i.
Proof.
  intros Hs Hi. revert buf Hs Hi. induction s as [|[j c] s IH]; intros buf Hs Hi; [done|].
  apply Forall_cons in Hs as [[Hc Hj] Hs]. cbn [fst snd] in Hc, Hj. subst c. cbn [plot foldl fst snd map].
  fold (plot (<[Z.to_nat j := color]> buf) s). rewrite IH by (rewrite length_insert; done).
  destruct (decide (Z.of_nat i ∈ map fst s)) as [Hin|Hin].
  - rewrite decide_True by (by right). done.
  - destruct (decide (Z.of_nat i = j)) as [<-|Hne].
    + rewrite Nat2Z.id, list_lookup_insert_eq by lia. rewrite decide_True by left. done.
    + rewrite list_lookup_insert_ne by lia. rewrite decide_False; [done|]. intros [?|?]%elem_of_cons; done.
Qed.

Lemma pixel_index W px py qx qy : 0 <= px < W -> 0 <= qx < W -> py * W + px = qy * W + qx -> px = qx /\ py = qy.
Proof. intros H1 H2 E. assert (py = qy) by nia. subst. lia. Qed.

(** A rectangle is filled exactly.  On a screen of less than 2^15 pixels
    each way, filling a rectangle whose right and lower edges are below 2^15
    changes the pixels of the screen that lie in it to the colour and no
    others, and stores nowhere but in the back buffer, wherever the rectangle
    lies. *)
Theorem gfx_fill_rect_exact (W H : Z) (buf : list Z) (x y w h color px py : Z) :
  0 <= W < 2 ^ 15 -> 0 <= H < 2 ^ 15 -> Z.of_nat (length buf) = W * H ->
  0 <= w -> 0 <= h -> - 2 ^ 15 <= x -> x + w < 2 ^ 15 -> - 2 ^ 15 <= y -> y + h < 2 ^ 15 ->
  0 <= px < W -> 0 <= py < H ->
  let s := gfx_fill_rect W H x y w h color in
  in_canvas W H s /\
  plot buf s !! Z.to_nat (py * W + px) =
    if (x <=? px) && (px <? x + w) && (y <=? py) && (py <? y + h) then Some color else buf !! Z.to_nat (py * W + px).
Proof.
  intros HW HH Hb Hw Hh Hx1 Hx2 Hy1 Hy2 Hpx Hpy s.
  pose proof (fill_rect_bounds W H HW HH x y w h color) as Hok. fold s in Hok. split; [done|].
  assert (0 <= py * W + px < W * H) as Hidx by nia.
  rewrite (plot_lookup s buf color).
  2:{ rewrite Hb. unfold in_canvas in Hok. revert Hok. unfold s, gfx_fill_rect. destruct (_ || _); [done|].
      intros Hok. rewrite Forall_forall in Hok |- *. intros p Hp. split; [|by apply Hok].
      apply list_elem_of_In, in_concat in Hp as (l & Hl & Hp). apply in_map_iff in Hl as (row & <- & _).
      apply in_map_iff in Hp as (col & <- & _). done. }
  2:{ lia. }
  rewrite Z2Nat.id by lia.
  assert (py * W + px ∈ map fst s <-> x <= px < x + w /\ y <= py < y + h) as Hin.
  { unfold s, gfx_fill_rect. rewrite !(i16_small W), !(i16_small H), !i16_small by lia.
    set (x0 := if x <? 0 then 0 else x). set (y0 := if y <? 0 then 0 else y).
    set (x1 := if W <? x + w then W else x + w). set (y1 := if H <? y + h then H else y + h).
    assert (x0 <= px < x1 <-> x <= px < x + w) as Ex.
    { unfold x0, x1. destruct (Z.ltb_spec x 0), (Z.ltb_spec W (x + w)); lia. }
    assert (y0 <= py < y1 <-> y <= py < y + h) as Ey.
    { unfold y0, y1. destruct (Z.ltb_spec y 0), (Z.ltb_spec H (y + h)); lia. }
    rewrite <- Ex, <- Ey.
    assert (0 <= x0) as Hx0 by (unfold x0; destruct (Z.ltb_spec x 0); lia).
    assert (x1 <= W) as Hx1' by (unfold x1; destruct (Z.ltb_spec W (x + w)); lia).
    destruct ((x1 <=? x0) || (y1 <=? y0)) eqn:E.
    - apply orb_true_iff in E as [E%Z.leb_le|E%Z.leb_le]; (split; [intros Hn; by apply not_elem_of_nil in Hn|lia]).
    - rewrite list_elem_of_In, in_map_iff. split.
      + intros ([i c] & Ei & Hp). cbn [fst] in Ei. subst i. apply in_concat in Hp as (l & Hl & Hp).
        apply in_map_iff in Hl as (row & <- & Hr). apply in_map_iff in Hp as (col & Ep & Hc).
        rewrite <- list_elem_of_In in Hr, Hc. apply elem_of_range in Hr, Hc. injection Ep as Ep _. unfold bb_pitch in Ep.
        destruct (pixel_index W col row px py) as [-> ->]; [lia|lia|lia|done].
      + intros [Hxr Hyr]. exists (py * W + px, color). split; [done|]. apply in_concat.
        exists (map (fun col => pixel W col py color) (range x0 x1)). split.
        * apply in_map_iff. exists py. split; [done|]. apply list_elem_of_In. by apply elem_of_range.
        * apply in_map_iff. exists px. split; [done|]. apply list_elem_of_In. by apply elem_of_range. }
  destruct (decide (py * W + px ∈ map fst s)) as [Hi|Hi].
  - apply Hin in Hi. replace (_ && _) with true; [done|]. symmetry. lia.
  - replace (_ && _) with false; [done|]. symmetry. apply not_true_is_false. intros Hb'. apply Hi, Hin. lia.
Qed.

(** A rectangle that sticks out at the left of an 8 x 4 screen. *)
Lemma gfx_fill_rect_exact_witness :
  let buf := plot (replicate 32 0) (gfx_fill_rect 8 4 (-2) 1 4 2 7) in
  buf !! 9%nat = Some 7 /\ buf !! 10%nat = Some 0 /\ buf = [0;0;0;0;0;0;0;0; 7;7;0;0;0;0;0;0; 7;7;0;0;0;0;0;0; 0;0;0;0;0;0;0;0].
Proof.
  split; [|split; [|reflexivity]].
  - apply (gfx_fill_rect_exact 8 4 (replicate 32 0) (-2) 1 4 2 7 1 1); vm_compute; try split; congruence.
  - apply (gfx_fill_rect_exact 8 4 (replicate 32 0) (-2) 1 4 2 7 2 1); vm_compute; try split; congruence.
Defined.

(** The finding: a rectangle to the right of the screen makes the clipped width
    of [gfx_flip_rect] wrap, and the copy overruns the row and the buffers. *)
Example flip_rect_overrun :
  gfx_flip_rect 1024 768 4096 1100 767 10 1 = [(767 * 4096 + 4 * 1100, 767 * 1024 + 1100, 65460)].
Proof. reflexivity. Qed.
