(* ===== verification/Compositor.v ===== *)
(** * The compositor (src/gui/compositor.c)

    One frame: the background gradient, the windows from the backmost to the
    topmost one, each painted by its callback and then drawn, and the pointer,
    as stores into the back buffer.  The paint callback of a window is an
    argument; a callback writes the canvas of the window it is given. *)

From Stdlib Require Import String.
From S2P Require Import Prelude CLib Ring Keyboard Mouse Event Font Pixels TextBuf Window Widgets WidgetsSpec Graphics.

Definition CURSOR_W : Z := 12.
Definition CURSOR_H : Z := 19.

Definition cursor_data : list (list Z) := map cs [
  "X..........."; "XX.........."; "X#X........."; "X##X........"; "X###X......."; "X####X......";
  "X#####X....."; "X######X...."; "X#######X..."; "X########X.."; "X#####XXXXX."; "X##X##X.....";
  "X#X.X##X...."; "XX..X##X...."; "X....X##X..."; ".....X##X..."; "......X##X.."; "......X##X..";
  ".......XX..."]%string.

Definition TITLEBAR_FOCUSED : Z := 0xFF1A3366.
Definition TITLEBAR_UNFOCUSED : Z := 0xFF333344.
Definition TITLEBAR_TEXT : Z := 0xFFFFFFFF.
Definition CLOSE_BTN_BG : Z := 0xFFCC3333.
Definition CLOSE_BTN_HOVER : Z := 0xFFFF4444.
Definition WIN_BORDER_COLOR : Z := 0xFF555566.

(** The colours of the gradient. *)
Record backdrop := Backdrop { bg_top : Z; bg_bottom : Z }.

Definition bg_default : backdrop := Backdrop 0xFF0A0A2E 0xFF1A0A2E.
Definition comp_set_bg_color (top bottom : Z) (_ : backdrop) : backdrop := Backdrop top bottom.

(** [uint8_t r = r1 + (r2 - r1) * t / max]: the difference is converted to
    [uint32_t] by the multiplication, and the division is unsigned. *)
Definition lerp_channel (a b t max : Z) : Z := u8 (a + u32 (u32 (b - a) * t) / max).

Definition channel (c shift : Z) : Z := Z.land (Z.shiftr c shift) 0xFF.

Definition lerp_color (c1 c2 t max : Z) : Z :=
  let r := lerp_channel (channel c1 16) (channel c2 16) t max in
  let g := lerp_channel (channel c1 8) (channel c2 8) t max in
  let b := lerp_channel (channel c1 0) (channel c2 0) t max in
  Z.lor (Z.lor (Z.lor 0xFF000000 (Z.shiftl r 16)) (Z.shiftl g 8)) b.

Section compositor.
Context (fb_width fb_height : Z).

Definition draw_desktop (bg : backdrop) : stores :=
  let h := u16 fb_height in
  let w := u16 fb_width in
  concat (map (fun y => gfx_draw_hline fb_width fb_height 0 (i16 y) w (lerp_color (bg_top bg) (bg_bottom bg) y h)) (range 0 h)).

Definition titlebar_color (win : window) : Z := if focused win then TITLEBAR_FOCUSED else TITLEBAR_UNFOCUSED.

Definition draw_title (win : window) : stores :=
  gfx_fill_rect fb_width fb_height (i16 (x win + 1)) (i16 (y win + 1)) (u16 (width win - 2)) (TITLEBAR_HEIGHT - 1)
    (titlebar_color win) ++
  gfx_draw_text fb_width fb_height (i16 (x win + 6)) (i16 (y win + Z.quot (TITLEBAR_HEIGHT - 16) 2)) (title win)
    TITLEBAR_TEXT (titlebar_color win).

(** The minimise and the close buttons: a square with a character. *)
Definition draw_button_at (win : window) (bx ch bg : Z) : stores :=
  gfx_fill_rect fb_width fb_height bx (i16 (y win + 1)) (TITLEBAR_HEIGHT - 1) (TITLEBAR_HEIGHT - 1) bg ++
  gfx_draw_char fb_width fb_height (i16 (bx + 6)) (i16 (y win + Z.quot (TITLEBAR_HEIGHT - 16) 2)) ch TITLEBAR_TEXT bg.

Definition draw_window (win : window) : stores :=
  if visible win then
    gfx_draw_rect fb_width fb_height (x win) (y win) (width win) (height win) WIN_BORDER_COLOR ++
    draw_title win ++
    draw_button_at win (i16 (x win + width win - 2 * TITLEBAR_HEIGHT)) 95 (if minimize_hovered win then 0xFF444466 else 0xFF333344) ++
    draw_button_at win (i16 (x win + width win - TITLEBAR_HEIGHT)) 88 (if close_hovered win then CLOSE_BTN_HOVER else CLOSE_BTN_BG) ++
    match canvas win with
    | Some c =>
        gfx_blit fb_width fb_height (i16 (x win + BORDER_WIDTH)) (i16 (y win + TITLEBAR_HEIGHT)) (client_w win) (client_h win) c
    | None => []
    end
  else [].

Definition draw_cursor (m : mouse_state) : stores :=
  let '(mx, my) := mouse_get_position m in
  concat (map (fun cy => concat (map (fun cx =>
    let ch := (nth (Z.to_nat cy) cursor_data []).[Z.to_nat cx] in
    if ch =? 88 then gfx_set_pixel fb_width fb_height (i16 (mx + cx)) (i16 (my + cy)) 0xFF000000
    else if ch =? 35 then gfx_set_pixel fb_width fb_height (i16 (mx + cx)) (i16 (my + cy)) 0xFFFFFFFF
    else []) (range 0 CURSOR_W))) (range 0 CURSOR_H)).

Context (paint : nat -> window -> window).

(** [if (wlist[i]->on_paint) wlist[i]->on_paint(wlist[i])] *)
Definition painted (win : window) : window :=
  match on_paint win with
  | Some f => paint f win
  | None => win
  end.

Fixpoint draw_windows (st : wm) (z : list nat) : wm * stores :=
  match z with
  | [] => (st, [])
  | i :: z =>
      let st := on_win painted i st in
      let s := draw_window (win st i) in
      let '(st, t) := draw_windows st z in
      (st, s ++ t)
  end.

(** The frame drawn in the back buffer, and the copies of [gfx_flip]. *)
Definition comp_render (bg : backdrop) (st : wm) (m : mouse_state) (pitch_bytes : Z) : wm * stores * list (Z * Z * Z) :=
  let '(st', s) := draw_windows st (wm_get_window_list st) in
  (st', draw_desktop bg ++ s ++ draw_cursor m, gfx_flip fb_width fb_height pitch_bytes).
End compositor.
