(* ===== verification/CompositorSpec.v ===== *)
(** * What a frame shows (src/gui/compositor.c)

    The colour of every pixel of a rendered frame: the pointer, else the
    topmost window painted there, else the background. *)

From Stdlib Require Import String.
From S2P Require Import Prelude CLib Ring Keyboard Mouse Event Font TextBuf Window WindowSpec Widgets WidgetsSpec Graphics Compositor Pixels.

Section frame.
Context (W H : Z) (HW : 0 <= W < 2 ^ 15) (HH : 0 <= H < 2 ^ 15).

#[local] Abbreviation at_pixel := (at_pixel W).
#[local] Abbreviation only := (only W H).

Lemma only_pixel (R : Z -> Z -> Z -> Prop) px py c : 0 <= px < W -> 0 <= py < H -> R px py c -> only R [pixel W px py c].
Proof. apply only_store. Qed.

(** ** What the drawing functions store *)

Abbreviation in_rect x y w h := (fun px py (_ : Z) => x <= px < x + w /\ y <= py < y + h).

(** The clipped interval of an axis, when it does not wrap. *)
Lemma clipped_iff x w n i : 0 <= n < 2 ^ 15 -> - 2 ^ 15 <= x + w < 2 ^ 15 -> 0 <= i < n ->
  (if x <? 0 then 0 else x) <= i < (if i16 n <? i16 (x + w) then i16 n else i16 (x + w)) <-> x <= i < x + w.
Proof.
  intros Hn Hw Hi. rewrite (i16_small n), (i16_small (x + w)) by lia. destruct (Z.ltb_spec x 0), (Z.ltb_spec n (x + w)); lia.
Qed.

Lemma only_hline x y w c : - 2 ^ 15 <= x + w < 2 ^ 15 -> only (fun px py d => (x <= px < x + w /\ py = y) /\ d = c) (gfx_draw_hline W H x y w c).
Proof.
  intros Hw. unfold gfx_draw_hline. destruct (_ || _) eqn:E; [apply only_nil|].
  apply orb_false_iff in E as [E1%Z.ltb_ge E2%Z.leb_gt]. cbv zeta. destruct (_ <=? _); [apply only_nil|].
  apply only_pixels. intros i Hi%elem_of_range. pose proof (clipped W H HW HH x w W i HW Hi) as Hc.
  apply only_pixel; [done|lia|]. split; [|done]. split; [by apply (clipped_iff x w W i)|done].
Qed.

Lemma only_vline x y h c : - 2 ^ 15 <= y + h < 2 ^ 15 -> only (in_rect x y 1 h) (gfx_draw_vline W H x y h c).
Proof.
  intros Hw. unfold gfx_draw_vline. destruct (_ || _) eqn:E; [apply only_nil|].
  apply orb_false_iff in E as [E1%Z.ltb_ge E2%Z.leb_gt]. cbv zeta. destruct (_ <=? _); [apply only_nil|].
  apply only_pixels. intros i Hi%elem_of_range. pose proof (clipped W H HW HH y h H i HH Hi) as Hc.
  apply only_pixel; [lia|done|]. split; [lia|by apply (clipped_iff y h H i)].
Qed.

Lemma only_fill_rect x y w h c : - 2 ^ 15 <= x + w < 2 ^ 15 -> - 2 ^ 15 <= y + h < 2 ^ 15 ->
  only (in_rect x y w h) (gfx_fill_rect W H x y w h c).
Proof.
  intros Hw Hh. unfold gfx_fill_rect. destruct (_ || _) eqn:E; [apply only_nil|]. apply only_rows. intros r Hr%elem_of_range.
  apply only_pixels. intros i Hi%elem_of_range. pose proof (clipped W H HW HH x w W i HW Hi). pose proof (clipped W H HW HH y h H r HH Hr).
  apply only_pixel; [done|done|]. split; [by apply (clipped_iff x w W i)|by apply (clipped_iff y h H r)].
Qed.

Lemma only_char x y ch fg bg : - 2 ^ 15 <= x -> x + 8 <= 2 ^ 15 -> - 2 ^ 15 <= y -> y + 16 <= 2 ^ 15 ->
  only (in_rect x y 8 16) (gfx_draw_char W H x y ch fg bg).
Proof.
  intros Hx1 Hx2 Hy1 Hy2. apply only_rows. intros gy Hgy%elem_of_range. unfold FONT_HEIGHT in Hgy. cbv zeta. rewrite (i16_small (y + gy)) by lia.
  destruct (_ || _) eqn:E; [apply only_nil|]. apply orb_false_iff in E as [E1%Z.ltb_ge E2%Z.leb_gt].
  apply only_rows. intros gx Hgx%elem_of_range. unfold FONT_WIDTH in Hgx. rewrite (i16_small (x + gx)) by lia.
  destruct ((x + gx <? 0) || _) eqn:E; [apply only_nil|]. apply orb_false_iff in E as [E3%Z.ltb_ge E4%Z.leb_gt].
  apply only_pixel; lia.
Qed.

Lemma only_text y s fg bg x : - 2 ^ 15 <= x -> x + 8 * Z.of_nat (strlen s) < 2 ^ 15 -> - 2 ^ 15 <= y -> y + 16 <= 2 ^ 15 ->
  only (in_rect x y (8 * Z.of_nat (strlen s)) 16) (gfx_draw_text W H x y s fg bg).
Proof.
  revert x. induction s as [|c s IH]; intros x Hx1 Hx2 Hy1 Hy2; [apply only_nil|]. cbn [gfx_draw_text strlen] in *.
  destruct (c =? 0); [apply only_nil|]. unfold FONT_WIDTH. rewrite (i16_small (x + 8)) by lia. apply only_app.
  - eapply only_weaken, only_char; [|lia..]. cbn. lia.
  - eapply only_weaken, IH; [|lia..]. cbn. lia.
Qed.

Lemma hline_draws x y w c px : - 2 ^ 15 <= x + w < 2 ^ 15 -> x <= px < x + w -> 0 <= px < W -> 0 <= y < H ->
  (at_pixel px y, c) ∈ gfx_draw_hline W H x y w c.
Proof.
  intros Hw Hp Hx Hy. unfold gfx_draw_hline. replace ((y <? 0) || (H <=? y)) with false by lia. cbv zeta.
  apply (clipped_iff x w W) in Hp; [|done..]. destruct (Z.leb_spec (if i16 W <? i16 (x + w) then i16 W else i16 (x + w)) (if x <? 0 then 0 else x)); [lia|].
  apply elem_of_pixels. exists px. by rewrite elem_of_range.
Qed.

Lemma vline_draws x y h c py : - 2 ^ 15 <= y + h < 2 ^ 15 -> y <= py < y + h -> 0 <= x < W -> 0 <= py < H ->
  (at_pixel x py, c) ∈ gfx_draw_vline W H x y h c.
Proof.
  intros Hw Hp Hx Hy. unfold gfx_draw_vline. replace ((x <? 0) || (W <=? x)) with false by lia. cbv zeta.
  apply (clipped_iff y h H) in Hp; [|done..]. destruct (Z.leb_spec (if i16 H <? i16 (y + h) then i16 H else i16 (y + h)) (if y <? 0 then 0 else y)); [lia|].
  apply elem_of_pixels. exists py. by rewrite elem_of_range.
Qed.

Lemma fill_rect_draws x y w h c px py : - 2 ^ 15 <= x + w < 2 ^ 15 -> - 2 ^ 15 <= y + h < 2 ^ 15 ->
  x <= px < x + w -> y <= py < y + h -> 0 <= px < W -> 0 <= py < H ->
  (at_pixel px py, c) ∈ gfx_fill_rect W H x y w h c.
Proof.
  intros Hw Hh Hp Hq Hx Hy. unfold gfx_fill_rect.
  apply (clipped_iff x w W) in Hp; [|done..]. apply (clipped_iff y h H) in Hq; [|done..].
  destruct (_ || _) eqn:E; [apply orb_true_iff in E as [E%Z.leb_le|E%Z.leb_le]; lia|].
  apply elem_of_rows. exists py. rewrite elem_of_range. split; [done|].
  apply elem_of_pixels. exists px. by rewrite elem_of_range.
Qed.

(** A blit stores exactly the pixels of the canvas that are on the screen. *)
Lemma only_blit x y w h pixels : - 2 ^ 15 <= x -> x + w <= 2 ^ 15 -> - 2 ^ 15 <= y -> y + h <= 2 ^ 15 ->
  only (fun px py c => (x <= px < x + w /\ y <= py < y + h) /\ c = pixels.[Z.to_nat ((py - y) * w + (px - x))])
    (gfx_blit W H x y w h pixels).
Proof.
  intros Hx1 Hx2 Hy1 Hy2. apply only_rows. intros row Hr%elem_of_range. cbv zeta. rewrite (i16_small (y + row)) by lia.
  destruct (_ || _) eqn:E; [apply only_nil|]. apply orb_false_iff in E as [E1%Z.ltb_ge E2%Z.leb_gt].
  apply only_rows. intros col Hc%elem_of_range. rewrite (i16_small (x + col)) by lia.
  destruct (_ && true) eqn:E; [|apply only_nil]. apply andb_true_iff in E as [[E3%Z.leb_le E4%Z.ltb_lt]%andb_true_iff _].
  apply only_pixel; [lia|lia|]. split; [lia|]. do 2 f_equal. lia.
Qed.

Lemma blit_draws x y w h pixels px py : - 2 ^ 15 <= x -> x + w <= 2 ^ 15 -> - 2 ^ 15 <= y -> y + h <= 2 ^ 15 ->
  x <= px < x + w -> y <= py < y + h -> 0 <= px < W -> 0 <= py < H ->
  (at_pixel px py, pixels.[Z.to_nat ((py - y) * w + (px - x))]) ∈ gfx_blit W H x y w h pixels.
Proof.
  intros Hx1 Hx2 Hy1 Hy2 Hp Hq Hx Hy. apply elem_of_rows. exists (py - y). rewrite elem_of_range. split; [lia|]. cbv zeta.
  rewrite (i16_small (y + _)) by lia. replace (y + (py - y)) with py by lia. replace (_ || _) with false by lia.
  apply elem_of_rows. exists (px - x). rewrite elem_of_range. split; [lia|].
  rewrite (i16_small (x + _)) by lia. replace (x + (px - x)) with px by lia. replace (_ && true) with true by lia. by left.
Qed.

(** ** A window *)

(** A window as [wm_create_window] makes it, with room for its title and its
    buttons, whose coordinates do not wrap. *)
Record fits (w : window) : Prop := Fits {
  fits_width : 41 <= width w;
  fits_height : 22 <= height w;
  fits_x : - 2 ^ 15 <= x w /\ x w + width w < 2 ^ 15;
  fits_y : - 2 ^ 15 <= y w /\ y w + height w < 2 ^ 15;
  fits_client_w : client_w w = width w - 2;
  fits_client_h : client_h w = height w - 22;
  fits_title : 6 + 8 * Z.of_nat (strlen (title w)) < width w;
  fits_canvas : is_Some (canvas w)
}.

Definition in_frame (w : window) (px py : Z) : bool :=
  (x w <=? px) && (px <? x w + width w) && (y w <=? py) && (py <? y w + height w).

Definition in_client (w : window) (px py : Z) : bool :=
  (x w + 1 <=? px) && (px <? x w + 1 + client_w w) && (y w + 20 <=? py) && (py <? y w + 20 + client_h w).

(** The row between the client area and the lower border. *)
Definition in_gap (w : window) (px py : Z) : bool :=
  (py =? y w + height w - 2) && (x w <? px) && (px <? x w + width w - 1).

(** Where a window is seen: within its frame, the gap excepted. *)
Definition paints (w : window) (px py : Z) : bool := visible w && in_frame w px py && negb (in_gap w px py).

Definition canvas_pixel (w : window) (cx cy : Z) : Z := (default [] (canvas w)).[Z.to_nat (cy * client_w w + cx)].

Abbreviation paints_rel w := (fun px py (_ : Z) => in_frame w px py && negb (in_gap w px py) = true).

Ltac geometry w Hf :=
  pose proof (fits_width w Hf); pose proof (fits_height w Hf); pose proof (fits_x w Hf); pose proof (fits_y w Hf);
  pose proof (fits_client_w w Hf); pose proof (fits_client_h w Hf); pose proof (fits_title w Hf).

Lemma only_border w : fits w ->
  only (paints_rel w) (gfx_draw_rect W H (x w) (y w) (width w) (height w) WIN_BORDER_COLOR).
Proof.
  intros Hf. geometry w Hf. unfold gfx_draw_rect, in_frame, in_gap. rewrite !i16_small by lia. repeat apply only_app.
  - eapply only_weaken, only_hline; [|lia]. cbn. intros. lia.
  - eapply only_weaken, only_hline; [|lia]. cbn. intros. lia.
  - eapply only_weaken, only_vline; [|lia]. cbn. intros. lia.
  - eapply only_weaken, only_vline; [|lia]. cbn. intros. lia.
Qed.

Lemma only_title w : fits w -> only (paints_rel w) (draw_title W H w).
Proof.
  intros Hf. geometry w Hf. unfold draw_title, in_frame, in_gap, TITLEBAR_HEIGHT. change (Z.quot (20 - 16) 2) with 2.
  rewrite !i16_small by lia. unfold wrap. rewrite Z.mod_small by lia. apply only_app.
  - eapply only_weaken, only_fill_rect; [|lia..]. cbn. intros. lia.
  - eapply only_weaken, only_text; [|lia..]. cbn. intros. lia.
Qed.

Lemma only_button w bx ch bg : fits w -> x w < bx -> bx + 20 <= x w + width w -> only (paints_rel w) (draw_button_at W H w bx ch bg).
Proof.
  intros Hf H1 H2. geometry w Hf. unfold draw_button_at, in_frame, in_gap, TITLEBAR_HEIGHT. change (Z.quot (20 - 16) 2) with 2.
  rewrite !i16_small by lia. apply only_app.
  - eapply only_weaken, only_fill_rect; [|lia..]. cbn. intros. lia.
  - eapply only_weaken, only_char; [|lia..]. cbn. intros. lia.
Qed.

Lemma only_window w : fits w -> only (fun px py _ => paints w px py = true) (draw_window W H w).
Proof.
  intros Hf. unfold draw_window, paints. destruct (visible w); [|apply only_nil]. cbn [andb]. geometry w Hf.
  unfold TITLEBAR_HEIGHT, BORDER_WIDTH. rewrite !i16_small by lia. apply only_app; [by apply only_border|].
  apply only_app; [by apply only_title|]. do 2 (apply only_app; [apply only_button; [done|lia..]|]).
  destruct (canvas w) as [c|]; [|apply only_nil]. rewrite ?i16_small by lia. eapply only_weaken, only_blit; [|lia..].
  unfold in_frame, in_gap. cbn. intros. lia.
Qed.

Lemma border_draws w px py : fits w -> in_frame w px py = true -> 0 <= px < W -> 0 <= py < H ->
  px = x w \/ px = x w + width w - 1 \/ py = y w \/ py = y w + height w - 1 ->
  (at_pixel px py, WIN_BORDER_COLOR) ∈ gfx_draw_rect W H (x w) (y w) (width w) (height w) WIN_BORDER_COLOR.
Proof.
  intros Hf Hin Hx Hy Hb. geometry w Hf. unfold in_frame in Hin. unfold gfx_draw_rect. rewrite !i16_small by lia. rewrite !elem_of_app.
  destruct Hb as [-> | [-> | [-> | ->] ] ].
  - right; right; left. apply vline_draws; lia.
  - right; right; right. apply vline_draws; lia.
  - left. apply hline_draws; lia.
  - right; left. apply hline_draws; lia.
Qed.

Lemma title_draws w px py : fits w -> x w < px < x w + width w - 1 -> y w < py < y w + 20 -> 0 <= px < W -> 0 <= py < H ->
  (at_pixel px py, titlebar_color w) ∈ draw_title W H w.
Proof.
  intros Hf Hpx Hpy Hx Hy. geometry w Hf. apply elem_of_app. left. unfold TITLEBAR_HEIGHT.
  rewrite !i16_small by lia. unfold wrap. rewrite Z.mod_small by lia. apply fill_rect_draws; lia.
Qed.

Lemma client_draws w px py : fits w -> in_client w px py = true -> 0 <= px < W -> 0 <= py < H ->
  shown (match canvas w with
         | Some c => gfx_blit W H (i16 (x w + BORDER_WIDTH)) (i16 (y w + TITLEBAR_HEIGHT)) (client_w w) (client_h w) c
         | None => []
         end) (at_pixel px py) = Some (canvas_pixel w (px - x w - 1) (py - y w - 20)).
Proof.
  intros Hf Hin Hx Hy. geometry w Hf. destruct (fits_canvas w Hf) as [c Ec]. unfold canvas_pixel. rewrite Ec. cbn [default id].
  unfold in_client in Hin. unfold BORDER_WIDTH, TITLEBAR_HEIGHT. rewrite !i16_small by lia.
  replace (Z.to_nat ((py - y w - 20) * client_w w + (px - x w - 1)))
    with (Z.to_nat ((py - (y w + 20)) * client_w w + (px - (x w + 1)))) by (f_equal; lia).
  eapply shown_colour; [apply only_blit; lia|done| |apply blit_draws; lia]. cbn. tauto.
Qed.

(** A window shows its canvas in the client area, and is opaque. *)
Lemma window_shows w px py : fits w -> paints w px py = true -> 0 <= px < W -> 0 <= py < H ->
  exists c, shown (draw_window W H w) (at_pixel px py) = Some c /\
    (in_client w px py = true -> c = canvas_pixel w (px - x w - 1) (py - y w - 20)).
Proof.
  intros Hf Hp Hx Hy. unfold paints in Hp. apply andb_true_iff in Hp as [[Hv Hin]%andb_true_iff Hg%negb_true_iff].
  unfold draw_window. rewrite Hv.
  destruct (in_client w px py) eqn:Ec.
  { eexists. split; [|done]. rewrite !shown_app, client_draws by done. done. }
  edestruct shown_Some as [c Hc]; [|exists c; split; [exact Hc|done]]. geometry w Hf.
  unfold in_frame, in_gap, in_client in *.
  destruct (decide (px = x w \/ px = x w + width w - 1 \/ py = y w \/ py = y w + height w - 1)) as [Hb|Hb].
  - exists WIN_BORDER_COLOR. apply elem_of_app. left. by apply border_draws.
  - exists (titlebar_color w). apply elem_of_app. right. apply elem_of_app. left. apply title_draws; [done|lia..].
Qed.

Lemma window_hides w px py : fits w -> paints w px py = false -> 0 <= px < W ->
  shown (draw_window W H w) (at_pixel px py) = None.
Proof. intros Hf Hp Hx. eapply shown_outside; [by apply only_window|done|]. intros c. cbn. by rewrite Hp. Qed.

(** ** The background and the pointer *)

Lemma only_bounds R s : only R s -> in_canvas W H s.
Proof. intros Hs. apply Forall_forall. intros p Hp. destruct (Hs p Hp) as (px & py & -> & Hx & Hy & _). unfold at_pixel. nia. Qed.

Lemma only_desktop bg : only (fun _ py c => c = lerp_color (bg_top bg) (bg_bottom bg) py H) (draw_desktop W H bg).
Proof.
  unfold draw_desktop, wrap. rewrite !Z.mod_small by lia. apply only_rows. intros r Hr%elem_of_range. rewrite i16_small by lia.
  eapply only_weaken, only_hline; [|lia]. cbn. naive_solver.
Qed.

Lemma desktop_shows bg px py : 0 <= px < W -> 0 <= py < H ->
  shown (draw_desktop W H bg) (at_pixel px py) = Some (lerp_color (bg_top bg) (bg_bottom bg) py H).
Proof.
  intros Hx Hy. eapply shown_colour; [apply only_desktop|done|done|]. unfold draw_desktop, wrap. rewrite !Z.mod_small by lia.
  apply elem_of_rows. exists py. rewrite elem_of_range, i16_small by lia. split; [done|]. apply hline_draws; lia.
Qed.

(** The colour of the pointer's image at an offset from its tip. *)
Definition cursor_pixel (dx dy : Z) : option Z :=
  if (0 <=? dx) && (dx <? CURSOR_W) && (0 <=? dy) && (dy <? CURSOR_H) then
    let ch := (nth (Z.to_nat dy) cursor_data []).[Z.to_nat dx] in
    if ch =? 88 then Some 0xFF000000 else if ch =? 35 then Some 0xFFFFFFFF else None
  else None.

(** The stores of one cell of the image. *)
Lemma cursor_cell m (cx cy : Z) c : 0 <= cx < CURSOR_W -> 0 <= cy < CURSOR_H -> 0 <= abs_x m < 2 ^ 15 -> 0 <= abs_y m < 2 ^ 15 ->
  let ch := (nth (Z.to_nat cy) cursor_data []).[Z.to_nat cx] in
  c ∈ (if ch =? 88 then gfx_set_pixel W H (i16 (abs_x m + cx)) (i16 (abs_y m + cy)) 0xFF000000
       else if ch =? 35 then gfx_set_pixel W H (i16 (abs_x m + cx)) (i16 (abs_y m + cy)) 0xFFFFFFFF else []) <->
  exists d, cursor_pixel cx cy = Some d /\ abs_x m + cx < W /\ abs_y m + cy < H /\ c = (at_pixel (abs_x m + cx) (abs_y m + cy), d).
Proof.
  intros Hcx Hcy Hmx Hmy ch. unfold cursor_pixel. replace (_ && _) with true by lia. fold ch. cbv zeta. unfold CURSOR_W, CURSOR_H in *.
  assert (forall d, c ∈ gfx_set_pixel W H (i16 (abs_x m + cx)) (i16 (abs_y m + cy)) d <->
    abs_x m + cx < W /\ abs_y m + cy < H /\ c = (at_pixel (abs_x m + cx) (abs_y m + cy), d)) as Hs.
  { intros d. unfold gfx_set_pixel, on_screen.
    destruct (decide (abs_x m + cx < W /\ abs_y m + cy < H)) as [Hw|Hw].
    - rewrite !i16_small by lia. replace (_ && _) with true by lia. rewrite list_elem_of_singleton. unfold pixel, bb_pitch, at_pixel. naive_solver.
    - replace (_ && _) with false by (unfold i16; lia). rewrite elem_of_nil. tauto. }
  destruct (ch =? 88); [|destruct (ch =? 35)]; rewrite ?Hs, ?elem_of_nil; naive_solver.
Qed.

Lemma cursor_pixel_bounds dx dy d : cursor_pixel dx dy = Some d -> 0 <= dx < CURSOR_W /\ 0 <= dy < CURSOR_H.
Proof. unfold cursor_pixel. destruct (_ && _) eqn:E; [|done]. intros _. lia. Qed.

Lemma only_cursor m : 0 <= abs_x m < 2 ^ 15 -> 0 <= abs_y m < 2 ^ 15 ->
  only (fun px py c => cursor_pixel (px - abs_x m) (py - abs_y m) = Some c) (draw_cursor W H m).
Proof.
  intros Hmx Hmy p (cy & Hcy%elem_of_range & (cx & Hcx%elem_of_range & Hp)%elem_of_rows)%elem_of_rows.
  apply cursor_cell in Hp as (d & Hd & Hw & Hh & ->); [|done..]. exists (abs_x m + cx), (abs_y m + cy). cbn [fst snd].
  replace (_ + cx - _) with cx by lia. replace (_ + cy - _) with cy by lia. split_and!; done || lia.
Qed.

Lemma cursor_shows m px py : 0 <= abs_x m < 2 ^ 15 -> 0 <= abs_y m < 2 ^ 15 -> 0 <= px < W -> 0 <= py < H ->
  shown (draw_cursor W H m) (at_pixel px py) = cursor_pixel (px - abs_x m) (py - abs_y m).
Proof.
  intros Hmx Hmy Hx Hy. pose proof (only_cursor m Hmx Hmy) as Ho.
  destruct (cursor_pixel (px - abs_x m) (py - abs_y m)) as [d|] eqn:E.
  - eapply shown_colour; [exact Ho|done|by intros d'; cbn; rewrite E; intros [= ->]|].
    pose proof (cursor_pixel_bounds _ _ _ E) as [Hcx Hcy].
    apply elem_of_rows. exists (py - abs_y m). rewrite elem_of_range. split; [done|].
    apply elem_of_rows. exists (px - abs_x m). rewrite elem_of_range. split; [done|].
    apply cursor_cell; [done..|]. exists d. do 2 rewrite Z.add_sub_assoc, Z.add_sub_swap, Z.sub_diag, Z.add_0_l. split_and!; done || lia.
  - eapply shown_outside; [exact Ho|done|]. intros c. cbn. by rewrite E.
Qed.

(** ** The stack of windows *)

(** The topmost of the windows (given from the back to the front) that is
    seen at a point. *)
Fixpoint top_window (ws : list window) (px py : Z) : option window :=
  match ws with
  | [] => None
  | w :: ws => match top_window ws px py with Some v => Some v | None => if paints w px py then Some w else None end
  end.

(** What the paint callbacks are for: they write the canvas they are given. *)
Definition writes_canvas (paint : nat -> window -> window) : Prop :=
  forall f w, exists c, paint f w = set_canvas (Some c) w.

Section stack.
Context (paint : nat -> window -> window) (Hpaint : writes_canvas paint).

Lemma fits_painted w : fits w -> fits (painted paint w).
Proof.
  intros Hf. unfold painted. destruct (on_paint w) as [f|]; [|done]. destruct (Hpaint f w) as [c ->].
  destruct Hf. constructor; cbn; done.
Qed.

(** Windows that are not drawn are left alone. *)
Lemma draw_windows_other z st s : s ∉ z -> Forall (fun i => (i < length (windows st))%nat) z ->
  win (draw_windows W H paint st z).1 s = win st s.
Proof.
  revert st. induction z as [|i z IH]; intros st Hs Hz; [done|]. apply Forall_cons in Hz as [Hi Hz].
  apply not_elem_of_cons in Hs as [Hne Hs]. cbn [draw_windows].
  specialize (IH (on_win (painted paint) i st) Hs). destruct (draw_windows W H paint (on_win (painted paint) i st) z) as [st' t].
  cbn [fst] in *. rewrite IH by (by rewrite length_on_win). rewrite win_on_win by done. by rewrite decide_False.
Qed.

Lemma draw_windows_shows z st px py :
  NoDup z -> Forall (fun i => (i < length (windows st))%nat) z -> (forall s, s ∈ z -> fits (win st s)) ->
  0 <= px < W -> 0 <= py < H ->
  let r := draw_windows W H paint st z in
  only (fun _ _ _ => True) r.2 /\
  (forall s, s ∈ z -> win r.1 s = painted paint (win st s)) /\
  match top_window (map (win r.1) z) px py with
  | None => shown r.2 (at_pixel px py) = None
  | Some w => exists c, shown r.2 (at_pixel px py) = Some c /\
      (in_client w px py = true -> c = canvas_pixel w (px - x w - 1) (py - y w - 20))
  end.
Proof.
  intros Hn Hz Hf Hx Hy. revert st Hz Hf. induction z as [|i z IH]; intros st Hz Hf; [split; [apply only_nil|split; [intros s Hs; by apply not_elem_of_nil in Hs|done]]|].
  apply NoDup_cons in Hn as [Hi Hn]. apply Forall_cons in Hz as [Hl Hz].
  set (st1 := on_win (painted paint) i st).
  assert (Forall (fun i => (i < length (windows st1))%nat) z) as Hz1 by (unfold st1; by rewrite length_on_win).
  assert (forall s, s ∈ z -> win st1 s = win st s) as Hw1.
  { intros s Hs. unfold st1. rewrite win_on_win by done. rewrite decide_False; [done|]. by intros ->. }
  pose proof (draw_windows_other z st1 i Hi Hz1) as Eo.
  destruct (IH Hn st1) as (Ho & Hp & Hs); [done|intros s Hs; rewrite Hw1 by done; apply Hf; by right|].
  cbn [draw_windows]. fold st1. cbv zeta in *. destruct (draw_windows W H paint st1 z) as [st' t]. cbn [fst snd] in *.
  assert (win st1 i = painted paint (win st i)) as Ei by (unfold st1; rewrite win_on_win by done; by rewrite decide_True).
  assert (fits (win st1 i)) as Hfi by (rewrite Ei; apply fits_painted, Hf; left).
  split; [apply only_app; [eapply only_weaken, only_window; done|done]|]. split.
  { intros s [->|Hs']%elem_of_cons; [by rewrite Eo|]. rewrite Hp by done. by rewrite Hw1. }
  cbn [map top_window]. rewrite shown_app. destruct (top_window (map (win st') z) px py) as [w|].
  - destruct Hs as (c & -> & Hc). by exists c.
  - rewrite Hs, Eo. destruct (paints (win st1 i) px py) eqn:E.
    + by apply window_shows.
    + by apply window_hides.
Qed.
End stack.
End frame.

(** C30: a frame shows what it should.  On a screen of less than 2^15 pixels
    each way, with the pointer on the screen and every window of the stack as
    [wm_create_window] makes it (its coordinates not wrapping, its title and
    buttons fitting), rendering stores into the back buffer only, and the
    colour of every pixel is: that of the pointer's image where it is not
    transparent; else, where a visible window is seen, in the client area of
    the topmost one, the pixel its callback has just painted there; else, in
    no window, the gradient of the background.  Nothing of the windows but
    their canvases changes. *)
Theorem comp_render_shows (W H : Z) (paint : nat -> window -> window) (bg : backdrop) (st : wm) (m : mouse_state)
    (pitch_bytes : Z) (buf : list Z) (px py : Z) :
  0 <= W < 2 ^ 15 -> 0 <= H < 2 ^ 15 -> Z.of_nat (length buf) = W * H ->
  wm_ok st -> (forall s, s ∈ z_order st -> fits (win st s)) -> writes_canvas paint ->
  0 <= abs_x m < 2 ^ 15 -> 0 <= abs_y m < 2 ^ 15 -> 0 <= px < W -> 0 <= py < H ->
  let '(st', s, _) := comp_render W H paint bg st m pitch_bytes in
  in_canvas W H s /\
  (forall i, i ∈ z_order st -> win st' i = painted paint (win st i)) /\
  exists c, plot buf s !! Z.to_nat (py * W + px) = Some c /\
    match cursor_pixel (px - abs_x m) (py - abs_y m) with
    | Some k => c = k
    | None =>
        match top_window (map (win st') (z_order st)) px py with
        | Some w => in_client w px py = true -> c = canvas_pixel w (px - x w - 1) (py - y w - 20)
        | None => c = lerp_color (bg_top bg) (bg_bottom bg) py H
        end
    end.
Proof.
  intros HW HH Hb Hok Hf Hpaint Hmx Hmy Hx Hy. unfold comp_render, wm_get_window_list.
  pose proof (wo_slots st Hok) as Hz. rewrite <- (wo_len st Hok) in Hz.
  pose proof (draw_windows_shows W H HW HH paint Hpaint (z_order st) st px py (wo_nodup st Hok) Hz Hf Hx Hy) as (Ho & Hp & Hs).
  destruct (draw_windows W H paint st (z_order st)) as [st' t]. cbn [fst snd] in *.
  assert (in_canvas W H (draw_desktop W H bg ++ t ++ draw_cursor W H m)) as Hc.
  { apply in_canvas_app; [eapply only_bounds, only_desktop; done|]. apply in_canvas_app; [by eapply only_bounds|].
    eapply only_bounds, only_cursor; done. }
  split; [done|]. split; [done|]. change (py * W + px) with (at_pixel W px py).
  rewrite plot_shown; [|rewrite Hb; exact Hc|rewrite Hb; unfold at_pixel; nia].
  rewrite !shown_app, cursor_shows, desktop_shows by done.
  destruct (cursor_pixel (px - abs_x m) (py - abs_y m)) as [k|]; [by exists k|].
  destruct (top_window _ px py) as [w|].
  - destruct Hs as (c & -> & Hw). by exists c.
  - rewrite Hs. by eexists.
Qed.

(** A window of 45 x 30 pixels at (5, 3) of a screen of 60 x 40, whose callback
    numbers the pixels of its canvas. *)
Definition numbers (_ : nat) (w : window) : window := set_canvas (Some (map Z.of_nat (seq 0 (Z.to_nat (client_w w * client_h w))))) w.

Definition one_window : wm := apply_op wm_init (Create (cs "ab") 5 3 45 30 None (Some 0%nat) true).

Lemma one_window_ok : wm_ok one_window.
Proof. apply (reached_ok one_window true), (reached_op wm_init true); [constructor|reflexivity]. Qed.

Lemma one_window_fits s : s ∈ z_order one_window -> fits (win one_window s).
Proof.
  intros ->%list_elem_of_singleton. constructor; try (vm_compute; repeat split; congruence). by eexists.
Qed.

Lemma comp_render_shows_witness :
  let m := mouse_set_bounds mouse_boot 60 40 in
  let '(_, s, _) := comp_render 60 40 numbers bg_default one_window m 240 in
  (exists c, plot (replicate 2400 0) s !! Z.to_nat (25 * 60 + 10) = Some c /\ c = 2 * 43 + 4) /\
  (exists c, plot (replicate 2400 0) s !! Z.to_nat (2 * 60 + 10) = Some c /\ c = 0xFF0A0A2E).
Proof.
  intros m.
  assert (writes_canvas numbers) as Hn by (intros f w; by eexists).
  pose proof (comp_render_shows 60 40 numbers bg_default one_window m 240 (replicate 2400 0) 10 25 ltac:(lia) ltac:(lia) eq_refl
    one_window_ok one_window_fits Hn ltac:(vm_compute; split; congruence) ltac:(vm_compute; split; congruence) ltac:(lia) ltac:(lia)) as H1.
  pose proof (comp_render_shows 60 40 numbers bg_default one_window m 240 (replicate 2400 0) 10 2 ltac:(lia) ltac:(lia) eq_refl
    one_window_ok one_window_fits Hn ltac:(vm_compute; split; congruence) ltac:(vm_compute; split; congruence) ltac:(lia) ltac:(lia)) as H2.
  destruct (comp_render 60 40 numbers bg_default one_window m 240) as [[st' s] fl] eqn:E.
  assert (map (win st') (z_order one_window) = [numbers 0 (win one_window 0)]) as Ew.
  { destruct H1 as (_ & H1 & _). change (z_order one_window) with [0%nat] in *. cbn [map]. rewrite H1 by left. reflexivity. }
  rewrite Ew in H1, H2. destruct H1 as (_ & _ & c1 & H1 & Hc1), H2 as (_ & _ & c2 & H2 & Hc2). split.
  - exists c1. split; [exact H1|]. apply Hc1. reflexivity.
  - exists c2. split; [exact H2|]. exact Hc2.
Defined.

(** ** Findings *)

(** The row above the lower border of a window is never painted: what lies
    behind shows through. *)
Lemma gap_shows_through W H w px : 0 <= W < 2 ^ 15 -> 0 <= H < 2 ^ 15 -> fits w -> 0 <= px < W -> x w < px < x w + width w - 1 ->
  shown (draw_window W H w) (at_pixel W px (y w + height w - 2)) = None.
Proof. intros HW HH Hf Hx Hp. apply window_hides; [done..| |done]. unfold paints, in_gap. lia. Qed.

(** The canvas is shown one row above where clicks are expected: a press on
    the canvas row 5 is delivered as a press on row 4. *)
Example click_one_row_off :
  let st := open wm_init 10 in
  let ev := press 20 75 in
  in_client (win st 0) (mouse_x ev) (mouse_y ev) = true /\
  mouse_y ev - y (win st 0) - 20 = 5 /\
  option_map (fun r => mouse_y r.2) (wm_dispatch_event st ev).2 = Some 4.
Proof. vm_compute. repeat split. Qed.

(** A channel that increases is interpolated; one that decreases is not: half
    way from 255 to 0 it is 212. *)
Lemma lerp_increasing a b t max : 0 <= a <= b -> b < 256 -> 0 <= t <= max -> 0 < max < 2 ^ 16 ->
  lerp_channel a b t max = a + (b - a) * t / max.
Proof.
  intros Ha Hb Ht Hm. unfold lerp_channel, wrap. rewrite (Z.mod_small (b - a)) by lia.
  assert (0 <= (b - a) * t <= 255 * 65536) by nia. rewrite (Z.mod_small ((b - a) * t)) by lia.
  assert ((b - a) * t / max <= b - a) by (apply Z.div_le_upper_bound; nia).
  assert (0 <= (b - a) * t / max) by (apply Z.div_pos; lia). apply Z.mod_small. lia.
Qed.

Example lerp_decreasing : lerp_channel 255 0 384 768 = 212.
Proof. reflexivity. Qed.
