(* ===== verification/Desktop.v ===== *)
(** * The desktop (src/gui/desktop.c)

    The menu and the task bar, the windows of the twelve applications with
    their controls, the handlers behind buttons and lists, and the treatment
    of one event, from the screen to the handler.  A static widget pointer is
    [Some] number of the pool or, before it is assigned or when the pool is
    exhausted, [None]; using [None] is [Fault].  [cells n] are the unknown
    cells of a local array of [n] characters; [data k] is the static array of
    a list view.  An array shared by two windows of the same application, the
    messages of the window manager on the console, and painting beyond the
    label texts, the task bar and the menu are not modelled. *)

From Stdlib Require Import String.
From S2P Require Import Prelude CLib Errors Random Aes Record Btree Cap Database Printf Heap Klist Sched Query Client.
From S2P Require Import Ring Keyboard Mouse Event Font Pixels TextBuf Window Widgets Graphics Calculator VaultPad Tui Shell Document DataWindows.

(** ** Names of functions and pointers *)

Inductive handler :=
  | Qc_execute | Qc_template | Tb_refresh | Tb_view_all | Tb_search | Tb_select | Pm_refresh | Pm_spawn | Pm_kill
  | Sd_open_audit | Al_refresh | Cm_refresh | Cm_revoke | Om_refresh | Om_delete | Vp_new | Vp_open | Vp_save | Vp_file
  | Dg_refresh | Dg_select | Oi_refresh | Oi_filter | Oi_select.

Inductive app :=
  | Query_console | Table_browser | Data_grid | Vaultpad | Calculator_app | Object_inspector | Security_dashboard
  | Audit_viewer | Cap_manager | Object_manager | Process_manager | System_status.

Inductive ptr :=
  | QC_TEXTBOX | QC_LISTVIEW | TB_TABLE_LIST | TB_DETAIL_LIST | TB_SEARCH_BOX | PM_LISTVIEW | AL_LISTVIEW | AL_FILTER_BOX
  | CM_LISTVIEW | OM_LISTVIEW | VP_NAME_BOX | VP_FILE_LIST | DG_TABLE_LIST | DG_STATUS_LBL | OI_OBJ_LIST | OI_FILTER_BOX
  | SS_LABEL (i : nat) | SD_LABEL (i : nat).

#[global] Instance handler_eq_dec : EqDecision handler.
Proof. solve_decision. Defined.
#[global] Instance app_eq_dec : EqDecision app.
Proof. solve_decision. Defined.
#[global] Instance ptr_eq_dec : EqDecision ptr.
Proof. solve_decision. Defined.

Definition handlers : list handler :=
  [Qc_execute; Qc_template; Tb_refresh; Tb_view_all; Tb_search; Tb_select; Pm_refresh; Pm_spawn; Pm_kill; Sd_open_audit;
   Al_refresh; Cm_refresh; Cm_revoke; Om_refresh; Om_delete; Vp_new; Vp_open; Vp_save; Vp_file; Dg_refresh; Dg_select;
   Oi_refresh; Oi_filter; Oi_select].
Definition app_list : list app :=
  [Query_console; Table_browser; Data_grid; Vaultpad; Calculator_app; Object_inspector; Security_dashboard; Audit_viewer;
   Cap_manager; Object_manager; Process_manager; System_status].

(** A function pointer is the number of the function. *)
Definition position {A} `{EqDecision A} (x : A) (l : list A) : nat := default 0%nat (fst <$> list_find (eq x) l).
Definition handler_no (h : handler) : nat := position h handlers.
Definition app_no (a : app) : nat := position a app_list.

(** ** Menu and task bar *)

Definition TASKBAR_HEIGHT : Z := 28.
Definition MENU_ITEMS : nat := 17.

Definition menu_labels : list string := [
  "Query Console"; "Table Browser"; "Data Grid"; "---"; "VaultPad Editor"; "Calculator"; "Object Inspector"; "---";
  "Security Dashboard"; "Audit Log"; "Capability Manager"; "Object Manager"; "---"; "Process Manager"; "System Status"; "---";
  "Exit to TUI"]%string.

Definition menu_is_separator (idx : Z) : bool :=
  (0 <=? idx) && (idx <? Z.of_nat MENU_ITEMS) && (chr (cs (nth (Z.to_nat idx) menu_labels ""%string)) =? 45).

Definition menu_top (sh : Z) : Z := i16 (sh - TASKBAR_HEIGHT - Z.of_nat MENU_ITEMS * 24 - 4).

(** -1 is [None]. *)
Definition menu_hit_test (sh mx my : Z) : option nat :=
  let menu_y := menu_top sh in
  if (mx <? 2) || (2 + 180 <=? mx) then None
  else if (my <? menu_y) || (menu_y + Z.of_nat MENU_ITEMS * 24 + 4 <=? my) then None
  else
    let idx := Z.quot (my - menu_y - 2) 24 in
    if (0 <=? idx) && (idx <? Z.of_nat MENU_ITEMS) && negb (menu_is_separator idx) then Some (Z.to_nat idx) else None.

Inductive choice := Open (a : app) | Exit.

(** The cases of the switch. *)
Definition menu_choice (idx : nat) : option choice :=
  match idx with
  | 0 => Some (Open Query_console) | 1 => Some (Open Table_browser) | 2 => Some (Open Data_grid)
  | 4 => Some (Open Vaultpad) | 5 => Some (Open Calculator_app) | 6 => Some (Open Object_inspector)
  | 8 => Some (Open Security_dashboard) | 9 => Some (Open Audit_viewer) | 10 => Some (Open Cap_manager)
  | 11 => Some (Open Object_manager) | 13 => Some (Open Process_manager) | 14 => Some (Open System_status)
  | 16 => Some Exit
  | _ => None
  end%nat.

(** The button of the task bar at a column, of [count]. *)
Definition taskbar_button (mx : Z) (count : nat) : option nat :=
  List.find (fun i => (90 + 124 * Z.of_nat i <=? mx) && (mx <? 90 + 124 * Z.of_nat i + 120)) (seq 0 count).

Section drawing.
Context (fb_width fb_height : Z).

#[local] Abbreviation fill_rect := (gfx_fill_rect fb_width fb_height).
#[local] Abbreviation draw_rect := (gfx_draw_rect fb_width fb_height).
#[local] Abbreviation draw_hline := (gfx_draw_hline fb_width fb_height).
#[local] Abbreviation draw_text := (gfx_draw_text fb_width fb_height).

Definition draw_menu (menu_open : bool) : stores :=
  if negb menu_open then []
  else
    let my := menu_top fb_height in
    fill_rect 2 my 180 (Z.of_nat MENU_ITEMS * 24 + 4) 0xFF1A1A2E ++ draw_rect 2 my 180 (Z.of_nat MENU_ITEMS * 24 + 4) 0xFF555577 ++
    concat (map (fun i =>
      let iy := i16 (my + 2 + Z.of_nat i * 24) in
      if menu_is_separator (Z.of_nat i) then draw_hline (2 + 4) (i16 (iy + 12)) (180 - 8) 0xFF444466
      else draw_text (2 + 8) (i16 (iy + 4)) (cs (nth i menu_labels ""%string)) 0xFF00DDAA 0xFF1A1A2E) (seq 0 MENU_ITEMS)).

(** The button of the window [w] at column [bx]. *)
Definition draw_window_button (ty bx : Z) (w : window) : stores :=
  let bg := if focused w then 0xFF2A4466 else 0xFF1A1A3A in
  let border := if focused w then 0xFF5588CC else 0xFF444466 in
  let text_color := if minimized w then 0xFF666666 else 0xFFCCCCCC in
  let t := <[14%nat := 0]> (strncpy (replicate 16 0) (title w) 14) in
  fill_rect bx (i16 (ty + 2)) 120 (TASKBAR_HEIGHT - 4) bg ++ draw_rect bx (i16 (ty + 2)) 120 (TASKBAR_HEIGHT - 4) border ++
  draw_text (i16 (bx + 4)) (i16 (ty + 6)) t text_color bg.

Definition TASKBAR_BG : Z := 0xFF16162E.
Definition TASKBAR_BORDER : Z := 0xFF333355.

(** [status] is the local array of 80 characters. *)
Definition draw_taskbar (st : wm) (r : readings) (status : list Z) : stores :=
  let ty := i16 (fb_height - TASKBAR_HEIGHT) in
  let ms := uptime_ms r in
  let status := print_buf status "%llu.%llus  %lluKB" [AInt (ms / 1000); AInt (ms mod 1000 / 100); AInt (used_mem r / 1024)] in
  let sx := i16 (fb_width - i16 (Z.of_nat (strlen status) * FONT_WIDTH) - 8) in
  let rng_tag := cs (if rng_hw r then "RNG:HW" else "RNG:SW") in
  let badge_x := i16 (sx - i16 (Z.of_nat (strlen rng_tag) * FONT_WIDTH) - 12) in
  fill_rect 0 ty fb_width TASKBAR_HEIGHT TASKBAR_BG ++ draw_hline 0 ty fb_width TASKBAR_BORDER ++
  fill_rect 2 (i16 (ty + 2)) 80 (TASKBAR_HEIGHT - 4) 0xFF1A3366 ++ draw_rect 2 (i16 (ty + 2)) 80 (TASKBAR_HEIGHT - 4) 0xFF4466AA ++
  draw_text 10 (i16 (ty + 6)) (cs "VaultOS") 0xFFFFCC00 0xFF1A3366 ++
  concat (imap (fun i s => draw_window_button ty (i16 (90 + 124 * Z.of_nat i)) (win st s)) (wm_get_window_list st)) ++
  draw_text sx (i16 (ty + 6)) status 0xFF808080 TASKBAR_BG ++
  draw_text badge_x (i16 (ty + 6)) rng_tag (if rng_hw r then 0xFF00CC66 else 0xFFCCCC00) TASKBAR_BG ++
  draw_text (i16 (badge_x - (4 * FONT_WIDTH + 8))) (i16 (ty + 6)) (cs "ENC") 0xFF00CC66 TASKBAR_BG.
End drawing.

(** ** Controls *)

(** What the code does with a text box before it adds it to the window. *)
Inductive preset := Plain | Focused | Preset (t : string).

Inductive control :=
  | Label (cx cy : Z) (t : string) (fg bg : Z)
  | Button (cx cy w h : Z) (t : string) (click : handler)
  | Textbox (cx cy w h : Z) (p : preset)
  | Listview (cx cy w h : Z) (array : nat) (select : option handler).

Section controls.
Context (data : nat -> list (list Z)).

Definition with_list (items : list (list Z)) (select : option handler) (w : widget) : widget :=
  Widget (wtype w) (wx w) (wy w) (ww w) (wh w) (wtext w) (wfocused w) (hovered w) (pressed w) (wfg w) (wbg w) (on_click w)
    (cursor_pos w) (text_len w) (Some items) (lv_count w) (lv_selected w) (lv_scroll w) (handler_no <$> select).

(** One control, created; the attributes of text boxes and lists are assigned
    through the pointer. *)
Definition create (c : control) (p : widgets) : outcome (widgets * option nat) :=
  match c with
  | Label cx cy t fg bg => Done (widget_create_label p (i16 cx) (i16 cy) (cs t) fg bg)
  | Button cx cy w h t click => Done (widget_create_button p (i16 cx) (i16 cy) (i16 w) (i16 h) (cs t) (Some (handler_no click)))
  | Textbox cx cy w h use =>
      let '(p, r) := widget_create_textbox p (i16 cx) (i16 cy) (i16 w) (i16 h) in
      match use, r with
      | Plain, _ => Done (p, r)
      | _, None => Fault
      | Focused, Some i => Done (on_widget (fun w => set_flags true (hovered w) (pressed w) w) i p, r)
      | Preset t, Some i => Done (on_widget (textbox_set_text (cs t)) i p, r)
      end
  | Listview cx cy w h array select =>
      let '(p, r) := widget_create_listview p (i16 cx) (i16 cy) (i16 w) (i16 h) in
      match r with
      | None => Fault
      | Some i => Done (on_widget (with_list (data array) select) i p, r)
      end
  end.

Definition pointers : Type := ptr -> option nat.

Definition assign (dest : option ptr) (v : option nat) (ps : pointers) : pointers :=
  match dest with None => ps | Some d => fun x => if decide (x = d) then v else ps x end.

(** Controls created and added in turn. *)
Fixpoint place (l : list (option ptr * control)) (p : widgets) (chain : list nat) (ps : pointers) : outcome (widgets * list nat * pointers) :=
  match l with
  | [] => Done (p, chain, ps)
  | (dest, c) :: l =>
      match create c p with
      | Done (p, r) => place l p (widget_add chain r) (assign dest r ps)
      | Fault => Fault
      | NoFuel => NoFuel
      end
  end.
End controls.

(** ** The windows *)

Definition FG : Z := 0xFF00DDAA.
Definition BG : Z := 0xFF1A1A2E.

(** The controls of each application, by the size of the client area. *)
Definition query_console_controls (cw ch : Z) : list (option ptr * control) := [
    (Some QC_TEXTBOX, Textbox 4 4 (cw - 160) 24 Focused);
    (None, Button (cw - 152) 4 68 24 "Execute" Qc_execute);
    (None, Button (cw - 80) 4 76 24 "Template" Qc_template);
    (Some QC_LISTVIEW, Listview 4 34 (cw - 8) (ch - 40) 0 None)]%string.

Definition table_browser_controls (cw ch : Z) : list (option ptr * control) := [
    (None, Button 4 2 72 22 "Refresh" Tb_refresh);
    (None, Button 80 2 72 22 "View All" Tb_view_all);
    (None, Label 158 5 "Tables" 0xFFFFCC00 BG);
    (Some TB_SEARCH_BOX, Textbox 190 2 (cw - 270) 22 Plain);
    (None, Button (cw - 76) 2 72 22 "Search" Tb_search);
    (Some TB_TABLE_LIST, Listview 4 28 180 (ch - 34) 1 (Some Tb_select));
    (Some TB_DETAIL_LIST, Listview 190 28 (cw - 196) (ch - 34) 2 None)]%string.

Definition process_manager_controls (cw ch : Z) : list (option ptr * control) := [
    (None, Button 4 2 72 22 "Refresh" Pm_refresh);
    (None, Button 80 2 110 22 "Spawn Monitor" Pm_spawn);
    (None, Button 194 2 72 22 "Kill" Pm_kill);
    (Some PM_LISTVIEW, Listview 4 28 (cw - 8) (ch - 34) 3 None)]%string.

Definition system_status_controls (cw ch : Z) : list (option ptr * control) := [
    (Some (SS_LABEL 0), Label 12 10 "VaultOS System Status" 0xFFFFCC00 BG);
    (Some (SS_LABEL 1), Label 12 38 "Uptime:       ..." FG BG);
    (Some (SS_LABEL 2), Label 12 60 "Heap Used:    ..." FG BG);
    (Some (SS_LABEL 3), Label 12 82 "Heap Free:    ..." FG BG);
    (Some (SS_LABEL 4), Label 12 104 "PMM Pages:    ..." FG BG);
    (Some (SS_LABEL 5), Label 12 126 "Tables:       ..." FG BG);
    (Some (SS_LABEL 6), Label 12 148 "Capabilities: ..." FG BG);
    (Some (SS_LABEL 7), Label 12 170 "RNG Source:   ..." FG BG);
    (Some (SS_LABEL 8), Label 12 192 "Encryption:   ..." 0xFF00CC66 BG);
    (Some (SS_LABEL 9), Label 12 220 "CPU: x86-64-v2 (Haswell+)" 0xFF808080 BG)]%string.

Definition security_dashboard_controls (cw ch : Z) : list (option ptr * control) := [
    (Some (SD_LABEL 0), Label 12 8 "ENCRYPTION STATUS" 0xFFFFCC00 BG);
    (Some (SD_LABEL 1), Label 12 32 "Algorithm: AES-128-CBC" 0xFF00CC66 BG);
    (Some (SD_LABEL 2), Label 12 50 "Key Derivation: HMAC-SHA256" 0xFF00CC66 BG);
    (Some (SD_LABEL 3), Label 12 74 "  ..." 0xFF00CC66 BG);
    (Some (SD_LABEL 4), Label 12 92 "  ..." 0xFF00CC66 BG);
    (Some (SD_LABEL 5), Label 12 110 "  ..." 0xFF00CC66 BG);
    (Some (SD_LABEL 6), Label 12 128 "  ..." 0xFF00CC66 BG);
    (Some (SD_LABEL 7), Label 12 146 "  ..." 0xFF00CC66 BG);
    (Some (SD_LABEL 8), Label 12 164 "  ..." 0xFF00CC66 BG);
    (Some (SD_LABEL 9), Label 12 190 "SECURITY TOKENS" 0xFFFFCC00 BG);
    (Some (SD_LABEL 10), Label 12 212 "Capability System: HMAC-sealed" FG BG);
    (Some (SD_LABEL 11), Label 12 230 "Active Tokens: ..." FG BG);
    (Some (SD_LABEL 12), Label 12 252 "RNG: ..." 0xFF00CC66 BG);
    (Some (SD_LABEL 13), Label 12 270 "Audit Events: ..." FG BG);
    (None, Button 12 298 140 24 "View Audit Log" Sd_open_audit)]%string.

Definition audit_viewer_controls (cw ch : Z) : list (option ptr * control) := [
    (Some AL_FILTER_BOX, Textbox 4 4 (cw - 160) 24 Plain);
    (None, Button (cw - 152) 4 72 24 "Refresh" Al_refresh);
    (None, Label (cw - 76) 8 "Filter" 0xFF808080 BG);
    (Some AL_LISTVIEW, Listview 4 34 (cw - 8) (ch - 40) 4 None)]%string.

Definition cap_manager_controls (cw ch : Z) : list (option ptr * control) := [
    (None, Button 4 2 72 22 "Refresh" Cm_refresh);
    (None, Button 80 2 100 22 "Revoke Sel." Cm_revoke);
    (Some CM_LISTVIEW, Listview 4 28 (cw - 8) (ch - 34) 5 None)]%string.

Definition object_manager_controls (cw ch : Z) : list (option ptr * control) := [
    (None, Button 4 2 72 22 "Refresh" Om_refresh);
    (None, Button 80 2 100 22 "Delete Sel." Om_delete);
    (Some OM_LISTVIEW, Listview 4 28 (cw - 8) (ch - 34) 6 None)]%string.

Definition vaultpad_controls (cw ch : Z) : list (option ptr * control) := [
    (Some VP_NAME_BOX, Textbox 4 4 280 22 (Preset "untitled"));
    (None, Button 290 4 52 22 "New" Vp_new);
    (None, Button 346 4 52 22 "Open" Vp_open);
    (None, Button 402 4 52 22 "Save" Vp_save);
    (Some VP_FILE_LIST, Listview 100 80 440 280 7 (Some Vp_file))]%string.

Definition data_grid_controls (cw ch : Z) : list (option ptr * control) := [
    (None, Button 4 2 72 22 "Refresh" Dg_refresh);
    (Some DG_STATUS_LBL, Label 80 6 "Select a table" 0xFF808080 BG);
    (Some DG_TABLE_LIST, Listview 4 28 (DG_TABLE_LIST_W - 8) (ch - 34) 8 (Some Dg_select))]%string.

Definition object_inspector_controls (cw ch : Z) : list (option ptr * control) := [
    (None, Button 4 2 72 22 "Refresh" Oi_refresh);
    (Some OI_FILTER_BOX, Textbox 80 2 180 22 Plain);
    (None, Button 264 2 60 22 "Filter" Oi_filter);
    (Some OI_OBJ_LIST, Listview 4 28 (160 - 8) (ch - 34) 9 (Some Oi_select))]%string.

Definition layout (a : app) (cw ch : Z) : list (option ptr * control) :=
  match a with
  | Query_console => query_console_controls cw ch
  | Table_browser => table_browser_controls cw ch
  | Process_manager => process_manager_controls cw ch
  | System_status => system_status_controls cw ch
  | Security_dashboard => security_dashboard_controls cw ch
  | Audit_viewer => audit_viewer_controls cw ch
  | Cap_manager => cap_manager_controls cw ch
  | Object_manager => object_manager_controls cw ch
  | Calculator_app => []
  | Vaultpad => vaultpad_controls cw ch
  | Data_grid => data_grid_controls cw ch
  | Object_inspector => object_inspector_controls cw ch
  end.

(** Title, position and size. *)
Definition frame_of (a : app) : string * (Z * Z * Z * Z) :=
  match a with
  | Query_console => ("Query Console", (100, 60, 540, 400))
  | Table_browser => ("Table Browser", (150, 80, 600, 400))
  | Process_manager => ("Process Manager", (120, 70, 480, 340))
  | System_status => ("System Status", (200, 100, 420, 340))
  | Security_dashboard => ("Security Dashboard", (80, 50, 500, 380))
  | Audit_viewer => ("Audit Log", (140, 60, 580, 400))
  | Cap_manager => ("Capability Manager", (100, 70, 560, 380))
  | Object_manager => ("Object Manager", (120, 80, 520, 380))
  | Calculator_app => ("Calculator", (200, 80, 260, 340))
  | Vaultpad => ("VaultPad Editor", (60, 40, 640, 440))
  | Data_grid => ("Data Grid", (40, 30, 700, 460))
  | Object_inspector => ("Object Inspector", (80, 50, 620, 420))
  end%string.

(** ** The state *)

(** Windows, widgets, the chain of each window slot and the pointers. *)
Record ui := Ui { u_wm : wm; u_pool : widgets; u_chains : list (list nat); u_ptrs : pointers }.

(** The static variables of the applications. *)
Record apps := Apps {
  a_calc : calc;
  a_text : vp;
  a_doc_name : list Z;
  a_show_open : bool;
  a_grid : grid;
  a_insp : inspector;
  a_template : nat
}.

Record desktop := Desktop { d_ui : ui; d_apps : apps; menu_open : bool; gui_running : bool }.

Definition chain_of (u : ui) (s : nat) : list nat := nth s (u_chains u) [].

(** Operations on the machine and the desktop, with faults. *)
Definition D (A : Type) : Type := shell -> desktop -> outcome (shell * desktop * A).
Definition dret {A} (a : A) : D A := fun s d => Done (s, d, a).
Definition dbind {A B} (m : D A) (k : A -> D B) : D B := fun s d =>
  match m s d with Done (s, d, a) => k a s d | Fault => Fault | NoFuel => NoFuel end.
Definition dfault {A} : D A := fun _ _ => Fault.

#[local] Notation "'let+' x := m 'in' k" := (dbind m (fun x => k))
  (at level 200, x name, m at level 100, k at level 200, right associativity).

Definition get_ui : D ui := fun s d => Done (s, d, d_ui d).
Definition put_ui (u : ui) : D unit := fun s d => Done (s, Desktop u (d_apps d) (menu_open d) (gui_running d), tt).
Definition get_apps : D apps := fun s d => Done (s, d, d_apps d).
Definition put_apps (a : apps) : D unit := fun s d => Done (s, Desktop (d_ui d) a (menu_open d) (gui_running d), tt).
Definition set_menu (b : bool) : D unit := fun s d => Done (s, Desktop (d_ui d) (d_apps d) b (gui_running d), tt).
Definition stop_gui : D unit := fun s d => Done (s, Desktop (d_ui d) (d_apps d) (menu_open d) false, tt).
Definition current_pid : D Z := fun s d => Done (s, d, my_pid s).

Definition on_db {A} (m : M A) : D A := fun s d =>
  match m (sh_q s) with
  | Done (q, a) => Done (Shell q (sh_sched s) (sh_heap s), d, a)
  | Fault => Fault
  | NoFuel => NoFuel
  end.

Definition lift {A} (o : outcome A) : D A := fun s d => match o with Done a => Done (s, d, a) | Fault => Fault | NoFuel => NoFuel end.

Definition put_widgets (p : widgets) : D unit := let+ u := get_ui in put_ui (Ui (u_wm u) p (u_chains u) (u_ptrs u)).
Definition put_wm (st : wm) : D unit := let+ u := get_ui in put_ui (Ui st (u_pool u) (u_chains u) (u_ptrs u)).

(** The widget behind a pointer, and its replacement. *)
Definition deref (x : ptr) : D nat := let+ u := get_ui in match u_ptrs u x with Some i => dret i | None => dfault end.
Definition widget_no (i : nat) : D widget := let+ u := get_ui in dret (widget_at (u_pool u) i).
Definition put_widget (i : nat) (w : widget) : D unit := let+ u := get_ui in put_widgets (on_widget (fun _ => w) i (u_pool u)).

(** A function that fills the list behind a pointer. *)
Definition refill (x : ptr) (f : widget -> Z -> M widget) : D unit :=
  let+ i := deref x in
  let+ w := widget_no i in
  let+ pid := current_pid in
  let+ w := on_db (f w pid) in
  put_widget i w.

Definition behind (x : ptr) : D widget := let+ i := deref x in widget_no i.

Section desktop.
Context `{Hw, AesNi}.
Context (mem : nat -> nat -> bool) (clock : nat -> Z) (stack : nat -> nat -> list Z).
Context (cells : nat -> list Z).
Context (data_of : field_value -> list Z) (num_of word_of : field_value -> Z) (flag_of : field_value -> bool).
Context (pml4 now monitor_entry_addr : Z).
Context (data : nat -> list (list Z)) (canvas_ok : bool) (base text_base : nat).

(** ** Opening *)

Definition open_window (a : app) : D (option nat) :=
  let+ u := get_ui in
  let '(t, (px, py, w, h)) := frame_of a in
  match wm_create_window (u_wm u) (cs t) px py w h (Some (app_no a)) (Some (app_no a)) canvas_ok with
  | (st, None) => let+ _ := put_wm st in dret None
  | (st, Some s) =>
      let+ r := lift (place data (layout a (client_w (win st s)) (client_h (win st s))) (u_pool u) [] (u_ptrs u)) in
      let '(p, chain, ps) := r in
      let+ _ := put_ui (Ui st p (<[s := chain]> (u_chains u)) ps) in
      dret (Some s)
  end.

(** The static variables set before the window is created. *)
Definition reset (a : app) (st : apps) : apps :=
  match a with
  | Calculator_app => Apps (open_calculator (a_calc st)) (a_text st) (a_doc_name st) (a_show_open st) (a_grid st) (a_insp st) (a_template st)
  | Vaultpad => Apps (a_calc st) vp_new_doc (<[0%nat := 0]> (a_doc_name st)) false (a_grid st) (a_insp st) (a_template st)
  | Data_grid =>
      let g := a_grid st in
      Apps (a_calc st) (a_text st) (a_doc_name st) (a_show_open st)
        (Grid (dg_cells g) (dg_cols g) 0 0 0 (-1) (<[0%nat := 0]> (dg_table_name g)) (dg_status g)) (a_insp st) (a_template st)
  | Object_inspector =>
      let i := a_insp st in
      Apps (a_calc st) (a_text st) (a_doc_name st) (a_show_open st) (a_grid st)
        (Inspector (<[0%nat := 0]> (oi_obj_name i)) (oi_obj_type i) (oi_obj_data i) (oi_obj_id i) (oi_obj_owner i) (oi_obj_created i) 0 false) (a_template st)
  | _ => st
  end.

Definition pm_fill : D unit := refill PM_LISTVIEW (pm_refresh mem clock stack (cells 48) (cells 64)).
Definition tb_fill : D unit := refill TB_TABLE_LIST (fun w _ => tb_refresh_btn w).
Definition al_fill : D unit :=
  let+ box := behind AL_FILTER_BOX in refill AL_LISTVIEW (al_refresh mem clock stack (cells 128) (cells 64) data_of num_of box).
Definition cm_fill : D unit := refill CM_LISTVIEW (cm_refresh mem clock stack (cells 128) (cells 64) num_of word_of flag_of).
Definition om_fill : D unit := refill OM_LISTVIEW (om_refresh mem clock stack (cells 128) (cells 64) data_of).
Definition oi_fill : D unit :=
  let+ box := behind OI_FILTER_BOX in refill OI_OBJ_LIST (oi_refresh mem clock stack (cells 128) data_of box).

(** The list shown at first. *)
Definition first_fill (a : app) : D unit :=
  match a with
  | Table_browser => tb_fill
  | Process_manager => pm_fill
  | Audit_viewer => al_fill
  | Cap_manager => cm_fill
  | Object_manager => om_fill
  | Data_grid => refill DG_TABLE_LIST (fun w _ => bind table_names (fun l => ret (add_items l w)))
  | Object_inspector => oi_fill
  | _ => dret tt
  end.

(** The window and its controls. *)
Definition show_app (a : app) : D (option nat) :=
  let+ st := get_apps in
  let+ _ := put_apps (reset a st) in
  open_window a.

Definition open_app (a : app) : D unit :=
  let+ r := show_app a in
  match r with None => dret tt | Some _ => first_fill a end.

(** ** Handlers *)

Definition pm_spawn_monitor : D unit :=
  fun s d =>
    match process_create pml4 now (machine_of s) (cs "monitor") monitor_entry_addr with
    | None => Fault
    | Some (k, p) =>
        let s := with_machine s k in
        let s := match p with Some i => Shell (sh_q s) (scheduler_add (sh_sched s) i) (sh_heap s) | None => s end in
        pm_fill s d
    end.

Definition pm_kill_selected : D unit :=
  let+ lv := behind PM_LISTVIEW in
  let+ pid := current_pid in
  let+ t := on_db (pm_target mem clock stack num_of lv pid) in
  match t with
  | None => dret tt
  | Some t => fun s d =>
      match process_get_by_pid (sh_sched s) t with
      | None => pm_fill s d
      | Some i => match process_exit (machine_of s) i with None => Fault | Some k => pm_fill (with_machine s k) d end
      end
  end.

(** The document editor on its variables and the widgets behind its pointers;
    [j] is the list of files. *)
Definition on_pad (j : nat) (f : pad -> Z -> M pad) : D unit :=
  let+ i := deref VP_NAME_BOX in
  let+ box := widget_no i in
  let+ files := widget_no j in
  let+ st := get_apps in
  let+ pid := current_pid in
  let+ r := on_db (f (Pad (a_text st) (a_doc_name st) box files (a_show_open st)) pid) in
  let+ _ := put_widget i (vp_name_box r) in
  let+ _ := put_widget j (vp_file_list r) in
  put_apps (Apps (a_calc st) (text r) (vp_doc_name r) (vp_show_open r) (a_grid st) (a_insp st) (a_template st)).

Definition on_files (f : pad -> Z -> M pad) : D unit := let+ j := deref VP_FILE_LIST in on_pad j f.

(** The data grid; its status line is a label. *)
Definition on_grid (f : Z -> grid -> M grid) : D unit :=
  let+ i := deref DG_STATUS_LBL in
  let+ w := widget_no i in
  let+ st := get_apps in
  let+ pid := current_pid in
  let g := a_grid st in
  let+ g := on_db (f pid (Grid (dg_cells g) (dg_cols g) (dg_row_count g) (dg_col_count g) (dg_scroll_row g) (dg_sel_row g) (dg_table_name g) (wtext w))) in
  let+ _ := put_widget i (set_text (dg_status g) (text_len w) (cursor_pos w) w) in
  put_apps (Apps (a_calc st) (a_text st) (a_doc_name st) (a_show_open st) g (a_insp st) (a_template st)).

Definition qc_template : D unit :=
  let+ i := deref QC_TEXTBOX in
  let+ w := widget_no i in
  let+ st := get_apps in
  let '(w, n) := qc_template_btn w (a_template st) in
  let+ _ := put_widget i w in
  put_apps (Apps (a_calc st) (a_text st) (a_doc_name st) (a_show_open st) (a_grid st) (a_insp st) n).

(** [on_click(w, win)] *)
Definition run_handler (h : handler) : D unit :=
  match h with
  | Qc_execute => let+ box := behind QC_TEXTBOX in refill QC_LISTVIEW (qc_execute_btn mem clock stack (cells 48) (cells 128) (cells 64) box)
  | Qc_template => qc_template
  | Tb_refresh => tb_fill
  | Tb_view_all => let+ l := behind TB_TABLE_LIST in refill TB_DETAIL_LIST (tb_view_all_btn mem clock stack (cells 48) (cells 256) (cells 64) l)
  | Tb_search =>
      let+ l := behind TB_TABLE_LIST in
      let+ box := behind TB_SEARCH_BOX in
      refill TB_DETAIL_LIST (tb_search_btn_cb mem clock stack (cells 48) (cells 512) (cells 64) l box)
  | Pm_refresh => pm_fill
  | Pm_spawn => pm_spawn_monitor
  | Pm_kill => pm_kill_selected
  | Sd_open_audit => open_app Audit_viewer
  | Al_refresh => al_fill
  | Cm_refresh => cm_fill
  | Cm_revoke => refill CM_LISTVIEW (cm_revoke_btn mem clock stack (cells 128) (cells 128) (cells 64) num_of word_of flag_of)
  | Om_refresh => om_fill
  | Om_delete => refill OM_LISTVIEW (om_delete_btn mem clock stack (cells 128) (cells 256) (cells 64) data_of)
  | Vp_new => on_files (fun p _ => ret (vp_new_document p))
  | Vp_open => on_files (fun p pid => vp_open_dialog mem clock stack data_of pid p)
  | Vp_save => on_files (fun p pid => vp_save_doc mem clock stack (cells 600) pid p)
  | Dg_refresh => on_grid (dg_refresh mem clock stack (cells 256) (cells 80))
  | Oi_refresh | Oi_filter => oi_fill
  | Tb_select | Vp_file | Dg_select | Oi_select => dret tt
  end.

(** [on_select(w, win, index)], [i] being the list. *)
Definition run_select (h : handler) (i : nat) (index : Z) : D unit :=
  match h with
  | Tb_select => refill TB_DETAIL_LIST (fun w _ => tb_on_table_select (cells 128) index w)
  | Vp_file => on_pad i (fun p pid => vp_file_selected mem clock stack (cells 512) data_of index pid p)
  | Dg_select => on_grid (dg_table_selected mem clock stack (cells 256) (cells 80) index)
  | Oi_select =>
      let+ lv := widget_no i in
      let+ st := get_apps in
      let+ pid := current_pid in
      let+ n := on_db (oi_on_select mem clock stack (cells 512) data_of num_of lv index pid (a_insp st)) in
      put_apps (Apps (a_calc st) (a_text st) (a_doc_name st) (a_show_open st) (a_grid st) n (a_template st))
  | _ => dret tt
  end.

(** ** Events *)

Definition on_widgets (s : nat) (ev : gui_event) : D unit :=
  let+ u := get_ui in
  let '(p, c) := widget_dispatch text_base (u_pool u) (chain_of u s) ev in
  let+ _ := put_widgets p in
  match c with
  | None => dret tt
  | Some (Click i) => match on_click (widget_at p i) ≫= (handlers !!.) with Some h => run_handler h | None => dfault end
  | Some (Select i idx) => match on_select (widget_at p i) ≫= (handlers !!.) with Some h => run_select h i idx | None => dfault end
  end.

Definition close_window (s : nat) : D unit :=
  let+ u := get_ui in put_ui (Ui (wm_destroy_window (u_wm u) (id (win (u_wm u) s))) (u_pool u) (<[s := []]> (u_chains u)) (u_ptrs u)).

Definition put_text (t : vp) : D unit :=
  let+ st := get_apps in put_apps (Apps (a_calc st) t (a_doc_name st) (a_show_open st) (a_grid st) (a_insp st) (a_template st)).

Definition hide_dialog : D unit :=
  let+ st := get_apps in put_apps (Apps (a_calc st) (a_text st) (a_doc_name st) false (a_grid st) (a_insp st) (a_template st)).

Definition put_grid (g : grid) : D unit :=
  let+ st := get_apps in put_apps (Apps (a_calc st) (a_text st) (a_doc_name st) (a_show_open st) g (a_insp st) (a_template st)).

Definition put_insp (i : inspector) : D unit :=
  let+ st := get_apps in put_apps (Apps (a_calc st) (a_text st) (a_doc_name st) (a_show_open st) (a_grid st) i (a_template st)).

(** [ctrl]: [keyboard_ctrl_held()]. *)
Definition vp_event (ctrl : bool) (s : nat) (ev : gui_event) : D unit :=
  let+ st := get_apps in
  let+ u := get_ui in
  let ch := client_h (win (u_wm u) s) in
  if a_show_open st then
    match ev_type ev with
    | EVT_KEY_DOWN => if key ev =? 27 then hide_dialog else on_widgets s ev
    | _ => on_widgets s ev
    end
  else
    match ev_type ev with
    | EVT_KEY_DOWN =>
        if ctrl then
          match vp_shortcut (key ev) with
          | Save => run_handler Vp_save
          | Close => close_window s
          | New => run_handler Vp_new
          | Nothing => dret tt
          end
        else put_text (vp_key base (a_text st) (vp_visible_rows ch) (key ev))
    | EVT_MOUSE_DOWN =>
        match vp_click (a_text st) ch (mouse_x ev) (mouse_y ev) with
        | Some t => put_text t
        | None => on_widgets s ev
        end
    | _ => on_widgets s ev
    end.

Definition dg_event (s : nat) (ev : gui_event) : D unit :=
  let+ st := get_apps in
  let+ u := get_ui in
  match ev_type ev with
  | EVT_KEY_DOWN => put_grid (dg_key (client_h (win (u_wm u) s)) (key ev) (a_grid st))
  | EVT_MOUSE_DOWN => match dg_click (mouse_x ev) (mouse_y ev) (a_grid st) with Some g => put_grid g | None => on_widgets s ev end
  | _ => on_widgets s ev
  end.

Definition oi_event (s : nat) (ev : gui_event) : D unit :=
  let+ st := get_apps in
  let+ u := get_ui in
  match ev_type ev with
  | EVT_KEY_DOWN => match oi_key (client_h (win (u_wm u) s)) (key ev) (a_insp st) with Some i => put_insp i | None => on_widgets s ev end
  | _ => on_widgets s ev
  end.

Definition calc_window_event (ev : gui_event) : D unit :=
  let+ st := get_apps in
  match calc_event (a_calc st) ev with
  | None => dfault
  | Some c => put_apps (Apps c (a_text st) (a_doc_name st) (a_show_open st) (a_grid st) (a_insp st) (a_template st))
  end.

(** [win->on_event(win, ev)] *)
Definition window_event (ctrl : bool) (a : app) (s : nat) (ev : gui_event) : D unit :=
  match ev_type ev with
  | EVT_CLOSE => close_window s
  | _ =>
      match a with
      | Vaultpad => vp_event ctrl s ev
      | Data_grid => dg_event s ev
      | Object_inspector => oi_event s ev
      | Calculator_app => calc_window_event ev
      | _ => on_widgets s ev
      end
  end.

Definition forward (ctrl : bool) (ev : gui_event) : D unit :=
  let+ u := get_ui in
  let '(st, r) := wm_dispatch_event (u_wm u) ev in
  let+ _ := put_wm st in
  match r with
  | None => dret tt
  | Some (s, ev) => match on_event (win st s) ≫= (app_list !!.) with Some a => window_event ctrl a s ev | None => dfault end
  end.

(** The body of the event loop, for a screen of height [sh]. *)
Definition desktop_event (sh : Z) (ctrl : bool) (ev : gui_event) : D unit := fun s d =>
  match ev_type ev with
  | EVT_MOUSE_DOWN =>
      if i16 (sh - TASKBAR_HEIGHT) <=? mouse_y ev then
        if (2 <=? mouse_x ev) && (mouse_x ev <? 82) then set_menu (negb (menu_open d)) s d
        else
          match taskbar_button (mouse_x ev) (win_count (u_wm (d_ui d))) with
          | Some k => put_wm (taskbar_click (u_wm (d_ui d)) k) s d
          | None => Done (s, d, tt)
          end
      else if menu_open d then
        match menu_hit_test sh (mouse_x ev) (mouse_y ev) with
        | Some idx =>
            match menu_choice idx with
            | Some (Open a) => (let+ _ := set_menu false in open_app a) s d
            | Some Exit => (let+ _ := set_menu false in stop_gui) s d
            | None => set_menu false s d
            end
        | None => (let+ _ := set_menu false in forward ctrl ev) s d
        end
      else forward ctrl ev s d
  | _ => forward ctrl ev s d
  end.

(** The events polled, in turn, with the state of the control key at each. *)
Fixpoint desktop_events (sh : Z) (evs : list (bool * gui_event)) : D unit :=
  match evs with
  | [] => dret tt
  | (ctrl, ev) :: evs => let+ _ := desktop_event sh ctrl ev in desktop_events sh evs
  end.

(** ** Labels that are updated when their window is painted *)

Definition label_text (t : list Z) (w : widget) : widget :=
  let wt := strlcpy (wtext w) t (WIDGET_TEXT_MAX - 1) in
  Widget (wtype w) (wx w) (wy w) (i16 (Z.of_nat (strlen wt) * FONT_WIDTH)) (wh w) wt (wfocused w) (hovered w) (pressed w) (wfg w) (wbg w)
    (on_click w) (cursor_pos w) (text_len w) (lv_items w) (lv_count w) (lv_selected w) (lv_scroll w) (on_select w).

Definition recolor (fg : Z) (w : widget) : widget :=
  Widget (wtype w) (wx w) (wy w) (ww w) (wh w) (wtext w) (wfocused w) (hovered w) (pressed w) fg (wbg w)
    (on_click w) (cursor_pos w) (text_len w) (lv_items w) (lv_count w) (lv_selected w) (lv_scroll w) (on_select w).

Definition on_label (x : ptr) (f : widget -> widget) : D unit :=
  let+ i := deref x in let+ w := widget_no i in put_widget i (f w).

(** Texts formatted in the same array, one after the other. *)
Fixpoint update_labels (label : nat -> ptr) (l : list (nat * (string * list varg))) (buf : list Z) : D (list Z) :=
  match l with
  | [] => dret buf
  | (i, (fmt, args)) :: l =>
      let buf := print_buf buf fmt args in
      let+ _ := on_label (label i) (label_text buf) in
      update_labels label l buf
  end.

Definition rng_name (r : readings) : list Z := cs (if rng_hw r then "Hardware (RDRAND)" else "Software (xorshift128+)").
Definition rng_color (r : readings) : Z := if rng_hw r then 0xFF00CC66 else 0xFFCCCC00.

Definition ss_paint (r : readings) : D unit :=
  let ms := uptime_ms r in
  let+ buf := update_labels SS_LABEL [
    (1%nat, ("Uptime:       %llu.%llus"%string, [AInt (ms / 1000); AInt (ms mod 1000 / 100)]));
    (2%nat, ("Heap Used:    %llu bytes"%string, [AInt (used_mem r)]));
    (3%nat, ("Heap Free:    %llu bytes"%string, [AInt (free_mem r)]));
    (4%nat, ("PMM Pages:    %llu / %llu"%string, [AInt (pmm_free r); AInt (pmm_total r)]));
    (5%nat, ("Tables:       %u (encrypted)"%string, [AInt (table_count r)]));
    (6%nat, ("Capabilities: %llu active"%string, [AInt (cap_count r)]));
    (7%nat, ("RNG Source:   %s"%string, [txt (rng_name r)]))] (cells 64) in
  let+ _ := on_label (SS_LABEL 7) (recolor (rng_color r)) in
  let+ _ := update_labels SS_LABEL [(8%nat, ("Encryption:   AES-128-CBC + HMAC-SHA256"%string, []))] buf in
  dret tt.

Definition sd_paint (r : readings) : D unit :=
  let+ names := on_db table_names in
  let+ buf := update_labels SD_LABEL (imap (fun i n => ((3 + i)%nat, ("  %-18s SEALED"%string, [txt n]))) (take 6 names)) (cells 64) in
  let+ buf := update_labels SD_LABEL [
    (11%nat, ("Active Tokens: %llu"%string, [AInt (cap_count r)]));
    (12%nat, ("RNG: %s"%string, [txt (rng_name r)]))] buf in
  let+ _ := on_label (SD_LABEL 12) (recolor (rng_color r)) in
  let+ pid := current_pid in
  let+ ar := on_db (db_execute mem clock stack (cs "SELECT * FROM AuditTable") pid) in
  let audit_count := match ar with Some r => Z.of_nat (row_count r) | None => 0 end in
  let+ _ := update_labels SD_LABEL [(13%nat, ("Audit Events: %u logged"%string, [AInt audit_count]))] buf in
  dret tt.
End desktop.
