(* ===== verification/DesktopSpec.v ===== *)
(** * The desktop leads every press to its handler

    A window opened from the menu has its controls in it, none hides a button,
    filling its list leaves them in place, and a press on a button reaches, through the event loop,
    the window manager and the chain of widgets, the button's own handler. *)

From Stdlib Require Import String.
From stdpp Require Import sets.
From S2P Require Import Prelude CLib Errors Random Aes Record Btree Cap Database Printf Heap Klist Sched Query QuerySpec QueryWrites Client Stored.
From S2P Require Import Ring Keyboard Mouse Event Font Pixels TextBuf Window WindowSpec Widgets Graphics Calculator VaultPad Tui Shell ShellSpec Document DataWindows Desktop.

(** ** Controls and the widgets made of them *)

Definition control_type (c : control) : widget_type :=
  match c with Label _ _ _ _ _ => W_LABEL | Button _ _ _ _ _ _ => W_BUTTON | Textbox _ _ _ _ _ => W_TEXTBOX | Listview _ _ _ _ _ _ => W_LISTVIEW end.

(** Column, row, width and height. *)
Definition control_box (c : control) : Z * Z * Z * Z :=
  match c with
  | Label cx cy t _ _ => (i16 cx, i16 cy, i16 (Z.of_nat (strlen (cs t)) * FONT_WIDTH), FONT_HEIGHT)
  | Button cx cy w h _ _ | Textbox cx cy w h _ | Listview cx cy w h _ _ => (i16 cx, i16 cy, i16 w, i16 h)
  end.

Definition control_click (c : control) : option nat := match c with Button _ _ _ _ _ k => Some (handler_no k) | _ => None end.

Definition widget_box (w : widget) : Z * Z * Z * Z := (wx w, wy w, ww w, wh w).

(** The widget is the control, whatever its text and its state. *)
Definition looks (c : control) (w : widget) : Prop := wtype w = control_type c /\ widget_box w = control_box c /\ on_click w = control_click c.

Lemma on_widget_new p w f : length (widget_pool p) = MAX_WIDGETS -> (widget_count p < MAX_WIDGETS)%nat ->
  on_widget f (widget_count p) (Pool (<[widget_count p := w]> (widget_pool p)) (S (widget_count p))) =
  Pool (<[widget_count p := f w]> (widget_pool p)) (S (widget_count p)).
Proof.
  intros Hl Hc. unfold on_widget. cbn [widget_pool]. f_equal. apply list_eq. intros i.
  destruct (decide (i = widget_count p)) as [->|Hne].
  - rewrite list_lookup_alter_eq, !list_lookup_insert_eq by lia. done.
  - rewrite list_lookup_alter_ne, !list_lookup_insert_ne by done. done.
Qed.

Section placing.
Context (data : nat -> list (list Z)).

Lemma create_looks c p : length (widget_pool p) = MAX_WIDGETS -> (widget_count p < MAX_WIDGETS)%nat ->
  exists w, create data c p = Done (Pool (<[widget_count p := w]> (widget_pool p)) (S (widget_count p)), Some (widget_count p)) /\ looks c w.
Proof.
  intros Hl Hc. assert ((MAX_WIDGETS <=? widget_count p)%nat = false) as Hb by (by apply Nat.leb_gt).
  destruct c as [cx cy t fg bg|cx cy w h t k|cx cy w h use|cx cy w h arr sel]; cbn [create];
    unfold widget_create_label, widget_create_button, widget_create_textbox, widget_create_listview, alloc_widget; rewrite Hb; cbv iota beta.
  - by eexists.
  - by eexists.
  - destruct use; [by eexists|rewrite on_widget_new by done; by eexists..].
  - rewrite on_widget_new by done. by eexists.
Qed.

Lemma place_looks l : forall p chain ps, length (widget_pool p) = MAX_WIDGETS -> (widget_count p + length l <= MAX_WIDGETS)%nat ->
  exists p' ps', place data l p chain ps = Done (p', rev (seq (widget_count p) (length l)) ++ chain, ps') /\
    length (widget_pool p') = MAX_WIDGETS /\
    (forall j, (j < widget_count p)%nat -> widget_at p' j = widget_at p j) /\
    (forall j dest c, l !! j = Some (dest, c) -> looks c (widget_at p' (widget_count p + j))).
Proof.
  induction l as [|[dest c] l IH]; intros p chain ps Hl Hc; cbn [length place seq rev] in *.
  { exists p, ps. split_and!; [done|done|done|]. intros j dest c H. by rewrite lookup_nil in H. }
  destruct (create_looks c p Hl) as (w & -> & Hw); [lia|]. cbn [widget_add].
  edestruct (IH (Pool (<[widget_count p := w]> (widget_pool p)) (S (widget_count p))) (widget_count p :: chain)) as (p' & ps' & -> & Hl' & Hlow & Hlooks);
    [cbn [widget_pool]; by rewrite length_insert|cbn [widget_count]; lia|].
  exists p', ps'. cbn [widget_count] in *. split_and!.
  - by rewrite <- app_assoc.
  - done.
  - intros j Hj. rewrite Hlow by lia. unfold widget_at. cbn [widget_pool]. rewrite !nth_lookup, list_lookup_insert_ne by lia. done.
  - intros [|j] dest' c' Hj; cbn [lookup list_lookup] in Hj.
    + injection Hj as <- <-. rewrite Nat.add_0_r, Hlow by lia. unfold widget_at. cbn [widget_pool].
      by rewrite nth_lookup, list_lookup_insert_eq by lia.
    + rewrite Nat.add_succ_r. by apply (Hlooks j dest').
Qed.
End placing.

(** ** Pressing *)

Definition in_box (b : Z * Z * Z * Z) (px py : Z) : bool :=
  let '(bx, by', bw, bh) := b in (bx <=? px) && (px <? bx + bw) && (by' <=? py) && (py <? by' + bh).

Lemma widget_hit_box w px py : widget_hit w px py = in_box (widget_box w) px py.
Proof. done. Qed.

Definition apart (b b' : Z * Z * Z * Z) : bool :=
  let '(bx, by', bw, bh) := b in
  let '(cx, cy, cw, ch) := b' in
  (bx + bw <=? cx) || (cx + cw <=? bx) || (by' + bh <=? cy) || (cy + ch <=? by').

Lemma apart_spec b b' px py : apart b b' = true -> in_box b px py = true -> in_box b' px py = false.
Proof. destruct b as [[[bx b0] bw] bh], b' as [[[cx cy] cw] ch]. unfold apart, in_box. lia. Qed.

(** No control covers an older one that is a button; all are in the client area. *)
Fixpoint laid_out (cw ch : Z) (l : list control) : bool :=
  match l with
  | [] => true
  | c :: l =>
      let '(bx, by', bw, bh) := control_box c in
      (0 <=? bx) && (bx + bw <=? cw) && (0 <=? by') && (by' + bh <=? ch) &&
      (match c with Button _ _ _ _ _ _ => forallb (fun c' => apart (control_box c) (control_box c')) l | _ => true end) && laid_out cw ch l
  end.

Lemma laid_out_button cw ch l j cx cy w h t k : laid_out cw ch l = true -> l !! j = Some (Button cx cy w h t k) ->
  forall px py, in_box (control_box (Button cx cy w h t k)) px py = true ->
  0 <= px < cw /\ 0 <= py < ch /\ (forall j' c', (j < j')%nat -> l !! j' = Some c' -> in_box (control_box c') px py = false).
Proof.
  revert j. induction l as [|c l IH]; intros j Hl Hj px py Hin; [by rewrite lookup_nil in Hj|]. cbn [laid_out] in Hl.
  destruct (control_box c) as [[[bx b0] bw] bh] eqn:Ec. rewrite !andb_true_iff in Hl. destruct Hl as (((((H1 & H2) & H3) & H4) & H5) & H6).
  destruct j as [|j]; cbn [lookup list_lookup] in Hj.
  - injection Hj as ->. rewrite Ec in Hin.
    assert (0 <= px < cw /\ 0 <= py < ch) as [Hx Hy] by (unfold in_box in Hin; lia). split; [exact Hx|]. split; [exact Hy|].
    intros [|j'] c' Hlt Hj'; [lia|]. cbn [lookup list_lookup] in Hj'. apply (apart_spec (bx, b0, bw, bh)); [|exact Hin].
    apply (proj1 (forallb_forall _ _) H5). apply list_elem_of_In. by eapply list_elem_of_lookup_2.
  - destruct (IH j H6 Hj px py Hin) as (Hx & Hy & Hz). split; [exact Hx|]. split; [exact Hy|].
    intros [|j'] c' Hlt Hj'; [lia|]. apply (Hz j'); [lia|exact Hj'].
Qed.

(** Every application. *)
Lemma layouts_laid_out a : let '(_, (_, _, w, h)) := frame_of a in laid_out (w - 2) (h - 22) (map snd (layout a (w - 2) (h - 22))) = true.
Proof. destruct a; vm_compute; reflexivity. Qed.

(** Flags do not move widgets. *)
Lemma on_chain_same (f : widget -> widget) p chain (Q : widget -> widget -> Prop) :
  (forall w, Q w w) -> (forall w w', Q w w' -> Q w (f w')) ->
  length (widget_pool (on_chain f p chain)) = length (widget_pool p) /\ widget_count (on_chain f p chain) = widget_count p /\
  forall i, Q (widget_at p i) (widget_at (on_chain f p chain) i).
Proof.
  intros Hr Hs. unfold on_chain.
  assert (forall q, length (widget_pool q) = length (widget_pool p) -> widget_count q = widget_count p -> (forall i, Q (widget_at p i) (widget_at q i)) ->
    let q' := foldl (fun p i => on_widget f i p) q chain in
    length (widget_pool q') = length (widget_pool p) /\ widget_count q' = widget_count p /\ forall i, Q (widget_at p i) (widget_at q' i)) as Hg.
  { induction chain as [|i chain IH]; intros q H1 H2 H3; cbn [foldl]; [by split_and!|]. apply IH.
    - unfold on_widget. cbn [widget_pool]. by rewrite length_alter.
    - done.
    - intros j. unfold on_widget, widget_at. cbn [widget_pool]. rewrite (nth_lookup (alter _ _ _)). destruct (decide (j = i)) as [->|Hne].
      + rewrite list_lookup_alter_eq. specialize (H3 i). unfold widget_at in H3. rewrite (nth_lookup (widget_pool q)) in H3.
        destruct (widget_pool q !! i); cbn in *; [by apply Hs|done].
      + rewrite list_lookup_alter_ne by done. specialize (H3 j). unfold widget_at in H3. rewrite (nth_lookup (widget_pool q)) in H3. done. }
  by apply Hg.
Qed.

Definition same_look (w w' : widget) : Prop := wtype w' = wtype w /\ widget_box w' = widget_box w /\ on_click w' = on_click w.

Lemma unfocus_look p chain : let p' := on_chain unfocus p chain in
  length (widget_pool p') = length (widget_pool p) /\ widget_count p' = widget_count p /\ forall i, same_look (widget_at p i) (widget_at p' i).
Proof.
  apply on_chain_same; [done|]. intros w w' (E1 & E2 & E3). unfold unfocus. by destruct (decide (wtype w' = W_TEXTBOX)).
Qed.

(** The first of a chain that was built by adding in front. *)
Lemma find_newest (f : nat -> bool) n k j : (j < k)%nat -> f (n + j)%nat = true -> (forall j', (j < j' < k)%nat -> f (n + j')%nat = false) ->
  List.find f (rev (seq n k)) = Some (n + j)%nat.
Proof.
  intros Hj Hf Hlater. induction k as [|k IH]; [lia|]. rewrite seq_S, rev_app_distr. cbn [rev Datatypes.app List.find].
  destruct (decide (j = k)) as [->|Hne]; [by rewrite Hf|]. rewrite Hlater by lia. apply IH; [lia|]. intros; apply Hlater. lia.
Qed.

(** A press on a button, in a window with the controls of a layout. *)
Lemma press_button p n (l : list (option ptr * control)) cw ch j cx cy w h t k px py :
  length (widget_pool p) = MAX_WIDGETS -> (n + length l <= MAX_WIDGETS)%nat ->
  (forall j dest c, l !! j = Some (dest, c) -> looks c (widget_at p (n + j))) -> laid_out cw ch (map snd l) = true ->
  map snd l !! j = Some (Button cx cy w h t k) -> in_box (control_box (Button cx cy w h t k)) px py = true ->
  exists p', widget_press p (rev (seq n (length l))) px py = (p', Some (Click (n + j)%nat)) /\ on_click (widget_at p' (n + j)) = Some (handler_no k).
Proof.
  intros Hl Hn Hlooks Hlay Hj Hin. destruct (laid_out_button _ _ _ _ _ _ _ _ _ _ Hlay Hj px py Hin) as (_ & _ & Hclear).
  unfold widget_press. destruct (unfocus_look p (rev (seq n (length l)))) as (L1 & _ & Hsame). set (p1 := on_chain unfocus p _) in *.
  assert (forall j c, map snd l !! j = Some c -> looks c (widget_at p1 (n + j))) as Hlooks1.
  { intros j' c Hc. rewrite list_lookup_fmap in Hc. destruct (l !! j') as [[dest c']|] eqn:E; cbn in Hc; [|done]. injection Hc as ->.
    destruct (Hlooks j' dest c E) as (E1 & E2 & E3). destruct (Hsame (n + j')%nat) as (F1 & F2 & F3). by rewrite <- F1, <- F2, <- F3 in *. }
  assert (j < length l)%nat as Hjl by (rewrite <- (length_map snd); by eapply lookup_lt_Some).
  unfold find_widget. rewrite (find_newest _ n (length l) j Hjl).
  - destruct (Hlooks1 j _ Hj) as (E1 & E2 & E3). cbn [control_type control_click] in *. rewrite E1, E3. eexists. split; [reflexivity|].
    unfold on_widget, widget_at. cbn [widget_pool]. rewrite (nth_lookup (alter _ _ _)), list_lookup_alter_eq.
    unfold widget_at in E3. rewrite (nth_lookup (widget_pool p1)) in E3. destruct (widget_pool p1 !! (n + j)%nat) eqn:Ep; [exact E3|].
    apply lookup_ge_None in Ep. lia.
  - rewrite widget_hit_box. destruct (Hlooks1 j _ Hj) as (_ & -> & _). exact Hin.
  - intros j' Hj'. destruct (map snd l !! j') as [c|] eqn:Ec; [|apply lookup_ge_None in Ec; rewrite length_map in Ec; lia].
    rewrite widget_hit_box. destruct (Hlooks1 j' c Ec) as (_ & -> & _). apply (Hclear j'); [lia|exact Ec].
Qed.

(** ** From the screen to the window *)

Lemma top_dispatch st l s n ev px py : wm_ok st -> z_order st = l ++ [s] -> visible (win st s) = true -> on_event (win st s) = Some n ->
  let w := win st s in
  client_w w = width w - 2 -> client_h w = height w - 22 -> 0 <= px < client_w w -> 0 <= py < client_h w -> client_w w < 2 ^ 15 -> client_h w < 2 ^ 15 ->
  ev_type ev = EVT_MOUSE_DOWN -> mouse_x ev = x w + 1 + px -> mouse_y ev = y w + 21 + py ->
  wm_dispatch_event st ev = (st, Some (s, GuiEv EVT_MOUSE_DOWN px py (mouse_button ev) (mouse_buttons ev) (key ev) (id w))).
Proof.
  intros Hok Hz Hv Hon w Hcw Hch Hpx Hpy Hw15 Hh15 Hty Hmx Hmy. unfold wm_dispatch_event. rewrite Hty. unfold mouse_down.
  assert (hit_window w (mouse_x ev) (mouse_y ev) = true) as Hhit by (unfold hit_window; rewrite Hmx, Hmy; lia).
  unfold from_top. rewrite find_rev_last, Hz, last_filter_snoc by (unfold w in Hhit; by rewrite Hv, Hhit).
  assert (wm_bring_to_front st (id (win st s)) = st) as ->.
  { destruct (z_index_self st s Hok) as (l1 & l2 & Hz' & E); [rewrite Hz; set_solver|]. unfold wm_bring_to_front. rewrite E. unfold win_count.
    assert (length l1 = length l) as El.
    { rewrite Hz in Hz'. pose proof (wo_nodup _ Hok) as Hn. rewrite Hz in Hn. 
      pose proof (NoDup_lookup _ (length l1) (length l) s Hn) as Hu. apply Hu; [rewrite Hz'; apply list_lookup_middle; reflexivity|apply list_lookup_middle; reflexivity]. }
    rewrite Hz, length_app. cbn [length]. replace (length l1 =? length l + 1 - 1)%nat with true by (symmetry; apply Nat.eqb_eq; lia). done. }
  fold w. cbv zeta. unfold hit_close_button, hit_minimize_button, hit_titlebar. rewrite Hmx, Hmy. unfold TITLEBAR_HEIGHT, BORDER_WIDTH.
  rewrite (proj2 (Z.ltb_ge (y w + 21 + py) (y w + 20))) by lia. rewrite !andb_false_r.
  replace (x w + 1 + px - x w - 1) with px by lia. replace (y w + 21 + py - y w - 20 - 1) with py by lia.
  assert (i16 px = px) as -> by (unfold i16; lia). assert (i16 py = py) as -> by (unfold i16; lia).
  rewrite !(proj2 (Z.leb_le 0 _)), !(proj2 (Z.ltb_lt _ _)) by lia. cbn [andb]. unfold deliver. by rewrite Hon, Hty.
Qed.

(** A new window, with its place and its callback. *)
Lemma create_geometry st t px py w h n ok st' s : wm_ok st -> 0 < next_id st < 2 ^ 32 - 1 -> 22 < h < 2 ^ 15 -> 2 < w < 2 ^ 15 ->
  wm_create_window st t px py w h (Some n) (Some n) ok = (st', Some s) ->
  let win' := win st' s in
  x win' = px /\ y win' = py /\ width win' = w /\ height win' = h /\ client_w win' = w - 2 /\ client_h win' = h - 22 /\ on_event win' = Some n.
Proof.
  intros Hok Hn Hh Hw. unfold wm_create_window. destruct (_ <=? _)%nat; [done|].
  destruct (free_slot (windows st)) as [i|] eqn:E; [|done].
  destruct (free_slot_Some _ _ E) as [Hi Hid]. rewrite (wo_len _ Hok) in Hi. fold (win st i) in Hid.
  assert (i ∉ z_order st) as Hz by (intros H; pose proof (wo_id _ Hok i H); lia).
  rewrite (wo_free _ Hok i Hi Hz). set (new := Window _ _ _ _ _ _ _ _ _ _ _ _ _ _ _ _ _ _ _).
  pose proof (wm_enter_ok st i new Hok Hi Hz (proj2 Hn) eq_refl (proj1 Hn) eq_refl) as Hok1. cbv zeta.
  set (st1 := Wm _ _ _) in *.
  assert (i ∈ z_order st1) as Hi1 by (apply elem_of_app; right; by apply list_elem_of_singleton).
  destruct (focus_moves st1 i Hok1 Hi1) as (_ & _ & Hwin).
  assert (win st1 i = new) as Ei.
  { unfold win, st1. cbn [windows]. rewrite nth_lookup, list_lookup_insert_eq; [done|]. by rewrite (wo_len _ Hok). }
  intros [= <- <-]. rewrite (Hwin i Hi1), Ei. unfold new. cbn [set_focused x y width height client_w client_h on_event]. unfold TITLEBAR_HEIGHT, BORDER_WIDTH, wrap.
  rewrite !Z.mod_small by lia. split_and!; try reflexivity; lia.
Qed.

(** ** Opening a window *)

Lemma free_slot_None ws : free_slot ws = None -> Forall (fun w => id w <> 0) ws.
Proof.
  induction ws as [|w ws IH]; [by constructor|]. cbn [free_slot]. destruct (Z.eqb_spec (id w) 0) as [|E]; [done|].
  destruct (free_slot ws); [done|]. intros _. constructor; [done|by apply IH].
Qed.

Lemma free_slot_exists st : wm_ok st -> (win_count st < MAX_WINDOWS)%nat -> exists i, free_slot (windows st) = Some i.
Proof.
  intros Hok Hc. destruct (free_slot (windows st)) as [i|] eqn:E; [by exists i|]. apply free_slot_None in E.
  assert (seq 0 MAX_WINDOWS ⊆+ z_order st) as Hsub.
  { apply NoDup_submseteq; [apply NoDup_seq|]. intros i [_ Hi]%elem_of_seq. destruct (decide (i ∈ z_order st)) as [H|Hno]; [done|]. exfalso.
    pose proof (wo_free _ Hok i ltac:(lia) Hno) as Hw. unfold win in Hw. rewrite nth_lookup in Hw.
    destruct (windows st !! i) as [w|] eqn:Ew; [|apply lookup_ge_None in Ew; rewrite (wo_len _ Hok) in Ew; lia].
    cbn in Hw. subst w. by apply (proj1 (Forall_lookup _ _) E i no_window Ew). }
  apply submseteq_length in Hsub. rewrite length_seq in Hsub. unfold win_count in Hc. lia.
Qed.

Record ui_ok (u : ui) : Prop := {
  uo_wm : wm_ok (u_wm u);
  uo_ids : 0 < next_id (u_wm u) < 2 ^ 32 - 1;
  uo_pool : length (widget_pool (u_pool u)) = MAX_WIDGETS;
  uo_chains : length (u_chains u) = MAX_WINDOWS
}.

(** Room for a window and for [n] widgets. *)
Definition room (u : ui) (n : nat) : Prop := (win_count (u_wm u) < MAX_WINDOWS)%nat /\ (widget_count (u_pool u) + n <= MAX_WIDGETS)%nat.

(** The window of the application is on top, with the controls of its layout in
    the pool from [n] on. *)
Record shows (a : app) (u : ui) (s n : nat) : Prop := {
  sw_wm : wm_ok (u_wm u);
  sw_top : exists l, z_order (u_wm u) = l ++ [s];
  sw_visible : visible (win (u_wm u) s) = true;
  sw_event : on_event (win (u_wm u) s) = Some (app_no a);
  sw_place : let w := win (u_wm u) s in let f := (frame_of a).2 in (x w, y w, width w, height w) = f /\ client_w w = width w - 2 /\ client_h w = height w - 22;
  sw_pool : length (widget_pool (u_pool u)) = MAX_WIDGETS;
  sw_chain : let w := win (u_wm u) s in let l := layout a (client_w w) (client_h w) in
    chain_of u s = rev (seq n (length l)) /\ (n + length l <= MAX_WIDGETS)%nat /\
    forall j dest c, l !! j = Some (dest, c) -> looks c (widget_at (u_pool u) (n + j))
}.

Definition controls (a : app) : list (option ptr * control) := let '(_, (_, _, w, h)) := frame_of a in layout a (w - 2) (h - 22).

Section opening.
Context (data : nat -> list (list Z)) (canvas_ok : bool).

Lemma frame_sizes a : let '(_, (_, _, w, h)) := frame_of a in 2 < w < 2 ^ 15 /\ 22 < h < 2 ^ 15.
Proof. destruct a; cbn; lia. Qed.

Lemma show_app_shows a s d : ui_ok (d_ui d) -> room (d_ui d) (length (controls a)) ->
  exists d1 i, show_app data canvas_ok a s d = Done (s, d1, Some i) /\ shows a (d_ui d1) i (widget_count (u_pool (d_ui d))) /\
    d_apps d1 = reset a (d_apps d) /\ menu_open d1 = menu_open d /\ gui_running d1 = gui_running d.
Proof.
  intros [Hok Hn Hp Hc] [Hroom Hw]. unfold show_app, open_window, dbind, get_apps, put_apps, get_ui. cbn [d_ui d_apps menu_open gui_running].
  unfold controls in Hw. pose proof (frame_sizes a) as Hsz. destruct (frame_of a) as [t [[[px py] w] h]] eqn:Ef. destruct Hsz as [Hwd Hht].
  pose proof (create_spec (u_wm (d_ui d)) (cs t) px py w h (Some (app_no a)) (Some (app_no a)) canvas_ok Hok Hn) as Hs.
  destruct (wm_create_window (u_wm (d_ui d)) (cs t) px py w h (Some (app_no a)) (Some (app_no a)) canvas_ok) as [st r] eqn:E.
  destruct r as [i|].
  2:{ exfalso. destruct (free_slot_exists _ Hok Hroom) as [i Hi]. unfold wm_create_window in E. rewrite Hi in E.
      rewrite (proj2 (Nat.leb_gt _ _)) in E by exact Hroom. discriminate E. }
  destruct Hs as (Hok' & _ & Hi & Hz & _ & Hv & _).
  destruct (create_geometry _ _ _ _ _ _ _ _ _ _ Hok Hn Hht Hwd E) as (G1 & G2 & G3 & G4 & G5 & G6 & G7).
  rewrite G5, G6. unfold lift.
  destruct (place_looks data (layout a (w - 2) (h - 22)) (u_pool (d_ui d)) [] (u_ptrs (d_ui d)) Hp Hw) as (p & ps & -> & Hp' & _ & Hl).
  rewrite app_nil_r. unfold put_ui, dret. cbn [d_ui d_apps menu_open gui_running].
  assert (i < MAX_WINDOWS)%nat as Hlt by (apply (win_slot_lt st); [exact Hok'|rewrite Hz; set_solver]).
  eexists _, i. split; [reflexivity|]. cbn [d_ui d_apps menu_open gui_running]. split; [|by split_and!].
  constructor; cbn [u_wm u_pool u_chains]; [exact Hok'|by exists (z_order (u_wm (d_ui d)))|exact Hv|exact G7| |exact Hp'|].
  - rewrite Ef. cbn [snd]. rewrite G1, G2, G3, G4, G5, G6. by split_and!.
  - cbv zeta. rewrite G5, G6. split; [|split; [exact Hw|exact Hl]]. unfold chain_of. cbn [u_chains].
    rewrite nth_lookup, list_lookup_insert_eq; [reflexivity|by rewrite Hc].
Qed.
End opening.

(** ** Filling a list leaves the controls in place *)

(** A function that computes a widget keeps the look of [w]. *)
Definition keeps_look (w : widget) (m : M widget) : Prop := forall q q' w', m q = Done (q', w') -> same_look w w'.

Lemma keeps_ret w w' : same_look w w' -> keeps_look w (ret w').
Proof. intros H q q' w'' [= _ <-]. exact H. Qed.

Lemma keeps_bind {A} w (m : M A) k : (forall a, keeps_look w (k a)) -> keeps_look w (bind m k).
Proof. intros Hk q q' w'. unfold bind. destruct (m q) as [ [q1 a]| | ]; [apply Hk|done|done]. Qed.

Lemma keeps_bind_widget w (m : M widget) k : keeps_look w m -> (forall w', same_look w w' -> keeps_look w (k w')) -> keeps_look w (bind m k).
Proof. intros Hm Hk q q' w'. unfold bind. destruct (m q) as [ [q1 w1]| | ] eqn:E; [apply Hk; by eapply Hm|done|done]. Qed.

Lemma clear_look w w' : same_look w w' -> same_look w (listview_clear w').
Proof. done. Qed.

Lemma add_item_look t w w' : same_look w w' -> same_look w (listview_add_item t w').
Proof. intros H. unfold listview_add_item. destruct (lv_items w'); [|done]. by destruct (_ <=? _)%nat. Qed.

Lemma add_items_look l : forall w w', same_look w w' -> same_look w (add_items l w').
Proof. induction l as [|t l IH]; intros w w' H; [done|]. cbn. apply IH. by apply add_item_look. Qed.

Create HintDb look.
#[local] Hint Resolve keeps_ret keeps_bind keeps_bind_widget clear_look add_item_look add_items_look : look.

(** A loop that adds a line for each of a list of rows. *)
Lemma keeps_loop {A} (loop : list A -> widget -> M widget) w :
  (forall lv, loop [] lv = ret lv) ->
  (forall x l lv, (exists line, loop (x :: l) lv = bind line (fun t => loop l (listview_add_item t lv))) \/ loop (x :: l) lv = loop l lv) ->
  forall l lv, same_look w lv -> keeps_look w (loop l lv).
Proof.
  intros H0 H1. induction l as [|x l IH]; intros lv Hl; [rewrite H0; by apply keeps_ret|].
  destruct (H1 x l lv) as [(line & ->)|E]; [|rewrite E; by apply IH]. apply keeps_bind. intros t. by apply IH, add_item_look.
Qed.

Section filling.
Context `{Hw, AesNi}.
Context (mem : nat -> nat -> bool) (clock : nat -> Z) (stack : nat -> nat -> list Z).
Context (cells : nat -> list Z).
Context (data_of : field_value -> list Z) (num_of word_of : field_value -> Z) (flag_of : field_value -> bool).

Lemma summary_look sum0 fmt n w w' : same_look w w' -> keeps_look w (add_summary sum0 fmt n w').
Proof. intros Hl. unfold add_summary. auto with look. Qed.
#[local] Hint Resolve summary_look : look.

Lemma object_lines_look l : forall line w w', same_look w w' -> keeps_look w (object_lines data_of l line w').
Proof.
  induction l as [|row l IH]; intros line w w' Hl; cbn [object_lines]; [by apply keeps_ret|]. apply keeps_bind. intros t. by apply IH, add_item_look.
Qed.

Lemma refresh_looks w box pid :
  keeps_look w (pm_refresh mem clock stack (cells 48) (cells 64) w pid) /\ keeps_look w (tb_refresh_btn w) /\
  keeps_look w (al_refresh mem clock stack (cells 128) (cells 64) data_of num_of box w pid) /\
  keeps_look w (cm_refresh mem clock stack (cells 128) (cells 64) num_of word_of flag_of w pid) /\
  keeps_look w (om_refresh mem clock stack (cells 128) (cells 64) data_of w pid) /\
  keeps_look w (bind table_names (fun l => ret (add_items l w))) /\
  keeps_look w (oi_refresh mem clock stack (cells 128) data_of box w pid).
Proof.
  assert (same_look w w) as Hw0 by done. pose proof (clear_look w w Hw0) as Hw1.
  split_and!; apply keeps_bind; intros r; try (auto with look; fail).
  - unfold populate_listview_from_result. destruct r as [r|]; [|done]. destruct (negb _); [auto with look|]. apply keeps_bind_widget; [|auto with look].
    apply keeps_loop; [done| |done]. intros x l lv. left. by eexists.
  - destruct r as [r|]; [|auto with look]. destruct (_ =? _)%nat; [auto with look|]. apply keeps_bind_widget; [|auto with look].
    apply (keeps_loop (fun l => event_lines _ _ _ l _)); [done| |done]. intros x l lv. cbn [event_lines]. destruct (passes _ _ _); [left; by eexists|by right].
  - destruct r as [r|]; [|auto with look]. destruct (_ =? _)%nat; [auto with look|]. apply keeps_bind_widget; [|auto with look].
    apply keeps_loop; [done| |auto with look]. intros x l lv. left. by eexists.
  - destruct r as [r|]; [|auto with look]. destruct (_ =? _)%nat; [auto with look|]. apply keeps_bind_widget; [|auto with look].
    apply object_lines_look. auto with look.
  - destruct r as [r|]; [|auto with look]. apply (keeps_loop (fun l => item_lines _ _ l _)); [done| |done].
    intros x l lv. cbn [item_lines]. destruct (passes _ _ _); [left; by eexists|by right].
Qed.

(** What a fill leaves of the desktop. *)
Definition same_but_texts (d d' : desktop) : Prop :=
  u_wm (d_ui d') = u_wm (d_ui d) /\ u_chains (d_ui d') = u_chains (d_ui d) /\ u_ptrs (d_ui d') = u_ptrs (d_ui d) /\
  length (widget_pool (u_pool (d_ui d'))) = length (widget_pool (u_pool (d_ui d))) /\
  (forall i, same_look (widget_at (u_pool (d_ui d)) i) (widget_at (u_pool (d_ui d')) i)) /\
  d_apps d' = d_apps d /\ menu_open d' = menu_open d /\ gui_running d' = gui_running d.

Lemma refill_same x f s d s' d' r : (forall w pid, keeps_look w (f w pid)) -> refill x f s d = Done (s', d', r) -> same_but_texts d d'.
Proof.
  intros Hf. unfold refill, deref, dbind, get_ui. destruct (u_ptrs (d_ui d) x) as [i|]; [|done].
  unfold dret, widget_no, dbind, get_ui, current_pid, on_db, dret. set (w := widget_at (u_pool (d_ui d)) i).
  destruct (f w (my_pid s) (sh_q s)) as [ [q w']| | ] eqn:E; [|done|done]. apply Hf in E.
  unfold put_widget, put_widgets, dbind, get_ui, put_ui. intros [= _ <- _]. unfold same_but_texts. cbn [d_ui d_apps menu_open gui_running u_wm u_chains u_ptrs u_pool].
  split_and!; try done; [by apply length_alter|]. intros j. unfold widget_at, on_widget. cbn [widget_pool]. rewrite (nth_lookup (alter _ _ _)).
  destruct (decide (i = j)) as [->|Hne].
  - rewrite list_lookup_alter_eq. unfold w, widget_at in E. rewrite nth_lookup in *. by destruct (widget_pool _ !! j).
  - rewrite list_lookup_alter_ne by done. rewrite nth_lookup. done.
Qed.

Lemma first_fill_same a s d s' d' r : first_fill mem clock stack cells data_of num_of word_of flag_of a s d = Done (s', d', r) -> same_but_texts d d'.
Proof.
  assert (forall x (k : widget -> D unit), (forall w s1, k w s1 d = Done (s', d', r) -> same_but_texts d d') ->
    dbind (behind x) k s d = Done (s', d', r) -> same_but_texts d d') as Hb.
  { intros x k Hk. unfold behind, deref, dbind, get_ui. destruct (u_ptrs (d_ui d) x) as [i|]; [|done]. apply Hk. }
  assert (forall w box pid, _) as Hl by (intros w box pid; exact (refresh_looks w box pid)).
  destruct a; cbn [first_fill]; try (intros [= _ <- _]; by split_and!).
  - apply refill_same. intros w pid. apply (Hl w w pid).
  - apply refill_same. intros w pid. apply (Hl w w pid).
  - apply Hb. intros box s1. apply refill_same. intros w pid. apply (Hl w box pid).
  - apply Hb. intros box s1. apply refill_same. intros w pid. apply (Hl w box pid).
  - apply refill_same. intros w pid. apply (Hl w w pid).
  - apply refill_same. intros w pid. apply (Hl w w pid).
  - apply refill_same. intros w pid. apply (Hl w w pid).
Qed.

Lemma shows_same a d d' i n : same_but_texts d d' -> shows a (d_ui d) i n -> shows a (d_ui d') i n.
Proof.
  intros (E1 & E2 & E3 & E4 & E5 & _) [H1 H2 H3 H4 H5 H6 H7]. constructor; rewrite ?E1; [exact H1|exact H2|exact H3|exact H4|exact H5|by rewrite E4|].
  cbv zeta in *. destruct H7 as (K1 & K2 & K3). unfold chain_of in *. rewrite E2. split; [exact K1|]. split; [exact K2|].
  intros j dest c Hj. destruct (K3 j dest c Hj) as (L1 & L2 & L3). destruct (E5 (n + j)%nat) as (F1 & F2 & F3). split_and!; congruence.
Qed.
End filling.

(** ** From the window to the handler *)

Definition with_widgets (p : widgets) (d : desktop) : desktop :=
  Desktop (Ui (u_wm (d_ui d)) p (u_chains (d_ui d)) (u_ptrs (d_ui d))) (d_apps d) (menu_open d) (gui_running d).

Lemma handler_no_inv k : handlers !! handler_no k = Some k.
Proof. by destruct k. Qed.

Lemma app_no_inv a : app_list !! app_no a = Some a.
Proof. by destruct a. Qed.

Definition button_within (mx my : Z) (c : control) : bool :=
  match c with
  | Button _ _ _ _ _ _ => let '(bx, by', bw, bh) := control_box c in (bx + bw <=? mx) && (by' + bh <=? my)
  | _ => true
  end.

Lemma buttons_within mx my (l : list (option ptr * control)) j dest cx cy w h t k px py : forallb (fun dc => button_within mx my dc.2) l = true ->
  l !! j = Some (dest, Button cx cy w h t k) -> in_box (control_box (Button cx cy w h t k)) px py = true -> px < mx /\ py < my.
Proof.
  intros Hl Hj Hin. apply list_elem_of_lookup_2, list_elem_of_In in Hj. apply (proj1 (forallb_forall _ _) Hl) in Hj. cbn [snd button_within control_box] in Hj.
  unfold in_box in Hin. cbn [control_box] in Hin. lia.
Qed.

Section running.
Context `{Hw, AesNi}.
Context (mem : nat -> nat -> bool) (clock : nat -> Z) (stack : nat -> nat -> list Z).
Context (cells : nat -> list Z).
Context (data_of : field_value -> list Z) (num_of word_of : field_value -> Z) (flag_of : field_value -> bool).
Context (pml4 now monitor_entry_addr : Z).
Context (data : nat -> list (list Z)) (canvas_ok : bool) (base text_base : nat).

#[local] Abbreviation run := (run_handler mem clock stack cells data_of num_of word_of flag_of pml4 now monitor_entry_addr data canvas_ok).
#[local] Abbreviation event := (desktop_event mem clock stack cells data_of num_of word_of flag_of pml4 now monitor_entry_addr data canvas_ok base text_base).
#[local] Abbreviation in_window := (window_event mem clock stack cells data_of num_of word_of flag_of pml4 now monitor_entry_addr data canvas_ok base text_base).
#[local] Abbreviation in_widgets := (on_widgets mem clock stack cells data_of num_of word_of flag_of pml4 now monitor_entry_addr data canvas_ok text_base).

#[local] Abbreviation open := (open_app mem clock stack cells data_of num_of word_of flag_of data canvas_ok).

#[local] Opaque run_handler.

(** A press on a button is for the widgets, in every application. *)
Lemma window_event_button ctrl a i ev s d j dest cx cy w h t k :
  ev_type ev = EVT_MOUSE_DOWN -> controls a !! j = Some (dest, Button cx cy w h t k) ->
  in_box (control_box (Button cx cy w h t k)) (mouse_x ev) (mouse_y ev) = true -> (a = Vaultpad -> a_show_open (d_apps d) = false) ->
  in_window ctrl a i ev s d = in_widgets i ev s d.
Proof.
  intros Hty Hj Hin Hopen. unfold window_event. rewrite Hty. destruct a; try reflexivity.
  - unfold dg_event, dbind, get_apps, get_ui. rewrite Hty. unfold dg_click.
    destruct (buttons_within 140 28 (controls Data_grid) j dest cx cy w h t k (mouse_x ev) (mouse_y ev)) as [Hx _]; [reflexivity|exact Hj|exact Hin|].
    assert ((DG_TABLE_LIST_W <? mouse_x ev) = false) as ->; [|reflexivity]. unfold DG_TABLE_LIST_W. lia.
  - unfold vp_event, dbind, get_apps, get_ui. rewrite (Hopen eq_refl), Hty. unfold vp_click.
    destruct (buttons_within 640 28 (controls Vaultpad) j dest cx cy w h t k (mouse_x ev) (mouse_y ev)) as [_ Hy]; [reflexivity|exact Hj|exact Hin|].
    assert ((VP_TOOLBAR_H <? mouse_y ev) = false) as ->; [|reflexivity]. unfold VP_TOOLBAR_H. lia.
  - by destruct j.
  - unfold oi_event, dbind, get_apps, get_ui. by rewrite Hty.
Qed.

Lemma widgets_run_button a u i n s d j dest cx cy w h t k ev : d_ui d = u -> shows a u i n -> laid_out (client_w (win (u_wm u) i)) (client_h (win (u_wm u) i)) (map snd (controls a)) = true ->
  layout a (client_w (win (u_wm u) i)) (client_h (win (u_wm u) i)) = controls a ->
  controls a !! j = Some (dest, Button cx cy w h t k) -> in_box (control_box (Button cx cy w h t k)) (mouse_x ev) (mouse_y ev) = true ->
  ev_type ev = EVT_MOUSE_DOWN -> exists p, in_widgets i ev s d = run k s (with_widgets p d).
Proof.
  intros Hd [_ _ _ _ _ Hp Hc] Hlay Hctl Hj Hin Hty. cbv zeta in Hc. rewrite Hctl in Hc. destruct Hc as (Hch & Hn & Hl).
  destruct (press_button (u_pool u) n (controls a) _ _ j cx cy w h t k (mouse_x ev) (mouse_y ev) Hp Hn Hl Hlay) as (p & E & Ek);
    [by rewrite list_lookup_fmap, Hj|exact Hin|].
  exists p. unfold on_widgets, dbind, get_ui, widget_dispatch. rewrite Hd, Hch, Hty, E. unfold put_widgets, dbind, get_ui, put_ui. rewrite Ek. cbn [mbind option_bind].
  rewrite handler_no_inv. unfold with_widgets. by rewrite Hd.
Qed.

(** C27: every button of an opened application works.  On a desktop with room
    for a window and the widgets, opening an application makes its window with
    all its controls, and then fills its list, which a query may make fail.
    Once it has been opened its window is on top; and a press on the screen
    that falls, as clicks are translated, on any of its buttons, above the task
    bar and with the menu closed, goes through the event loop, the window
    manager, the event function of the application and the chain of its widgets
    to exactly the handler of that button: the press is the run of the handler,
    on a desktop that differs in marks on widgets only.  Clicks are translated
    one row lower than the window is drawn, so that these are the points of the
    button as it is drawn save its top row, and the row below it. *)
Theorem app_buttons_work (a : app) (s : shell) (d : desktop) (sh : Z) (ctrl : bool) :
  ui_ok (d_ui d) -> room (d_ui d) (length (controls a)) -> menu_open d = false ->
  let '(_, (wx0, wy0, _, _)) := frame_of a in
  exists d0 i, show_app data canvas_ok a s d = Done (s, d0, Some i) /\
    open a s d = first_fill mem clock stack cells data_of num_of word_of flag_of a s d0 /\
    forall s1 d1, open a s d = Done (s1, d1, tt) ->
      (exists l, z_order (u_wm (d_ui d1)) = l ++ [i]) /\
      forall j dest cx cy w h t k ev px py,
        controls a !! j = Some (dest, Button cx cy w h t k) -> in_box (control_box (Button cx cy w h t k)) px py = true ->
        ev_type ev = EVT_MOUSE_DOWN -> mouse_x ev = wx0 + 1 + px -> mouse_y ev = wy0 + 21 + py -> mouse_y ev < i16 (sh - TASKBAR_HEIGHT) ->
        exists p, event sh ctrl ev s1 d1 = run k s1 (with_widgets p d1).
Proof.
  intros Hu Hroom Hmenu. pose proof (layouts_laid_out a) as Hlay. pose proof (frame_sizes a) as Hsz.
  destruct (show_app_shows data canvas_ok a s d Hu Hroom) as (d0 & i & E & Hshow & Happs & Hm & _).
  assert (open a s d = first_fill mem clock stack cells data_of num_of word_of flag_of a s d0) as Eo by (unfold open_app, dbind; by rewrite E).
  destruct (frame_of a) as [tt' [[[wx0 wy0] ww0] wh0]] eqn:Ef.
  exists d0, i. split; [exact E|]. split; [exact Eo|]. intros s1 d1 E1. rewrite Eo in E1. pose proof (first_fill_same _ _ _ _ _ _ _ _ _ _ _ _ _ _ E1) as Hsame.
  pose proof (shows_same a d0 d1 i _ Hsame Hshow) as Hshow1. destruct Hsame as (_ & _ & _ & _ & _ & Happs1 & Hm1 & _).
  pose proof Hshow1 as [Hok [l Hz] Hv Hon Hplace _ _]. unfold controls in *. rewrite Ef in *.
  cbn [snd] in Hplace. destruct Hplace as (Hxy & Hcw & Hch). injection Hxy as Hx Hy Hw' Hh. rewrite Hw' in Hcw. rewrite Hh in Hch.
  split; [by exists l|]. intros j dest cx cy w h t k ev px py Hj Hin Hty Hmx Hmy Htask.
  destruct (laid_out_button _ _ _ j cx cy w h t k Hlay) with (px := px) (py := py) as (Hpx & Hpy & _); [by rewrite list_lookup_fmap, Hj|exact Hin|].
  unfold desktop_event. rewrite Hty, (proj2 (Z.leb_gt _ _)) by exact Htask. rewrite Hm1, Hm, Hmenu. unfold forward, dbind, get_ui.
  rewrite (top_dispatch (u_wm (d_ui d1)) l i (app_no a) ev px py Hok Hz Hv Hon) by (rewrite ?Hcw, ?Hch, ?Hw', ?Hh, ?Hx, ?Hy; done || lia).
  unfold put_wm, dbind, get_ui, put_ui. rewrite Hon. cbn [mbind option_bind]. rewrite app_no_inv.
  set (d2 := Desktop _ _ _ _). assert (d2 = d1) as -> by (unfold d2; by destruct d1 as [[? ? ? ?] ? ? ?]).
  set (ev' := GuiEv _ _ _ _ _ _ _).
  assert (controls a = layout a (ww0 - 2) (wh0 - 22)) as Ec by (unfold controls; by rewrite Ef).
  rewrite (window_event_button ctrl a i ev' s1 d1 j dest cx cy w h t k); [|reflexivity|by rewrite Ec|exact Hin|].
  - apply (widgets_run_button a (d_ui d1) i (widget_count (u_pool (d_ui d))) s1 d1 j dest cx cy w h t k ev'); rewrite ?Hcw, ?Hch, ?Ec; done.
  - intros ->. by rewrite Happs1, Happs.
Qed.

(** ** The menu *)

Definition close_menu (d : desktop) : desktop := Desktop (d_ui d) (d_apps d) false (gui_running d).

(** The row of the entry [i], where [draw_menu] draws it. *)
Definition in_row (sh : Z) (i : nat) (px py : Z) : Prop :=
  2 <= px < 182 /\ menu_top sh + 2 + Z.of_nat i * 24 <= py < menu_top sh + 2 + (Z.of_nat i + 1) * 24.

Lemma menu_row_hit sh i px py : (i < MENU_ITEMS)%nat -> in_row sh i px py ->
  menu_hit_test sh px py = if menu_is_separator (Z.of_nat i) then None else Some i.
Proof.
  intros Hi [Hx Hy]. unfold menu_hit_test. unfold MENU_ITEMS in *. set (m := menu_top sh) in *.
  assert (Z.quot (py - m - 2) 24 = Z.of_nat i) as Eq.
  { rewrite Z.quot_div_nonneg by lia. symmetry. apply (Z.div_unique _ 24 _ (py - m - 2 - 24 * Z.of_nat i)); lia. }
  rewrite (proj2 (Z.ltb_ge px 2)), (proj2 (Z.leb_gt (2 + 180) px)) by lia. cbn [orb].
  rewrite (proj2 (Z.ltb_ge py m)), (proj2 (Z.leb_gt _ py)) by lia. cbn [orb]. rewrite Eq.
  rewrite (proj2 (Z.leb_le 0 _)), (proj2 (Z.ltb_lt (Z.of_nat i) _)) by lia. cbn [andb]. rewrite Nat2Z.id. by destruct (menu_is_separator _).
Qed.

(** The window that an entry of the menu opens has the title of the entry. *)
Lemma menu_titles i : (i < MENU_ITEMS)%nat -> menu_is_separator (Z.of_nat i) = false ->
  match menu_choice i with
  | Some (Open a) => (frame_of a).1 = nth i menu_labels ""%string
  | Some Exit => nth i menu_labels ""%string = "Exit to TUI"%string
  | None => False
  end.
Proof. unfold MENU_ITEMS. intros Hi. do 17 (destruct i as [|i]; [vm_compute; by intros|]). lia. Qed.

(** The menu opens what it says.  With the menu open, a press on the row of an
    entry, as it is drawn, closes the menu and opens the application whose
    window has the title of the entry; the last entry ends the desktop.  A
    press on a line between the entries closes the menu, and is passed on. *)
Theorem menu_opens_entry (s : shell) (d : desktop) (sh : Z) (ctrl : bool) (ev : gui_event) (i : nat) :
  menu_open d = true -> ev_type ev = EVT_MOUSE_DOWN -> mouse_y ev < i16 (sh - TASKBAR_HEIGHT) ->
  (i < MENU_ITEMS)%nat -> in_row sh i (mouse_x ev) (mouse_y ev) ->
  if menu_is_separator (Z.of_nat i)
  then event sh ctrl ev s d = forward mem clock stack cells data_of num_of word_of flag_of pml4 now monitor_entry_addr data canvas_ok base text_base ctrl ev s (close_menu d)
  else (exists a, (frame_of a).1 = nth i menu_labels ""%string /\
          event sh ctrl ev s d = open_app mem clock stack cells data_of num_of word_of flag_of data canvas_ok a s (close_menu d)) \/
       nth i menu_labels ""%string = "Exit to TUI"%string /\
          event sh ctrl ev s d = Done (s, Desktop (d_ui d) (d_apps d) false false, tt).
Proof.
  intros Hm Hty Htask Hi Hrow. unfold desktop_event. rewrite Hty, (proj2 (Z.leb_gt _ _)), Hm, (menu_row_hit sh i _ _ Hi Hrow) by exact Htask.
  pose proof (menu_titles i Hi) as Ht. destruct (menu_is_separator (Z.of_nat i)); [reflexivity|]. specialize (Ht eq_refl).
  destruct (menu_choice i) as [[a|]|]; [left; by exists a|by right|done].
Qed.

(** ** Findings *)

(** With the dialog closed every key goes to the document: the box with the
    name of the document cannot be typed in, whether it has the focus or not. *)
Example vaultpad_name_never_typed i ev s d : ev_type ev = EVT_KEY_DOWN -> a_show_open (d_apps d) = false ->
  exists d', in_window false Vaultpad i ev s d = Done (s, d', tt) /\ d_ui d' = d_ui d /\ a_doc_name (d_apps d') = a_doc_name (d_apps d).
Proof.
  intros Hty Ho. unfold window_event. rewrite Hty. unfold vp_event, dbind, get_apps, get_ui. rewrite Ho, Hty. unfold put_text, dbind, get_apps, put_apps. by eexists.
Qed.
End running.

(** In the table browser the label reaches into the search box, and is drawn
    over it, since older widgets are drawn later. *)
Example label_covers_search_box :
  match controls Table_browser !! 2%nat, controls Table_browser !! 3%nat with
  | Some (_, l), Some (_, b) => apart (control_box l) (control_box b) = false
  | _, _ => False
  end.
Proof. reflexivity. Qed.

(** ** A concrete desktop *)

Definition demo_apps : apps :=
  Apps calc_static vp_new_doc (replicate 64 0) false (Grid [] [] 0 0 0 (-1) (replicate 64 0) (replicate 128 0))
    (Inspector (replicate 256 0) (replicate 256 0) (replicate 256 0) 0 0 0 0 false) 0.

Definition demo_desktop : desktop :=
  Desktop (Ui wm_init (Pool (replicate MAX_WIDGETS no_widget) 0) (replicate MAX_WINDOWS []) (fun _ => None)) demo_apps false true.

Lemma demo_ui_ok : ui_ok (d_ui demo_desktop).
Proof. constructor; [exact wm_init_ok|cbn; lia|reflexivity|reflexivity]. Qed.

(** The security dashboard opened and closed, [n] times. *)
Fixpoint reopen (n : nat) : D unit :=
  match n with
  | O => dret tt
  | S n => dbind (show_app (fun _ => []) false Security_dashboard) (fun r =>
             match r with Some i => dbind (close_window i) (fun _ => reopen n) | None => dret tt end)
  end.

(** Widgets are never given back to the pool of 128: after nine times the query
    console uses a null pointer when it is opened, with no window on the
    screen. *)
Example widget_pool_exhausted s :
  match reopen 9 s demo_desktop with
  | Done (s, d, _) => z_order (u_wm (d_ui d)) = [] /\ show_app (fun _ => []) false Query_console s d = Fault
  | _ => False
  end.
Proof. vm_compute. by split. Qed.

Definition demo_shell : shell := Shell sys_state pair_sched demo_heap.

(** Opening the table browser fills its list with the names of the tables. *)
Lemma browser_opens : exists d1, open_app all_ok noon zero_stack (fun n => replicate n 7) (fun _ => []) (fun _ => 0) (fun _ => 0) (fun _ => false) (fun _ => []) false
  Table_browser demo_shell demo_desktop = Done (demo_shell, d1, tt).
Proof. vm_compute. by eexists. Qed.

#[local] Opaque sys_db sys_table run_handler desktop_event show_app open_app first_fill.

(** The button "View All" of the table browser, at (240, 115). *)
Lemma app_buttons_work_witness :
  exists d1 p, open_app all_ok noon zero_stack (fun n => replicate n 7) (fun _ => []) (fun _ => 0) (fun _ => 0) (fun _ => false) (fun _ => []) false
      Table_browser demo_shell demo_desktop = Done (demo_shell, d1, tt) /\
    desktop_event all_ok noon zero_stack (fun n => replicate n 7) (fun _ => []) (fun _ => 0) (fun _ => 0) (fun _ => false) 0 0 0 (fun _ => []) false 0 0
      768 false (press 240 115) demo_shell d1 =
    run_handler all_ok noon zero_stack (fun n => replicate n 7) (fun _ => []) (fun _ => 0) (fun _ => 0) (fun _ => false) 0 0 0 (fun _ => []) false
      Tb_view_all demo_shell (with_widgets p d1).
Proof.
  destruct (app_buttons_work all_ok noon zero_stack (fun n => replicate n 7) (fun _ => []) (fun _ => 0) (fun _ => 0) (fun _ => false) 0 0 0 (fun _ => []) false 0 0
    Table_browser demo_shell demo_desktop 768 false demo_ui_ok) as (d0 & i & _ & _ & Hb); [|reflexivity|].
  - split; apply Nat.leb_le; reflexivity.
  - destruct browser_opens as [d1 E]. destruct (Hb demo_shell d1 E) as [_ Hp].
    destruct (Hp 1%nat None 80 2 72 22 "View All"%string Tb_view_all (press 240 115) 89 14) as [p Ep]; try reflexivity.
    exists d1, p. split; [exact E|exact Ep].
Defined.

Lemma menu_opens_entry_witness :
  let ev := press 60 400 in
  exists a, (frame_of a).1 = "Data Grid"%string /\
    desktop_event all_ok noon zero_stack (fun n => replicate n 7) (fun _ => []) (fun _ => 0) (fun _ => 0) (fun _ => false) 0 0 0 (fun _ => []) false 0 0
      768 false ev demo_shell (Desktop (d_ui demo_desktop) demo_apps true true) =
    open_app all_ok noon zero_stack (fun n => replicate n 7) (fun _ => []) (fun _ => 0) (fun _ => 0) (fun _ => false) (fun _ => []) false a demo_shell demo_desktop.
Proof.
  intros ev.
  pose proof (menu_opens_entry all_ok noon zero_stack (fun n => replicate n 7) (fun _ => []) (fun _ => 0) (fun _ => 0) (fun _ => false) 0 0 0 (fun _ => []) false 0 0
    demo_shell (Desktop (d_ui demo_desktop) demo_apps true true) 768 false ev 2) as T.
  destruct T as [(a & Ea & E)|[E _]]; [reflexivity|reflexivity|reflexivity|apply Nat.leb_le; reflexivity| | |].
  - vm_compute. repeat split; discriminate.
  - exists a. split; [exact Ea|exact E].
  - discriminate E.
Defined.
