(* ===== verification/Boot.v ===== *)
(** * From the firmware to the shell

    The boot loader (src/boot/bootloader.c): [efi_main] with [init_gop],
    [load_kernel] and [find_rsdp].  The UEFI firmware is a parameter, the class
    [Firmware]: one operation per service the loader calls, on a state of the
    firmware's own; a service returns a status and its output parameters.  What
    the loader prints is left out.

    The kernel's entry (src/kernel/main.c): the self-tests and [kernel_main],
    which initialises every component in order and starts the shell.  What the
    components print is left out here.  [None] of a check is a failed [ASSERT],
    which ends in [kernel_panic]. *)

From Stdlib Require Import String.
From stdpp Require Import gmap.
From S2P Require Import Prelude CLib Errors Random Sha256 Hmac Aes Record Btree Cap Database Ipc Pmm Heap Paging Klist Sched Arch Ring Keyboard Framebuffer Console.

(** ** The firmware *)

Record gop_mode := GopMode { FrameBufferBase : Z; HorizontalResolution : Z; VerticalResolution : Z; PixelsPerScanLine : Z; PixelFormat : Z }.

Definition PixelBlueGreenRedReserved8BitPerColor : Z := 1.
Definition EFI_SUCCESS : Z := 0.
Definition EFI_NOT_FOUND : Z := 2 ^ 63 + 14.

(** The top bit of a status. *)
Definition EFI_ERROR (status : Z) : bool := Z.testbit status 63.

Class Firmware (W : Type) := {
  LocateGop : W -> Z * W;
  gop_current : W -> Z;                                (* gop->Mode->Mode *)
  gop_max : W -> Z;                                    (* gop->Mode->MaxMode *)
  QueryMode : Z -> W -> Z * (Z * Z) * W;               (* the two resolutions *)
  SetMode : Z -> W -> Z * W;
  gop_info : W -> gop_mode;                            (* gop->Mode and gop->Mode->Info *)
  LoadedImage : W -> Z * W;
  FileSystem : W -> Z * W;
  OpenVolume : W -> Z * W;
  OpenKernel : W -> Z * W;
  GetFileSize : W -> Z * Z * W;
  AllocatePages : option Z -> Z -> W -> Z * Z * W;     (* at an address or anywhere; the address *)
  ReadFile : Z -> Z -> W -> Z * Z * W;                 (* the bytes read *)
  CloseFiles : W -> W;
  ConfigurationTable : W -> list (bool * Z);           (* is it the ACPI 2.0 table; its address *)
  RuntimeServices : W -> Z;
  GetMemoryMap : Z -> Z -> W -> Z * (Z * Z * Z * Z) * W; (* the buffer and its size; size, key, descriptor size, version *)
  AllocatePool : Z -> W -> Z * Z * W;
  ExitBootServices : Z -> W -> Z * W
}.

Definition BOOT_INFO_MAGIC : Z := 0x5641554C544F5321.
Definition KERNEL_LOAD_ADDR : Z := 0x100000.

(** The static [bootInfo] before anything is set. *)
Definition zero_info : boot_info := BootInfo 0 0 0 0 0 0 0 0 0 0 0 0 0 0 0 0 0.

Section loader.
Context {W : Type} `{Firmware W}.

(** The first mode from [i] on that is 1024 by 768. *)
Fixpoint find_mode (n : nat) (i best : Z) (w : W) : Z * W :=
  match n with
  | O => (best, w)
  | S n =>
      let '(status, (hres, vres), w) := QueryMode i w in
      if EFI_ERROR status then find_mode n (i + 1) best w
      else if (hres =? 1024) && (vres =? 768) then (i, w)
      else find_mode n (i + 1) best w
  end.

Definition init_gop (info : boot_info) (w : W) : Z * boot_info * W :=
  let '(status, w) := LocateGop w in
  if EFI_ERROR status then (status, info, w)
  else
    let '(bestMode, w) := find_mode (Z.to_nat (gop_max w)) 0 (gop_current w) w in
    let '(status, w) := SetMode bestMode w in
    let m := gop_info w in
    (EFI_SUCCESS,
     BootInfo (magic info) (FrameBufferBase m) (HorizontalResolution m) (VerticalResolution m) (u32 (PixelsPerScanLine m * 4)) 32
       (if PixelFormat m =? PixelBlueGreenRedReserved8BitPerColor then 0 else 1) (_pad0 info)
       (mmap_base info) (mmap_size info) (mmap_desc_size info) (mmap_desc_version info) (mmap_entry_count info)
       (kernel_phys_base info) (kernel_size info) (runtime_services info) (rsdp_address info), w).

Definition set_kernel (info : boot_info) (base size : Z) : boot_info :=
  BootInfo (magic info) (fb_base info) (fb_width info) (fb_height info) (fb_pitch info) (fb_bpp info) (fb_pixel_format info) (_pad0 info)
    (mmap_base info) (mmap_size info) (mmap_desc_size info) (mmap_desc_version info) (mmap_entry_count info)
    base size (runtime_services info) (rsdp_address info).

(** [if (EFI_ERROR(status)) return status] *)
Definition unless_error {A} (info : boot_info) (r : Z * A * W) (k : A -> W -> Z * boot_info * W) : Z * boot_info * W :=
  let '(status, a, w) := r in if EFI_ERROR status then (status, info, w) else k a w.

Definition no_value (r : Z * W) : Z * unit * W := (fst r, tt, snd r).

Definition load_kernel (info : boot_info) (w : W) : Z * boot_info * W :=
  unless_error info (no_value (LoadedImage w)) (fun _ w =>
  unless_error info (no_value (FileSystem w)) (fun _ w =>
  unless_error info (no_value (OpenVolume w)) (fun _ w =>
  unless_error info (no_value (OpenKernel w)) (fun _ w =>
  unless_error info (GetFileSize w) (fun kernelSize w =>
  let pages := u64 (kernelSize + 4095) / 4096 in
  let pages := if pages <? 512 then 512 else pages in
  let '(status, kernelAddr, w) := AllocatePages (Some KERNEL_LOAD_ADDR) pages w in
  unless_error info (if EFI_ERROR status then AllocatePages None pages w else (status, kernelAddr, w)) (fun kernelAddr w =>
  unless_error info (ReadFile kernelSize kernelAddr w) (fun kernelSize w =>
  let w := CloseFiles w in
  (EFI_SUCCESS, set_kernel info kernelAddr kernelSize, w)))))))).

Fixpoint find_acpi (l : list (bool * Z)) : option Z :=
  match l with
  | [] => None
  | (true, table) :: _ => Some table
  | (false, _) :: l => find_acpi l
  end.

Definition set_platform (info : boot_info) (runtime rsdp : Z) : boot_info :=
  BootInfo (magic info) (fb_base info) (fb_width info) (fb_height info) (fb_pitch info) (fb_bpp info) (fb_pixel_format info) (_pad0 info)
    (mmap_base info) (mmap_size info) (mmap_desc_size info) (mmap_desc_version info) (mmap_entry_count info)
    (kernel_phys_base info) (kernel_size info) runtime rsdp.

Definition find_rsdp (info : boot_info) (w : W) : Z * boot_info :=
  match find_acpi (ConfigurationTable w) with
  | Some table => (EFI_SUCCESS, set_platform info (runtime_services info) table)
  | None => (EFI_NOT_FOUND, set_platform info (runtime_services info) 0)
  end.

Definition set_mmap (info : boot_info) (base size desc version : Z) : boot_info :=
  BootInfo (magic info) (fb_base info) (fb_width info) (fb_height info) (fb_pitch info) (fb_bpp info) (fb_pixel_format info) (_pad0 info)
    base size desc version (u32 (size / desc))
    (kernel_phys_base info) (kernel_size info) (runtime_services info) (rsdp_address info).

(** The rounds of [GetMemoryMap] and [ExitBootServices]: [size] is the
    variable [mmapSize], which every call overwrites. *)
Fixpoint exit_loop (n : nat) (mmap size status : Z) (info : boot_info) (w : W) : Z * boot_info * W :=
  match n with
  | O => (status, info, w)
  | S n =>
      let '(status, (size, key, desc, version), w) := GetMemoryMap mmap size w in
      if EFI_ERROR status then exit_loop n mmap size status info w
      else
        let info := set_mmap info mmap size desc version in
        let '(status, w) := ExitBootServices key w in
        if negb (EFI_ERROR status) then (status, info, w) else exit_loop n mmap size status info w
  end.

(** How the loader ends: it returns to the firmware, halts, or jumps. *)
Inductive loaded := Returns (status : Z) (w : W) | Hangs (w : W) | Jumps (entry : Z) (info : boot_info) (w : W).

Definition set_magic (info : boot_info) : boot_info :=
  BootInfo BOOT_INFO_MAGIC (fb_base info) (fb_width info) (fb_height info) (fb_pitch info) (fb_bpp info) (fb_pixel_format info) (_pad0 info)
    (mmap_base info) (mmap_size info) (mmap_desc_size info) (mmap_desc_version info) (mmap_entry_count info)
    (kernel_phys_base info) (kernel_size info) (runtime_services info) (rsdp_address info).

Definition efi_main (w : W) : loaded :=
  let info := set_magic zero_info in
  let '(_, info, w) := init_gop info w in
  let '(status, info, w) := load_kernel info w in
  if EFI_ERROR status then Returns status w
  else
    let '(_, info) := find_rsdp info w in
    let info := set_platform info (RuntimeServices w) (rsdp_address info) in
    let '(_, (mmapSize, _, descSize, _), w) := GetMemoryMap 0 0 w in
    let mmapSize := u64 (mmapSize + 2 * descSize) in
    let '(status, mmap, w) := AllocatePool mmapSize w in
    if EFI_ERROR status then Returns status w
    else
      let '(status, info, w) := exit_loop 3 mmap mmapSize status info w in
      if EFI_ERROR status then Hangs w else Jumps (kernel_phys_base info) info w.
End loader.
Arguments loaded : clear implicits.

(** ** The kernel *)

(** What the linker knows: the image, the tables and the entry points. *)
Record link_map := LinkMap {
  kern_start : Z; kern_end : Z;
  l_gdt : Z; l_tss : Z; l_idt : Z; l_stubs : list Z;
  l_syscall_entry : Z; l_shell_main : Z
}.

(** The variables of the components. *)
Record kernel := Kernel {
  k_uart : uart;
  k_gdt : gdt_state;
  k_idt : idt_state;
  k_timer : timer;          (* with the handlers and the interrupt controllers *)
  k_vm : vm;                (* with the frames *)
  k_pml4 : Z;
  k_fb : fb_state;
  k_kb : kb_state;
  k_db : db_state;          (* with the generator and the AES flags *)
  k_ipc : ipc_state;
  k_msrs : gmap Z Z;
  k_machine : machine       (* scheduler, heap and capabilities *)
}.

Section kernel.
Context `{Hw, AesNi}.

Definition test_key : list Z := map Z.of_nat (seq 0 16).
Definition test_plain : list Z := cs "VaultOS test!!!" ++ [0].

(** The self-tests: whether all assertions hold, and the AES flags. *)
Definition run_crypto_tests (fl : aes_flags) : bool * aes_flags :=
  let digest := sha256 [] in
  let t1 := (digest.[0] =? 0xe3) && (digest.[1] =? 0xb0) && (digest.[2] =? 0xc4) in
  let digest := sha256 (cs "abc") in
  let t2 := (digest.[0] =? 0xba) && (digest.[1] =? 0x78) && (digest.[2] =? 0x16) in
  let iv := replicate 16 0 in
  let '(fl, aes) := aes_init fl cpuid1_ecx test_key in
  let cipher := aes_cbc_encrypt fl aes iv test_plain in
  let decrypted := aes_cbc_decrypt fl aes iv cipher in
  let t3 := memcmp test_plain decrypted 16 =? 0 in
  let hmac_out := hmac_sha256 test_key (cs "test") in
  let t4 := negb (hmac_out.[0] =? 0) || negb (hmac_out.[1] =? 0) in
  (t1 && t2 && t3 && t4, fl).

(** The benchmarks leave the readings of the clock counted, the AES flags set
    and the capability checks made; the rest of what they compute is printed. *)
Definition run_crypto_benchmarks (now : Z) (db : db_state) (caps : cap_state) : db_state * cap_state :=
  let '(fl, _) := aes_init (aes_fl db) cpuid1_ecx test_key in
  let g := Nat.iter 10 (fun g => fst (read_tsc g)) (gen db) in
  (Db (tables db) (global_row_id db) (master_db_key db) (serde_buf db) (crypto_buf db) fl g,
   Nat.iter 100 (fun st => fst (cap_check now st 1 1 CAP_READ)) caps).

(** [keyboard_init]: the queue, the handler and the line of the controller. *)
Definition keyboard_start (t : timer) (kb : kb_state) : timer * kb_state :=
  (Timer (pit_ticks t) (pit_hz t) (irq_register_handler (irq_handlers t) 1 KeyboardHandler) (pic_unmask 1 (ports t)) (pit_writes t),
   keyboard_init kb).

(** How [kernel_main] ends: it halts on a bad magic number, panics, or runs
    the first process from its entry point on. *)
Inductive started := BadMagic | Panics | Starts (k : kernel) (entry : Z).

(** [mmap] is what the memory map holds, [fbmem] the screen's memory; the
    allocations of the database succeed as [mem] says and leave the heap
    [db_heap h]. *)
Context (mem : nat -> bool) (db_heap : heap_state -> heap_state) (l : link_map).

Definition kernel_main (mmap : list mmap_entry) (fbmem : list Z) (b : boot_info) (k : kernel) : started :=
  let uart := serial_init (k_uart k) in
  if negb (magic b =? BOOT_INFO_MAGIC) then BadMagic
  else
    let gdt := gdt_init (l_gdt l) (l_tss l) in
    let idt := idt_init (l_idt l) (l_stubs l) in
    let t := k_timer k in
    let t := Timer (pit_ticks t) (pit_hz t) (handlers idt) (pic_init (ports t)) (pit_writes t) in
    let pm := pmm_init (frames (k_vm k)) mmap (kern_start l) (kern_end l) in
    match vmm_init (Vm (words_at (k_vm k)) pm) b with
    | None => Panics
    | Some (v, pml4) =>
        let heap := heap_init in
        let fb := fb_init (fb_base b) (fb_width b) (fb_height b) (fb_pitch b) (fb_pixel_format b) fbmem (k_fb k) in
        match pit_init 1000 t with
        | None => Panics
        | Some t =>
            let '(t, kb) := keyboard_start t (k_kb k) in
            let db := with_gen (k_db k) (random_init (gen (k_db k))) in
            let '(passed, fl) := run_crypto_tests (aes_fl db) in
            if negb passed then Panics
            else
              let db := Db (tables db) (global_row_id db) (master_db_key db) (serde_buf db) (crypto_buf db) fl (gen db) in
              let '(db, caps) := run_crypto_benchmarks (pit_ticks t) db (m_caps (k_machine k)) in
              let '(g, master_key) := random_bytes (gen db) 32 in
              let caps := cap_init (pit_ticks t) caps master_key in
              let db := db_init (with_gen db g) in
              match db_init_system_tables mem db with
              | Done db =>
                  let s := scheduler_init (process_init (m_sched (k_machine k))) in
                  let ipc := ipc_init in
                  let msrs := syscall_init (l_syscall_entry l) (k_msrs k) in
                  match process_create pml4 (pit_ticks t) (Machine s (db_heap heap) caps) (cs "VaultShell" ++ [0]) (l_shell_main l) with
                  | Some (m, Some shell_proc) =>
                      let s := scheduler_add (m_sched m) shell_proc in
                      match scheduler_start s with
                      | None => Panics
                      | Some (s, entry) =>
                          Starts (Kernel uart (gdt_set_tss_rsp0 (tss_rsp0 s) gdt) idt t v pml4 fb kb db ipc msrs (Machine s (m_heap m) (m_caps m))) entry
                      end
                  | _ => Panics
                  end
              | _ => Panics
              end
        end
    end.
End kernel.
