(* ===== verification/BootSpec.v ===== *)
(** * Properties of the boot sequence

    What the loader hands over, and where [kernel_main] arrives: with enough
    memory every component is initialised, its invariant holds, and the shell
    is the running process. *)

From Stdlib Require Import String.
From stdpp Require Import gmap.
From S2P Require Import Prelude CLib Errors Random Sha256 Hmac Aes Record Btree BtreeSpec Cap CapSpec Database DatabaseSpec Ipc Pmm Heap Paging Klist Sched Arch Query QuerySpec QueryWrites Ring Keyboard Stored Framebuffer Console Boot.

(** ** The loader *)

Section loader.
Context {W : Type} `{Firmware W}.

(** The rounds end with an error, or with the map whose key the firmware took. *)
Lemma exit_loop_map n mmap : forall size status info w status' info' w',
  exit_loop n mmap size status info w = (status', info', w') -> EFI_ERROR status = true \/ (0 < n)%nat -> EFI_ERROR status' = false ->
  exists size0 w0 s key msize desc version w1,
    GetMemoryMap mmap size0 w0 = (s, (msize, key, desc, version), w1) /\ EFI_ERROR s = false /\
    ExitBootServices key w1 = (status', w') /\ info' = set_mmap info mmap msize desc version.
Proof.
  induction n as [|n IH]; intros size status info w status' info' w' E Hs Hok; cbn [exit_loop] in E.
  { injection E as <- <- <-. destruct Hs as [Hs|Hs]; [congruence|lia]. }
  destruct (GetMemoryMap mmap size w) as [[s [[[msize key] desc] version]] w1] eqn:Em.
  destruct (EFI_ERROR s) eqn:Es; [exact (IH _ _ _ _ _ _ _ E (or_introl Es) Hok)|]. cbv zeta in E.
  destruct (ExitBootServices key w1) as [s2 w2] eqn:Ex. destruct (EFI_ERROR s2) eqn:Es2; cbn [negb] in E.
  - destruct (IH _ _ _ _ _ _ _ E (or_introl Es2) Hok) as (sz & w0 & s' & key' & m' & d' & v' & w1' & H1 & H2 & H3 & ->).
    by exists sz, w0, s', key', m', d', v', w1'.
  - injection E as <- <- <-. by exists size, w, s, key, msize, desc, version, w1.
Qed.

Lemma unless_error_ok {A} info (r : Z * A * W) k s' info' w' : unless_error info r k = (s', info', w') -> EFI_ERROR s' = false ->
  exists s a w, r = (s, a, w) /\ EFI_ERROR s = false /\ k a w = (s', info', w').
Proof.
  intros E Hs. destruct r as [[s a] w]. unfold unless_error in E. destruct (EFI_ERROR s) eqn:Es; [|by exists s, a, w].
  injection E as -> _ _. congruence.
Qed.

(** A kernel that was loaded was read whole to where it is said to be. *)
Lemma load_kernel_read info w s info' w' : load_kernel info w = (s, info', w') -> EFI_ERROR s = false ->
  exists size addr n w0 sr w1, ReadFile size addr w0 = (sr, n, w1) /\ EFI_ERROR sr = false /\ info' = set_kernel info addr n.
Proof.
  intros E Hs. unfold load_kernel in E.
  do 5 (apply unless_error_ok in E as (? & ? & ? & _ & _ & E); [|done]).
  destruct (AllocatePages (Some KERNEL_LOAD_ADDR) _ _) as [[sa ka] wa].
  apply unless_error_ok in E as (? & addr & wb & _ & _ & E); [|done].
  apply unless_error_ok in E as (sr & n & wc & Er & Hr & E); [|done]. injection E as _ <- _.
  by eexists _, addr, n, wb, sr, wc.
Qed.

(** The screen of a description: the mode the graphics protocol was left in, or
    none when there is no such protocol. *)
Definition screen_of (w : W) (info : boot_info) : Prop :=
  (EFI_ERROR (fst (LocateGop w)) = true /\ fb_base info = 0) \/
  exists wg, let m := gop_info wg in
    EFI_ERROR (fst (LocateGop w)) = false /\ fb_base info = FrameBufferBase m /\
    fb_width info = HorizontalResolution m /\ fb_height info = VerticalResolution m /\ fb_pitch info = u32 (PixelsPerScanLine m * 4) /\
    fb_bpp info = 32 /\ fb_pixel_format info = (if PixelFormat m =? PixelBlueGreenRedReserved8BitPerColor then 0 else 1).

Lemma init_gop_screen w s info w' : init_gop (set_magic zero_info) w = (s, info, w') -> magic info = BOOT_INFO_MAGIC /\ screen_of w info.
Proof.
  unfold init_gop, screen_of. destruct (LocateGop w) as [s0 w0]. cbn [fst]. destruct (EFI_ERROR s0) eqn:E.
  - intros [= _ <- _]. split; [done|by left].
  - destruct (find_mode _ _ _ w0) as [m w1]. destruct (SetMode m w1) as [s2 w2]. intros [= _ <- _].
    split; [done|]. right. by exists w2.
Qed.

(** The address of the first ACPI 2.0 table, 0 when there is none. *)
Definition acpi_table (l : list (bool * Z)) : Z := match List.filter fst l with (_, a) :: _ => a | [] => 0 end.

Lemma find_rsdp_table info w : exists s, find_rsdp info w = (s, set_platform info (runtime_services info) (acpi_table (ConfigurationTable w))).
Proof.
  unfold find_rsdp. assert (forall l, find_acpi l = match List.filter fst l with (_, a) :: _ => Some a | [] => None end) as Hf
    by (induction l as [|[[] a] l IH]; [done|done|exact IH]).
  rewrite Hf. unfold acpi_table. destruct (List.filter fst (ConfigurationTable w)) as [|[b a] l]; by eexists.
Qed.

(** C28: what the boot loader hands to the kernel.  Whenever [efi_main] jumps,
    it jumps to the address the kernel file was read to, after a read that
    succeeded.  The description it passes has the magic number, the size that
    was read, the screen, the runtime services and the ACPI table of the
    firmware, and the very memory map whose key [ExitBootServices] accepted, in
    the last call before the jump: the address is the pool that was allocated
    for it and that the accepted [GetMemoryMap] filled, with the size, the
    descriptor size, the version and the number of descriptors of that call. *)
Theorem loader_hands_over (w w' : W) (entry : Z) (info : boot_info) :
  efi_main w = Jumps entry info w' ->
  magic info = BOOT_INFO_MAGIC /\ entry = kernel_phys_base info /\ screen_of w info /\
  (exists size w0 s w1, ReadFile size entry w0 = (s, kernel_size info, w1) /\ EFI_ERROR s = false) /\
  (exists w0, runtime_services info = RuntimeServices w0 /\ rsdp_address info = acpi_table (ConfigurationTable w0)) /\
  (exists size w0 s w1, AllocatePool size w0 = (s, mmap_base info, w1) /\ EFI_ERROR s = false) /\
  (exists size w0 s key w1 s',
     GetMemoryMap (mmap_base info) size w0 = (s, (mmap_size info, key, mmap_desc_size info, mmap_desc_version info), w1) /\ EFI_ERROR s = false /\
     ExitBootServices key w1 = (s', w') /\ EFI_ERROR s' = false /\
     mmap_entry_count info = u32 (mmap_size info / mmap_desc_size info)).
Proof.
  unfold efi_main. cbv zeta. destruct (init_gop _ w) as [[s0 i0] w0] eqn:Eg. apply init_gop_screen in Eg as [Hm0 Hg].
  destruct (load_kernel i0 w0) as [[s1 i1] w1] eqn:El. destruct (EFI_ERROR s1) eqn:E1; [done|].
  destruct (load_kernel_read _ _ _ _ _ El E1) as (size & addr & n & wr & sr & wr' & Hr & Hsr & ->).
  destruct (find_rsdp_table (set_kernel i0 addr n) w1) as [ts ->].
  destruct (GetMemoryMap 0 0 w1) as [[s2 [[[ms k] ds] vs]] w2]. destruct (AllocatePool _ w2) as [[s3 mm] w3] eqn:Ep.
  destruct (EFI_ERROR s3) eqn:E3; [done|]. destruct (exit_loop 3 _ _ _ _ w3) as [[s4 i4] w4] eqn:Ex.
  destruct (EFI_ERROR s4) eqn:E4; [done|]. intros [= <- <- <-].
  apply exit_loop_map in Ex as (sz & wa & sm & key & msize & desc & version & wb & Hm & Hsm & He & ->); [|right; lia|done].
  split; [exact Hm0|]. split; [done|]. split; [exact Hg|]. split; [by exists size, wr, sr, wr'|]. split; [by exists w1|].
  split; [by eexists _, w2, s3, w3|]. by exists sz, wa, sm, key, wb, s4.
Qed.
End loader.

(** ** A firmware

    [fw_map] descriptors of 48 bytes; a call of [ExitBootServices] with an old
    key is refused.  [fw_grow] descriptors are added by the first call, as its
    notifications do when they allocate.  [fw_overrun]: a map was written
    beyond the end of the pool it was given. *)
Record fw := Fw { fw_map : Z; fw_grow : Z; fw_pool : Z; fw_overrun : bool }.

Definition EFI_BUFFER_TOO_SMALL : Z := 2 ^ 63 + 5.
Definition EFI_INVALID_PARAMETER : Z := 2 ^ 63 + 2.

#[local] Instance demo_firmware : Firmware fw := {
  LocateGop w := (EFI_SUCCESS, w);
  gop_current _ := 0;
  gop_max _ := 2;
  QueryMode i w := (EFI_SUCCESS, (if i =? 0 then (800, 600) else (1024, 768)), w);
  SetMode _ w := (EFI_SUCCESS, w);
  gop_info _ := GopMode 0xFD000000 1024 768 1024 1;
  LoadedImage w := (EFI_SUCCESS, w);
  FileSystem w := (EFI_SUCCESS, w);
  OpenVolume w := (EFI_SUCCESS, w);
  OpenKernel w := (EFI_SUCCESS, w);
  GetFileSize w := (EFI_SUCCESS, 500000, w);
  AllocatePages a _ w := (EFI_SUCCESS, default 0x400000 a, w);
  ReadFile n _ w := (EFI_SUCCESS, n, w);
  CloseFiles w := w;
  ConfigurationTable _ := [(false, 1); (true, 0xE0000)];
  RuntimeServices _ := 0x7F000000;
  GetMemoryMap _ size w :=
    let need := 48 * fw_map w in
    if size <? need then (EFI_BUFFER_TOO_SMALL, (need, 0, 48, 1), w)
    else (EFI_SUCCESS, (need, fw_map w, 48, 1), Fw (fw_map w) (fw_grow w) (fw_pool w) (fw_overrun w || (fw_pool w <? need)));
  AllocatePool n w := (EFI_SUCCESS, 0x8000, Fw (fw_map w) (fw_grow w) n (fw_overrun w));
  ExitBootServices key w :=
    if (fw_grow w =? 0) && (key =? fw_map w) then (EFI_SUCCESS, w)
    else (EFI_INVALID_PARAMETER, Fw (fw_map w + fw_grow w) 0 (fw_pool w) (fw_overrun w))
}.

Lemma loader_hands_over_witness :
  let info := BootInfo BOOT_INFO_MAGIC 0xFD000000 1024 768 4096 32 0 0 0x8000 960 48 1 20 0x100000 500000 0x7F000000 0xE0000 in
  let w' := Fw 20 0 1056 false in
  efi_main (Fw 20 0 0 false) = Jumps 0x100000 info w' /\
  (exists size w0 s w1, AllocatePool size w0 = (s, 0x8000, w1) /\ EFI_ERROR s = false) /\
  (exists size w0 s key w1 s',
     GetMemoryMap 0x8000 size w0 = (s, (960, key, 48, 1), w1) /\ EFI_ERROR s = false /\
     ExitBootServices key w1 = (s', w') /\ EFI_ERROR s' = false /\ 20 = u32 (960 / 48)).
Proof.
  cbn zeta. set (info := BootInfo _ _ _ _ _ _ _ _ _ _ _ _ _ _ _ _ _). assert (efi_main (Fw 20 0 0 false) = Jumps 0x100000 info (Fw 20 0 1056 false)) as E by (vm_compute; reflexivity).
  split; [exact E|]. destruct (loader_hands_over (Fw 20 0 0 false) _ _ _ E) as (_ & _ & _ & _ & _ & H). exact H.
Defined.

(** A map that grows by one or two descriptors while the loader leaves the
    firmware costs two rounds; one that grows by three is written beyond the
    end of the buffer: the size the firmware asks for becomes the size the
    next round claims to have. *)
Example memory_map_overrun :
  (exists e i w, efi_main (Fw 20 2 0 false) = Jumps e i w /\ fw_overrun w = false) /\
  (exists e i w, efi_main (Fw 20 3 0 false) = Jumps e i w /\ fw_overrun w = true).
Proof. split; eexists _, _, _; (split; [vm_compute; reflexivity|reflexivity]). Qed.

(** ** The boot records *)

Lemma insert_second (v v' : encrypted_record) k t' : btree_insert (one_entry 1 v k) 2 v' = Done t' ->
  t' = BTree (BNode (1 :: 2 :: replicate 61 0) (Some v :: Some v' :: replicate 61 None) (replicate 64 None) 2 true) 2 k.
Proof. intros E. vm_compute in E. injection E as <-. reflexivity. Qed.

Lemma room_boot k : room_for 3 (btree_init k) 1.
Proof.
  assert (is_u64 1 /\ is_u64 2 /\ is_u64 3) as (U1 & U2 & U3) by (unfold is_word; lia).
  split; [exact I|]. split; [apply not_elem_of_nil|]. split; [done|]. intros v t' ->%insert_init. change (u64 (1 + 1)) with 2.
  split; [exact I|]. split; [cbn; rewrite list_elem_of_singleton; lia|]. split; [done|]. intros v' t' ->%insert_second. change (u64 (2 + 1)) with 3.
  split; [exact I|]. split; [cbn; set_solver by lia|]. by split.
Qed.

Lemma system_record_built rid key value : is_u64 rid ->
  let rec := system_record rid key value in wf_record rec /\ fits_record rec /\ row_id rec = rid.
Proof.
  intros Hr rec. assert (forall s, bytes (cs s ++ [0])) as Hz.
  { intros s. apply Forall_app. split; [apply bytes_cs|]. by repeat constructor. }
  assert (field_count rec = 4) as Hc by reflexivity.
  assert (built 4 rec) as Hb.
  { unfold rec, system_record. set (r0 := Rec rid _ _ 0).
    assert (built 4 r0) as H0.
    { constructor; [done|done|by cbn|done| |done]. apply Forall_replicate, slim_zero. }
    clearbody r0. unfold record_set_u64, record_set_str, MAX_COLUMNS. cbn [Nat.leb].
    repeat (apply built_set; [unfold MAX_COLUMNS; lia|lia|first [by apply slim_u64|apply slim_u64; unfold is_word; lia|by apply slim_str_field]|]). done. }
  split; [by apply (built_wf 4); [unfold MAX_COLUMNS; lia|..]|]. split; [by apply (built_fits 4); [lia|..]|done].
Qed.

Fixpoint boot_rows (rid : Z) (l : list (string * string)) (content : gmap Z record) : gmap Z record :=
  match l with
  | [] => content
  | (k, v) :: l => boot_rows (u64 (rid + 1)) l (<[rid := system_record rid k v]> content)
  end.

Section boot_db.
Context `{Hw, AesNi, !HwLaws, !AesNiLaws}.
Context (mem : nat -> bool) (Hmem : forall n, mem n = true).

Lemma insert_systems_stores l : forall st t content,
  db_ok st -> tables st !! TABLE_ID_SYSTEM = Some t -> table_is TABLE_ID_SYSTEM t content ->
  room_for (length l) (index t) (global_row_id st) ->
  exists st' t', insert_systems mem st l = Done st' /\ db_ok st' /\ tables st' = <[TABLE_ID_SYSTEM := t']> (tables st) /\
    table_is TABLE_ID_SYSTEM t' (boot_rows (global_row_id st) l content).
Proof.
  induction l as [|[key v] l IH]; intros st t content Hok L Ht Hr; cbn [insert_systems boot_rows length] in *.
  { exists st, t. by rewrite list_insert_id. }
  destruct Hr as (Hroom & Hfresh & Hu & Hnext). set (rid := global_row_id st) in *.
  destruct (system_record_built rid key v Hu) as (Hw & Hf & Hrid). set (rec := system_record rid key v) in *.
  set (st1 := (db_next_row_id st).1).
  assert (db_ok st1) as Hok1 by (destruct Hok; by constructor).
  destruct (insert_stores mem st1 TABLE_ID_SYSTEM t rec) as (i & g & ivec & Hl & Hb & E & Hok' & Ea & Ei); [done..|by rewrite Hrid|].
  unfold insert_system, db_next_row_id. fold rid. fold rec. change (Db _ _ _ _ _ _ _) with st1. rewrite E.
  pose proof (table_is_insert TABLE_ID_SYSTEM t i content rec _ ivec Ht Hl Hb Hw Hf Ea) as Ht'. rewrite Hrid in Ht', Ei.
  destruct (IH (after_insert st1 TABLE_ID_SYSTEM t i rec g) (set_index t i) (<[rid := rec]> content)) as (st' & t' & E' & Hok2 & Et & Htt);
    [done|by apply list_lookup_insert_eq, (lookup_lt_Some _ _ _ L)|done|exact (Hnext _ _ Ei)|].
  exists st', t'. split; [done|]. split; [done|]. split; [|done]. rewrite Et. cbn. by rewrite list_insert_insert_eq.
Qed.

Lemma init_holds id t k : index t = btree_init k -> table_is id t ∅.
Proof. intros E. split; [|done]. intros j. by rewrite E, (proj2 (wf_tree_init _)), !lookup_empty. Qed.

(** The system tables, empty, in order. *)
Lemma create_tables l : forall st, db_ok st -> (length (tables st) + length l <= MAX_TABLES)%nat ->
  let st' := foldl (fun st sch => fst (db_create_table st sch)) st l in
  db_ok st' /\ global_row_id st' = global_row_id st /\
  exists ts, tables st' = tables st ++ ts /\ map (fun t => sch_name (schema t)) ts = map sch_name l /\
    map index ts = map (fun i => btree_init (Z.of_nat i)) (seq (length (tables st)) (length l)).
Proof.
  induction l as [|sch l IH]; intros st Hok Hn; cbn [foldl length] in *; [split; [done|]; split; [done|]; exists []; by rewrite app_nil_r|].
  pose proof (create_table_ok st sch Hok) as Hok1. unfold db_create_table in *.
  rewrite (proj2 (Nat.leb_gt _ _)) in Hok1 |- * by lia.
  destruct (derive_table_key st (Z.of_nat (length (tables st)))) as [[fl rk] mc]. cbn [fst] in *.
  destruct (IH _ Hok1) as (Hok2 & Hg & ts & Et & En & Ei); [cbn [tables]; rewrite length_app; cbn; lia|]. split; [done|]. split; [done|].
  eexists (_ :: ts). rewrite Et. cbn [tables]. split; [by rewrite <- app_assoc|]. cbn [map sch_name schema index seq]. rewrite En, Ei.
  cbn [tables]. rewrite length_app, Nat.add_1_r. done.
Qed.

Lemma system_tables_ready st : db_ok st -> tables st = [] -> global_row_id st = 1 ->
  exists st' t, db_init_system_tables mem st = Done st' /\ db_ok st' /\
    map (fun t => sch_name (schema t)) (drop 1 (tables st')) = map sch_name (drop 1 system_schemas) /\
    tables st' !! TABLE_ID_SYSTEM = Some t /\ table_is TABLE_ID_SYSTEM t (boot_rows 1 boot_values ∅).
Proof.
  intros Hok Ht Hg. destruct (create_tables system_schemas st Hok) as (Hok1 & Hg1 & ts & Et & En & Ei); [rewrite Ht; cbn; unfold MAX_TABLES; lia|].
  rewrite Ht in Et, Ei. unfold db_init_system_tables. set (st1 := foldl _ _ _) in *. clearbody st1.
  cbn [Datatypes.app length] in Et, Ei. destruct ts as [|t0 ts]; [discriminate En|]. assert (index t0 = btree_init 0) as Ei0 by (apply (f_equal (hd (btree_init 0))) in Ei; exact Ei).
  apply (f_equal (@List.tl _)) in En. cbn [map List.tl] in En. clear Ei.
  assert (tables st1 !! TABLE_ID_SYSTEM = Some t0) as L by (rewrite Et; reflexivity).
  assert (table_is TABLE_ID_SYSTEM t0 ∅) as Hempty by (exact (init_holds _ _ _ Ei0)).
  assert (room_for (length boot_values) (index t0) (global_row_id st1)) as Hroom.
  { rewrite Ei0, Hg1, Hg. change (length boot_values) with 3%nat. exact (room_boot 0). }
  destruct (insert_systems_stores boot_values st1 t0 ∅ Hok1 L Hempty Hroom) as (st' & t' & E & Hok2 & Et2 & Ht2).
  exists st', t'. rewrite Hg1, Hg in Ht2. rewrite Et2, Et. split; [exact E|]. split; [exact Hok2|]. split; [exact En|]. split; [reflexivity|exact Ht2].
Qed.
End boot_db.

(** ** The other components *)

Lemma pmm_init_wf st mmap ks ke : (highest_page st <= MAX_PAGES)%nat -> wf_pmm (pmm_init st mmap ks ke).
Proof.
  intros Hh. assert (forall l st, wf_pmm st -> wf_pmm (foldl reserve st l)) as Hres.
  { induction l as [|p l IH]; intros s Hs; cbn [foldl]; [done|]. apply IH. unfold reserve. destruct (negb _); [|done].
    destruct Hs as [T1 T2 T3]. constructor; cbn [bitmap highest_page]; [unfold bitmap_set; by rewrite length_insert|by apply words_set|done]. }
  assert (forall l st, wf_pmm st -> wf_pmm (foldl free_one st l) /\ highest_page (foldl free_one st l) = highest_page st) as Hfree.
  { induction l as [|p l IH]; intros s Hs; cbn [foldl]; [done|]. destruct Hs as [T1 T2 T3].
    apply (IH (free_one s p)). constructor; cbn [free_one bitmap highest_page]; [unfold bitmap_clear; by rewrite length_insert|by apply words_clear|done]. }
  assert (forall l st, wf_pmm st -> wf_pmm (foldl add_region st l)) as Hadd.
  { induction l as [|e l IH]; intros s Hs; cbn [foldl]; [done|]. apply IH. unfold add_region. destruct (_ =? _); [|done].
    set (pages := seq _ _). destruct (Hfree pages s Hs) as [[T1 T2 T3] Hp].
    constructor; cbn [bitmap highest_page]; [done|done|]. apply Nat.max_lub; [exact T3|apply Nat.le_min_r]. }
  unfold pmm_init. apply Hres, Hres, Hadd. constructor; cbn [bitmap highest_page]; [apply length_replicate| |done].
  apply Forall_replicate. clear. by split.
Qed.

Lemma memcmp_same l : forall n, memcmp l l n = 0.
Proof. intros n. revert l. induction n as [|n IH]; intros l; cbn [memcmp]; [done|]. by rewrite Z.eqb_refl, IH. Qed.

Section self_tests.
Context `{Hw, AesNi, !AesNiLaws}.

(** The known answers. *)
Lemma empty_digest : let d := sha256 [] in ((d.[0] =? 0xe3) && (d.[1] =? 0xb0) && (d.[2] =? 0xc4)) = true.
Proof. vm_compute. reflexivity. Qed.

Lemma abc_digest : let d := sha256 (cs "abc") in ((d.[0] =? 0xba) && (d.[1] =? 0x78) && (d.[2] =? 0x16)) = true.
Proof. vm_compute. reflexivity. Qed.

Lemma hmac_test : let d := hmac_sha256 test_key (cs "test") in (negb (d.[0] =? 0) || negb (d.[1] =? 0)) = true.
Proof. vm_compute. reflexivity. Qed.

Lemma aes_test fl fl' ecx : aes_cbc_decrypt fl' (snd (aes_init fl ecx test_key)) (replicate 16 0)
  (aes_cbc_encrypt fl' (snd (aes_init fl ecx test_key)) (replicate 16 0) test_plain) = test_plain.
Proof.
  apply cbc_roundtrip; [apply aes_init_schedule; [vm_compute; lia|by_compute]|reflexivity|by_compute|reflexivity|by_compute].
Qed.

(** The self-tests pass, whether or not the processor has AES instructions. *)
Lemma self_tests_pass fl : fst (run_crypto_tests fl) = true.
Proof.
  unfold run_crypto_tests. pose proof empty_digest as T1. pose proof abc_digest as T2. pose proof hmac_test as T3.
  pose proof (fun fl' => aes_test fl fl' cpuid1_ecx) as T4. cbv zeta in *.
  revert T1 T2 T3 T4. generalize (sha256 []), (sha256 (cs "abc")), (hmac_sha256 test_key (cs "test")). intros d1 d2 d3 -> -> -> T4.
  destruct (aes_init fl cpuid1_ecx test_key) as [fl' rk]. cbn [fst snd] in *. by rewrite T4, memcmp_same.
Qed.

Lemma benchmarks_keep now db ctx : snd (run_crypto_benchmarks now db (CapSpec.boot_caps ctx)) = CapSpec.boot_caps ctx /\
  let db' := fst (run_crypto_benchmarks now db (CapSpec.boot_caps ctx)) in
  (serde_buf db', crypto_buf db') = (serde_buf db, crypto_buf db).
Proof.
  unfold run_crypto_benchmarks. destruct (aes_init _ _ _) as [fl rk]. cbn [fst snd]. split; [|done].
  generalize 100%nat. intros n. induction n as [|n IH]; [done|]. change (Nat.iter (S n) ?f ?x) with (f (Nat.iter n f x)). by rewrite IH.
Qed.
End self_tests.

Lemma first_caps now ctx key : let caps := cap_init now (CapSpec.boot_caps ctx) key in
  let '(c1, cap) := cap_create now caps 1 CAP_OBJ_PROCESS 1 CAP_ALL 0 in cap_inv (fst (cap_table_insert c1 cap)).
Proof.
  intros caps. assert (next_cap_id caps = 2) as Hn.
  { unfold caps, cap_init. unfold cap_create, cap_table_insert. cbn [fst snd cap_table_init next_cap_id CapSpec.boot_caps]. by repeat case_match. }
  pose proof (inv_create now caps 1 CAP_OBJ_PROCESS 1 CAP_ALL 0 (inv_init _ _ _) ltac:(rewrite Hn; lia) (or_introl eq_refl)) as Hi.
  destruct (cap_create _ _ _ _ _ _ _) as [c1 cap]. destruct (cap_table_insert c1 cap) as [c2 err]. apply Hi.
Qed.

Lemma keys_start kb : length (slots (kb_buffer kb)) = KB_BUFFER_SIZE ->
  wf_ring KB_BUFFER_SIZE (kb_buffer (keyboard_init kb)) /\ kb_waiting (keyboard_init kb) = [].
Proof.
  intros Hl. split; [constructor; [exact Hl|unfold KB_BUFFER_SIZE; cbn; lia..]|]. apply (ring_items_nil 0 KB_BUFFER_SIZE).
Qed.

Lemma handlers_start idt_addr stubs :
  take 2 (irq_register_handler (irq_register_handler (handlers (idt_init idt_addr stubs)) 0 PitHandler) 1 KeyboardHandler) =
  [Some PitHandler; Some KeyboardHandler].
Proof. reflexivity. Qed.

Lemma screen_start base w h p f mem fb : base <> 0 ->
  let fb' := fb_init base w h p f mem fb in fb_ready fb' = true /\ (width fb', height fb', pitch fb') = (w, h, p).
Proof. intros Hb. unfold fb_init. by rewrite (proj2 (Z.eqb_neq _ _) Hb). Qed.

Lemma calls_start entry m : rdmsr MSR_LSTAR (syscall_init entry m) = entry.
Proof. unfold syscall_init, rdmsr, wrmsr. by rewrite lookup_insert_ne, lookup_insert_eq by done. Qed.

(** ** The first process *)

Lemma first_process_starts s0 h h' stack caps pml4 now name entry :
  kmalloc h PROC_STACK_SIZE = (h', Some stack) ->
  let caps' := let '(c1, cap) := cap_create now caps 1 CAP_OBJ_PROCESS 1 CAP_ALL 0 in fst (cap_table_insert c1 cap) in
  exists s s', process_create pml4 now (Machine (scheduler_init (process_init s0)) h caps) name entry = Some (Machine s h' caps', Some 0%nat) /\
    scheduler_start (scheduler_add s 0) = Some (s', entry) /\ rotating s' [] 0 /\
    p_pid (proc s' 0) = 1 /\ stack_base (proc s' 0) = stack /\ tss_rsp0 s' = u64 (stack + PROC_STACK_SIZE).
Proof.
  intros Hk caps'. unfold process_create. cbn [m_sched m_heap m_caps].
  assert (find_pid (processes (scheduler_init (process_init s0))) 0 0 = Some 0%nat) as -> by reflexivity. rewrite Hk.
  change (next_pid (scheduler_init (process_init s0))) with 1.
  subst caps'. destruct (cap_create now caps 1 CAP_OBJ_PROCESS 1 CAP_ALL 0) as [c1 cap]. cbn [fst snd].
  set (p := Proc 1 _ _ _ _ _ _ _ _). set (s := Sched _ _ _ _ _ _ _ _).
  assert (queue_is s []) as Hq by (split; [split; [repeat split|repeat constructor; set_solver]|constructor]).
  assert (queue_is (scheduler_add s 0) [0%nat]) as Ha by (apply (queue_add s [] 0); [exact Hq|set_solver|cbn; lia]).
  eexists s, _. split; [reflexivity|]. unfold scheduler_start. rewrite (queue_empty _ _ Ha), bool_decide_eq_false_2, (queue_first _ _ _ Ha) by done.
  split; [reflexivity|]. split; [|done]. constructor; [|done|done|done]. destruct Ha as [A1 A2]. by split.
Qed.

(** ** From the entry to the shell *)

(** The variables before [kernel_main]: the sections of the image, zeroed or
    initialised, and a serial port with its divisor latch closed. *)
Record power_on (k : kernel) : Prop := {
  po_line : open_line (k_uart k);
  po_pages : highest_page (frames (k_vm k)) = O;
  po_keys : length (slots (kb_buffer (k_kb k))) = KB_BUFFER_SIZE;
  po_serde : length (serde_buf (k_db k)) = MAX_RECORD_SIZE;
  po_crypto : length (crypto_buf (k_db k)) = (MAX_RECORD_SIZE + AES_BLOCK_SIZE)%nat;
  po_caps : exists ctx, m_caps (k_machine k) = CapSpec.boot_caps ctx
}.

Section boot.
Context `{Hw, AesNi, !HwLaws, !AesNiLaws}.

(** Every component works, and the shell is the one running process. *)
Record running (l : link_map) (b : boot_info) (k : kernel) : Prop := {
  ru_line : (dll (k_uart k), dlm (k_uart k), lcr (k_uart k)) = (1, 0, 3);
  ru_space : address_space (k_vm k) (k_pml4 k);
  ru_heap : wf_heap (m_heap (k_machine k));
  ru_screen : fb_ready (k_fb k) = true /\ (width (k_fb k), height (k_fb k), pitch (k_fb k)) = (fb_width b, fb_height b, fb_pitch b);
  ru_keys : wf_ring KB_BUFFER_SIZE (kb_buffer (k_kb k)) /\ kb_waiting (k_kb k) = [];
  ru_timer : pit_hz (k_timer k) = 1000 /\ take 2 (irq_handlers (k_timer k)) = [Some PitHandler; Some KeyboardHandler];
  ru_caps : cap_inv (m_caps (k_machine k));
  ru_db : db_ok (k_db k);
  ru_tables : exists t, tables (k_db k) !! TABLE_ID_SYSTEM = Some t /\ table_is TABLE_ID_SYSTEM t (boot_rows 1 boot_values ∅) /\
    map (fun t => sch_name (schema t)) (drop 1 (tables (k_db k))) = map sch_name (drop 1 system_schemas);
  ru_ipc : wf_ipc (k_ipc k);
  ru_calls : rdmsr MSR_LSTAR (k_msrs k) = l_syscall_entry l;
  ru_shell : rotating (m_sched (k_machine k)) [] 0 /\ p_pid (proc (m_sched (k_machine k)) 0) = 1;
  ru_stack : rsp0 (kernel_tss (k_gdt k)) = u64 (stack_base (proc (m_sched (k_machine k)) 0) + PROC_STACK_SIZE)
}.

(** C11: the system comes up.  Given a boot description with the magic number
    and sizes in range, a memory map that leaves 4500 free frames, and room in
    the heap for the database's rows and one stack, [kernel_main] passes its
    self-tests and every initialisation, and enters [shell_main].  At that
    point the address space, the heap, the capability table, the database
    (with the six system tables and the three boot records in SystemTable),
    the message queue and the keyboard's queue satisfy their invariants, the
    timer runs at 1000 Hz, and the shell, process 1, is the running process. *)
Theorem kernel_boots (mem : nat -> bool) (db_heap : heap_state -> heap_state) (l : link_map)
    (mmap : list mmap_entry) (fbmem : list Z) (b : boot_info) (k : kernel) :
  power_on k -> magic b = BOOT_INFO_MAGIC -> boot_ok b ->
  4500 <= Z.of_nat (free_count (pmm_init (frames (k_vm k)) mmap (kern_start l) (kern_end l))) ->
  (forall n, mem n = true) ->
  wf_heap (db_heap heap_init) -> snd (kmalloc (db_heap heap_init) PROC_STACK_SIZE) <> None ->
  exists k', kernel_main mem db_heap l mmap fbmem b k = Starts k' (l_shell_main l) /\ running l b k'.
Proof.
  intros [P1 P2 P3 P4 P5 (ctx & P6)] Hmagic Hb Hfree Hmem Hh Hk. unfold kernel_main.
  rewrite Hmagic, Z.eqb_refl. cbn [negb]. set (pm := pmm_init _ _ _ _) in *.
  assert (wf_pmm pm) as Hpm by (apply pmm_init_wf; rewrite P2; lia).
  destruct (vmm_init_succeeds (Vm (words_at (k_vm k)) pm) b Hpm Hb Hfree) as (v & pml4 & Ev).
  destruct (vmm_init_trans (Vm (words_at (k_vm k)) pm) b v pml4 Hpm Hb Ev) as [Hsp _]. rewrite Ev.
  assert (forall t, exists t', pit_init 1000 t = Some t' /\ pit_hz t' = 1000 /\ irq_handlers t' = irq_register_handler (irq_handlers t) 0 PitHandler) as Hpit
    by (intros t; by eexists).
  match goal with |- context [pit_init 1000 ?t] => destruct (Hpit t) as (t' & -> & Hz & Hhs) end. cbn [irq_handlers] in Hhs.
  cbn [keyboard_start]. pose proof (self_tests_pass (aes_fl (with_gen (k_db k) (random_init (gen (k_db k)))))) as Hpass.
  destruct (run_crypto_tests _) as [passed fl]. cbn [fst] in Hpass. subst passed. cbn [negb]. rewrite P6.
  match goal with |- context [run_crypto_benchmarks ?n ?d ?c] => destruct (benchmarks_keep n d ctx) as [Hc Hd]; destruct (run_crypto_benchmarks n d c) as [db1 caps1] end.
  cbn [fst snd serde_buf crypto_buf with_gen] in Hc, Hd. subst caps1. injection Hd as Hd1 Hd2.
  destruct (random_bytes (gen db1) 32) as [g key].
  assert (db_ok (db_init (with_gen db1 g))) as Hdb by (apply init_ok; cbn [with_gen serde_buf crypto_buf]; congruence).
  destruct (system_tables_ready mem Hmem (db_init (with_gen db1 g)) Hdb) as (db2 & st & -> & Hdb2 & Hn & Hl & Hti);
    [unfold db_init; by destruct (random_bytes _ 32)..|].
  destruct (kmalloc (db_heap heap_init) PROC_STACK_SIZE) as [h' [stack|]] eqn:Ek; [clear Hk|done].
  pose proof (kmalloc_meets (db_heap heap_init) PROC_STACK_SIZE Hh ltac:(unfold PROC_STACK_SIZE; lia)) as Hm. rewrite Ek in Hm. destruct Hm as [Hwf _].
  match goal with |- context [process_create ?p ?n (Machine (scheduler_init (process_init ?s0)) _ ?c) ?nm ?e] =>
    destruct (first_process_starts s0 (db_heap heap_init) h' stack c p n nm e Ek) as (s & s' & -> & Es & Hrot & Hpid & Hst & Htss);
    pose proof (first_caps n ctx key) as Hci end.
  cbn [m_sched m_heap m_caps]. rewrite Es. eexists. split; [reflexivity|].
  destruct (serial_init_line (k_uart k) P1) as (Hser & _ & _). pose proof (bo_fb _ Hb) as [Hfb _].
  constructor; cbn [k_uart k_gdt k_idt k_timer k_vm k_pml4 k_fb k_kb k_db k_ipc k_msrs k_machine m_sched m_heap m_caps].
  - by apply pair_equal_spec in Hser as [[[Hser _]%pair_equal_spec _]%pair_equal_spec _].
  - exact Hsp.
  - exact Hwf.
  - by apply screen_start.
  - by apply keys_start.
  - split; [exact Hz|]. cbn [irq_handlers]. rewrite Hhs. apply handlers_start.
  - cbv zeta in Hci. by destruct (cap_create _ _ _ _ _ _ _) as [c1 cap].
  - exact Hdb2.
  - by exists st.
  - apply wf_ipc_init.
  - apply calls_start.
  - by split.
  - cbn [gdt_set_tss_rsp0 kernel_tss rsp0]. by rewrite Htss, Hst.
Qed.
End boot.

(** ** A machine

    32 MiB of memory in one region, the kernel at 1 MiB, and a heap in which
    the database has placed three records and a node. *)

Definition demo_link : link_map := LinkMap 0x100000 0x180000 0x200000 0x201000 0x202000 [] 0x110000 0x120000.

Definition demo_kernel : kernel :=
  Kernel (Uart 0 0 0 0 0 0 0 []) (GdtState [] (Tss 0 0 0 0 0 [] 0 0 0) (0, 0)) (IdtState [] (0, 0) [])
    (Timer 0 0 [] (Pics (Pic 0 0 0 [] 0 0) (Pic 0 0 0 [] 0 0)) []) (Vm (fun _ => 0) (Pmm [] 0 0 0)) 0
    (Fb false [] 0 0 0 0 0 0 0 0 0 0 0 0) kb_boot boot_db ipc_init ∅
    (Machine (Sched [] 0 (Links (fun n => n) (fun n => n)) None 0 false 0 []) heap_init (CapSpec.boot_caps (hmac_ctx_init []))).

Definition db_allocs : list Z := [72; 96; 72; 96; 72; 144; 1552].
Definition alloc_all (h : heap_state) : heap_state := foldl (fun h n => fst (kmalloc h n)) h db_allocs.

Lemma allocs_wf l : Forall (fun n => 0 < n <= 2 ^ 64 - 16) l -> forall h, wf_heap h -> wf_heap (foldl (fun h n => fst (kmalloc h n)) h l).
Proof.
  induction 1 as [|n l Hn Hl IH]; intros h Hw; cbn [foldl]; [done|]. apply IH.
  pose proof (kmalloc_meets h n Hw Hn) as Hm. destruct (kmalloc h n) as [h' [p|]]; cbn [kmalloc_post fst] in *; [apply Hm|]. by destruct Hm as [-> _].
Qed.

Lemma kernel_boots_witness :
  exists k', kernel_main all_mem alloc_all demo_link [MmapEntry MMAP_USABLE 0 8192] [] Paging.demo_boot demo_kernel = Starts k' 0x120000 /\
    running demo_link Paging.demo_boot k'.
Proof.
  apply (kernel_boots all_mem alloc_all demo_link [MmapEntry MMAP_USABLE 0 8192] [] Paging.demo_boot demo_kernel).
  - constructor; try (vm_compute; reflexivity). by exists (hmac_ctx_init []).
  - reflexivity.
  - apply demo_boot_ok.
  - vm_compute. discriminate.
  - done.
  - apply allocs_wf; [by repeat constructor|apply heap_init_wf].
  - vm_compute. discriminate.
Defined.
